(* ===== verification/_CoqProject ===== *)
-Q . S2P
Prelude.v
Interfaces.v
ExtHash.v
LruK.v
Disk.v
BufferPool.v
Pool.v
Pages.v
TablePage.v
TableHeap.v
TxnManager.v
Storage.v
BTreePage.v
CStd.v
StringUtil.v
Value.v
Types.v
TypeOps.v
ValueFactory.v
Tuple.v
HeaderPage.v
BPlusTree.v
Index.v
Catalog.v
Transactions.v
Expressions.v
Plans.v
Bound.v
Binder.v
Planner.v
MockScan.v
Executors.v
Aggregation.v
PlannerTheory.v
PlannerAgg.v
PlannerTerm.v
BinderTheory.v
PlanTyping.v
Optimizer.v
OptimizerSem.v
Explain.v
Writers.v
Instance.v
Session.v
SqlLogicTest.v
SqlRunner.v
Trie.v
