(* ===== verification/Prelude.v ===== *)
(** * BusTub verification library

    BusTub is a disk-oriented relational database: a disk manager stores pages
    in a file, a buffer pool caches them in memory frames, an extendible hash
    table tells the pool which frame holds a page and an LRU-K replacer which
    frame to give up; slotted pages hold tuples, chained into tables, tuples hold
    SQL values; transactions keep the writes to undo; a B+ tree indexes keys; a
    header page records where tables and indexes start. A query is parsed (by a
    vendored library), bound to the tables of the catalog, planned, optimized, and run
    by executors that evaluate expressions over tuples; a writer prints the rows. The
    SQL logic test tool runs scripts of statements and compares what they print. This library is a
    shallow embedding of those parts: every definition is an executable Rocq
    function on the data the C++ code works on (bytes of pages, nodes behind
    pointers, machine integers of their width), and the theorems state what the
    code guarantees. Source paths below are relative to the repository's src/, except those of tools/.

    ** Files and what they model

    - [Prelude]: outcomes of fallible code ([result], [outcome]), wrap-around of
      machine integers, little-endian words in byte lists, [splice]/[slice] for
      [memcpy]/[memmove], generic lemmas and tactics.
    - [Interfaces]: what the buffer pool promises and expects of its page table
      and its replacer: operation classes and law classes.
    - [ExtHash]: container/hash/extendible_hash_table.cpp. Buckets live in a
      store, the directory holds indices into it, so entries alias buckets as
      the shared pointers do. [Find], [Insert], [Remove], splitting and doubling.
    - [LruK]: buffer/lru_k_replacer.cpp. The two doubly linked lists as nodes in
      a store, [RecordAccess], [Evict], [SetEvictable], [Remove].
    - [Disk]: storage/disk/disk_manager.cpp. Page and log files as byte streams
      with position and fail bit.
    - [BufferPool]: buffer/buffer_pool_manager_instance.cpp over any page table
      and replacer; [Pool] instantiates it with [ExtHash] and [LruK] as the
      constructor does.
    - [Pages]: the buffer pool as its clients see it (pages created, fetched,
      written, unpinned): a class of operations, the laws of a view of the pages,
      and the proof that the buffer pool keeps them. Tables, transactions and
      the B+ tree are written and proved against this interface.
    - [TablePage]: storage/page/table_page.cpp, the slotted page on its bytes.
    - [TableHeap]: storage/table/table_heap.cpp and table_iterator.cpp, a table as
      a chain of slotted pages, with its iterator.
    - [TxnManager]: [Commit] and [Abort] of concurrency/transaction_manager.cpp on
      the table write set. [Transactions]: the whole manager, with lock sets, the
      index write set, the map of transactions and the global latch.
    - [Storage]: tables and transactions on the buffer pool of the program.
    - [BTreePage]: storage/page/b_plus_tree_page.cpp, b_plus_tree_leaf_page.cpp,
      b_plus_tree_internal_page.cpp on the bytes of the page.
    - [BPlusTree]: storage/index/b_plus_tree.cpp. [Index]: the keys and their
      comparator (include/storage/index/generic_key.h) and the index operations of
      storage/index/b_plus_tree_index.cpp.
    - [StringUtil]: common/util/string_util.cpp.
    - [CStd], [Value], [Types], [TypeOps], [ValueFactory]: the standard library
      functions on strings and doubles, and the SQL type system of type/ and
      include/type/: construction, casts, storage, arithmetic, comparison.
    - [Tuple]: catalog/column.cpp, catalog/schema.cpp, storage/table/tuple.cpp.
    - [HeaderPage]: storage/page/header_page.cpp.
    - [Expressions]: include/execution/expressions/, the expressions of queries and
      their evaluation on one tuple or two.
    - [Catalog]: include/catalog/catalog.h, tables and indexes by id and by name.
    - [Bound], [Binder]: include/binder/ and binder/, bound statements and the
      binder, from the parse tree to them: names, stars, FROM items, WITH clauses.
      [BinderTheory]: binding and planning agree on columns.
    - [Plans]: include/execution/plans/ and execution/plan_node.cpp, plan nodes and the
      inference of their schemas.
    - [Planner]: planner/, from bound statements to plans, with the context of
      aggregations and the changes planning makes to the statement.
      [PlannerTheory], [PlannerAgg], [PlannerTerm]: its plans are well formed,
      aggregates are planned as by a direct translation, planning terminates.
    - [MockScan], [Executors]: execution/, the mock tables, the executors and the loop of
      include/execution/execution_engine.h. [PlanTyping]: typed plans run safely.
    - [Aggregation]: the hash table of include/execution/executors/aggregation_executor.h,
      the keys of include/execution/plans/aggregation_plan.h and common/util/hash_util.h.
    - [Optimizer]: optimizer/, all rules and their composition. [OptimizerSem]: what plans mean,
      joins, sorts and scans included, and that optimizing keeps it.
    - [Explain]: the text of bound statements and plans (binder/fmt_impl.cpp,
      binder/statement/, execution/fmt_impl.cpp). [Writers]: the [ResultWriter] classes of
      include/common/bustub_instance.h.
    - [Instance]: [ExecuteSqlTxn] of common/bustub_instance.cpp, every statement and meta
      command. [Session]: [ExecuteSql] with its transaction, and scripts of texts.
    - [SqlLogicTest], [SqlRunner]: tools/sqllogictest/, the parser of test scripts and the
      runner over any engine; the instance is one.
    - [Trie]: include/primer/p0_trie.h.

    ** What the theorems show

    - Refinement: a run of the buffer pool from its constructor behaves as a
      plain store of page contents ([Pool.pool_refines_store], with a theorem
      for each operation); the hash table implements a finite map
      ([ExtHash.Insert_refines], [ExtHash.Remove_refines]); the header page
      implements a list of named roots; the trie's insertion and lookup a map;
      rows stored in a table of the whole engine come back from a scan, each once
      ([Storage.store_and_scan_correct]).
    - Transactions: [Abort] restores the table when no update made a row shorter
      ([TxnManager.Abort_restores]), [Commit] leaves the live rows
      ([TxnManager.Commit_applies]); runs show what happens otherwise.
    - The B+ tree: its leaf operations are those of a sorted list
      ([BTreePage.InsertKey_correct]), a leaf is split in two halves
      ([BPlusTree.Split_correct]), but the inverted test in [GetValue] keeps every
      tree at one entry ([BPlusTree.BPlusTree_keeps_first]).
    - Invariants: every replacer and directory that operations make is well formed
      ([LruK.replacer_reachable], [ExtHash.directory_integrity]); the slotted
      page keeps its tuples disjoint and inside the page, which every operation
      on it preserves.
    - Functional behaviour on every branch, errors included: the page
      operations of [TablePage], the eviction policy the replacer implements,
      integer arithmetic (exact, an exception, or undefined when INTEGER and BIGINT overflow),
      comparison, casts.
    - Types: a well-typed expression evaluates to a value of its type
      ([Expressions.Evaluate_type_sound]), the rows of a well-typed plan are tuples
      of its schema ([PlanTyping.Execute_type_sound]), and in the planner's plans every
      column lies in the schema of a child ([PlannerTheory.PlanQuery_scoped]).
    - Queries: execution yields the rows of a list semantics of plans
      ([Executors.Execute_correct]); the optimizer keeps what plans may return
      ([OptimizerSem.Optimize_keeps_rows]) and what the executors return
      ([Optimizer.Optimize_preserves], [Optimizer.RewriteExpressionForJoin_correct]);
      aggregates planned in two phases are those of a direct translation
      ([PlannerAgg.PlanSelectAgg_correct]); a star stands for the columns of the planned
      table, and the planner finds the columns the binder resolved
      ([BinderTheory.star_columns_planned], [BinderTheory.resolved_column_planned]), if both
      have the same common table expressions in scope.
      From its SQL text to the printed table a query shows the rows of its plan
      ([Instance.ExecuteQuery_correct]).
      The catalog's maps stay consistent ([Catalog.Catalog_consistent]).
    - Sessions: the meta commands list exactly the catalog after any script
      ([Session.meta_commands_list_catalog]); each text that throws leaves its transaction
      open ([Session.failed_texts_stay_open]); the global latch counts the running
      transactions ([Transactions.latch_counts_running]) and their locks are all given back
      ([Transactions.ReleaseLocks_exact]).
    - Groups: equal keys of aggregations hash alike and the table has one entry per group
      ([Aggregation.equal_keys_equal_hashes], [Aggregation.InsertCombine_groups]).
    - The test tool compares results as lists or multisets of lines ([SqlRunner.ResultCompare_correct]);
      its plan checks find the nodes that EXPLAIN prints ([SqlRunner.ensure_finds_node],
      [Explain.Plan_ToString_outline]).
    - Progress: repeated eviction empties the replacer of all frames that are not pinned
      ([LruK.Evict_drains]).
    - Round trips: pages and log records through the disk, values and tuples
      through bytes, integers through VARCHAR, timestamps through text, printed tables and
      HTML through the writers, test scripts through their parser.
    - Termination: the scan of a table visits each live row once and ends; the
      retry loop of the hash table's [Insert] ends; the planner ends unless common
      table expressions refer to each other ([PlannerTerm.PlanQuery_terminates]);
      [Split] and [Replace] end unless the separator is empty; the parser of test scripts ends.

    ** Bounds and assumptions

    - Latches serialise the public operations; an operation is one atomic step.
      Where the code would lock a mutex it holds, the outcome is [Blocked].
    - Assertions are enabled; a failed one is an outcome. Undefined behaviour
      (an access out of range, a null pointer) is an outcome of its own, and so is the signed overflow
      of the arithmetic of SQL values and of expressions. The counters of the pool, the disk and
      the transactions wrap, which the bounds of the theorems exclude.
    - [std::hash] is a parameter of the hash table: any function to [size_t].
      [Insert] recurses with fuel 31, one more than the deepest directory (depth
      30) the 32-bit shifts allow; its theorem has the condition under which a
      split separates the keys, and shows that the fuel suffices.
    - The buffer pool's theorems cover page ids below 2^19 - 1, where page
      offsets and file sizes fit [int], and as many accesses as the 64-bit clock
      of the replacer counts.
    - Loops over the pages of a table take fuel, one unit per page (and per row in
      a scan): fuel 2^30 is enough for 2^19 pages of at most 512 rows, and the
      theorems say how much they need. The descent in the B+ tree takes one unit
      per level.
    - The planner takes fuel, one unit per level of nesting, and
      [PlannerTerm.PlanQuery_terminates] says how much; the executors take
      one unit per call, and [Executors.Execute_correct] says how many.
    - The parser is a parameter: any function from texts to parse trees or an exception. So are
      fmt's quoting of strings, libfort, and, for the test tool, the engine.
    - The random shuffle of three mock tables and the order in which hash maps are
      traversed are parameters.
    - A file of 2^19 pages and a clock of 2^64 accesses: the theorems on tables
      assume 2^31 accesses left per command, more than a scan can make.
    - Tuples and strings are shorter than 2 GiB, the range of the [int32_t]
      offsets and lengths in the tuple format.
    - The operating system performs each read and write it is asked for.

    ** Not modelled

    The parser is a vendored library; its parse tree is given as far as the binder
    reads it. Most executors are stubs that throw, and so are modelled as such;
    [CombineAggregateValues] is an unfinished loop. The lock manager, the recovery and checkpoint managers,
    the clock and LRU replacers, the disk hash tables, [BPlusTree::Remove] and the
    index iterator are stubs. [GenerateTestTable] fills tables with random data through
    a generator that only tests use. The table of node names of the parse tree is only
    printed in messages, and the texts of exceptions are not modelled. The shell, the network and
    the other tools only call the other parts. Ownership of memory
    ([allocated_], [manage_data_], destructors) has no counterpart, since byte
    lists are values. Console output and clocks are left out. *)

From Stdlib Require Export ZArith Lia.
From stdpp Require Export base gmap numbers list.
Export list_basics.list list_relations.list list_monad.list list_misc.list list_numbers.list.

Local Open Scope Z_scope.

(** ** Outcomes of fallible code *)

(** How a call can fail: a [bustub::Exception] of the type the constructor
    names ([EMessage] when it only carries a text), a failed assertion, the
    standard library's [std::invalid_argument], [std::out_of_range] and
    [std::logic_error], or
    behaviour the language leaves undefined. *)
Inductive exn : Type :=
| EMessage
| OutOfRange
| DivideByZero
| IncompatibleType
| UnknownType
| MismatchType
| DecimalError
| NotImplemented
| AssertFailed
| InvalidArgument
| StdOutOfRange
| LogicError
| Undefined.

#[export] Instance exn_eq_dec : EqDecision exn.
Proof. solve_decision. Defined.

Inductive result (A : Type) : Type :=
| Ok (a : A)
| Throw (e : exn).
Arguments Ok {A} a.
Arguments Throw {A} e.

Definition rbind {A B} (f : A -> result B) (x : result A) : result B :=
  match x with
  | Ok a => f a
  | Throw e => Throw e
  end.

Declare Scope bustub_scope.
Delimit Scope bustub_scope with bustub.
Notation "'let!' x := c 'in' k" := (rbind (fun x => k) c)
  (at level 10, x pattern, c at level 100, k at level 200)
  : bustub_scope.

(** The results of a sequence of computations, or its first failure. *)
Fixpoint rseq {A} (l : list (result A)) : result (list A) :=
  match l with
  | [] => Ok []
  | Ok a :: l => rbind (fun l => Ok (a :: l)) (rseq l)
  | Throw e :: _ => Throw e
  end.

Lemma rseq_Ok {A} (l : list (result A)) (vs : list A) : rseq l = Ok vs <-> l = Ok <$> vs.
Proof.
  revert vs. induction l as [|r l IH]; intros vs; cbn.
  - split; [by intros [= <-]|]. by destruct vs.
  - destruct r as [a|e]; cbn; [|by destruct vs]. destruct (rseq l) as [as'|e]; cbn.
    + split; [intros [= <-]; cbn; f_equal; by apply IH|]. destruct vs as [|v vs]; [done|]. intros [= <- Hl].
      apply IH in Hl. congruence.
    + split; [done|]. destruct vs as [|v vs]; [done|]. intros [= <- Hl]. apply IH in Hl. done.
Qed.

(** Code that may also lock a mutex it holds or dereference a null pointer. *)
Inductive outcome (A : Type) : Type :=
| Ret (a : A)
| Raised
| Blocked
| Crash.
Arguments Ret {A} a.
Arguments Raised {A}.
Arguments Blocked {A}.
Arguments Crash {A}.

Definition obind {A B} (f : A -> outcome B) (x : outcome A) : outcome B :=
  match x with
  | Ret a => f a
  | Raised => Raised
  | Blocked => Blocked
  | Crash => Crash
  end.

Declare Scope outcome_scope.
Delimit Scope outcome_scope with outcome.
Notation "'let*' x := c 'in' k" := (obind (fun x => k) c)
  (at level 10, x pattern, c at level 100, k at level 200) : outcome_scope.

Definition of_option {A} (x : option A) : outcome A :=
  match x with Some a => Ret a | None => Crash end.

(** ** Machine integers: a w-bit integer is the [Z] it denotes *)

Definition uwrap (w z : Z) : Z := z mod 2 ^ w.
Definition swrap (w z : Z) : Z := (z + 2 ^ (w - 1)) mod 2 ^ w - 2 ^ (w - 1).

Definition ufits (w z : Z) : Prop := 0 <= z < 2 ^ w.
Definition sfits (w z : Z) : Prop := - 2 ^ (w - 1) <= z < 2 ^ (w - 1).

Lemma pow_split w : 0 < w -> 2 ^ w = 2 * 2 ^ (w - 1).
Proof. intros ?. replace w with (Z.succ (w - 1)) at 1 by lia. rewrite Z.pow_succ_r; lia. Qed.

Lemma uwrap_id w z : ufits w z -> uwrap w z = z.
Proof. apply Z.mod_small. Qed.

Lemma uwrap_fits w z : 0 <= w -> ufits w (uwrap w z).
Proof. intros ?. apply Z.mod_pos_bound. apply Z.pow_pos_nonneg; lia. Qed.

Lemma swrap_id w z : 0 < w -> sfits w z -> swrap w z = z.
Proof.
  unfold swrap, sfits. intros Hw ?. pose proof (pow_split w Hw).
  rewrite Z.mod_small; lia.
Qed.

Lemma swrap_fits w z : 0 < w -> sfits w (swrap w z).
Proof.
  unfold swrap, sfits. intros Hw. pose proof (pow_split w Hw).
  pose proof (Z.mod_pos_bound (z + 2 ^ (w - 1)) (2 ^ w)).
  assert (0 < 2 ^ (w - 1)) by (apply Z.pow_pos_nonneg; lia). lia.
Qed.

Lemma swrap_uwrap w z : swrap w (uwrap w z) = swrap w z.
Proof. unfold swrap, uwrap. by rewrite Zplus_mod_idemp_l. Qed.

(** The wrapped value differs from the exact one by a multiple of [2 ^ w]. *)
Lemma swrap_eq w z : 0 < w -> exists q, swrap w z = z + q * 2 ^ w.
Proof.
  intros Hw. unfold swrap. exists (- ((z + 2 ^ (w - 1)) / 2 ^ w)).
  pose proof (Z.div_mod (z + 2 ^ (w - 1)) (2 ^ w)).
  assert (2 ^ w <> 0) by (apply Z.pow_nonzero; lia). lia.
Qed.

(** ** Bits *)

Lemma land_mul_pow2 p s k : 0 <= s < 2 ^ k -> 0 <= k -> Z.land (p * 2 ^ k) s = 0.
Proof.
  intros Hs Hk. apply Z.bits_inj'. intros n Hn. rewrite Z.land_spec, Z.bits_0.
  destruct (Z.lt_ge_cases n k); [by rewrite Z.mul_pow2_bits_low by lia|].
  rewrite <- (Z.mod_small s (2 ^ k)) by lia. rewrite Z.mod_pow2_bits_high by lia. apply andb_false_r.
Qed.

Lemma lor_mul_pow2 p s k : 0 <= s < 2 ^ k -> 0 <= k -> Z.lor (p * 2 ^ k) s = p * 2 ^ k + s.
Proof. intros. symmetry. apply Z.add_nocarry_lor. by apply land_mul_pow2. Qed.

Lemma shiftl_lor_add p s : 0 <= s < 2 ^ 32 -> Z.lor (Z.shiftl p 32) s = p * 2 ^ 32 + s.
Proof. intros. rewrite Z.shiftl_mul_pow2 by lia. apply lor_mul_pow2; lia. Qed.

Lemma land_pow2 s k : 0 <= k -> Z.land s (2 ^ k) = if Z.testbit s k then 2 ^ k else 0.
Proof.
  intros Hk. apply Z.bits_inj'. intros n Hn. rewrite Z.land_spec, Z.pow2_bits_eqb by lia.
  destruct (Z.eqb_spec k n) as [->|].
  - destruct (Z.testbit s n); [by rewrite Z.pow2_bits_true|by rewrite Z.bits_0].
  - rewrite andb_false_r. destruct (Z.testbit s k); [by rewrite Z.pow2_bits_false by lia|by rewrite Z.bits_0].
Qed.

(** ** Byte strings *)

Definition byte_ok (b : Z) : Prop := 0 <= b < 256.

Fixpoint le_encode (n : nat) (z : Z) : list Z :=
  match n with
  | O => []
  | S n => z mod 256 :: le_encode n (z / 256)
  end.

Fixpoint le_decode (l : list Z) : Z :=
  match l with
  | [] => 0
  | b :: t => b + 256 * le_decode t
  end.

Lemma length_le_encode n z : length (le_encode n z) = n.
Proof. revert z. induction n; simpl; auto. Qed.

Lemma le_decode_encode n z : le_decode (le_encode n z) = z mod 256 ^ Z.of_nat n.
Proof.
  revert z. induction n as [|n IH]; intros z; [by rewrite Z.mod_1_r|].
  cbn [le_encode le_decode]. rewrite IH, Nat2Z.inj_succ, Z.pow_succ_r by lia.
  rewrite Z.rem_mul_r; [lia|lia|]. apply Z.pow_pos_nonneg; lia.
Qed.

Lemma le_encode_ok n z : Forall byte_ok (le_encode n z).
Proof.
  revert z. induction n; intros z; constructor; auto.
  apply Z.mod_pos_bound; lia.
Qed.

Lemma le_decode_bound l : Forall byte_ok l -> 0 <= le_decode l < 256 ^ Z.of_nat (length l).
Proof.
  induction 1 as [|b l Hb Hl IH]; [simpl; lia|].
  cbn [le_decode length]. rewrite Nat2Z.inj_succ, Z.pow_succ_r by lia.
  unfold byte_ok in Hb. lia.
Qed.

Lemma le_encode_decode l : Forall byte_ok l -> le_encode (length l) (le_decode l) = l.
Proof.
  induction 1 as [|b l Hb Hl IH]; [done|]. unfold byte_ok in Hb. cbn [length le_decode le_encode].
  rewrite (Z.mul_comm 256), Z.mod_add, Z.div_add by lia.
  rewrite Z.mod_small, Z.div_small by lia. rewrite Z.add_0_l. by rewrite IH.
Qed.

(** ** Reading and writing a byte range: [memcpy] from and to a buffer *)

Definition slice {A} (off len : Z) (l : list A) : list A :=
  take (Z.to_nat len) (drop (Z.to_nat off) l).

Definition splice {A} (off : Z) (bs l : list A) : list A :=
  take (Z.to_nat off) l ++ bs ++ drop (Z.to_nat off + length bs) l.

Definition zlen {A} (l : list A) : Z := Z.of_nat (length l).

Section slices.
Context {A : Type}.
Implicit Types l bs : list A.

Lemma zlen_splice off bs l :
  0 <= off -> off + zlen bs <= zlen l -> zlen (splice off bs l) = zlen l.
Proof.
  unfold zlen, splice. intros. rewrite !length_app, length_take, length_drop. lia.
Qed.

Lemma zlen_slice off len l :
  0 <= off -> 0 <= len -> off + len <= zlen l -> zlen (slice off len l) = len.
Proof. unfold zlen, slice. intros. rewrite length_take, length_drop. lia. Qed.

Lemma lookup_slice off len l (i : nat) :
  0 <= off -> Z.of_nat i < len -> slice off len l !! i = l !! (Z.to_nat off + i)%nat.
Proof. unfold slice. intros. rewrite lookup_take_lt, lookup_drop by lia. done. Qed.

Lemma lookup_splice_in off bs l (i : nat) :
  0 <= off <= zlen l -> (Z.to_nat off <= i < Z.to_nat off + length bs)%nat ->
  splice off bs l !! i = bs !! (i - Z.to_nat off)%nat.
Proof.
  unfold splice, zlen. intros.
  rewrite lookup_app_r; rewrite length_take; [|lia].
  rewrite lookup_app_l by lia. f_equal. lia.
Qed.

Lemma lookup_splice_out off bs l (i : nat) :
  0 <= off <= zlen l -> (i < Z.to_nat off \/ Z.to_nat off + length bs <= i)%nat ->
  splice off bs l !! i = l !! i.
Proof.
  unfold splice, zlen. intros ? [Hi|Hi].
  - rewrite lookup_app_l by (rewrite length_take; lia). by apply lookup_take_lt.
  - rewrite lookup_app_r, lookup_app_r; rewrite ?length_take; try lia.
    rewrite lookup_drop. f_equal. lia.
Qed.

Lemma slice_splice_same off bs l :
  0 <= off -> off + zlen bs <= zlen l -> slice off (zlen bs) (splice off bs l) = bs.
Proof.
  intros. apply list_eq. intros i. unfold zlen in *.
  destruct (decide (i < length bs)%nat).
  - rewrite lookup_slice, lookup_splice_in by (unfold zlen; lia). f_equal. lia.
  - rewrite !lookup_ge_None_2; [done|lia|].
    unfold slice. rewrite length_take. lia.
Qed.

Lemma slice_splice_disj off bs l off' len' :
  0 <= off -> off + zlen bs <= zlen l -> 0 <= off' ->
  (off' + len' <= off \/ off + zlen bs <= off') ->
  slice off' len' (splice off bs l) = slice off' len' l.
Proof.
  intros. apply list_eq. intros i. unfold zlen in *.
  destruct (decide (Z.of_nat i < len')).
  - rewrite !lookup_slice by lia. apply lookup_splice_out; unfold zlen; lia.
  - rewrite !lookup_ge_None_2; [done| |]; unfold slice; rewrite length_take; lia.
Qed.

(** A range read inside the bytes just written. *)
Lemma slice_splice_inside off bs l off' len' :
  0 <= off -> off + zlen bs <= zlen l -> off <= off' -> 0 <= len' ->
  off' + len' <= off + zlen bs ->
  slice off' len' (splice off bs l) = slice (off' - off) len' bs.
Proof.
  intros. apply list_eq. intros i. unfold zlen in *.
  destruct (decide (Z.of_nat i < len')).
  - rewrite !lookup_slice by lia. rewrite lookup_splice_in by (unfold zlen; lia). f_equal. lia.
  - rewrite !lookup_ge_None_2; [done| |]; unfold slice; rewrite length_take; lia.
Qed.

Lemma slice_slice off len l off' len' :
  0 <= off -> 0 <= off' -> 0 <= len' -> off' + len' <= len ->
  slice off' len' (slice off len l) = slice (off + off') len' l.
Proof.
  intros. apply list_eq. intros i. destruct (decide (Z.of_nat i < len')).
  - rewrite !lookup_slice by lia. f_equal. lia.
  - rewrite !lookup_ge_None_2; [done| |]; unfold slice; rewrite length_take; lia.
Qed.

(** Equal ranges have equal parts. *)
Lemma slice_sub l l' off off' n a b :
  0 <= off -> 0 <= off' -> 0 <= a -> 0 <= b -> a + b <= n -> slice off n l = slice off' n l' ->
  slice (off + a) b l = slice (off' + a) b l'.
Proof.
  intros H0 H0' Ha Hb Hn E. rewrite <- (slice_slice off n l a b), <- (slice_slice off' n l' a b) by lia. by rewrite E.
Qed.

Lemma splice_slice_id off n l : 0 <= off -> 0 <= n -> off + n <= zlen l -> splice off (slice off n l) l = l.
Proof.
  unfold zlen, splice, slice. intros. rewrite length_take, length_drop.
  replace (Z.to_nat n `min` (length l - Z.to_nat off))%nat with (Z.to_nat n) by lia.
  rewrite <- drop_drop, take_drop, take_drop. done.
Qed.

Lemma splice_overwrite off bs bs' l :
  0 <= off -> off + zlen bs <= zlen l -> length bs' = length bs ->
  splice off bs' (splice off bs l) = splice off bs' l.
Proof.
  intros H0 H1 Hl. apply list_eq. intros i. unfold zlen in *.
  assert (Hlen : zlen (splice off bs l) = zlen l) by (apply zlen_splice; unfold zlen; lia).
  destruct (decide (Z.to_nat off <= i < Z.to_nat off + length bs)%nat).
  - rewrite !lookup_splice_in; unfold zlen in *; try lia. done.
  - rewrite !lookup_splice_out; unfold zlen in *; try lia. done.
Qed.

Lemma Forall_splice (P : A -> Prop) off bs l :
  Forall P bs -> Forall P l -> Forall P (splice off bs l).
Proof.
  intros Hb Hl. unfold splice. rewrite !Forall_app. split_and!; auto using Forall_take, Forall_drop.
Qed.

Lemma Forall_slice (P : A -> Prop) off len l : Forall P l -> Forall P (slice off len l).
Proof. intros. unfold slice. auto using Forall_take, Forall_drop. Qed.

End slices.

(** Little-endian scalar loads and stores, [*reinterpret_cast<T*>(p + off)]. *)
Definition get_u (n : nat) (d : list Z) (off : Z) : Z := le_decode (slice off (Z.of_nat n) d).
Definition put_u (n : nat) (d : list Z) (off v : Z) : list Z := splice off (le_encode n v) d.

Abbreviation get_u32 := (get_u 4).
Abbreviation put_u32 := (put_u 4).
Definition get_i32 (d : list Z) (off : Z) : Z := swrap 32 (get_u32 d off).

Section scalars.
Implicit Types d : list Z.

Lemma zlen_put_u n d off v :
  0 <= off -> off + Z.of_nat n <= zlen d -> zlen (put_u n d off v) = zlen d.
Proof. intros. unfold put_u. apply zlen_splice; unfold zlen in *; rewrite ?length_le_encode; lia. Qed.

Lemma get_put_u n d off v :
  0 <= off -> off + Z.of_nat n <= zlen d ->
  get_u n (put_u n d off v) off = uwrap (8 * Z.of_nat n) v.
Proof.
  intros. unfold get_u, put_u, uwrap.
  replace (Z.of_nat n) with (zlen (le_encode n v)) at 1
    by (unfold zlen; by rewrite length_le_encode).
  rewrite slice_splice_same.
  - rewrite le_decode_encode. f_equal. rewrite Z.pow_mul_r by lia. done.
  - lia.
  - unfold zlen in *. rewrite length_le_encode. lia.
Qed.

Lemma get_put_u_disj n m d off off' v :
  0 <= off -> off + Z.of_nat m <= zlen d -> 0 <= off' ->
  (off' + Z.of_nat n <= off \/ off + Z.of_nat m <= off') ->
  get_u n (put_u m d off v) off' = get_u n d off'.
Proof.
  intros. unfold get_u, put_u. f_equal.
  apply slice_splice_disj; unfold zlen in *; rewrite ?length_le_encode; lia.
Qed.

Lemma get_u_splice_disj n d off bs off' :
  0 <= off -> off + zlen bs <= zlen d -> 0 <= off' ->
  (off' + Z.of_nat n <= off \/ off + zlen bs <= off') ->
  get_u n (splice off bs d) off' = get_u n d off'.
Proof. intros. unfold get_u. f_equal. by apply slice_splice_disj. Qed.

Lemma get_u_bound n d off :
  Forall byte_ok d -> ufits (8 * Z.of_nat n) (get_u n d off).
Proof.
  intros Hd. unfold get_u, ufits.
  pose proof (le_decode_bound (slice off (Z.of_nat n) d) (Forall_slice _ _ _ _ Hd)) as Hb.
  assert (256 ^ Z.of_nat (length (slice off (Z.of_nat n) d)) <= 256 ^ Z.of_nat n).
  { apply Z.pow_le_mono_r; [lia|]. unfold slice. rewrite length_take. lia. }
  rewrite Z.pow_mul_r by lia. change (2 ^ 8) with 256. lia.
Qed.

(** Writing back what was read before another write. *)
Lemma put_back n d off v :
  Forall byte_ok d -> 0 <= off -> off + Z.of_nat n <= zlen d ->
  put_u n (put_u n d off v) off (get_u n d off) = d.
Proof.
  intros Hd H0 H1. unfold put_u, get_u.
  rewrite splice_overwrite by (unfold zlen in *; rewrite ?length_le_encode; done || lia).
  assert (Hn : n = length (slice off (Z.of_nat n) d)) by (unfold slice, zlen in *; rewrite length_take, length_drop; lia).
  rewrite Hn at 1. rewrite le_encode_decode by by apply Forall_slice. apply splice_slice_id; lia.
Qed.

Lemma put_u_ok n d off v : Forall byte_ok d -> Forall byte_ok (put_u n d off v).
Proof. intros. apply Forall_splice; auto using le_encode_ok. Qed.

End scalars.

(** ** Lists *)

Section filters.
Context {A : Type} (P Q : A -> Prop) `{!forall x, Decision (P x)} `{!forall x, Decision (Q x)}.

Lemma filter_ext_in (l : list A) : (forall x, x ∈ l -> P x <-> Q x) -> filter P l = filter Q l.
Proof.
  induction l as [|a l IH]; intros Hl; [done|]. rewrite !filter_cons.
  rewrite IH by (intros; apply Hl; by right).
  pose proof (Hl a ltac:(left)). repeat case_decide; naive_solver.
Qed.

Lemma filter_all (l : list A) : (forall x, x ∈ l -> P x) -> filter P l = l.
Proof.
  induction l as [|a l IH]; intros Hl; [done|]. rewrite filter_cons_True by (apply Hl; left).
  f_equal. apply IH. intros. apply Hl. by right.
Qed.

Lemma filter_nil' (l : list A) : (forall x, x ∈ l -> ~ P x) -> filter P l = [].
Proof.
  induction l as [|a l IH]; intros Hl; [done|]. rewrite filter_cons_False by (apply Hl; left).
  apply IH. intros. apply Hl. by right.
Qed.

End filters.
