(* ===== verification/Interfaces.v ===== *)
(** * Interfaces between the buffer pool and its parts

    What [BufferPoolManagerInstance] uses of its page table and of its replacer, as
    operation classes, and what it relies on, as law classes.  The extendible hash table
    and the LRU-K replacer provide the instances; the theorems on the buffer pool are
    proved against the laws alone. *)

From S2P Require Import Prelude.

Local Open Scope Z_scope.

(** ** Page table: page ids to frame ids *)

Class PageTable (T : Type) := {
  pt_find : T -> Z -> outcome (option Z);
  pt_insert : T -> Z -> Z -> outcome T;
  pt_remove : T -> Z -> outcome (bool * T);
}.

(** Keys below [max_key] can be inserted. *)
Class PageTableLaws (T : Type) `{PageTable T} (max_key : Z) := {
  pt_ok : T -> gmap Z Z -> Prop;
  pt_find_ok t m k : pt_ok t m -> pt_find t k = Ret (m !! k);
  pt_insert_ok t m k v : pt_ok t m -> 0 <= k < max_key ->
    exists t', pt_insert t k v = Ret t' /\ pt_ok t' (<[k := v]> m);
  pt_remove_ok t m k : pt_ok t m ->
    exists t', pt_remove t k = Ret (bool_decide (is_Some (m !! k)), t') /\ pt_ok t' (delete k m);
}.

(** ** Replacer: tracked frames and whether they may be evicted *)

Class Replacer (R : Type) := {
  rp_evict : R -> outcome (option Z * R);
  rp_record : R -> Z -> outcome R;
  rp_set_evictable : R -> Z -> bool -> R;
  rp_remove : R -> Z -> outcome R;
  rp_size : R -> Z;
}.

(** [rp_ok n r m c]: the replacer of [n] frames tracks the frames of [m], and [c] more
    accesses can be recorded. *)
Class ReplacerLaws (R : Type) `{Replacer R} := {
  rp_ok : Z -> R -> gmap Z bool -> Z -> Prop;
  rp_evict_none n r m c : rp_ok n r m c -> (forall f, m !! f <> Some true) ->
    rp_evict r = Ret (None, r);
  rp_evict_some n r m c f : rp_ok n r m c -> m !! f = Some true ->
    exists v r', rp_evict r = Ret (Some v, r') /\ m !! v = Some true /\
      rp_ok n r' (delete v m) c;
  rp_record_ok n r m c f : rp_ok n r m c -> 0 < c -> 0 <= f < n ->
    exists r', rp_record r f = Ret r' /\ rp_ok n r' (<[f := default true (m !! f)]> m) (c - 1);
  rp_set_ok n r m c f b : rp_ok n r m c ->
    rp_ok n (rp_set_evictable r f b) (alter (fun _ => b) f m) c;
  rp_remove_ok n r m c f : rp_ok n r m c ->
    match m !! f with
    | None => rp_remove r f = Ret r
    | Some false => rp_remove r f = Raised
    | Some true => exists r', rp_remove r f = Ret r' /\ rp_ok n r' (delete f m) c
    end;
  rp_size_ok n r m c : rp_ok n r m c ->
    rp_size r = Z.of_nat (size (filter (fun kv => kv.2 = true) m));
}.
