(* ===== verification/ExtHash.v ===== *)
(** * Extendible hash table

    Model of [src/container/hash/extendible_hash_table.cpp]: a directory of shared
    pointers to buckets.  The buckets live in an explicit store [heap_] and a pointer
    is an index into it, so several directory entries alias one bucket exactly as the
    [std::shared_ptr]s of the code do; pointer equality is equality of indices.  The
    C++ [int] computations on the depth ([1 << global_depth_]) keep their 32-bit
    wrap-around.  [None] stands for undefined behaviour (an access out of the
    directory) or for a loop that ran out of fuel. *)

From S2P Require Import Prelude.
From S2P Require Import Interfaces.

Local Open Scope Z_scope.

Section table.
Context {K V : Type} `{EqDecision K}.
(** [std::hash<K>], with its 64-bit result. *)
Context (hash : K -> Z).

Record Bucket := mkBucket {
  size_ : Z;
  depth_ : Z;
  list_ : list (K * V);
}.

Record Table := mkTable {
  global_depth_ : Z;
  bucket_size_ : Z;
  num_buckets_ : Z;
  dir_ : list nat;
  heap_ : list Bucket;
}.

(** ** Buckets *)

Definition IsFull (b : Bucket) : bool := bool_decide (zlen (list_ b) = size_ b).

Definition IncrementDepth (b : Bucket) : Bucket := mkBucket (size_ b) (depth_ b + 1) (list_ b).

Fixpoint list_find_key (key : K) (l : list (K * V)) : option V :=
  match l with
  | [] => None
  | (k, v) :: l => if decide (k = key) then Some v else list_find_key key l
  end.

Definition Bucket_Find (b : Bucket) (key : K) : option V := list_find_key key (list_ b).

Fixpoint list_erase_key (key : K) (l : list (K * V)) : bool * list (K * V) :=
  match l with
  | [] => (false, [])
  | (k, v) :: l =>
      if decide (k = key) then (true, l)
      else let '(r, l') := list_erase_key key l in (r, (k, v) :: l')
  end.

Definition Bucket_Remove (b : Bucket) (key : K) : bool * Bucket :=
  let '(r, l) := list_erase_key key (list_ b) in (r, mkBucket (size_ b) (depth_ b) l).

Fixpoint list_assign_key (key : K) (value : V) (l : list (K * V)) : bool * list (K * V) :=
  match l with
  | [] => (false, [])
  | (k, v) :: l =>
      if decide (k = key) then (true, (k, value) :: l)
      else let '(r, l') := list_assign_key key value l in (r, (k, v) :: l')
  end.

Definition Bucket_Insert (b : Bucket) (key : K) (value : V) : bool * Bucket :=
  let '(found, l) := list_assign_key key value (list_ b) in
  if found then (true, mkBucket (size_ b) (depth_ b) l)
  else if IsFull b then (false, b)
  else (true, mkBucket (size_ b) (depth_ b) (list_ b ++ [(key, value)])).

(** ** The table *)

Definition ExtendibleHashTable_ctor (bucket_size : Z) : Table :=
  mkTable 0 bucket_size 1 [0%nat] [mkBucket bucket_size 0 []].

(** [1 << global_depth_] at type [int]. *)
Definition int_shl1 (d : Z) : Z := swrap 32 (Z.shiftl 1 d).

Definition IndexOf (t : Table) (key : K) : nat :=
  let mask := swrap 32 (int_shl1 (global_depth_ t) - 1) in
  Z.to_nat (Z.land (hash key) (uwrap 64 mask)).

Definition GetGlobalDepth (t : Table) : Z := global_depth_ t.

Definition GetLocalDepth (t : Table) (dir_index : nat) : option Z :=
  p ← dir_ t !! dir_index; b ← heap_ t !! p; Some (depth_ b).

Definition GetNumBuckets (t : Table) : Z := num_buckets_ t.

Definition Find (t : Table) (key : K) : option (option V) :=
  p ← dir_ t !! IndexOf t key; b ← heap_ t !! p; Some (Bucket_Find b key).

Definition set_heap (t : Table) (h : list Bucket) : Table :=
  mkTable (global_depth_ t) (bucket_size_ t) (num_buckets_ t) (dir_ t) h.

Definition Remove (t : Table) (key : K) : option (bool * Table) :=
  p ← dir_ t !! IndexOf t key;
  b ← heap_ t !! p;
  let '(r, b') := Bucket_Remove b key in
  Some (r, set_heap t (<[p := b']> (heap_ t))).

(** One entry of the copied item list is sent to the bucket its key now hashes to. *)
Definition rehash_item (bucket : nat) (t : Table) (kv : K * V) : option Table :=
  tobucket ← dir_ t !! IndexOf t kv.1;
  if decide (tobucket = bucket) then Some t
  else
    b ← heap_ t !! bucket;
    let h := <[bucket := (Bucket_Remove b kv.1).2]> (heap_ t) in
    b' ← h !! tobucket;
    Some (set_heap t (<[tobucket := (Bucket_Insert b' kv.1 kv.2).2]> h)).

Fixpoint rehash_items (bucket : nat) (t : Table) (l : list (K * V)) : option Table :=
  match l with
  | [] => Some t
  | kv :: l => t' ← rehash_item bucket t kv; rehash_items bucket t' l
  end.

Definition redirect (bound checkpos : Z) (bucket new_bucket i p : nat) : nat :=
  if bool_decide (Z.of_nat i < bound /\ p = bucket)
  then if bool_decide (Z.land (Z.shiftr (Z.of_nat i) checkpos) 1 = 1) then new_bucket else p
  else p.

Definition RedistributeBucket (t : Table) (bucket : nat) : option Table :=
  b ← heap_ t !! bucket;
  let b1 := IncrementDepth b in
  let checkpos := depth_ b1 - 1 in
  let new_bucket := length (heap_ t) in
  let heap' := <[bucket := b1]> (heap_ t) ++ [mkBucket (bucket_size_ t) (depth_ b1) []] in
  let dir' := imap (redirect (int_shl1 (global_depth_ t)) checkpos bucket new_bucket) (dir_ t) in
  rehash_items bucket
    (mkTable (global_depth_ t) (bucket_size_ t) (num_buckets_ t + 1) dir' heap')
    (list_ b1).

Definition DoubleDirectory (t : Table) : Table :=
  mkTable (global_depth_ t + 1) (bucket_size_ t) (num_buckets_ t) (dir_ t ++ dir_ t) (heap_ t).

(** The [while (true)] loop of [Insert], one unit of fuel per iteration. *)
Fixpoint Insert (fuel : nat) (t : Table) (key : K) (value : V) : option Table :=
  match fuel with
  | O => None
  | S fuel =>
      i_bucket ← dir_ t !! IndexOf t key;
      b ← heap_ t !! i_bucket;
      let '(inserted, b') := Bucket_Insert b key value in
      if inserted then Some (set_heap t (<[i_bucket := b']> (heap_ t)))
      else
        let t1 := if decide (depth_ b = global_depth_ t) then DoubleDirectory t else t in
        t2 ← RedistributeBucket t1 i_bucket;
        Insert fuel t2 key value
  end.

(** ** Well-formedness *)

Record bucket_ok (t : Table) (b : Bucket) : Prop := {
  bo_depth : 0 <= depth_ b <= global_depth_ t;
  bo_size : size_ b = bucket_size_ t;
  bo_nodup : NoDup (list_ b).*1;
  bo_len : zlen (list_ b) <= bucket_size_ t;
}.

(** Two directory slots hold the same pointer exactly when they agree on the bucket's
    local-depth low bits, and every key is stored under its own hash prefix. *)
Record table_wf (t : Table) : Prop := {
  wf_len : zlen (dir_ t) = 2 ^ global_depth_ t;
  wf_depth : 0 <= global_depth_ t;
  wf_ptr : forall i p, dir_ t !! i = Some p -> is_Some (heap_ t !! p);
  wf_bucket : forall p b, heap_ t !! p = Some b -> bucket_ok t b;
  wf_share : forall i j p q b, dir_ t !! i = Some p -> dir_ t !! j = Some q ->
    heap_ t !! p = Some b ->
    (p = q <-> Z.of_nat i mod 2 ^ depth_ b = Z.of_nat j mod 2 ^ depth_ b);
  wf_keys : forall i p b k v, dir_ t !! i = Some p -> heap_ t !! p = Some b ->
    (k, v) ∈ list_ b -> hash k mod 2 ^ depth_ b = Z.of_nat i mod 2 ^ depth_ b;
  wf_reach : forall p, (p < length (heap_ t))%nat -> exists i, dir_ t !! i = Some p;
  wf_num : num_buckets_ t = zlen (heap_ t);
}.

(** The keys present in the table. *)
Definition has_key (t : Table) (k : K) : Prop :=
  exists p b v, heap_ t !! p = Some b /\ (k, v) ∈ list_ b.

(** The finite map a table stands for. *)
Definition represents (t : Table) (m : K -> option V) : Prop :=
  table_wf t /\ forall k, Find t k = Some (m k).

End table.

Arguments Bucket : clear implicits.
Arguments Table : clear implicits.

(** ** Facts about bucket lists *)

Section facts.
Context {K V : Type} `{EqDecision K}.
Implicit Types (t : Table K V) (b : Bucket K V) (l : list (K * V)).

Lemma list_find_key_elem k v l : list_find_key k l = Some v -> (k, v) ∈ l.
Proof.
  induction l as [|[k' v'] l IH]; simpl; [done|]. case_decide; intros; simplify_eq.
  - left.
  - right; auto.
Qed.

Lemma list_find_key_None k l : list_find_key k l = None <-> k ∉ l.*1.
Proof.
  induction l as [|[k' v'] l IH]; simpl; [set_solver|].
  case_decide; [set_solver|]. rewrite IH. set_solver.
Qed.

Lemma list_find_key_app k l1 l2 :
  list_find_key k (l1 ++ l2) =
  match list_find_key k l1 with Some v => Some v | None => list_find_key k l2 end.
Proof. induction l1 as [|[k' v'] l1 IH]; simpl; [done|]. by case_decide. Qed.

(** Looking a key up is not affected by dropping pairs that cannot carry it. *)
Lemma list_find_key_filter k (P : K * V -> Prop) `{!forall x, Decision (P x)} l :
  (forall v, P (k, v)) -> list_find_key k (filter P l) = list_find_key k l.
Proof.
  intros HP. induction l as [|[k' v'] l IH]; simpl; [done|].
  rewrite filter_cons. case_decide as Hp; simpl; case_decide; subst; auto.
  by destruct Hp.
Qed.

Lemma list_erase_key_spec k l r l' :
  list_erase_key k l = (r, l') -> NoDup l.*1 ->
  r = bool_decide (is_Some (list_find_key k l)) /\
  (forall k', list_find_key k' l' = if decide (k' = k) then None else list_find_key k' l) /\
  NoDup l'.*1 /\ (length l' <= length l)%nat /\ (forall x, x ∈ l' -> x ∈ l).
Proof.
  revert r l'. induction l as [|[k0 v0] l IH]; simpl; intros r l' He Hnd.
  - simplify_eq. split_and!; auto. intros. by case_decide.
  - apply NoDup_cons in Hnd as [Hni Hnd]. case_decide; simplify_eq.
    + split_and!; auto.
      * intros k'. repeat case_decide; subst; try done. by apply list_find_key_None.
      * set_solver.
    + destruct (list_erase_key k l) as [r0 l0] eqn:E. simplify_eq.
      destruct (IH _ _ eq_refl Hnd) as (-> & Hf & Hn & Hl & Hin).
      split_and!; auto.
      * intros k'. simpl. rewrite Hf. repeat case_decide; subst; done.
      * simpl. constructor; [|done]. intros (x & ? & Hx)%list_elem_of_fmap_1.
        apply Hni, list_elem_of_fmap. eauto.
      * simpl. lia.
      * set_solver.
Qed.

Lemma list_assign_key_spec k v l r l' :
  list_assign_key k v l = (r, l') ->
  r = bool_decide (is_Some (list_find_key k l)) /\
  l'.*1 = l.*1 /\
  (r = true -> forall k', list_find_key k' l' = if decide (k' = k) then Some v else list_find_key k' l).
Proof.
  revert r l'. induction l as [|[k0 v0] l IH]; simpl; intros r l' He.
  - by simplify_eq.
  - case_decide; simplify_eq.
    + split_and!; auto. intros _ k'. simpl. repeat case_decide; congruence.
    + destruct (list_assign_key k v l) as [r0 l0] eqn:E. simplify_eq.
      destruct (IH _ _ eq_refl) as (-> & Hk & Hf). split_and!; [done|by simpl; f_equal|].
      intros Hr k'. simpl. rewrite Hf by done. repeat case_decide; congruence.
Qed.

(** [Bucket::Insert] fails only on a full bucket without the key. *)
Lemma Bucket_Insert_spec b k v r b' :
  Bucket_Insert b k v = (r, b') -> NoDup (list_ b).*1 -> zlen (list_ b) <= size_ b ->
  size_ b' = size_ b /\ depth_ b' = depth_ b /\
  (if r then
     NoDup (list_ b').*1 /\ zlen (list_ b') <= size_ b /\
     (forall k', Bucket_Find b' k' = if decide (k' = k) then Some v else Bucket_Find b k') /\
     (forall k', k' ∈ (list_ b').*1 -> k' = k \/ k' ∈ (list_ b).*1)
   else b' = b /\ zlen (list_ b) = size_ b /\ k ∉ (list_ b).*1).
Proof.
  unfold Bucket_Insert, Bucket_Find, IsFull. intros Hi Hnd Hlen.
  destruct (list_assign_key k v (list_ b)) as [f l] eqn:E.
  apply list_assign_key_spec in E as (-> & Hk & Hf).
  case_bool_decide as Hs; simplify_eq; simpl.
  - split_and!; auto.
    + by rewrite Hk.
    + unfold zlen in *. by rewrite <- (length_fmap fst l), Hk, length_fmap.
    + rewrite Hk. auto.
  - apply eq_None_not_Some in Hs. assert (k ∉ (list_ b).*1) by by apply list_find_key_None.
    case_bool_decide; simplify_eq; simpl; split_and!; auto.
    + rewrite fmap_app. apply NoDup_app. split_and!; [done|set_solver|apply NoDup_singleton].
    + unfold zlen in *. rewrite length_app. simpl. lia.
    + intros k'. rewrite list_find_key_app. simpl.
      repeat case_decide; subst; try done; [by rewrite Hs|]. by destruct (list_find_key k' _).
    + set_solver.
Qed.

(** ** Directory arithmetic *)

Lemma int_shl1_small d : 0 <= d <= 30 -> int_shl1 d = 2 ^ d.
Proof.
  intros. unfold int_shl1. rewrite Z.shiftl_1_l. apply swrap_id; [lia|].
  split; [|apply Z.pow_lt_mono_r; lia].
  transitivity 0; [by apply Z.opp_nonpos_nonneg|]. apply Z.pow_nonneg. lia.
Qed.

Lemma mod_pow_mod a d d' : 0 <= d <= d' -> (a mod 2 ^ d') mod 2 ^ d = a mod 2 ^ d.
Proof.
  intros. replace d' with (d + (d' - d)) by lia. rewrite Z.pow_add_r by lia.
  assert (0 < 2 ^ d) by (apply Z.pow_pos_nonneg; lia).
  assert (0 < 2 ^ (d' - d)) by (apply Z.pow_pos_nonneg; lia).
  rewrite Z.rem_mul_r by lia. rewrite Z.mul_comm, Z.mod_add by lia. apply Z.mod_mod. lia.
Qed.

Lemma mod_pow_coarsen a c d d' :
  0 <= d <= d' -> a mod 2 ^ d' = c mod 2 ^ d' -> a mod 2 ^ d = c mod 2 ^ d.
Proof. intros Hd He. rewrite <- (mod_pow_mod a d d'), He by done. by apply mod_pow_mod. Qed.

Definition bit_at (a d : Z) : Z := (a / 2 ^ d) mod 2.

Lemma mod_pow_succ a d : 0 <= d -> a mod 2 ^ (d + 1) = a mod 2 ^ d + 2 ^ d * bit_at a d.
Proof.
  intros. unfold bit_at. rewrite Z.pow_add_r by lia.
  assert (0 < 2 ^ d) by (apply Z.pow_pos_nonneg; lia). apply Z.rem_mul_r; lia.
Qed.

Lemma bit_at_range a d : bit_at a d = 0 \/ bit_at a d = 1.
Proof. unfold bit_at. pose proof (Z.mod_pos_bound (a / 2 ^ d) 2). lia. Qed.

Lemma bit_at_shiftr a d : 0 <= d -> Z.land (Z.shiftr a d) 1 = bit_at a d.
Proof. intros. unfold bit_at. rewrite Z.shiftr_div_pow2 by done. apply (Z.land_ones _ 1). lia. Qed.

(** One more bit: equality modulo [2 ^ (d + 1)] is equality modulo [2 ^ d] and of the bit. *)
Lemma mod_pow_succ_iff a c d : 0 <= d ->
  a mod 2 ^ (d + 1) = c mod 2 ^ (d + 1) <->
  a mod 2 ^ d = c mod 2 ^ d /\ bit_at a d = bit_at c d.
Proof.
  intros Hd. rewrite !mod_pow_succ by done.
  assert (0 < 2 ^ d) by (apply Z.pow_pos_nonneg; lia).
  pose proof (Z.mod_pos_bound a (2 ^ d)). pose proof (Z.mod_pos_bound c (2 ^ d)).
  destruct (bit_at_range a d) as [-> | ->], (bit_at_range c d) as [-> | ->]; lia.
Qed.

Lemma IndexOf_small (hash : K -> Z) t k :
  0 <= global_depth_ t <= 30 -> IndexOf hash t k = Z.to_nat (hash k mod 2 ^ global_depth_ t).
Proof.
  intros H. unfold IndexOf. rewrite int_shl1_small by done.
  assert (0 < 2 ^ global_depth_ t) by (apply Z.pow_pos_nonneg; lia).
  assert (2 ^ global_depth_ t <= 2 ^ 30) by (apply Z.pow_le_mono_r; lia).
  rewrite swrap_id; [|lia|unfold sfits; lia].
  rewrite uwrap_id; [|unfold ufits; lia].
  rewrite <- Z.land_ones by lia. by rewrite Z.ones_equiv, Z.sub_1_r.
Qed.

End facts.

(** ** Splitting a bucket *)

Section split.
Context {K V : Type} `{EqDecision K}.
Implicit Types (t : Table K V) (b : Bucket K V) (l : list (K * V)).

Lemma list_erase_key_middle k v l1 l2 :
  k ∉ l1.*1 -> list_erase_key k (l1 ++ (k, v) :: l2) = (true, l1 ++ l2).
Proof.
  induction l1 as [|[k1 v1] l1 IH]; simpl; intros Hk; [by rewrite decide_True|].
  apply not_elem_of_cons in Hk as [??]. rewrite decide_False by done. by rewrite IH.
Qed.

Lemma Bucket_Insert_fresh b k v :
  k ∉ (list_ b).*1 -> zlen (list_ b) < size_ b ->
  Bucket_Insert b k v = (true, mkBucket (size_ b) (depth_ b) (list_ b ++ [(k, v)])).
Proof.
  intros Hk Hl. unfold Bucket_Insert, IsFull.
  destruct (list_assign_key k v (list_ b)) as [f l'] eqn:E.
  apply list_assign_key_spec in E as (-> & _ & _).
  rewrite bool_decide_false by (rewrite (proj2 (list_find_key_None k _) Hk); by intros []).
  by rewrite bool_decide_false by lia.
Qed.

(** The store while the items of the bucket [p] move to the new bucket at the end. *)
Definition split_heap (p : nat) (s bs d : Z) (h : list (Bucket K V)) (kept moved : list (K * V)) :=
  <[p := mkBucket s d kept]> h ++ [mkBucket bs d moved].

Lemma split_heap_p p s bs d h kept moved :
  (p < length h)%nat -> split_heap p s bs d h kept moved !! p = Some (mkBucket s d kept).
Proof.
  intros. unfold split_heap. rewrite lookup_app_l by (rewrite length_insert; lia).
  by apply list_lookup_insert_eq.
Qed.

Lemma split_heap_new p s bs d h kept moved :
  split_heap p s bs d h kept moved !! length h = Some (mkBucket bs d moved).
Proof. unfold split_heap. rewrite lookup_app_r; rewrite length_insert; [by rewrite Nat.sub_diag|lia]. Qed.

Lemma split_heap_other p q s bs d h kept moved :
  (q < length h)%nat -> q <> p -> split_heap p s bs d h kept moved !! q = h !! q.
Proof.
  intros. unfold split_heap. rewrite lookup_app_l by (rewrite length_insert; lia).
  by rewrite list_lookup_insert_ne.
Qed.

Lemma split_heap_move p s bs d h kept moved kept' moved' :
  (p < length h)%nat ->
  <[length h := mkBucket bs d moved']> (<[p := mkBucket s d kept']> (split_heap p s bs d h kept moved))
  = split_heap p s bs d h kept' moved'.
Proof.
  intros. unfold split_heap. rewrite insert_app_l by (rewrite length_insert; lia).
  rewrite insert_app_r_alt by (rewrite !length_insert; lia).
  rewrite !length_insert, Nat.sub_diag. simpl. by rewrite list_insert_insert_eq.
Qed.

Lemma rehash_items_split (hash : K -> Z) (bit : K -> bool) t0 h p s bs d its :
  (p < length h)%nat ->
  (forall k v, (k, v) ∈ its ->
     dir_ t0 !! IndexOf hash t0 k = Some (if bit k then length h else p)) ->
  forall kept moved,
  NoDup (kept ++ its).*1 -> NoDup (moved ++ its).*1 -> zlen (moved ++ its) <= bs ->
  rehash_items hash p (set_heap t0 (split_heap p s bs d h (kept ++ its) moved)) its =
  Some (set_heap t0 (split_heap p s bs d h
    (kept ++ filter (fun kv => bit kv.1 = false) its)
    (moved ++ filter (fun kv => bit kv.1 = true) its))).
Proof.
  intros Hp. induction its as [|[k v] its IH]; intros Hdir kept moved Hk Hm Hlen.
  { by rewrite !app_nil_r. }
  cbn [rehash_items]. unfold rehash_item. cbn [fst snd dir_ set_heap heap_].
  change (IndexOf hash (set_heap t0 ?h) k) with (IndexOf hash t0 k).
  rewrite (Hdir k v) by left. simpl. rewrite !filter_cons. cbn [fst].
  assert (Hdir' : forall k' v', (k', v') ∈ its ->
    dir_ t0 !! IndexOf hash t0 k' = Some (if bit k' then length h else p))
    by (intros; eapply Hdir; right; eauto).
  destruct (bit k).
  - rewrite decide_False by lia. rewrite split_heap_p by done. simpl.
    rewrite list_lookup_insert_ne by lia. rewrite split_heap_new. simpl.
    rewrite fmap_app in Hk, Hm. simpl in Hk, Hm.
    apply NoDup_app in Hk as (Hk1 & Hk2 & Hk3). apply NoDup_app in Hm as (Hm1 & Hm2 & Hm3).
    apply NoDup_cons in Hk3 as [Hk3 Hk4]. apply NoDup_cons in Hm3 as [Hm3 Hm4].
    unfold Bucket_Remove. simpl. rewrite list_erase_key_middle by set_solver. simpl.
    rewrite Bucket_Insert_fresh; simpl; [|set_solver|unfold zlen in *; rewrite length_app in Hlen; simpl in Hlen; lia].
    rewrite split_heap_move by done.
    change (set_heap (set_heap t0 ?a) ?b) with (set_heap t0 b).
    rewrite (IH Hdir' kept (moved ++ [(k, v)])).
    + by rewrite <- app_assoc.
    + rewrite fmap_app. apply NoDup_app. split_and!; [done|set_solver|done].
    + rewrite <- app_assoc, fmap_app. simpl. apply NoDup_app. split_and!; [done|set_solver|].
      by constructor.
    + rewrite <- app_assoc. done.
  - rewrite decide_True by done. simpl.
    replace (kept ++ (k, v) :: its) with ((kept ++ [(k, v)]) ++ its) in * by by rewrite <- app_assoc.
    rewrite IH.
    + by rewrite <- !app_assoc.
    + done.
    + done.
    + rewrite fmap_app in Hm |- *. simpl in Hm. apply NoDup_app in Hm as (? & ? & ?%NoDup_cons_1_2).
      apply NoDup_app. split_and!; set_solver.
    + unfold zlen in *. rewrite length_app in *. simpl in Hlen. lia.
Qed.

End split.

(** ** Correctness of the table operations *)

Section correctness.
Context {K V : Type} `{EqDecision K}.
Context (hash : K -> Z).
Implicit Types (t : Table K V) (b : Bucket K V) (l : list (K * V)).

Abbreviation wf := (table_wf hash).

Lemma IndexOf_lookup t k :
  wf t -> global_depth_ t <= 30 ->
  exists p b, dir_ t !! IndexOf hash t k = Some p /\ heap_ t !! p = Some b.
Proof.
  intros Hwf Hgd. pose proof (wf_depth _ _ Hwf).
  assert (is_Some (dir_ t !! IndexOf hash t k)) as [p Hp].
  { apply lookup_lt_is_Some_2. rewrite IndexOf_small by lia.
    pose proof (wf_len _ _ Hwf) as Hl. unfold zlen in Hl.
    pose proof (Z.mod_pos_bound (hash k) (2 ^ global_depth_ t)).
    assert (0 < 2 ^ global_depth_ t) by (apply Z.pow_pos_nonneg; lia). lia. }
  destruct (wf_ptr _ _ Hwf _ _ Hp) as [b Hb]. eauto.
Qed.

Lemma IndexOf_mod t k d :
  wf t -> global_depth_ t <= 30 -> 0 <= d <= global_depth_ t ->
  Z.of_nat (IndexOf hash t k) mod 2 ^ d = hash k mod 2 ^ d.
Proof.
  intros Hwf ? Hd. rewrite IndexOf_small by lia.
  assert (0 < 2 ^ global_depth_ t) by (apply Z.pow_pos_nonneg; lia).
  pose proof (Z.mod_pos_bound (hash k) (2 ^ global_depth_ t)).
  rewrite Z2Nat.id by lia. by apply mod_pow_mod.
Qed.

(** A stored key hashes to the bucket that stores it. *)
Lemma stored_index t p b k v :
  wf t -> global_depth_ t <= 30 -> heap_ t !! p = Some b -> (k, v) ∈ list_ b ->
  dir_ t !! IndexOf hash t k = Some p.
Proof.
  intros Hwf Hgd Hb Hk. destruct (IndexOf_lookup t k Hwf Hgd) as (q & b' & Hq & Hb').
  destruct (wf_reach _ _ Hwf p) as [i Hi]; [by eapply lookup_lt_Some|].
  rewrite Hq. f_equal. symmetry. apply (wf_share _ _ Hwf _ _ _ _ _ Hi Hq Hb).
  rewrite IndexOf_mod; auto.
  - symmetry. by eapply wf_keys.
  - by destruct (wf_bucket _ _ Hwf _ _ Hb).
Qed.

Lemma Find_lookup t k p b :
  dir_ t !! IndexOf hash t k = Some p -> heap_ t !! p = Some b ->
  Find hash t k = Some (Bucket_Find b k).
Proof. intros Hp Hb. unfold Find. by rewrite Hp; simpl; rewrite Hb. Qed.

(** *** Doubling the directory *)

Lemma lookup_double (d : list nat) g i p :
  zlen d = 2 ^ g -> 0 <= g -> (d ++ d) !! i = Some p ->
  exists i0, d !! i0 = Some p /\
    forall e, 0 <= e <= g -> Z.of_nat i0 mod 2 ^ e = Z.of_nat i mod 2 ^ e.
Proof.
  intros Hl Hg [Hi|[Hge Hi]]%lookup_app_Some; [eauto|].
  eexists; split; [done|]. intros e He. unfold zlen in Hl.
  rewrite Nat2Z.inj_sub, Hl by lia.
  replace (2 ^ g) with (2 ^ (g - e) * 2 ^ e) by (rewrite <- Z.pow_add_r by lia; f_equal; lia).
  replace (Z.of_nat i - 2 ^ (g - e) * 2 ^ e) with (Z.of_nat i + (- 2 ^ (g - e)) * 2 ^ e) by lia.
  apply Z.mod_add. apply Z.pow_nonzero; lia.
Qed.

Lemma DoubleDirectory_wf t : wf t -> wf (DoubleDirectory t).
Proof.
  intros Hwf. pose proof (wf_len _ _ Hwf) as Hl. pose proof (wf_depth _ _ Hwf).
  split; simpl.
  - unfold zlen in *. rewrite length_app, Z.pow_add_r by lia. lia.
  - lia.
  - intros i p (i0 & Hi0 & _)%(lookup_double _ _ _ _ Hl); [|done]. by eapply wf_ptr.
  - intros p b Hb. destruct (wf_bucket _ _ Hwf _ _ Hb). split; simpl; auto; lia.
  - intros i j p q b (i0 & Hi0 & Hi)%(lookup_double _ _ _ _ Hl)
      (j0 & Hj0 & Hj)%(lookup_double _ _ _ _ Hl) Hb; [|done..].
    destruct (wf_bucket _ _ Hwf _ _ Hb). rewrite <- Hi, <- Hj by lia. by eapply wf_share.
  - intros i p b k v (i0 & Hi0 & Hi)%(lookup_double _ _ _ _ Hl) Hb Hk; [|done].
    destruct (wf_bucket _ _ Hwf _ _ Hb). rewrite <- Hi by lia. by eapply wf_keys.
  - intros p Hp. destruct (wf_reach _ _ Hwf p Hp) as [i Hi]. exists i. by apply lookup_app_l_Some.
  - apply (wf_num _ _ Hwf).
Qed.

Lemma DoubleDirectory_index t k p :
  wf t -> global_depth_ t < 30 -> dir_ t !! IndexOf hash t k = Some p ->
  dir_ (DoubleDirectory t) !! IndexOf hash (DoubleDirectory t) k = Some p.
Proof.
  intros Hwf Hgd Hp. pose proof (DoubleDirectory_wf _ Hwf) as Hwf'. pose proof (wf_depth _ _ Hwf).
  destruct (IndexOf_lookup (DoubleDirectory t) k Hwf') as (q & b & Hq & Hb); [simpl; lia|].
  rewrite Hq. f_equal.
  assert (Hp' : dir_ (DoubleDirectory t) !! IndexOf hash t k = Some p) by by apply lookup_app_l_Some.
  apply (wf_share _ _ Hwf' _ _ _ _ _ Hq Hp' Hb).
  destruct (wf_bucket _ _ Hwf _ _ Hb).
  rewrite !IndexOf_mod; auto; simpl; lia.
Qed.

(** *** Redistributing a bucket *)

Definition key_bit (d : Z) (k : K) : bool := bool_decide (bit_at (hash k) d = 1).

Definition redirected (t : Table K V) (p : nat) (d : Z) : list nat :=
  imap (redirect (int_shl1 (global_depth_ t)) d p (length (heap_ t))) (dir_ t).

(** The table after [RedistributeBucket]: the bucket's items are partitioned by the next
    hash bit. *)
Definition split_table (t : Table K V) (p : nat) (b : Bucket K V) : Table K V :=
  mkTable (global_depth_ t) (bucket_size_ t) (num_buckets_ t + 1)
    (redirected t p (depth_ b))
    (split_heap p (size_ b) (bucket_size_ t) (depth_ b + 1) (heap_ t)
       (filter (fun kv => key_bit (depth_ b) kv.1 = false) (list_ b))
       (filter (fun kv => key_bit (depth_ b) kv.1 = true) (list_ b))).

Lemma lookup_redirected t p d i q :
  wf t -> global_depth_ t <= 30 -> 0 <= d -> dir_ t !! i = Some q ->
  redirected t p d !! i =
  Some (if decide (q = p /\ bit_at (Z.of_nat i) d = 1) then length (heap_ t) else q).
Proof.
  intros Hwf Hgd Hd Hi. unfold redirected. rewrite list_lookup_imap, Hi. simpl. f_equal.
  unfold redirect. pose proof (wf_depth _ _ Hwf). pose proof (wf_len _ _ Hwf) as Hl.
  rewrite int_shl1_small, bit_at_shiftr by lia.
  assert (Z.of_nat i < 2 ^ global_depth_ t).
  { apply lookup_lt_Some in Hi. unfold zlen in Hl. lia. }
  repeat case_bool_decide; case_decide; naive_solver.
Qed.

Lemma bit_at_mod a d g : 0 <= d < g -> bit_at (a mod 2 ^ g) d = bit_at a d.
Proof.
  intros. assert (He : (a mod 2 ^ g) mod 2 ^ (d + 1) = a mod 2 ^ (d + 1)) by (apply mod_pow_mod; lia).
  apply mod_pow_succ_iff in He as [_ He]; [done|lia].
Qed.

Lemma IndexOf_bit t k d :
  0 <= d < global_depth_ t -> global_depth_ t <= 30 ->
  bit_at (Z.of_nat (IndexOf hash t k)) d = bit_at (hash k) d.
Proof.
  intros. rewrite IndexOf_small by lia.
  assert (0 < 2 ^ global_depth_ t) by (apply Z.pow_pos_nonneg; lia).
  pose proof (Z.mod_pos_bound (hash k) (2 ^ global_depth_ t)).
  rewrite Z2Nat.id by lia. apply bit_at_mod. lia.
Qed.

Lemma redirected_index t p d k q :
  wf t -> global_depth_ t <= 30 -> 0 <= d < global_depth_ t ->
  dir_ t !! IndexOf hash t k = Some q ->
  redirected t p d !! IndexOf hash t k =
  Some (if decide (q = p) then if key_bit d k then length (heap_ t) else p else q).
Proof.
  intros Hwf Hgd Hd Hq. rewrite (lookup_redirected _ p d _ _ Hwf Hgd) by (done || lia).
  rewrite IndexOf_bit by done. f_equal. unfold key_bit.
  repeat case_bool_decide; repeat case_decide; naive_solver.
Qed.

Lemma RedistributeBucket_eq t p b :
  wf t -> global_depth_ t <= 30 -> heap_ t !! p = Some b -> depth_ b < global_depth_ t ->
  RedistributeBucket hash t p = Some (split_table t p b).
Proof.
  intros Hwf Hgd Hb Hd. destruct (wf_bucket _ _ Hwf _ _ Hb) as [Hb1 Hb2 Hb3 Hb4].
  unfold RedistributeBucket. rewrite Hb. simpl. replace (depth_ b + 1 - 1) with (depth_ b) by lia.
  set (t0 := mkTable (global_depth_ t) (bucket_size_ t) (num_buckets_ t + 1)
               (redirected t p (depth_ b)) (heap_ t)).
  pose proof (rehash_items_split hash (key_bit (depth_ b)) t0 (heap_ t) p (size_ b)
    (bucket_size_ t) (depth_ b + 1) (list_ b)) as Hs.
  refine (Hs (lookup_lt_Some _ _ _ Hb) _ [] [] Hb3 Hb3 Hb4).
  intros k v Hk. change (dir_ t0) with (redirected t p (depth_ b)).
  change (IndexOf hash t0 k) with (IndexOf hash t k).
  rewrite (redirected_index _ _ _ _ p); auto; [by rewrite decide_True|lia|].
  by eapply stored_index.
Qed.

Lemma split_table_bucket t p b q b' :
  wf t -> heap_ t !! p = Some b -> depth_ b < global_depth_ t ->
  heap_ (split_table t p b) !! q = Some b' ->
  (q = p /\ b' = mkBucket (size_ b) (depth_ b + 1)
                   (filter (fun kv => key_bit (depth_ b) kv.1 = false) (list_ b))) \/
  (q = length (heap_ t) /\ b' = mkBucket (bucket_size_ t) (depth_ b + 1)
                   (filter (fun kv => key_bit (depth_ b) kv.1 = true) (list_ b))) \/
  (q <> p /\ (q < length (heap_ t))%nat /\ heap_ t !! q = Some b').
Proof.
  intros Hwf Hb Hd Hq. assert (Hp := lookup_lt_Some _ _ _ Hb). simpl in Hq.
  destruct (decide (q = p)) as [->|Hqp]; [rewrite split_heap_p in Hq by done; naive_solver|].
  destruct (decide (q = length (heap_ t))) as [->|Hqn]; [rewrite split_heap_new in Hq; naive_solver|].
  assert (q < length (heap_ t))%nat.
  { apply lookup_lt_Some in Hq. unfold split_heap in Hq.
    rewrite length_app, length_insert in Hq. simpl in Hq. lia. }
  rewrite split_heap_other in Hq by done. naive_solver.
Qed.

Lemma NoDup_fst_filter (P : K * V -> Prop) `{!forall x, Decision (P x)} l :
  NoDup l.*1 -> NoDup (filter P l).*1.
Proof.
  induction l as [|[k v] l IH]; simpl; [done|]. intros [Hk Hl]%NoDup_cons.
  rewrite filter_cons. case_decide; [|auto]. simpl. constructor; [|auto].
  intros ([k' v'] & ? & Hx)%list_elem_of_fmap_1. apply list_elem_of_filter in Hx as [_ Hx].
  apply Hk. apply list_elem_of_fmap. eauto.
Qed.

Lemma zlen_filter (P : K * V -> Prop) `{!forall x, Decision (P x)} l : zlen (filter P l) <= zlen l.
Proof. unfold zlen. pose proof (length_filter P l). lia. Qed.

Lemma split_bucket_ok t p b q b' :
  wf t -> heap_ t !! p = Some b -> depth_ b < global_depth_ t ->
  heap_ (split_table t p b) !! q = Some b' -> bucket_ok (split_table t p b) b'.
Proof.
  intros Hwf Hb Hd Hq. destruct (wf_bucket _ _ Hwf _ _ Hb) as [Hb1 Hb2 Hb3 Hb4].
  destruct (split_table_bucket _ _ _ _ _ Hwf Hb Hd Hq) as [[-> ->]|[[-> ->]|(? & ? & Hq')]].
  - split; simpl; auto; [lia|by apply NoDup_fst_filter|].
    etransitivity; [apply zlen_filter|done].
  - split; simpl; auto; [lia|by apply NoDup_fst_filter|].
    etransitivity; [apply zlen_filter|done].
  - by destruct (wf_bucket _ _ Hwf _ _ Hq').
Qed.

(** What a slot of the new directory points to. *)
Lemma split_dir_inv t p b i q :
  wf t -> global_depth_ t <= 30 -> heap_ t !! p = Some b ->
  dir_ (split_table t p b) !! i = Some q ->
  (q <> p /\ q <> length (heap_ t) /\ dir_ t !! i = Some q) \/
  (dir_ t !! i = Some p /\ bit_at (Z.of_nat i) (depth_ b) = 0 /\ q = p) \/
  (dir_ t !! i = Some p /\ bit_at (Z.of_nat i) (depth_ b) = 1 /\ q = length (heap_ t)).
Proof.
  intros Hwf Hgd Hb Hi. destruct (wf_bucket _ _ Hwf _ _ Hb) as [Hb1 _ _ _].
  assert (is_Some (dir_ t !! i)) as [q0 Hq0].
  { apply lookup_lt_is_Some_2. apply lookup_lt_Some in Hi. simpl in Hi.
    unfold redirected in Hi. by rewrite length_imap in Hi. }
  simpl in Hi. rewrite (lookup_redirected _ _ _ _ _ Hwf Hgd (proj1 Hb1) Hq0) in Hi. simplify_eq.
  destruct (bit_at_range (Z.of_nat i) (depth_ b)) as [Hbit|Hbit]; rewrite Hbit.
  - rewrite decide_False by naive_solver. destruct (decide (q0 = p)) as [->|]; [naive_solver|].
    left. split_and!; auto. destruct (wf_ptr _ _ Hwf _ _ Hq0) as [? ?%lookup_lt_Some]. lia.
  - case_decide as Hd; [naive_solver|]. left. split; [naive_solver|]. split; [|done].
    destruct (wf_ptr _ _ Hwf _ _ Hq0) as [? ?%lookup_lt_Some]. lia.
Qed.

(** The two halves of the split bucket, seen from the directory. *)
Lemma split_share t p b i j q q' b' :
  wf t -> global_depth_ t <= 30 -> heap_ t !! p = Some b -> depth_ b < global_depth_ t ->
  dir_ (split_table t p b) !! i = Some q -> dir_ (split_table t p b) !! j = Some q' ->
  heap_ (split_table t p b) !! q = Some b' ->
  (q = q' <-> Z.of_nat i mod 2 ^ depth_ b' = Z.of_nat j mod 2 ^ depth_ b').
Proof.
  intros Hwf Hgd Hb Hd Hi Hj Hq. destruct (wf_bucket _ _ Hwf _ _ Hb) as [Hb1 _ _ _].
  assert (Hp := lookup_lt_Some _ _ _ Hb).
  apply split_dir_inv in Hi; auto. apply split_dir_inv in Hj; auto.
  assert (Hsplit : dir_ t !! i = Some p -> depth_ b' = depth_ b + 1 ->
    Z.of_nat i mod 2 ^ depth_ b' = Z.of_nat j mod 2 ^ depth_ b' <->
    dir_ t !! j = Some p /\ bit_at (Z.of_nat i) (depth_ b) = bit_at (Z.of_nat j) (depth_ b)).
  { intros Hip ->. rewrite mod_pow_succ_iff by lia.
    assert (exists q0, dir_ t !! j = Some q0) as [q0 Hq0] by naive_solver.
    rewrite <- (wf_share _ _ Hwf _ _ _ _ _ Hip Hq0 Hb). naive_solver. }
  apply split_table_bucket in Hq; auto.
  destruct Hi as [(? & ? & Hi)|[(Hi & Hbi & ->)|(Hi & Hbi & ->)]].
  - destruct Hq as [[? _]|[[? _]|(_ & _ & Hq)]]; [done..|].
    assert (exists q0, dir_ t !! j = Some q0 /\ (q = q' <-> q = q0)) as (q0 & Hq0 & ->) by naive_solver.
    by apply (wf_share _ _ Hwf _ _ _ _ _ Hi Hq0 Hq).
  - destruct Hq as [[_ ->]|[[? _]|(? & _ & _)]]; [|lia|done].
    rewrite Hsplit, Hbi by done. destruct Hj as [(? & ? & Hj)|[(Hj & Hbj & ->)|(Hj & Hbj & ->)]];
      rewrite ?Hbj; naive_solver lia.
  - destruct Hq as [[? _]|[[_ ->]|(? & ? & _)]]; [lia| |lia].
    rewrite Hsplit, Hbi by done. destruct Hj as [(? & ? & Hj)|[(Hj & Hbj & ->)|(Hj & Hbj & ->)]];
      rewrite ?Hbj; naive_solver lia.
Qed.

Lemma split_keys t p b i q b' k v :
  wf t -> global_depth_ t <= 30 -> heap_ t !! p = Some b -> depth_ b < global_depth_ t ->
  dir_ (split_table t p b) !! i = Some q -> heap_ (split_table t p b) !! q = Some b' ->
  (k, v) ∈ list_ b' -> hash k mod 2 ^ depth_ b' = Z.of_nat i mod 2 ^ depth_ b'.
Proof.
  intros Hwf Hgd Hb Hd Hi Hq Hk. destruct (wf_bucket _ _ Hwf _ _ Hb) as [Hb1 _ _ _].
  assert (Hp := lookup_lt_Some _ _ _ Hb).
  apply split_dir_inv in Hi; auto. apply split_table_bucket in Hq; auto.
  destruct Hq as [[-> ->]|[[-> ->]|(? & ? & Hq)]]; simpl in *.
  - apply list_elem_of_filter in Hk as [Hbit Hk]. simpl in Hbit.
    unfold key_bit in Hbit. apply bool_decide_eq_false in Hbit.
    destruct (bit_at_range (hash k) (depth_ b)); [|done].
    destruct Hi as [(? & ? & ?)|[(Hi & Hbi & _)|(_ & _ & ?)]]; [done| |lia].
    apply mod_pow_succ_iff; [lia|]. split; [by eapply wf_keys|lia].
  - apply list_elem_of_filter in Hk as [Hbit Hk]. simpl in Hbit.
    unfold key_bit in Hbit. apply bool_decide_eq_true in Hbit.
    destruct Hi as [(? & ? & ?)|[(_ & _ & ?)|(Hi & Hbi & _)]]; [done|lia|].
    apply mod_pow_succ_iff; [lia|]. split; [by eapply wf_keys|lia].
  - destruct Hi as [(? & ? & Hi)|[(_ & _ & ?)|(_ & _ & ?)]]; [|done|lia].
    by eapply wf_keys.
Qed.

(** Both values of the next bit occur among the slots of a bucket that can be split. *)
Lemma both_bits t p b (bit : Z) :
  wf t -> heap_ t !! p = Some b -> depth_ b < global_depth_ t -> bit = 0 \/ bit = 1 ->
  exists i, dir_ t !! i = Some p /\ bit_at (Z.of_nat i) (depth_ b) = bit.
Proof.
  intros Hwf Hb Hd Hbit. destruct (wf_bucket _ _ Hwf _ _ Hb) as [Hb1 _ _ _].
  destruct (wf_reach _ _ Hwf p) as [i0 Hi0]; [by eapply lookup_lt_Some|].
  set (d := depth_ b) in *. assert (Hpd : 0 < 2 ^ d) by (apply Z.pow_pos_nonneg; lia).
  set (c := Z.of_nat i0 mod 2 ^ d). assert (Hc : 0 <= c < 2 ^ d) by (apply Z.mod_pos_bound; lia).
  set (j := c + bit * 2 ^ d).
  assert (Hj : 0 <= j < 2 ^ (d + 1)) by (unfold j; rewrite Z.pow_add_r by lia; nia).
  assert (2 ^ (d + 1) <= 2 ^ global_depth_ t) by (apply Z.pow_le_mono_r; lia).
  pose proof (wf_len _ _ Hwf) as Hl. unfold zlen in Hl.
  assert (Hjn : Z.of_nat (Z.to_nat j) = j) by lia.
  assert (is_Some (dir_ t !! Z.to_nat j)) as [q Hq] by (apply lookup_lt_is_Some_2; lia).
  exists (Z.to_nat j). rewrite Hjn. split.
  - rewrite Hq. f_equal. symmetry. apply (wf_share _ _ Hwf _ _ _ _ _ Hi0 Hq Hb).
    rewrite Hjn. fold d c. unfold j. rewrite Z.mod_add by lia. rewrite Z.mod_small; lia.
  - unfold bit_at, j. rewrite Z.div_add, (Z.div_small c) by lia. destruct Hbit as [-> | ->]; done.
Qed.

Lemma split_table_wf t p b :
  wf t -> global_depth_ t <= 30 -> heap_ t !! p = Some b -> depth_ b < global_depth_ t ->
  wf (split_table t p b).
Proof.
  intros Hwf Hgd Hb Hd. destruct (wf_bucket _ _ Hwf _ _ Hb) as [Hb1 _ _ _].
  assert (Hp := lookup_lt_Some _ _ _ Hb).
  assert (Hlen : length (heap_ (split_table t p b)) = S (length (heap_ t))).
  { simpl. unfold split_heap. rewrite length_app, length_insert. simpl. lia. }
  split.
  - simpl. unfold zlen, redirected. rewrite length_imap. apply (wf_len _ _ Hwf).
  - apply (wf_depth _ _ Hwf).
  - intros i q Hi. apply split_dir_inv in Hi; auto. apply lookup_lt_is_Some_2. rewrite Hlen.
    destruct Hi as [(? & ? & Hi)|[(_ & _ & ->)|(_ & _ & ->)]]; [|lia|lia].
    destruct (wf_ptr _ _ Hwf _ _ Hi) as [? ?%lookup_lt_Some]. lia.
  - intros q b' Hq. by eapply split_bucket_ok.
  - intros. by eapply split_share.
  - intros. by eapply split_keys.
  - intros q Hq. rewrite Hlen in Hq. simpl.
    destruct (decide (q = p)) as [->|]; [|destruct (decide (q = length (heap_ t))) as [->|]].
    + destruct (both_bits t p b 0) as (i & Hi & Hbit); auto. exists i.
      rewrite (lookup_redirected _ _ _ _ _ Hwf Hgd (proj1 Hb1) Hi).
      rewrite decide_False; [done|]. rewrite Hbit. naive_solver.
    + destruct (both_bits t p b 1) as (i & Hi & Hbit); auto. exists i.
      rewrite (lookup_redirected _ _ _ _ _ Hwf Hgd (proj1 Hb1) Hi). by rewrite decide_True.
    + destruct (wf_reach _ _ Hwf q) as [i Hi]; [lia|]. exists i.
      rewrite (lookup_redirected _ _ _ _ _ Hwf Hgd (proj1 Hb1) Hi).
      by rewrite decide_False by naive_solver.
  - simpl. rewrite (wf_num _ _ Hwf). unfold zlen. change (split_heap _ _ _ _ _ _ _) with (heap_ (split_table t p b)).
    rewrite Hlen. lia.
Qed.

Lemma split_table_find t p b k :
  wf t -> global_depth_ t <= 30 -> heap_ t !! p = Some b -> depth_ b < global_depth_ t ->
  Find hash (split_table t p b) k = Find hash t k.
Proof.
  intros Hwf Hgd Hb Hd. destruct (wf_bucket _ _ Hwf _ _ Hb) as [Hb1 _ _ _].
  assert (Hp := lookup_lt_Some _ _ _ Hb).
  destruct (IndexOf_lookup t k Hwf Hgd) as (q & bq & Hq & Hbq).
  rewrite (Find_lookup t k q bq) by done. unfold Find.
  change (IndexOf hash (split_table t p b) k) with (IndexOf hash t k).
  simpl. rewrite (redirected_index _ _ _ _ q) by (done || lia). simpl.
  case_decide as Hqp; [subst|].
  - rewrite Hb in Hbq. simplify_eq. destruct (key_bit (depth_ bq) k) eqn:Hbit.
    + rewrite split_heap_new. simpl. unfold Bucket_Find. simpl. by rewrite list_find_key_filter.
    + rewrite split_heap_p by done. simpl. unfold Bucket_Find. simpl. by rewrite list_find_key_filter.
  - rewrite split_heap_other; [|by eapply lookup_lt_Some|done]. by rewrite Hbq.
Qed.

Lemma split_table_keys t p b k :
  wf t -> heap_ t !! p = Some b -> depth_ b < global_depth_ t ->
  has_key (split_table t p b) k -> has_key t k.
Proof.
  intros Hwf Hb Hd (q & b' & v & Hq & Hk). apply split_table_bucket in Hq; auto.
  destruct Hq as [[-> ->]|[[-> ->]|(? & ? & Hq)]]; simpl in *;
    [apply list_elem_of_filter in Hk as [_ Hk]..|]; unfold has_key; eauto 6.
Qed.

(** The bucket of a key of the split bucket is one bit deeper. *)
Lemma split_table_deeper t p b k :
  wf t -> global_depth_ t <= 30 -> heap_ t !! p = Some b -> depth_ b < global_depth_ t ->
  dir_ t !! IndexOf hash t k = Some p ->
  exists q b', dir_ (split_table t p b) !! IndexOf hash (split_table t p b) k = Some q /\
    heap_ (split_table t p b) !! q = Some b' /\ depth_ b' = depth_ b + 1.
Proof.
  intros Hwf Hgd Hb Hd Hk. destruct (wf_bucket _ _ Hwf _ _ Hb) as [Hb1 _ _ _].
  assert (Hp := lookup_lt_Some _ _ _ Hb).
  change (IndexOf hash (split_table t p b) k) with (IndexOf hash t k).
  simpl. rewrite (redirected_index _ _ _ _ p), decide_True by (done || lia).
  destruct (key_bit _ k); do 2 eexists; (split; [done|]);
    rewrite ?split_heap_new, ?split_heap_p by done; done.
Qed.

(** *** Replacing the contents of one bucket *)

Lemma update_bucket_wf t p b b' :
  wf t -> global_depth_ t <= 30 -> heap_ t !! p = Some b ->
  size_ b' = size_ b -> depth_ b' = depth_ b -> NoDup (list_ b').*1 ->
  zlen (list_ b') <= bucket_size_ t ->
  (forall k, k ∈ (list_ b').*1 -> dir_ t !! IndexOf hash t k = Some p) ->
  wf (set_heap t (<[p := b']> (heap_ t))).
Proof.
  intros Hwf Hgd Hb Hs Hd Hnd Hl Hk. assert (Hp := lookup_lt_Some _ _ _ Hb).
  assert (Hlook : forall q bq, <[p := b']> (heap_ t) !! q = Some bq ->
    exists bq0, heap_ t !! q = Some bq0 /\ depth_ bq = depth_ bq0 /\ (q <> p -> bq = bq0) /\ (q = p -> bq = b')).
  { intros q bq Hq. destruct (decide (p = q)) as [<-|].
    - rewrite list_lookup_insert_eq in Hq by done. naive_solver.
    - rewrite list_lookup_insert_ne in Hq by done. naive_solver. }
  destruct (wf_bucket _ _ Hwf _ _ Hb) as [Hb1 Hb2 Hb3 Hb4].
  split; simpl.
  - apply (wf_len _ _ Hwf).
  - apply (wf_depth _ _ Hwf).
  - intros i q Hi. apply lookup_lt_is_Some_2. rewrite length_insert.
    apply lookup_lt_is_Some_1. by eapply wf_ptr.
  - intros q bq Hq. destruct (Hlook _ _ Hq) as (b0 & Hb0 & Hd0 & Hne & Heq).
    destruct (decide (q = p)) as [->|Hqp].
    + rewrite (Heq eq_refl). split; simpl; auto; [lia|congruence].
    + rewrite (Hne Hqp). by destruct (wf_bucket _ _ Hwf _ _ Hb0).
  - intros i j q q' bq Hi Hj (b0 & Hb0 & -> & _)%Hlook. by eapply wf_share.
  - intros i q bq k v Hi Hq Hkv. destruct (Hlook _ _ Hq) as (b0 & Hb0 & Hd0 & Hne & Heq).
    destruct (decide (q = p)) as [->|Hqp].
    + rewrite (Heq eq_refl) in Hkv. rewrite Hd0.
      assert (Hki : dir_ t !! IndexOf hash t k = Some p)
        by (apply Hk, list_elem_of_fmap; by exists (k, v)).
      rewrite <- (IndexOf_mod t k) by (done || (destruct (wf_bucket _ _ Hwf _ _ Hb0); lia)).
      by apply (wf_share _ _ Hwf _ _ _ _ _ Hki Hi Hb0).
    + rewrite (Hne Hqp) in Hkv |- *. by eapply wf_keys.
  - intros q Hq. rewrite length_insert in Hq. by apply (wf_reach _ _ Hwf).
  - unfold zlen. rewrite length_insert. apply (wf_num _ _ Hwf).
Qed.

Lemma update_bucket_find t p b' k q bq :
  (p < length (heap_ t))%nat ->
  dir_ t !! IndexOf hash t k = Some q -> heap_ t !! q = Some bq ->
  Find hash (set_heap t (<[p := b']> (heap_ t))) k =
  Some (if decide (q = p) then Bucket_Find b' k else Bucket_Find bq k).
Proof.
  intros Hp Hq Hbq. unfold Find.
  change (IndexOf hash (set_heap t ?h) k) with (IndexOf hash t k). simpl. rewrite Hq. simpl.
  case_decide; subst.
  - by rewrite list_lookup_insert_eq.
  - rewrite list_lookup_insert_ne by done. by rewrite Hbq.
Qed.

Lemma represents_bucket t m k p b :
  represents hash t m -> dir_ t !! IndexOf hash t k = Some p -> heap_ t !! p = Some b ->
  Bucket_Find b k = m k.
Proof. intros [_ Hm] Hp Hb. pose proof (Hm k) as Hk. rewrite (Find_lookup _ _ _ _ Hp Hb) in Hk. congruence. Qed.

Lemma insert_done t m k v p b b' :
  represents hash t m -> global_depth_ t <= 30 ->
  dir_ t !! IndexOf hash t k = Some p -> heap_ t !! p = Some b ->
  Bucket_Insert b k v = (true, b') ->
  represents hash (set_heap t (<[p := b']> (heap_ t)))
    (fun k' => if decide (k' = k) then Some v else m k').
Proof.
  intros Hr Hgd Hp Hb Hi. pose proof (proj1 Hr) as Hwf.
  destruct (wf_bucket _ _ Hwf _ _ Hb) as [Hb1 Hb2 Hb3 Hb4].
  apply Bucket_Insert_spec in Hi as (Hs & Hd & Hnd & Hl & Hf & Hk); [|done|lia].
  split.
  - eapply update_bucket_wf; eauto; [lia|]. intros k' [->|Hk']%Hk; [done|].
    apply list_elem_of_fmap in Hk' as ([k0 v0] & -> & Hin). by eapply stored_index.
  - intros k'. destruct (IndexOf_lookup t k' Hwf Hgd) as (q & bq & Hq & Hbq).
    rewrite (update_bucket_find _ _ _ _ q bq) by (eauto using lookup_lt_Some). f_equal.
    case_decide as Hqp; [subst q|].
    + rewrite Hf. rewrite <- (represents_bucket t m k' p b) by done. done.
    + rewrite decide_False by congruence. by eapply represents_bucket.
Qed.

(** A bucket that cannot take the key is shallower than the depth [D] at which the
    hashes of the stored keys differ from that of the key. *)
Lemma full_bucket_shallow t k v p b b' D :
  wf t -> global_depth_ t <= 30 -> 1 <= bucket_size_ t -> 0 <= D ->
  (forall k', has_key t k' -> hash k' mod 2 ^ D = hash k mod 2 ^ D -> k' = k) ->
  dir_ t !! IndexOf hash t k = Some p -> heap_ t !! p = Some b ->
  Bucket_Insert b k v = (false, b') -> depth_ b < D.
Proof.
  intros Hwf Hgd Hbs HD Hinj Hp Hb Hi. destruct (wf_bucket _ _ Hwf _ _ Hb) as [Hb1 Hb2 Hb3 Hb4].
  apply Bucket_Insert_spec in Hi as (_ & _ & -> & Hfull & Hk); [|done|lia].
  destruct (decide (depth_ b < D)) as [|Hge]; [done|].
  destruct (list_ b) as [|[k1 v1] l] eqn:El; [unfold zlen in Hfull; simpl in Hfull; lia|].
  assert (Hk1 : (k1, v1) ∈ list_ b) by (rewrite El; left).
  exfalso. apply Hk. simpl. assert (k1 = k) as ->; [|left].
  apply Hinj; [by exists p, b, v1|].
  apply (mod_pow_coarsen _ _ D (depth_ b)); [lia|].
  rewrite (wf_keys _ _ Hwf _ _ _ _ _ Hp Hb Hk1). apply IndexOf_mod; auto.
Qed.

Lemma Insert_correct D k v n : forall t m,
  represents hash t m -> 1 <= bucket_size_ t -> global_depth_ t <= D <= 30 ->
  (forall k', has_key t k' -> hash k' mod 2 ^ D = hash k mod 2 ^ D -> k' = k) ->
  (forall p b, dir_ t !! IndexOf hash t k = Some p -> heap_ t !! p = Some b ->
     D - depth_ b < Z.of_nat n) ->
  exists t', Insert hash n t k v = Some t' /\
    represents hash t' (fun k' => if decide (k' = k) then Some v else m k') /\
    global_depth_ t' <= D /\ bucket_size_ t' = bucket_size_ t.
Proof.
  induction n as [|n IH]; intros t m Hr Hbs HD Hinj Hfuel; pose proof (proj1 Hr) as Hwf;
    destruct (IndexOf_lookup t k Hwf ltac:(lia)) as (p & b & Hp & Hb);
    pose proof (Hfuel p b Hp Hb) as Hn; destruct (wf_bucket _ _ Hwf _ _ Hb) as [Hb1 _ _ _]; [lia|].
  simpl. rewrite Hp. simpl. rewrite Hb. simpl.
  destruct (Bucket_Insert b k v) as [[] b'] eqn:Hi.
  { eexists; split; [done|]. split; [eapply insert_done; eauto; lia|]. simpl. lia. }
  assert (Hsh : depth_ b < D) by (eapply full_bucket_shallow; eauto; lia).
  set (t1 := if decide (depth_ b = global_depth_ t) then DoubleDirectory t else t).
  assert (H1 : wf t1 /\ heap_ t1 = heap_ t /\ depth_ b < global_depth_ t1 <= D /\
    bucket_size_ t1 = bucket_size_ t /\ dir_ t1 !! IndexOf hash t1 k = Some p /\
    (forall k', Find hash t1 k' = Find hash t k')).
  { unfold t1. case_decide; [|split_and!; auto; lia].
    split_and!; auto using DoubleDirectory_wf; [simpl; lia..| |].
    - apply DoubleDirectory_index; auto; lia.
    - intros k'. destruct (IndexOf_lookup t k' Hwf ltac:(lia)) as (q & bq & Hq & Hbq).
      rewrite (Find_lookup _ _ _ _ Hq Hbq). eapply Find_lookup; [|exact Hbq].
      apply DoubleDirectory_index; auto; lia. }
  destruct H1 as (Hwf1 & Hh1 & Hd1 & Hbs1 & Hp1 & Hf1). rewrite <- Hh1 in Hb.
  rewrite (RedistributeBucket_eq _ _ _ Hwf1 ltac:(lia) Hb ltac:(lia)). simpl.
  assert (Hr2 : represents hash (split_table t1 p b) m).
  { split; [apply split_table_wf; auto; lia|]. intros k'.
    rewrite split_table_find by (auto; lia). rewrite Hf1. apply (proj2 Hr). }
  destruct (IH _ m Hr2) as (t' & Ht' & Hr' & Hg' & Hs').
  - simpl. lia.
  - simpl. lia.
  - intros k' Hk'. apply Hinj. apply split_table_keys in Hk'; auto; [|lia].
    unfold has_key in *. by rewrite <- Hh1.
  - intros q bq Hq Hbq.
    destruct (split_table_deeper t1 p b k) as (q' & b'' & Hq' & Hb'' & Hdep); auto; [lia..|].
    rewrite Hq in Hq'. simplify_eq. lia.
  - exists t'. split_and!; auto. rewrite Hs'. simpl. lia.
Qed.

End correctness.

(** ** The table as a finite map *)

Section spec.
Context {K V : Type} `{EqDecision K}.
Context (hash : K -> Z).
Implicit Types (t : Table K V) (m : K -> option V).

(** The directory slots that point to a bucket. *)
Definition slots_of t (p : nat) : list nat :=
  filter (fun i => dir_ t !! i = Some p) (seq 0 (length (dir_ t))).

Lemma slots_of_perm t p b c :
  table_wf hash t -> heap_ t !! p = Some b ->
  (exists i, dir_ t !! i = Some p /\ c = Z.of_nat i mod 2 ^ depth_ b) ->
  slots_of t p ≡ₚ (fun j => Z.to_nat (c + Z.of_nat j * 2 ^ depth_ b)) <$>
                   seq 0 (Z.to_nat (2 ^ (global_depth_ t - depth_ b))).
Proof.
  intros Hwf Hb (i0 & Hi0 & Hc). destruct (wf_bucket _ _ Hwf _ _ Hb) as [Hd _ _ _].
  assert (Hpd : 0 < 2 ^ depth_ b) by (apply Z.pow_pos_nonneg; lia).
  assert (Hpg : 0 < 2 ^ (global_depth_ t - depth_ b)) by (apply Z.pow_pos_nonneg; lia).
  assert (Hc' : 0 <= c < 2 ^ depth_ b) by (subst c; apply Z.mod_pos_bound; lia).
  pose proof (wf_len _ _ Hwf) as Hl. unfold zlen in Hl.
  assert (Hg : 2 ^ global_depth_ t = 2 ^ (global_depth_ t - depth_ b) * 2 ^ depth_ b)
    by (rewrite <- Z.pow_add_r by lia; f_equal; lia).
  apply NoDup_Permutation.
  - apply NoDup_filter, NoDup_seq.
  - apply NoDup_fmap_2_strong; [|apply NoDup_seq]. intros x y _ _ Hxy.
    apply Z2Nat.inj in Hxy; nia.
  - intros i. unfold slots_of. rewrite list_elem_of_filter, list_elem_of_fmap, elem_of_seq.
    setoid_rewrite elem_of_seq. split.
    + intros [Hi Hlt]. pose proof (proj1 (wf_share _ _ Hwf _ _ _ _ _ Hi Hi0 Hb) eq_refl) as Hm.
      exists (Z.to_nat (Z.of_nat i / 2 ^ depth_ b)).
      pose proof (Z.div_mod (Z.of_nat i) (2 ^ depth_ b) ltac:(lia)).
      assert (0 <= Z.of_nat i / 2 ^ depth_ b) by (apply Z.div_pos; lia).
      assert (Z.of_nat i / 2 ^ depth_ b < 2 ^ (global_depth_ t - depth_ b))
        by (apply Z.div_lt_upper_bound; lia).
      split; [rewrite Z2Nat.id by lia; lia|lia].
    + intros (j & -> & Hj).
      assert (Hlt : 0 <= c + Z.of_nat j * 2 ^ depth_ b < Z.of_nat (length (dir_ t))) by nia.
      assert (is_Some (dir_ t !! Z.to_nat (c + Z.of_nat j * 2 ^ depth_ b))) as [q Hq]
        by (apply lookup_lt_is_Some_2; lia).
      split; [|lia]. rewrite Hq. f_equal. symmetry.
      apply (wf_share _ _ Hwf _ _ _ _ _ Hi0 Hq Hb).
      rewrite Z2Nat.id, Z.mod_add, (Z.mod_small c) by lia. done.
Qed.

Lemma has_key_is_Some t m k :
  represents hash t m -> global_depth_ t <= 30 -> has_key t k -> is_Some (m k).
Proof.
  intros Hr Hgd (p & b & v & Hb & Hk). pose proof (proj1 Hr) as Hwf.
  rewrite <- (represents_bucket hash t m k p b); [|done|by eapply stored_index|done].
  unfold Bucket_Find. destruct (list_find_key k (list_ b)) eqn:E; [eauto|].
  apply list_find_key_None in E. destruct E. apply list_elem_of_fmap. by exists (k, v).
Qed.

Lemma Insert_map D fuel t m k v :
  represents hash t m -> 1 <= bucket_size_ t -> global_depth_ t <= D <= 30 ->
  (forall k', is_Some (m k') -> hash k' mod 2 ^ D = hash k mod 2 ^ D -> k' = k) ->
  D < Z.of_nat fuel ->
  exists t', Insert hash fuel t k v = Some t' /\
    represents hash t' (fun k' => if decide (k' = k) then Some v else m k') /\
    global_depth_ t' <= D /\ bucket_size_ t' = bucket_size_ t.
Proof.
  intros Hr Hbs HD Hinj Hf. apply (Insert_correct hash D k v fuel t m); auto.
  { intros k' Hk'. apply Hinj. eapply has_key_is_Some; eauto. lia. }
  intros p b Hp Hb. destruct (wf_bucket _ _ (proj1 Hr) _ _ Hb). lia.
Qed.

(** C3: [Insert] always returns, and maps exactly the key to the value.  The keys of the
    table need a depth [D <= 30] at which their hashes differ from the key's (with 32-bit
    depth arithmetic a deeper directory cannot be indexed); the loop then takes at most
    [D + 1] iterations, the invariant is kept and the directory grows at most to [D]. *)
Theorem Insert_refines D fuel t m k v :
  represents hash t m -> 1 <= bucket_size_ t -> global_depth_ t <= D <= 30 ->
  (forall k', is_Some (m k') -> hash k' mod 2 ^ D = hash k mod 2 ^ D -> k' = k) ->
  D < Z.of_nat fuel ->
  exists t', Insert hash fuel t k v = Some t' /\
    represents hash t' (fun k' => if decide (k' = k) then Some v else m k') /\
    global_depth_ t' <= D /\ bucket_size_ t' = bucket_size_ t.
Proof. apply Insert_map. Qed.

Lemma Remove_correct t m k :
  represents hash t m -> global_depth_ t <= 30 ->
  exists t', Remove hash t k = Some (bool_decide (is_Some (m k)), t') /\
    represents hash t' (fun k' => if decide (k' = k) then None else m k') /\
    global_depth_ t' = global_depth_ t /\ bucket_size_ t' = bucket_size_ t.
Proof.
  intros Hr Hgd. pose proof (proj1 Hr) as Hwf.
  destruct (IndexOf_lookup hash t k Hwf Hgd) as (p & b & Hp & Hb).
  destruct (wf_bucket _ _ Hwf _ _ Hb) as [Hb1 Hb2 Hb3 Hb4].
  unfold Remove. rewrite Hp. simpl. rewrite Hb. simpl.
  destruct (Bucket_Remove b k) as [r b'] eqn:E. unfold Bucket_Remove in E.
  destruct (list_erase_key k (list_ b)) as [r0 l] eqn:El. simplify_eq.
  apply list_erase_key_spec in El as (-> & Hf & Hnd & Hl & Hin); [|done].
  rewrite <- (represents_bucket hash t m k p b) by done.
  eexists; split; [done|]. split_and!; auto. split.
  - eapply update_bucket_wf; eauto; simpl; [unfold zlen in *; lia|].
    intros k' ([k0 v0] & -> & ?%Hin)%list_elem_of_fmap_1. by eapply stored_index.
  - intros k'. destruct (IndexOf_lookup hash t k' Hwf Hgd) as (q & bq & Hq & Hbq).
    rewrite (update_bucket_find _ _ _ _ _ q bq) by (eauto using lookup_lt_Some). f_equal.
    case_decide as Hqp; [subst q|].
    + unfold Bucket_Find. simpl. rewrite Hf. change (list_find_key k' (list_ b)) with (Bucket_Find b k').
      by rewrite (represents_bucket hash t m k' p b).
    + rewrite decide_False by congruence. by eapply represents_bucket.
Qed.

(** [Remove] deletes exactly the key, reports whether it was present, and keeps the
    invariant. *)
Theorem Remove_refines t m k :
  represents hash t m -> global_depth_ t <= 30 ->
  exists t', Remove hash t k = Some (bool_decide (is_Some (m k)), t') /\
    represents hash t' (fun k' => if decide (k' = k) then None else m k') /\
    global_depth_ t' = global_depth_ t /\ bucket_size_ t' = bucket_size_ t.
Proof. apply Remove_correct. Qed.

Lemma ctor_represents bs :
  0 <= bs -> represents (V := V) hash (ExtendibleHashTable_ctor bs) (fun _ => None).
Proof.
  intros Hbs.
  assert (Hgd : global_depth_ (@ExtendibleHashTable_ctor K V bs) = 0) by done.
  split.
  - split; simpl; auto; try lia.
    + intros [|i] p Hi; simplify_eq/=. eauto.
    + intros [|p] b Hb; simplify_eq/=. split; simpl; auto; [lia|constructor].
    + intros [|i] [|j] p q b Hi Hj Hb; simplify_eq/=. done.
    + intros [|i] p b k v Hi Hb Hk; simplify_eq/=. by apply not_elem_of_nil in Hk.
    + intros [|p] Hp; [by exists 0%nat|lia].
  - intros k. unfold Find. rewrite (IndexOf_small hash) by (rewrite Hgd; lia).
    rewrite Hgd, Z.mod_1_r. done.
Qed.

(** A run of insertions and removals, and the map they describe. *)
Inductive table_op : Type := InsertOp (k : K) (v : V) | RemoveOp (k : K).
Fixpoint run_table (fuel : nat) (ops : list table_op) t : option (Table K V) :=
  match ops with
  | [] => Some t
  | InsertOp k v :: ops => t' ← Insert hash fuel t k v; run_table fuel ops t'
  | RemoveOp k :: ops => '(_, t') ← Remove hash t k; run_table fuel ops t'
  end.
Fixpoint run_map (ops : list table_op) (m : K -> option V) : K -> option V :=
  match ops with
  | [] => m
  | InsertOp k v :: ops => run_map ops (fun k' => if decide (k' = k) then Some v else m k')
  | RemoveOp k :: ops => run_map ops (fun k' => if decide (k' = k) then None else m k')
  end.
Definition inserted (ops : list table_op) : list K := omap (fun o => match o with InsertOp k _ => Some k | RemoveOp _ => None end) ops.

(** The keys of [ks] differ in the last [D] bits of their hashes. *)
Definition separated (D : Z) (ks : list K) : Prop :=
  forall k k', k ∈ ks -> k' ∈ ks -> hash k' mod 2 ^ D = hash k mod 2 ^ D -> k' = k.

Lemma run_table_represents D fuel ops : forall t m ks,
  represents hash t m -> 1 <= bucket_size_ t -> global_depth_ t <= D <= 30 -> D < Z.of_nat fuel ->
  (forall k, is_Some (m k) -> k ∈ ks) -> separated D (ks ++ inserted ops) ->
  exists t', run_table fuel ops t = Some t' /\ represents hash t' (run_map ops m) /\
    global_depth_ t' <= D /\ bucket_size_ t' = bucket_size_ t.
Proof.
  induction ops as [|[k v|k] ops IH]; intros t m ks Hr Hbs HD Hf Hm Hs; cbn [run_table run_map].
  - exists t. split_and!; (done || lia).
  - destruct (Insert_map D fuel t m k v) as (t1 & -> & Hr1 & Hg1 & Hs1); [done..| |done|].
    { intros k' Hk'. apply Hs; [set_solver|]. apply elem_of_app. left. by apply Hm. }
    cbn [mbind option_bind]. destruct (IH t1 _ (k :: ks) Hr1) as (t' & Ht & Hr' & Hg' & Hb'); [lia|lia|done| | |].
    + intros k'. case_decide; [subst; intros _; left|]. intros Hk'. right. by apply Hm.
    + intros x y Hx Hy. apply Hs; cbn in *; set_solver.
    + exists t'. split_and!; (done || congruence).
  - destruct (Remove_correct t m k Hr) as (t1 & -> & Hr1 & Hg1 & Hs1); [lia|]. cbn [mbind option_bind].
    destruct (IH t1 _ ks Hr1) as (t' & Ht & Hr' & Hg' & Hb'); [lia|lia|done| |done|].
    + intros k'. case_decide; [by intros []|apply Hm].
    + exists t'. split_and!; (done || congruence).
Qed.

Lemma reachable_buckets t : table_wf hash t -> zlen (remove_dups (dir_ t)) = zlen (heap_ t).
Proof.
  intros Hwf. assert (Hp : remove_dups (dir_ t) ≡ₚ seq 0 (length (heap_ t))).
  { apply NoDup_Permutation; [apply NoDup_remove_dups|apply NoDup_seq|]. intros p. rewrite elem_of_remove_dups, elem_of_seq. split.
    - intros [i Hi]%list_elem_of_lookup. apply (wf_ptr _ _ Hwf), lookup_lt_is_Some in Hi. lia.
    - intros [_ Hp]. destruct (wf_reach _ _ Hwf p) as [i Hi]; [lia|]. by eapply list_elem_of_lookup_2. }
  unfold zlen. by rewrite Hp, length_seq.
Qed.

Lemma shared_slots t p b :
  table_wf hash t -> heap_ t !! p = Some b -> Z.of_nat (length (slots_of t p)) = 2 ^ (global_depth_ t - depth_ b).
Proof.
  intros Hwf Hb. destruct (wf_bucket _ _ Hwf _ _ Hb) as [Hd _ _ _].
  destruct (wf_reach _ _ Hwf p) as [i Hi]; [by eapply lookup_lt_Some|].
  erewrite Permutation_length by (eapply slots_of_perm; eauto).
  rewrite length_fmap, length_seq.
  assert (0 < 2 ^ (global_depth_ t - depth_ b)) by (apply Z.pow_pos_nonneg; lia). lia.
Qed.

(** C36: the directory after any operations. Run any insertions and removals on a new table (with buckets of at least
    one item, and keys that differ in some [D <= 30] last bits of their hashes): the run ends, and the
    directory has [2 ^ GetGlobalDepth] slots, each of which points to a bucket; [GetNumBuckets] is
    the number of different buckets in it; a bucket of local depth [d], never more than the global depth,
    is shared by exactly [2 ^ (GetGlobalDepth - d)] slots; no bucket is overfull; and every item lies in the
    slots that agree with its hash in the last [d] bits. [Find] gives the last value inserted and not removed. *)
Theorem directory_integrity (bs D : Z) (fuel : nat) (ops : list table_op) :
  1 <= bs -> 0 <= D <= 30 -> D < Z.of_nat fuel -> separated D (inserted ops) ->
  exists t, run_table fuel ops (ExtendibleHashTable_ctor bs) = Some t /\
    GetGlobalDepth t <= D /\ zlen (dir_ t) = 2 ^ GetGlobalDepth t /\ GetNumBuckets t = zlen (remove_dups (dir_ t)) /\
    (forall i p, dir_ t !! i = Some p -> exists b, heap_ t !! p = Some b /\
       GetLocalDepth t i = Some (depth_ b) /\ 0 <= depth_ b <= GetGlobalDepth t /\
       Z.of_nat (length (slots_of t p)) = 2 ^ (GetGlobalDepth t - depth_ b) /\ zlen (list_ b) <= bs /\
       (forall k v, (k, v) ∈ list_ b -> hash k mod 2 ^ depth_ b = Z.of_nat i mod 2 ^ depth_ b)) /\
    (forall k, Find hash t k = Some (run_map ops (fun _ => None) k)).
Proof.
  intros Hbs HD Hf Hs.
  destruct (run_table_represents D fuel ops (ExtendibleHashTable_ctor bs) (fun _ => None) []) as (t & Ht & [Hwf Hfind] & Hg & Hb);
    [apply ctor_represents; lia|done|cbn; lia|done|by intros ? []|done|].
  exists t. unfold GetGlobalDepth, GetNumBuckets. split_and!; [done|done|apply (wf_len _ _ Hwf)| | |done].
  - rewrite reachable_buckets by done. apply (wf_num _ _ Hwf).
  - intros i p Hi. destruct (wf_ptr _ _ Hwf i p Hi) as [b Hp]. exists b.
    destruct (wf_bucket _ _ Hwf p b Hp) as [Hd _ _ Hl]. cbn in Hb. rewrite Hb in Hl. unfold GetLocalDepth. rewrite Hi. cbn. rewrite Hp.
    split_and!; [done|done|lia|lia|by apply shared_slots|done|]. intros k v Hk. by eapply (wf_keys _ _ Hwf).
Qed.

End spec.

(** ** The page table interface of the buffer pool *)

(** [std::hash<int>]: the value converted to [size_t]. *)
Definition std_hash_int (k : Z) : Z := uwrap 64 k.

(** [ExtendibleHashTable<page_id_t, frame_id_t>]; 31 iterations are enough for page ids. *)
#[export] Instance hash_page_table : PageTable (Table Z Z) := {
  pt_find t k := of_option (Find std_hash_int t k);
  pt_insert t k v := of_option (Insert std_hash_int 31 t k v);
  pt_remove t k := of_option (Remove std_hash_int t k);
}.

Definition max_page_id : Z := 2 ^ 30.

Definition hash_ok (t : Table Z Z) (m : gmap Z Z) : Prop :=
  represents std_hash_int t (fun k => m !! k) /\ 1 <= bucket_size_ t /\ global_depth_ t <= 30 /\
  (forall k, is_Some (m !! k) -> 0 <= k < max_page_id).

Lemma represents_ext {K V} `{EqDecision K} (hash : K -> Z) (t : Table K V) m m' :
  represents hash t m -> (forall k, m k = m' k) -> represents hash t m'.
Proof. intros [Hw Hf] He. split; [done|]. intros k. by rewrite Hf, He. Qed.

Lemma hash_find_ok t m k : hash_ok t m -> of_option (Find std_hash_int t k) = Ret (m !! k).
Proof. intros ([_ Hf] & _). by rewrite Hf. Qed.

Lemma hash_insert_ok t m k v : hash_ok t m -> 0 <= k < max_page_id ->
  exists t', of_option (Insert std_hash_int 31 t k v) = Ret t' /\ hash_ok t' (<[k := v]> m).
Proof.
  intros (Hr & Hbs & Hgd & Hm) Hk. unfold max_page_id in *.
  destruct (Insert_correct std_hash_int 30 k v 31 t (fun k => m !! k))
    as (t' & HI & Hr' & Hgd' & Hbs'); auto; try lia.
  { intros k' Hk' He.
    assert (Hin : is_Some (m !! k')) by (apply (has_key_is_Some std_hash_int t (fun k => m !! k)); auto; lia).
    specialize (Hm k' Hin). unfold std_hash_int, uwrap in He. rewrite !mod_pow_mod in He by lia.
    rewrite !Z.mod_small in He by lia. done. }
  { intros p b Hp Hb. destruct (wf_bucket _ _ (proj1 Hr) _ _ Hb). lia. }
  exists t'. rewrite HI. split; [done|]. split_and!; [|lia|lia|].
  - eapply represents_ext; [done|]. intros k'. simpl. case_decide as E.
    + by rewrite E, lookup_insert_eq.
    + by rewrite lookup_insert_ne by congruence.
  - intros k' [->|?]%lookup_insert_is_Some'; auto.
Qed.

Lemma hash_remove_ok t m k : hash_ok t m ->
  exists t', of_option (Remove std_hash_int t k) = Ret (bool_decide (is_Some (m !! k)), t') /\
    hash_ok t' (delete k m).
Proof.
  intros (Hr & Hbs & Hgd & Hm).
  destruct (Remove_correct std_hash_int t (fun k => m !! k) k Hr Hgd) as (t' & HR & Hr' & Hgd' & Hbs').
  exists t'. rewrite HR. split; [done|]. split_and!; [|lia|lia|].
  - eapply represents_ext; [done|]. intros k'. simpl. case_decide as E.
    + by rewrite E, lookup_delete_eq.
    + by rewrite lookup_delete_ne by congruence.
  - intros k' [? ?]%lookup_delete_is_Some. auto.
Qed.

#[export] Instance hash_page_table_laws : PageTableLaws (Table Z Z) max_page_id := {
  pt_ok := hash_ok;
  pt_find_ok := hash_find_ok;
  pt_insert_ok := hash_insert_ok;
  pt_remove_ok := hash_remove_ok;
}.

Lemma ctor_hash_ok bs : 1 <= bs -> hash_ok (ExtendibleHashTable_ctor bs) ∅.
Proof.
  intros Hbs. split_and!; simpl; try lia.
  - eapply represents_ext; [apply ctor_represents; lia|]. intros k. by rewrite lookup_empty.
  - intros k. rewrite lookup_empty. by intros [].
Qed.

(** ** Witnesses *)

(** Two keys that share their low bit fill a one-entry bucket and force two splits. *)
Definition demo_table : option (Table Z Z) :=
  t1 ← Insert std_hash_int 31 (ExtendibleHashTable_ctor 1) 0 10;
  Insert std_hash_int 31 t1 2 12.

Example demo_table_shape :
  (fun t => (global_depth_ t, num_buckets_ t, dir_ t)) <$> demo_table =
  Some (2, 3, [0; 1; 2; 1]%nat).
Proof. vm_compute. reflexivity. Qed.

Lemma Insert_refines_witness :
  exists t1 t2, Insert std_hash_int 31 (ExtendibleHashTable_ctor 1) 0 10 = Some t1 /\
    Insert std_hash_int 31 t1 2 12 = Some t2 /\
    represents std_hash_int t2
      (fun k => if decide (k = 2) then Some 12 else if decide (k = 0) then Some 10 else None).
Proof.
  destruct (Insert_refines std_hash_int 2 31 (ExtendibleHashTable_ctor 1) (fun _ => None) 0 10)
    as (t1 & H1 & Hr1 & Hg1 & Hs1); [apply ctor_represents; lia|simpl; lia..|by intros ? []|lia|].
  destruct (Insert_refines std_hash_int 2 31 t1 _ 2 12 Hr1)
    as (t2 & H2 & Hr2 & Hg2 & Hs2); [rewrite Hs1; simpl; lia|lia| |lia|].
  { intros k'. case_decide; [subst; intros _; by vm_compute|by intros []]. }
  exists t1, t2. auto.
Defined.

Lemma Remove_refines_witness :
  exists t, Remove std_hash_int (ExtendibleHashTable_ctor (V := Z) 4) 7 = Some (false, t).
Proof.
  destruct (Remove_refines std_hash_int (ExtendibleHashTable_ctor (V := Z) 4) (fun _ => None) 7)
    as (t & H & _); [apply ctor_represents; lia|simpl; lia|].
  exists t. exact H.
Defined.

Lemma directory_integrity_witness :
  exists t, run_table std_hash_int 31 [InsertOp 0 10; InsertOp 2 12; InsertOp 1 11; RemoveOp 2; InsertOp 6 16] (ExtendibleHashTable_ctor 1) = Some t /\
    GetGlobalDepth t <= 3 /\ GetNumBuckets t = zlen (remove_dups (dir_ t)) /\ Find std_hash_int t 6 = Some (Some 16).
Proof.
  destruct (directory_integrity std_hash_int 1 3 31 [InsertOp 0 10; InsertOp 2 12; InsertOp 1 11; RemoveOp 2; InsertOp 6 16])
    as (t & Ht & Hg & _ & Hn & _ & Hf); [lia|lia|lia| |].
  - intros k k' Hk Hk'. vm_compute in Hk, Hk'. repeat (apply elem_of_cons in Hk as [->|Hk]); try (by apply elem_of_nil in Hk);
      repeat (apply elem_of_cons in Hk' as [->|Hk']); try (by apply elem_of_nil in Hk'); vm_compute; congruence.
  - exists t. split; [exact Ht|]. split; [exact Hg|]. split; [exact Hn|]. rewrite Hf. reflexivity.
Defined.
