(* ===== verification/LruK.v ===== *)
(** * LRU-K replacer

    Model of [src/buffer/lru_k_replacer.cpp].  The two intrusive doubly linked lists
    are kept as the code keeps them: a store maps node pointers to [Frame]s whose
    [pre_] and [nex_] are weak pointers into the same store.  The nodes other than the
    four sentinels are owned by the map [mp_] alone, so a node pointer is written
    [Node frame_id], looking a frame up in [mp_] is looking that pointer up in the
    store, and erasing it from [mp_] destroys the node.  [size_t] counters wrap at 64
    bits.  A call that throws is [Raised], a second lock of the held mutex is
    [Blocked], a null dereference is [Crash]. *)

From S2P Require Import Prelude.
From S2P Require Import Interfaces.
From Stdlib Require Import Sorted.

Local Open Scope Z_scope.

Inductive ptr : Type :=
| LruHead
| LruTail
| HistoryHead
| HistoryTail
| Node (frame_id : Z).

#[export] Instance ptr_eq_dec : EqDecision ptr.
Proof. solve_decision. Defined.

Definition ptr_encode (p : ptr) : nat + Z :=
  match p with
  | LruHead => inl 0%nat
  | LruTail => inl 1%nat
  | HistoryHead => inl 2%nat
  | HistoryTail => inl 3%nat
  | Node f => inr f
  end.

Definition ptr_decode (x : nat + Z) : ptr :=
  match x with
  | inl 0%nat => LruHead
  | inl 1%nat => LruTail
  | inl 2%nat => HistoryHead
  | inl _ => HistoryTail
  | inr f => Node f
  end.

Lemma ptr_decode_encode p : ptr_decode (ptr_encode p) = p.
Proof. by destruct p. Qed.

#[export] Instance ptr_countable : Countable ptr :=
  inj_countable' ptr_encode ptr_decode ptr_decode_encode.

Record Frame := mkFrame {
  frame_id_ : Z;
  pre_ : option ptr;
  nex_ : option ptr;
  timestamps_ : list Z;
  record_cnt_ : Z;
  evictable_ : bool;
}.

Record LRUKReplacer := mkReplacer {
  current_timestamp_ : Z;
  curr_size_ : Z;
  replacer_size_ : Z;
  k_ : Z;
  tot_size_ : Z;
  nodes_ : gmap ptr Frame;
}.

Local Open Scope outcome_scope.

Definition incr (z : Z) : Z := uwrap 64 (z + 1).
Definition decr (z : Z) : Z := uwrap 64 (z - 1).

(** ** Node stores *)

Abbreviation store := (gmap ptr Frame).

Definition set_pre (p : ptr) (v : ptr) (s : store) : store :=
  alter (fun f => mkFrame (frame_id_ f) (Some v) (nex_ f) (timestamps_ f) (record_cnt_ f) (evictable_ f)) p s.

Definition set_nex (p : ptr) (v : ptr) (s : store) : store :=
  alter (fun f => mkFrame (frame_id_ f) (pre_ f) (Some v) (timestamps_ f) (record_cnt_ f) (evictable_ f)) p s.

Definition deref (p : ptr) (s : store) : outcome Frame :=
  match s !! p with Some f => Ret f | None => Crash end.

(** [weak_ptr::lock]: null once the node is gone. *)
Definition lock (w : option ptr) (s : store) : option ptr :=
  p ← w; _ ← s !! p; Some p.

(** [std::shared_ptr(weak)]: throws once the node is gone. *)
Definition acquire (w : option ptr) (s : store) : outcome ptr :=
  match lock w s with Some p => Ret p | None => Raised end.

Definition RemoveFromList (frame : ptr) (s : store) : outcome store :=
  let* f := deref frame s in
  let* prev := acquire (pre_ f) s in
  let* ne := acquire (nex_ f) s in
  Ret (set_pre ne prev (set_nex prev ne s)).

Definition InsertToListHead (frame head : ptr) (s : store) : outcome store :=
  let* h := deref head s in
  let* temp := acquire (nex_ h) s in
  Ret (set_pre frame head (set_pre temp frame (set_nex frame temp (set_nex head frame s)))).

(** ** Operations *)

Definition empty_frame : Frame := mkFrame 0 None None [] 0 true.

Definition LRUKReplacer_ctor (num_frames k : Z) : LRUKReplacer :=
  mkReplacer 0 0 num_frames k 0
    (set_pre HistoryTail HistoryHead (set_nex HistoryHead HistoryTail
      (set_pre LruTail LruHead (set_nex LruHead LruTail
        {[ LruHead := empty_frame; LruTail := empty_frame;
           HistoryHead := empty_frame; HistoryTail := empty_frame ]})))).

Definition Size (r : LRUKReplacer) : Z := curr_size_ r.

(** The [while (p != head)] walk towards the head; [None] when no frame is evictable. *)
Fixpoint find_evictable (fuel : nat) (s : store) (head : ptr) (p : option ptr) : outcome (option ptr) :=
  match fuel with
  | O => Crash
  | S fuel =>
      if decide (p = Some head) then Ret None
      else match p with
           | None => Crash
           | Some q =>
               let* f := deref q s in
               if evictable_ f then Ret (Some q)
               else find_evictable fuel s head (lock (pre_ f) s)
           end
  end.

Definition drop_frame (p : ptr) (r : LRUKReplacer) : outcome (option Z * LRUKReplacer) :=
  let* f := deref p (nodes_ r) in
  let* s := RemoveFromList p (nodes_ r) in
  Ret (Some (frame_id_ f),
       mkReplacer (current_timestamp_ r) (decr (curr_size_ r)) (replacer_size_ r) (k_ r)
         (decr (tot_size_ r)) (delete (Node (frame_id_ f)) s)).

Definition Evict (r : LRUKReplacer) : outcome (option Z * LRUKReplacer) :=
  if decide (Size r = 0) then Ret (None, r)
  else
    let s := nodes_ r in
    let fuel := S (size s) in
    let* ht := deref HistoryTail s in
    let* victim := find_evictable fuel s HistoryHead (lock (pre_ ht) s) in
    match victim with
    | Some p => drop_frame p r
    | None =>
        let* lt := deref LruTail s in
        let* victim := find_evictable fuel s LruHead (lock (pre_ lt) s) in
        match victim with
        | Some p => drop_frame p r
        | None => Ret (None, r)
        end
    end.

(** The node after the access is recorded: the oldest of [k] timestamps is dropped. *)
Definition touch (k now : Z) (f : Frame) : Frame :=
  let ts := if decide (zlen (timestamps_ f) = k) then tail (timestamps_ f) else timestamps_ f in
  mkFrame (frame_id_ f) (pre_ f) (nex_ f) (ts ++ [now]) (incr (record_cnt_ f)) (evictable_ f).

Definition new_frame (frame_id : Z) : Frame := mkFrame frame_id None None [] 0 true.

(** Calling [Evict] here would lock [latch_], which the caller holds. *)
Definition RecordAccess (r : LRUKReplacer) (frame_id : Z) : outcome LRUKReplacer :=
  if decide (swrap 32 (replacer_size_ r) < frame_id) then Raised
  else
    let now := incr (current_timestamp_ r) in
    let p := Node frame_id in
    let s0 := nodes_ r in
    let f := touch (k_ r) now (default (new_frame frame_id) (s0 !! p)) in
    let s1 := <[p := f]> s0 in
    let* (s2, curr, tot) :=
      if decide (record_cnt_ f = 1) then
        if decide (tot_size_ r = replacer_size_ r) then Blocked
        else
          let* s2 := InsertToListHead p HistoryHead s1 in
          Ret (s2, incr (curr_size_ r), incr (tot_size_ r))
      else Ret (s1, curr_size_ r, tot_size_ r) in
    let* s3 :=
      if decide (k_ r <= record_cnt_ f) then
        let* s := RemoveFromList p s2 in InsertToListHead p LruHead s
      else Ret s2 in
    Ret (mkReplacer now curr (replacer_size_ r) (k_ r) tot s3).

Definition SetEvictable (r : LRUKReplacer) (frame_id : Z) (set_evictable : bool) : LRUKReplacer :=
  match nodes_ r !! Node frame_id with
  | None => r
  | Some f =>
      if decide (evictable_ f = set_evictable) then r
      else
        mkReplacer (current_timestamp_ r)
          (if set_evictable then incr (curr_size_ r) else decr (curr_size_ r))
          (replacer_size_ r) (k_ r) (tot_size_ r)
          (<[Node frame_id := mkFrame (frame_id_ f) (pre_ f) (nex_ f) (timestamps_ f)
                                (record_cnt_ f) set_evictable]> (nodes_ r))
  end.

Definition Remove (r : LRUKReplacer) (frame_id : Z) : outcome LRUKReplacer :=
  match nodes_ r !! Node frame_id with
  | None => Ret r
  | Some f =>
      if negb (evictable_ f) then Raised
      else
        let* s := RemoveFromList (Node frame_id) (nodes_ r) in
        Ret (mkReplacer (current_timestamp_ r) (decr (curr_size_ r)) (replacer_size_ r) (k_ r)
               (decr (tot_size_ r)) (delete (Node frame_id) s))
  end.

(** A run of the replacer on three frames with [k = 2]. *)
Definition demo_run : outcome (option Z * LRUKReplacer) :=
  let r0 := LRUKReplacer_ctor 7 2 in
  let* r1 := RecordAccess r0 1 in
  let* r2 := RecordAccess r1 2 in
  let* r3 := RecordAccess r2 3 in
  let* r4 := RecordAccess r3 2 in
  Evict (SetEvictable r4 1 false).

Example demo_run_evicts_3 :
  (let* (v, _) := demo_run in Ret v) = Ret (Some 3).
Proof. vm_compute. reflexivity. Qed.

(** ** Doubly linked lists in a store *)

Definition nx (s : store) (p : ptr) : option ptr := s !! p ≫= nex_.
Definition pv (s : store) (p : ptr) : option ptr := s !! p ≫= pre_.

Definition link (s : store) (a b : ptr) : Prop := nx s a = Some b /\ pv s b = Some a.

(** [linked s l]: the nodes of [l] are chained in order by [nex_] and [pre_]. *)
Fixpoint linked (s : store) (l : list ptr) : Prop :=
  match l with
  | a :: (b :: _) as l' => link s a b /\ linked s l'
  | _ => True
  end.

Create Rewrite HintDb store_db.

Lemma nx_set_nex a v s p :
  is_Some (s !! a) -> nx (set_nex a v s) p = if decide (p = a) then Some v else nx s p.
Proof.
  intros [f Hf]. unfold nx, set_nex. rewrite lookup_alter.
  case_decide; case_decide; subst; try done. by rewrite Hf.
Qed.

Lemma pv_set_nex a v s p : pv (set_nex a v s) p = pv s p.
Proof. unfold pv, set_nex. rewrite lookup_alter. case_decide; [|done]. subst. by destruct (s !! p). Qed.

Lemma pv_set_pre a v s p :
  is_Some (s !! a) -> pv (set_pre a v s) p = if decide (p = a) then Some v else pv s p.
Proof.
  intros [f Hf]. unfold pv, set_pre. rewrite lookup_alter.
  case_decide; case_decide; subst; try done. by rewrite Hf.
Qed.

Lemma nx_set_pre a v s p : nx (set_pre a v s) p = nx s p.
Proof. unfold nx, set_pre. rewrite lookup_alter. case_decide; [|done]. subst. by destruct (s !! p). Qed.

Lemma is_Some_set_nex a v s p : is_Some (set_nex a v s !! p) <-> is_Some (s !! p).
Proof. unfold set_nex. rewrite lookup_alter. case_decide; subst; by rewrite ?fmap_is_Some. Qed.

Lemma is_Some_set_pre a v s p : is_Some (set_pre a v s !! p) <-> is_Some (s !! p).
Proof. unfold set_pre. rewrite lookup_alter. case_decide; subst; by rewrite ?fmap_is_Some. Qed.

Lemma link_dom s a b : link s a b -> is_Some (s !! a) /\ is_Some (s !! b).
Proof. unfold link, nx, pv. by destruct (s !! a), (s !! b); intros []. Qed.

#[export] Hint Rewrite pv_set_nex nx_set_pre is_Some_set_nex is_Some_set_pre : store_db.

(** What is stored in a node besides its links. *)
Definition body (f : Frame) : Z * list Z * Z * bool :=
  (frame_id_ f, timestamps_ f, record_cnt_ f, evictable_ f).

Lemma body_set_nex a v s p : body <$> set_nex a v s !! p = body <$> s !! p.
Proof. unfold set_nex. rewrite lookup_alter. case_decide; [|done]. subst. by destruct (s !! p). Qed.

Lemma body_set_pre a v s p : body <$> set_pre a v s !! p = body <$> s !! p.
Proof. unfold set_pre. rewrite lookup_alter. case_decide; [|done]. subst. by destruct (s !! p). Qed.

#[export] Hint Rewrite body_set_nex body_set_pre : store_db.

Lemma linked_app s l1 a l2 :
  linked s (l1 ++ a :: l2) <-> linked s (l1 ++ [a]) /\ linked s (a :: l2).
Proof.
  induction l1 as [|x l1 IH]; [simpl; tauto|].
  destruct l1 as [|y l1]; [simpl; tauto|]. simpl in *. tauto.
Qed.

(** Only the [nex_] of all nodes but the last and the [pre_] of all but the first matter. *)
Lemma linked_frame s s' l1 a :
  linked s (l1 ++ [a]) -> (forall x, x ∈ l1 -> nx s' x = nx s x) ->
  (forall x, x ∈ tail (l1 ++ [a]) -> pv s' x = pv s x) -> linked s' (l1 ++ [a]).
Proof.
  induction l1 as [|x l1 IH]; [done|]. intros Hl Hn Hp.
  assert (Hstep : exists y l2, l1 ++ [a] = y :: l2) by (destruct l1; simpl; eauto).
  destruct Hstep as (y & l2 & Hy). simpl in Hl, Hp |- *. rewrite Hy in *.
  destruct Hl as [[Hl1 Hl2] Hl]. split.
  - split; [rewrite Hn by left; done|rewrite Hp by left; done].
  - apply IH; auto.
    + intros z Hz. apply Hn. by right.
    + intros z Hz. apply Hp. by right.
Qed.

Lemma linked_frame_all s s' l :
  linked s l -> (forall x, x ∈ l -> nx s' x = nx s x) ->
  (forall x, x ∈ l -> pv s' x = pv s x) -> linked s' l.
Proof.
  destruct (decide (l = [])) as [->|Hne]; [done|].
  destruct (exists_last Hne) as (l1 & a & ->). intros Hl Hn Hp.
  eapply linked_frame; eauto.
  - intros x Hx. apply Hn. set_solver.
  - intros x Hx. apply Hp. destruct (l1 ++ [a]) eqn:E; [by apply not_elem_of_nil in Hx|]. by right.
Qed.

(** Unlinking a node from the middle of a list. *)
Lemma RemoveFromList_linked s l1 a x b l2 :
  linked s (l1 ++ a :: x :: b :: l2) -> NoDup (l1 ++ a :: x :: b :: l2) ->
  exists s', RemoveFromList x s = Ret s' /\
    linked s' (l1 ++ a :: b :: l2) /\
    (forall p, body <$> s' !! p = body <$> s !! p) /\
    (forall p, p <> a -> nx s' p = nx s p) /\ (forall p, p <> b -> pv s' p = pv s p).
Proof.
  intros Hl Hnd. apply linked_app in Hl as [Hl1 (Hax & Hxb & Hl2)].
  destruct (link_dom _ _ _ Hax) as [Ha Hx]. destruct (link_dom _ _ _ Hxb) as [_ Hb].
  assert (HR : RemoveFromList x s = Ret (set_pre b a (set_nex a b s))).
  { destruct Hx as [fx Hfx]. unfold RemoveFromList, deref. rewrite Hfx. simpl.
    destruct Hax as [_ Hpx]. destruct Hxb as [Hnx _]. unfold pv, nx in *. rewrite Hfx in *.
    simpl in *. rewrite Hpx, Hnx. unfold acquire, lock. simpl.
    destruct Ha as [? ->], Hb as [? ->]. done. }
  eexists; split; [exact HR|].
  assert (Hnxs : forall p, nx (set_pre b a (set_nex a b s)) p = if decide (p = a) then Some b else nx s p).
  { intros p. by rewrite nx_set_pre, nx_set_nex. }
  assert (Hpvs : forall p, pv (set_pre b a (set_nex a b s)) p = if decide (p = b) then Some a else pv s p).
  { intros p. rewrite pv_set_pre by by apply is_Some_set_nex. by rewrite pv_set_nex. }
  apply NoDup_app in Hnd as (Hnd1 & Hdis & Hnd2).
  apply NoDup_cons in Hnd2 as [Ha2 [Hx2 [Hb2 Hnd2]%NoDup_cons]%NoDup_cons].
  split_and!.
  - apply linked_app. split; [|split].
    + eapply linked_frame; eauto.
      * intros p Hp. rewrite Hnxs, decide_False; [done|]. intros ->. eapply Hdis; eauto. left.
      * intros p Hp. rewrite Hpvs, decide_False; [done|]. intros ->.
        assert (b ∈ l1 ++ [a]) by (destruct l1; set_solver). set_solver.
    + split; [by rewrite Hnxs, decide_True|by rewrite Hpvs, decide_True].
    + destruct (exists_last (l := b :: l2)) as (l3 & c & Hc); [done|]. rewrite Hc in Hl2 |- *.
      eapply linked_frame; eauto.
      * intros p Hp. rewrite Hnxs, decide_False; [done|]. intros ->.
        apply Ha2. right. rewrite Hc. set_solver.
      * rewrite <- Hc. simpl. intros p Hp. rewrite Hpvs, decide_False; [done|]. by intros ->.
  - intros p. by autorewrite with store_db.
  - intros p Hp. by rewrite Hnxs, decide_False.
  - intros p Hp. by rewrite Hpvs, decide_False.
Qed.

(** Linking a node right after the head sentinel. *)
Lemma InsertToListHead_linked s h t l x :
  linked s (h :: t :: l) -> NoDup (h :: t :: l) -> x ∉ h :: t :: l -> is_Some (s !! x) ->
  exists s', InsertToListHead x h s = Ret s' /\
    linked s' (h :: x :: t :: l) /\
    (forall p, body <$> s' !! p = body <$> s !! p) /\
    (forall p, p <> h -> p <> x -> nx s' p = nx s p) /\
    (forall p, p <> t -> p <> x -> pv s' p = pv s p).
Proof.
  intros [Hht Hl] Hnd Hx Hxs. destruct (link_dom _ _ _ Hht) as [Hh Ht].
  assert (HR : InsertToListHead x h s =
    Ret (set_pre x h (set_pre t x (set_nex x t (set_nex h x s))))).
  { unfold InsertToListHead, deref. destruct Hh as [fh Hfh]. rewrite Hfh. simpl.
    destruct Hht as [Hnx _]. unfold nx in Hnx. rewrite Hfh in Hnx. simpl in Hnx. rewrite Hnx.
    unfold acquire, lock. simpl. by destruct Ht as [? ->]. }
  eexists; split; [exact HR|].
  apply not_elem_of_cons in Hx as [Hxh [Hxt Hxl]%not_elem_of_cons].
  apply NoDup_cons in Hnd as [Hh2 [Ht2 Hnd]%NoDup_cons].
  apply not_elem_of_cons in Hh2 as [Hht' Hh2].
  set (s' := set_pre x h _).
  assert (Hnxs : forall p, nx s' p = if decide (p = x) then Some t else if decide (p = h) then Some x else nx s p).
  { intros p. unfold s'. rewrite !nx_set_pre, nx_set_nex by by apply is_Some_set_nex.
    case_decide; [done|]. by rewrite nx_set_nex. }
  assert (Hpvs : forall p, pv s' p = if decide (p = x) then Some h else if decide (p = t) then Some x else pv s p).
  { intros p. unfold s'. rewrite pv_set_pre by by autorewrite with store_db.
    case_decide; [done|]. rewrite pv_set_pre by by autorewrite with store_db.
    by rewrite !pv_set_nex. }
  split_and!.
  - split; [split; [by rewrite Hnxs, decide_False, decide_True|by rewrite Hpvs, decide_True]|].
    split; [split; [by rewrite Hnxs, decide_True|by rewrite Hpvs, decide_False, decide_True]|].
    destruct (exists_last (l := t :: l)) as (l3 & c & Hc); [done|]. rewrite Hc in Hl |- *.
    eapply linked_frame; eauto.
    + intros p Hp. assert (p ∈ t :: l) by (rewrite Hc; set_solver).
      rewrite Hnxs, !decide_False; [done|set_solver|set_solver].
    + rewrite <- Hc. simpl. intros p Hp. rewrite Hpvs, !decide_False; [done|set_solver|set_solver].
  - intros p. unfold s'. by autorewrite with store_db.
  - intros p ??. by rewrite Hnxs, !decide_False.
  - intros p ??. by rewrite Hpvs, !decide_False.
Qed.

(** ** The invariant: the two lists a store stands for *)

Definition path (head tail : ptr) (l : list Z) : list ptr := head :: (Node <$> l) ++ [tail].
Arguments path : simpl never.
Arguments linked : simpl never.
Abbreviation hist_path := (path HistoryHead HistoryTail).
Abbreviation lru_path := (path LruHead LruTail).

Definition evb (s : store) (f : Z) : bool :=
  match s !! Node f with Some fr => evictable_ fr | None => false end.

(** Frames from the most to the least recently inserted: [h] has fewer than [k] accesses. *)
Record rep (r : LRUKReplacer) (h l : list Z) : Prop := {
  rep_hist : linked (nodes_ r) (hist_path h);
  rep_lru : linked (nodes_ r) (lru_path l);
  rep_nodup : NoDup (h ++ l);
  rep_dom : forall f, is_Some (nodes_ r !! Node f) <-> f ∈ h ++ l;
  rep_id : forall f fr, nodes_ r !! Node f = Some fr -> frame_id_ fr = f;
  rep_cnt : forall f fr, nodes_ r !! Node f = Some fr ->
    1 <= record_cnt_ fr <= current_timestamp_ r /\ (f ∈ h <-> record_cnt_ fr < k_ r);
  rep_tot : tot_size_ r = zlen (h ++ l);
  rep_cap : tot_size_ r <= replacer_size_ r < 2 ^ 31;
  rep_curr : curr_size_ r = zlen (filter (fun f => evb (nodes_ r) f = true) (h ++ l));
  rep_time : 0 <= current_timestamp_ r < 2 ^ 64;
  rep_k : 1 <= k_ r;
}.

Lemma path_NoDup hd tl l :
  NoDup l -> hd <> tl -> (forall f, hd <> Node f) -> (forall f, tl <> Node f) -> NoDup (path hd tl l).
Proof.
  intros Hl Hne Hh Ht. unfold path. apply NoDup_cons. split.
  - intros [(f & ? & _)%list_elem_of_fmap_1|?%list_elem_of_singleton]%elem_of_app; naive_solver.
  - apply NoDup_app. split_and!.
    + apply NoDup_fmap_2; [|done]. by intros ?? [=].
    + intros x (f & -> & _)%list_elem_of_fmap_1 ?%list_elem_of_singleton. naive_solver.
    + apply NoDup_singleton.
Qed.

Lemma path_other hd tl hd' tl' l l' :
  NoDup (l ++ l') -> hd <> hd' -> hd <> tl' -> tl <> hd' -> tl <> tl' ->
  (forall f, hd <> Node f) -> (forall f, tl <> Node f) ->
  (forall f, hd' <> Node f) -> (forall f, tl' <> Node f) ->
  forall p, p ∈ path hd tl l -> p ∉ path hd' tl' l'.
Proof.
  intros Hnd ???? Hh Ht Hh' Ht' p. apply NoDup_app in Hnd as (_ & Hd & _).
  unfold path. rewrite !elem_of_cons, !elem_of_app, !list_elem_of_singleton.
  intros [->|[(f & -> & Hf)%list_elem_of_fmap_1| ->]] [Hx|[(f' & Hx & Hf')%list_elem_of_fmap_1|Hx]];
    naive_solver.
Qed.

(** Unlinking a frame from one of two disjoint lists. *)
Lemma unlink s hd tl l1 f l2 hd' tl' l' :
  linked s (path hd tl (l1 ++ f :: l2)) -> linked s (path hd' tl' l') ->
  NoDup (path hd tl (l1 ++ f :: l2)) ->
  (forall p, p ∈ path hd tl (l1 ++ f :: l2) -> p ∉ path hd' tl' l') ->
  exists s', RemoveFromList (Node f) s = Ret s' /\
    linked s' (path hd tl (l1 ++ l2)) /\ linked s' (path hd' tl' l') /\
    (forall p, body <$> s' !! p = body <$> s !! p).
Proof.
  intros Hl Hl' Hnd Hdis.
  assert (exists p1 a, hd :: (Node <$> l1) = p1 ++ [a]) as (p1 & a & Hp1).
  { destruct (exists_last (l := hd :: (Node <$> l1))) as (p1 & a & ?); eauto. }
  assert (exists b p2, (Node <$> l2) ++ [tl] = b :: p2) as (b & p2 & Hp2)
    by (destruct l2; simpl; eauto).
  assert (Hpath : path hd tl (l1 ++ f :: l2) = p1 ++ a :: Node f :: b :: p2).
  { unfold path. rewrite fmap_app, fmap_cons, <- app_assoc, <- app_comm_cons, Hp2.
    by rewrite app_comm_cons, Hp1, <- app_assoc. }
  assert (Hpath' : path hd tl (l1 ++ l2) = p1 ++ a :: b :: p2).
  { unfold path. rewrite fmap_app, <- app_assoc, Hp2, app_comm_cons, Hp1. by rewrite <- app_assoc. }
  rewrite Hpath in *. rewrite Hpath'.
  destruct (RemoveFromList_linked s p1 a (Node f) b p2 Hl Hnd) as (s' & HR & Hs1 & Hs2 & Hs3 & Hs4).
  exists s'. split_and!; auto.
  eapply linked_frame_all; eauto; intros x Hx; [apply Hs3|apply Hs4]; intros ->;
    eapply Hdis; eauto; set_solver.
Qed.

Lemma linked_delete s p l : linked s l -> p ∉ l -> linked (delete p s) l.
Proof.
  intros Hl Hp. eapply linked_frame_all; eauto; intros x Hx; unfold nx, pv;
    rewrite lookup_delete_ne; auto; by intros ->.
Qed.

Lemma body_evb (s s' : store) f :
  body <$> s' !! Node f = body <$> s !! Node f -> evb s' f = evb s f.
Proof. unfold evb, body. destruct (s !! Node f), (s' !! Node f); simpl; intros; by simplify_eq. Qed.

Lemma body_lookup (s s' : store) (p : ptr) (f' : Frame) :
  (forall q, body <$> s' !! q = body <$> s !! q) -> s' !! p = Some f' ->
  exists f, s !! p = Some f /\ body f = body f'.
Proof.
  intros Hb Hp. specialize (Hb p). rewrite Hp in Hb. simpl in Hb.
  destruct (s !! p) as [f|]; simpl in Hb; [|done]. exists f. split; congruence.
Qed.

Lemma filter_neq_mid (l1 l2 : list Z) f :
  NoDup (l1 ++ f :: l2) -> filter (fun x => x <> f) (l1 ++ f :: l2) = l1 ++ l2.
Proof.
  intros (H1 & H2 & H3)%NoDup_app. apply NoDup_cons in H3 as [H3 H4].
  rewrite filter_app, filter_cons_False by naive_solver.
  rewrite !filter_all; [done| |]; intros x Hx ->; [done|]. eapply H2; [done|left].
Qed.

Lemma filter_neq_notin (l : list Z) f : f ∉ l -> filter (fun x => x <> f) l = l.
Proof. intros Hf. apply filter_all. by intros x Hx ->. Qed.

(** ** Removing a frame *)

(** The replacer after the frame has been unlinked and erased. *)
Definition without (f : Z) (s' : store) (r : LRUKReplacer) : LRUKReplacer :=
  mkReplacer (current_timestamp_ r) (decr (curr_size_ r)) (replacer_size_ r) (k_ r)
    (decr (tot_size_ r)) (delete (Node f) s').

Lemma paths_disjoint (h l : list Z) :
  NoDup (h ++ l) -> (forall p, p ∈ hist_path h -> p ∉ lru_path l) /\ (forall p, p ∈ lru_path l -> p ∉ hist_path h).
Proof.
  intros Hnd. split; apply path_other; try done. by rewrite (Permutation_app_comm l h).
Qed.

(** The store holds the two disjoint lists. *)
Record shape (s : store) (h l : list Z) : Prop := {
  shape_hist : linked s (hist_path h);
  shape_lru : linked s (lru_path l);
  shape_nodup : NoDup (h ++ l);
}.

Lemma rep_shape r h l : rep r h l -> shape (nodes_ r) h l.
Proof. by intros []. Qed.

Lemma shape_unlink s h l f :
  shape s h l -> f ∈ h ++ l ->
  exists s', RemoveFromList (Node f) s = Ret s' /\
    shape s' (filter (fun x => x <> f) h) (filter (fun x => x <> f) l) /\
    (forall p, body <$> s' !! p = body <$> s !! p).
Proof.
  intros [Hs1 Hs2 Hnd] Hf. destruct (paths_disjoint _ _ Hnd) as [Hd1 Hd2].
  assert (Hnd' : NoDup (filter (fun x => x <> f) h ++ filter (fun x => x <> f) l))
    by (rewrite <- filter_app; by apply NoDup_filter).
  cut (exists s', RemoveFromList (Node f) s = Ret s' /\
    linked s' (hist_path (filter (fun x => x <> f) h)) /\
    linked s' (lru_path (filter (fun x => x <> f) l)) /\
    (forall p, body <$> s' !! p = body <$> s !! p)).
  { intros (s' & ? & ? & ? & ?). exists s'. split_and!; done || by split. }
  clear Hnd'. pose proof Hnd as (Hh & Hdis & Hl)%NoDup_app.
  apply elem_of_app in Hf as [Hf|Hf]; apply list_elem_of_split in Hf as Hs;
    destruct Hs as (l1 & l2 & ->).
  - rewrite filter_neq_mid, (filter_neq_notin l) by (auto; by apply Hdis).
    apply unlink; [done|done|by apply path_NoDup|done].
  - rewrite filter_neq_mid, (filter_neq_notin h) by (auto; naive_solver).
    destruct (unlink s LruHead LruTail l1 f l2 HistoryHead HistoryTail h)
      as (s' & ? & ? & ? & ?); [done|done|by apply path_NoDup|done|].
    exists s'. auto.
Qed.

Lemma rep_unlink r h l f :
  rep r h l -> f ∈ h ++ l ->
  exists s', RemoveFromList (Node f) (nodes_ r) = Ret s' /\
    linked s' (hist_path (filter (fun x => x <> f) h)) /\
    linked s' (lru_path (filter (fun x => x <> f) l)) /\
    (forall p, body <$> s' !! p = body <$> nodes_ r !! p).
Proof.
  intros Hr Hf. destruct (shape_unlink _ _ _ _ (rep_shape _ _ _ Hr) Hf) as (s' & ? & [] & ?). eauto 10.
Qed.

Lemma length_filter_neq (l : list Z) f :
  NoDup l -> f ∈ l -> zlen (filter (fun x => x <> f) l) = zlen l - 1.
Proof.
  intros Hnd (l1 & l2 & ->)%list_elem_of_split. rewrite filter_neq_mid by done.
  unfold zlen. rewrite !length_app. simpl. lia.
Qed.

Lemma path_notin_filter hd tl (l : list Z) f :
  (forall x, hd <> Node x) -> (forall x, tl <> Node x) ->
  Node f ∉ path hd tl (filter (fun x => x <> f) l).
Proof.
  intros Hh Ht. unfold path.
  rewrite not_elem_of_cons, not_elem_of_app, not_elem_of_cons. split_and!; auto using not_elem_of_nil.
  intros (x & [= <-] & Hx)%list_elem_of_fmap_1. by apply list_elem_of_filter in Hx as [? _].
Qed.

Lemma decr_small z : 1 <= z < 2 ^ 64 -> decr z = z - 1.
Proof. intros. unfold decr. apply uwrap_id. unfold ufits. lia. Qed.

Lemma incr_small z : 0 <= z < 2 ^ 64 - 1 -> incr z = z + 1.
Proof. intros. unfold incr. apply uwrap_id. unfold ufits. lia. Qed.

Lemma rep_sizes r h l :
  rep r h l -> 0 <= curr_size_ r <= tot_size_ r /\ tot_size_ r < 2 ^ 31.
Proof.
  intros Hr. pose proof (rep_cap _ _ _ Hr). rewrite (rep_curr _ _ _ Hr), (rep_tot _ _ _ Hr) in *.
  pose proof (length_filter (fun f => evb (nodes_ r) f = true) (h ++ l)). unfold zlen in *. lia.
Qed.

(** Erasing an unlinked evictable frame re-establishes the invariant. *)
Lemma rep_without r h l f s' :
  rep r h l -> f ∈ h ++ l -> evb (nodes_ r) f = true ->
  linked s' (hist_path (filter (fun x => x <> f) h)) ->
  linked s' (lru_path (filter (fun x => x <> f) l)) ->
  (forall p, body <$> s' !! p = body <$> nodes_ r !! p) ->
  rep (without f s' r) (filter (fun x => x <> f) h) (filter (fun x => x <> f) l).
Proof.
  intros Hr Hf Hev Hl1 Hl2 Hb. pose proof (rep_nodup _ _ _ Hr) as Hnd.
  pose proof (rep_sizes _ _ _ Hr) as Hsz.
  assert (Hpos : 1 <= zlen (filter (fun f => evb (nodes_ r) f = true) (h ++ l))).
  { assert (Hin : f ∈ filter (fun f => evb (nodes_ r) f = true) (h ++ l)) by by apply list_elem_of_filter.
    destruct (filter (fun f => evb (nodes_ r) f = true) (h ++ l));
      [by apply not_elem_of_nil in Hin|unfold zlen; simpl; lia]. }
  pose proof (rep_curr _ _ _ Hr) as Hcurr. pose proof (rep_tot _ _ _ Hr) as Htot.
  assert (Hlook : forall x fr, delete (Node f) s' !! Node x = Some fr ->
    x <> f /\ exists fr0, nodes_ r !! Node x = Some fr0 /\ body fr0 = body fr).
  { intros x fr [Hne Hx]%lookup_delete_Some. split; [naive_solver|]. by eapply body_lookup. }
  split; unfold without; simpl.
  - by apply linked_delete, path_notin_filter.
  - by apply linked_delete, path_notin_filter.
  - rewrite <- filter_app. by apply NoDup_filter.
  - intros x. rewrite <- filter_app, list_elem_of_filter, <- (rep_dom _ _ _ Hr).
    rewrite <- (fmap_is_Some body (nodes_ r !! _)), <- Hb, fmap_is_Some. rewrite lookup_delete_is_Some. naive_solver.
  - intros x fr (Hne & fr0 & Hx & Hbx)%Hlook. pose proof (rep_id _ _ _ Hr _ _ Hx).
    unfold body in Hbx. simplify_eq. congruence.
  - intros x fr (Hne & fr0 & Hx & Hbx)%Hlook. pose proof (rep_cnt _ _ _ Hr _ _ Hx) as Hc.
    unfold body in Hbx. simplify_eq. rewrite list_elem_of_filter.
    replace (record_cnt_ fr) with (record_cnt_ fr0) by congruence. naive_solver.
  - rewrite decr_small, Htot, <- filter_app, length_filter_neq by (auto; lia). done.
  - rewrite decr_small by lia. pose proof (rep_cap _ _ _ Hr). lia.
  - rewrite decr_small by lia. rewrite Hcurr, <- filter_app.
    rewrite <- (length_filter_neq _ f); [|by apply NoDup_filter|by apply list_elem_of_filter].
    f_equal. rewrite !list_filter_filter. apply filter_ext_in. intros x _.
    split.
    + intros [Hne He]. split; [|done]. unfold evb. rewrite lookup_delete_ne by naive_solver.
      fold (evb s' x). by rewrite (body_evb (nodes_ r)).
    + intros [He Hne]. split; [done|]. unfold evb in He. rewrite lookup_delete_ne in He by naive_solver.
      fold (evb s' x) in He. by rewrite <- (body_evb (nodes_ r) s').
  - apply (rep_time _ _ _ Hr).
  - apply (rep_k _ _ _ Hr).
Qed.

(** ** Choosing the victim *)

Definition evictables (s : store) (l : list Z) : list Z := filter (fun f => evb s f = true) l.

(** The frame [Evict] takes: the last evictable of the history list, else of the LRU list. *)
Definition victim_of (s : store) (h l : list Z) : option Z :=
  match last (evictables s h) with
  | Some f => Some f
  | None => last (evictables s l)
  end.

Lemma lock_pv s a b : link s a b -> lock (pv s b) s = Some a.
Proof.
  intros Hl. destruct (link_dom _ _ _ Hl) as [[fa Ha] _]. destruct Hl as [_ ->].
  unfold lock. simpl. by rewrite Ha.
Qed.

Lemma evictables_snoc s l f :
  evictables s (l ++ [f]) = evictables s l ++ if evb s f then [f] else [].
Proof. unfold evictables. rewrite filter_app, filter_cons. by destruct (evb s f). Qed.

Lemma find_evictable_spec s hd ns : forall q fuel,
  linked s (hd :: (Node <$> ns) ++ [q]) -> (forall f, hd <> Node f) -> (length ns < fuel)%nat ->
  find_evictable fuel s hd (lock (pv s q) s) = Ret (Node <$> last (evictables s ns)).
Proof.
  induction ns as [|f ns IH] using rev_ind; intros q [|fuel] Hl Hhd Hf; try lia.
  - destruct Hl as [Hl _]. rewrite (lock_pv _ _ _ Hl). simpl. by rewrite decide_True.
  - rewrite fmap_app, <- app_assoc in Hl.
    change (linked s ((hd :: (Node <$> ns)) ++ Node f :: [q])) in Hl.
    apply linked_app in Hl as [Hl [Hlq _]]. rewrite (lock_pv _ _ _ Hlq).
    cbn [find_evictable]. rewrite decide_False by (intros [=]; by eapply Hhd).
    destruct (link_dom _ _ _ Hlq) as [[fr Hfr] _].
    unfold deref. rewrite Hfr. simpl.
    rewrite evictables_snoc. unfold evb. rewrite Hfr.
    destruct (evictable_ fr) eqn:Hev; simpl.
    + by rewrite last_snoc.
    + rewrite app_nil_r. rewrite length_app in Hf. simpl in Hf.
      rewrite <- (IH (Node f) fuel); [|done|done|lia]. unfold pv. by rewrite Hfr.
Qed.

Lemma nodes_length_size r h l :
  rep r h l -> (length h < S (size (nodes_ r)) /\ length l < S (size (nodes_ r)))%nat.
Proof.
  intros Hr. pose proof (rep_nodup _ _ _ Hr) as Hnd.
  assert (Hs : (length (Node <$> (h ++ l)) <= size (nodes_ r))%nat).
  { assert (Hn : NoDup (Node <$> (h ++ l))) by (apply NoDup_fmap_2; [by intros ?? [=]|done]).
    rewrite <- (size_dom (D := gset ptr) (nodes_ r)), <- (size_list_to_set (C := gset ptr) _ Hn).
    apply subseteq_size. intros p Hp. rewrite elem_of_list_to_set in Hp.
    apply list_elem_of_fmap in Hp as (f & -> & Hf). apply elem_of_dom. by apply (rep_dom _ _ _ Hr). }
  rewrite length_fmap, length_app in Hs. lia.
Qed.

Lemma last_evictables s l f : last (evictables s l) = Some f -> f ∈ l /\ evb s f = true.
Proof. intros Hf%last_Some_elem_of. unfold evictables in Hf. apply list_elem_of_filter in Hf. naive_solver. Qed.

Lemma victim_of_In s h l f : victim_of s h l = Some f -> f ∈ h ++ l /\ evb s f = true.
Proof.
  unfold victim_of. rewrite elem_of_app. destruct (last (evictables s h)) eqn:E.
  - intros [= <-]. apply last_evictables in E. naive_solver.
  - intros []%last_evictables. naive_solver.
Qed.

Lemma evictables_nil s l : evictables s l = [] <-> forall f, f ∈ l -> evb s f <> true.
Proof.
  unfold evictables. split.
  - intros He f Hf Hev. assert (Hin : f ∈ filter (fun f => evb s f = true) l) by by apply list_elem_of_filter.
    rewrite He in Hin. by apply not_elem_of_nil in Hin.
  - induction l as [|a l IH]; intros Hl; [done|]. rewrite filter_cons_False by (apply Hl; left).
    apply IH. intros. apply Hl. by right.
Qed.

Lemma curr_zero r h l : rep r h l -> curr_size_ r = 0 <-> victim_of (nodes_ r) h l = None.
Proof.
  intros Hr. rewrite (rep_curr _ _ _ Hr). rewrite filter_app. unfold victim_of.
  fold (evictables (nodes_ r) h) (evictables (nodes_ r) l).
  unfold zlen. rewrite length_app. destruct (last (evictables (nodes_ r) h)) eqn:E.
  - split; [|done]. destruct (evictables (nodes_ r) h); [done|simpl; lia].
  - apply last_None in E. rewrite E, last_None. simpl.
    destruct (evictables (nodes_ r) l); simpl; split; (done || lia).
Qed.

Lemma drop_frame_eq r h l f :
  rep r h l -> f ∈ h ++ l -> evb (nodes_ r) f = true ->
  exists s', drop_frame (Node f) r = Ret (Some f, without f s' r) /\
    (forall p, body <$> s' !! p = body <$> nodes_ r !! p) /\
    rep (without f s' r) (filter (fun x => x <> f) h) (filter (fun x => x <> f) l).
Proof.
  intros Hr Hf Hev. destruct (rep_unlink _ _ _ _ Hr Hf) as (s' & HR & Hl1 & Hl2 & Hb).
  exists s'. split_and!; [|done|by apply rep_without].
  unfold drop_frame, deref. unfold evb in Hev. destruct (nodes_ r !! Node f) as [fr|] eqn:E; [|done].
  simpl. rewrite HR. simpl. by rewrite (rep_id _ _ _ Hr _ _ E).
Qed.

Lemma Evict_spec r h l :
  rep r h l ->
  match victim_of (nodes_ r) h l with
  | None => Evict r = Ret (None, r)
  | Some f =>
      exists s', Evict r = Ret (Some f, without f s' r) /\
        (forall p, body <$> s' !! p = body <$> nodes_ r !! p) /\
        rep (without f s' r) (filter (fun x => x <> f) h) (filter (fun x => x <> f) l)
  end.
Proof.
  intros Hr. pose proof (curr_zero _ _ _ Hr) as Hz. pose proof (nodes_length_size _ _ _ Hr) as [Hn1 Hn2].
  assert (Hscan : forall hd tl ns, linked (nodes_ r) (path hd tl ns) -> (forall f, hd <> Node f) ->
    (length ns < S (size (nodes_ r)))%nat ->
    exists t, nodes_ r !! tl = Some t /\
      find_evictable (S (size (nodes_ r))) (nodes_ r) hd (lock (pre_ t) (nodes_ r)) =
      Ret (Node <$> last (evictables (nodes_ r) ns))).
  { intros hd tl ns Hl Hhd Hlen. pose proof (find_evictable_spec _ _ _ tl _ Hl Hhd Hlen) as Hfe.
    assert (is_Some (nodes_ r !! tl)) as [t Ht].
    { destruct (exists_last (l := hd :: (Node <$> ns))) as (l1 & a & Ha); [done|].
      unfold path in Hl. rewrite app_comm_cons, Ha, <- app_assoc in Hl.
      apply linked_app in Hl as [_ [Hl _]]. by apply link_dom in Hl as [_ ?]. }
    exists t. split; [done|]. unfold pv in Hfe. by rewrite Ht in Hfe. }
  unfold Evict, Size. destruct (victim_of (nodes_ r) h l) as [f|] eqn:Hv.
  - rewrite decide_False by (intros ?%Hz; done).
    destruct (victim_of_In _ _ _ _ Hv) as [Hf Hev].
    destruct (drop_frame_eq _ _ _ _ Hr Hf Hev) as (s' & Hd & Hb & Hr'). exists s'. split_and!; auto.
    destruct (Hscan _ _ _ (rep_hist _ _ _ Hr)) as (ht & Hht & Hsc); [done|done|].
    unfold deref. rewrite Hht. cbn [obind]. rewrite Hsc. cbn [obind]. unfold victim_of in Hv.
    destruct (last (evictables (nodes_ r) h)) as [f'|]; cbn [obind fmap option_fmap option_map]; [by simplify_eq|].
    destruct (Hscan _ _ _ (rep_lru _ _ _ Hr)) as (lt & Hlt & Hsc'); [done|done|].
    rewrite Hlt. cbn [obind]. rewrite Hsc', Hv. done.
  - by rewrite decide_True by by apply Hz.
Qed.

Lemma Remove_spec r h l f :
  rep r h l ->
  match nodes_ r !! Node f with
  | None => Remove r f = Ret r
  | Some fr =>
      if evictable_ fr then
        exists s', Remove r f = Ret (without f s' r) /\
          (forall p, body <$> s' !! p = body <$> nodes_ r !! p) /\
          rep (without f s' r) (filter (fun x => x <> f) h) (filter (fun x => x <> f) l)
      else Remove r f = Raised
  end.
Proof.
  intros Hr. unfold Remove. destruct (nodes_ r !! Node f) as [fr|] eqn:Hf; [|done].
  destruct (evictable_ fr) eqn:Hev; simpl; [|done].
  assert (Hin : f ∈ h ++ l) by (apply (rep_dom _ _ _ Hr); eauto).
  destruct (rep_unlink _ _ _ _ Hr Hin) as (s' & HR & Hl1 & Hl2 & Hb).
  exists s'. rewrite HR. simpl. split_and!; auto.
  apply rep_without; auto. unfold evb. by rewrite Hf.
Qed.

(** ** Recording an access *)

Lemma path_insert hd tl (s : store) l f fr :
  linked s (path hd tl l) -> Node f ∉ path hd tl l -> linked (<[Node f := fr]> s) (path hd tl l).
Proof.
  intros Hl Hf. eapply linked_frame_all; eauto; intros x Hx; unfold nx, pv;
    (rewrite lookup_insert_ne; [done|]); by intros <-.
Qed.

(** Replacing a node by one with the same links. *)
Lemma linked_update (s : store) p fr fr' l :
  linked s l -> s !! p = Some fr -> pre_ fr' = pre_ fr -> nex_ fr' = nex_ fr ->
  linked (<[p := fr']> s) l.
Proof.
  intros Hl Hp H1 H2. eapply linked_frame_all; eauto; intros x Hx; unfold nx, pv;
    (destruct (decide (x = p)) as [->|]; [rewrite lookup_insert_eq, Hp; simpl; congruence|]);
    by rewrite lookup_insert_ne by done.
Qed.

Lemma node_notin_path hd tl (l : list Z) f :
  (forall x, hd <> Node x) -> (forall x, tl <> Node x) -> f ∉ l -> Node f ∉ path hd tl l.
Proof.
  intros Hh Ht Hf. unfold path.
  rewrite not_elem_of_cons, not_elem_of_app, not_elem_of_cons. split_and!; auto using not_elem_of_nil.
  by intros (x & [= <-] & Hx)%list_elem_of_fmap_1.
Qed.

Lemma push s hd tl l hd' tl' l' f :
  linked s (path hd tl l) -> linked s (path hd' tl' l') -> NoDup (path hd tl l) ->
  Node f ∉ path hd tl l -> Node f ∉ path hd' tl' l' ->
  (forall p, p ∈ path hd tl l -> p ∉ path hd' tl' l') -> is_Some (s !! Node f) ->
  exists s', InsertToListHead (Node f) hd s = Ret s' /\
    linked s' (path hd tl (f :: l)) /\ linked s' (path hd' tl' l') /\
    (forall p, body <$> s' !! p = body <$> s !! p).
Proof.
  intros Hl Hl' Hnd Hf Hf' Hdis Hs.
  assert (exists t l2, (Node <$> l) ++ [tl] = t :: l2) as (t & l2 & Ht) by (destruct l; simpl; eauto).
  unfold path in *. rewrite Ht in *. rewrite fmap_cons, <- app_comm_cons, Ht.
  destruct (InsertToListHead_linked _ _ _ _ _ Hl Hnd Hf Hs) as (s' & HI & H1 & H2 & H3 & H4).
  exists s'. split_and!; auto.
  eapply linked_frame_all; eauto; intros x Hx; [apply H3|apply H4]; intros ->;
    try done; eapply Hdis; eauto; set_solver.
Qed.

Lemma shape_push_hist s h l f :
  shape s h l -> f ∉ h ++ l -> is_Some (s !! Node f) ->
  exists s', InsertToListHead (Node f) HistoryHead s = Ret s' /\ shape s' (f :: h) l /\
    (forall p, body <$> s' !! p = body <$> s !! p).
Proof.
  intros [Hs1 Hs2 Hnd] [Hf1 Hf2]%not_elem_of_app Hs. destruct (paths_disjoint _ _ Hnd) as [Hd1 _].
  pose proof Hnd as (Hh & _ & _)%NoDup_app.
  destruct (push s HistoryHead HistoryTail h LruHead LruTail l f) as (s' & ? & ? & ? & ?);
    auto using node_notin_path; [by apply path_NoDup|by apply node_notin_path..|].
  exists s'. split_and!; auto. split; auto. simpl. apply NoDup_cons. by rewrite not_elem_of_app.
Qed.

Lemma shape_push_lru s h l f :
  shape s h l -> f ∉ h ++ l -> is_Some (s !! Node f) ->
  exists s', InsertToListHead (Node f) LruHead s = Ret s' /\ shape s' h (f :: l) /\
    (forall p, body <$> s' !! p = body <$> s !! p).
Proof.
  intros [Hs1 Hs2 Hnd] Hf Hs. destruct (paths_disjoint _ _ Hnd) as [_ Hd2].
  pose proof Hf as [Hf1 Hf2]%not_elem_of_app. pose proof Hnd as (_ & _ & Hl)%NoDup_app.
  destruct (push s LruHead LruTail l HistoryHead HistoryTail h f) as (s' & ? & ? & ? & ?);
    auto; [by apply path_NoDup|by apply node_notin_path..|].
  exists s'. split_and!; auto. split; auto.
  rewrite <- Permutation_middle. by apply NoDup_cons.
Qed.

(** Moving a frame to the front of the LRU list. *)
Lemma shape_promote s h l f :
  shape s h l -> f ∈ h ++ l -> is_Some (s !! Node f) ->
  exists s', (let* s1 := RemoveFromList (Node f) s in InsertToListHead (Node f) LruHead s1) = Ret s' /\
    shape s' (filter (fun x => x <> f) h) (f :: filter (fun x => x <> f) l) /\
    (forall p, body <$> s' !! p = body <$> s !! p).
Proof.
  intros Hs Hf Hsf. destruct (shape_unlink _ _ _ _ Hs Hf) as (s1 & HR & Hs1 & Hb1).
  assert (Hf1 : is_Some (s1 !! Node f)).
  { rewrite <- (fmap_is_Some body (s1 !! _)), Hb1. by rewrite fmap_is_Some. }
  destruct (shape_push_lru _ _ _ f Hs1) as (s2 & HI & Hs2 & Hb2); [|done|].
  { rewrite <- filter_app. intros [? _]%list_elem_of_filter. done. }
  exists s2. rewrite HR. simpl. split_and!; auto. intros p. by rewrite Hb2.
Qed.

(** The number of accesses recorded for a frame. *)
Definition count (s : store) (f : Z) : Z :=
  match s !! Node f with Some fr => record_cnt_ fr | None => 0 end.

Lemma rep_access r h l f fr s3 h' l' curr tot :
  rep r h l -> shape s3 h' l' ->
  (forall p, body <$> s3 !! p = body <$> (<[Node f := fr]> (nodes_ r) : store) !! p) ->
  frame_id_ fr = f -> 1 <= record_cnt_ fr <= current_timestamp_ r + 1 ->
  current_timestamp_ r + 1 < 2 ^ 64 ->
  (forall g, g ∈ h' ++ l' <-> g = f \/ g ∈ h ++ l) ->
  (f ∈ h' <-> record_cnt_ fr < k_ r) -> (forall g, g <> f -> g ∈ h' <-> g ∈ h) ->
  tot = zlen (h' ++ l') -> tot <= replacer_size_ r -> curr = zlen (evictables s3 (h' ++ l')) ->
  rep (mkReplacer (current_timestamp_ r + 1) curr (replacer_size_ r) (k_ r) tot s3) h' l'.
Proof.
  intros Hr [Hs1 Hs2 Hnd] Hb Hid Hcnt Htime Hdom Hf Hg Htot Hcap Hcurr.
  assert (Hlook : forall x frx, s3 !! Node x = Some frx ->
    exists fr0, (<[Node f := fr]> (nodes_ r) : store) !! Node x = Some fr0 /\ body fr0 = body frx).
  { intros x frx. by eapply body_lookup. }
  pose proof (rep_time _ _ _ Hr). pose proof (rep_cap _ _ _ Hr). pose proof (rep_k _ _ _ Hr).
  split; simpl; auto; try lia.
  - intros x. rewrite <- (fmap_is_Some body (s3 !! _)), Hb, fmap_is_Some, lookup_insert_is_Some', Hdom.
    rewrite (rep_dom _ _ _ Hr). naive_solver.
  - intros x frx (fr0 & Hx & Hbx)%Hlook. unfold body in Hbx.
    apply lookup_insert_Some in Hx as [[[= <-] <-]|[Hne Hx]]; [simplify_eq; congruence|].
    pose proof (rep_id _ _ _ Hr _ _ Hx). simplify_eq. congruence.
  - intros x frx (fr0 & Hx & Hbx)%Hlook. unfold body in Hbx.
    apply lookup_insert_Some in Hx as [[[= <-] <-]|[Hne Hx]].
    + replace (record_cnt_ frx) with (record_cnt_ fr) by congruence. split; [lia|done].
    + replace (record_cnt_ frx) with (record_cnt_ fr0) by congruence.
      pose proof (rep_cnt _ _ _ Hr _ _ Hx) as [? Hk]. split; [lia|].
      rewrite Hg by naive_solver. done.
Qed.

Lemma evb_after (s s3 : store) f fr :
  (forall p, body <$> s3 !! p = body <$> (<[Node f := fr]> s : store) !! p) ->
  forall g, evb s3 g = if decide (g = f) then evictable_ fr else evb s g.
Proof.
  intros Hb g. rewrite (body_evb _ _ _ (Hb (Node g))). unfold evb. case_decide as E.
  - subst. by rewrite lookup_insert_eq.
  - by rewrite lookup_insert_ne by naive_solver.
Qed.

Lemma zlen_evictables_perm s l l' : l ≡ₚ l' -> zlen (evictables s l) = zlen (evictables s l').
Proof. intros Hp. unfold evictables, zlen. by rewrite Hp. Qed.

Lemma evictables_ext (s s' : store) l :
  (forall x, x ∈ l -> evb s x = evb s' x) -> evictables s l = evictables s' l.
Proof. intros He. unfold evictables. apply filter_ext_in. intros x Hx. by rewrite He. Qed.

(** The two lists after an access to [f]. *)
Definition accessed (r : LRUKReplacer) (h l : list Z) (f : Z) : list Z * list Z :=
  if decide (k_ r <= count (nodes_ r) f + 1)
  then (filter (fun x => x <> f) h, f :: filter (fun x => x <> f) l)
  else (if decide (f ∈ h) then h else f :: h, l).

(** The node of [f] after the access. *)
Definition touched (r : LRUKReplacer) (f : Z) : Frame :=
  touch (k_ r) (current_timestamp_ r + 1) (default (new_frame f) (nodes_ r !! Node f)).

Lemma touched_cnt r h l f :
  rep r h l -> current_timestamp_ r < 2 ^ 64 - 1 ->
  record_cnt_ (touched r f) = count (nodes_ r) f + 1 /\ 0 <= count (nodes_ r) f <= current_timestamp_ r.
Proof.
  intros Hr Ht. unfold touched, touch, count. pose proof (rep_time _ _ _ Hr).
  destruct (nodes_ r !! Node f) as [fr|] eqn:E; simpl.
  - pose proof (rep_cnt _ _ _ Hr _ _ E) as [? _]. rewrite incr_small; lia.
  - rewrite incr_small; lia.
Qed.

Lemma perm_move (h l : list Z) f :
  NoDup (h ++ l) -> f ∈ h ++ l ->
  filter (fun x => x <> f) h ++ f :: filter (fun x => x <> f) l ≡ₚ h ++ l.
Proof.
  intros Hnd Hf. rewrite <- Permutation_middle, <- filter_app.
  apply list_elem_of_split in Hf as (l1 & l2 & E). rewrite E in *. rewrite filter_neq_mid by done.
  by rewrite Permutation_middle.
Qed.

Section record_access.
Context (r : LRUKReplacer) (h l : list Z) (f : Z).
Hypothesis Hr : rep r h l.
Hypothesis Htime : current_timestamp_ r < 2 ^ 64 - 1.

Abbreviation s1 := (<[Node f := touched r f]> (nodes_ r) : store).
Abbreviation result_of s3 curr tot :=
  (mkReplacer (current_timestamp_ r + 1) curr (replacer_size_ r) (k_ r) tot s3).

Lemma count_hist : f ∈ h ++ l -> f ∈ h <-> count (nodes_ r) f < k_ r.
Proof.
  intros Hf%(rep_dom _ _ _ Hr). unfold count. destruct Hf as [fr Hfr]. rewrite Hfr.
  apply (rep_cnt _ _ _ Hr _ _ Hfr).
Qed.

Lemma count_out : f ∉ h ++ l -> nodes_ r !! Node f = None /\ count (nodes_ r) f = 0.
Proof.
  intros Hf. unfold count. destruct (nodes_ r !! Node f) eqn:E; [|done].
  destruct Hf. apply (rep_dom _ _ _ Hr). eauto.
Qed.

Lemma shape_touched : shape s1 h l.
Proof.
  destruct (rep_shape _ _ _ Hr) as [H1 H2 Hnd]. destruct (nodes_ r !! Node f) as [fr|] eqn:E.
  - split; [| |done]; eapply linked_update; eauto; unfold touched; by rewrite E.
  - assert (Hf : f ∉ h ++ l) by (intros [? ?]%(rep_dom _ _ _ Hr); congruence).
    apply not_elem_of_app in Hf as [? ?].
    split; [| |done]; apply path_insert; auto; by apply node_notin_path.
Qed.

Lemma touched_id : frame_id_ (touched r f) = f.
Proof.
  unfold touched. destruct (nodes_ r !! Node f) as [fr|] eqn:E; [|done].
  apply (rep_id _ _ _ Hr _ _ E).
Qed.

(** The whole access of a tracked frame. *)
Lemma RecordAccess_tracked :
  f <= replacer_size_ r -> f ∈ h ++ l ->
  exists s3, RecordAccess r f = Ret (result_of s3 (curr_size_ r) (tot_size_ r)) /\
    (forall p, body <$> s3 !! p = body <$> s1 !! p) /\
    shape s3 (accessed r h l f).1 (accessed r h l f).2.
Proof.
  intros Hle Hf. pose proof (rep_cap _ _ _ Hr) as Hcap. pose proof (rep_time _ _ _ Hr).
  destruct (touched_cnt _ _ _ f Hr Htime) as [Hc Hc0].
  assert (Hc1 : 1 <= count (nodes_ r) f).
  { unfold count. apply (rep_dom _ _ _ Hr) in Hf as [fr E]. rewrite E. apply (rep_cnt _ _ _ Hr _ _ E). }
  pose proof (rep_tot _ _ _ Hr) as Htot.
  unfold RecordAccess. rewrite incr_small by lia. fold (touched r f).
  rewrite decide_False by (rewrite swrap_id; unfold sfits, zlen in *; simpl; lia).
  rewrite decide_False by lia. cbn [obind]. rewrite Hc. unfold accessed.
  case_decide as Hk.
  - destruct (shape_promote _ _ _ f shape_touched Hf) as (s3 & HR & Hs & Hb);
      [rewrite lookup_insert_eq; eauto|].
    exists s3. rewrite HR. auto.
  - exists s1. rewrite decide_True by (apply count_hist; auto; lia). split_and!; auto.
    apply shape_touched.
Qed.

Lemma RecordAccess_new :
  f <= replacer_size_ r -> f ∉ h ++ l -> tot_size_ r < replacer_size_ r ->
  exists s3, RecordAccess r f = Ret (result_of s3 (curr_size_ r + 1) (tot_size_ r + 1)) /\
    (forall p, body <$> s3 !! p = body <$> s1 !! p) /\
    shape s3 (accessed r h l f).1 (accessed r h l f).2.
Proof.
  intros Hle Hf Hlt. pose proof (rep_cap _ _ _ Hr) as Hcap. pose proof (rep_time _ _ _ Hr).
  destruct (touched_cnt _ _ _ f Hr Htime) as [Hc Hc0]. destruct (count_out Hf) as [_ Hc1].
  pose proof (rep_sizes _ _ _ Hr) as Hsz.
  unfold RecordAccess. rewrite incr_small by lia. fold (touched r f).
  rewrite decide_False by (rewrite swrap_id; unfold sfits; simpl; lia).
  rewrite decide_True by lia. rewrite decide_False by lia.
  destruct (shape_push_hist _ _ _ _ shape_touched Hf) as (s2 & HI & Hs2 & Hb2);
    [rewrite lookup_insert_eq; eauto|].
  rewrite HI. cbn [obind]. rewrite Hc, !incr_small by lia. unfold accessed.
  apply not_elem_of_app in Hf as [Hf1 Hf2].
  case_decide as Hk.
  - destruct (shape_promote _ _ _ f Hs2) as (s3 & HR & Hs & Hb); [left| |].
    { rewrite <- (fmap_is_Some body (s2 !! _)), Hb2, fmap_is_Some, lookup_insert_eq. eauto. }
    rewrite filter_cons_False in Hs by naive_solver.
    exists s3. rewrite HR. split_and!; auto. intros p. by rewrite Hb.
  - exists s2. rewrite (decide_False (P := f ∈ h)) by done. auto.
Qed.

End record_access.

Lemma accessed_dom r h l f g :
  g ∈ (accessed r h l f).1 ++ (accessed r h l f).2 <-> g = f \/ g ∈ h ++ l.
Proof.
  unfold accessed. repeat case_decide; simpl;
    rewrite ?elem_of_app, ?elem_of_cons, ?list_elem_of_filter, ?elem_of_app;
    destruct (decide (g = f)); subst; naive_solver.
Qed.

Lemma accessed_other r h l f g : g <> f -> g ∈ (accessed r h l f).1 <-> g ∈ h.
Proof.
  intros Hne. unfold accessed. repeat case_decide; simpl;
    rewrite ?elem_of_cons, ?list_elem_of_filter; naive_solver.
Qed.

Lemma accessed_self r h l f :
  rep r h l -> f ∈ (accessed r h l f).1 <-> count (nodes_ r) f + 1 < k_ r.
Proof.
  intros Hr. unfold accessed. repeat case_decide; simpl;
    rewrite ?elem_of_cons, ?list_elem_of_filter; split; (naive_solver || lia).
Qed.

Lemma accessed_perm r h l f :
  rep r h l ->
  (accessed r h l f).1 ++ (accessed r h l f).2 ≡ₚ if decide (f ∈ h ++ l) then h ++ l else f :: h ++ l.
Proof.
  intros Hr. pose proof (rep_nodup _ _ _ Hr) as Hnd. pose proof (rep_k _ _ _ Hr) as Hk.
  unfold accessed. destruct (decide (f ∈ h ++ l)) as [Hf|Hf];
    destruct (decide (k_ r <= count (nodes_ r) f + 1)) as [Hc|Hc]; simpl.
  - by apply perm_move.
  - by rewrite decide_True by (apply (count_hist _ _ _ _ Hr Hf); lia).
  - apply not_elem_of_app in Hf as [? ?]. rewrite !filter_neq_notin by done.
    by rewrite Permutation_middle.
  - rewrite decide_False by set_solver. done.
Qed.

(** An access to a tracked frame, or to a new one while there is room, succeeds. *)
Lemma RecordAccess_spec r h l f :
  rep r h l -> current_timestamp_ r < 2 ^ 64 - 1 -> f <= replacer_size_ r ->
  f ∈ h ++ l \/ tot_size_ r < replacer_size_ r ->
  exists r', RecordAccess r f = Ret r' /\ rep r' (accessed r h l f).1 (accessed r h l f).2 /\
    current_timestamp_ r' = current_timestamp_ r + 1 /\
    replacer_size_ r' = replacer_size_ r /\ k_ r' = k_ r /\
    (forall p, body <$> nodes_ r' !! p = body <$> (<[Node f := touched r f]> (nodes_ r) : store) !! p).
Proof.
  intros Hr Ht Hle Hroom. destruct (touched_cnt _ _ _ f Hr Ht) as [Hc Hc0].
  pose proof (accessed_perm r h l f Hr) as Hperm. pose proof (rep_tot _ _ _ Hr) as Htot.
  pose proof (rep_cap _ _ _ Hr) as Hcap. pose proof (rep_curr _ _ _ Hr) as Hcurr.
  fold (evictables (nodes_ r) (h ++ l)) in Hcurr.
  destruct (decide (f ∈ h ++ l)) as [Hf|Hf].
  - destruct (RecordAccess_tracked r h l f Hr Ht Hle Hf) as (s3 & HR & Hb & Hs).
    eexists. split; [exact HR|]. split; [|done].
    eapply (rep_access r h l f (touched r f)); eauto using accessed_dom, accessed_other; try lia.
    + by eapply touched_id.
    + rewrite Hc. by apply accessed_self.
    + unfold zlen. rewrite Hperm. done.
    + rewrite Hcurr. rewrite (zlen_evictables_perm _ _ _ Hperm). f_equal. apply evictables_ext.
      intros x _. rewrite (evb_after _ _ _ _ Hb). case_decide; [|done]. subst.
      apply (rep_dom _ _ _ Hr) in Hf as [fr E]. unfold evb, touched. by rewrite E.
  - destruct (RecordAccess_new r h l f Hr Ht Hle Hf) as (s3 & HR & Hb & Hs); [naive_solver|].
    eexists. split; [exact HR|]. split; [|done].
    destruct (count_out _ _ _ _ Hr Hf) as [E _].
    eapply (rep_access r h l f (touched r f)); eauto using accessed_dom, accessed_other; try lia.
    + by eapply touched_id.
    + rewrite Hc. by apply accessed_self.
    + unfold zlen in *. rewrite Hperm. simpl. lia.
    + naive_solver lia.
    + rewrite Hcurr, (zlen_evictables_perm _ _ _ Hperm). unfold evictables at 2.
      rewrite filter_cons_True
        by (rewrite (evb_after _ _ _ _ Hb), decide_True by done; unfold touched; by rewrite E).
      fold (evictables s3 (h ++ l)). rewrite (evictables_ext s3 (nodes_ r)).
      * unfold zlen. simpl. lia.
      * intros x Hx. rewrite (evb_after _ _ _ _ Hb), decide_False; [done|]. by intros ->.
Qed.

(** ** Pinning and unpinning a frame *)

Definition with_evictable (b : bool) (fr : Frame) : Frame :=
  mkFrame (frame_id_ fr) (pre_ fr) (nex_ fr) (timestamps_ fr) (record_cnt_ fr) b.

Lemma evictables_insert_len (s : store) l f fr b :
  s !! Node f = Some fr -> evictable_ fr <> b -> NoDup l -> f ∈ l ->
  zlen (evictables (<[Node f := with_evictable b fr]> s) l) =
  zlen (evictables s l) + if b then 1 else -1.
Proof.
  intros Hf Hb Hnd (l1 & l2 & ->)%list_elem_of_split.
  pose proof Hnd as (_ & Hd1 & [Hd2 _]%NoDup_cons)%NoDup_app.
  assert (Heq : forall x, x <> f -> evb (<[Node f := with_evictable b fr]> s) x = evb s x).
  { intros x Hx. unfold evb. by rewrite lookup_insert_ne by naive_solver. }
  unfold evictables. rewrite !filter_app.
  rewrite (filter_ext_in _ (fun x => evb s x = true) l1);
    [|intros x Hx; rewrite Heq; [done|]; intros ->; eapply Hd1; [done|left]].
  rewrite !(filter_cons _ f l2).
  rewrite (filter_ext_in _ (fun x => evb s x = true) l2);
    [|intros x Hx; rewrite Heq; [done|]; by intros ->].
  assert (E1 : evb (<[Node f := with_evictable b fr]> s) f = b) by (unfold evb; by rewrite lookup_insert_eq).
  assert (E2 : evb s f = negb b) by (unfold evb; rewrite Hf; by destruct b, (evictable_ fr)).
  rewrite E1, E2. unfold zlen. destruct b; simpl; rewrite !length_app; simpl; lia.
Qed.

Lemma rep_flip r h l f fr b curr :
  rep r h l -> nodes_ r !! Node f = Some fr ->
  curr = zlen (evictables (<[Node f := with_evictable b fr]> (nodes_ r)) (h ++ l)) ->
  rep (mkReplacer (current_timestamp_ r) curr (replacer_size_ r) (k_ r) (tot_size_ r)
         (<[Node f := with_evictable b fr]> (nodes_ r))) h l.
Proof.
  intros Hr Hf Hc. destruct Hr as [H1 H2 Hnd Hdom Hid Hcnt Htot Hcap _ Ht Hk].
  split; simpl; auto.
  - by eapply linked_update.
  - by eapply linked_update.
  - intros x. rewrite lookup_insert_is_Some', <- Hdom. naive_solver.
  - intros x frx [[[= <-] <-]|[_ Hx]]%lookup_insert_Some; simpl; eauto.
  - intros x frx [[[= <-] <-]|[_ Hx]]%lookup_insert_Some; simpl; eauto.
Qed.

Lemma SetEvictable_spec r h l f b :
  rep r h l ->
  rep (SetEvictable r f b) h l /\
  current_timestamp_ (SetEvictable r f b) = current_timestamp_ r /\
  replacer_size_ (SetEvictable r f b) = replacer_size_ r /\ k_ (SetEvictable r f b) = k_ r /\
  nodes_ (SetEvictable r f b) = alter (with_evictable b) (Node f) (nodes_ r).
Proof.
  intros Hr. unfold SetEvictable. destruct (nodes_ r !! Node f) as [fr|] eqn:Hf.
  2:{ split_and!; auto. by rewrite alter_id'. }
  assert (Hin : f ∈ h ++ l) by (apply (rep_dom _ _ _ Hr); eauto).
  pose proof (rep_nodup _ _ _ Hr) as Hnd.
  case_decide as Hb.
  - split_and!; auto. rewrite alter_id; [done|]. intros fr' Hfr'. assert (fr' = fr) as -> by congruence. unfold with_evictable. rewrite <- Hb. by destruct fr.
  - pose proof (evictables_insert_len _ _ _ _ _ Hf Hb Hnd Hin) as Hlen.
    pose proof (rep_curr _ _ _ Hr) as Hcurr. fold (evictables (nodes_ r) (h ++ l)) in Hcurr.
    pose proof (rep_sizes _ _ _ Hr) as Hsz. fold (with_evictable b fr).
    split_and!; try done; [|by rewrite (alter_alt_Some _ _ _ fr)].
    apply rep_flip; auto.
    rewrite Hlen, Hcurr in *. unfold zlen in *. destruct b; rewrite ?incr_small, ?decr_small; lia.
Qed.

(** ** The eviction order *)

Definition stamps (s : store) (f : Z) : list Z :=
  match s !! Node f with Some fr => timestamps_ fr | None => [] end.
Definition first_access (s : store) (f : Z) : Z := default 0 (head (stamps s f)).
Definition last_access (s : store) (f : Z) : Z := default 0 (last (stamps s f)).

(** The history list is ordered by first access, the LRU list by last access. *)
Record ordered (r : LRUKReplacer) (h l : list Z) : Prop := {
  ord_len : forall f, f ∈ h ++ l -> zlen (stamps (nodes_ r) f) = Z.min (count (nodes_ r) f) (k_ r);
  ord_now : forall f t, t ∈ stamps (nodes_ r) f -> t <= current_timestamp_ r;
  ord_hist : StronglySorted (fun f g => first_access (nodes_ r) g < first_access (nodes_ r) f) h;
  ord_lru : StronglySorted (fun f g => last_access (nodes_ r) g < last_access (nodes_ r) f) l;
}.

Section sorted.
Context {A : Type} (R : A -> A -> Prop).

Lemma StronglySorted_filter' (P : A -> Prop) `{!forall x, Decision (P x)} l :
  StronglySorted R l -> StronglySorted R (filter P l).
Proof.
  induction 1 as [|a l Hs IH Ha]; [constructor|]. rewrite filter_cons. case_decide; [|done].
  constructor; [done|]. rewrite Forall_forall in *. intros x [_ Hx]%list_elem_of_filter. auto.
Qed.

Lemma StronglySorted_ext (R' : A -> A -> Prop) l :
  StronglySorted R l -> (forall x y, x ∈ l -> y ∈ l -> R x y -> R' x y) -> StronglySorted R' l.
Proof.
  induction 1 as [|a l Hs IH Ha]; intros HR; constructor.
  - apply IH. intros x y ??. apply HR; by right.
  - rewrite Forall_forall in *. intros x Hx. apply HR; [left|by right|auto].
Qed.

Lemma StronglySorted_last l v :
  StronglySorted R l -> last l = Some v -> forall g, g ∈ l -> g = v \/ R g v.
Proof.
  induction 1 as [|a l Hs IH Ha]; [done|]. rewrite last_cons. intros Hv g Hg.
  destruct (last l) as [w|] eqn:E; simplify_eq.
  - apply elem_of_cons in Hg as [->|Hg]; [|by apply IH]. right.
    rewrite Forall_forall in Ha. apply Ha. by apply last_Some_elem_of.
  - apply last_None in E as ->. apply list_elem_of_singleton in Hg as ->. by left.
Qed.

End sorted.

Lemma body_stamps (s s' : store) f :
  body <$> s' !! Node f = body <$> s !! Node f -> stamps s' f = stamps s f /\ count s' f = count s f.
Proof.
  unfold stamps, count, body. destruct (s !! Node f), (s' !! Node f); simpl; intros; by simplify_eq.
Qed.

(** Order and stamps depend on the nodes of the listed frames only. *)
Lemma ordered_ext r r' h l :
  ordered r h l -> current_timestamp_ r <= current_timestamp_ r' -> k_ r' = k_ r ->
  (forall f, stamps (nodes_ r') f = stamps (nodes_ r) f \/ stamps (nodes_ r') f = []) ->
  (forall f, f ∈ h ++ l -> stamps (nodes_ r') f = stamps (nodes_ r) f /\
                           count (nodes_ r') f = count (nodes_ r) f) ->
  ordered r' h l.
Proof.
  intros [H1 H2 H3 H4] Ht Hk Hall Hs. split.
  - intros f Hf. destruct (Hs f Hf) as [-> ->]. rewrite Hk. auto.
  - intros f t Hin. destruct (Hall f) as [E|E]; rewrite E in Hin; [|by apply not_elem_of_nil in Hin].
    specialize (H2 f t Hin). lia.
  - eapply StronglySorted_ext; [done|]. intros x y Hx Hy. unfold first_access.
    rewrite (proj1 (Hs x ltac:(set_solver))), (proj1 (Hs y ltac:(set_solver))). done.
  - eapply StronglySorted_ext; [done|]. intros x y Hx Hy. unfold last_access.
    rewrite (proj1 (Hs x ltac:(set_solver))), (proj1 (Hs y ltac:(set_solver))). done.
Qed.

Lemma ordered_filter r h l (P : Z -> Prop) `{!forall x, Decision (P x)} :
  ordered r h l -> ordered r (filter P h) (filter P l).
Proof.
  intros [H1 H2 H3 H4]. split; auto using StronglySorted_filter'.
  intros f Hf. apply H1. rewrite <- filter_app in Hf. by apply list_elem_of_filter in Hf as [_ ?].
Qed.

Lemma ordered_without r h l f s' :
  ordered r h l -> (forall p, body <$> s' !! p = body <$> nodes_ r !! p) ->
  ordered (without f s' r) (filter (fun x => x <> f) h) (filter (fun x => x <> f) l).
Proof.
  intros Ho Hb. assert (Heq : forall g, g <> f ->
    stamps (delete (Node f) s') g = stamps (nodes_ r) g /\
    count (delete (Node f) s') g = count (nodes_ r) g).
  { intros g Hg. apply body_stamps. by rewrite lookup_delete_ne by naive_solver. }
  eapply ordered_ext; [by apply ordered_filter|done..| |].
  - intros g. destruct (decide (g = f)) as [->|Hg]; [|left; by apply Heq].
    right. unfold without, stamps. simpl. by rewrite lookup_delete_eq.
  - intros g Hg. rewrite <- filter_app in Hg. apply list_elem_of_filter in Hg as [? _]. by apply Heq.
Qed.

Section ordered_access.
Context (r r' : LRUKReplacer) (h l : list Z) (f : Z).
Hypothesis Hr : rep r h l.
Hypothesis Ho : ordered r h l.
Hypothesis Htime : current_timestamp_ r < 2 ^ 64 - 1.
Hypothesis Hnow : current_timestamp_ r' = current_timestamp_ r + 1.
Hypothesis Hk : k_ r' = k_ r.
Hypothesis Hbody : forall p,
  body <$> nodes_ r' !! p = body <$> (<[Node f := touched r f]> (nodes_ r) : store) !! p.

Lemma stamps_other g : g <> f ->
  stamps (nodes_ r') g = stamps (nodes_ r) g /\ count (nodes_ r') g = count (nodes_ r) g.
Proof. intros Hg. apply body_stamps. by rewrite Hbody, lookup_insert_ne by naive_solver. Qed.

Lemma stamps_self :
  stamps (nodes_ r') f =
    (if decide (zlen (stamps (nodes_ r) f) = k_ r) then tail (stamps (nodes_ r) f) else stamps (nodes_ r) f)
    ++ [current_timestamp_ r + 1] /\
  count (nodes_ r') f = count (nodes_ r) f + 1.
Proof.
  destruct (body_stamps (<[Node f := touched r f]> (nodes_ r)) (nodes_ r') f (Hbody _)) as [-> ->].
  destruct (touched_cnt r h l f Hr Htime) as [Hc _]. rewrite <- Hc. unfold stamps, count.
  rewrite lookup_insert_eq. split; [|done]. unfold touched. by destruct (nodes_ r !! Node f).
Qed.

Lemma stamps_len g : zlen (stamps (nodes_ r) g) = Z.min (count (nodes_ r) g) (k_ r).
Proof.
  destruct (decide (g ∈ h ++ l)) as [Hg|Hg]; [by apply (ord_len _ _ _ Ho)|].
  destruct (count_out _ _ _ _ Hr Hg) as [E ->]. unfold stamps. rewrite E.
  pose proof (rep_k _ _ _ Hr). unfold zlen. simpl. lia.
Qed.

Lemma last_access_self : last_access (nodes_ r') f = current_timestamp_ r + 1.
Proof. unfold last_access. rewrite (proj1 stamps_self), last_snoc. done. Qed.

Lemma access_le g : first_access (nodes_ r) g <= current_timestamp_ r /\
  last_access (nodes_ r) g <= current_timestamp_ r.
Proof.
  pose proof (ord_now _ _ _ Ho g) as Hn. pose proof (rep_time _ _ _ Hr). unfold first_access, last_access.
  split.
  - destruct (stamps (nodes_ r) g) as [|t ts] eqn:E; simpl; [lia|]. apply Hn. left.
  - destruct (last (stamps (nodes_ r) g)) eqn:E; simpl; [|lia]. apply Hn. by apply last_Some_elem_of.
Qed.

Lemma stamps_len_after : zlen (stamps (nodes_ r') f) = Z.min (count (nodes_ r') f) (k_ r').
Proof.
  destruct stamps_self as [-> ->]. rewrite Hk. pose proof (stamps_len f) as Hlen.
  destruct (touched_cnt r h l f Hr Htime) as [_ Hc]. pose proof (rep_k _ _ _ Hr).
  unfold zlen in *. rewrite length_app. simpl.
  case_decide as E; destruct (stamps (nodes_ r) f); simpl in *; lia.
Qed.

Lemma ordered_time g t : t ∈ stamps (nodes_ r') g -> t <= current_timestamp_ r'.
Proof.
  rewrite Hnow. destruct (decide (g = f)) as [->|Hg].
  - rewrite (proj1 stamps_self), elem_of_app, list_elem_of_singleton. intros [Ht| ->]; [|lia].
    pose proof (ord_now _ _ _ Ho f t) as Hn. cut (t <= current_timestamp_ r); [lia|]. apply Hn.
    case_decide; [|done]. destruct (stamps (nodes_ r) f); [done|]. by right.
  - rewrite (proj1 (stamps_other g Hg)). intros Ht%(ord_now _ _ _ Ho). lia.
Qed.

(** A first access is kept while the frame stays in the history list. *)
Lemma first_access_kept : f ∈ h -> count (nodes_ r) f + 1 < k_ r ->
  first_access (nodes_ r') f = first_access (nodes_ r) f.
Proof.
  intros Hf Hc. unfold first_access. rewrite (proj1 stamps_self). pose proof (stamps_len f) as Hlen.
  assert (1 <= count (nodes_ r) f).
  { assert (Hin : f ∈ h ++ l) by set_solver. apply (rep_dom _ _ _ Hr) in Hin as [fr E].
    unfold count. rewrite E. apply (rep_cnt _ _ _ Hr _ _ E). }
  rewrite decide_False by lia. destruct (stamps (nodes_ r) f); [unfold zlen in Hlen; simpl in Hlen; lia|done].
Qed.

Lemma first_access_new : f ∉ h ++ l -> first_access (nodes_ r') f = current_timestamp_ r + 1.
Proof.
  intros Hf. unfold first_access. rewrite (proj1 stamps_self).
  destruct (count_out _ _ _ _ Hr Hf) as [E _]. unfold stamps. rewrite E. by case_decide.
Qed.

Lemma first_access_other g : g <> f -> first_access (nodes_ r') g = first_access (nodes_ r) g.
Proof. intros Hg. unfold first_access. by rewrite (proj1 (stamps_other g Hg)). Qed.

Lemma last_access_other g : g <> f -> last_access (nodes_ r') g = last_access (nodes_ r) g.
Proof. intros Hg. unfold last_access. by rewrite (proj1 (stamps_other g Hg)). Qed.

Lemma ordered_accessed : ordered r' (accessed r h l f).1 (accessed r h l f).2.
Proof.
  pose proof (rep_nodup _ _ _ Hr) as Hnd. destruct Ho as [Ho1 Ho2 Ho3 Ho4]. split.
  - intros g Hg. destruct (decide (g = f)) as [->|Hne]; [apply stamps_len_after|].
    destruct (stamps_other g Hne) as [-> ->]. rewrite Hk. apply stamps_len.
  - apply ordered_time.
  - unfold accessed. case_decide as Hc; simpl; [|case_decide as Hf].
    + eapply StronglySorted_ext; [by apply StronglySorted_filter'|].
      intros x y [? _]%list_elem_of_filter [? _]%list_elem_of_filter. by rewrite !first_access_other.
    + eapply StronglySorted_ext; [done|]. intros x y Hx Hy.
      assert (Hall : forall z, z ∈ h -> first_access (nodes_ r') z = first_access (nodes_ r) z).
      { intros z Hz. destruct (decide (z = f)) as [->|]; [apply first_access_kept; auto; lia|].
        by apply first_access_other. }
      by rewrite !Hall.
    + assert (Hout : f ∉ h ++ l).
      { intros Hin. apply Hf. apply (count_hist _ _ _ _ Hr Hin). lia. }
      constructor.
      * eapply StronglySorted_ext; [done|]. intros x y Hx Hy.
        rewrite !first_access_other by (intros ->; set_solver). done.
      * apply Forall_forall. intros x Hx. rewrite first_access_new by done.
        rewrite first_access_other by (intros ->; set_solver). pose proof (access_le x). lia.
  - unfold accessed. case_decide as Hc; simpl.
    + constructor.
      * eapply StronglySorted_ext; [by apply StronglySorted_filter'|].
        intros x y [? _]%list_elem_of_filter [? _]%list_elem_of_filter. by rewrite !last_access_other.
      * apply Forall_forall. intros x [Hx _]%list_elem_of_filter.
        rewrite last_access_self, last_access_other by done. pose proof (access_le x). lia.
    + eapply StronglySorted_ext; [done|]. intros x y Hx Hy.
      assert (Hnl : f ∉ l).
      { intros Hin. apply NoDup_app in Hnd as (_ & Hd & _). eapply Hd; [|done].
        apply (count_hist _ _ _ _ Hr); [set_solver|lia]. }
      rewrite !last_access_other by (intros ->; done). done.
Qed.

End ordered_access.

Lemma ordered_SetEvictable r h l f b : rep r h l -> ordered r h l -> ordered (SetEvictable r f b) h l.
Proof.
  intros Hr Ho. destruct (SetEvictable_spec r h l f b Hr) as (_ & Ht & _ & Hk & Hn).
  assert (Heq : forall g, stamps (nodes_ (SetEvictable r f b)) g = stamps (nodes_ r) g /\
    count (nodes_ (SetEvictable r f b)) g = count (nodes_ r) g).
  { intros g. rewrite Hn. unfold stamps, count. rewrite lookup_alter. case_decide as E; [|done].
    simplify_eq. by destruct (nodes_ r !! Node g). }
  eapply ordered_ext; eauto; [lia|]. intros g. left. apply Heq.
Qed.

Lemma ctor_rep n k : 0 <= n < 2 ^ 31 -> 1 <= k -> rep (LRUKReplacer_ctor n k) [] [].
Proof.
  intros Hn Hk. assert (Hnode : forall f, nodes_ (LRUKReplacer_ctor n k) !! Node f = None).
  { intros f. unfold LRUKReplacer_ctor, set_pre, set_nex. simpl.
    rewrite !lookup_alter_ne by done. rewrite !lookup_insert_ne by done. done. }
  split; try done; simpl; try lia.
  - constructor.
  - intros f. rewrite Hnode. rewrite is_Some_alt. split; [done|]. by intros ?%not_elem_of_nil.
Qed.

Lemma ctor_ordered n k : ordered (LRUKReplacer_ctor n k) [] [].
Proof.
  assert (Hst : forall f, stamps (nodes_ (LRUKReplacer_ctor n k)) f = []).
  { intros f. unfold stamps, LRUKReplacer_ctor, set_pre, set_nex. simpl.
    rewrite !lookup_alter_ne by done. by rewrite !lookup_insert_ne by done. }
  split; try constructor.
  - intros f. by intros ?%not_elem_of_nil.
  - intros f t. rewrite Hst. by intros ?%not_elem_of_nil.
Qed.

(** ** Theorems *)

Lemma RecordAccess_Ret_inv r h l f r' :
  rep r h l -> RecordAccess r f = Ret r' ->
  f <= replacer_size_ r /\
  (current_timestamp_ r < 2 ^ 64 - 1 -> f ∈ h ++ l \/ tot_size_ r < replacer_size_ r).
Proof.
  intros Hr H. pose proof (rep_cap _ _ _ Hr) as Hcap. pose proof (rep_sizes _ _ _ Hr).
  unfold RecordAccess in H.
  case_decide as Hle; [done|]. rewrite swrap_id in Hle by (unfold sfits; simpl; lia).
  split; [lia|]. intros Ht. destruct (decide (f ∈ h ++ l)) as [Hf|Hf]; [by left|right].
  destruct (touched_cnt r h l f Hr Ht) as [Hc _]. destruct (count_out _ _ _ _ Hr Hf) as [_ Hc0].
  pose proof (rep_time _ _ _ Hr). rewrite incr_small in H by lia. fold (touched r f) in H.
  rewrite Hc, Hc0 in H. rewrite (decide_True (P := 0 + 1 = 1)) in H by done.
  destruct (decide (tot_size_ r = replacer_size_ r)); [simpl in H; discriminate|lia].
Qed.

(** The operations in any order, as long as they return. *)
Inductive lru_step : LRUKReplacer -> LRUKReplacer -> Prop :=
| step_Evict r v r' : Evict r = Ret (v, r') -> lru_step r r'
| step_RecordAccess r f r' :
    current_timestamp_ r < 2 ^ 64 - 1 -> RecordAccess r f = Ret r' -> lru_step r r'
| step_SetEvictable r f b : lru_step r (SetEvictable r f b)
| step_Remove r f r' : Remove r f = Ret r' -> lru_step r r'.

Definition lru_inv (r : LRUKReplacer) : Prop := exists h l, rep r h l /\ ordered r h l.

Lemma lru_step_inv r r' : lru_step r r' -> lru_inv r -> lru_inv r'.
Proof.
  intros [r0 v r1 HE|r0 f r1 Ht HR|r0 f b|r0 f r1 HR] (h & l & Hr & Ho).
  - pose proof (Evict_spec _ _ _ Hr) as Hs. destruct (victim_of _ _ _) as [f|].
    + destruct Hs as (s' & Hs & Hb & Hr'). rewrite HE in Hs. simplify_eq.
      do 2 eexists. split; [done|by apply ordered_without].
    + rewrite HE in Hs. simplify_eq. by exists h, l.
  - destruct (RecordAccess_Ret_inv _ _ _ _ _ Hr HR) as [Hle Hroom].
    destruct (RecordAccess_spec r0 h l f Hr Ht Hle (Hroom Ht)) as (r2 & HR2 & Hr2 & H1 & H2 & H3 & H4).
    rewrite HR in HR2. simplify_eq. do 2 eexists. split; [done|by eapply ordered_accessed].
  - exists h, l. split; [by apply SetEvictable_spec|by apply ordered_SetEvictable].
  - pose proof (Remove_spec _ _ _ f Hr) as Hs. destruct (nodes_ r0 !! Node f) as [fr|].
    + destruct (evictable_ fr); [|congruence]. destruct Hs as (s' & Hs & Hb & Hr').
      rewrite HR in Hs. simplify_eq. do 2 eexists. split; [done|by apply ordered_without].
    + rewrite HR in Hs. simplify_eq. by exists h, l.
Qed.

Lemma reachable_inv n k r :
  0 <= n < 2 ^ 31 -> 1 <= k -> rtc lru_step (LRUKReplacer_ctor n k) r -> lru_inv r.
Proof.
  intros Hn Hk Hs. assert (Hi : lru_inv (LRUKReplacer_ctor n k))
    by (exists [], []; split; [by apply ctor_rep|apply ctor_ordered]).
  induction Hs; eauto using lru_step_inv.
Qed.

(** C28: whatever sequence of operations is run on a new replacer, its two intrusive
    lists stay well linked and disjoint, hold exactly the tracked frames, split them by
    [k] accesses, [Size] counts the evictable ones and the lists are in access order. *)
Theorem replacer_reachable n k r :
  0 <= n < 2 ^ 31 -> 1 <= k -> rtc lru_step (LRUKReplacer_ctor n k) r ->
  exists h l, rep r h l /\ ordered r h l.
Proof. apply reachable_inv. Qed.

Lemma victim_min (R : Z -> Z -> Prop) s l f g :
  StronglySorted R l -> last (evictables s l) = Some f -> g ∈ l -> evb s g = true -> g = f \/ R g f.
Proof.
  intros Hs Hl Hg He. eapply StronglySorted_last; [|done|].
  - by apply StronglySorted_filter'.
  - by apply list_elem_of_filter.
Qed.

Lemma evb_tracked r h l g : rep r h l -> evb (nodes_ r) g = true -> g ∈ h ++ l.
Proof.
  intros Hr Hg. apply (rep_dom _ _ _ Hr). unfold evb in Hg. destruct (nodes_ r !! Node g); [eauto|done].
Qed.

Lemma victim_policy r h l f :
  rep r h l -> ordered r h l -> victim_of (nodes_ r) h l = Some f ->
  if decide (count (nodes_ r) f < k_ r)
  then forall g, evb (nodes_ r) g = true -> count (nodes_ r) g < k_ r -> g <> f ->
         first_access (nodes_ r) f < first_access (nodes_ r) g
  else forall g, evb (nodes_ r) g = true -> g <> f ->
         k_ r <= count (nodes_ r) g /\ last_access (nodes_ r) f < last_access (nodes_ r) g.
Proof.
  intros Hr Ho Hv. destruct (victim_of_In _ _ _ _ Hv) as [Hf _].
  pose proof (fun g => evb_tracked r h l g Hr) as Hin.
  pose proof (count_hist _ _ _ _ Hr Hf) as Hch. unfold victim_of in Hv.
  pose proof (rep_nodup _ _ _ Hr) as (_ & Hdis & _)%NoDup_app.
  destruct (last (evictables (nodes_ r) h)) as [f'|] eqn:Eh; [simplify_eq|].
  - rewrite decide_True by (apply Hch; by eapply last_evictables).
    intros g Hg Hc Hne. assert (Hgh : g ∈ h) by (apply (count_hist _ _ _ _ Hr); auto).
    destruct (victim_min _ _ _ _ g (ord_hist _ _ _ Ho) Eh Hgh Hg); [done|lia].
  - rewrite decide_False
      by (intros ?%Hch; eapply Hdis; [done|by eapply last_evictables]).
    intros g Hg Hne. apply last_None in Eh. pose proof (proj1 (evictables_nil _ _) Eh) as Hnil.
    assert (Hgl : g ∉ h) by (intros Hx; by apply (Hnil g)).
    pose proof (count_hist _ _ _ _ Hr (Hin g Hg)) as Hcg.
    split; [destruct (Z.lt_ge_cases (count (nodes_ r) g) (k_ r)); [tauto|lia]|].
    assert (Hgl' : g ∈ l) by (pose proof (Hin g Hg); set_solver).
    destruct (victim_min _ _ _ _ g (ord_lru _ _ _ Ho) Hv Hgl' Hg); [done|lia].
Qed.

(** C29: [Evict] returns, and fails only when no tracked frame is evictable.  Otherwise it
    removes one evictable frame: among those with fewer than [k] accesses the one whose
    first access is oldest; if there is none, the one whose last access is oldest. *)
Theorem Evict_policy r h l :
  rep r h l -> ordered r h l ->
  exists v r', Evict r = Ret (v, r') /\
  match v with
  | None => r' = r /\ Size r = 0 /\ forall g, evb (nodes_ r) g = false
  | Some f =>
      evb (nodes_ r) f = true /\
      (forall p, p <> Node f -> body <$> nodes_ r' !! p = body <$> nodes_ r !! p) /\
      nodes_ r' !! Node f = None /\ Size r' = Size r - 1 /\
      if decide (count (nodes_ r) f < k_ r)
      then forall g, evb (nodes_ r) g = true -> count (nodes_ r) g < k_ r -> g <> f ->
             first_access (nodes_ r) f < first_access (nodes_ r) g
      else forall g, evb (nodes_ r) g = true -> g <> f ->
             k_ r <= count (nodes_ r) g /\ last_access (nodes_ r) f < last_access (nodes_ r) g
  end.
Proof.
  intros Hr Ho. pose proof (Evict_spec _ _ _ Hr) as Hs. pose proof (curr_zero _ _ _ Hr) as Hz.
  destruct (victim_of (nodes_ r) h l) as [f|] eqn:Hv.
  - destruct Hs as (s' & HE & Hb & Hr'). eexists _, _. split; [exact HE|].
    destruct (victim_of_In _ _ _ _ Hv) as [Hf Hev].
    assert (Hsz : 1 <= curr_size_ r < 2 ^ 64).
    { pose proof (rep_sizes _ _ _ Hr). assert (curr_size_ r <> 0) by (intros ?%Hz; done). lia. }
    split_and!; [done| | |unfold Size; simpl; by rewrite decr_small|].
    + intros p Hp. simpl. by rewrite lookup_delete_ne.
    + simpl. apply lookup_delete_eq.
    + by eapply victim_policy.
  - exists None, r. split; [done|]. split_and!; [done|by apply Hz|].
    intros g. destruct (evb (nodes_ r) g) eqn:E; [|done]. exfalso.
    pose proof (evb_tracked _ _ _ g Hr E) as Hg. unfold victim_of in Hv.
    destruct (last (evictables (nodes_ r) h)) eqn:Eh; [done|].
    apply last_None in Eh, Hv. apply elem_of_app in Hg as [Hg|Hg].
    + by apply (proj1 (evictables_nil _ _) Eh g Hg).
    + by apply (proj1 (evictables_nil _ _) Hv g Hg).
Qed.

(** ** Repeated eviction *)

(** [n] calls of [Evict]: the victims in order. *)
Fixpoint evict_n (n : nat) (r : LRUKReplacer) : outcome (list Z * LRUKReplacer) :=
  match n with
  | O => Ret ([], r)
  | S n =>
      let* (v, r1) := Evict r in
      match v with
      | None => Ret ([], r1)
      | Some f => let* (vs, r2) := evict_n n r1 in Ret (f :: vs, r2)
      end
  end.

(** The frames in the order they are evicted, and those that stay. *)
Definition eviction_order (s : store) (h l : list Z) : list Z := rev (evictables s h) ++ rev (evictables s l).
Definition pinned (s : store) (l : list Z) : list Z := filter (fun f => evb s f = false) l.

Lemma evb_without r s' f g :
  (forall p, body <$> s' !! p = body <$> nodes_ r !! p) -> g <> f -> evb (nodes_ (without f s' r)) g = evb (nodes_ r) g.
Proof.
  intros Hb Hg. rewrite <- (body_evb (nodes_ r) s' g) by done. unfold evb. cbn.
  by rewrite lookup_delete_ne by congruence.
Qed.

Lemma evictables_without r s' f l :
  (forall p, body <$> s' !! p = body <$> nodes_ r !! p) ->
  evictables (nodes_ (without f s' r)) (filter (fun x => x <> f) l) = filter (fun x => x <> f) (evictables (nodes_ r) l).
Proof.
  intros Hb. induction l as [|g l IH]; [done|]. unfold evictables in *. rewrite !filter_cons.
  destruct (decide (g = f)) as [->|Hg].
  - rewrite decide_False by tauto. destruct (decide (evb (nodes_ r) f = true)); [|done].
    by rewrite filter_cons, decide_False by tauto.
  - rewrite decide_True by done. rewrite filter_cons, (evb_without r s' f g) by done.
    destruct (decide (evb (nodes_ r) g = true)); [|done]. rewrite filter_cons, decide_True by done. by rewrite IH.
Qed.

Lemma pinned_without r s' f l :
  (forall p, body <$> s' !! p = body <$> nodes_ r !! p) -> evb (nodes_ r) f = true ->
  pinned (nodes_ (without f s' r)) (filter (fun x => x <> f) l) = pinned (nodes_ r) l.
Proof.
  intros Hb Hf. induction l as [|g l IH]; [done|]. unfold pinned in *. rewrite filter_cons.
  destruct (decide (g = f)) as [->|Hg].
  - rewrite decide_False by tauto. by rewrite filter_cons, decide_False by congruence.
  - rewrite decide_True by done. rewrite !filter_cons, (evb_without r s' f g) by done. by rewrite IH.
Qed.

Lemma evictables_NoDup s l : NoDup l -> NoDup (evictables s l).
Proof. apply NoDup_filter. Qed.

Lemma filter_last (l : list Z) f : NoDup l -> last l = Some f -> l = filter (fun x => x <> f) l ++ [f].
Proof.
  intros Hn [l' ->]%last_Some. rewrite filter_app, filter_cons, decide_False by tauto. rewrite filter_nil, app_nil_r. f_equal.
  symmetry. apply filter_neq_notin. apply NoDup_app in Hn as (_ & Hn & _). intros Hf. eapply Hn; [done|by left].
Qed.

(** Taking the victim shortens the order by its first frame. *)
Lemma eviction_order_step r h l f s' :
  rep r h l -> victim_of (nodes_ r) h l = Some f -> (forall p, body <$> s' !! p = body <$> nodes_ r !! p) ->
  eviction_order (nodes_ r) h l =
    f :: eviction_order (nodes_ (without f s' r)) (filter (fun x => x <> f) h) (filter (fun x => x <> f) l).
Proof.
  intros Hr Hv Hb. unfold eviction_order. rewrite !(evictables_without r s' f) by done.
  pose proof (rep_nodup _ _ _ Hr) as (Hh & Hd & Hl)%NoDup_app. unfold victim_of in Hv.
  destruct (last (evictables (nodes_ r) h)) as [g|] eqn:E.
  - injection Hv as ->. rewrite (filter_last _ _ (evictables_NoDup (nodes_ r) h Hh) E) at 1. rewrite rev_app_distr.
    cbn. do 2 f_equal. rewrite (filter_neq_notin (evictables (nodes_ r) l)); [done|].
    intros [_ Hf]%list_elem_of_filter. eapply Hd; [|exact Hf]. by eapply last_evictables.
  - apply last_None in E. rewrite E. cbn.
    rewrite (filter_last _ _ (evictables_NoDup (nodes_ r) l Hl) Hv) at 1. by rewrite rev_app_distr.
Qed.

Lemma length_eviction_order r h l : rep r h l -> Size r = zlen (eviction_order (nodes_ r) h l).
Proof.
  intros Hr. unfold Size, eviction_order. rewrite (rep_curr _ _ _ Hr), filter_app. unfold zlen.
  by rewrite !length_app, !length_rev.
Qed.

Lemma pinned_all r h l : eviction_order (nodes_ r) h l = [] -> pinned (nodes_ r) h = h /\ pinned (nodes_ r) l = l.
Proof.
  unfold eviction_order. intros [Hh Hl]%app_eq_nil.
  assert (Ha : forall k, rev (evictables (nodes_ r) k) = [] -> pinned (nodes_ r) k = k).
  { intros k Hk. apply (f_equal (@rev Z)) in Hk. rewrite rev_involutive in Hk. pose proof (proj1 (evictables_nil _ _) Hk) as Hn.
    clear Hk. unfold pinned. induction k as [|x k IHk]; [done|]. rewrite filter_cons, decide_True.
    - rewrite IHk; [done|]. intros g Hg. apply Hn. by right.
    - specialize (Hn x ltac:(left)). by destruct (evb _ x). }
  split; by apply Ha.
Qed.

Lemma evict_n_order n : forall r h l, rep r h l -> n = length (eviction_order (nodes_ r) h l) ->
  exists r', evict_n n r = Ret (eviction_order (nodes_ r) h l, r') /\ rep r' (pinned (nodes_ r) h) (pinned (nodes_ r) l) /\
    forall f, evb (nodes_ r') f = false.
Proof.
  induction n as [|n IH]; intros r h l Hr Hn.
  - symmetry in Hn. apply nil_length_inv in Hn. rewrite Hn. exists r. destruct (pinned_all r h l Hn) as [-> ->].
    split_and!; [done|done|]. intros f. destruct (evb (nodes_ r) f) eqn:E; [|done]. exfalso.
    assert (Hf : f ∈ eviction_order (nodes_ r) h l).
    { pose proof (evb_tracked _ _ _ f Hr E) as Hf. unfold eviction_order, evictables. rewrite elem_of_app in *.
      rewrite !list_elem_of_In, <- !in_rev, <- !list_elem_of_In, !list_elem_of_filter. tauto. }
    rewrite Hn in Hf. by apply not_elem_of_nil in Hf.
  - pose proof (Evict_spec _ _ _ Hr) as He. pose proof (curr_zero _ _ _ Hr) as Hz.
    destruct (victim_of (nodes_ r) h l) as [f|] eqn:Hv.
    2: { pose proof (length_eviction_order _ _ _ Hr) as Hs. unfold Size, zlen in Hs. rewrite (proj2 Hz eq_refl) in Hs. lia. }
    destruct He as (s' & HE & Hb & Hr'). pose proof (eviction_order_step _ _ _ _ s' Hr Hv Hb) as Ho. rewrite Ho in Hn |- *.
    destruct (IH _ _ _ Hr' ltac:(cbn [length] in Hn; by injection Hn)) as (r' & Hx & Hp & Hf). exists r'.
    destruct (victim_of_In _ _ _ _ Hv) as [_ Hev]. rewrite !pinned_without in Hp by done.
    split_and!; [|done|done]. cbn [evict_n]. rewrite HE. cbn [obind]. by rewrite Hx.
Qed.

(** C30: progress of the replacer.  On every replacer a sequence of operations can lead to, every
    frame that may be evicted is evicted by repeated calls of [Evict], and [Size] calls are
    enough: they succeed and return each evictable frame exactly once, first the frames with
    fewer than [k] accesses from the oldest first access on, then the others from the oldest
    last access on.  Afterwards the pinned frames are tracked as before, [Size] is 0 and
    [Evict] fails without a change. *)
Theorem Evict_drains n k r :
  0 <= n < 2 ^ 31 -> 1 <= k -> rtc lru_step (LRUKReplacer_ctor n k) r ->
  exists h l r', rep r h l /\ ordered r h l /\
    evict_n (Z.to_nat (Size r)) r = Ret (eviction_order (nodes_ r) h l, r') /\
    NoDup (eviction_order (nodes_ r) h l) /\ (forall f, f ∈ eviction_order (nodes_ r) h l <-> evb (nodes_ r) f = true) /\
    rep r' (pinned (nodes_ r) h) (pinned (nodes_ r) l) /\ Size r' = 0 /\ Evict r' = Ret (None, r').
Proof.
  intros Hn Hk Hs. destruct (reachable_inv n k r Hn Hk Hs) as (h & l & Hr & Ho). exists h, l.
  pose proof (length_eviction_order _ _ _ Hr) as Hz.
  destruct (evict_n_order (Z.to_nat (Size r)) r h l Hr ltac:(rewrite Hz; unfold zlen; lia)) as (r' & He & Hr' & Hf).
  exists r'. pose proof (rep_nodup _ _ _ Hr) as Hnd.
  assert (Hp : eviction_order (nodes_ r) h l ≡ₚ evictables (nodes_ r) (h ++ l)).
  { unfold eviction_order, evictables. rewrite filter_app. by rewrite <- !Permutation_rev. }
  assert (H0 : Size r' = 0).
  { unfold Size. rewrite (rep_curr _ _ _ Hr'). fold (evictables (nodes_ r') (pinned (nodes_ r) h ++ pinned (nodes_ r) l)).
    rewrite (proj2 (evictables_nil (nodes_ r') _)); [done|]. intros f _. by rewrite Hf. }
  split_and!; [done|done|done| | |done|done|].
  - rewrite Hp. by apply evictables_NoDup.
  - intros f. rewrite Hp. unfold evictables. rewrite list_elem_of_filter. split; [tauto|]. intros He'. split; [done|].
    by eapply evb_tracked.
  - unfold Evict. by rewrite decide_True.
Qed.

(** An access to a tracked frame, or to a new one while fewer than [replacer_size_]
    frames are tracked, succeeds and changes the record of that frame only: its count
    goes up by one, the new timestamp is its last access, a new frame is evictable and a
    tracked one keeps its flag; the invariant and the access order are kept. *)
Theorem RecordAccess_correct r h l f :
  rep r h l -> ordered r h l -> current_timestamp_ r < 2 ^ 64 - 1 -> f <= replacer_size_ r ->
  f ∈ h ++ l \/ tot_size_ r < replacer_size_ r ->
  exists r' h' l', RecordAccess r f = Ret r' /\ rep r' h' l' /\ ordered r' h' l' /\
    (forall g, g ∈ h' ++ l' <-> g = f \/ g ∈ h ++ l) /\
    count (nodes_ r') f = count (nodes_ r) f + 1 /\
    last_access (nodes_ r') f = current_timestamp_ r + 1 /\
    evb (nodes_ r') f = (if decide (f ∈ h ++ l) then evb (nodes_ r) f else true) /\
    (forall p, p <> Node f -> body <$> nodes_ r' !! p = body <$> nodes_ r !! p).
Proof.
  intros Hr Ho Ht Hle Hroom.
  destruct (RecordAccess_spec r h l f Hr Ht Hle Hroom) as (r' & HR & Hr' & H1 & H2 & H3 & Hb).
  eexists r', _, _. split_and!; [done|done|by eapply ordered_accessed|apply accessed_dom| | | |].
  - by eapply stamps_self.
  - by eapply last_access_self.
  - rewrite (evb_after _ _ _ _ Hb), decide_True by done. unfold touched. case_decide as Hf.
    + apply (rep_dom _ _ _ Hr) in Hf as [fr E]. unfold evb. by rewrite E.
    + by rewrite (proj1 (count_out _ _ _ _ Hr Hf)).
  - intros p Hp. by rewrite Hb, lookup_insert_ne.
Qed.

(** ** The replacer interface of the buffer pool *)

#[export] Instance lru_replacer : Replacer LRUKReplacer := {
  rp_evict := Evict;
  rp_record := RecordAccess;
  rp_set_evictable := SetEvictable;
  rp_remove := Remove;
  rp_size := Size;
}.

Definition lru_ok (n : Z) (r : LRUKReplacer) (m : gmap Z bool) (c : Z) : Prop :=
  exists h l, rep r h l /\ replacer_size_ r = n /\
    (forall f, m !! f = evictable_ <$> nodes_ r !! Node f) /\
    (forall f, f ∈ h ++ l -> 0 <= f < n) /\
    current_timestamp_ r + c < 2 ^ 64.

(** A frame missing from the lists leaves room in them. *)
Lemma room_for r h l f n :
  rep r h l -> replacer_size_ r = n -> (forall g, g ∈ h ++ l -> 0 <= g < n) -> 0 <= f < n ->
  f ∈ h ++ l \/ tot_size_ r < replacer_size_ r.
Proof.
  intros Hr Hn Hall Hf. destruct (decide (f ∈ h ++ l)) as [|Hout]; [by left|right].
  assert (Hsub : f :: h ++ l ⊆+ seqZ 0 n).
  { apply NoDup_submseteq; [apply NoDup_cons; split; [done|apply (rep_nodup _ _ _ Hr)]|].
    intros x. rewrite elem_of_cons, elem_of_seqZ. intros [->|Hx]; [lia|]. specialize (Hall x Hx). lia. }
  apply submseteq_length in Hsub. rewrite length_seqZ in Hsub. simpl in Hsub.
  rewrite (rep_tot _ _ _ Hr). unfold zlen. lia.
Qed.

Lemma evictable_evb (s : store) (m : gmap Z bool) f :
  (forall g, m !! g = evictable_ <$> s !! Node g) -> m !! f = Some true <-> evb s f = true.
Proof.
  intros Hm. rewrite Hm. unfold evb. destruct (s !! Node f) as [fr|]; simpl; [|done].
  split; [by intros [=]|by intros ->].
Qed.

Lemma body_evictable (s s' : store) p :
  body <$> s' !! p = body <$> s !! p -> evictable_ <$> s' !! p = evictable_ <$> s !! p.
Proof.
  unfold body. intros Hb. destruct (s !! p), (s' !! p); simpl in *; simplify_eq; congruence.
Qed.

Lemma lru_ok_without n r m c f s' h l :
  rep (without f s' r) (filter (fun x => x <> f) h) (filter (fun x => x <> f) l) ->
  (forall p, body <$> s' !! p = body <$> nodes_ r !! p) ->
  replacer_size_ r = n -> (forall g, m !! g = evictable_ <$> nodes_ r !! Node g) ->
  (forall g, g ∈ h ++ l -> 0 <= g < n) -> current_timestamp_ r + c < 2 ^ 64 ->
  lru_ok n (without f s' r) (delete f m) c.
Proof.
  intros Hr Hb Hn Hm Hall Hc. eexists _, _. split_and!; [exact Hr|done| | |done].
  - intros g. simpl. destruct (decide (g = f)) as [->|Hg]; [by rewrite !lookup_delete_eq|].
    rewrite !lookup_delete_ne by naive_solver. rewrite Hm. symmetry. by apply body_evictable.
  - intros g Hg. apply Hall. rewrite <- filter_app in Hg. by apply list_elem_of_filter in Hg as [_ ?].
Qed.

Lemma lru_size_ok n r m c :
  lru_ok n r m c -> Size r = Z.of_nat (size (filter (fun kv => kv.2 = true) m)).
Proof.
  intros (h & l & Hr & _ & Hm & _). unfold Size. rewrite (rep_curr _ _ _ Hr).
  unfold zlen. f_equal.
  rewrite <- (length_map_to_list (filter (fun kv : Z * bool => kv.2 = true) m)),
    <- (length_fmap fst (map_to_list _)).
  apply Permutation_length, NoDup_Permutation.
  - apply NoDup_filter, (rep_nodup _ _ _ Hr).
  - apply NoDup_fst_map_to_list.
  - intros x. rewrite list_elem_of_filter, list_elem_of_fmap. split.
    + intros [Hx _]. exists (x, true). split; [done|]. apply elem_of_map_to_list, map_lookup_filter_Some.
      split; [|done]. by apply (evictable_evb _ _ _ Hm).
    + intros ([y b] & -> & Hy). apply elem_of_map_to_list, map_lookup_filter_Some in Hy as [Hy Hb].
      simpl in *. subst b. apply (evictable_evb _ _ _ Hm) in Hy. split; [done|].
      by eapply evb_tracked.
Qed.

Section laws.
Context (n : Z) (r : LRUKReplacer) (m : gmap Z bool) (c : Z).
Hypothesis Hok : lru_ok n r m c.

Lemma lru_evict_none : (forall f, m !! f <> Some true) -> Evict r = Ret (None, r).
Proof.
  intros Hno. destruct Hok as (h & l & Hr & Hn & Hm & Hall & Hc).
  pose proof (Evict_spec _ _ _ Hr) as Hs. destruct (victim_of (nodes_ r) h l) as [f|] eqn:Hv; [|done].
  destruct (Hno f). apply (evictable_evb _ _ _ Hm). by eapply victim_of_In.
Qed.

Lemma lru_evict_some f : m !! f = Some true ->
  exists v r', Evict r = Ret (Some v, r') /\ m !! v = Some true /\ lru_ok n r' (delete v m) c.
Proof.
  intros Hf. destruct Hok as (h & l & Hr & Hn & Hm & Hall & Hc).
  pose proof (Evict_spec _ _ _ Hr) as Hs. destruct (victim_of (nodes_ r) h l) as [v|] eqn:Hv.
  - destruct Hs as (s' & HE & Hb & Hr'). exists v, (without v s' r). split_and!; [done| |].
    + apply (evictable_evb _ _ _ Hm). by eapply victim_of_In.
    + by eapply lru_ok_without.
  - apply (curr_zero _ _ _ Hr) in Hv. fold (Size r) in Hv.
    rewrite (lru_size_ok _ _ _ _ Hok) in Hv. exfalso.
    assert (E : filter (fun kv : Z * bool => kv.2 = true) m = ∅) by (apply map_size_empty_iff; lia).
    assert (Hl : filter (fun kv : Z * bool => kv.2 = true) m !! f = Some true)
      by by apply map_lookup_filter_Some.
    by rewrite E, lookup_empty in Hl.
Qed.

Lemma lru_record_ok f : 0 < c -> 0 <= f < n ->
  exists r', RecordAccess r f = Ret r' /\ lru_ok n r' (<[f := default true (m !! f)]> m) (c - 1).
Proof.
  intros Hc0 Hf. destruct Hok as (h & l & Hr & Hn & Hm & Hall & Hc).
  destruct (RecordAccess_spec r h l f Hr) as (r' & HR & Hr' & H1 & H2 & H3 & Hb);
    [lia|lia|by eapply room_for|].
  exists r'. split; [done|]. eexists _, _. split_and!; [exact Hr'|lia| | |lia].
  - intros g. rewrite (body_evictable _ _ _ (Hb (Node g))).
    destruct (decide (g = f)) as [->|Hg].
    + rewrite !lookup_insert_eq, Hm. simpl. unfold touched. by destruct (nodes_ r !! Node f).
    + by rewrite !lookup_insert_ne by naive_solver.
  - intros g [->|Hg]%accessed_dom; [lia|auto].
Qed.

Lemma lru_set_ok f b : lru_ok n (SetEvictable r f b) (alter (fun _ => b) f m) c.
Proof.
  destruct Hok as (h & l & Hr & Hn & Hm & Hall & Hc).
  destruct (SetEvictable_spec r h l f b Hr) as (Hr' & H1 & H2 & H3 & H4).
  exists h, l. split_and!; [done|lia| |done|lia]. intros g. rewrite H4, !lookup_alter.
  repeat case_decide; naive_solver congruence || (subst; rewrite Hm; by destruct (nodes_ r !! Node g)).
Qed.

Lemma lru_remove_ok f :
  match m !! f with
  | None => Remove r f = Ret r
  | Some false => Remove r f = Raised
  | Some true => exists r', Remove r f = Ret r' /\ lru_ok n r' (delete f m) c
  end.
Proof.
  destruct Hok as (h & l & Hr & Hn & Hm & Hall & Hc). pose proof (Remove_spec _ _ _ f Hr) as Hs.
  rewrite Hm. destruct (nodes_ r !! Node f) as [fr|]; simpl; [|done].
  destruct (evictable_ fr); [|done]. destruct Hs as (s' & HR & Hb & Hr').
  exists (without f s' r). split; [done|by eapply lru_ok_without].
Qed.

End laws.

#[export] Instance lru_replacer_laws : ReplacerLaws LRUKReplacer := {
  rp_ok := lru_ok;
  rp_evict_none := lru_evict_none;
  rp_evict_some n r m c f H := lru_evict_some n r m c H f;
  rp_record_ok n r m c f H := lru_record_ok n r m c H f;
  rp_set_ok n r m c f b H := lru_set_ok n r m c H f b;
  rp_remove_ok n r m c f H := lru_remove_ok n r m c H f;
  rp_size_ok := lru_size_ok;
}.

Lemma ctor_lru_ok n k : 0 <= n < 2 ^ 31 -> 1 <= k -> lru_ok n (LRUKReplacer_ctor n k) ∅ (2 ^ 64 - 1).
Proof.
  intros Hn Hk. exists [], []. split_and!; [by apply ctor_rep|done| |by intros ? ?%not_elem_of_nil|simpl; lia].
  intros f. rewrite lookup_empty. unfold LRUKReplacer_ctor, set_pre, set_nex. simpl.
  rewrite !lookup_alter_ne by done. by rewrite !lookup_insert_ne by done.
Qed.

(** ** Where the code departs from LRU-K *)

(** Frames 1 and 2 are each accessed twice ([k = 2]), then frame 1 once more. *)
Definition k_distance_run : outcome LRUKReplacer :=
  let* r1 := RecordAccess (LRUKReplacer_ctor 7 2) 1 in
  let* r2 := RecordAccess r1 1 in
  let* r3 := RecordAccess r2 2 in
  let* r4 := RecordAccess r3 2 in
  RecordAccess r4 1.

(** Among frames with [k] accesses [Evict] does not take the one with the largest
    backward k-distance: here the [k]-th last access of frame 1 (time 2) is older than
    that of frame 2 (time 3), and frame 2 is evicted. *)
Theorem Evict_not_k_distance :
  (let* r := k_distance_run in
   let* (v, _) := Evict r in
   Ret (stamps (nodes_ r) 1, stamps (nodes_ r) 2, v)) = Ret ([2; 5], [3; 4], Some 2).
Proof. vm_compute. reflexivity. Qed.

(** A new frame recorded while [replacer_size_] frames are tracked makes
    [RecordAccess] call [Evict] with [latch_] held: it never returns. *)
Theorem RecordAccess_full_blocks r h l f :
  rep r h l -> current_timestamp_ r < 2 ^ 64 - 1 -> f <= replacer_size_ r -> f ∉ h ++ l ->
  tot_size_ r = replacer_size_ r -> RecordAccess r f = Blocked.
Proof.
  intros Hr Ht Hle Hf Hfull. pose proof (rep_cap _ _ _ Hr). pose proof (rep_sizes _ _ _ Hr).
  destruct (touched_cnt r h l f Hr Ht) as [Hc _]. destruct (count_out _ _ _ _ Hr Hf) as [_ Hc0].
  pose proof (rep_time _ _ _ Hr). unfold RecordAccess.
  rewrite decide_False by (rewrite swrap_id; unfold sfits; simpl; lia).
  rewrite incr_small by lia. fold (touched r f). rewrite Hc, Hc0.
  by rewrite (decide_True (P := 0 + 1 = 1)), (decide_True (P := tot_size_ r = replacer_size_ r)).
Qed.

(** ** Witnesses *)

(** Frames 1 and 2 recorded once with room for seven. *)
Definition two_frames : outcome LRUKReplacer :=
  let* r1 := RecordAccess (LRUKReplacer_ctor 7 2) 1 in RecordAccess r1 2.

Lemma two_frames_reachable r : two_frames = Ret r -> rtc lru_step (LRUKReplacer_ctor 7 2) r.
Proof.
  unfold two_frames. destruct (RecordAccess (LRUKReplacer_ctor 7 2) 1) as [r1| | |] eqn:E1; [|discriminate..]. intros E.
  assert (Ht : current_timestamp_ r1 = 1) by (vm_compute in E1; by injection E1 as <-).
  eapply rtc_l; [eapply step_RecordAccess; [simpl; lia|exact E1]|].
  eapply rtc_l; [eapply step_RecordAccess; [rewrite Ht; lia|exact E]|apply rtc_refl].
Qed.

Lemma replacer_reachable_witness :
  exists r, two_frames = Ret r /\ exists h l, rep r h l /\ ordered r h l.
Proof.
  destruct two_frames as [r| | |] eqn:E; [|vm_compute in E; discriminate E..].
  exists r. split; [reflexivity|]. apply (replacer_reachable 7 2 r); [lia|lia|exact (two_frames_reachable r E)].
Defined.

Lemma Evict_drains_witness :
  exists r r' vs, two_frames = Ret r /\ Size r = 2 /\ evict_n 2 r = Ret (vs, r') /\ Size r' = 0.
Proof.
  destruct two_frames as [r| | |] eqn:E; [|vm_compute in E; discriminate E..].
  assert (Hz : Size r = 2) by (vm_compute in E; injection E as <-; reflexivity).
  destruct (Evict_drains 7 2 r) as (h & l & r' & _ & _ & He & _ & _ & _ & H0 & _);
    [lia|lia|exact (two_frames_reachable r E)|].
  rewrite Hz in He. eexists r, r', _. split; [reflexivity|]. split; [exact Hz|]. split; [exact He|exact H0].
Defined.

Lemma RecordAccess_correct_witness :
  exists r, RecordAccess (LRUKReplacer_ctor 7 2) 3 = Ret r /\ count (nodes_ r) 3 = 0 + 1.
Proof.
  destruct (RecordAccess_correct (LRUKReplacer_ctor 7 2) [] [] 3)
    as (r & h' & l' & HR & _ & _ & _ & Hc & _);
    [apply ctor_rep; lia|apply ctor_ordered|simpl; lia|simpl; lia|right; simpl; lia|].
  exists r. split; [exact HR|exact Hc].
Defined.

Lemma Evict_policy_witness :
  exists v r r', two_frames = Ret r /\ Evict r = Ret (v, r').
Proof.
  assert (Hc : rep (LRUKReplacer_ctor 7 2) [] []) by (apply ctor_rep; lia).
  destruct (RecordAccess_spec (LRUKReplacer_ctor 7 2) [] [] 1 Hc)
    as (r1 & HR1 & Hr1 & Ht1 & Hs1 & Hk1 & Hb1); [simpl; lia|simpl; lia|right; simpl; lia|].
  pose proof (ordered_accessed _ r1 _ _ 1 Hc (ctor_ordered 7 2) ltac:(simpl; lia) Ht1 Hk1 Hb1) as Ho1.
  destruct (RecordAccess_spec r1 _ _ 2 Hr1) as (r2 & HR2 & Hr2 & Ht2 & Hs2 & Hk2 & Hb2);
    [rewrite Ht1; simpl; lia|rewrite Hs1; simpl; lia| |].
  { right. rewrite Hs1. vm_compute in HR1. injection HR1 as <-. simpl. lia. }
  pose proof (ordered_accessed _ r2 _ _ 2 Hr1 Ho1 ltac:(rewrite Ht1; simpl; lia) Ht2 Hk2 Hb2) as Ho2.
  destruct (Evict_policy r2 _ _ Hr2 Ho2) as (v & r' & HE & _).
  exists v, r2, r'. split; [|exact HE]. unfold two_frames. rewrite HR1. exact HR2.
Defined.

Lemma RecordAccess_full_blocks_witness :
  RecordAccess (LRUKReplacer_ctor 0 2) 0 = Blocked.
Proof.
  apply (RecordAccess_full_blocks (LRUKReplacer_ctor 0 2) [] [] 0);
    [apply ctor_rep; lia|simpl; lia|simpl; lia|by intros ?%not_elem_of_nil|reflexivity].
Defined.
