(* ===== verification/Disk.v ===== *)
(** * Disk manager

    Model of [src/storage/disk/disk_manager.cpp].  A [std::fstream] on a regular file is
    its bytes, its (joint) position and its fail bit; writing past the end leaves a gap of
    zeros, reading past it sets the fail bit.  The operating system is assumed to perform
    every request ([bad()] stays false).  [int] and [size_t] computations on offsets and
    on the file size keep their widths. *)

From S2P Require Import Prelude.

Local Open Scope Z_scope.

Definition BUSTUB_PAGE_SIZE : Z := 4096.

(** ** File streams *)

Record fstream := mkStream {
  contents : list Z;
  pos : Z;
  failbit : bool;
}.

Definition seekp (off : Z) (s : fstream) : fstream :=
  if failbit s then s
  else if bool_decide (off < 0) then mkStream (contents s) (pos s) true
  else mkStream (contents s) off false.

(** The bytes of a file after [bs] is written at [off]. *)
Definition pwrite (c : list Z) (off : Z) (bs : list Z) : list Z :=
  splice off bs (c ++ replicate (Z.to_nat (off + zlen bs - zlen c)) 0).

Definition stream_write (bs : list Z) (s : fstream) : fstream :=
  if failbit s then s
  else mkStream (pwrite (contents s) (pos s) bs) (pos s + zlen bs) false.

(** With [std::ios::app] every write goes to the end. *)
Definition stream_append (bs : list Z) (s : fstream) : fstream :=
  if failbit s then s
  else mkStream (contents s ++ bs) (zlen (contents s) + zlen bs) false.

(** The bytes read; fewer than [n] set the fail bit. *)
Definition stream_read (n : Z) (s : fstream) : list Z * fstream :=
  if failbit s then ([], s)
  else
    let bs := slice (pos s) n (contents s) in
    (bs, mkStream (contents s) (pos s + zlen bs) (bool_decide (zlen bs < n))).

Definition stream_clear (s : fstream) : fstream := mkStream (contents s) (pos s) false.

(** ** The disk manager *)

Record DiskManager := mkDisk {
  db_io_ : fstream;
  log_io_ : fstream;
  num_flushes_ : Z;
  num_writes_ : Z;
  flush_log_ : bool;
  (** [None] is null; otherwise whether the future gets ready within the timeout *)
  flush_log_f_ : option bool;
  (** the static [buffer_used]: the address of the last log buffer *)
  buffer_used : option Z;
}.

(** A disk manager on a database file and a log file with the given bytes. *)
Definition DiskManager_ctor (db log : list Z) : DiskManager :=
  mkDisk (mkStream db 0 false) (mkStream log 0 false) 0 0 false None None.

Definition set_db (d : DiskManager) (s : fstream) (writes : Z) : DiskManager :=
  mkDisk s (log_io_ d) (num_flushes_ d) writes (flush_log_ d) (flush_log_f_ d) (buffer_used d).

Definition GetFileSize (s : fstream) : Z := swrap 32 (zlen (contents s)).

Definition WritePage (d : DiskManager) (page_id : Z) (page_data : list Z) : DiskManager :=
  let offset := uwrap 64 (uwrap 64 page_id * BUSTUB_PAGE_SIZE) in
  let s := seekp (swrap 64 offset) (db_io_ d) in
  set_db d (stream_write page_data s) (swrap 32 (num_writes_ d + 1)).

(** The caller's buffer after [n] bytes are requested into it and [bs] arrived. *)
Definition fill_buffer (n : Z) (bs : list Z) : list Z :=
  bs ++ replicate (Z.to_nat (n - zlen bs)) 0.

Definition ReadPage (d : DiskManager) (page_id : Z) (page_data : list Z) : DiskManager * list Z :=
  let offset := swrap 32 (page_id * BUSTUB_PAGE_SIZE) in
  if bool_decide (offset > GetFileSize (db_io_ d)) then (d, page_data)
  else
    let s := seekp offset (db_io_ d) in
    let '(bs, s) := stream_read BUSTUB_PAGE_SIZE s in
    if bool_decide (zlen bs < BUSTUB_PAGE_SIZE)
    then (set_db d (stream_clear s) (num_writes_ d), fill_buffer BUSTUB_PAGE_SIZE bs)
    else (set_db d s (num_writes_ d), bs).

(** [log_data] is the address of the buffer and the bytes it holds. *)
Definition WriteLog (d : DiskManager) (log_data : Z) (bytes : list Z) (size : Z) : outcome DiskManager :=
  if decide (buffer_used d = Some log_data) then Raised
  else if decide (size = 0) then
    Ret (mkDisk (db_io_ d) (log_io_ d) (num_flushes_ d) (num_writes_ d) (flush_log_ d)
           (flush_log_f_ d) (Some log_data))
  else if decide (flush_log_f_ d = Some false) then Raised
  else
    Ret (mkDisk (db_io_ d) (stream_append (take (Z.to_nat size) bytes) (log_io_ d))
           (swrap 32 (num_flushes_ d + 1)) (num_writes_ d) false (flush_log_f_ d) (Some log_data)).

Definition ReadLog (d : DiskManager) (size offset : Z) : DiskManager * option (list Z) :=
  if bool_decide (offset >= GetFileSize (log_io_ d)) then (d, None)
  else
    let s := seekp offset (log_io_ d) in
    let '(bs, s) := stream_read size s in
    let upd s := mkDisk (db_io_ d) s (num_flushes_ d) (num_writes_ d) (flush_log_ d)
                   (flush_log_f_ d) (buffer_used d) in
    if bool_decide (zlen bs < size)
    then (upd (stream_clear s), Some (fill_buffer size bs))
    else (upd s, Some bs).

Definition GetNumFlushes (d : DiskManager) : Z := num_flushes_ d.
Definition GetNumWrites (d : DiskManager) : Z := num_writes_ d.
Definition GetFlushState (d : DiskManager) : bool := flush_log_ d.
Definition SetFlushLogFuture (d : DiskManager) (f : option bool) : DiskManager :=
  mkDisk (db_io_ d) (log_io_ d) (num_flushes_ d) (num_writes_ d) (flush_log_ d) f (buffer_used d).
Definition HasFlushLogFuture (d : DiskManager) : bool := bool_decide (is_Some (flush_log_f_ d)).

(** ** The pages of a file *)

Definition byte_at (c : list Z) (i : nat) : Z := default 0 (c !! i).

(** Page [p] of a file; what lies beyond the end of the file counts as zeros. *)
Definition page_at (c : list Z) (p : Z) : list Z :=
  (fun i => byte_at c (Z.to_nat (p * BUSTUB_PAGE_SIZE) + i)) <$> seq 0 (Z.to_nat BUSTUB_PAGE_SIZE).

Definition zero_page : list Z := replicate (Z.to_nat BUSTUB_PAGE_SIZE) 0.

(** The file can be addressed: no fail bit, and its size fits [int]. *)
Definition disk_ok (d : DiskManager) : Prop :=
  failbit (db_io_ d) = false /\ zlen (contents (db_io_ d)) < 2 ^ 31.

(** Page ids whose write keeps the file below 2 GiB. *)
Definition page_ok (p : Z) : Prop := 0 <= p < 2 ^ 19 - 1.

Lemma page_size_nat : Z.of_nat (Z.to_nat BUSTUB_PAGE_SIZE) = 4096.
Proof. unfold BUSTUB_PAGE_SIZE. lia. Qed.

#[local] Opaque BUSTUB_PAGE_SIZE.

Lemma page_size_eq : BUSTUB_PAGE_SIZE = 4096.
Proof. reflexivity. Qed.

Lemma length_page_at c p : length (page_at c p) = Z.to_nat BUSTUB_PAGE_SIZE.
Proof. unfold page_at. by rewrite length_fmap, length_seq. Qed.

Lemma length_zero_page : length zero_page = Z.to_nat BUSTUB_PAGE_SIZE.
Proof. apply length_replicate. Qed.

Lemma byte_at_ge c i : (length c <= i)%nat -> byte_at c i = 0.
Proof. intros. unfold byte_at. by rewrite lookup_ge_None_2. Qed.

Lemma byte_at_app_zeros c n i : byte_at (c ++ replicate n 0) i = byte_at c i.
Proof.
  unfold byte_at. destruct (decide (i < length c)%nat).
  - by rewrite lookup_app_l.
  - rewrite lookup_app_r, (lookup_ge_None_2 c) by lia. simpl.
    destruct (replicate n 0 !! (i - length c)%nat) eqn:E; [|done].
    by apply lookup_replicate in E as [-> _].
Qed.

Lemma zlen_pwrite c off bs :
  0 <= off -> zlen (pwrite c off bs) = Z.max (zlen c) (off + zlen bs).
Proof.
  intros. unfold pwrite.
  assert (Hc : zlen (c ++ replicate (Z.to_nat (off + zlen bs - zlen c)) 0) = Z.max (zlen c) (off + zlen bs))
    by (unfold zlen; rewrite length_app, length_replicate; lia).
  rewrite zlen_splice; [done|done|]. rewrite Hc. lia.
Qed.

Lemma byte_at_pwrite c off bs i :
  0 <= off ->
  byte_at (pwrite c off bs) i =
  if decide (off <= Z.of_nat i < off + zlen bs) then byte_at bs (i - Z.to_nat off) else byte_at c i.
Proof.
  intros Hoff. unfold pwrite. set (c' := c ++ _).
  assert (Hc : off <= zlen c') by (unfold c', zlen; rewrite length_app, length_replicate; unfold zlen; lia).
  case_decide as Hi.
  - unfold byte_at. rewrite lookup_splice_in; [done|lia|]. unfold zlen in *. lia.
  - rewrite <- (byte_at_app_zeros c (Z.to_nat (off + zlen bs - zlen c))). fold c'.
    unfold byte_at. rewrite lookup_splice_out; [done|lia|]. unfold zlen in *. lia.
Qed.

Lemma lookup_page_at c p i :
  (i < Z.to_nat BUSTUB_PAGE_SIZE)%nat ->
  page_at c p !! i = Some (byte_at c (Z.to_nat (p * BUSTUB_PAGE_SIZE) + i)).
Proof. intros. unfold page_at. by rewrite list_lookup_fmap, lookup_seq_lt. Qed.

Lemma list_eq_page (l1 l2 : list Z) :
  length l1 = Z.to_nat BUSTUB_PAGE_SIZE -> length l2 = Z.to_nat BUSTUB_PAGE_SIZE ->
  (forall i, (i < Z.to_nat BUSTUB_PAGE_SIZE)%nat -> byte_at l1 i = byte_at l2 i) -> l1 = l2.
Proof.
  intros H1 H2 Hi. apply list_eq. intros i.
  destruct (decide (i < Z.to_nat BUSTUB_PAGE_SIZE)%nat) as [Hlt|Hge].
  - specialize (Hi i Hlt). unfold byte_at in Hi.
    destruct (lookup_lt_is_Some_2 l1 i) as [x Hx]; [lia|].
    destruct (lookup_lt_is_Some_2 l2 i) as [y Hy]; [lia|]. rewrite Hx, Hy in *. simpl in Hi. by subst.
  - rewrite !lookup_ge_None_2 by lia. done.
Qed.

Lemma byte_at_page_at c p i :
  (i < Z.to_nat BUSTUB_PAGE_SIZE)%nat ->
  byte_at (page_at c p) i = byte_at c (Z.to_nat (p * BUSTUB_PAGE_SIZE) + i).
Proof. intros. unfold byte_at at 1. by rewrite lookup_page_at. Qed.

(** Writing a page changes that page only. *)
Lemma page_at_pwrite c p data q :
  0 <= p -> 0 <= q -> length data = Z.to_nat BUSTUB_PAGE_SIZE ->
  page_at (pwrite c (p * BUSTUB_PAGE_SIZE) data) q = if decide (q = p) then data else page_at c q.
Proof.
  intros Hp Hq Hd. pose proof page_size_nat. pose proof page_size_eq.
  apply list_eq_page; [apply length_page_at|case_decide; [done|apply length_page_at]|].
  intros i Hi. rewrite byte_at_page_at, byte_at_pwrite by (try done; lia). unfold zlen. rewrite Hd.
  case_decide as Hr; case_decide as Hqp; subst.
  - f_equal. lia.
  - exfalso. nia.
  - exfalso. nia.
  - by rewrite byte_at_page_at.
Qed.

Lemma slice_page c p :
  0 <= p -> zlen (slice (p * BUSTUB_PAGE_SIZE) BUSTUB_PAGE_SIZE c) <= BUSTUB_PAGE_SIZE /\
  fill_buffer BUSTUB_PAGE_SIZE (slice (p * BUSTUB_PAGE_SIZE) BUSTUB_PAGE_SIZE c) = page_at c p.
Proof.
  intros Hp. pose proof page_size_nat. pose proof page_size_eq.
  assert (Hlen : (length (slice (p * BUSTUB_PAGE_SIZE) BUSTUB_PAGE_SIZE c) <= Z.to_nat BUSTUB_PAGE_SIZE)%nat)
    by (unfold slice; rewrite length_take; lia).
  split; [unfold zlen; lia|]. apply list_eq_page; [| apply length_page_at|].
  - unfold fill_buffer, zlen. rewrite length_app, length_replicate. lia.
  - intros i Hi. rewrite byte_at_page_at by done. unfold fill_buffer. rewrite byte_at_app_zeros.
    unfold byte_at. rewrite lookup_slice by lia. done.
Qed.

(** ** Operations on addressable pages *)

Lemma WritePage_spec d p data :
  disk_ok d -> page_ok p -> length data = Z.to_nat BUSTUB_PAGE_SIZE ->
  disk_ok (WritePage d p data) /\
  contents (db_io_ (WritePage d p data)) = pwrite (contents (db_io_ d)) (p * BUSTUB_PAGE_SIZE) data /\
  log_io_ (WritePage d p data) = log_io_ d.
Proof.
  intros [Hf Hsz] Hp Hd. unfold page_ok in Hp. pose proof page_size_nat. pose proof page_size_eq.
  unfold WritePage. rewrite (uwrap_id 64 p) by (unfold ufits; lia).
  rewrite (uwrap_id 64) by (unfold ufits; lia). rewrite swrap_id by (unfold sfits; lia).
  unfold seekp. rewrite Hf, bool_decide_eq_false_2 by lia. unfold stream_write. simpl.
  split_and!; [|done|done]. split; [done|]. simpl. rewrite zlen_pwrite by lia. unfold zlen in *. lia.
Qed.

Lemma ReadPage_spec d p buf :
  disk_ok d -> page_ok p ->
  exists d', ReadPage d p buf =
    (d', if decide (p * BUSTUB_PAGE_SIZE > zlen (contents (db_io_ d))) then buf
         else page_at (contents (db_io_ d)) p) /\
    disk_ok d' /\ contents (db_io_ d') = contents (db_io_ d) /\ log_io_ d' = log_io_ d.
Proof.
  intros [Hf Hsz] Hp. unfold page_ok in Hp. pose proof page_size_eq as Hps.
  assert (Hc0 : 0 <= zlen (contents (db_io_ d))) by (unfold zlen; lia).
  unfold ReadPage, GetFileSize. rewrite (swrap_id 32) by (unfold sfits; lia).
  rewrite (swrap_id 32) by (unfold sfits; lia).
  case_decide as Hgt; [rewrite bool_decide_eq_true_2 by done; by exists d|].
  rewrite bool_decide_eq_false_2 by done. unfold seekp.
  rewrite Hf, bool_decide_eq_false_2 by lia. unfold stream_read. cbn [failbit pos contents].
  destruct (slice_page (contents (db_io_ d)) p) as [Hle Hfill]; [lia|].
  case_bool_decide as Hshort.
  - eexists; split; [by rewrite Hfill|done].
  - eexists; split; [apply (f_equal2 pair); [reflexivity|]|done]. rewrite <- Hfill. unfold fill_buffer.
    replace (BUSTUB_PAGE_SIZE - zlen _) with 0 by lia. by rewrite app_nil_r.
Qed.

(** Reading into a zeroed buffer yields the page whether or not it lies in the file. *)
Lemma ReadPage_zero d p :
  disk_ok d -> page_ok p ->
  exists d', ReadPage d p zero_page = (d', page_at (contents (db_io_ d)) p) /\
    disk_ok d' /\ contents (db_io_ d') = contents (db_io_ d).
Proof.
  intros Hd Hp. destruct (ReadPage_spec d p zero_page Hd Hp) as (d' & HR & Hd' & Hc & _).
  exists d'. split_and!; [|done|done]. rewrite HR. f_equal. case_decide as Hgt; [|done].
  unfold page_ok in Hp. pose proof page_size_eq.
  apply list_eq_page; [apply length_zero_page|apply length_page_at|].
  intros i Hi. rewrite byte_at_page_at by done. rewrite (byte_at_ge (contents _)) by (unfold zlen in *; lia).
  unfold byte_at, zero_page. by rewrite lookup_replicate_2.
Qed.

(** C37: a page that was written is read back, and writing a page does not change what is
    read from any other page (a page never written reads as zeros into a zeroed buffer). This holds for page ids below
    2^19 - 1 and a file of less than 2 GiB whose stream has not failed: [GetFileSize] returns an [int], and beyond that
    size pages are no longer read. *)
Theorem WritePage_ReadPage d p data q :
  disk_ok d -> page_ok p -> page_ok q -> length data = Z.to_nat BUSTUB_PAGE_SIZE ->
  (ReadPage (WritePage d p data) q zero_page).2 =
    (if decide (q = p) then data else (ReadPage d q zero_page).2) /\
  disk_ok (WritePage d p data).
Proof.
  intros Hd Hp Hq Hlen. destruct (WritePage_spec d p data Hd Hp Hlen) as (Hd' & Hc & _).
  split; [|done]. destruct (ReadPage_zero _ q Hd' Hq) as (d1 & -> & _).
  destruct (ReadPage_zero _ q Hd Hq) as (d2 & -> & _). cbn [snd].
  unfold page_ok in *. rewrite Hc, page_at_pwrite by (done || lia). done.
Qed.

Lemma WritePage_ReadPage_witness :
  (ReadPage (WritePage (DiskManager_ctor [] []) 3 (replicate (Z.to_nat BUSTUB_PAGE_SIZE) 7)) 3 zero_page).2 =
  replicate (Z.to_nat BUSTUB_PAGE_SIZE) 7.
Proof.
  apply (WritePage_ReadPage (DiskManager_ctor [] []) 3 (replicate (Z.to_nat BUSTUB_PAGE_SIZE) 7) 3);
    [split; [reflexivity|unfold zlen; simpl; lia]|unfold page_ok; lia|unfold page_ok; lia
    |apply length_replicate].
Defined.

(** [GetFileSize] returns an [int]: once the file reaches 2 GiB (and stays below
    4 GiB) its size is negative, and [ReadPage] leaves the caller's buffer unchanged for
    every page of the first 2 GiB, as if the page lay past the end of the file. *)
Theorem ReadPage_large_file d p buf :
  2 ^ 31 <= zlen (contents (db_io_ d)) < 2 ^ 32 -> 0 <= p < 2 ^ 19 -> ReadPage d p buf = (d, buf).
Proof.
  intros Hsz Hp. pose proof page_size_eq as Hps. unfold ReadPage, GetFileSize.
  rewrite (swrap_id 32 (p * _)) by (unfold sfits; lia).
  rewrite bool_decide_eq_true_2; [done|].
  destruct (swrap_eq 32 (zlen (contents (db_io_ d)))) as [k Hk]; [lia|].
  pose proof (swrap_fits 32 (zlen (contents (db_io_ d)))) as Hfit. unfold sfits in Hfit. lia.
Qed.

Lemma ReadPage_large_file_witness :
  let d := DiskManager_ctor (replicate (Z.to_nat (2 ^ 31)) 1) [] in
  ReadPage d 5 [0] = (d, [0]).
Proof.
  intros d. apply (ReadPage_large_file d 5 [0]); [|lia].
  unfold d, zlen. cbn [contents db_io_ DiskManager_ctor]. rewrite length_replicate, Z2Nat.id; lia.
Defined.

(** What [WriteLog] appends is what [ReadLog] returns at the old end of the log. *)
Theorem WriteLog_ReadLog d addr bytes :
  failbit (log_io_ d) = false -> buffer_used d <> Some addr -> flush_log_f_ d <> Some false ->
  bytes <> [] -> zlen (contents (log_io_ d)) + zlen bytes < 2 ^ 31 ->
  exists d', WriteLog d addr bytes (zlen bytes) = Ret d' /\
    (ReadLog d' (zlen bytes) (zlen (contents (log_io_ d)))).2 = Some bytes /\
    num_flushes_ d' = swrap 32 (num_flushes_ d + 1) /\ db_io_ d' = db_io_ d.
Proof.
  intros Hf Hb Hfut Hne Hsz.
  assert (Hpos : 0 < zlen bytes) by (unfold zlen; destruct bytes; [done|simpl; lia]).
  assert (Hc0 : 0 <= zlen (contents (log_io_ d))) by (unfold zlen; lia).
  unfold WriteLog. rewrite decide_False by done. rewrite decide_False by lia. rewrite decide_False by done.
  eexists; split; [reflexivity|]. split; [|done].
  rewrite take_ge by (unfold zlen; lia). unfold stream_append. rewrite Hf.
  unfold ReadLog, GetFileSize. cbn [log_io_ contents].
  assert (Hl : zlen (contents (log_io_ d) ++ bytes) = zlen (contents (log_io_ d)) + zlen bytes)
    by (unfold zlen; rewrite length_app; lia).
  rewrite Hl, swrap_id by (unfold sfits; lia). rewrite bool_decide_eq_false_2 by lia.
  unfold seekp. cbn [failbit contents pos]. rewrite bool_decide_eq_false_2 by lia.
  unfold stream_read. cbn [failbit contents pos].
  assert (Hs : slice (zlen (contents (log_io_ d))) (zlen bytes) (contents (log_io_ d) ++ bytes) = bytes).
  { unfold slice, zlen. rewrite !Nat2Z.id, drop_app_length. by apply take_ge. }
  rewrite Hs, bool_decide_eq_false_2 by lia. done.
Qed.

Lemma WriteLog_ReadLog_witness :
  exists d', WriteLog (DiskManager_ctor [] [9; 9]) 1 [1; 2; 3] 3 = Ret d' /\
    (ReadLog d' 3 2).2 = Some [1; 2; 3].
Proof.
  destruct (WriteLog_ReadLog (DiskManager_ctor [] [9; 9]) 1 [1; 2; 3]) as (d' & H1 & H2 & _);
    [reflexivity|discriminate|discriminate|discriminate|vm_compute; reflexivity|].
  exists d'. split; [exact H1|exact H2].
Defined.
