(* ===== verification/BufferPool.v ===== *)
(** * Buffer pool manager

    Model of [src/buffer/buffer_pool_manager_instance.cpp] and [src/include/storage/page/page.h].
    The pool is polymorphic in its page table and replacer (see [Interfaces.v]); the
    instance the program builds uses the extendible hash table and the LRU-K replacer.
    A [Page *] is the index of a frame, the null pointer is [None].  Every public
    operation holds [latch_] throughout, so the operations are atomic steps. *)

From S2P Require Import Prelude.
From S2P Require Import Interfaces.
From S2P Require Import Disk.

Local Open Scope Z_scope.
Local Open Scope outcome_scope.

Definition INVALID_PAGE_ID : Z := -1.

Record Page := mkPage {
  data_ : list Z;
  page_id_ : Z;
  pin_count_ : Z;
  is_dirty_ : bool;
}.

Definition Page_ctor : Page := mkPage zero_page INVALID_PAGE_ID 0 false.
Definition ResetMemory (p : Page) : Page := mkPage zero_page (page_id_ p) (pin_count_ p) (is_dirty_ p).

Section pool.
Context {T R : Type} `{PageTable T} `{Replacer R}.

Record BufferPoolManagerInstance := mkPool {
  pool_size_ : Z;
  next_page_id_ : Z;
  pages_ : list Page;
  page_table_ : T;
  replacer_ : R;
  free_list_ : list Z;
  disk_manager_ : DiskManager;
}.
Abbreviation pool := BufferPoolManagerInstance.

Definition BufferPoolManagerInstance_ctor
    (pool_size : Z) (disk : DiskManager) (table : T) (replacer : R) : pool :=
  mkPool pool_size 0 (replicate (Z.to_nat pool_size) Page_ctor) table replacer
    (seqZ 0 pool_size) disk.

(** ** Field updates *)

Definition set_pages (b : pool) (ps : list Page) : pool :=
  mkPool (pool_size_ b) (next_page_id_ b) ps (page_table_ b) (replacer_ b) (free_list_ b) (disk_manager_ b).
Definition set_table (b : pool) (t : T) : pool :=
  mkPool (pool_size_ b) (next_page_id_ b) (pages_ b) t (replacer_ b) (free_list_ b) (disk_manager_ b).
Definition set_replacer (b : pool) (r : R) : pool :=
  mkPool (pool_size_ b) (next_page_id_ b) (pages_ b) (page_table_ b) r (free_list_ b) (disk_manager_ b).
Definition set_free (b : pool) (l : list Z) : pool :=
  mkPool (pool_size_ b) (next_page_id_ b) (pages_ b) (page_table_ b) (replacer_ b) l (disk_manager_ b).
Definition set_disk (b : pool) (d : DiskManager) : pool :=
  mkPool (pool_size_ b) (next_page_id_ b) (pages_ b) (page_table_ b) (replacer_ b) (free_list_ b) d.

(** [pages_[frame_id]] *)
Definition get_page (b : pool) (frame_id : Z) : outcome Page :=
  if bool_decide (frame_id < 0) then Crash else of_option (pages_ b !! Z.to_nat frame_id).
Definition put_page (b : pool) (frame_id : Z) (p : Page) : pool :=
  set_pages b (<[Z.to_nat frame_id := p]> (pages_ b)).

(** ** Operations *)

Definition AllocatePage (b : pool) : Z * pool :=
  (next_page_id_ b,
   mkPool (pool_size_ b) (swrap 32 (next_page_id_ b + 1)) (pages_ b) (page_table_ b) (replacer_ b)
     (free_list_ b) (disk_manager_ b)).

(** A frame from the free list, or else the frame the replacer evicts. *)
Definition take_frame (b : pool) : outcome (option Z * pool) :=
  match free_list_ b with
  | f :: l => Ret (Some f, set_free b l)
  | [] => let* (v, r) := rp_evict (replacer_ b) in Ret (v, set_replacer b r)
  end.

(** Write the old page of the frame back, unmap it and zero the frame. *)
Definition clean_frame (b : pool) (f : Z) : outcome pool :=
  let* p := get_page b f in
  let '(p, b) :=
    if is_dirty_ p
    then (mkPage (data_ p) (page_id_ p) (pin_count_ p) false,
          set_disk b (WritePage (disk_manager_ b) (page_id_ p) (data_ p)))
    else (p, b) in
  let* (_, t) := pt_remove (page_table_ b) (page_id_ p) in
  Ret (put_page (set_table b t) f (ResetMemory p)).

(** Map the page to the frame, pin it and record the access. *)
Definition install_page (b : pool) (f page_id : Z) : outcome pool :=
  let* t := pt_insert (page_table_ b) page_id f in
  let* p := get_page b f in
  let b := put_page (set_table b t) f (mkPage (data_ p) page_id 1 (is_dirty_ p)) in
  let* r := rp_record (replacer_ b) f in
  Ret (set_replacer b (rp_set_evictable r f false)).

Definition NewPgImp (b : pool) : outcome (option (Z * Z) * pool) :=
  let* (new_frame_id, b) := take_frame b in
  match new_frame_id with
  | None => Ret (None, b)
  | Some f =>
      let '(new_page_id, b) := AllocatePage b in
      let* b := clean_frame b f in
      let* b := install_page b f new_page_id in
      Ret (Some (f, new_page_id), b)
  end.

Definition read_into_frame (b : pool) (f page_id : Z) : outcome pool :=
  let* p := get_page b f in
  let '(d, data) := ReadPage (disk_manager_ b) page_id (data_ p) in
  Ret (put_page (set_disk b d) f (mkPage data (page_id_ p) (pin_count_ p) (is_dirty_ p))).

Definition FetchPgImp (b : pool) (page_id : Z) : outcome (option Z * pool) :=
  let* found := pt_find (page_table_ b) page_id in
  match found with
  | None =>
      let* (frame_id, b) := take_frame b in
      match frame_id with
      | None => Ret (None, b)
      | Some f =>
          let* b := clean_frame b f in
          let* b := read_into_frame b f page_id in
          let* b := install_page b f page_id in
          Ret (Some f, b)
      end
  | Some f =>
      let* p := get_page b f in
      let* r := rp_record (replacer_ b) f in
      let b := set_replacer b (rp_set_evictable r f false) in
      Ret (Some f, put_page b f (mkPage (data_ p) (page_id_ p) (swrap 32 (pin_count_ p + 1)) (is_dirty_ p)))
  end.

Definition UnpinPgImp (b : pool) (page_id : Z) (is_dirty : bool) : outcome (bool * pool) :=
  if decide (page_id = INVALID_PAGE_ID) then Ret (false, b)
  else
    let* found := pt_find (page_table_ b) page_id in
    match found with
    | None => Ret (false, b)
    | Some f =>
        let* p := get_page b f in
        if decide (pin_count_ p = 0) then Ret (false, b)
        else
          let pin := swrap 32 (pin_count_ p - 1) in
          let b := if decide (pin = 0)
                   then set_replacer b (rp_set_evictable (replacer_ b) f true) else b in
          Ret (true, put_page b f (mkPage (data_ p) (page_id_ p) pin (is_dirty_ p || is_dirty)))
    end.

Definition FlushPgImp (b : pool) (page_id : Z) : outcome (bool * pool) :=
  if decide (page_id = INVALID_PAGE_ID) then Ret (false, b)
  else
    let* found := pt_find (page_table_ b) page_id in
    match found with
    | None => Ret (false, b)
    | Some f =>
        let* p := get_page b f in
        let b := set_disk b (WritePage (disk_manager_ b) page_id (data_ p)) in
        Ret (true, put_page b f (mkPage (data_ p) (page_id_ p) (pin_count_ p) false))
    end.

Fixpoint flush_from (i n : nat) (b : pool) : outcome pool :=
  match n with
  | O => Ret b
  | S n =>
      let* p := get_page b (Z.of_nat i) in
      let* (_, b) := FlushPgImp b (page_id_ p) in
      flush_from (S i) n b
  end.

Definition FlushAllPgsImp (b : pool) : outcome pool := flush_from 0 (Z.to_nat (pool_size_ b)) b.

Definition DeletePgImp (b : pool) (page_id : Z) : outcome (bool * pool) :=
  if decide (page_id = INVALID_PAGE_ID) then Ret (true, b)
  else
    let* found := pt_find (page_table_ b) page_id in
    match found with
    | None => Ret (true, b)
    | Some f =>
        let* p := get_page b f in
        if decide (0 < pin_count_ p) then Ret (false, b)
        else
          let b := put_page b f (ResetMemory p) in
          let* r := rp_remove (replacer_ b) f in
          let* (_, t) := pt_remove (page_table_ b) page_id in
          let b := set_table (set_replacer b r) t in
          Ret (true, set_free b (free_list_ b ++ [f]))
    end.

(** What a client does with a [Page *]: overwrite the bytes of the frame. *)
Definition client_write (b : pool) (f : Z) (data : list Z) : outcome pool :=
  let* p := get_page b f in
  Ret (put_page b f (mkPage data (page_id_ p) (pin_count_ p) (is_dirty_ p))).

(** The bytes of a page: in its frame if it is resident, else on disk. *)
Definition content (b : pool) (page_id : Z) : list Z :=
  match pt_find (page_table_ b) page_id with
  | Ret (Some f) =>
      match get_page b f with Ret p => data_ p | _ => [] end
  | _ => page_at (contents (db_io_ (disk_manager_ b))) page_id
  end.

End pool.
Arguments BufferPoolManagerInstance : clear implicits.

#[local] Opaque BUSTUB_PAGE_SIZE zero_page page_at.

(** ** Frames *)

Section frames.
Context {T R : Type} `{PageTable T} `{Replacer R}.
Abbreviation pool := (BufferPoolManagerInstance T R).
Implicit Types b : pool.

Definition page_of b (f : Z) : option Page :=
  if decide (0 <= f) then pages_ b !! Z.to_nat f else None.

Lemma get_page_of b f : get_page b f = of_option (page_of b f).
Proof. unfold get_page, page_of. case_bool_decide; case_decide; done || lia. Qed.

Lemma page_of_put b f p g :
  0 <= f < zlen (pages_ b) -> page_of (put_page b f p) g = if decide (g = f) then Some p else page_of b g.
Proof.
  intros Hf. unfold page_of. simpl. case_decide as Hg; case_decide as E; subst; try (done || lia).
  - apply list_lookup_insert_eq. unfold zlen in *. lia.
  - apply list_lookup_insert_ne. lia.
Qed.

Lemma page_of_is_Some b f : is_Some (page_of b f) <-> 0 <= f < zlen (pages_ b).
Proof.
  unfold page_of. case_decide as Hf.
  - rewrite lookup_lt_is_Some. unfold zlen. lia.
  - split; [by intros []|lia].
Qed.

Lemma zlen_put b f p : zlen (pages_ (put_page b f p)) = zlen (pages_ b).
Proof. unfold zlen. simpl. by rewrite length_insert. Qed.

Definition disk_page b (pid : Z) : list Z := page_at (contents (db_io_ (disk_manager_ b))) pid.

End frames.

(** ** The invariant *)

Section invariant.
Context {T R : Type} `{PageTableLaws T maxk} `{ReplacerLaws R}.
Abbreviation pool := (BufferPoolManagerInstance T R).
Implicit Types b : pool.

(** Frames that hold a page; [hole] is a frame taken but not yet installed. *)
Definition resident b (hole : option Z) (f : Z) : Prop :=
  0 <= f < pool_size_ b /\ (f ∉ free_list_ b) /\ hole <> Some f.

(** The page a free frame still names: none, or one that was deleted. *)
Definition stale (D : gset Z) (p : Page) : Prop :=
  (page_id_ p = INVALID_PAGE_ID /\ is_dirty_ p = false) \/ page_id_ p ∈ D.

(** [m] is the page table, [e] what the replacer tracks, [W] the frames the client wrote
    and has not yet reported dirty, [D] the deleted pages, [c] the accesses left. *)
Record core b (m : gmap Z Z) (e : gmap Z bool) (W D : gset Z) (c : Z) (hole : option Z) : Prop := {
  c_size : 0 <= pool_size_ b /\ zlen (pages_ b) = pool_size_ b;
  c_rep : rp_ok (pool_size_ b) (replacer_ b) e c;
  c_disk : disk_ok (disk_manager_ b);
  c_next : 0 <= next_page_id_ b <= 2 ^ 19 - 1;
  c_nodup : NoDup (free_list_ b);
  c_free : forall f, f ∈ free_list_ b -> 0 <= f < pool_size_ b /\ hole <> Some f;
  c_stale : forall f p, f ∈ free_list_ b -> page_of b f = Some p -> stale D p;
  c_map : forall pid f, m !! pid = Some f <->
    resident b hole f /\ exists p, page_of b f = Some p /\ page_id_ p = pid;
  c_pid : forall f p, resident b hole f -> page_of b f = Some p ->
    0 <= page_id_ p < next_page_id_ b /\ page_id_ p ∉ D;
  c_pin : forall f p, resident b hole f -> page_of b f = Some p ->
    0 <= pin_count_ p < 2 ^ 31 /\ e !! f = Some (bool_decide (pin_count_ p = 0));
  c_clean : forall f p, resident b hole f -> page_of b f = Some p ->
    is_dirty_ p = false -> f ∉ W -> data_ p = disk_page b (page_id_ p);
  c_hole : forall f, hole = Some f -> 0 <= f < pool_size_ b /\ f ∉ W;
  c_W : forall f, f ∈ W -> resident b hole f /\ exists p, page_of b f = Some p /\ 0 < pin_count_ p;
  c_D : forall pid, pid ∈ D -> 0 <= pid < next_page_id_ b;
  c_len : forall f p, page_of b f = Some p -> length (data_ p) = Z.to_nat BUSTUB_PAGE_SIZE;
  c_fresh : forall pid, next_page_id_ b <= pid -> page_ok pid -> disk_page b pid = zero_page;
  c_tracked : forall f x, e !! f = Some x -> resident b hole f;
}.

Definition inv b (W D : gset Z) (c : Z) : Prop :=
  exists m e, pt_ok (page_table_ b) m /\ core b m e W D c None.

(** Allocated and not deleted. *)
Definition live b (D : gset Z) (pid : Z) : Prop := 0 <= pid < next_page_id_ b /\ pid ∉ D.

Lemma live_page_ok b m e W D c hole pid : core b m e W D c hole -> live b D pid -> page_ok pid.
Proof. intros Hc [Hp _]. pose proof (c_next _ _ _ _ _ _ _ Hc). unfold page_ok. lia. Qed.

Lemma content_eq b m pid : pt_ok (page_table_ b) m ->
  content b pid = match m !! pid with
                  | Some f => match page_of b f with Some p => data_ p | None => [] end
                  | None => disk_page b pid
                  end.
Proof.
  intros Ht. unfold content. rewrite (pt_find_ok _ _ _ Ht). destruct (m !! pid); [|done].
  rewrite get_page_of. by destruct (page_of b z).
Qed.

Lemma page_of_some b m e W D c hole f : core b m e W D c hole -> 0 <= f < pool_size_ b ->
  exists p, page_of b f = Some p.
Proof. intros Hc Hf. apply page_of_is_Some. destruct (c_size _ _ _ _ _ _ _ Hc) as [_ ->]. done. Qed.

Lemma map_inj b m e W D c hole pid pid' f :
  core b m e W D c hole -> m !! pid = Some f -> m !! pid' = Some f -> pid = pid'.
Proof.
  intros Hc [_ (p & Hp & <-)]%(c_map _ _ _ _ _ _ _ Hc) [_ (p' & Hp' & <-)]%(c_map _ _ _ _ _ _ _ Hc).
  congruence.
Qed.

(** ** Taking a frame *)

(** What a taken frame may still hold. *)
Definition taken b (m : gmap Z Z) (D : gset Z) (f : Z) (p : Page) : Prop :=
  (stale D p /\ m !! page_id_ p = None) \/
  (m !! page_id_ p = Some f /\ live b D (page_id_ p) /\
   (is_dirty_ p = false -> data_ p = disk_page b (page_id_ p))).

Lemma stale_unmapped b m e W D c hole p :
  core b m e W D c hole -> stale D p -> m !! page_id_ p = None.
Proof.
  intros Hc Hs. destruct (m !! page_id_ p) as [f|] eqn:E; [|done].
  apply (c_map _ _ _ _ _ _ _ Hc) in E as [Hres (p' & Hp' & Heq)].
  destruct (c_pid _ _ _ _ _ _ _ Hc _ _ Hres Hp') as [Hpid HnD]. rewrite Heq in *.
  destruct Hs as [[Hs _]|Hs]; [rewrite Hs in Hpid; unfold INVALID_PAGE_ID in Hpid; lia|done].
Qed.

Lemma take_free_core b m e W D c f l p :
  core b m e W D c None -> free_list_ b = f :: l -> page_of b f = Some p ->
  core (set_free b l) m e W D c (Some f) /\ stale D p.
Proof.
  intros Hc Hfree Hp. pose proof (c_nodup _ _ _ _ _ _ _ Hc) as Hnd. rewrite Hfree in Hnd.
  apply NoDup_cons in Hnd as [Hni Hnd].
  assert (Hf : f ∈ free_list_ b) by (rewrite Hfree; left).
  assert (Hres : forall g, resident (set_free b l) (Some f) g <-> resident b None g).
  { intros g. unfold resident. simpl. rewrite Hfree, not_elem_of_cons. naive_solver. }
  assert (Hpg : forall g, page_of (set_free b l) g = page_of b g) by done.
  split; [|by eapply c_stale].
  destruct Hc as [C1 C2 C3 C4 C5 C6 C7 C8 C9 C10 C11 C12 C13 C14 C15 C16 C17].
  split; try done.
  - intros g Hg. destruct (C6 g) as [? ?]; [rewrite Hfree; by right|].
    split; [done|]. intros [= ->]. done.
  - intros g p' Hg. apply C7. rewrite Hfree. by right.
  - intros pid g. by rewrite Hres, C8.
  - intros g p' Hg%Hres. by apply C9.
  - intros g p' Hg%Hres. by apply C10.
  - intros g p' Hg%Hres. by apply C11.
  - intros g [= <-]. destruct (C6 f Hf) as [? _]. split; [done|].
    intros Hw. by apply C13 in Hw as [(_ & Hno & _) _].
  - intros g Hg. rewrite Hres. by apply C13.
  - intros g x Hg. apply Hres. by eapply C17.
Qed.

Lemma take_evicted_core b m e W D c f p r :
  core b m e W D c None -> free_list_ b = [] -> page_of b f = Some p ->
  e !! f = Some true -> rp_ok (pool_size_ b) r (delete f e) c ->
  core (set_replacer b r) (delete (page_id_ p) m) (delete f e) W D c (Some f) /\
  m !! page_id_ p = Some f /\ live b D (page_id_ p) /\
  (is_dirty_ p = false -> data_ p = disk_page b (page_id_ p)).
Proof.
  intros Hc Hfree Hp He Hr.
  assert (Hf : 0 <= f < pool_size_ b).
  { rewrite <- (proj2 (c_size _ _ _ _ _ _ _ Hc)). apply page_of_is_Some. eauto. }
  assert (Hrf : resident b None f) by (split_and!; [lia|lia|rewrite Hfree; apply not_elem_of_nil|done]).
  assert (Hres : forall g, resident (set_replacer b r) (Some f) g <-> resident b None g /\ g <> f).
  { intros g. unfold resident. simpl. naive_solver. }
  assert (Hm : m !! page_id_ p = Some f) by (apply (c_map _ _ _ _ _ _ _ Hc); eauto).
  destruct (c_pid _ _ _ _ _ _ _ Hc _ _ Hrf Hp) as [Hpid HnD].
  destruct (c_pin _ _ _ _ _ _ _ Hc _ _ Hrf Hp) as [_ Hpin]. rewrite He in Hpin.
  injection Hpin as Hpin. symmetry in Hpin. apply bool_decide_eq_true in Hpin.
  assert (HW : f ∉ W).
  { intros Hw. apply (c_W _ _ _ _ _ _ _ Hc) in Hw as [_ (p' & Hp' & Hpos)]. simplify_eq. lia. }
  split; [|split_and!; [done|done|]; intros Hd; by eapply (c_clean _ _ _ _ _ _ _ Hc)].
  destruct Hc as [C1 C2 C3 C4 C5 C6 C7 C8 C9 C10 C11 C12 C13 C14 C15 C16 C17].
  split; try done; auto.
  - intros g Hg. simpl in Hg. rewrite Hfree in Hg. by apply not_elem_of_nil in Hg.
  - intros pid g. rewrite lookup_delete_Some, C8, Hres. split.
    + intros (Hne & Hg & p' & Hp' & <-). split; [|by eauto]. split; [done|]. intros ->. congruence.
    + intros ([Hg Hgf] & p' & Hp' & <-). split; [|by eauto]. intros Heq. apply Hgf.
      assert (m !! page_id_ p' = Some g) by (apply C8; eauto). congruence.
  - intros g p' [Hg _]%Hres. by apply C9.
  - intros g p' [Hg Hgf]%Hres Hp'. rewrite lookup_delete_ne by done. by apply C10.
  - intros g p' [Hg _]%Hres. by apply C11.
  - intros g [= <-]. done.
  - intros g Hg. destruct (C13 g Hg) as [Hrg Hpg]. split; [|done]. apply Hres. split; [done|]. by intros ->.
  - intros g x [Hne Hg]%lookup_delete_Some. apply Hres. split; [by eapply C17|done].
Qed.

(** The frame holds no page, or one nobody uses. *)
Definition unpinned_before b (f : Z) : Prop :=
  forall p, resident b None f -> page_of b f = Some p -> pin_count_ p = 0.

Lemma set_replacer_id b : set_replacer b (replacer_ b) = b.
Proof. by destruct b. Qed.

Lemma take_frame_spec b m e W D c :
  core b m e W D c None ->
  (take_frame b = Ret (None, b) /\ free_list_ b = [] /\
   forall f p, page_of b f = Some p -> 0 < pin_count_ p) \/
  (exists b1 e1 f p, take_frame b = Ret (Some f, b1) /\
     core b1 (delete (page_id_ p) m) e1 W D c (Some f) /\ page_of b f = Some p /\
     taken b m D f p /\ page_table_ b1 = page_table_ b /\ pages_ b1 = pages_ b /\
     disk_manager_ b1 = disk_manager_ b /\ next_page_id_ b1 = next_page_id_ b /\
     pool_size_ b1 = pool_size_ b /\ unpinned_before b f).
Proof.
  intros Hc. unfold take_frame. pose proof (c_rep _ _ _ _ _ _ _ Hc) as Hr.
  destruct (free_list_ b) as [|f l] eqn:Hfree.
  - destruct (decide (map_Exists (fun _ x => x = true) e)) as [(f & x & He & ->)|Hno].
    + right. destruct (rp_evict_some _ _ _ _ f Hr He) as (v & r' & HE & Hv & Hr').
      destruct (c_tracked _ _ _ _ _ _ _ Hc _ _ Hv) as [Hrange _].
      destruct (page_of_some _ _ _ _ _ _ _ _ Hc Hrange) as [p Hp].
      destruct (take_evicted_core _ _ _ _ _ _ _ _ _ Hc Hfree Hp Hv Hr') as (Hc' & Hm & Hl & Hcl).
      rewrite HE. exists (set_replacer b r'), (delete v e), v, p. split_and!; try done; [by right|].
      intros p' Hv' Hp'. destruct (c_pin _ _ _ _ _ _ _ Hc _ _ Hv' Hp') as [_ He']. rewrite Hv in He'.
      injection He' as He'. symmetry in He'. by apply bool_decide_eq_true in He'.
    + left. rewrite (rp_evict_none _ _ _ _ Hr) by (intros f Hf; apply Hno; exists f; eauto).
      simpl. rewrite set_replacer_id. split_and!; [done|done|]. intros f p Hp.
      assert (Hf : resident b None f).
      { split_and!; [| |rewrite Hfree; apply not_elem_of_nil|done];
        pose proof (proj1 (page_of_is_Some b f) ltac:(eauto)); pose proof (c_size _ _ _ _ _ _ _ Hc); lia. }
      destruct (c_pin _ _ _ _ _ _ _ Hc _ _ Hf Hp) as [Hpos He].
      case_bool_decide; [|lia]. exfalso. apply Hno. exists f. eauto.
  - right. assert (Hrange : 0 <= f < pool_size_ b)
      by (apply (c_free _ _ _ _ _ _ _ Hc); rewrite Hfree; left).
    destruct (page_of_some _ _ _ _ _ _ _ _ Hc Hrange) as [p Hp].
    destruct (take_free_core _ _ _ _ _ _ _ _ _ Hc Hfree Hp) as [Hc' Hs].
    pose proof (stale_unmapped _ _ _ _ _ _ _ _ Hc Hs) as Hm.
    exists (set_free b l), e, f, p. split_and!; try done; [by rewrite delete_id|by left|].
    intros p' (_ & Hnf & _) _. destruct Hnf. rewrite Hfree. left.
Qed.

(** ** Cleaning and filling a taken frame *)

Lemma core_set_table b m e W D c hole t :
  core b m e W D c hole -> core (set_table b t) m e W D c hole.
Proof. intros []. by split. Qed.

Lemma core_set_disk_weak b m e W D c hole d :
  core b m e W D c hole -> disk_ok d ->
  (forall f p, resident b hole f -> page_of b f = Some p -> is_dirty_ p = false -> f ∉ W ->
     page_at (contents (db_io_ d)) (page_id_ p) = disk_page b (page_id_ p)) ->
  (forall q, next_page_id_ b <= q -> page_ok q -> page_at (contents (db_io_ d)) q = disk_page b q) ->
  core (set_disk b d) m e W D c hole.
Proof.
  intros [C1 C2 C3 C4 C5 C6 C7 C8 C9 C10 C11 C12 C13 C14 C15 C16 C17] Hd Hd1 Hd2. split; try done.
  - intros f p Hf Hp Hdirty HW. rewrite (C11 f p) by done. symmetry. by eapply Hd1.
  - intros q Hq Hok. unfold disk_page. simpl. rewrite Hd2 by done. by apply C16.
Qed.

Lemma core_set_disk b m e W D c hole d :
  core b m e W D c hole -> disk_ok d ->
  (forall q, 0 <= q < next_page_id_ b -> q ∉ D -> is_Some (m !! q) ->
     page_at (contents (db_io_ d)) q = disk_page b q) ->
  (forall q, next_page_id_ b <= q -> page_ok q -> page_at (contents (db_io_ d)) q = disk_page b q) ->
  core (set_disk b d) m e W D c hole.
Proof.
  intros Hc Hd Hd1 Hd2. apply core_set_disk_weak; auto. intros f p Hf Hp _ _.
  destruct (c_pid _ _ _ _ _ _ _ Hc f p Hf Hp). apply Hd1; [done|done|].
  exists f. apply (c_map _ _ _ _ _ _ _ Hc). eauto.
Qed.

Lemma core_put_hole b m e W D c f p :
  core b m e W D c (Some f) -> length (data_ p) = Z.to_nat BUSTUB_PAGE_SIZE ->
  core (put_page b f p) m e W D c (Some f).
Proof.
  intros Hc Hl. pose proof (c_size _ _ _ _ _ _ _ Hc) as [Hs1 Hs2].
  pose proof (c_hole _ _ _ _ _ _ _ Hc f eq_refl) as [Hf _].
  assert (Hpg : forall g, g <> f -> page_of (put_page b f p) g = page_of b g).
  { intros g Hg. rewrite page_of_put by lia. by rewrite decide_False. }
  assert (Hres : forall g, resident b (Some f) g -> g <> f) by (intros g (_ & _ & Hne); congruence).
  destruct Hc as [C1 C2 C3 C4 C5 C6 C7 C8 C9 C10 C11 C12 C13 C14 C15 C16 C17]. split; try done.
  - rewrite zlen_put. done.
  - intros g p' Hg. destruct (C6 g Hg). rewrite Hpg by congruence. by apply C7.
  - intros pid g. rewrite C8. split; intros (Hr & p' & Hp'); (split; [done|]);
      exists p'; [rewrite Hpg by (by apply Hres)|rewrite Hpg in Hp' by (by apply Hres)]; done.
  - intros g p' Hr. rewrite Hpg by (by apply Hres). by apply C9.
  - intros g p' Hr. rewrite Hpg by (by apply Hres). by apply C10.
  - intros g p' Hr. rewrite Hpg by (by apply Hres). by apply C11.
  - intros g Hg. destruct (C13 g Hg) as (Hr & p' & Hp'). split; [done|]. exists p'.
    rewrite Hpg by (by apply Hres). done.
  - intros g p'. rewrite page_of_put by lia. case_decide; [by intros [= <-]|by apply C15].
Qed.

Lemma clean_frame_spec b m1 e W D c f p :
  core b (delete (page_id_ p) m1) e W D c (Some f) -> page_of b f = Some p ->
  pt_ok (page_table_ b) m1 -> stale D p \/ live b D (page_id_ p) ->
  exists b', clean_frame b f = Ret b' /\ core b' (delete (page_id_ p) m1) e W D c (Some f) /\
    pt_ok (page_table_ b') (delete (page_id_ p) m1) /\
    page_of b' f = Some (mkPage zero_page (page_id_ p) (pin_count_ p) false) /\
    (forall g, g <> f -> page_of b' g = page_of b g) /\ next_page_id_ b' = next_page_id_ b /\
    pool_size_ b' = pool_size_ b /\
    (forall q, 0 <= q -> disk_page b' q =
       if decide (is_dirty_ p = true /\ q = page_id_ p) then data_ p else disk_page b q).
Proof.
  intros Hc Hp Ht Hold. pose proof (c_hole _ _ _ _ _ _ _ Hc f eq_refl) as [Hf _].
  pose proof (c_size _ _ _ _ _ _ _ Hc) as [_ Hs2].
  destruct (pt_remove_ok _ _ (page_id_ p) Ht) as (t' & HR & Ht').
  unfold clean_frame. rewrite get_page_of, Hp. cbn [of_option obind].
  destruct (is_dirty_ p) eqn:Hd.
  - assert (Hpid : 0 <= page_id_ p < next_page_id_ b).
    { destruct Hold as [[[_ ?]|HD]|[Hl _]]; [congruence|by apply (c_D _ _ _ _ _ _ _ Hc)|done]. }
    assert (Hok : page_ok (page_id_ p))
      by (pose proof (c_next _ _ _ _ _ _ _ Hc); unfold page_ok; lia).
    pose proof (c_len _ _ _ _ _ _ _ Hc _ _ Hp) as Hlen.
    destruct (WritePage_spec _ _ _ (c_disk _ _ _ _ _ _ _ Hc) Hok Hlen) as (Hdk & Hcon & _).
    cbn [page_table_ set_disk page_id_]. rewrite HR. cbn [obind].
    eexists. split; [reflexivity|]. split_and!; try done.
    + apply core_put_hole; [|apply length_zero_page]. apply core_set_table, core_set_disk; auto.
      * intros q Hq HD. rewrite lookup_delete_is_Some. intros [Hne _].
        unfold disk_page. rewrite Hcon, page_at_pwrite by (done || lia). by rewrite decide_False by congruence.
      * intros q Hq Hqok. unfold disk_page. rewrite Hcon, page_at_pwrite by (done || lia).
        by rewrite decide_False by lia.
    + rewrite page_of_put by (simpl; lia). by rewrite decide_True.
    + intros g Hg. rewrite page_of_put by (simpl; lia). by rewrite decide_False.
    + intros q Hq. unfold disk_page. cbn [disk_manager_ put_page set_pages set_table set_disk].
      rewrite Hcon, page_at_pwrite by (done || lia). repeat case_decide; naive_solver.
  - rewrite HR. cbn [obind]. eexists. split; [reflexivity|]. split_and!; try done.
    + apply core_put_hole; [|apply length_zero_page]. by apply core_set_table.
    + rewrite page_of_put by (simpl; lia). rewrite decide_True by done. unfold ResetMemory. by rewrite Hd.
    + intros g Hg. rewrite page_of_put by (simpl; lia). by rewrite decide_False.
Qed.

Hypothesis max_key_ok : 2 ^ 19 <= maxk.

Lemma core_install b m e W D c f p pid t r :
  core b m e W D c (Some f) -> page_of b f = Some p -> is_dirty_ p = false ->
  data_ p = disk_page b pid -> 0 <= pid < next_page_id_ b -> pid ∉ D -> m !! pid = None ->
  rp_ok (pool_size_ b) r (<[f := false]> e) (c - 1) ->
  core (set_replacer (put_page (set_table b t) f (mkPage (data_ p) pid 1 (is_dirty_ p))) r)
    (<[pid := f]> m) (<[f := false]> e) W D (c - 1) None.
Proof.
  intros Hc Hp Hd Hdata Hpid HD Hm Hr. pose proof (c_hole _ _ _ _ _ _ _ Hc f eq_refl) as [Hf HW].
  pose proof (c_size _ _ _ _ _ _ _ Hc) as [_ Hs2]. pose proof (c_len _ _ _ _ _ _ _ Hc _ _ Hp) as Hlen.
  set (b' := set_replacer _ r).
  assert (Hpg : forall g, page_of b' g =
    if decide (g = f) then Some (mkPage (data_ p) pid 1 (is_dirty_ p)) else page_of b g).
  { intros g. unfold b'. change (page_of (set_replacer ?x r) g) with (page_of x g).
    rewrite page_of_put by (simpl; lia). done. }
  assert (Hff : f ∉ free_list_ b) by (intros Hin; by destruct (c_free _ _ _ _ _ _ _ Hc f Hin)).
  assert (Hres : forall g, resident b' None g <-> g = f \/ resident b (Some f) g).
  { intros g. unfold resident. simpl. destruct (decide (g = f)) as [->|]; naive_solver lia. }
  assert (Hnot : forall g, resident b (Some f) g -> g <> f) by (intros g (_ & _ & ?); congruence).
  destruct Hc as [C1 C2 C3 C4 C5 C6 C7 C8 C9 C10 C11 C12 C13 C14 C15 C16 C17]. split; try done.
  - unfold b'. cbn [pages_ set_replacer pool_size_]. rewrite zlen_put. done.
  - intros g Hg. split; [by apply C6|done].
  - intros g p' Hg. destruct (C6 g Hg). rewrite Hpg, decide_False by congruence. by apply C7.
  - intros q g. rewrite Hres. destruct (decide (q = pid)) as [->|Hq].
    + rewrite lookup_insert_eq. split.
      * intros [= <-]. split; [by left|]. rewrite Hpg, decide_True by done. eauto.
      * intros [[->|Hg] (p' & Hp' & Hid)]; [done|]. exfalso.
        rewrite Hpg, decide_False in Hp' by (by apply Hnot).
        assert (m !! pid = Some g) by (apply C8; eauto). congruence.
    + rewrite lookup_insert_ne, C8 by done. split.
      * intros [Hg (p' & Hp' & Hid)]. split; [by right|]. exists p'.
        rewrite Hpg, decide_False by (by apply Hnot). done.
      * intros [[->|Hg] (p' & Hp' & Hid)].
        -- rewrite Hpg, decide_True in Hp' by done. simplify_eq/=.
        -- rewrite Hpg, decide_False in Hp' by (by apply Hnot). eauto.
  - intros g p' Hg. rewrite Hpg. case_decide; [intros [= <-]; by simpl|].
    apply Hres in Hg as [->|Hg]; [done|]. by apply C9.
  - intros g p' Hg. rewrite Hpg. case_decide as E; [subst; intros [= <-]; rewrite lookup_insert_eq; simpl; split; [lia|done]|].
    apply Hres in Hg as [->|Hg]; [done|]. rewrite lookup_insert_ne by done. by apply C10.
  - intros g p' Hg. rewrite Hpg. case_decide as E; [intros [= <-]; by simpl|].
    apply Hres in Hg as [->|Hg]; [done|]. by apply C11.
  - intros g Hg. destruct (C13 g Hg) as (Hr' & p' & Hp'). split; [apply Hres; by right|]. exists p'.
    rewrite Hpg, decide_False by (by apply Hnot). done.
  - intros g p'. rewrite Hpg. case_decide; [by intros [= <-]|by apply C15].
  - intros g x. rewrite lookup_insert_Some. rewrite Hres. intros [[<- _]|[_ Hg]]; [by left|right].
    by eapply C17.
Qed.

Lemma install_page_spec b m e W D c f p pid :
  core b m e W D c (Some f) -> page_of b f = Some p -> is_dirty_ p = false ->
  data_ p = disk_page b pid -> 0 <= pid < next_page_id_ b -> pid ∉ D -> m !! pid = None ->
  pt_ok (page_table_ b) m -> 0 < c ->
  exists b' e', install_page b f pid = Ret b' /\ pt_ok (page_table_ b') (<[pid := f]> m) /\
    core b' (<[pid := f]> m) e' W D (c - 1) None /\
    page_of b' f = Some (mkPage (data_ p) pid 1 false) /\
    (forall g, g <> f -> page_of b' g = page_of b g) /\ next_page_id_ b' = next_page_id_ b /\
    pool_size_ b' = pool_size_ b /\ disk_manager_ b' = disk_manager_ b.
Proof.
  intros Hc Hp Hd Hdata Hpid HD Hm Ht Hpos. pose proof (c_hole _ _ _ _ _ _ _ Hc f eq_refl) as [Hf _].
  pose proof (c_size _ _ _ _ _ _ _ Hc) as [_ Hs2]. pose proof (c_next _ _ _ _ _ _ _ Hc).
  destruct (pt_insert_ok _ _ pid f Ht) as (t' & HI & Ht'); [lia|].
  unfold install_page. rewrite HI. cbn [obind]. rewrite get_page_of, Hp. cbn [of_option obind].
  cbn [replacer_ put_page set_pages set_table].
  destruct (rp_record_ok _ _ _ _ f (c_rep _ _ _ _ _ _ _ Hc)) as (r' & HR & Hr'); [done|done|].
  rewrite HR. cbn [obind]. apply (rp_set_ok _ _ _ _ f false) in Hr'. rewrite alter_insert_eq in Hr'.
  eexists _, _. split; [reflexivity|]. split_and!; try done.
  - by apply core_install.
  - change (page_of (set_replacer ?x ?y) f) with (page_of x f).
    rewrite page_of_put by (simpl; lia). rewrite decide_True by done. by rewrite Hd.
  - intros g Hg. change (page_of (set_replacer ?x ?y) g) with (page_of x g).
    rewrite page_of_put by (simpl; lia). by rewrite decide_False.
Qed.

(** ** The contents of pages *)

(** Writing back and unmapping the page of a taken frame keeps every live page. *)
Lemma clean_content b b2 m e W D c f p q :
  core b m e W D c None -> pt_ok (page_table_ b) m -> page_of b f = Some p -> taken b m D f p ->
  pt_ok (page_table_ b2) (delete (page_id_ p) m) ->
  (forall g, g <> f -> page_of b2 g = page_of b g) ->
  (forall q, 0 <= q -> disk_page b2 q =
     if decide (is_dirty_ p = true /\ q = page_id_ p) then data_ p else disk_page b q) ->
  live b D q -> content b2 q = content b q.
Proof.
  intros Hc Ht Hp Htk Ht2 Hpg Hdk [Hq HqD]. rewrite (content_eq _ _ _ Ht), (content_eq _ _ _ Ht2).
  destruct (decide (q = page_id_ p)) as [->|Hne].
  - rewrite lookup_delete_eq, Hdk by lia. destruct Htk as [[Hs Hm]|(Hm & Hl & Hcl)]; rewrite Hm.
    + destruct Hs as [[Hs _]|Hs]; [rewrite Hs in Hq; unfold INVALID_PAGE_ID in Hq; lia|done].
    + rewrite Hp. destruct (is_dirty_ p); [by rewrite decide_True|].
      rewrite decide_False by naive_solver. symmetry. by apply Hcl.
  - rewrite lookup_delete_ne by done. destruct (m !! q) as [g|] eqn:Hm.
    + rewrite Hpg; [done|]. intros ->. apply (c_map _ _ _ _ _ _ _ Hc) in Hm as (_ & p' & Hp' & <-). congruence.
    + rewrite Hdk by lia. by rewrite decide_False by naive_solver.
Qed.

Lemma install_content b b' m e W D c f p pid q :
  core b m e W D c (Some f) -> pt_ok (page_table_ b) m -> pt_ok (page_table_ b') (<[pid := f]> m) ->
  page_of b' f = Some p -> (forall g, g <> f -> page_of b' g = page_of b g) ->
  disk_manager_ b' = disk_manager_ b ->
  content b' q = if decide (q = pid) then data_ p else content b q.
Proof.
  intros Hc Ht Ht' Hp Hpg Hdk. rewrite (content_eq _ _ _ Ht), (content_eq _ _ _ Ht').
  case_decide as E; [subst; by rewrite lookup_insert_eq, Hp|].
  rewrite lookup_insert_ne by done. destruct (m !! q) as [g|] eqn:Hm; [|unfold disk_page; by rewrite Hdk].
  rewrite Hpg; [done|]. apply (c_map _ _ _ _ _ _ _ Hc) in Hm as [(_ & _ & Hne) _]. congruence.
Qed.

Lemma core_allocate b m e W D c hole :
  core b m e W D c hole -> next_page_id_ b < 2 ^ 19 - 1 ->
  core (AllocatePage b).2 m e W D c hole /\ next_page_id_ (AllocatePage b).2 = next_page_id_ b + 1.
Proof.
  intros Hc Hlt. assert (Hn : next_page_id_ (AllocatePage b).2 = next_page_id_ b + 1).
  { simpl. apply swrap_id; [lia|]. unfold sfits. pose proof (c_next _ _ _ _ _ _ _ Hc). simpl. lia. }
  split; [|done].
  destruct Hc as [C1 C2 C3 C4 C5 C6 C7 C8 C9 C10 C11 C12 C13 C14 C15 C16 C17]. split; try done.
  - rewrite Hn. lia.
  - intros f p Hf Hp. rewrite Hn. destruct (C9 f p Hf Hp). split; [lia|done].
  - intros pid Hpid. rewrite Hn. specialize (C14 _ Hpid). lia.
  - intros pid Hpid. rewrite Hn in Hpid. apply C16. lia.
Qed.

Lemma read_into_frame_spec b m e W D c f p pid :
  core b m e W D c (Some f) -> page_of b f = Some p -> data_ p = zero_page -> page_ok pid ->
  exists b', read_into_frame b f pid = Ret b' /\ core b' m e W D c (Some f) /\
    page_of b' f = Some (mkPage (disk_page b pid) (page_id_ p) (pin_count_ p) (is_dirty_ p)) /\
    (forall g, g <> f -> page_of b' g = page_of b g) /\ next_page_id_ b' = next_page_id_ b /\
    pool_size_ b' = pool_size_ b /\ page_table_ b' = page_table_ b /\ (forall q, disk_page b' q = disk_page b q).
Proof.
  intros Hc Hp Hz Hok. pose proof (c_hole _ _ _ _ _ _ _ Hc f eq_refl) as [Hf _].
  pose proof (c_size _ _ _ _ _ _ _ Hc) as [_ Hs2].
  unfold read_into_frame. rewrite get_page_of, Hp. cbn [of_option obind]. rewrite Hz.
  destruct (ReadPage_zero _ pid (c_disk _ _ _ _ _ _ _ Hc) Hok) as (d' & HR & Hd' & Hcon).
  rewrite HR. eexists. split; [reflexivity|]. split_and!; try done.
  - apply core_put_hole; [|apply length_page_at].
    apply core_set_disk; auto; intros q **; by rewrite Hcon.
  - rewrite page_of_put by (simpl; lia). by rewrite decide_True.
  - intros g Hg. rewrite page_of_put by (simpl; lia). by rewrite decide_False.
  - intros q. unfold disk_page. simpl. by rewrite Hcon.
Qed.

Lemma content_disk_eq b b' m q :
  pt_ok (page_table_ b) m -> page_table_ b' = page_table_ b ->
  (forall g, m !! q = Some g -> page_of b' g = page_of b g) ->
  disk_page b' q = disk_page b q -> content b' q = content b q.
Proof.
  intros Ht Htt Hpg Hd. rewrite (content_eq b m) by done. rewrite (content_eq b' m) by by rewrite Htt.
  destruct (m !! q) as [g|] eqn:E; [|done]. by rewrite Hpg.
Qed.

(** ** Changing a resident frame *)

Lemma core_update b m e W D c f p p' r e' W' c' :
  core b m e W D c None -> resident b None f -> page_of b f = Some p ->
  page_id_ p' = page_id_ p -> length (data_ p') = Z.to_nat BUSTUB_PAGE_SIZE ->
  0 <= pin_count_ p' < 2 ^ 31 -> rp_ok (pool_size_ b) r e' c' ->
  e' !! f = Some (bool_decide (pin_count_ p' = 0)) -> (forall g, g <> f -> e' !! g = e !! g) ->
  (is_dirty_ p' = false -> f ∉ W' -> data_ p' = disk_page b (page_id_ p)) ->
  (forall g, g <> f -> g ∈ W' <-> g ∈ W) -> (f ∈ W' -> 0 < pin_count_ p') ->
  core (put_page (set_replacer b r) f p') m e' W' D c' None.
Proof.
  intros Hc Hf Hp Hid Hlen Hpin Hr Hef Heg Hcl HWg HWf.
  pose proof (c_size _ _ _ _ _ _ _ Hc) as [_ Hs2]. pose proof Hf as (Hrange & Hnf & _).
  assert (Hpg : forall g, page_of (put_page (set_replacer b r) f p') g =
    if decide (g = f) then Some p' else page_of b g)
    by (intros g; rewrite page_of_put by (simpl; lia); done).
  destruct Hc as [C1 C2 C3 C4 C5 C6 C7 C8 C9 C10 C11 C12 C13 C14 C15 C16 C17]. split; try done.
  - rewrite zlen_put. done.
  - intros g p0 Hg. rewrite Hpg, decide_False by (intros ->; done). by apply C7.
  - intros q g. rewrite C8. split; intros (Hg & p0 & Hp0 & <-); (split; [done|]);
      destruct (decide (g = f)) as [->|Hne].
    + exists p'. rewrite Hpg, decide_True by done. split; [done|]. congruence.
    + exists p0. by rewrite Hpg, decide_False by done.
    + exists p. rewrite Hpg, decide_True in Hp0 by done. split; [done|]. congruence.
    + exists p0. by rewrite Hpg, decide_False in Hp0 by done.
  - intros g p0 Hg. rewrite Hpg. destruct (decide (g = f)) as [->|E]; [|by apply C9]. intros [= <-].
    rewrite Hid. by apply (C9 f).
  - intros g p0 Hg. rewrite Hpg. destruct (decide (g = f)) as [->|E]; [by intros [= <-]|].
    rewrite Heg by done. by apply C10.
  - intros g p0 Hg. rewrite Hpg. destruct (decide (g = f)) as [->|E].
    + intros [= <-] Hd HW. rewrite Hid. by apply Hcl.
    + intros Hp0 Hd HW. apply (C11 g p0); auto. by rewrite <- HWg.
  - intros g Hg. rewrite Hpg. destruct (decide (g = f)) as [->|Hne]; [eauto|].
    apply C13. by apply HWg.
  - intros g p0. rewrite Hpg. destruct (decide (g = f)) as [->|E]; [by intros [= <-]|by apply C15].
  - intros g x. destruct (decide (g = f)) as [->|Hne]; [done|]. rewrite Heg by done. apply C17.
Qed.

Lemma update_content b m f p' r pid :
  pt_ok (page_table_ b) m -> 0 <= f < zlen (pages_ b) -> m !! pid = Some f ->
  content (put_page (set_replacer b r) f p') pid = data_ p'.
Proof.
  intros Ht Hf Hm. rewrite (content_eq _ m) by done. rewrite Hm.
  rewrite page_of_put by (simpl; lia). by rewrite decide_True.
Qed.

Lemma update_content_other b m f p p' r q :
  pt_ok (page_table_ b) m -> page_of b f = Some p ->
  m !! q <> Some f \/ data_ p' = data_ p ->
  content (put_page (set_replacer b r) f p') q = content b q.
Proof.
  intros Ht Hp Hor. pose proof (proj1 (page_of_is_Some b f) ltac:(eauto)) as Hf.
  rewrite (content_eq b m) by done. rewrite (content_eq _ m) by done.
  destruct (m !! q) as [g|]; [|done]. rewrite page_of_put by (simpl; lia).
  destruct (decide (g = f)) as [->|E]; [|done]. rewrite Hp. naive_solver.
Qed.

Lemma find_resident b m e W D c pid :
  pt_ok (page_table_ b) m -> core b m e W D c None ->
  match m !! pid with
  | None => pt_find (page_table_ b) pid = Ret None
  | Some f => pt_find (page_table_ b) pid = Ret (Some f) /\ resident b None f /\
      exists p, page_of b f = Some p /\ page_id_ p = pid
  end.
Proof.
  intros Ht Hc. rewrite (pt_find_ok _ _ _ Ht). destruct (m !! pid) as [f|] eqn:E; [|done].
  apply (c_map _ _ _ _ _ _ _ Hc) in E as [Hf Hp]. auto.
Qed.

(** ** Specifications of the operations *)

(** No frame is free and all are pinned. *)
Definition all_pinned b : Prop :=
  free_list_ b = [] /\ forall f p, page_of b f = Some p -> 0 < pin_count_ p.

(** Every live page keeps its bytes. *)
Definition same_pages (D : gset Z) b b' : Prop := forall q, live b D q -> content b' q = content b q.

(** The frame is pinned and holds the page with these bytes. *)
Definition holds b (f pid : Z) (data : list Z) : Prop :=
  exists p, page_of b f = Some p /\ page_id_ p = pid /\ 0 < pin_count_ p /\ data_ p = data.

(** All frames but one are as before. *)
Definition kept_frames b b' (f : Z) : Prop :=
  pool_size_ b' = pool_size_ b /\
  forall g, g <> f -> page_of b' g = page_of b g /\ (resident b' None g <-> resident b None g).

(** Giving a frame another page keeps the other frames. *)
Lemma kept_frames_move b b' m e e' W D c c' f p pid :
  core b m e W D c None -> core b' (<[pid := f]> (delete (page_id_ p) m)) e' W D c' None ->
  page_of b f = Some p -> taken b m D f p -> m !! pid = None -> pool_size_ b' = pool_size_ b ->
  (forall g, g <> f -> page_of b' g = page_of b g) -> kept_frames b b' f.
Proof.
  intros Hc Hc' Hp Htk Hout Hsize Hpg. split; [done|]. intros g Hg. split; [by apply Hpg|].
  assert (Hmap : forall pg, page_of b g = Some pg ->
    (<[pid := f]> (delete (page_id_ p) m) !! page_id_ pg = Some g <-> m !! page_id_ pg = Some g)).
  { intros pg Hpg'. destruct (decide (page_id_ pg = pid)) as [->|Hne].
    - rewrite lookup_insert_eq, Hout. split; congruence.
    - rewrite lookup_insert_ne by done. destruct (decide (page_id_ pg = page_id_ p)) as [->|Hne'].
      + rewrite lookup_delete_eq. split; [done|]. intros Hm. destruct Htk as [[_ Hm']|[Hm' _]]; congruence.
      + by rewrite lookup_delete_ne. }
  split; intros Hr.
  - destruct (page_of_some b' _ _ _ _ _ _ g Hc') as [pg Hpg']; [apply Hr|]. rewrite Hpg in Hpg' by done.
    apply (c_map _ _ _ _ _ _ _ Hc (page_id_ pg) g). apply Hmap; [done|].
    apply (c_map _ _ _ _ _ _ _ Hc'). split; [done|]. exists pg. by rewrite Hpg.
  - destruct (page_of_some b _ _ _ _ _ _ g Hc) as [pg Hpg']; [apply Hr|].
    apply (c_map _ _ _ _ _ _ _ Hc' (page_id_ pg) g). apply Hmap; [done|].
    apply (c_map _ _ _ _ _ _ _ Hc). eauto.
Qed.

Lemma kept_frames_put b r f p : 0 <= f < zlen (pages_ b) -> kept_frames b (put_page (set_replacer b r) f p) f.
Proof. intros Hf. split; [done|]. intros g Hg. rewrite page_of_put by (simpl; lia). by rewrite decide_False. Qed.

(** What a fetch does to the frame it returns: one more pin, or the page comes into a
    frame nobody uses. *)
Definition fetched b b' (f pid : Z) : Prop :=
  (exists p, resident b None f /\ page_of b f = Some p /\ page_id_ p = pid /\
     page_of b' f = Some (mkPage (data_ p) pid (pin_count_ p + 1) (is_dirty_ p))) \/
  (unpinned_before b f /\ (forall g p, resident b None g -> page_of b g = Some p -> page_id_ p <> pid) /\
   page_of b' f = Some (mkPage (content b pid) pid 1 false)).

Lemma NewPgImp_spec b W D c :
  inv b W D c -> 0 < c -> next_page_id_ b < 2 ^ 19 - 1 ->
  (NewPgImp b = Ret (None, b) /\ all_pinned b) \/
  exists f b', NewPgImp b = Ret (Some (f, next_page_id_ b), b') /\ inv b' W D (c - 1) /\
    next_page_id_ b' = next_page_id_ b + 1 /\ resident b' None f /\
    page_of b' f = Some (mkPage zero_page (next_page_id_ b) 1 false) /\
    content b' (next_page_id_ b) = zero_page /\ same_pages D b b' /\
    kept_frames b b' f /\ unpinned_before b f.
Proof.
  intros (m & e & Ht & Hc) Hpos Hnext. unfold NewPgImp.
  destruct (take_frame_spec _ _ _ _ _ _ Hc) as
    [(HT & Hfree & Hall)|(b1 & e1 & f & p & HT & Hc1 & Hp & Htk & Et & Eps & Edm & En & Esz & Hunp)];
    rewrite HT; [by left|right]. cbn [obind].
  destruct (core_allocate _ _ _ _ _ _ _ Hc1) as [Hc2 Hn2]; [by rewrite En|].
  change (AllocatePage b1) with (next_page_id_ b1, (AllocatePage b1).2). cbv iota. rewrite En in *.
  set (b2 := (AllocatePage b1).2) in *.
  assert (Hpg2 : forall g, page_of b2 g = page_of b g) by (intros g; unfold page_of, b2; simpl; by rewrite Eps).
  assert (Hdk2 : forall q, disk_page b2 q = disk_page b q) by (intros q; unfold disk_page, b2; simpl; by rewrite Edm).
  destruct (clean_frame_spec b2 m e1 W D c f p) as (b3 & HC & Hc3 & Ht3 & Hp3 & Hpg3 & Hn3 & Hz3 & Hdk3); auto.
  { by rewrite Hpg2. }
  { unfold b2. simpl. by rewrite Et. }
  { destruct Htk as [[? _]|(_ & [? ?] & _)]; [by left|right]. split; [rewrite Hn2; lia|done]. }
  rewrite HC. cbn [obind].
  assert (Hcont : same_pages D b b3).
  { intros q Hq. eapply clean_content; eauto; [by intros; rewrite Hpg3|].
    intros. by rewrite Hdk3, Hdk2. }
  pose proof (c_next _ _ _ _ _ _ _ Hc) as Hnn.
  assert (Hout : delete (page_id_ p) m !! next_page_id_ b = None).
  { destruct (delete (page_id_ p) m !! next_page_id_ b) as [g|] eqn:E; [|done].
    apply lookup_delete_Some in E as [_ E]. apply (c_map _ _ _ _ _ _ _ Hc) in E as (Hg & p' & Hp' & Hid).
    destruct (c_pid _ _ _ _ _ _ _ Hc _ _ Hg Hp'). lia. }
  assert (HnD : next_page_id_ b ∉ D) by (intros HD%(c_D _ _ _ _ _ _ _ Hc); lia).
  assert (Hfresh : disk_page b3 (next_page_id_ b) = zero_page).
  { rewrite Hdk3 by lia. rewrite decide_False, Hdk2.
    - apply (c_fresh _ _ _ _ _ _ _ Hc); [lia|]. unfold page_ok. lia.
    - intros [Hd Heq]. destruct Htk as [[[[? _]|HD] _]|(_ & [? _] & _)]; [unfold INVALID_PAGE_ID in *; lia| |lia].
      apply (c_D _ _ _ _ _ _ _ Hc) in HD. lia. }
  destruct (install_page_spec b3 (delete (page_id_ p) m) e1 W D c f _ (next_page_id_ b) Hc3 Hp3)
    as (b4 & e4 & HI & Ht4 & Hc4 & Hp4 & Hpg4 & Hn4 & Hz4 & Hdm4); auto; [lia|].
  rewrite HI. cbn [obind]. exists f, b4. split; [done|].
  assert (Hc' : forall q, content b4 q = if decide (q = next_page_id_ b) then zero_page else content b3 q)
    by (intros q; by rewrite (install_content b3 b4 _ _ _ _ _ _ _ _ q Hc3 Ht3 Ht4 Hp4 Hpg4 Hdm4)).
  split_and!.
  - exists (<[next_page_id_ b := f]> (delete (page_id_ p) m)), e4. auto.
  - lia.
  - by eapply (c_map _ _ _ _ _ _ _ Hc4), lookup_insert_eq.
  - done.
  - by rewrite Hc', decide_True.
  - intros q Hq. rewrite Hc', decide_False; [by apply Hcont|]. destruct Hq. lia.
  - eapply kept_frames_move; eauto.
    + destruct (m !! next_page_id_ b) as [g|] eqn:E; [|done].
      apply (c_map _ _ _ _ _ _ _ Hc) in E as (Hg & p' & Hp' & Hid).
      destruct (c_pid _ _ _ _ _ _ _ Hc _ _ Hg Hp'). lia.
    + rewrite Hz4, Hz3. unfold b2. simpl. done.
    + intros g Hg. by rewrite Hpg4, Hpg3, Hpg2.
  - done.
Qed.

Lemma FetchPgImp_hit b m e W D c f p :
  pt_ok (page_table_ b) m -> core b m e W D c None -> 0 < c ->
  m !! page_id_ p = Some f -> resident b None f -> page_of b f = Some p -> pin_count_ p < 2 ^ 31 - 1 ->
  exists b', FetchPgImp b (page_id_ p) = Ret (Some f, b') /\ inv b' W D (c - 1) /\
    next_page_id_ b' = next_page_id_ b /\ holds b' f (page_id_ p) (content b (page_id_ p)) /\
    (forall q, content b' q = content b q) /\ kept_frames b b' f /\ resident b' None f /\
    page_of b' f = Some (mkPage (data_ p) (page_id_ p) (pin_count_ p + 1) (is_dirty_ p)).
Proof.
  intros Ht Hc Hpos Hm Hf Hp Hpin. unfold FetchPgImp. rewrite (pt_find_ok _ _ _ Ht), Hm. cbn [obind].
  rewrite get_page_of, Hp. cbn [of_option obind]. pose proof Hf as (Hrange & _).
  pose proof (c_size _ _ _ _ _ _ _ Hc) as [_ Hs2].
  destruct (rp_record_ok _ _ _ _ f (c_rep _ _ _ _ _ _ _ Hc)) as (r' & HR & Hr'); [done|done|].
  rewrite HR. cbn [obind]. apply (rp_set_ok _ _ _ _ f false) in Hr'. rewrite alter_insert_eq in Hr'.
  destruct (c_pin _ _ _ _ _ _ _ Hc _ _ Hf Hp) as [Hpin0 _].
  rewrite swrap_id by (unfold sfits; simpl; lia).
  eexists. split; [reflexivity|].
  assert (Hcont : forall q, content (put_page (set_replacer b (rp_set_evictable r' f false)) f
    (mkPage (data_ p) (page_id_ p) (pin_count_ p + 1) (is_dirty_ p))) q = content b q).
  { intros q. eapply update_content_other; eauto. }
  split_and!; [|done| |done|apply kept_frames_put; lia|done|].
  - exists m, (<[f := false]> e). split; [done|].
    eapply core_update; eauto; simpl; try lia.
    + by eapply (c_len _ _ _ _ _ _ _ Hc).
    + rewrite lookup_insert_eq, bool_decide_eq_false_2 by lia. done.
    + intros g Hg. by rewrite lookup_insert_ne.
    + intros Hd HW. by eapply (c_clean _ _ _ _ _ _ _ Hc).
  - eexists. split; [rewrite page_of_put by (simpl; lia); by rewrite decide_True|]. simpl.
    split_and!; [done|lia|]. rewrite (content_eq _ m), Hm, Hp by done. done.
  - rewrite page_of_put by (simpl; lia). by rewrite decide_True.
Qed.

Lemma FetchPgImp_spec b W D c pid :
  inv b W D c -> live b D pid -> 0 < c ->
  (forall f p, page_of b f = Some p -> page_id_ p = pid -> pin_count_ p < 2 ^ 31 - 1) ->
  (FetchPgImp b pid = Ret (None, b) /\ all_pinned b) \/
  exists f b', FetchPgImp b pid = Ret (Some f, b') /\ inv b' W D (c - 1) /\
    next_page_id_ b' = next_page_id_ b /\ holds b' f pid (content b pid) /\ same_pages D b b' /\
    kept_frames b b' f /\ resident b' None f /\ fetched b b' f pid.
Proof.
  intros (m & e & Ht & Hc) Hl Hpos Hpins. pose proof (find_resident _ _ _ _ _ _ pid Ht Hc) as Hfind.
  destruct (m !! pid) as [f|] eqn:Hm.
  { destruct Hfind as (Hfd & Hf & p & Hp & <-). right.
    destruct (FetchPgImp_hit _ _ _ _ _ _ f p Ht Hc Hpos Hm Hf Hp) as
      (b' & HF & Hi & Hn & Hh & Hq & Hk & Hr & Hp'); [by eapply Hpins|].
    exists f, b'. split_and!; auto; [intros q _; apply Hq|]. left. eauto. }
  unfold FetchPgImp. rewrite Hfind. cbn [obind].
  destruct (take_frame_spec _ _ _ _ _ _ Hc) as
    [(HT & Hfree & Hall)|(b1 & e1 & f & p & HT & Hc1 & Hp & Htk & Et & Eps & Edm & En & Esz & Hunp)];
    rewrite HT; [by left|right]. cbn [obind].
  assert (Hpg1 : forall g, page_of b1 g = page_of b g) by (intros g; unfold page_of; by rewrite Eps).
  assert (Hdk1 : forall q, disk_page b1 q = disk_page b q) by (intros q; unfold disk_page; by rewrite Edm).
  destruct (clean_frame_spec b1 m e1 W D c f p) as (b3 & HC & Hc3 & Ht3 & Hp3 & Hpg3 & Hn3 & Hz3 & Hdk3); auto.
  { by rewrite Hpg1. }
  { by rewrite Et. }
  { destruct Htk as [[? _]|(_ & [? ?] & _)]; [by left|right]. split; [rewrite En; lia|done]. }
  rewrite HC. cbn [obind].
  assert (Hcont : same_pages D b b3).
  { intros q Hq. eapply clean_content; eauto; [by intros; rewrite Hpg3|].
    intros. by rewrite Hdk3, Hdk1. }
  pose proof (live_page_ok _ _ _ _ _ _ _ _ Hc Hl) as Hok.
  destruct (read_into_frame_spec b3 _ e1 W D c f _ pid Hc3 Hp3 eq_refl Hok)
    as (b4 & HR & Hc4 & Hp4 & Hpg4 & Hn4 & Hz4 & Ht4 & Hdk4).
  rewrite HR. cbn [obind]. destruct Hl as [Hpid HnD].
  assert (Hout : delete (page_id_ p) m !! pid = None) by (apply lookup_delete_None; by right).
  assert (Hpt4 : pt_ok (page_table_ b4) (delete (page_id_ p) m)) by by rewrite Ht4.
  destruct (install_page_spec b4 (delete (page_id_ p) m) e1 W D c f _ pid Hc4 Hp4)
    as (b5 & e5 & HI & Ht5 & Hc5 & Hp5 & Hpg5 & Hn5 & Hz5 & Hdm5); auto; [lia|].
  rewrite HI. cbn [obind]. exists f, b5. split; [done|].
  assert (Hsame4 : same_pages D b b4).
  { intros q Hq. rewrite <- (Hcont q Hq). eapply content_disk_eq; eauto. intros g Hg. apply Hpg4.
    intros ->. apply (c_map _ _ _ _ _ _ _ Hc4) in Hg as [(_ & _ & Hne) _]. done. }
  assert (Hdata : disk_page b3 pid = content b pid).
  { rewrite <- (Hsame4 pid) by done. rewrite (content_eq _ _ _ Hpt4), Hout. by rewrite Hdk4. }
  assert (Hc' : forall q, content b5 q = if decide (q = pid) then disk_page b3 pid else content b4 q)
    by (intros q; by rewrite (install_content b4 b5 _ _ _ _ _ _ _ _ q Hc4 Hpt4 Ht5 Hp5 Hpg5 Hdm5)).
  split_and!.
  - exists (<[pid := f]> (delete (page_id_ p) m)), e5. auto.
  - lia.
  - eexists. split; [done|]. simpl. split_and!; (done || lia).
  - intros q Hq. rewrite Hc'. destruct (decide (q = pid)) as [->|]; [done|by apply Hsame4].
  - eapply kept_frames_move; eauto; [congruence|]. intros g Hg. by rewrite Hpg5, Hpg4, Hpg3, Hpg1.
  - by eapply (c_map _ _ _ _ _ _ _ Hc5), lookup_insert_eq.
  - right. split_and!; [done| |by rewrite <- Hdata].
    intros g p' Hg Hp' Hid. assert (m !! pid = Some g) by (apply (c_map _ _ _ _ _ _ _ Hc); eauto). congruence.
Qed.

(** The frames written by the client and not reported: unpinning with [is_dirty] or
    flushing reports them. *)
Definition reported (is_dirty : bool) (W : gset Z) (f : Z) : gset Z := if is_dirty then W ∖ {[ f ]} else W.

Lemma UnpinPgImp_spec b W D c pid is_dirty :
  inv b W D c ->
  (exists f p, page_of b f = Some p /\ page_id_ p = pid /\ resident b None f /\ 0 < pin_count_ p /\
     ((is_dirty = false -> pin_count_ p = 1 -> f ∉ W) ->
      exists b', UnpinPgImp b pid is_dirty = Ret (true, b') /\ inv b' (reported is_dirty W f) D c /\
        next_page_id_ b' = next_page_id_ b /\
        page_of b' f = Some (mkPage (data_ p) pid (pin_count_ p - 1) (is_dirty_ p || is_dirty)) /\
        (forall q, content b' q = content b q) /\ kept_frames b b' f /\ resident b' None f)) \/
  (UnpinPgImp b pid is_dirty = Ret (false, b) /\
   forall f p, page_of b f = Some p -> page_id_ p = pid -> resident b None f -> pin_count_ p = 0).
Proof.
  intros (m & e & Ht & Hc). pose proof (find_resident _ _ _ _ _ _ pid Ht Hc) as Hfind.
  unfold UnpinPgImp. destruct (decide (pid = INVALID_PAGE_ID)) as [->|Hpid].
  { right. split; [done|]. intros f p Hp Hid Hf. destruct (c_pid _ _ _ _ _ _ _ Hc _ _ Hf Hp).
    unfold INVALID_PAGE_ID in *. lia. }
  destruct (m !! pid) as [f|] eqn:Hm.
  2:{ right. rewrite Hfind. split; [done|]. intros f p Hp Hid Hf.
      assert (m !! pid = Some f) by (apply (c_map _ _ _ _ _ _ _ Hc); eauto). congruence. }
  destruct Hfind as (Hfd & Hf & p & Hp & Hid). rewrite Hfd. cbn [obind].
  rewrite get_page_of, Hp. cbn [of_option obind].
  destruct (c_pin _ _ _ _ _ _ _ Hc _ _ Hf Hp) as [Hpin He].
  destruct (decide (pin_count_ p = 0)) as [Hz|Hnz].
  { right. split; [done|]. intros g p' Hp' Hid' Hg.
    assert (m !! pid = Some g) by (apply (c_map _ _ _ _ _ _ _ Hc); eauto). simplify_eq. done. }
  left. exists f, p. split_and!; try done; [lia|]. intros HW.
  pose proof Hf as (Hrange & _). pose proof (c_size _ _ _ _ _ _ _ Hc) as [_ Hs2].
  rewrite swrap_id by (unfold sfits; simpl; lia).
  set (r := if decide (pin_count_ p - 1 = 0) then rp_set_evictable (replacer_ b) f true else replacer_ b).
  set (e' := <[f := bool_decide (pin_count_ p - 1 = 0)]> e).
  assert (Hr : rp_ok (pool_size_ b) r e' c).
  { pose proof (c_rep _ _ _ _ _ _ _ Hc) as Hr. unfold r, e'. destruct (decide (pin_count_ p - 1 = 0)) as [E|E].
    - rewrite bool_decide_eq_true_2 by done. apply (rp_set_ok _ _ _ _ f true) in Hr.
      by rewrite (alter_alt_Some _ _ _ _ He) in Hr.
    - rewrite bool_decide_eq_false_2 in He |- * by lia. by rewrite insert_id. }
  assert (Hb : (if decide (pin_count_ p - 1 = 0)
    then set_replacer b (rp_set_evictable (replacer_ b) f true) else b) = set_replacer b r).
  { unfold r. destruct (decide _); [done|]. by rewrite set_replacer_id. }
  rewrite Hb. eexists. split; [reflexivity|]. rewrite <- Hid.
  assert (Hcl : is_dirty_ p || is_dirty = false -> f ∉ reported is_dirty W f ->
    data_ p = disk_page b (page_id_ p)).
  { intros [Hd ->]%orb_false_iff HW'. by eapply (c_clean _ _ _ _ _ _ _ Hc). }
  split_and!; [|done| | |apply kept_frames_put; lia|done].
  - exists m, e'. split; [done|]. eapply core_update; eauto; simpl; try lia.
    + by eapply (c_len _ _ _ _ _ _ _ Hc).
    + unfold e'. by rewrite lookup_insert_eq.
    + intros g Hg. unfold e'. by rewrite lookup_insert_ne.
    + intros g Hg. unfold reported. destruct is_dirty; set_solver.
    + unfold reported. destruct is_dirty; [set_solver|]. intros Hin.
      destruct (decide (pin_count_ p = 1)); [|lia]. by destruct (HW eq_refl).
  - rewrite page_of_put by (simpl; lia). by rewrite decide_True.
  - intros q. eapply update_content_other; eauto.
Qed.

Lemma client_write_spec b W D c f pid data old :
  inv b W D c -> resident b None f -> holds b f pid old ->
  length data = Z.to_nat BUSTUB_PAGE_SIZE ->
  exists b', client_write b f data = Ret b' /\ inv b' ({[ f ]} ∪ W) D c /\
    next_page_id_ b' = next_page_id_ b /\ content b' pid = data /\
    (forall q, q <> pid -> content b' q = content b q) /\ kept_frames b b' f /\ resident b' None f /\
    exists p, page_of b f = Some p /\ page_of b' f = Some (mkPage data pid (pin_count_ p) (is_dirty_ p)).
Proof.
  intros (m & e & Ht & Hc) Hf (p & Hp & Hid & Hpos & Hold) Hlen.
  unfold client_write. rewrite get_page_of, Hp. cbn [of_option obind].
  pose proof Hf as (Hrange & _). pose proof (c_size _ _ _ _ _ _ _ Hc) as [_ Hs2].
  destruct (c_pin _ _ _ _ _ _ _ Hc _ _ Hf Hp) as [Hpin He].
  assert (Hm : m !! pid = Some f) by (apply (c_map _ _ _ _ _ _ _ Hc); eauto).
  set (p' := mkPage data _ _ _).
  assert (Hb : put_page b f p' = put_page (set_replacer b (replacer_ b)) f p') by by rewrite set_replacer_id.
  rewrite Hb. eexists. split; [reflexivity|]. split_and!; [|done| | |apply kept_frames_put; lia|done|].
  - exists m, e. split; [done|]. eapply core_update; eauto; simpl; try lia.
    + by apply (c_rep _ _ _ _ _ _ _ Hc).
    + set_solver.
    + set_solver.
  - rewrite (update_content b m f p' (replacer_ b) pid); auto. lia.
  - intros q Hq. eapply update_content_other; eauto. left. intros Hm'.
    pose proof (map_inj _ _ _ _ _ _ _ _ _ _ Hc Hm Hm'). congruence.
  - exists p. split; [done|]. rewrite page_of_put by (simpl; lia). rewrite decide_True by done. by rewrite <- Hid.
Qed.

Lemma FlushPgImp_spec b W D c pid :
  inv b W D c ->
  (exists f b' p, FlushPgImp b pid = Ret (true, b') /\ inv b' (W ∖ {[ f ]}) D c /\
     page_of b f = Some p /\ page_id_ p = pid /\ resident b None f /\
     next_page_id_ b' = next_page_id_ b /\ free_list_ b' = free_list_ b /\
     pool_size_ b' = pool_size_ b /\
     (forall g, page_id_ <$> page_of b' g = page_id_ <$> page_of b g) /\
     disk_page b' pid = content b pid /\
     (forall q, 0 <= q -> q <> pid -> disk_page b' q = disk_page b q) /\
     (forall q, 0 <= q -> content b' q = content b q)) \/
  (FlushPgImp b pid = Ret (false, b) /\
   forall f p, page_of b f = Some p -> resident b None f -> page_id_ p <> pid).
Proof.
  intros (m & e & Ht & Hc). pose proof (find_resident _ _ _ _ _ _ pid Ht Hc) as Hfind.
  unfold FlushPgImp. destruct (decide (pid = INVALID_PAGE_ID)) as [->|Hpid].
  { right. split; [done|]. intros f p Hp Hf Hid. destruct (c_pid _ _ _ _ _ _ _ Hc _ _ Hf Hp).
    unfold INVALID_PAGE_ID in *. lia. }
  destruct (m !! pid) as [f|] eqn:Hm.
  2:{ right. rewrite Hfind. split; [done|]. intros f p Hp Hf Hid.
      assert (m !! pid = Some f) by (apply (c_map _ _ _ _ _ _ _ Hc); eauto). congruence. }
  destruct Hfind as (Hfd & Hf & p & Hp & Hid). rewrite Hfd. cbn [obind].
  rewrite get_page_of, Hp. cbn [of_option obind]. left.
  pose proof Hf as (Hrange & _). pose proof (c_size _ _ _ _ _ _ _ Hc) as [_ Hs2].
  destruct (c_pin _ _ _ _ _ _ _ Hc _ _ Hf Hp) as [Hpin He].
  destruct (c_pid _ _ _ _ _ _ _ Hc _ _ Hf Hp) as [Hrg HnD]. rewrite Hid in *.
  assert (Hok : page_ok pid) by (pose proof (c_next _ _ _ _ _ _ _ Hc); unfold page_ok; lia).
  pose proof (c_len _ _ _ _ _ _ _ Hc _ _ Hp) as Hlen.
  destruct (WritePage_spec _ _ _ (c_disk _ _ _ _ _ _ _ Hc) Hok Hlen) as (Hdk & Hcon & _).
  set (b1 := set_disk b (WritePage (disk_manager_ b) pid (data_ p))).
  assert (Hdk1 : forall q, 0 <= q -> disk_page b1 q = if decide (q = pid) then data_ p else disk_page b q).
  { intros q Hq. unfold disk_page, b1. cbn [disk_manager_ set_disk].
    rewrite Hcon, page_at_pwrite by (done || lia). done. }
  assert (Hc1 : core b1 m e W D c None).
  { apply core_set_disk_weak; auto.
    - intros g p' Hg Hp' Hd HW. fold b1. change (page_at _ _) with (disk_page b1 (page_id_ p')).
      destruct (c_pid _ _ _ _ _ _ _ Hc _ _ Hg Hp'). rewrite Hdk1 by lia.
      destruct (decide (page_id_ p' = pid)) as [E|]; [|done].
      assert (m !! pid = Some g) by (apply (c_map _ _ _ _ _ _ _ Hc); eauto). simplify_eq.
      by eapply (c_clean _ _ _ _ _ _ _ Hc).
    - intros q Hq Hqok. change (page_at _ _) with (disk_page b1 q). rewrite Hdk1 by lia.
      by rewrite decide_False by lia. }
  set (p' := mkPage (data_ p) pid (pin_count_ p) false).
  assert (Hb : put_page b1 f p' = put_page (set_replacer b1 (replacer_ b1)) f p') by by rewrite set_replacer_id.
  rewrite Hb. eexists f, _, p. split; [reflexivity|].
  assert (Hpid' : page_id_ p' = page_id_ p) by by rewrite Hid.
  split_and!; try done.
  - exists m, e. split; [done|]. eapply (core_update b1 m e W D c f p); eauto; simpl; try lia.
    + by apply (c_rep _ _ _ _ _ _ _ Hc).
    + intros _ _. rewrite Hid, Hdk1 by lia. by rewrite decide_True.
    + set_solver.
    + set_solver.
  - intros g. rewrite page_of_put by (simpl; lia).
    destruct (decide (g = f)) as [->|]; [rewrite Hp; simpl; by rewrite Hid|done].
  - change (disk_page (put_page _ _ _) pid) with (disk_page b1 pid).
    rewrite Hdk1, decide_True by (done || lia). by rewrite (content_eq _ m), Hm, Hp.
  - intros q Hq Hne. change (disk_page (put_page _ _ _) q) with (disk_page b1 q).
    by rewrite Hdk1, decide_False.
  - intros q Hq. rewrite (update_content_other b1 m f p p') by (try done; by right).
    rewrite (content_eq b1 m), (content_eq b m) by done. destruct (m !! q) eqn:Hmq; [done|].
    rewrite Hdk1 by done. destruct (decide (q = pid)) as [->|]; [congruence|done].
Qed.

Lemma resident_unique b W D c f g p q :
  inv b W D c -> resident b None f -> resident b None g -> page_of b f = Some p ->
  page_of b g = Some q -> page_id_ p = page_id_ q -> f = g.
Proof.
  intros (m & e & _ & Hc) Hf Hg Hp Hq Heq.
  assert (H1' : m !! page_id_ p = Some f) by (apply (c_map _ _ _ _ _ _ _ Hc); eauto).
  assert (H2' : m !! page_id_ p = Some g) by (apply (c_map _ _ _ _ _ _ _ Hc); eauto).
  congruence.
Qed.

(** After the loop every page is on disk, and no page has changed. *)
Lemma flush_from_spec D c n : forall i b W,
  inv b W D c -> Z.of_nat (i + n) <= pool_size_ b ->
  exists b' W', flush_from i n b = Ret b' /\ inv b' W' D c /\
    (forall g, g ∈ W' -> g ∈ W /\ ~ (Z.of_nat i <= g < Z.of_nat (i + n))) /\
    next_page_id_ b' = next_page_id_ b /\ pool_size_ b' = pool_size_ b /\
    free_list_ b' = free_list_ b /\
    (forall g, page_id_ <$> page_of b' g = page_id_ <$> page_of b g) /\
    (forall q, 0 <= q -> content b' q = content b q) /\
    (forall q, 0 <= q -> disk_page b q = content b q -> disk_page b' q = content b' q) /\
    (forall f p, Z.of_nat i <= f < Z.of_nat (i + n) -> resident b None f -> page_of b f = Some p ->
       disk_page b' (page_id_ p) = content b' (page_id_ p)).
Proof.
  induction n as [|n IH]; intros i b W Hi Hlen.
  { exists b, W. split_and!; try done; intros; try split; (done || lia). }
  assert (HWi : forall p, page_of b (Z.of_nat i) = Some p -> Z.of_nat i ∈ W -> resident b None (Z.of_nat i)).
  { destruct Hi as (m & e & _ & Hc). intros p _ HW. by apply (c_W _ _ _ _ _ _ _ Hc). }
  assert (exists p, page_of b (Z.of_nat i) = Some p) as [p Hp].
  { destruct Hi as (m & e & _ & Hc). eapply page_of_some; [done|lia]. }
  cbn [flush_from]. rewrite get_page_of, Hp. cbn [of_option obind].
  assert (Hpos : forall f0 p0, resident b None f0 -> page_of b f0 = Some p0 -> 0 <= page_id_ p0).
  { destruct Hi as (m & e & _ & Hc). intros f0 p0 Hf0 Hp0.
    destruct (c_pid _ _ _ _ _ _ _ Hc _ _ Hf0 Hp0). lia. }
  destruct (FlushPgImp_spec b W D c (page_id_ p) Hi) as
    [(f & b1 & p1 & HF & Hi1 & Hp1 & Hid1 & Hf1 & Hn & Hfr & Hsz & Hids & Hd1 & Hdo & Hcont)|[HF Hno]];
    rewrite HF; cbn [obind].
  - destruct (IH (S i) b1 (W ∖ {[ f ]}) Hi1) as
      (b' & W' & HL & Hi' & HW & Hn' & Hsz' & Hfr' & Hids' & Hc' & Hpres & Hall); [lia|].
    exists b', W'. split_and!; [done|done| |by rewrite Hn'|by rewrite Hsz'|by rewrite Hfr'| | | |].
    + intros g Hg. destruct (HW g Hg) as [[HgW Hgf]%elem_of_difference Hout]. split; [done|].
      intros Hin. destruct (decide (g = Z.of_nat i)) as [->|]; [|lia]. apply Hgf, elem_of_singleton.
      eapply (resident_unique b W D c _ f p p1); eauto.
    + intros g. by rewrite Hids', Hids.
    + intros q Hq. by rewrite Hc', Hcont.
    + intros q Hq Heq. apply Hpres; [done|]. rewrite Hcont by done.
      destruct (decide (q = page_id_ p)) as [->|Hne]; [done|]. by rewrite Hdo.
    + intros g pg Hg Hrg Hpg. destruct (decide (page_id_ pg = page_id_ p)) as [E|E].
      * rewrite E. apply Hpres; [rewrite <- E; by eapply Hpos|]. rewrite Hcont by (rewrite <- E; by eapply Hpos). done.
      * assert (Hne : g <> Z.of_nat i) by (intros ->; congruence).
        assert (exists pg', page_of b1 g = Some pg' /\ page_id_ pg' = page_id_ pg) as (pg' & Hpg' & <-).
        { specialize (Hids g). rewrite Hpg in Hids. destruct (page_of b1 g) as [pg'|]; simplify_eq/=. eauto. }
        apply (Hall g); [lia| |done]. unfold resident in *. by rewrite Hsz, Hfr.
  - destruct (IH (S i) b W Hi) as
      (b' & W' & HL & Hi' & HW & Hn' & Hsz' & Hfr' & Hids' & Hc' & Hpres & Hall); [lia|].
    exists b', W'. split_and!; try done.
    { intros g Hg. destruct (HW g Hg) as [HgW Hout]. split; [done|]. intros Hin.
      destruct (decide (g = Z.of_nat i)) as [->|]; [|lia]. by eapply (Hno _ _ Hp (HWi _ Hp HgW)). }
    intros g pg Hg Hrg Hpg. destruct (decide (g = Z.of_nat i)) as [->|Hne].
    + exfalso. eapply (Hno _ _ Hp Hrg). done.
    + apply (Hall g); [lia|done|done].
Qed.

Lemma FlushAllPgsImp_spec b W D c :
  inv b W D c ->
  exists b', FlushAllPgsImp b = Ret b' /\ inv b' ∅ D c /\ next_page_id_ b' = next_page_id_ b /\
    (forall q, 0 <= q -> content b' q = content b q) /\
    (forall q, 0 <= q -> disk_page b' q = content b' q).
Proof.
  intros Hi. pose proof Hi as (m & e & Ht & Hc). pose proof (c_size _ _ _ _ _ _ _ Hc) as [Hs1 Hs2].
  destruct (flush_from_spec D c (Z.to_nat (pool_size_ b)) 0 b W Hi) as
    (b' & W' & HL & Hi' & HW & Hn & Hsz & Hfr & Hids & Hcont & Hpres & Hall); [lia|].
  exists b'. split; [done|]. assert (W' = ∅) as ->.
  { apply set_eq. intros g. split; [|set_solver]. intros Hg. destruct (HW g Hg) as [HgW Hout].
    apply (c_W _ _ _ _ _ _ _ Hc) in HgW as [(? & _) _]. lia. }
  split_and!; try done. intros q Hq. pose proof (find_resident _ _ _ _ _ _ q Ht Hc) as Hfind.
  destruct (m !! q) as [f|] eqn:Hm.
  - destruct Hfind as (_ & Hf & p & Hp & <-). apply (Hall f p); [|done|done]. destruct Hf as [? _]. lia.
  - apply Hpres; [done|]. by rewrite (content_eq b m), Hm.
Qed.

Lemma core_delete b m e W D c f p r t :
  core b m e W D c None -> resident b None f -> page_of b f = Some p -> pin_count_ p = 0 ->
  rp_ok (pool_size_ b) r (delete f e) c ->
  let b1 := set_table (set_replacer (put_page b f (ResetMemory p)) r) t in
  core (set_free b1 (free_list_ b1 ++ [f])) (delete (page_id_ p) m) (delete f e) W
    ({[ page_id_ p ]} ∪ D) c None.
Proof.
  intros Hc Hf Hp Hpin Hr b1. set (b2 := set_free _ _). pose proof Hf as (Hrange & Hnf & _).
  pose proof (c_size _ _ _ _ _ _ _ Hc) as [_ Hs2].
  assert (Hpg : forall g, page_of b2 g = if decide (g = f) then Some (ResetMemory p) else page_of b g).
  { intros g. change (page_of b2 g) with (page_of (put_page b f (ResetMemory p)) g). apply page_of_put. lia. }
  assert (Hres : forall g, resident b2 None g <-> resident b None g /\ g <> f).
  { intros g. unfold resident. simpl. rewrite not_elem_of_app, list_elem_of_singleton. naive_solver. }
  assert (HW : f ∉ W).
  { intros Hw. apply (c_W _ _ _ _ _ _ _ Hc) in Hw as [_ (p' & Hp' & ?)]. simplify_eq. lia. }
  assert (Hm : m !! page_id_ p = Some f) by (apply (c_map _ _ _ _ _ _ _ Hc); eauto).
  destruct (c_pid _ _ _ _ _ _ _ Hc _ _ Hf Hp) as [Hpid HnD].
  assert (Hpid_inj : forall g p', resident b None g -> page_of b g = Some p' -> g <> f -> page_id_ p' <> page_id_ p).
  { intros g p' Hg Hp' Hne Heq. apply Hne.
    assert (m !! page_id_ p' = Some g) by (apply (c_map _ _ _ _ _ _ _ Hc); eauto). congruence. }
  destruct Hc as [C1 C2 C3 C4 C5 C6 C7 C8 C9 C10 C11 C12 C13 C14 C15 C16 C17]. split; try done.
  - split; [apply C1|]. change (pages_ b2) with (pages_ (put_page b f (ResetMemory p))). rewrite zlen_put. done.
  - simpl. apply NoDup_app. split_and!; [done| |apply NoDup_singleton].
    intros x Hx Hxf. apply list_elem_of_singleton in Hxf as ->. done.
  - intros g [Hg|Hg]%elem_of_app; [by apply C6|]. apply list_elem_of_singleton in Hg as ->. done.
  - intros g p'. rewrite Hpg. simpl. rewrite elem_of_app, list_elem_of_singleton.
    destruct (decide (g = f)) as [->|Hne]; intros Hg Hp'; simplify_eq.
    + right. simpl. set_solver.
    + destruct Hg as [Hg|]; [|done]. destruct (C7 g p' Hg Hp') as [?|?]; [by left|right; set_solver].
  - intros q g. rewrite lookup_delete_Some, C8, Hres. split.
    + intros (Hne & Hg & p' & Hp' & <-). assert (g <> f) by (intros ->; congruence).
      split; [done|]. exists p'. by rewrite Hpg, decide_False.
    + intros ([Hg Hgf] & p' & Hp' & <-). rewrite Hpg, decide_False in Hp' by done.
      split; [|by eauto]. intros Heq. by eapply Hpid_inj.
  - intros g p' [Hg Hne]%Hres. rewrite Hpg, decide_False by done. intros Hp'.
    destruct (C9 g p' Hg Hp'). split; [done|]. pose proof (Hpid_inj g p' Hg Hp' Hne). set_solver.
  - intros g p' [Hg Hne]%Hres. rewrite Hpg, decide_False, lookup_delete_ne by done. by apply C10.
  - intros g p' [Hg Hne]%Hres. rewrite Hpg, decide_False by done. by apply C11.
  - intros g Hg. destruct (C13 g Hg) as (Hrg & p' & Hp'). assert (g <> f) by (intros ->; done).
    split; [by apply Hres|]. exists p'. by rewrite Hpg, decide_False.
  - intros pid [HD|HD]%elem_of_union; [apply elem_of_singleton in HD as ->; done|by apply C14].
  - intros g p'. rewrite Hpg. destruct (decide (g = f)); [intros [= <-]; apply length_zero_page|by apply C15].
  - intros g x [Hne Hg]%lookup_delete_Some. apply Hres. split; [by eapply C17|done].
Qed.

Lemma DeletePgImp_spec b W D c pid :
  inv b W D c ->
  (exists f p, page_of b f = Some p /\ page_id_ p = pid /\ resident b None f /\
     if decide (0 < pin_count_ p) then DeletePgImp b pid = Ret (false, b)
     else exists b', DeletePgImp b pid = Ret (true, b') /\ inv b' W ({[ pid ]} ∪ D) c /\
       next_page_id_ b' = next_page_id_ b /\ f ∈ free_list_ b' /\
       forall q, 0 <= q -> q <> pid -> content b' q = content b q) \/
  (DeletePgImp b pid = Ret (true, b) /\
   forall f p, page_of b f = Some p -> resident b None f -> page_id_ p <> pid).
Proof.
  intros (m & e & Ht & Hc). pose proof (find_resident _ _ _ _ _ _ pid Ht Hc) as Hfind.
  unfold DeletePgImp. destruct (decide (pid = INVALID_PAGE_ID)) as [->|Hpid].
  { right. split; [done|]. intros f p Hp Hf Hid. destruct (c_pid _ _ _ _ _ _ _ Hc _ _ Hf Hp).
    unfold INVALID_PAGE_ID in *. lia. }
  destruct (m !! pid) as [f|] eqn:Hm.
  2:{ right. rewrite Hfind. split; [done|]. intros f p Hp Hf Hid.
      assert (m !! pid = Some f) by (apply (c_map _ _ _ _ _ _ _ Hc); eauto). congruence. }
  destruct Hfind as (Hfd & Hf & p & Hp & Hid). rewrite Hfd. cbn [obind].
  rewrite get_page_of, Hp. cbn [of_option obind]. left. exists f, p. split_and!; try done.
  destruct (c_pin _ _ _ _ _ _ _ Hc _ _ Hf Hp) as [Hpin He].
  destruct (decide (0 < pin_count_ p)) as [|Hz]; [done|]. assert (Hz0 : pin_count_ p = 0) by lia.
  rewrite bool_decide_eq_true_2 in He by done.
  pose proof (rp_remove_ok _ _ _ _ f (c_rep _ _ _ _ _ _ _ Hc)) as Hrm. rewrite He in Hrm.
  destruct Hrm as (r' & HR & Hr').
  change (replacer_ (put_page b f (ResetMemory p))) with (replacer_ b). rewrite HR. cbn [obind].
  destruct (pt_remove_ok _ _ pid Ht) as (t' & HT & Ht').
  change (page_table_ (put_page b f (ResetMemory p))) with (page_table_ b). rewrite HT. cbn [obind].
  pose proof (core_delete _ _ _ _ _ _ _ _ r' t' Hc Hf Hp Hz0 Hr') as Hc'. rewrite Hid in Hc'.
  eexists. split; [reflexivity|]. split_and!; try done.
  - exists (delete pid m), (delete f e). split; [done|exact Hc'].
  - simpl. apply elem_of_app. right. by apply list_elem_of_singleton.
  - intros q Hq Hne. rewrite (content_eq _ (delete pid m)) by done. rewrite (content_eq b m) by done.
    rewrite lookup_delete_ne by done. destruct (m !! q) as [g|] eqn:Hmq; [|done].
    assert (Hgf : g <> f) by (intros ->; pose proof (map_inj _ _ _ _ _ _ _ _ _ _ Hc Hm Hmq); congruence).
    change (page_of (set_free _ _) g) with (page_of (put_page b f (ResetMemory p)) g).
    pose proof (c_size _ _ _ _ _ _ _ Hc) as [_ Hs2]. destruct Hf as [Hrange _].
    by rewrite page_of_put, decide_False by (done || lia).
Qed.

(** ** Runs of the pool and its clients *)

(** What a client sees of an operation. *)
Inductive event : Type :=
| ENew (r : option (Z * Z))
| EFetch (page_id : Z) (r : option (list Z))
| EWrite (page_id : Z) (data : list Z)
| EUnpin (page_id : Z) (is_dirty r : bool)
| EFlush (page_id : Z) (r : bool)
| EFlushAll
| EDelete (page_id : Z) (r : bool).

Definition frame_data b (f : Z) : list Z :=
  match page_of b f with Some p => data_ p | None => [] end.

(** The pool with the frames written but not reported and the deleted pages. *)
Abbreviation pstate := (pool * gset Z * gset Z)%type.

(** One operation by a client that fetches live pages only, writes through pinned frames
    and passes [is_dirty] at the latest with its last unpin. *)
Inductive pool_step : pstate -> event -> pstate -> Prop :=
| step_new b W D r b' :
    next_page_id_ b < 2 ^ 19 - 1 -> NewPgImp b = Ret (r, b') ->
    pool_step (b, W, D) (ENew r) (b', W, D)
| step_fetch b W D pid r b' :
    live b D pid ->
    (forall f p, page_of b f = Some p -> page_id_ p = pid -> pin_count_ p < 2 ^ 31 - 1) ->
    FetchPgImp b pid = Ret (r, b') ->
    pool_step (b, W, D) (EFetch pid (frame_data b' <$> r)) (b', W, D)
| step_write b W D f p data b' :
    resident b None f -> page_of b f = Some p -> 0 < pin_count_ p ->
    length data = Z.to_nat BUSTUB_PAGE_SIZE -> client_write b f data = Ret b' ->
    pool_step (b, W, D) (EWrite (page_id_ p) data) (b', {[ f ]} ∪ W, D)
| step_unpin b W D f p is_dirty r b' :
    resident b None f -> page_of b f = Some p ->
    (is_dirty = false -> pin_count_ p = 1 -> f ∉ W) ->
    UnpinPgImp b (page_id_ p) is_dirty = Ret (r, b') ->
    pool_step (b, W, D) (EUnpin (page_id_ p) is_dirty r) (b', if r then reported is_dirty W f else W, D)
| step_flush b W D f p r b' :
    resident b None f -> page_of b f = Some p -> FlushPgImp b (page_id_ p) = Ret (r, b') ->
    pool_step (b, W, D) (EFlush (page_id_ p) r) (b', W ∖ {[ f ]}, D)
| step_flush_all b W D b' :
    FlushAllPgsImp b = Ret b' -> pool_step (b, W, D) EFlushAll (b', ∅, D)
| step_delete b W D f p r b' :
    resident b None f -> page_of b f = Some p -> DeletePgImp b (page_id_ p) = Ret (r, b') ->
    pool_step (b, W, D) (EDelete (page_id_ p) r) (b', W, if r then {[ page_id_ p ]} ∪ D else D).

(** The abstract store: pages with their bytes, without frames, eviction or a disk. *)
Record page_store := mkStore {
  s_next : Z;
  s_deleted : gset Z;
  s_bytes : Z -> list Z;
}.

Definition write_bytes (A : page_store) (pid : Z) (data : list Z) : Z -> list Z :=
  fun q => if decide (q = pid) then data else s_bytes A q.

Inductive store_step : page_store -> event -> page_store -> Prop :=
| store_new A f :
    store_step A (ENew (Some (f, s_next A)))
      (mkStore (s_next A + 1) (s_deleted A) (write_bytes A (s_next A) zero_page))
| store_new_full A : store_step A (ENew None) A
| store_fetch A pid : store_step A (EFetch pid (Some (s_bytes A pid))) A
| store_fetch_full A pid : store_step A (EFetch pid None) A
| store_write A pid data :
    store_step A (EWrite pid data) (mkStore (s_next A) (s_deleted A) (write_bytes A pid data))
| store_unpin A pid d r : store_step A (EUnpin pid d r) A
| store_flush A pid r : store_step A (EFlush pid r) A
| store_flush_all A : store_step A EFlushAll A
| store_delete A pid :
    store_step A (EDelete pid true) (mkStore (s_next A) ({[ pid ]} ∪ s_deleted A) (s_bytes A))
| store_delete_pinned A pid : store_step A (EDelete pid false) A.

(** The pool shows the bytes of the abstract store for every live page. *)
Definition shows (s : pstate) (A : page_store) : Prop :=
  next_page_id_ s.1.1 = s_next A /\ s.2 = s_deleted A /\
  forall q, live s.1.1 s.2 q -> content s.1.1 q = s_bytes A q.

Lemma resident_live b W D c f p :
  inv b W D c -> resident b None f -> page_of b f = Some p -> live b D (page_id_ p).
Proof. intros (m & e & _ & Hc). apply (c_pid _ _ _ _ _ _ _ Hc). Qed.

Lemma pool_step_simulated s ev s' A c :
  pool_step s ev s' -> inv s.1.1 s.1.2 s.2 c -> 0 < c -> shows s A ->
  exists A', store_step A ev A' /\ shows s' A' /\ exists c', c - 1 <= c' /\ inv s'.1.1 s'.1.2 s'.2 c'.
Proof.
  intros Hstep Hi Hpos (Hn & HD & Hbytes).
  destruct Hstep as [b W D r b' Hnext HN|b W D pid r b' Hl Hpins HF|b W D f p data b' Hf Hp Hpin Hlen HW
    |b W D f p d r b' Hf Hp Hd HU|b W D f p r b' Hf Hp HF|b W D b' HFA|b W D f p r b' Hf Hp HDel]; simpl in *.
  - destruct (NewPgImp_spec _ _ _ _ Hi Hpos Hnext) as
      [[HN' _]|(f & b1 & HN' & Hi' & Hn' & _ & _ & Hz & Hs & _)]; rewrite HN in HN'; simplify_eq.
    + exists A. split_and!; [constructor|done|exists c; split; [lia|done]].
    + eexists. split_and!; [rewrite Hn; constructor| |exists (c - 1); split; [lia|done]].
      split_and!; simpl; [lia|done|]. intros q [Hq HqD]. unfold write_bytes. rewrite <- Hn.
      destruct (decide (q = next_page_id_ b)) as [->|]; [done|].
      rewrite Hs by (split; [lia|done]). apply Hbytes. split; [lia|done].
  - destruct (FetchPgImp_spec _ _ _ _ _ Hi Hl Hpos Hpins) as
      [[HF' _]|(f & b1 & HF' & Hi' & Hn' & (p & Hp & _ & _ & Hdata) & Hs & _)]; rewrite HF in HF'; simplify_eq/=.
    + exists A. split_and!; [constructor|done|exists c; split; [lia|done]].
    + exists A. unfold frame_data. rewrite Hp, Hdata, (Hbytes pid Hl). split_and!; [constructor| |].
      * split_and!; simpl; [lia|done|]. intros q [Hq HqD]. rewrite Hn' in Hq.
        rewrite Hs by done. by apply Hbytes.
      * exists (c - 1). split; [lia|done].
  - destruct (client_write_spec b W D c f (page_id_ p) data (data_ p) Hi Hf) as
      (b1 & HW' & Hi' & Hn' & Hdata & Ho & _); [by exists p|done|]. rewrite HW in HW'. simplify_eq.
    eexists. split_and!; [constructor| |exists c; split; [lia|done]].
    split_and!; simpl; [lia|done|]. intros q [Hq HqD]. rewrite Hn' in Hq. unfold write_bytes.
    destruct (decide (q = page_id_ p)) as [->|]; [done|]. rewrite Ho by done. by apply Hbytes.
  - exists A. destruct (UnpinPgImp_spec b W D c (page_id_ p) d Hi) as
      [(g & p' & Hp' & Hid & Hg & _ & Hgo)|[HU' _]].
    + assert (f = g) as <- by (by eapply (resident_unique b W D c f g p p')). simplify_eq.
      destruct (Hgo Hd) as (b1 & HU' & Hi' & Hn' & _ & Hs & _). rewrite HU in HU'. simplify_eq.
      split_and!; [constructor| |exists c; split; [lia|done]].
      split_and!; simpl; [lia|done|]. intros q [Hq HqD]. rewrite Hn' in Hq. rewrite Hs. by apply Hbytes.
    + rewrite HU in HU'. simplify_eq. split_and!; [constructor|done|exists c; split; [lia|done]].
  - exists A. destruct (FlushPgImp_spec b W D c (page_id_ p) Hi) as
      [(g & b1 & p' & HF' & Hi' & Hp' & Hid & Hg & Hn' & _ & _ & _ & _ & _ & Hs)|[_ Hno]];
      [|by destruct (Hno f p)].
    assert (f = g) as <- by (by eapply (resident_unique b W D c f g p p')). rewrite HF in HF'. simplify_eq.
    split_and!; [constructor| |exists c; split; [lia|done]].
    split_and!; simpl; [lia|done|]. intros q [Hq HqD]. rewrite Hn' in Hq. rewrite Hs by lia. by apply Hbytes.
  - destruct (FlushAllPgsImp_spec b W D c Hi) as (b1 & HF' & Hi' & Hn' & Hs & _).
    rewrite HFA in HF'. simplify_eq. exists A. split_and!; [constructor| |exists c; split; [lia|done]].
    split_and!; simpl; [lia|done|]. intros q [Hq HqD]. rewrite Hn' in Hq. rewrite Hs by lia. by apply Hbytes.
  - destruct (DeletePgImp_spec b W D c (page_id_ p) Hi) as [(g & p' & Hp' & Hid & Hg & Hgo)|[_ Hno]];
      [|by destruct (Hno f p)].
    assert (f = g) as <- by (by eapply (resident_unique b W D c f g p p')). simplify_eq.
    destruct (decide (0 < pin_count_ p)).
    + rewrite HDel in Hgo. simplify_eq. exists A.
      split_and!; [constructor|done|exists c; split; [lia|done]].
    + destruct Hgo as (b1 & HD' & Hi' & Hn' & _ & Hs). rewrite HDel in HD'. simplify_eq.
      eexists. split_and!; [constructor| |exists c; split; [lia|done]].
      split_and!; simpl; [lia|done|]. intros q [Hq HqD]. rewrite Hn' in Hq.
      rewrite Hs by (lia || set_solver). apply Hbytes. split; [done|]. set_solver.
Qed.

Inductive pool_run : pstate -> list event -> pstate -> Prop :=
| run_nil s : pool_run s [] s
| run_cons s ev s1 evs s' : pool_step s ev s1 -> pool_run s1 evs s' -> pool_run s (ev :: evs) s'.

Inductive store_run : page_store -> list event -> page_store -> Prop :=
| store_nil A : store_run A [] A
| store_cons A ev A1 evs A' : store_step A ev A1 -> store_run A1 evs A' -> store_run A (ev :: evs) A'.

Lemma pool_run_simulated s evs s' :
  pool_run s evs s' -> forall A c, inv s.1.1 s.1.2 s.2 c -> zlen evs <= c -> shows s A ->
  exists A', store_run A evs A' /\ shows s' A' /\ exists c', c - zlen evs <= c' /\ inv s'.1.1 s'.1.2 s'.2 c'.
Proof.
  unfold zlen. induction 1 as [s|s ev s1 evs s' Hst Hrun IH]; intros A c Hi Hc Hs.
  - exists A. split_and!; [constructor|done|]. exists c. split; [simpl; lia|done].
  - simpl in Hc. destruct (pool_step_simulated _ _ _ A _ Hst Hi) as (A1 & HA1 & Hs1 & c1 & Hc1 & Hi1); [lia|done|].
    destruct (IH A1 c1 Hi1) as (A' & HA' & Hs' & c' & Hc' & Hi'); [lia|done|].
    exists A'. split_and!; [by econstructor|done|]. exists c'. split; [simpl; lia|done].
Qed.

(** ** The initial pool *)

Lemma ctor_inv n d t r c :
  0 <= n -> disk_ok d -> (forall pid, page_ok pid -> page_at (contents (db_io_ d)) pid = zero_page) ->
  pt_ok t ∅ -> rp_ok n r ∅ c -> inv (BufferPoolManagerInstance_ctor n d t r) ∅ ∅ c.
Proof.
  intros Hn Hd Hz Ht Hr. exists ∅, ∅. split; [done|]. set (b := BufferPoolManagerInstance_ctor n d t r).
  assert (Hres : forall f, ~ resident b None f).
  { intros f (Hf & Hnf & _). apply Hnf. simpl. apply elem_of_seqZ. simpl in Hf. lia. }
  assert (Hpg : forall f p, page_of b f = Some p -> p = Page_ctor).
  { intros f p. unfold page_of. destruct (decide (0 <= f)); [|done]. simpl.
    intros Hp. by apply lookup_replicate in Hp as [-> _]. }
  split; try done; try (intros f p Hf; by destruct (Hres f)).
  - simpl. split; [done|]. unfold zlen. rewrite length_replicate. lia.
  - apply NoDup_seqZ.
  - intros f Hf. simpl in Hf. apply elem_of_seqZ in Hf. simpl. split; [lia|done].
  - intros f p _ Hp. rewrite (Hpg _ _ Hp). by left.
  - intros pid f. rewrite lookup_empty. split; [done|]. intros [Hf _]. by destruct (Hres f).
  - intros f p Hp. rewrite (Hpg _ _ Hp). apply length_zero_page.
  - intros pid _ Hok. by apply Hz.
Qed.

End invariant.
