(* ===== verification/Pool.v ===== *)
(** * The buffer pool the program builds

    [BufferPoolManagerInstance] with its extendible hash page table and its LRU-K
    replacer: the components composed as the constructor composes them, and the
    theorems on the composed system. *)

From S2P Require Import Prelude.
From S2P Require Import Interfaces.
From S2P Require Import ExtHash.
From S2P Require Import LruK.
From S2P Require Import Disk.
From S2P Require Import BufferPool.

Local Open Scope Z_scope.
Local Open Scope outcome_scope.

Abbreviation pool := (BufferPoolManagerInstance (Table Z Z) LRUKReplacer).

(** [bucket_size_ = 4] *)
Definition new_pool (pool_size replacer_k : Z) (d : DiskManager) : pool :=
  BufferPoolManagerInstance_ctor pool_size d (ExtendibleHashTable_ctor 4) (LRUKReplacer_ctor pool_size replacer_k).

Definition new_disk : DiskManager := DiskManager_ctor [] [].

Lemma max_page_id_ok : 2 ^ 19 <= max_page_id.
Proof. unfold max_page_id. lia. Qed.

Lemma new_disk_zero pid : page_ok pid -> page_at (contents (db_io_ new_disk)) pid = zero_page.
Proof.
  intros _. simpl. unfold page_at, zero_page. generalize (Z.to_nat BUSTUB_PAGE_SIZE). intros n.
  apply list_eq. intros i. rewrite list_lookup_fmap. destruct (decide (i < n)%nat).
  - rewrite lookup_seq_lt, lookup_replicate_2 by done. done.
  - rewrite lookup_seq_ge by lia. symmetry. apply lookup_replicate_None. lia.
Qed.

Lemma new_pool_inv n k : 0 <= n < 2 ^ 31 -> 1 <= k -> inv (new_pool n k new_disk) ∅ ∅ (2 ^ 64 - 1).
Proof.
  intros Hn Hk. apply ctor_inv; [lia| |apply new_disk_zero|by apply ctor_hash_ok|by apply ctor_lru_ok].
  split; [done|]. unfold zlen. simpl. lia.
Qed.

(** The empty store. *)
Definition empty_store : page_store := mkStore 0 ∅ (fun _ => []).

Lemma new_pool_shows n k : shows (new_pool n k new_disk, ∅, ∅) empty_store.
Proof. split_and!; simpl; try done. intros q [Hq _]. simpl in Hq. lia. Qed.

(** C1: refinement of the whole buffer pool.  For a pool on a new database file, whatever
    its size and [k], every run of clients that fetch live pages, write through pinned
    frames and report their writes behaves like the abstract page store: what a fetch
    returns is what was last written to the page (zeros for a new page), no matter which
    pages were evicted, written back and read again in between; and the pool's invariant
    (page table, frames, free list, replacer and disk agree) holds at the end. *)
Theorem pool_refines_store n k evs b W D :
  0 <= n < 2 ^ 31 -> 1 <= k -> zlen evs < 2 ^ 64 ->
  pool_run (new_pool n k new_disk, ∅, ∅) evs (b, W, D) ->
  exists A, store_run empty_store evs A /\
    (forall q, live b D q -> content b q = s_bytes A q) /\
    next_page_id_ b = s_next A /\ D = s_deleted A /\ exists c, inv b W D c.
Proof.
  intros Hn Hk Hlen Hrun.
  destruct (pool_run_simulated max_page_id_ok _ _ _ Hrun empty_store (2 ^ 64 - 1)) as
    (A & HA & (Hs1 & Hs2 & Hs3) & c & _ & Hi); [by apply new_pool_inv|lia|apply new_pool_shows|].
  exists A. split_and!; eauto.
Qed.

(** [FetchPage] of a live page always returns.  It fails only when every frame is
    pinned, and then changes nothing; otherwise the frame it returns holds the page,
    pinned, with the page's current bytes, no live page has changed and no other frame is
    touched: a page that was in memory gets one more pin, another one comes into a frame
    nobody uses. *)
Theorem FetchPgImp_correct (b : pool) W D c pid :
  inv b W D c -> live b D pid -> 0 < c ->
  (forall f p, page_of b f = Some p -> page_id_ p = pid -> pin_count_ p < 2 ^ 31 - 1) ->
  (FetchPgImp b pid = Ret (None, b) /\ all_pinned b) \/
  exists f b', FetchPgImp b pid = Ret (Some f, b') /\ inv b' W D (c - 1) /\
    next_page_id_ b' = next_page_id_ b /\ holds b' f pid (content b pid) /\ same_pages D b b' /\
    kept_frames b b' f /\ resident b' None f /\ fetched b b' f pid.
Proof. apply (FetchPgImp_spec max_page_id_ok). Qed.

(** [NewPage] always returns.  It fails only when every frame is pinned, and then
    changes nothing; otherwise it returns the next page id in a frame that is zeroed,
    clean and pinned once, which nobody used before; no live page has changed and no other
    frame is touched. *)
Theorem NewPgImp_correct (b : pool) W D c :
  inv b W D c -> 0 < c -> next_page_id_ b < 2 ^ 19 - 1 ->
  (NewPgImp b = Ret (None, b) /\ all_pinned b) \/
  exists f b', NewPgImp b = Ret (Some (f, next_page_id_ b), b') /\ inv b' W D (c - 1) /\
    next_page_id_ b' = next_page_id_ b + 1 /\ resident b' None f /\
    page_of b' f = Some (mkPage zero_page (next_page_id_ b) 1 false) /\
    content b' (next_page_id_ b) = zero_page /\ same_pages D b b' /\
    kept_frames b b' f /\ unpinned_before b f.
Proof. apply (NewPgImp_spec max_page_id_ok). Qed.

(** [UnpinPage] of a pinned resident page drops one pin, accumulates the dirty flag and
    keeps every page's bytes, provided the last unpin of a frame the client wrote reports
    it dirty; it returns false, changing nothing, exactly when the page is not resident or
    not pinned. *)
Theorem UnpinPgImp_correct (b : pool) W D c pid is_dirty :
  inv b W D c ->
  (exists f p, page_of b f = Some p /\ page_id_ p = pid /\ resident b None f /\ 0 < pin_count_ p /\
     ((is_dirty = false -> pin_count_ p = 1 -> f ∉ W) ->
      exists b', UnpinPgImp b pid is_dirty = Ret (true, b') /\ inv b' (reported is_dirty W f) D c /\
        next_page_id_ b' = next_page_id_ b /\
        page_of b' f = Some (mkPage (data_ p) pid (pin_count_ p - 1) (is_dirty_ p || is_dirty)) /\
        (forall q, content b' q = content b q) /\ kept_frames b b' f /\ resident b' None f)) \/
  (UnpinPgImp b pid is_dirty = Ret (false, b) /\
   forall f p, page_of b f = Some p -> page_id_ p = pid -> resident b None f -> pin_count_ p = 0).
Proof. apply (UnpinPgImp_spec max_page_id_ok). Qed.

(** After [FlushAllPages] every page is on disk as the pool shows it, and the bytes of
    no page have changed. *)
Theorem FlushAllPgsImp_correct (b : pool) W D c :
  inv b W D c ->
  exists b', FlushAllPgsImp b = Ret b' /\ inv b' ∅ D c /\ next_page_id_ b' = next_page_id_ b /\
    (forall q, 0 <= q -> content b' q = content b q) /\
    (forall q, 0 <= q -> disk_page b' q = content b' q).
Proof. apply (FlushAllPgsImp_spec max_page_id_ok). Qed.

(** [DeletePage] refuses a pinned page, succeeds without effect on a page that is not
    resident, and otherwise frees the frame and leaves all other pages as they were. *)
Theorem DeletePgImp_correct (b : pool) W D c pid :
  inv b W D c ->
  (exists f p, page_of b f = Some p /\ page_id_ p = pid /\ resident b None f /\
     if decide (0 < pin_count_ p) then DeletePgImp b pid = Ret (false, b)
     else exists b', DeletePgImp b pid = Ret (true, b') /\ inv b' W ({[ pid ]} ∪ D) c /\
       next_page_id_ b' = next_page_id_ b /\ f ∈ free_list_ b' /\
       forall q, 0 <= q -> q <> pid -> content b' q = content b q) \/
  (DeletePgImp b pid = Ret (true, b) /\
   forall f p, page_of b f = Some p -> resident b None f -> page_id_ p <> pid).
Proof. apply (DeletePgImp_spec max_page_id_ok). Qed.

(** ** Re-fetching a deleted page *)

(** Pages 0 and 1 fill the two frames and are both deleted, page 1 first.  Page 0 is then
    fetched again, into the frame of page 1, and a new page takes the frame that page 0 was
    deleted from. *)
Definition delete_refetch : outcome (option Z * option Z * bool) :=
  let* (_, b) := NewPgImp (new_pool 2 2 new_disk) in
  let* (_, b) := NewPgImp b in
  let* (_, b) := UnpinPgImp b 0 true in
  let* (_, b) := UnpinPgImp b 1 true in
  let* (_, b) := DeletePgImp b 1 in
  let* (_, b) := DeletePgImp b 0 in
  let* (fetched, b) := FetchPgImp b 0 in
  let* before := pt_find (page_table_ b) 0 in
  let* (_, b) := NewPgImp b in
  let* after := pt_find (page_table_ b) 0 in
  let* (unpinned, b) := UnpinPgImp b 0 false in
  Ret (before, after, unpinned).

(** [DeletePgImp] leaves the old page id (and dirty flag) in the freed frame.  When the
    frame is reused after the page was fetched again, [NewPgImp] unmaps the page that is
    resident and pinned in another frame: it can no longer be unpinned. *)
Theorem DeletePgImp_stale_page_id :
  delete_refetch = Ret (Some 1, None, false).
Proof. vm_compute. reflexivity. Qed.

(** ** Witnesses *)

Lemma pool_refines_store_witness :
  exists A b W D, store_run empty_store [ENew (Some (0, 0))] A /\ next_page_id_ b = s_next A /\
    pool_run (new_pool 3 2 new_disk, ∅, ∅) [ENew (Some (0, 0))] (b, W, D).
Proof.
  destruct (NewPgImp (new_pool 3 2 new_disk)) as [[r b]| | |] eqn:E; [|vm_compute in E; discriminate E..].
  assert (Hr : r = Some (0, 0)).
  { destruct (NewPgImp_spec max_page_id_ok (new_pool 3 2 new_disk) ∅ ∅ (2 ^ 64 - 1)) as
      [[HN _]|(f & b' & HN & _)]; [apply new_pool_inv; lia|lia|simpl; lia| |].
    - exfalso. rewrite E in HN. injection HN as -> ->. vm_compute in E. discriminate E.
    - rewrite E in HN. injection HN as -> ->.
      assert (Hf : f = 0); [|by subst].
      assert (Hx : (let* (r, _) := NewPgImp (new_pool 3 2 new_disk) in Ret r) = Ret (Some (0, 0)))
        by (vm_compute; reflexivity).
      rewrite E in Hx. cbn [obind] in Hx. congruence. }
  subst r.
  assert (Hrun : pool_run (new_pool 3 2 new_disk, ∅, ∅) [ENew (Some (0, 0))] (b, ∅, ∅)).
  { eapply run_cons; [apply step_new; [simpl; lia|exact E]|apply run_nil]. }
  destruct (pool_refines_store 3 2 [ENew (Some (0, 0))] b ∅ ∅) as (A & HA & _ & Hn & _);
    [lia|lia|vm_compute; reflexivity|exact Hrun|].
  exists A, b, ∅, ∅. split; [exact HA|]. split; [exact Hn|exact Hrun].
Defined.

Lemma NewPgImp_correct_witness :
  (NewPgImp (new_pool 0 2 new_disk) = Ret (None, new_pool 0 2 new_disk) /\ all_pinned (new_pool 0 2 new_disk)) \/
  exists f b', NewPgImp (new_pool 0 2 new_disk) = Ret (Some (f, 0), b').
Proof.
  destruct (NewPgImp_correct (new_pool 0 2 new_disk) ∅ ∅ (2 ^ 64 - 1)) as [H|(f & b' & HN & _)];
    [apply new_pool_inv; lia|lia|simpl; lia|left; exact H|right; exists f, b'; exact HN].
Defined.

(** A pool with one page, pinned once. *)
Lemma one_page : exists f b, NewPgImp (new_pool 2 2 new_disk) = Ret (Some (f, 0), b) /\
  inv b ∅ ∅ (2 ^ 64 - 2) /\ next_page_id_ b = 1 /\ resident b None f /\
  page_of b f = Some (mkPage zero_page 0 1 false).
Proof.
  destruct (NewPgImp_spec max_page_id_ok (new_pool 2 2 new_disk) ∅ ∅ (2 ^ 64 - 1)) as
    [[_ [_ Hall]]|(f & b & HN & Hi & Hn & Hr & Hp & _)]; [apply new_pool_inv; lia|lia|simpl; lia| |].
  - exfalso. assert (Hz := Hall 0 Page_ctor eq_refl). simpl in Hz. lia.
  - exists f, b. auto.
Qed.

Lemma FetchPgImp_correct_witness :
  exists b, (FetchPgImp b 0 = Ret (None, b) /\ all_pinned b) \/
    exists f b', FetchPgImp b 0 = Ret (Some f, b') /\ inv b' ∅ ∅ (2 ^ 64 - 3).
Proof.
  destruct one_page as (f & b & _ & Hi & Hn & Hr & Hp). exists b.
  destruct (FetchPgImp_correct b ∅ ∅ (2 ^ 64 - 2) 0) as [H|(g & b' & HF & Hi' & _)].
  - exact Hi.
  - split; [lia|set_solver].
  - lia.
  - intros g p Hg Hid.
    destruct Hi as (m & e & Ht & Hc). destruct (decide (g ∈ free_list_ b)) as [Hfree|Hfree].
    + destruct (c_stale _ _ _ _ _ _ _ Hc g p Hfree Hg) as [[Hs _]|Hs]; [rewrite Hs in Hid; discriminate Hid|set_solver].
    + assert (Hrg : resident b None g).
      { split; [|split; [exact Hfree|discriminate]]. pose proof (proj1 (page_of_is_Some b g) ltac:(eauto)).
        pose proof (c_size _ _ _ _ _ _ _ Hc). lia. }
      assert (f = g) as <- by (eapply (resident_unique b ∅ ∅ (2 ^ 64 - 2) f g); eauto; exists m, e; auto).
      rewrite Hp in Hg. injection Hg as <-. simpl. lia.
  - left. exact H.
  - right. exists g, b'. split; [exact HF|exact Hi'].
Defined.

Lemma UnpinPgImp_correct_witness :
  exists b b', UnpinPgImp b 0 false = Ret (true, b').
Proof.
  destruct one_page as (f & b & _ & Hi & Hn & Hr & Hp). exists b.
  destruct (UnpinPgImp_correct b ∅ ∅ (2 ^ 64 - 2) 0 false Hi) as
    [(g & p & Hg & Hid & Hrg & Hpos & Hgo)|[_ Hno]].
  - destruct Hgo as (b' & HU & _); [set_solver|]. exists b'. exact HU.
  - exfalso. specialize (Hno f _ Hp eq_refl Hr). simpl in Hno. lia.
Defined.

Lemma FlushAllPgsImp_correct_witness :
  exists b', FlushAllPgsImp (new_pool 2 2 new_disk) = Ret b' /\ inv b' ∅ ∅ (2 ^ 64 - 1).
Proof.
  destruct (FlushAllPgsImp_correct (new_pool 2 2 new_disk) ∅ ∅ (2 ^ 64 - 1)) as (b' & HF & Hi & _);
    [apply new_pool_inv; lia|]. exists b'. split; [exact HF|exact Hi].
Defined.

Lemma DeletePgImp_correct_witness :
  exists b, DeletePgImp b 0 = Ret (false, b).
Proof.
  destruct one_page as (f & b & _ & Hi & Hn & Hr & Hp). exists b.
  destruct (DeletePgImp_correct b ∅ ∅ (2 ^ 64 - 2) 0 Hi) as [(g & p & Hg & Hid & Hrg & Hgo)|[_ Hno]].
  - assert (f = g) as <- by (eapply (resident_unique b ∅ ∅ (2 ^ 64 - 2) f g); eauto).
    rewrite Hp in Hg. injection Hg as <-. rewrite decide_True in Hgo by (simpl; lia). exact Hgo.
  - exfalso. exact (Hno f _ Hp Hr eq_refl).
Defined.
