(* ===== verification/Pages.v ===== *)
(** * Pages pinned in frames: what the pool promises to its clients

    The storage structures above the buffer pool create, fetch and unpin pages
    and work on the bytes of the frames they hold. [Pages] has these operations
    ([NewPage], [FetchPage], [UnpinPage] of src/include/buffer/buffer_pool_manager.h
    and the access through a [Page *]), [PagesLaws] what a client sees: which
    pages exist with which bytes, and which of them it holds pinned, in which
    frame, how often, and whether it wrote to them without having said so. The
    buffer pool of the program is shown to keep these laws; the clients'
    theorems use nothing else of it. *)

From S2P Require Import Prelude.
From S2P Require Import Interfaces.
From S2P Require Import Disk.
From S2P Require Import BufferPool.

Local Open Scope Z_scope.
Local Open Scope outcome_scope.

(** ** The interface *)

Class Pages (P : Type) := {
  pg_new : P -> outcome (option (Z * Z) * P);
  pg_fetch : P -> Z -> outcome (option Z * P);
  pg_unpin : P -> Z -> bool -> outcome (bool * P);
  pg_data : P -> Z -> outcome (list Z);
  pg_write : P -> Z -> list Z -> outcome P;
}.

Record pin := mkPin {
  pin_frame : Z;
  pin_count : Z;
  pin_written : bool;
}.

(** The number of frames, the next page id, the bytes of the pages, the pages
    held, and the number of accesses the replacer's clock still counts. *)
Record view := mkView {
  v_size : Z;
  v_next : Z;
  v_bytes : Z -> list Z;
  v_pins : gmap Z pin;
  v_left : Z;
}.

Definition upd (m : Z -> list Z) (pid : Z) (d : list Z) : Z -> list Z :=
  fun q => if decide (q = pid) then d else m q.

Definition with_pins (v : view) (pins : gmap Z pin) : view :=
  mkView (v_size v) (v_next v) (v_bytes v) pins (v_left v).
Definition accessed (v : view) (pins : gmap Z pin) : view :=
  mkView (v_size v) (v_next v) (v_bytes v) pins (v_left v - 1).
Definition created (v : view) (f : Z) : view :=
  mkView (v_size v) (v_next v + 1) (upd (v_bytes v) (v_next v) zero_page)
    (<[v_next v := mkPin f 1 false]> (v_pins v)) (v_left v - 1).
Definition wrote (v : view) (pid : Z) (x : pin) (d : list Z) : view :=
  mkView (v_size v) (v_next v) (upd (v_bytes v) pid d)
    (<[pid := mkPin (pin_frame x) (pin_count x) true]> (v_pins v)) (v_left v).
Definition repinned (x : option pin) (f : Z) : pin :=
  match x with Some x => mkPin f (pin_count x + 1) (pin_written x) | None => mkPin f 1 false end.
Definition unpinned (pins : gmap Z pin) (pid : Z) (x : pin) (dirty : bool) : gmap Z pin :=
  if decide (pin_count x = 1) then delete pid pins
  else <[pid := mkPin (pin_frame x) (pin_count x - 1) (pin_written x && negb dirty)]> pins.

Definition room (v : view) (n : Z) : Prop := Z.of_nat (size (v_pins v)) + n <= v_size v.

Class PagesLaws (P : Type) `{Pages P} := {
  pg_ok : P -> view -> Prop;
  pg_new_ok p v : pg_ok p v -> 0 < v_left v -> v_next v < 2 ^ 19 - 1 -> room v 1 ->
    exists f p', pg_new p = Ret (Some (f, v_next v), p') /\ pg_ok p' (created v f);
  pg_new_full p v : pg_ok p v -> 0 < v_left v -> v_next v < 2 ^ 19 - 1 -> ~ room v 1 ->
    pg_new p = Ret (None, p);
  pg_fetch_ok p v pid : pg_ok p v -> 0 < v_left v -> 0 <= pid < v_next v ->
    (match v_pins v !! pid with Some x => pin_count x < 2 ^ 31 - 1 | None => room v 1 end) ->
    exists f p', pg_fetch p pid = Ret (Some f, p') /\
      (forall x, v_pins v !! pid = Some x -> f = pin_frame x) /\
      pg_ok p' (accessed v (<[pid := repinned (v_pins v !! pid) f]> (v_pins v)));
  pg_fetch_full p v pid : pg_ok p v -> 0 < v_left v -> 0 <= pid < v_next v ->
    v_pins v !! pid = None -> ~ room v 1 -> pg_fetch p pid = Ret (None, p);
  pg_data_ok p v pid x : pg_ok p v -> v_pins v !! pid = Some x -> pg_data p (pin_frame x) = Ret (v_bytes v pid);
  pg_write_ok p v pid x d : pg_ok p v -> v_pins v !! pid = Some x -> length d = Z.to_nat BUSTUB_PAGE_SIZE ->
    exists p', pg_write p (pin_frame x) d = Ret p' /\ pg_ok p' (wrote v pid x d);
  pg_unpin_ok p v pid x dirty : pg_ok p v -> v_pins v !! pid = Some x ->
    (pin_written x = true -> dirty = true \/ 1 < pin_count x) ->
    exists p', pg_unpin p pid dirty = Ret (true, p') /\
      pg_ok p' (with_pins v (unpinned (v_pins v) pid x dirty)) /\ forall g, pg_data p' g = pg_data p g;
  pg_pins_ok p v pid x : pg_ok p v -> v_pins v !! pid = Some x -> 0 <= pid < v_next v /\ 0 < pin_count x < 2 ^ 31;
  pg_next_ok p v : pg_ok p v -> 0 <= v_next v <= 2 ^ 19 - 1;
}.

(** ** The buffer pool as [Pages] *)

Section pool_pages.
Context {T R : Type} `{PageTableLaws T maxk} `{ReplacerLaws R}.
Hypothesis max_key_ok : 2 ^ 19 <= maxk.
Abbreviation pool := (BufferPoolManagerInstance T R).
Implicit Types (b : pool) (v : view).

#[export] Instance pool_Pages : Pages pool := {|
  pg_new := NewPgImp;
  pg_fetch := FetchPgImp;
  pg_unpin := UnpinPgImp;
  pg_data b f := let* p := get_page b f in Ret (data_ p);
  pg_write := client_write;
|}.

(** The client holds page [pid] in frame [f]. *)
Definition pinned_page b (W : gset Z) (pid : Z) (x : pin) : Prop :=
  exists p, resident b None (pin_frame x) /\ page_of b (pin_frame x) = Some p /\ page_id_ p = pid /\
    pin_count_ p = pin_count x /\ 0 < pin_count x /\ pin_written x = bool_decide (pin_frame x ∈ W).

Definition pool_view b v (W : gset Z) : Prop :=
  inv b W ∅ (v_left v) /\ pool_size_ b = v_size v /\ next_page_id_ b = v_next v /\
  (forall q, 0 <= q < v_next v -> content b q = v_bytes v q) /\
  (forall pid x, v_pins v !! pid = Some x <-> pinned_page b W pid x).

Definition pool_ok b v : Prop := exists W, pool_view b v W.

(** *** Counting pinned frames *)

Definition frames_of (pins : gmap Z pin) : list Z := (fun kv => pin_frame kv.2) <$> map_to_list pins.

Lemma elem_frames_of pins f : f ∈ frames_of pins <-> exists pid x, pins !! pid = Some x /\ pin_frame x = f.
Proof.
  unfold frames_of. rewrite list_elem_of_fmap. split.
  - intros ([pid x] & -> & Hin). apply elem_of_map_to_list in Hin. eauto.
  - intros (pid & x & Hx & <-). exists (pid, x). split; [done|]. by apply elem_of_map_to_list.
Qed.

Lemma length_frames_of pins : length (frames_of pins) = size pins.
Proof. unfold frames_of. by rewrite length_fmap, length_map_to_list. Qed.

Lemma frames_of_NoDup b v W : pool_view b v W -> NoDup (frames_of (v_pins v)).
Proof.
  intros (_ & _ & _ & _ & Hp). unfold frames_of. apply NoDup_fmap_2_strong; [|apply NoDup_map_to_list].
  intros [pid x] [pid' x'] Hin Hin'. simpl. intros Hf.
  apply elem_of_map_to_list in Hin, Hin'. pose proof Hin as Hx. pose proof Hin' as Hx'.
  apply Hp in Hx as (p & _ & Hpg & Hid & _). apply Hp in Hx' as (p' & _ & Hpg' & Hid' & _).
  rewrite Hf in Hpg. assert (p = p') by congruence. subst. simplify_eq. done.
Qed.

Lemma pins_bound b v W : pool_view b v W -> Z.of_nat (size (v_pins v)) <= v_size v.
Proof.
  intros Hv. pose proof (frames_of_NoDup b v W Hv) as Hnd. destruct Hv as ((m & e & _ & Hc) & Hs & _ & _ & Hp).
  rewrite <- length_frames_of. assert (Hsub : frames_of (v_pins v) ⊆+ seqZ 0 (v_size v)).
  { apply NoDup_submseteq; [done|]. intros f. rewrite elem_frames_of, elem_of_seqZ.
    intros (pid & x & Hx & <-). apply Hp in Hx as (p & [Hr _] & _). lia. }
  apply submseteq_length in Hsub. rewrite length_seqZ in Hsub.
  pose proof (c_size _ _ _ _ _ _ _ Hc). lia.
Qed.

Lemma all_pinned_full b v W : pool_view b v W -> all_pinned b -> ~ room v 1.
Proof.
  intros Hv [Hfree Hall] Hroom. destruct Hv as ((m & e & _ & Hc) & Hs & _ & _ & Hp).
  assert (Hsub : seqZ 0 (v_size v) ⊆+ frames_of (v_pins v)).
  { apply NoDup_submseteq; [apply NoDup_seqZ|]. intros f. rewrite elem_of_seqZ, elem_frames_of. intros Hf.
    destruct (page_of_some b _ _ _ _ _ _ f Hc) as [p Hpf]; [lia|].
    exists (page_id_ p), (mkPin f (pin_count_ p) (bool_decide (f ∈ W))). split; [|done]. apply Hp.
    exists p. simpl. split_and!; try done; [|by eapply Hall]. split_and!; [lia|lia| |done].
    rewrite Hfree. apply not_elem_of_nil. }
  apply submseteq_length in Hsub. rewrite length_seqZ, length_frames_of in Hsub. unfold room in Hroom. lia.
Qed.

(** *** One frame changes *)

Lemma pins_update b b' W W' c f p' (pins : gmap Z pin) :
  inv b' W' ∅ c -> kept_frames b b' f -> (forall g, g <> f -> g ∈ W' <-> g ∈ W) ->
  resident b' None f -> page_of b' f = Some p' ->
  (forall pid x, pins !! pid = Some x <-> pinned_page b W pid x) ->
  (forall pid x, pinned_page b W pid x -> pin_frame x = f -> pid = page_id_ p') ->
  forall pid x,
    (if decide (pin_count_ p' = 0) then delete (page_id_ p') pins
     else <[page_id_ p' := mkPin f (pin_count_ p') (bool_decide (f ∈ W'))]> pins) !! pid = Some x <->
    pinned_page b' W' pid x.
Proof.
  intros Hi [Hsz Hk] HW Hf Hp' Hpins Hold pid x.
  assert (Hpos : 0 <= pin_count_ p').
  { destruct Hi as (m & e & _ & Hc). by destruct (c_pin _ _ _ _ _ _ _ Hc f p' Hf Hp') as [[? _] _]. }
  assert (Huniq : forall y, pinned_page b' W' (page_id_ p') y ->
    y = mkPin f (pin_count_ p') (bool_decide (f ∈ W')) /\ pin_count_ p' <> 0).
  { intros [g n w] (p & Hr & Hp & Hid & Hn & Hn0 & Hw). simpl in *.
    assert (g = f) as -> by by eapply (resident_unique b' W' ∅ c g f p p').
    rewrite Hp in Hp'. simplify_eq. split; [done|lia]. }
  destruct (decide (pid = page_id_ p')) as [->|Hne].
  - split; [|intros Hx; destruct (Huniq x Hx) as [-> Hnz]; by rewrite decide_False, lookup_insert_eq by done].
    destruct (decide (pin_count_ p' = 0)); [by rewrite lookup_delete_eq|]. rewrite lookup_insert_eq.
    intros [= <-]. exists p'. simpl. by split_and!; [..|lia|].
  - assert ((if decide (pin_count_ p' = 0) then delete (page_id_ p') pins
     else <[page_id_ p' := mkPin f (pin_count_ p') (bool_decide (f ∈ W'))]> pins) !! pid = pins !! pid) as ->
      by (destruct (decide (pin_count_ p' = 0)); [by rewrite lookup_delete_ne|by rewrite lookup_insert_ne]).
    rewrite Hpins. split; intros (p & Hr & Hp & Hid & Hn & Hn0 & Hw).
    + assert (pin_frame x <> f) as Hx.
      { intros Hx. apply Hne, (Hold pid x); [|done]. exists p. by split_and!. }
      destruct (Hk _ Hx) as [Hpg Hres]. exists p. rewrite Hres, Hpg. split_and!; try done.
      rewrite Hw. apply bool_decide_ext. by rewrite HW.
    + assert (pin_frame x <> f) as Hx by (intros Hx; rewrite Hx in Hp; congruence).
      destruct (Hk _ Hx) as [Hpg Hres]. exists p. rewrite <- Hres, <- Hpg. split_and!; try done.
      rewrite Hw. apply bool_decide_ext. by rewrite HW.
Qed.

Lemma unused_frame b W f pid x q : unpinned_before b f -> pinned_page b W pid x -> pin_frame x = f -> pid = q.
Proof. intros Hu (p & Hr & Hp & _ & Hn & Hn0 & _) Hx. exfalso. rewrite Hx in Hr, Hp. specialize (Hu p Hr Hp). lia. Qed.

(** *** The laws *)

Lemma pool_new_ok b v : pool_ok b v -> 0 < v_left v -> v_next v < 2 ^ 19 - 1 ->
  (pg_new b = Ret (None, b) /\ ~ room v 1) \/
  (exists f b', pg_new b = Ret (Some (f, v_next v), b') /\ pool_ok b' (created v f) /\ room v 1).
Proof.
  intros [W Hv] Hleft Hnext. pose proof Hv as (Hi & Hs & Hn & Hb & Hp).
  destruct (NewPgImp_spec max_key_ok b W ∅ (v_left v) Hi Hleft) as
    [[HN Hall]|(f & b' & HN & Hi' & Hn' & Hr & Hp' & Hz & Hsame & Hk & Hu)]; [by rewrite Hn|left; split|right].
  - done.
  - by eapply all_pinned_full.
  - exists f, b'. rewrite <- Hn. split; [done|].
    assert (f ∉ W) as HfW.
    { intros HfW. destruct Hi' as (m & e & _ & Hc'). destruct Hi as (m0 & e0 & _ & Hc).
      destruct (c_W _ _ _ _ _ _ _ Hc f HfW) as (Hrf & p0 & Hp0 & Hpos). specialize (Hu p0 Hrf Hp0). lia. }
    assert (Hv' : pool_view b' (created v f) W).
    { unfold created. split_and!; simpl; [done| |lia| |].
      - destruct Hk as [-> _]. done.
      - intros q Hq. unfold upd. rewrite <- Hn. destruct (decide (q = next_page_id_ b)) as [->|]; [done|].
        rewrite Hsame by (split; [lia|set_solver]). apply Hb. lia.
      - intros pid x. rewrite <- (pins_update b b' W W _ f _ (v_pins v) Hi' Hk) by (done || eauto using unused_frame).
        rewrite decide_False by done. simpl. rewrite Hn. by rewrite (bool_decide_false _ HfW). }
    split; [by exists W|]. apply pins_bound in Hv'. unfold created, room in *. simpl in Hv'.
    rewrite map_size_insert_None in Hv'; [lia|].
    destruct (v_pins v !! v_next v) as [x|] eqn:E; [|done]. apply Hp in E as (p0 & Hr0 & Hp0 & Hid & _).
    destruct Hi as (m0 & e0 & _ & Hc). destruct (c_pid _ _ _ _ _ _ _ Hc _ _ Hr0 Hp0). lia.
Qed.

Lemma pool_fetch_ok b v pid : pool_ok b v -> 0 < v_left v -> 0 <= pid < v_next v ->
  (forall x, v_pins v !! pid = Some x -> pin_count x < 2 ^ 31 - 1) ->
  (pg_fetch b pid = Ret (None, b) /\ ~ room v 1 /\ v_pins v !! pid = None) \/
  (exists f b', pg_fetch b pid = Ret (Some f, b') /\
     (forall x, v_pins v !! pid = Some x -> f = pin_frame x) /\
     pool_ok b' (accessed v (<[pid := repinned (v_pins v !! pid) f]> (v_pins v))) /\
     (v_pins v !! pid = None -> room v 1)).
Proof.
  intros [W Hv] Hleft Hpid Hcount. pose proof Hv as (Hi & Hs & Hn & Hb & Hp).
  destruct (FetchPgImp_spec max_key_ok b W ∅ (v_left v) pid Hi) as
    [[HF Hall]|(f & b' & HF & Hi' & Hn' & Hh & Hsame & Hk & Hr & Hft)]; [split; [lia|set_solver]|done| | |].
  - intros f p Hpf Hid. destruct (decide (0 < pin_count_ p)); [|lia].
    eapply (Hcount (mkPin f (pin_count_ p) (bool_decide (f ∈ W)))), Hp. exists p. simpl. split_and!; try done.
    destruct Hi as (m & e & _ & Hc). pose proof (proj1 (page_of_is_Some b f) ltac:(eauto)).
    pose proof (c_size _ _ _ _ _ _ _ Hc). split_and!; [lia|lia| |done]. intros Hfree.
    destruct (c_stale _ _ _ _ _ _ _ Hc f p Hfree Hpf) as [[Hst _]|Hst]; [unfold INVALID_PAGE_ID in Hst; lia|set_solver].
  - left. split_and!; [done|by eapply all_pinned_full|].
    destruct (v_pins v !! pid) as [x|] eqn:E; [|done]. pose proof (Hcount x eq_refl) as Hlt.
    apply Hp in E as (p & Hrx & Hpx & <- & Hn0 & _). destruct Hi as (m & e & Ht & Hc).
    destruct (FetchPgImp_hit b m e W ∅ (v_left v) (pin_frame x) p) as (b' & HF' & _); try done; [|lia|].
    + apply (c_map _ _ _ _ _ _ _ Hc). eauto.
    + change (pg_fetch b (page_id_ p)) with (FetchPgImp b (page_id_ p)) in *. congruence.
  - right. exists f, b'. split; [done|].
    assert (Hsee : exists p', page_of b' f = Some p' /\ page_id_ p' = pid /\ pin_count_ p' <> 0 /\
      repinned (v_pins v !! pid) f = mkPin f (pin_count_ p') (bool_decide (f ∈ W)) /\
      (forall x, v_pins v !! pid = Some x -> f = pin_frame x) /\
      (forall q x, pinned_page b W q x -> pin_frame x = f -> q = pid)).
    { destruct Hft as [(p & Hrb & Hpb & Hid & Hpb')|(Hu & Hno & Hpb')]; (eexists; split; [exact Hpb'|]); simpl.
      - pose proof Hi as (m & e & _ & Hc). destruct (c_pin _ _ _ _ _ _ _ Hc f p Hrb Hpb) as [Hpos _].
        assert (forall x, v_pins v !! pid = Some x -> f = pin_frame x) as Hfx.
        { intros x (p0 & Hr0 & Hp0 & Hid0 & _)%Hp. eapply (resident_unique b W ∅ _ f _ p p0); eauto. congruence. }
        split_and!; [done|lia| |done|].
        + destruct (v_pins v !! pid) as [x|] eqn:E; simpl.
          * pose proof (Hfx x eq_refl) as ->. apply Hp in E as (p0 & Hr0 & Hp0 & Hid0 & Hn0 & _ & ->).
            simplify_eq. by rewrite Hn0.
          * destruct (decide (0 < pin_count_ p)) as [Hpp|Hpp].
            { exfalso. assert (v_pins v !! pid = Some (mkPin f (pin_count_ p) (bool_decide (f ∈ W)))); [|congruence].
              apply Hp. exists p. by split_and!. }
            assert (f ∉ W) as HfW.
            { intros HfW. destruct (c_W _ _ _ _ _ _ _ Hc f HfW) as (_ & p0 & Hp0 & Hpos0). simplify_eq. lia. }
            rewrite (bool_decide_false _ HfW). f_equal. lia.
        + intros q x (p0 & Hr0 & Hp0 & <- & _) Hf. rewrite Hf in Hp0. congruence.
      - assert (v_pins v !! pid = None) as ->.
        { destruct (v_pins v !! pid) as [x|] eqn:E; [|done]. apply Hp in E as (p0 & Hr0 & Hp0 & Hid0 & _).
          by destruct (Hno _ _ Hr0 Hp0). }
        assert (f ∉ W) as HfW.
        { intros HfW. destruct Hi as (m & e & _ & Hc).
          destruct (c_W _ _ _ _ _ _ _ Hc f HfW) as (Hrf & p0 & Hp0 & Hpos0). specialize (Hu p0 Hrf Hp0). lia. }
        simpl. rewrite (bool_decide_false _ HfW). split_and!; [done|lia|done|done|]. intros q x. by apply unused_frame. }
    destruct Hsee as (p' & Hp' & Hid & Hnz & Hre & Hfx & Hq).
    assert (Hv' : pool_view b' (accessed v (<[pid := repinned (v_pins v !! pid) f]> (v_pins v))) W).
    { unfold accessed. split_and!; simpl; [done| |lia| |].
      - destruct Hk as [-> _]. done.
      - intros q Hq'. rewrite Hsame by (split; [lia|set_solver]). by apply Hb.
      - intros q x. rewrite <- (pins_update b b' W W _ f _ (v_pins v) Hi' Hk) by (done || by rewrite Hid).
        rewrite decide_False by done. by rewrite Hre, Hid. }
    split_and!; [done|by exists W|]. intros E. apply pins_bound in Hv'. unfold accessed, room in *. simpl in Hv'.
    rewrite map_size_insert_None in Hv' by done. lia.
Qed.

Lemma pool_data_ok b v pid x : pool_ok b v -> v_pins v !! pid = Some x ->
  pg_data b (pin_frame x) = Ret (v_bytes v pid).
Proof.
  intros [W (Hi & Hs & Hn & Hb & Hp)] Hx. apply Hp in Hx as (p & Hr & Hpg & Hid & _). simpl.
  rewrite get_page_of, Hpg. simpl. f_equal. destruct Hi as (m & e & Ht & Hc).
  destruct (c_pid _ _ _ _ _ _ _ Hc _ _ Hr Hpg) as [Hrange _].
  rewrite <- Hb by lia. rewrite (content_eq _ _ _ Ht).
  assert (m !! pid = Some (pin_frame x)) as -> by (apply (c_map _ _ _ _ _ _ _ Hc); eauto). by rewrite Hpg.
Qed.

Lemma pool_write_ok b v pid x d : pool_ok b v -> v_pins v !! pid = Some x ->
  length d = Z.to_nat BUSTUB_PAGE_SIZE ->
  exists b', pg_write b (pin_frame x) d = Ret b' /\ pool_ok b' (wrote v pid x d).
Proof.
  intros [W Hv] Hx Hlen. pose proof Hv as (Hi & Hs & Hn & Hb & Hp). pose proof Hx as Hx'.
  apply Hp in Hx' as (p & Hr & Hpg & Hid & Hc & Hpos & Hw).
  destruct (client_write_spec max_key_ok b W ∅ (v_left v) (pin_frame x) pid d (data_ p) Hi Hr) as
    (b' & HW & Hi' & Hn' & Hd & Ho & Hk & Hr' & p0 & Hp0 & Hp'); [exists p; split_and!; (done || lia)|done|].
  exists b'. split; [done|]. rewrite Hpg in Hp0. injection Hp0 as <-. subst pid. exists ({[pin_frame x]} ∪ W).
  unfold wrote. split_and!; simpl; [done| |lia| |].
  - destruct Hk as [-> _]. done.
  - intros q Hq. unfold upd. destruct (decide (q = page_id_ p)) as [->|]; [done|]. rewrite Ho by done. by apply Hb.
  - intros q y. rewrite <- (pins_update b b' W _ _ (pin_frame x) _ (v_pins v) Hi' Hk ltac:(set_solver) Hr' Hp' Hp).
    + simpl. rewrite decide_False by lia. rewrite (bool_decide_true (pin_frame x ∈ _)) by set_solver. by rewrite Hc.
    + intros q' y' (p1 & _ & Hp1 & <- & _) Hf. rewrite Hf in Hp1. simpl. congruence.
Qed.

Lemma pool_unpin_ok b v pid x dirty : pool_ok b v -> v_pins v !! pid = Some x ->
  (pin_written x = true -> dirty = true \/ 1 < pin_count x) ->
  exists b', pg_unpin b pid dirty = Ret (true, b') /\
    pool_ok b' (with_pins v (unpinned (v_pins v) pid x dirty)) /\ forall g, pg_data b' g = pg_data b g.
Proof.
  intros [W Hv] Hx Hdirty. pose proof Hv as (Hi & Hs & Hn & Hb & Hp). pose proof Hx as Hx'.
  apply Hp in Hx' as (p & Hr & Hpg & Hid & Hc & Hpos & Hw).
  destruct (UnpinPgImp_spec max_key_ok b W ∅ (v_left v) pid dirty Hi) as
    [(f & p0 & Hp0 & Hid0 & Hr0 & Hpos0 & Hgo)|[_ Hno]]; [|specialize (Hno _ _ Hpg Hid Hr); lia].
  assert (f = pin_frame x) as -> by (eapply (resident_unique b W ∅ _ f _ p0 p); eauto; congruence).
  simplify_eq. destruct Hgo as (b' & HU & Hi' & Hn' & Hp' & Hcont & Hk & Hr').
  { intros -> Hone HfW. rewrite bool_decide_true in Hw by done. destruct (Hdirty Hw); [done|lia]. }
  exists b'. split; [done|]. split.
  - exists (reported dirty W (pin_frame x)). unfold with_pins. split_and!; simpl; [done| |lia| |].
    + destruct Hk as [-> _]. done.
    + intros q Hq. rewrite Hcont. by apply Hb.
    + assert (HW : forall g, g <> pin_frame x -> g ∈ reported dirty W (pin_frame x) <-> g ∈ W)
        by (unfold reported; destruct dirty; set_solver).
      intros q y. rewrite <- (pins_update b b' W _ _ (pin_frame x) _ (v_pins v) Hi' Hk HW Hr' Hp' Hp).
      * unfold unpinned. simpl. rewrite Hc. destruct (decide (pin_count x = 1)) as [E|E]; [by rewrite decide_True by lia|].
        rewrite decide_False by lia. rewrite Hw. unfold reported. destruct dirty; simpl.
        -- rewrite (bool_decide_false (pin_frame x ∈ _ ∖ _)) by set_solver. by rewrite andb_false_r.
        -- by rewrite andb_true_r.
      * intros q' y' (p1 & _ & Hp1 & <- & _) Hf. rewrite Hf in Hp1. simpl. congruence.
  - intros g. simpl. rewrite !get_page_of. destruct (decide (g = pin_frame x)) as [->|Hg].
    + by rewrite Hp', Hpg.
    + destruct Hk as [_ Hk]. by rewrite (proj1 (Hk g Hg)).
Qed.

#[export] Instance pool_PagesLaws : PagesLaws pool.
Proof.
  refine {| pg_ok := pool_ok |}.
  - intros b v Hok Hl Hn Hroom. destruct (pool_new_ok b v Hok Hl Hn) as [[_ Hno]|(f & b' & ? & ? & _)]; eauto.
    by destruct Hno.
  - intros b v Hok Hl Hn Hroom. destruct (pool_new_ok b v Hok Hl Hn) as [[? _]|(f & b' & _ & _ & ?)]; done.
  - intros b v pid Hok Hl Hpid Hc.
    destruct (pool_fetch_ok b v pid Hok Hl Hpid) as [(_ & Hno & E)|(f & b' & ? & ? & ? & _)]; [| |by eauto].
    + intros x E. by rewrite E in Hc.
    + rewrite E in Hc. by destruct Hno.
  - intros b v pid Hok Hl Hpid E Hroom.
    destruct (pool_fetch_ok b v pid Hok Hl Hpid) as [(? & _)|(f & b' & _ & _ & _ & ?)]; [by rewrite E|done|].
    by destruct Hroom; auto.
  - apply pool_data_ok.
  - apply pool_write_ok.
  - apply pool_unpin_ok.
  - intros b v pid x [W (Hi & Hs & Hn & Hb & Hp)] (p & Hr & Hpg & Hid & Hc & Hpos & _)%Hp.
    destruct Hi as (m & e & _ & Hco). destruct (c_pid _ _ _ _ _ _ _ Hco _ _ Hr Hpg).
    destruct (c_pin _ _ _ _ _ _ _ Hco _ _ Hr Hpg). lia.
  - intros b v [W (Hi & Hs & Hn & Hb & Hp)]. destruct Hi as (m & e & _ & Hco).
    pose proof (c_next _ _ _ _ _ _ _ Hco). lia.
Defined.
End pool_pages.

(** ** Pages as the clients use them *)

Section accesses.
Context {P : Type} `{PagesLaws P}.
Implicit Types (p : P) (v : view).

(** A page that is not held is fetched, used and given back. *)
Definition holding (v : view) (pid f : Z) (w : bool) : view := with_pins v (<[pid := mkPin f 1 w]> (v_pins v)).
Definition used (v : view) : view := accessed v (v_pins v).
Definition stored_page (v : view) (pid : Z) (d : list Z) : view :=
  mkView (v_size v) (v_next v) (upd (v_bytes v) pid d) (v_pins v) (v_left v).

Definition accessible (v : view) (pid : Z) : Prop :=
  0 <= pid < v_next v /\ 0 < v_left v /\ v_pins v !! pid = None /\ room v 1.

Lemma fetch_page p v pid :
  pg_ok p v -> accessible v pid ->
  exists f p', pg_fetch p pid = Ret (Some f, p') /\ pg_data p' f = Ret (v_bytes v pid) /\
    pg_ok p' (holding (used v) pid f false).
Proof.
  intros Hok (Hpid & Hl & Hno & Hroom). destruct (pg_fetch_ok p v pid Hok Hl Hpid) as (f & p' & HF & _ & Hok').
  { by rewrite Hno. }
  rewrite Hno in Hok'. cbn [repinned] in Hok'. exists f, p'. split_and!; [done| |done].
  apply (pg_data_ok p' _ pid (mkPin f 1 false) Hok'). apply lookup_insert_eq.
Qed.

Lemma held_data p v pid f w : pg_ok p (holding v pid f w) -> pg_data p f = Ret (v_bytes v pid).
Proof. intros Hok. apply (pg_data_ok p _ pid (mkPin f 1 w) Hok). apply lookup_insert_eq. Qed.

Lemma give_back p v pid f :
  pg_ok p (holding v pid f false) -> v_pins v !! pid = None ->
  exists p', pg_unpin p pid false = Ret (true, p') /\ pg_ok p' (with_pins v (v_pins v)) /\
    forall g, pg_data p' g = pg_data p g.
Proof.
  intros Hok Hno. destruct (pg_unpin_ok p _ pid (mkPin f 1 false) false Hok) as (p' & HU & Hok' & Hd);
    [apply lookup_insert_eq|done|].
  exists p'. split_and!; [done| |done]. unfold unpinned, holding, with_pins in *. simpl in *.
  by rewrite delete_insert_id in Hok'.
Qed.

Lemma write_back p v pid f w d :
  pg_ok p (holding v pid f w) -> v_pins v !! pid = None -> zlen d = BUSTUB_PAGE_SIZE ->
  exists p1 p2, pg_write p f d = Ret p1 /\ pg_unpin p1 pid true = Ret (true, p2) /\ pg_ok p2 (stored_page v pid d).
Proof.
  intros Hok Hno Hlen. assert (length d = Z.to_nat BUSTUB_PAGE_SIZE) as Hl by (unfold zlen in Hlen; lia).
  destruct (pg_write_ok p _ pid (mkPin f 1 w) d Hok (lookup_insert_eq _ _ _) Hl) as (p1 & HW & Hok1).
  destruct (pg_unpin_ok p1 _ pid (mkPin f 1 true) true Hok1) as (p2 & HU & Hok2 & _);
    [apply lookup_insert_eq|by left|].
  exists p1, p2. split_and!; [done|done|]. unfold unpinned, wrote, holding, with_pins in *. simpl in *.
  by rewrite insert_insert_eq, delete_insert_id in Hok2.
Qed.

Lemma view_eta v : with_pins v (v_pins v) = v.
Proof. by destruct v. Qed.

(** A new page while another one is held: the old one is written and given back. *)
Lemma new_page p v pid f d :
  pg_ok p (holding v pid f false) -> v_pins v !! pid = None -> 0 < v_left v -> v_next v < 2 ^ 19 - 1 -> room v 2 ->
  v_pins v !! v_next v = None -> pid <> v_next v -> zlen d = BUSTUB_PAGE_SIZE ->
  exists g p1 p2, pg_new p = Ret (Some (g, v_next v), p1) /\ pg_write p1 f d = Ret p2 /\
    pg_data p2 g = Ret zero_page /\
    forall e, zlen e = BUSTUB_PAGE_SIZE ->
      exists p3 p4, pg_write p2 g e = Ret p3 /\ pg_unpin p3 pid true = Ret (true, p4) /\
        pg_ok p4 (holding (mkView (v_size v) (v_next v + 1)
          (upd (upd (upd (v_bytes v) (v_next v) zero_page) pid d) (v_next v) e) (v_pins v) (v_left v - 1))
          (v_next v) g true).
Proof.
  intros Hok Hno Hl Hn Hroom Hnn Hne Hlen.
  destruct (pg_new_ok p _ Hok) as (g & p1 & HN & Hok1); [done|done| |].
  { unfold room, holding in *. simpl. rewrite map_size_insert_None by done. lia. }
  assert (length d = Z.to_nat BUSTUB_PAGE_SIZE) as Hld by (unfold zlen in Hlen; lia).
  destruct (pg_write_ok p1 _ pid (mkPin f 1 false) d Hok1) as (p2 & HW & Hok2); [|done|].
  { simpl. rewrite lookup_insert_ne by done. apply lookup_insert_eq. }
  exists g, p1, p2. split_and!; [done|done| |].
  { pose proof (pg_data_ok p2 _ (v_next v) (mkPin g 1 false) Hok2) as Hd. simpl in Hd.
    rewrite Hd; [|rewrite lookup_insert_ne by done; apply lookup_insert_eq].
    unfold upd. by rewrite decide_False, decide_True. }
  intros e Hle. assert (length e = Z.to_nat BUSTUB_PAGE_SIZE) as Hle' by (unfold zlen in Hle; lia).
  destruct (pg_write_ok p2 _ (v_next v) (mkPin g 1 false) e Hok2) as (p3 & HW3 & Hok3); [|done|].
  { simpl. rewrite lookup_insert_ne by done. apply lookup_insert_eq. }
  destruct (pg_unpin_ok p3 _ pid (mkPin f 1 true) true Hok3) as (p4 & HU & Hok4 & _); [|by left|].
  { simpl. rewrite lookup_insert_ne by done. apply lookup_insert_eq. }
  exists p3, p4. split_and!; [done|done|]. unfold holding, with_pins, unpinned, wrote, created in *. simpl in *.
  match type of Hok4 with pg_ok _ (mkView _ _ _ ?m _) =>
    assert (m = <[v_next v := mkPin g 1 true]> (v_pins v)) as E; [|by rewrite E in Hok4] end.
  apply map_eq. intros k. destruct (decide (k = pid)) as [->|]; [by rewrite lookup_delete_eq, lookup_insert_ne|].
  rewrite lookup_delete_ne by done. destruct (decide (k = v_next v)) as [->|]; [by rewrite !lookup_insert_eq|].
  by rewrite !lookup_insert_ne.
Qed.

Lemma held_write p v pid f w d :
  pg_ok p (holding v pid f w) -> zlen d = BUSTUB_PAGE_SIZE ->
  exists p', pg_write p f d = Ret p' /\ pg_ok p' (holding (stored_page v pid d) pid f true).
Proof.
  intros Hok Hlen. assert (length d = Z.to_nat BUSTUB_PAGE_SIZE) as Hl by (unfold zlen in Hlen; lia).
  destruct (pg_write_ok p _ pid (mkPin f 1 w) d Hok (lookup_insert_eq _ _ _) Hl) as (p1 & HW & Hok1).
  exists p1. split; [done|]. unfold wrote, holding, with_pins, stored_page in *. simpl in *.
  by rewrite insert_insert_eq in Hok1.
Qed.

Lemma held_release p v pid f w :
  pg_ok p (holding v pid f w) -> v_pins v !! pid = None ->
  exists p', pg_unpin p pid true = Ret (true, p') /\ pg_ok p' v.
Proof.
  intros Hok Hno. destruct (pg_unpin_ok p _ pid (mkPin f 1 w) true Hok) as (p' & HU & Hok' & _);
    [apply lookup_insert_eq|by left|].
  exists p'. split; [done|]. unfold unpinned, holding, with_pins in *. simpl in *.
  rewrite delete_insert_id in Hok' by done. by destruct v.
Qed.

(** A view with one more page, and the page held. *)
Definition grown (v : view) (d : list Z) : view :=
  mkView (v_size v) (v_next v + 1) (upd (v_bytes v) (v_next v) d) (v_pins v) (v_left v - 1).

Lemma next_unpinned p v : pg_ok p v -> v_pins v !! v_next v = None.
Proof.
  intros Hok. destruct (v_pins v !! v_next v) as [x|] eqn:E; [|done].
  destruct (pg_pins_ok p v _ x Hok E). lia.
Qed.

Lemma new_held p v :
  pg_ok p v -> 0 < v_left v -> v_next v < 2 ^ 19 - 1 -> room v 1 ->
  exists f p', pg_new p = Ret (Some (f, v_next v), p') /\ pg_data p' f = Ret zero_page /\
    pg_ok p' (holding (grown v zero_page) (v_next v) f false).
Proof.
  intros Hok Hl Hn Hr. destruct (pg_new_ok p v Hok Hl Hn Hr) as (f & p' & HN & Hok').
  exists f, p'. split_and!; [done| |exact Hok'].
  pose proof (pg_data_ok p' _ (v_next v) (mkPin f 1 false) Hok' (lookup_insert_eq _ _ _)) as Hd. simpl in Hd.
  rewrite Hd. unfold upd. by rewrite decide_True.
Qed.
End accesses.
