(* ===== verification/TablePage.v ===== *)
(** * Slotted table pages

    Model of [src/storage/page/table_page.cpp] and [src/include/storage/page/table_page.h] on
    the bytes of a page: the header fields and the slot array are little-endian 32-bit
    words at the offsets of the code, tuple data is copied with [memcpy]/[memmove].  A
    [RID] is a page id and a slot number ([src/include/common/rid.h]).  Failed [BUSTUB_ASSERT]s are
    [Raised].  With [enable_logging] the operations also abort the transaction; the log
    manager's [AppendLogRecord] returns [INVALID_LSN]. *)

From S2P Require Import Prelude.

Local Open Scope Z_scope.
Local Open Scope outcome_scope.

(** ** Record identifiers *)

Record RID := mkRID {
  page_id_ : Z;
  slot_num_ : Z;
}.

Definition RID_default : RID := mkRID (-1) 0.
Definition RID_of_int64 (rid : Z) : RID := mkRID (swrap 32 (Z.shiftr rid 32)) (uwrap 32 rid).
Definition RID_Get (r : RID) : Z := swrap 64 (Z.lor (Z.shiftl (page_id_ r) 32) (slot_num_ r)).
Definition RID_eqb (a b : RID) : bool :=
  (page_id_ a =? page_id_ b) && (slot_num_ a =? slot_num_ b).

(** ** The transaction as far as a page touches it *)

Inductive TransactionState : Type := GROWING | SHRINKING | COMMITTED | ABORTED.

Record Txn := mkTxn {
  state_ : TransactionState;
  prev_lsn_ : Z;
}.

Definition SetState (t : Txn) (s : TransactionState) : Txn := mkTxn s (prev_lsn_ t).

Definition INVALID_LSN : Z := -1.
Definition INVALID_PAGE : Z := -1.
Definition AppendLogRecord : Z := INVALID_LSN.

Section page.
Context (enable_logging : bool).
Implicit Types d : list Z.

Definition abort_txn (t : Txn) : Txn := if enable_logging then SetState t ABORTED else t.

(** ** Header fields *)

Definition SIZE_TABLE_PAGE_HEADER : Z := 24.
Definition SIZE_TUPLE : Z := 8.
Definition OFFSET_LSN : Z := 4.
Definition OFFSET_PREV_PAGE_ID : Z := 8.
Definition OFFSET_NEXT_PAGE_ID : Z := 12.
Definition OFFSET_FREE_SPACE : Z := 16.
Definition OFFSET_TUPLE_COUNT : Z := 20.
Definition OFFSET_TUPLE_OFFSET : Z := 24.
Definition OFFSET_TUPLE_SIZE : Z := 28.

Definition GetTablePageId d : Z := get_i32 d 0.
Definition GetLSN d : Z := get_i32 d OFFSET_LSN.
Definition GetPrevPageId d : Z := get_i32 d OFFSET_PREV_PAGE_ID.
Definition GetNextPageId d : Z := get_i32 d OFFSET_NEXT_PAGE_ID.
Definition SetLSN d (lsn : Z) : list Z := put_u32 d OFFSET_LSN lsn.
Definition SetPrevPageId d (p : Z) : list Z := put_u32 d OFFSET_PREV_PAGE_ID p.
Definition SetNextPageId d (p : Z) : list Z := put_u32 d OFFSET_NEXT_PAGE_ID p.

Definition GetFreeSpacePointer d : Z := get_u32 d OFFSET_FREE_SPACE.
Definition SetFreeSpacePointer d (p : Z) : list Z := put_u32 d OFFSET_FREE_SPACE p.
Definition GetTupleCount d : Z := get_u32 d OFFSET_TUPLE_COUNT.
Definition SetTupleCount d (n : Z) : list Z := put_u32 d OFFSET_TUPLE_COUNT n.
Definition GetFreeSpaceRemaining d : Z :=
  uwrap 32 (GetFreeSpacePointer d - SIZE_TABLE_PAGE_HEADER - SIZE_TUPLE * GetTupleCount d).

Definition GetTupleOffsetAtSlot d (i : Z) : Z := get_u32 d (OFFSET_TUPLE_OFFSET + SIZE_TUPLE * i).
Definition SetTupleOffsetAtSlot d (i off : Z) : list Z := put_u32 d (OFFSET_TUPLE_OFFSET + SIZE_TUPLE * i) off.
Definition GetTupleSize d (i : Z) : Z := get_u32 d (OFFSET_TUPLE_SIZE + SIZE_TUPLE * i).
Definition SetTupleSize d (i sz : Z) : list Z := put_u32 d (OFFSET_TUPLE_SIZE + SIZE_TUPLE * i) sz.

Definition DELETE_MASK : Z := 2 ^ 31.
Definition IsDeleted (tuple_size : Z) : bool :=
  negb (Z.land tuple_size DELETE_MASK =? 0) || (tuple_size =? 0).
Definition SetDeletedFlag (tuple_size : Z) : Z := uwrap 32 (Z.lor tuple_size DELETE_MASK).
Definition UnsetDeletedFlag (tuple_size : Z) : Z :=
  uwrap 32 (Z.land tuple_size (uwrap 64 (Z.lnot DELETE_MASK))).

Definition memmove d (dst src n : Z) : list Z := splice dst (slice src n d) d.

(** ** Operations *)

Definition Init d (page_id page_size prev_page_id : Z) (t : Txn) : list Z * Txn :=
  let d := put_u32 d 0 page_id in
  let '(d, t) :=
    if enable_logging
    then (SetLSN d AppendLogRecord, mkTxn (state_ t) AppendLogRecord)
    else (d, t) in
  let d := SetPrevPageId d prev_page_id in
  let d := SetNextPageId d INVALID_PAGE in
  let d := SetFreeSpacePointer d page_size in
  (SetTupleCount d 0, t).

(** The first slot in [i, i + fuel) whose tuple has size 0, else the last index. *)
Fixpoint find_free_slot (fuel : nat) d (i : Z) : Z :=
  match fuel with
  | O => i
  | S fuel => if GetTupleSize d i =? 0 then i else find_free_slot fuel d (i + 1)
  end.

Definition InsertTuple d (tuple : list Z) : outcome (option RID * list Z) :=
  let size := zlen tuple in
  if negb (0 <? size) then Raised
  else if GetFreeSpaceRemaining d <? size + SIZE_TUPLE then Ret (None, d)
  else
    let i := find_free_slot (Z.to_nat (GetTupleCount d)) d 0 in
    if (i =? GetTupleCount d) && (GetFreeSpaceRemaining d <? size + SIZE_TUPLE) then Ret (None, d)
    else
      let d := SetFreeSpacePointer d (uwrap 32 (GetFreeSpacePointer d - size)) in
      let d := splice (GetFreeSpacePointer d) tuple d in
      let d := SetTupleOffsetAtSlot d i (GetFreeSpacePointer d) in
      let d := SetTupleSize d i size in
      let rid := mkRID (GetTablePageId d) i in
      Ret (Some rid, if i =? GetTupleCount d then SetTupleCount d (GetTupleCount d + 1) else d).

Definition MarkDelete d (rid : RID) (t : Txn) : bool * list Z * Txn :=
  let slot_num := slot_num_ rid in
  if GetTupleCount d <=? slot_num then (false, d, abort_txn t)
  else
    let tuple_size := GetTupleSize d slot_num in
    if IsDeleted tuple_size then (false, d, abort_txn t)
    else (true, if 0 <? tuple_size then SetTupleSize d slot_num (SetDeletedFlag tuple_size) else d, t).

(** The offsets of the slots that satisfy [cond] move by [delta]. *)
Fixpoint shift_offsets (fuel : nat) (cond : Z -> Z -> bool) (delta : Z) d (i : Z) : list Z :=
  match fuel with
  | O => d
  | S fuel =>
      let off := GetTupleOffsetAtSlot d i in
      let d := if cond (GetTupleSize d i) off then SetTupleOffsetAtSlot d i (uwrap 32 (off + delta)) else d in
      shift_offsets fuel cond delta d (i + 1)
  end.

(** The old tuple is [None] when the update is refused. *)
Definition UpdateTuple d (new_tuple : list Z) (rid : RID) (t : Txn)
    : outcome (option (list Z) * list Z * Txn) :=
  let new_size := zlen new_tuple in
  if negb (0 <? new_size) then Raised
  else
    let slot_num := slot_num_ rid in
    if GetTupleCount d <=? slot_num then Ret (None, d, abort_txn t)
    else
      let tuple_size := GetTupleSize d slot_num in
      if IsDeleted tuple_size then Ret (None, d, abort_txn t)
      else if uwrap 32 (GetFreeSpaceRemaining d + tuple_size) <? new_size then Ret (None, d, t)
      else
        let tuple_offset := GetTupleOffsetAtSlot d slot_num in
        let old_tuple := slice tuple_offset tuple_size d in
        let fsp := GetFreeSpacePointer d in
        if tuple_offset <? fsp then Raised
        else
          let d := memmove d (fsp + tuple_size - new_size) fsp (tuple_offset - fsp) in
          let d := SetFreeSpacePointer d (uwrap 32 (fsp + tuple_size - new_size)) in
          let d := splice (tuple_offset + tuple_size - new_size) new_tuple d in
          let d := SetTupleSize d slot_num new_size in
          let d := shift_offsets (Z.to_nat (GetTupleCount d))
                     (fun size off => (0 <? size) && (off <? uwrap 32 (tuple_offset + tuple_size)))
                     (tuple_size - new_size) d 0 in
          Ret (Some old_tuple, d, t).

Definition ApplyDelete d (rid : RID) : outcome (list Z) :=
  let slot_num := slot_num_ rid in
  if GetTupleCount d <=? slot_num then Raised
  else
    let tuple_offset := GetTupleOffsetAtSlot d slot_num in
    let tuple_size := GetTupleSize d slot_num in
    let tuple_size := if IsDeleted tuple_size then UnsetDeletedFlag tuple_size else tuple_size in
    let fsp := GetFreeSpacePointer d in
    if tuple_offset <? fsp then Raised
    else
      let d := memmove d (fsp + tuple_size) fsp (tuple_offset - fsp) in
      let d := SetFreeSpacePointer d (uwrap 32 (fsp + tuple_size)) in
      let d := SetTupleSize d slot_num 0 in
      let d := SetTupleOffsetAtSlot d slot_num 0 in
      Ret (shift_offsets (Z.to_nat (GetTupleCount d))
             (fun size off => negb (size =? 0) && (off <? tuple_offset)) tuple_size d 0).

Definition RollbackDelete d (rid : RID) : outcome (list Z) :=
  let slot_num := slot_num_ rid in
  if GetTupleCount d <=? slot_num then Raised
  else
    let tuple_size := GetTupleSize d slot_num in
    Ret (if IsDeleted tuple_size then SetTupleSize d slot_num (UnsetDeletedFlag tuple_size) else d).

Definition GetTuple d (rid : RID) (t : Txn) : option (list Z) * Txn :=
  let slot_num := slot_num_ rid in
  if GetTupleCount d <=? slot_num then (None, abort_txn t)
  else
    let tuple_size := GetTupleSize d slot_num in
    if IsDeleted tuple_size then (None, abort_txn t)
    else (Some (slice (GetTupleOffsetAtSlot d slot_num) tuple_size d), t).

(** The first slot in [i, i + fuel) that holds a tuple. *)
Fixpoint find_tuple (fuel : nat) d (i : Z) : option Z :=
  match fuel with
  | O => None
  | S fuel => if negb (IsDeleted (GetTupleSize d i)) then Some i else find_tuple fuel d (i + 1)
  end.

Definition rid_or_invalid d (i : option Z) : bool * RID :=
  match i with
  | Some i => (true, mkRID (GetTablePageId d) i)
  | None => (false, mkRID INVALID_PAGE 0)
  end.

Definition GetFirstTupleRid d : bool * RID :=
  rid_or_invalid d (find_tuple (Z.to_nat (GetTupleCount d)) d 0).

Definition GetNextTupleRid d (cur_rid : RID) : outcome (bool * RID) :=
  if negb (page_id_ cur_rid =? GetTablePageId d) then Raised
  else
    let i := uwrap 32 (slot_num_ cur_rid + 1) in
    Ret (rid_or_invalid d (find_tuple (Z.to_nat (GetTupleCount d - i)) d i)).

End page.

(** ** RID round trip *)

(** A [RID] packed into 64 bits unpacks to itself. *)
Theorem RID_roundtrip r :
  sfits 32 (page_id_ r) -> ufits 32 (slot_num_ r) -> RID_of_int64 (RID_Get r) = r.
Proof.
  intros Hp Hs. unfold sfits, ufits in *. destruct r as [p s]. simpl in *. unfold RID_Get. simpl.
  rewrite shiftl_lor_add by lia. rewrite swrap_id by (unfold sfits; lia). unfold RID_of_int64.
  rewrite Z.shiftr_div_pow2 by lia. rewrite Z.div_add_l by lia. rewrite (Z.div_small s) by lia.
  rewrite Z.add_0_r, swrap_id by (unfold sfits; lia). unfold uwrap.
  rewrite Z.add_comm, Z.mod_add by lia. by rewrite Z.mod_small by lia.
Qed.

Lemma RID_roundtrip_witness : RID_of_int64 (RID_Get (mkRID 7 3)) = mkRID 7 3.
Proof. apply (RID_roundtrip (mkRID 7 3)); unfold sfits, ufits; simpl; lia. Defined.

(** ** The deleted flag *)

Definition tlen (tuple_size : Z) : Z := UnsetDeletedFlag tuple_size.

Lemma UnsetDeletedFlag_mod s : ufits 32 s -> UnsetDeletedFlag s = s mod 2 ^ 31.
Proof.
  unfold ufits, UnsetDeletedFlag. intros Hs.
  assert (E : Z.land s (uwrap 64 (Z.lnot DELETE_MASK)) = Z.land s (Z.ones 31)).
  { rewrite <- (Z.mod_small s (2 ^ 32)) by lia. rewrite <- Z.land_ones by lia.
    rewrite <- !Z.land_assoc. f_equal. }
  rewrite E, Z.land_ones by lia. apply uwrap_id. unfold ufits. pose proof (Z.mod_pos_bound s (2 ^ 31)). lia.
Qed.

Lemma IsDeleted_iff s : ufits 32 s -> IsDeleted s = true <-> s = 0 \/ 2 ^ 31 <= s.
Proof.
  unfold ufits, IsDeleted, DELETE_MASK. intros Hs.
  rewrite orb_true_iff, negb_true_iff, Z.eqb_neq, Z.eqb_eq, land_pow2 by lia.
  assert (Ht : Z.testbit s 31 = (2 ^ 31 <=? s)).
  { rewrite Z.testbit_odd, Z.shiftr_div_pow2 by lia.
    destruct (Z.leb_spec (2 ^ 31) s).
    - replace (s / 2 ^ 31) with 1 by (apply Z.div_unique with (s - 2 ^ 31); lia). done.
    - by rewrite Z.div_small by lia. }
  rewrite Ht. destruct (Z.leb_spec (2 ^ 31) s); naive_solver lia.
Qed.

Lemma IsDeleted_marked s : 2 ^ 31 <= s < 2 ^ 32 -> IsDeleted s = true.
Proof. intros Hs. apply IsDeleted_iff; [unfold ufits; lia|lia]. Qed.

Lemma IsDeleted_live s : 0 < s < 2 ^ 31 -> IsDeleted s = false.
Proof.
  intros Hs. destruct (IsDeleted s) eqn:E; [|done]. apply IsDeleted_iff in E; unfold ufits; lia.
Qed.

Lemma tlen_live s : 0 <= s < 2 ^ 31 -> tlen s = s.
Proof. intros Hs. unfold tlen. rewrite UnsetDeletedFlag_mod by (unfold ufits; lia). apply Z.mod_small. lia. Qed.

Lemma SetDeletedFlag_add s : 0 <= s < 2 ^ 31 -> SetDeletedFlag s = s + 2 ^ 31.
Proof.
  intros Hs. unfold SetDeletedFlag, DELETE_MASK. rewrite Z.lor_comm, <- (Z.mul_1_l (2 ^ 31)).
  rewrite lor_mul_pow2 by lia. rewrite uwrap_id; unfold ufits; lia.
Qed.

Lemma tlen_marked s : 0 <= s < 2 ^ 31 -> tlen (s + 2 ^ 31) = s.
Proof.
  intros Hs. unfold tlen. rewrite UnsetDeletedFlag_mod by (unfold ufits; lia).
  rewrite <- (Z.mul_1_l (2 ^ 31)) at 1. rewrite Z.mod_add by lia. apply Z.mod_small. lia.
Qed.

(** ** Steps on the bytes of a page *)

(** [d'] is [d] with the bytes of [off, off + n) replaced. *)
Record changed (P : Z) (d d' : list Z) (off n : Z) : Prop := {
  ch_len : zlen d' = P;
  ch_ok : Forall byte_ok d';
  ch_word : forall o, 0 <= o -> o + 4 <= off \/ off + n <= o -> get_u32 d' o = get_u32 d o;
  ch_slice : forall o l, 0 <= o -> o + l <= off \/ off + n <= o -> slice o l d' = slice o l d;
}.

Lemma put_changed P d off v :
  zlen d = P -> Forall byte_ok d -> 0 <= off -> off + 4 <= P ->
  changed P d (put_u32 d off v) off 4 /\ get_u32 (put_u32 d off v) off = uwrap 32 v.
Proof.
  intros <- Hok H0 H1. split; [split|].
  - apply zlen_put_u; lia.
  - by apply put_u_ok.
  - intros o Ho Hor. apply get_put_u_disj; lia.
  - intros o l Ho Hor. unfold put_u. apply slice_splice_disj; unfold zlen in *; rewrite ?length_le_encode; lia.
  - apply get_put_u; lia.
Qed.

Lemma splice_changed P d off bs :
  zlen d = P -> Forall byte_ok d -> Forall byte_ok bs -> 0 <= off -> off + zlen bs <= P ->
  changed P d (splice off bs d) off (zlen bs) /\ slice off (zlen bs) (splice off bs d) = bs.
Proof.
  intros <- Hok Hbs H0 H1. split; [split|].
  - by apply zlen_splice.
  - by apply Forall_splice.
  - intros o Ho Hor. by apply get_u_splice_disj.
  - intros o l Ho Hor. by apply slice_splice_disj.
  - by apply slice_splice_same.
Qed.

(** ** Well-formed pages *)

Abbreviation cnt := GetTupleCount.
Abbreviation fsp := GetFreeSpacePointer.
Abbreviation off := GetTupleOffsetAtSlot.
Abbreviation siz := GetTupleSize.

(** Slot array and free space in bounds; the tuples lie above the free space pointer and
    do not overlap. *)
Record page_wf (P : Z) (d : list Z) : Prop := {
  pw_len : zlen d = P;
  pw_size : 24 <= P < 2 ^ 31;
  pw_ok : Forall byte_ok d;
  pw_fsp : 24 + 8 * cnt d <= fsp d <= P;
  pw_slot : forall i, 0 <= i < cnt d -> siz d i <> 0 ->
    fsp d <= off d i /\ off d i + tlen (siz d i) <= P /\ 0 < tlen (siz d i);
  pw_disj : forall i j, 0 <= i < cnt d -> 0 <= j < cnt d -> i <> j -> siz d i <> 0 -> siz d j <> 0 ->
    off d i + tlen (siz d i) <= off d j \/ off d j + tlen (siz d j) <= off d i;
}.

(** What a slot holds: nothing, or a tuple that may be marked deleted. *)
Definition tuple_at (d : list Z) (i : Z) : option (bool * list Z) :=
  if decide (0 <= i < cnt d /\ siz d i <> 0)
  then Some (IsDeleted (siz d i), slice (off d i) (tlen (siz d i)) d)
  else None.

(** The header fields that tuples do not touch. *)
Definition same_links (d d' : list Z) : Prop :=
  GetTablePageId d' = GetTablePageId d /\ GetLSN d' = GetLSN d /\
  GetPrevPageId d' = GetPrevPageId d /\ GetNextPageId d' = GetNextPageId d.

Lemma word_fits d o : Forall byte_ok d -> 0 <= get_u32 d o < 2 ^ 32.
Proof. intros Hd. apply (get_u_bound 4 d o Hd). Qed.

Lemma cnt_nonneg d : Forall byte_ok d -> 0 <= cnt d.
Proof. intros Hd. apply (word_fits d _ Hd). Qed.

Lemma free_space P d : page_wf P d -> GetFreeSpaceRemaining d = fsp d - 24 - 8 * cnt d.
Proof.
  intros Hw. pose proof (pw_fsp _ _ Hw). pose proof (pw_size _ _ Hw). pose proof (cnt_nonneg d (pw_ok _ _ Hw)).
  unfold GetFreeSpaceRemaining, SIZE_TABLE_PAGE_HEADER, SIZE_TUPLE. apply uwrap_id. unfold ufits. lia.
Qed.

Lemma find_free_slot_spec d fuel : forall i,
  i <= find_free_slot fuel d i <= i + Z.of_nat fuel /\
  (forall j, i <= j < find_free_slot fuel d i -> siz d j <> 0) /\
  (find_free_slot fuel d i < i + Z.of_nat fuel -> siz d (find_free_slot fuel d i) = 0).
Proof.
  induction fuel as [|fuel IH]; intros i; simpl; [split_and!; lia|].
  destruct (Z.eqb_spec (GetTupleSize d i) 0) as [E|E].
  - split_and!; lia.
  - destruct (IH (i + 1)) as (H1 & H2 & H3). split_and!; [lia|lia| |intros; apply H3; lia].
    intros j Hj. destruct (decide (j = i)) as [->|]; [done|]. apply H2. lia.
Qed.

(** Fields outside the changed range. *)
Section changed_fields.
Context (P : Z) (d d' : list Z) (o n : Z).
Hypothesis Hc : changed P d d' o n.

Lemma changed_cnt : o + n <= 20 \/ 24 <= o -> cnt d' = cnt d.
Proof. intros. apply (ch_word _ _ _ _ _ Hc); unfold OFFSET_TUPLE_COUNT; lia. Qed.

Lemma changed_fsp : o + n <= 16 \/ 20 <= o -> fsp d' = fsp d.
Proof. intros. apply (ch_word _ _ _ _ _ Hc); unfold OFFSET_FREE_SPACE; lia. Qed.

Lemma changed_off j : 0 <= j -> o + n <= 24 + 8 * j \/ 28 + 8 * j <= o -> off d' j = off d j.
Proof. intros. apply (ch_word _ _ _ _ _ Hc); unfold OFFSET_TUPLE_OFFSET, SIZE_TUPLE; lia. Qed.

Lemma changed_siz j : 0 <= j -> o + n <= 28 + 8 * j \/ 32 + 8 * j <= o -> siz d' j = siz d j.
Proof. intros. apply (ch_word _ _ _ _ _ Hc); unfold OFFSET_TUPLE_SIZE, SIZE_TUPLE; lia. Qed.

Lemma changed_links : 16 <= o -> same_links d d'.
Proof.
  intros Ho. unfold same_links, GetTablePageId, GetLSN, GetPrevPageId, GetNextPageId, get_i32,
    OFFSET_LSN, OFFSET_PREV_PAGE_ID, OFFSET_NEXT_PAGE_ID.
  rewrite !(ch_word _ _ _ _ _ Hc) by lia. done.
Qed.

End changed_fields.

Section setters.
Context (P : Z) (d : list Z).
Hypothesis Hl : zlen d = P.
Hypothesis Hok : Forall byte_ok d.

Lemma set_fsp_spec v : 24 <= P ->
  changed P d (SetFreeSpacePointer d v) 16 4 /\ fsp (SetFreeSpacePointer d v) = uwrap 32 v.
Proof. intros. apply put_changed; unfold OFFSET_FREE_SPACE; auto; lia. Qed.

Lemma set_cnt_spec v : 24 <= P ->
  changed P d (SetTupleCount d v) 20 4 /\ cnt (SetTupleCount d v) = uwrap 32 v.
Proof. intros. apply put_changed; unfold OFFSET_TUPLE_COUNT; auto; lia. Qed.

Lemma set_off_spec i v : 0 <= i -> 32 + 8 * i <= P ->
  changed P d (SetTupleOffsetAtSlot d i v) (24 + 8 * i) 4 /\ off (SetTupleOffsetAtSlot d i v) i = uwrap 32 v.
Proof. intros. apply put_changed; unfold OFFSET_TUPLE_OFFSET, SIZE_TUPLE; auto; lia. Qed.

Lemma set_siz_spec i v : 0 <= i -> 32 + 8 * i <= P ->
  changed P d (SetTupleSize d i v) (28 + 8 * i) 4 /\ siz (SetTupleSize d i v) i = uwrap 32 v.
Proof. intros. apply put_changed; unfold OFFSET_TUPLE_SIZE, SIZE_TUPLE; auto; lia. Qed.

End setters.

Lemma same_links_trans d1 d2 d3 : same_links d1 d2 -> same_links d2 d3 -> same_links d1 d3.
Proof. unfold same_links. intros (? & ? & ? & ?) (? & ? & ? & ?). split_and!; congruence. Qed.

#[export] Instance same_links_refl : Reflexive same_links.
Proof. by unfold same_links. Qed.

(** Rewrite fields back through the listed changes. *)
Ltac fields C :=
  first [rewrite (changed_cnt _ _ _ _ _ C) by lia | rewrite (changed_fsp _ _ _ _ _ C) by lia
        |rewrite (changed_off _ _ _ _ _ C) by lia | rewrite (changed_siz _ _ _ _ _ C) by lia
        |rewrite (ch_slice _ _ _ _ _ C) by lia].

(** ** Inserting *)

(** The fields of a page after a tuple was stored in slot [i]. *)
Record inserted (P : Z) (d : list Z) (i : Z) (tuple d' : list Z) : Prop := {
  in_len : zlen d' = P;
  in_ok : Forall byte_ok d';
  in_links : same_links d d';
  in_cnt : cnt d' = Z.max (cnt d) (i + 1);
  in_fsp : fsp d' = fsp d - zlen tuple;
  in_off : forall j, 0 <= j < cnt d' -> off d' j = if decide (j = i) then fsp d' else off d j;
  in_siz : forall j, 0 <= j < cnt d' -> siz d' j = if decide (j = i) then zlen tuple else siz d j;
  in_old : forall o l, fsp d <= o -> slice o l d' = slice o l d;
  in_new : slice (fsp d') (zlen tuple) d' = tuple;
}.

Lemma store_tuple P d tuple i :
  page_wf P d -> 0 < zlen tuple -> Forall byte_ok tuple -> 0 <= i <= cnt d ->
  zlen tuple + 8 <= fsp d - 24 - 8 * cnt d ->
  let d1 := SetFreeSpacePointer d (uwrap 32 (fsp d - zlen tuple)) in
  let d2 := splice (fsp d1) tuple d1 in
  let d3 := SetTupleOffsetAtSlot d2 i (fsp d2) in
  let d4 := SetTupleSize d3 i (zlen tuple) in
  cnt d4 = cnt d /\ GetTablePageId d4 = GetTablePageId d /\
  inserted P d i tuple (if i =? cnt d4 then SetTupleCount d4 (cnt d4 + 1) else d4).
Proof.
  intros Hw Hs Hb Hi Hroom. cbv zeta. destruct Hw as [Hlen HP Hok Hf _ _].
  pose proof (cnt_nonneg d Hok) as Hc0. rewrite (uwrap_id 32 (fsp d - _)) by (unfold ufits; lia).
  destruct (set_fsp_spec P d Hlen Hok (fsp d - zlen tuple)) as [C1 E1]; [lia|].
  rewrite uwrap_id in E1 by (unfold ufits; lia). revert C1 E1.
  generalize (SetFreeSpacePointer d (fsp d - zlen tuple)). intros d1 C1 E1. rewrite E1.
  destruct (splice_changed P d1 (fsp d - zlen tuple) tuple (ch_len _ _ _ _ _ C1) (ch_ok _ _ _ _ _ C1) Hb)
    as [C2 E2]; [lia|lia|].
  revert C2 E2. generalize (splice (fsp d - zlen tuple) tuple d1). intros d2 C2 E2.
  assert (Ef2 : fsp d2 = fsp d - zlen tuple) by (fields C2; done). rewrite Ef2.
  destruct (set_off_spec P d2 (ch_len _ _ _ _ _ C2) (ch_ok _ _ _ _ _ C2) i (fsp d - zlen tuple)) as [C3 E3]; [lia|lia|].
  rewrite uwrap_id in E3 by (unfold ufits; lia).
  revert C3 E3. generalize (SetTupleOffsetAtSlot d2 i (fsp d - zlen tuple)). intros d3 C3 E3.
  destruct (set_siz_spec P d3 (ch_len _ _ _ _ _ C3) (ch_ok _ _ _ _ _ C3) i (zlen tuple)) as [C4 E4]; [lia|lia|].
  rewrite uwrap_id in E4 by (unfold ufits; lia).
  revert C4 E4. generalize (SetTupleSize d3 i (zlen tuple)). intros d4 C4 E4.
  assert (HL : same_links d d4).
  { eapply same_links_trans; [eapply (changed_links _ _ _ _ _ C1); lia|].
    eapply same_links_trans; [eapply (changed_links _ _ _ _ _ C2); lia|].
    eapply same_links_trans; [eapply (changed_links _ _ _ _ _ C3); lia|].
    eapply (changed_links _ _ _ _ _ C4); lia. }
  assert (Ec : cnt d4 = cnt d) by (fields C4; fields C3; fields C2; fields C1; done).
  assert (H4 : forall j, 0 <= j <= cnt d -> off d4 j = if decide (j = i) then fsp d - zlen tuple else off d j).
  { intros j Hj. fields C4. destruct (decide (j = i)) as [->|]; [done|]. fields C3. fields C2. by fields C1. }
  assert (H5 : forall j, 0 <= j <= cnt d -> siz d4 j = if decide (j = i) then zlen tuple else siz d j).
  { intros j Hj. destruct (decide (j = i)) as [->|]; [done|]. fields C4. fields C3. fields C2. by fields C1. }
  assert (Ef4 : fsp d4 = fsp d - zlen tuple) by (fields C4; fields C3; done).
  split; [done|]. split; [apply HL|].
  assert (Hgo : forall d5, (cnt d5 = Z.max (cnt d) (i + 1)) -> (d5 = d4 \/ changed P d4 d5 20 4) ->
    inserted P d i tuple d5).
  { intros d5 Hcd [->|C5].
    - split; auto; try (apply (ch_len _ _ _ _ _ C4)); try (apply (ch_ok _ _ _ _ _ C4)).
      + intros j Hj. rewrite H4 by lia. by rewrite Ef4.
      + intros j Hj. by rewrite H5 by lia.
      + intros o l Ho. fields C4. fields C3. fields C2. by fields C1.
      + rewrite Ef4. fields C4. by fields C3.
    - assert (Ef5 : fsp d5 = fsp d4) by (by fields C5).
      split; auto; try (apply (ch_len _ _ _ _ _ C5)); try (apply (ch_ok _ _ _ _ _ C5)).
      + eapply same_links_trans; [done|]. eapply (changed_links _ _ _ _ _ C5); lia.
      + lia.
      + intros j Hj. rewrite (changed_off _ _ _ _ _ C5), H4 by lia. by rewrite Ef5, Ef4.
      + intros j Hj. rewrite (changed_siz _ _ _ _ _ C5), H5 by lia. done.
      + intros o l Ho. fields C5. fields C4. fields C3. fields C2. by fields C1.
      + rewrite Ef5, Ef4. fields C5. fields C4. by fields C3. }
  destruct (Z.eqb_spec i (cnt d4)) as [E|E].
  - destruct (set_cnt_spec P d4 (ch_len _ _ _ _ _ C4) (ch_ok _ _ _ _ _ C4) (cnt d4 + 1)) as [C5 E5]; [lia|].
    rewrite uwrap_id in E5 by (unfold ufits; lia). apply Hgo; [lia|by right].
  - apply Hgo; [lia|by left].
Qed.

Lemma inserted_wf P d i tuple d' :
  page_wf P d -> inserted P d i tuple d' -> 0 < zlen tuple -> 0 <= i <= cnt d ->
  zlen tuple + 8 <= fsp d - 24 - 8 * cnt d -> page_wf P d'.
Proof.
  intros [Hlen HP Hok Hf Hslot Hdisj] [I1 I2 I3 I4 I5 I6 I7 I8 I9] Hs Hi Hroom.
  pose proof (cnt_nonneg d Hok). assert (Ht : tlen (zlen tuple) = zlen tuple) by (apply tlen_live; lia).
  split; auto.
  - lia.
  - intros j Hj Hsz. rewrite I6, I7 in * by done. destruct (decide (j = i)) as [->|Hne]; [lia|].
    destruct (Hslot j) as (? & ? & ?); [lia|done|]. lia.
  - intros j k Hj Hk Hjk Hsj Hsk. rewrite !I6, !I7 in * by done.
    destruct (decide (j = i)) as [->|Hj'], (decide (k = i)) as [->|Hk']; [done| | |].
    + left. destruct (Hslot k) as (? & ? & ?); [lia|done|]. lia.
    + right. destruct (Hslot j) as (? & ? & ?); [lia|done|]. lia.
    + apply Hdisj; (done || lia).
Qed.

Lemma inserted_tuples P d i tuple d' :
  page_wf P d -> inserted P d i tuple d' -> 0 < zlen tuple -> 0 <= i <= cnt d ->
  zlen tuple + 8 <= fsp d - 24 - 8 * cnt d ->
  tuple_at d' i = Some (false, tuple) /\ forall j, j <> i -> tuple_at d' j = tuple_at d j.
Proof.
  intros [Hlen HP Hok Hf Hslot Hdisj] [I1 I2 I3 I4 I5 I6 I7 I8 I9] Hs Hi Hroom.
  pose proof (cnt_nonneg d Hok). assert (Ht : tlen (zlen tuple) = zlen tuple) by (apply tlen_live; lia).
  split.
  - assert (Hsi : siz d' i = zlen tuple) by (rewrite I7 by lia; by rewrite decide_True).
    assert (Hoi : off d' i = fsp d') by (rewrite I6 by lia; by rewrite decide_True).
    unfold tuple_at. rewrite Hsi, Hoi, decide_True by lia. by rewrite Ht, I9, IsDeleted_live by lia.
  - intros j Hne. unfold tuple_at. destruct (decide (0 <= j < cnt d /\ siz d j <> 0)) as [[Hj Hsz]|Hno].
    + assert (Hsj : siz d' j = siz d j) by (rewrite I7 by lia; by rewrite decide_False).
      assert (Hoj : off d' j = off d j) by (rewrite I6 by lia; by rewrite decide_False).
      rewrite Hsj, Hoj, decide_True by (split; [lia|done]).
      destruct (Hslot j Hj Hsz). by rewrite I8 by lia.
    + rewrite decide_False; [done|]. intros [Hj Hsz]. rewrite I7, decide_False in Hsz by lia.
      apply Hno. split; [lia|done].
Qed.

Lemma InsertTuple_spec P d tuple :
  page_wf P d -> 0 < zlen tuple < 2 ^ 31 -> Forall byte_ok tuple ->
  if decide (fsp d - 24 - 8 * cnt d < zlen tuple + 8) then InsertTuple d tuple = Ret (None, d)
  else exists i d', InsertTuple d tuple = Ret (Some (mkRID (GetTablePageId d) i), d') /\
    page_wf P d' /\ same_links d d' /\
    0 <= i <= cnt d /\ tuple_at d i = None /\ (forall j, 0 <= j < i -> tuple_at d j <> None) /\
    tuple_at d' i = Some (false, tuple) /\ (forall j, j <> i -> tuple_at d' j = tuple_at d j).
Proof.
  intros Hw Hs Hb. pose proof (free_space _ _ Hw) as Hfree. pose proof (cnt_nonneg d (pw_ok _ _ Hw)) as Hc0.
  unfold InsertTuple. destruct (Z.ltb_spec 0 (zlen tuple)); [|lia]. cbn [negb]. rewrite Hfree.
  unfold SIZE_TUPLE.
  destruct (decide (fsp d - 24 - 8 * cnt d < zlen tuple + 8)) as [Hroom|Hroom];
    destruct (Z.ltb_spec (fsp d - 24 - 8 * cnt d) (zlen tuple + 8)) as [Hlt|Hge]; try lia; [done|].
  rewrite andb_false_r.
  destruct (find_free_slot_spec d (Z.to_nat (cnt d)) 0) as (Hi1 & Hi2 & Hi3).
  set (i := find_free_slot (Z.to_nat (cnt d)) d 0) in *.
  destruct (store_tuple P d tuple i) as (Hc4 & Hid & Hins); [done|lia|done|lia|lia|].
  eexists i, _. split; [by rewrite Hid|].
  destruct (inserted_tuples P d i tuple _ Hw Hins) as [Ht1 Ht2]; [lia|lia|lia|].
  split_and!; auto; try lia.
  - eapply inserted_wf; eauto; lia.
  - by apply in_links in Hins.
  - unfold tuple_at. rewrite decide_False; [done|]. intros [? Hne]. apply Hne, Hi3. lia.
  - intros j Hj. unfold tuple_at. rewrite decide_True; [done|]. split; [lia|]. apply Hi2. lia.
Qed.

(** C16: [InsertTuple] returns.  With room for the tuple and a slot it stores the tuple in
    the first empty slot (a new one if none is empty), every other slot and the header
    links keep their contents and the page stays well formed; without room it refuses and
    the page is unchanged. *)
Theorem InsertTuple_correct P d tuple :
  page_wf P d -> 0 < zlen tuple < 2 ^ 31 -> Forall byte_ok tuple ->
  if decide (fsp d - 24 - 8 * cnt d < zlen tuple + 8) then InsertTuple d tuple = Ret (None, d)
  else exists i d', InsertTuple d tuple = Ret (Some (mkRID (GetTablePageId d) i), d') /\
    page_wf P d' /\ same_links d d' /\
    0 <= i <= cnt d /\ tuple_at d i = None /\ (forall j, 0 <= j < i -> tuple_at d j <> None) /\
    tuple_at d' i = Some (false, tuple) /\ (forall j, j <> i -> tuple_at d' j = tuple_at d j).
Proof. apply InsertTuple_spec. Qed.

Lemma GetTuple_spec enable_logging P d rid t :
  page_wf P d -> 0 <= slot_num_ rid ->
  GetTuple enable_logging d rid t =
    match tuple_at d (slot_num_ rid) with
    | Some (false, bytes) => (Some bytes, t)
    | _ => (None, abort_txn enable_logging t)
    end.
Proof.
  intros Hw Hr. unfold GetTuple, tuple_at. set (i := slot_num_ rid) in *.
  destruct (Z.leb_spec (cnt d) i); [by rewrite decide_False by lia|].
  pose proof (word_fits d (OFFSET_TUPLE_SIZE + SIZE_TUPLE * i) (pw_ok _ _ Hw)) as Hfit.
  fold (siz d i) in Hfit. destruct (IsDeleted (siz d i)) eqn:E.
  - by case_decide.
  - assert (siz d i <> 0).
    { intros E0. rewrite E0 in E. vm_compute in E. discriminate. }
    rewrite decide_True by lia. rewrite tlen_live; [done|].
    destruct (Z.lt_ge_cases (siz d i) (2 ^ 31)); [lia|].
    assert (IsDeleted (siz d i) = true) by (apply IsDeleted_iff; [exact Hfit|by right]). congruence.
Qed.

(** [GetTuple] returns exactly the tuples that are present and not marked deleted;
    otherwise it fails, and aborts the transaction if logging is enabled. *)
Theorem GetTuple_correct enable_logging P d rid t :
  page_wf P d -> 0 <= slot_num_ rid ->
  GetTuple enable_logging d rid t =
    match tuple_at d (slot_num_ rid) with
    | Some (false, bytes) => (Some bytes, t)
    | _ => (None, abort_txn enable_logging t)
    end.
Proof. apply GetTuple_spec. Qed.

(** ** Marking a tuple deleted and back *)

Lemma resize_slot P d i s :
  page_wf P d -> 0 <= i < cnt d -> siz d i <> 0 -> 0 < s < 2 ^ 32 -> tlen s = tlen (siz d i) ->
  page_wf P (SetTupleSize d i s) /\ same_links d (SetTupleSize d i s) /\
  cnt (SetTupleSize d i s) = cnt d /\
  tuple_at (SetTupleSize d i s) i = Some (IsDeleted s, slice (off d i) (tlen s) d) /\
  (forall j, j <> i -> tuple_at (SetTupleSize d i s) j = tuple_at d j).
Proof.
  intros [Hlen HP Hok Hf Hslot Hdisj] Hi Hsz Hs Ht.
  destruct (set_siz_spec P d Hlen Hok i s) as [C E]; [lia|lia|].
  rewrite uwrap_id in E by (unfold ufits; lia).
  set (d' := SetTupleSize d i s) in *.
  assert (Hc : cnt d' = cnt d) by (by fields C). assert (Hfs : fsp d' = fsp d) by (by fields C).
  assert (Ho : forall j, 0 <= j -> off d' j = off d j) by (intros j Hj; by fields C).
  assert (Hz : forall j, 0 <= j -> j <> i -> siz d' j = siz d j) by (intros j Hj Hne; by fields C).
  assert (Htl : forall j, 0 <= j -> tlen (siz d' j) = tlen (siz d j)).
  { intros j Hj. destruct (decide (j = i)) as [->|]; [by rewrite E|by rewrite Hz]. }
  assert (Hnz : forall j, 0 <= j -> siz d' j <> 0 -> siz d j <> 0).
  { intros j Hj. destruct (decide (j = i)) as [->|]; [done|by rewrite Hz]. }
  split_and!.
  - split; try (apply (ch_len _ _ _ _ _ C)); try (apply (ch_ok _ _ _ _ _ C)); try lia.
    + intros j Hj Hsj. rewrite Hfs, Ho, Htl by lia. apply Hslot; [lia|]. apply Hnz; [lia|done].
    + intros j k Hj Hk Hjk Hsj Hsk. rewrite !Ho, !Htl by lia. apply Hdisj; try lia; apply Hnz; (done || lia).
  - eapply (changed_links _ _ _ _ _ C); lia.
  - done.
  - unfold tuple_at. rewrite Hc, E, decide_True by lia. rewrite Ho by lia. destruct (Hslot i Hi Hsz).
    rewrite (ch_slice _ _ _ _ _ C) by lia. done.
  - intros j Hne. unfold tuple_at. rewrite Hc.
    destruct (decide (0 <= j < cnt d /\ siz d j <> 0)) as [[Hj Hsj]|Hno].
    + rewrite Hz, Ho, decide_True by lia. destruct (Hslot j Hj Hsj).
      by rewrite (ch_slice _ _ _ _ _ C) by lia.
    + rewrite decide_False; [done|]. intros [Hj Hsj]. apply Hno. split; [done|]. apply Hnz; (done || lia).
Qed.

Lemma live_size P d i bytes :
  page_wf P d -> tuple_at d i = Some (false, bytes) ->
  0 <= i < cnt d /\ 0 < siz d i < 2 ^ 31 /\ bytes = slice (off d i) (siz d i) d.
Proof.
  intros Hw. unfold tuple_at. destruct (decide _) as [[Hi Hs]|]; [|done]. intros [= Hdel <-].
  pose proof (word_fits d (OFFSET_TUPLE_SIZE + SIZE_TUPLE * i) (pw_ok _ _ Hw)) as Hfit. fold (siz d i) in Hfit.
  assert (Hlt : 0 < siz d i < 2 ^ 31).
  { split; [lia|]. destruct (Z.lt_ge_cases (siz d i) (2 ^ 31)); [done|].
    assert (IsDeleted (siz d i) = true) by (apply IsDeleted_iff; [exact Hfit|by right]). congruence. }
  by rewrite tlen_live by lia.
Qed.

Lemma marked_size P d i bytes :
  page_wf P d -> tuple_at d i = Some (true, bytes) ->
  0 <= i < cnt d /\ exists s, 0 < s < 2 ^ 31 /\ siz d i = s + 2 ^ 31 /\ bytes = slice (off d i) s d.
Proof.
  intros Hw. unfold tuple_at. destruct (decide _) as [[Hi Hs]|]; [|done]. intros [= Hdel <-].
  pose proof (word_fits d (OFFSET_TUPLE_SIZE + SIZE_TUPLE * i) (pw_ok _ _ Hw)) as Hfit. fold (siz d i) in Hfit.
  apply IsDeleted_iff in Hdel as [|Hge]; [done| |exact Hfit]. split; [done|].
  destruct (pw_slot _ _ Hw i Hi Hs) as (_ & _ & Hpos). exists (siz d i - 2 ^ 31).
  assert (Heq : siz d i = siz d i - 2 ^ 31 + 2 ^ 31) by lia.
  rewrite Heq, tlen_marked in Hpos by lia. split_and!; try lia. rewrite Heq at 1. by rewrite tlen_marked by lia.
Qed.

Lemma MarkDelete_spec enable_logging P d rid t :
  page_wf P d -> 0 <= slot_num_ rid ->
  match tuple_at d (slot_num_ rid) with
  | Some (false, bytes) =>
      exists d', MarkDelete enable_logging d rid t = (true, d', t) /\ page_wf P d' /\ same_links d d' /\
        tuple_at d' (slot_num_ rid) = Some (true, bytes) /\
        (forall j, j <> slot_num_ rid -> tuple_at d' j = tuple_at d j)
  | _ => MarkDelete enable_logging d rid t = (false, d, abort_txn enable_logging t)
  end.
Proof.
  intros Hw Hr. unfold MarkDelete. set (i := slot_num_ rid) in *.
  destruct (tuple_at d i) as [[[|] bytes]|] eqn:Ht.
  - destruct (marked_size _ _ _ _ Hw Ht) as (Hi & s & Hs & E & _). destruct (Z.leb_spec (cnt d) i); [lia|].
    by rewrite E, IsDeleted_marked by lia.
  - destruct (live_size _ _ _ _ Hw Ht) as (Hi & Hs & ->). destruct (Z.leb_spec (cnt d) i); [lia|].
    rewrite IsDeleted_live by lia. destruct (Z.ltb_spec 0 (siz d i)); [|lia].
    rewrite SetDeletedFlag_add by lia. eexists. split; [reflexivity|].
    destruct (resize_slot P d i (siz d i + 2 ^ 31)) as (H1 & H2 & _ & H3 & H4); auto; try lia.
    { rewrite tlen_marked, tlen_live; lia. }
    split_and!; auto. rewrite H3, tlen_marked by lia.
    by rewrite IsDeleted_marked by lia.
  - unfold tuple_at in Ht. destruct (Z.leb_spec (cnt d) i); [done|].
    destruct (decide _) as [|Hno]; [done|]. assert (E : siz d i = 0).
    { destruct (decide (siz d i = 0)); [done|]. destruct Hno. lia. }
    by rewrite E.
Qed.

(** [MarkDelete] flags a tuple that is present and leaves its bytes, every other slot
    and the links alone; on an empty, marked or missing slot it fails without a change. *)
Theorem MarkDelete_correct enable_logging P d rid t :
  page_wf P d -> 0 <= slot_num_ rid ->
  match tuple_at d (slot_num_ rid) with
  | Some (false, bytes) =>
      exists d', MarkDelete enable_logging d rid t = (true, d', t) /\ page_wf P d' /\ same_links d d' /\
        tuple_at d' (slot_num_ rid) = Some (true, bytes) /\
        (forall j, j <> slot_num_ rid -> tuple_at d' j = tuple_at d j)
  | _ => MarkDelete enable_logging d rid t = (false, d, abort_txn enable_logging t)
  end.
Proof. apply MarkDelete_spec. Qed.

(** [RollbackDelete] undoes [MarkDelete]: the page has the same bytes again. *)
Theorem RollbackDelete_MarkDelete enable_logging P d rid t bytes d' :
  page_wf P d -> tuple_at d (slot_num_ rid) = Some (false, bytes) ->
  MarkDelete enable_logging d rid t = (true, d', t) -> RollbackDelete d' rid = Ret d.
Proof.
  intros Hw Ht HM. destruct (live_size _ _ _ _ Hw Ht) as (Hi & Hs & _). set (i := slot_num_ rid) in *.
  unfold MarkDelete in HM. fold i in HM. destruct (Z.leb_spec (cnt d) i); [lia|].
  rewrite IsDeleted_live in HM by lia. destruct (Z.ltb_spec 0 (siz d i)); [|lia].
  rewrite SetDeletedFlag_add in HM by lia. injection HM as <-.
  destruct Hw as [Hlen HP Hok Hf _ _].
  destruct (set_siz_spec P d Hlen Hok i (siz d i + 2 ^ 31)) as [C E]; [lia|lia|].
  rewrite uwrap_id in E by (unfold ufits; lia).
  unfold RollbackDelete. fold i. rewrite (changed_cnt _ _ _ _ _ C) by lia.
  destruct (Z.leb_spec (cnt d) i); [lia|]. rewrite E.
  rewrite IsDeleted_marked by lia. fold (tlen (siz d i + 2 ^ 31)). rewrite tlen_marked by lia.
  f_equal. apply put_back; unfold OFFSET_TUPLE_SIZE, SIZE_TUPLE; (done || lia).
Qed.

(** [RollbackDelete] brings a marked tuple back. *)
Lemma RollbackDelete_spec P d rid bytes :
  page_wf P d -> tuple_at d (slot_num_ rid) = Some (true, bytes) ->
  exists d', RollbackDelete d rid = Ret d' /\ page_wf P d' /\ same_links d d' /\
    tuple_at d' (slot_num_ rid) = Some (false, bytes) /\
    (forall j, j <> slot_num_ rid -> tuple_at d' j = tuple_at d j).
Proof.
  intros Hw Ht. destruct (marked_size _ _ _ _ Hw Ht) as (Hi & s & Hs & E & ->). set (i := slot_num_ rid) in *.
  unfold RollbackDelete. fold i. destruct (Z.leb_spec (cnt d) i); [lia|].
  rewrite E, IsDeleted_marked by lia. change (UnsetDeletedFlag (s + 2 ^ 31)) with (tlen (s + 2 ^ 31)).
  rewrite tlen_marked by lia. eexists. split; [reflexivity|].
  destruct (resize_slot P d i s) as (H1 & H2 & _ & H3 & H4); auto; try lia.
  { rewrite E, tlen_marked, tlen_live; lia. }
  split_and!; auto. rewrite H3, tlen_live, IsDeleted_live by lia. done.
Qed.

(** ** Moving tuples *)

Lemma shift_offsets_spec P cond delta n : forall d i,
  zlen d = P -> Forall byte_ok d -> 0 <= i -> 24 + 8 * (i + Z.of_nat n) <= P ->
  let d' := shift_offsets n cond delta d i in
  zlen d' = P /\ Forall byte_ok d' /\ same_links d d' /\ cnt d' = cnt d /\ fsp d' = fsp d /\
  (forall j, 0 <= j -> siz d' j = siz d j) /\
  (forall j, 0 <= j -> off d' j = if decide (i <= j < i + Z.of_nat n /\ cond (siz d j) (off d j) = true)
                                  then uwrap 32 (off d j + delta) else off d j) /\
  (forall o l, 24 + 8 * (i + Z.of_nat n) <= o -> slice o l d' = slice o l d).
Proof.
  induction n as [|n IH]; intros d i Hl Hok Hi Hn; cbn [shift_offsets].
  { split_and!; try done. intros j Hj. rewrite decide_False by lia. done. }
  set (d1 := if cond (siz d i) (off d i) then _ else _).
  assert (H1 : d1 = d \/ changed P d d1 (24 + 8 * i) 4).
  { unfold d1. destruct (cond _ _); [right|by left]. apply (set_off_spec P d Hl Hok); lia. }
  assert (Hoff : off d1 i = if cond (siz d i) (off d i) then uwrap 32 (off d i + delta) else off d i).
  { unfold d1. destruct (cond _ _); [|done].
    destruct (set_off_spec P d Hl Hok i (uwrap 32 (off d i + delta))) as [_ ->]; [lia|lia|].
    apply uwrap_id, uwrap_fits. lia. }
  assert (Hd1 : zlen d1 = P /\ Forall byte_ok d1 /\ same_links d d1 /\ cnt d1 = cnt d /\ fsp d1 = fsp d /\
    (forall j, 0 <= j -> siz d1 j = siz d j) /\ (forall j, 0 <= j -> j <> i -> off d1 j = off d j) /\
    (forall o l, 28 + 8 * i <= o -> slice o l d1 = slice o l d)).
  { destruct H1 as [->|C]; [by split_and!|].
    split_and!; try (apply (ch_len _ _ _ _ _ C)); try (apply (ch_ok _ _ _ _ _ C));
      [eapply (changed_links _ _ _ _ _ C); lia|by fields C|by fields C|..]; intros; by fields C. }
  destruct Hd1 as (L1 & B1 & K1 & N1 & F1 & S1 & O1 & D1).
  destruct (IH d1 (i + 1) L1 B1) as (L2 & B2 & K2 & N2 & F2 & S2 & O2 & D2); [lia|lia|].
  split_and!; try done; try congruence.
  - by eapply same_links_trans.
  - intros j Hj. by rewrite S2, S1.
  - intros j Hj. rewrite O2, S1 by done. destruct (decide (j = i)) as [->|Hne].
    + rewrite decide_False by lia. rewrite Hoff.
      destruct (cond (siz d i) (off d i)); [rewrite decide_True by (split; [lia|done])|rewrite decide_False by naive_solver]; done.
    + rewrite O1 by done. destruct (cond (siz d j) (off d j)).
      * destruct (decide (i <= j < i + Z.of_nat (S n) /\ true = true)) as [[Hin _]|Hout].
        -- rewrite decide_True by (split; [lia|done]). done.
        -- rewrite decide_False; [done|]. intros [Hin _]. apply Hout. split; [lia|done].
      * rewrite !decide_False by naive_solver. done.
  - intros o l Ho. rewrite D2 by lia. apply D1. lia.
Qed.

(** Slot [i] held [off d i, off d i + s); the tuples below it moved up by [delta]. *)
Record compacted (P : Z) (d : list Z) (i s delta : Z) (d' : list Z) : Prop := {
  co_len : zlen d' = P;
  co_ok : Forall byte_ok d';
  co_links : same_links d d';
  co_cnt : cnt d' = cnt d;
  co_fsp : fsp d' = fsp d + delta;
  co_siz : forall j, 0 <= j < cnt d -> j <> i -> siz d' j = siz d j;
  co_off : forall j, 0 <= j < cnt d -> j <> i -> siz d j <> 0 ->
    off d' j = if decide (off d j < off d i) then off d j + delta else off d j;
  co_below : forall o l, fsp d <= o -> 0 <= l -> o + l <= off d i ->
    slice (o + delta) l d' = slice o l d;
  co_above : forall o l, off d i + s <= o -> slice o l d' = slice o l d;
}.

Section compacted.
Context (P : Z) (d : list Z) (i s delta : Z) (d' : list Z).
Hypothesis Hw : page_wf P d.
Hypothesis Hi : 0 <= i < cnt d.
Hypothesis Hsi : siz d i <> 0.
Hypothesis Hs : s = tlen (siz d i).
Hypothesis Hd : delta <= s.
Hypothesis Hco : compacted P d i s delta d'.

(** Another tuple lies wholly below or above slot [i]. *)
Lemma co_cases j : 0 <= j < cnt d -> j <> i -> siz d j <> 0 ->
  (off d j + tlen (siz d j) <= off d i /\ off d' j = off d j + delta) \/
  (off d i + s <= off d j /\ off d' j = off d j).
Proof.
  intros Hj Hne Hsj. rewrite (co_off _ _ _ _ _ _ Hco) by done.
  destruct (pw_slot _ _ Hw j Hj Hsj) as (_ & _ & Hp). destruct (pw_slot _ _ Hw i Hi Hsi) as (_ & _ & Hpi).
  rewrite Hs. destruct (pw_disj _ _ Hw i j Hi Hj) as [|]; auto.
  - right. rewrite decide_False by lia. done.
  - left. rewrite decide_True by lia. done.
Qed.

Lemma compacted_tuple j : j <> i -> tuple_at d' j = tuple_at d j.
Proof.
  intros Hne. unfold tuple_at. rewrite (co_cnt _ _ _ _ _ _ Hco).
  destruct (decide (0 <= j < cnt d /\ siz d j <> 0)) as [[Hj Hsj]|Hno].
  - rewrite (co_siz _ _ _ _ _ _ Hco) by done. rewrite decide_True by done. f_equal. f_equal.
    destruct (pw_slot _ _ Hw j Hj Hsj) as (Hf & _ & Hp).
    destruct (co_cases j Hj Hne Hsj) as [[Hb ->]|[Ha ->]].
    + apply (co_below _ _ _ _ _ _ Hco); lia.
    + by apply (co_above _ _ _ _ _ _ Hco).
  - rewrite decide_False; [done|]. intros [Hj Hsj]. apply Hno. split; [done|].
    by rewrite (co_siz _ _ _ _ _ _ Hco) in Hsj.
Qed.

(** The page is well formed if the new contents of slot [i] fit in the gap. *)
Lemma compacted_wf :
  24 + 8 * cnt d <= fsp d + delta ->
  (siz d' i = 0 \/ (off d' i = off d i + delta /\ 0 < tlen (siz d' i) /\ delta + tlen (siz d' i) <= s)) ->
  page_wf P d'.
Proof.
  intros Hroom Hnew. pose proof (pw_fsp _ _ Hw) as Hf. destruct (pw_slot _ _ Hw i Hi Hsi) as (Hi1 & Hi2 & Hi3).
  split; try (apply (co_len _ _ _ _ _ _ Hco)); try (apply (co_ok _ _ _ _ _ _ Hco)); try (apply (pw_size _ _ Hw)).
  - rewrite (co_cnt _ _ _ _ _ _ Hco), (co_fsp _ _ _ _ _ _ Hco). lia.
  - intros j Hj Hsj. rewrite (co_cnt _ _ _ _ _ _ Hco), (co_fsp _ _ _ _ _ _ Hco) in *.
    destruct (decide (j = i)) as [->|Hne]; [destruct Hnew as [|(? & ? & ?)]; [done|lia]|].
    rewrite (co_siz _ _ _ _ _ _ Hco) in * by done.
    destruct (pw_slot _ _ Hw j Hj Hsj) as (? & ? & ?).
    destruct (co_cases j Hj Hne Hsj) as [[Hb ->]|[Ha ->]]; lia.
  - intros j k Hj Hk Hjk Hsj Hsk. rewrite (co_cnt _ _ _ _ _ _ Hco) in *.
    destruct (decide (j = i)) as [->|Hji], (decide (k = i)) as [->|Hki]; [done| | |].
    + rewrite (co_siz _ _ _ _ _ _ Hco k) in * by done.
      destruct Hnew as [|(? & ? & ?)]; [done|]. destruct (pw_slot _ _ Hw k Hk Hsk) as (? & ? & ?).
      destruct (co_cases k Hk Hki Hsk) as [[Hb ->]|[Ha ->]]; lia.
    + rewrite (co_siz _ _ _ _ _ _ Hco j) in * by done.
      destruct Hnew as [|(? & ? & ?)]; [done|]. destruct (pw_slot _ _ Hw j Hj Hsj) as (? & ? & ?).
      destruct (co_cases j Hj Hji Hsj) as [[Hb ->]|[Ha ->]]; lia.
    + rewrite (co_siz _ _ _ _ _ _ Hco j), (co_siz _ _ _ _ _ _ Hco k) in * by done.
      destruct (pw_disj _ _ Hw j k Hj Hk Hjk Hsj Hsk) as [|];
        destruct (pw_slot _ _ Hw j Hj Hsj) as (? & ? & ?); destruct (pw_slot _ _ Hw k Hk Hsk) as (? & ? & ?);
        destruct (co_cases j Hj Hji Hsj) as [[? ->]|[? ->]]; destruct (co_cases k Hk Hki Hsk) as [[? ->]|[? ->]]; lia.
Qed.

End compacted.

(** The bytes below slot [i] after they were moved by [delta]. *)
Lemma memmove_changed P d f o delta :
  zlen d = P -> Forall byte_ok d -> 0 <= f <= o -> 0 <= f + delta -> o + delta <= P -> o <= P ->
  changed P d (memmove d (f + delta) f (o - f)) (f + delta) (o - f) /\
  forall a l, f <= a -> 0 <= l -> a + l <= o ->
    slice (a + delta) l (memmove d (f + delta) f (o - f)) = slice a l d.
Proof.
  intros Hl Hok Hfo H0 H1 H2. unfold memmove.
  assert (Hz : zlen (slice f (o - f) d) = o - f) by (apply zlen_slice; lia).
  destruct (splice_changed P d (f + delta) (slice f (o - f) d) Hl Hok) as [C _];
    [by apply Forall_slice|lia|lia|]. rewrite Hz in C. split; [done|].
  intros a l Ha Hl0 Hal. rewrite slice_splice_inside by (try done; lia).
  rewrite slice_slice by lia. f_equal. lia.
Qed.

(** ** Deleting *)

Lemma slot_size P d i del bytes :
  page_wf P d -> tuple_at d i = Some (del, bytes) ->
  0 <= i < cnt d /\ siz d i <> 0 /\ bytes = slice (off d i) (tlen (siz d i)) d /\
  (if IsDeleted (siz d i) then UnsetDeletedFlag (siz d i) else siz d i) = tlen (siz d i).
Proof.
  intros Hw Ht. destruct del.
  - destruct (marked_size _ _ _ _ Hw Ht) as (Hi & s & Hs & E & ->). rewrite E, IsDeleted_marked, tlen_marked by lia.
    split_and!; try lia; [done|]. change (UnsetDeletedFlag (s + 2 ^ 31)) with (tlen (s + 2 ^ 31)). apply tlen_marked. lia.
  - destruct (live_size _ _ _ _ Hw Ht) as (Hi & Hs & ->). rewrite IsDeleted_live, tlen_live by lia. split_and!; (done || lia).
Qed.

(** The fields after the tuples below slot [i] were moved and the slot was set to
    [off0, size0] ([off0 = None]: the loop moves it with the others). *)
Lemma ApplyDelete_compacted P d i :
  page_wf P d -> 0 <= i < cnt d -> siz d i <> 0 ->
  let s := tlen (siz d i) in
  let d1 := memmove d (fsp d + s) (fsp d) (off d i - fsp d) in
  let d2 := SetFreeSpacePointer d1 (uwrap 32 (fsp d + s)) in
  let d3 := SetTupleSize d2 i 0 in
  let d4 := SetTupleOffsetAtSlot d3 i 0 in
  let d5 := shift_offsets (Z.to_nat (cnt d4)) (fun size o => negb (size =? 0) && (o <? off d i)) s d4 0 in
  compacted P d i s s d5 /\ siz d5 i = 0.
Proof.
  intros Hw Hi Hsi. cbv zeta. destruct (pw_slot _ _ Hw i Hi Hsi) as (Hi1 & Hi2 & Hi3).
  pose proof Hw as [Hlen HP Hok Hf Hslot Hdisj]. set (s := tlen (siz d i)) in *.
  rewrite (uwrap_id 32 (fsp d + s)) by (unfold ufits; lia).
  destruct (memmove_changed P d (fsp d) (off d i) s Hlen Hok) as [C1 M1]; [lia..|].
  revert C1 M1. generalize (memmove d (fsp d + s) (fsp d) (off d i - fsp d)). intros d1 C1 M1.
  destruct (set_fsp_spec P d1 (ch_len _ _ _ _ _ C1) (ch_ok _ _ _ _ _ C1) (fsp d + s)) as [C2 E2]; [lia|].
  rewrite uwrap_id in E2 by (unfold ufits; lia).
  revert C2 E2. generalize (SetFreeSpacePointer d1 (fsp d + s)). intros d2 C2 E2.
  destruct (set_siz_spec P d2 (ch_len _ _ _ _ _ C2) (ch_ok _ _ _ _ _ C2) i 0) as [C3 E3]; [lia|lia|].
  revert C3 E3. generalize (SetTupleSize d2 i 0). intros d3 C3 E3.
  destruct (set_off_spec P d3 (ch_len _ _ _ _ _ C3) (ch_ok _ _ _ _ _ C3) i 0) as [C4 E4]; [lia|lia|].
  revert C4 E4. generalize (SetTupleOffsetAtSlot d3 i 0). intros d4 C4 E4.
  assert (N4 : cnt d4 = cnt d) by (fields C4; fields C3; fields C2; by fields C1).
  assert (F4 : fsp d4 = fsp d + s) by (fields C4; by fields C3).
  assert (Z4 : siz d4 i = 0) by (by fields C4).
  assert (S4 : forall j, 0 <= j < cnt d -> j <> i -> siz d4 j = siz d j).
  { intros j Hj Hne. fields C4. fields C3. fields C2. by fields C1. }
  assert (O4 : forall j, 0 <= j < cnt d -> j <> i -> off d4 j = off d j).
  { intros j Hj Hne. fields C4. fields C3. fields C2. by fields C1. }
  destruct (shift_offsets_spec P (fun size o => negb (size =? 0) && (o <? off d i)) s (Z.to_nat (cnt d4)) d4 0
    (ch_len _ _ _ _ _ C4) (ch_ok _ _ _ _ _ C4)) as (L5 & B5 & K5 & N5 & F5 & S5 & O5 & D5); [lia|lia|].
  cbv zeta in *. revert L5 B5 K5 N5 F5 S5 O5 D5.
  generalize (shift_offsets (Z.to_nat (cnt d4)) (fun size o => negb (size =? 0) && (o <? off d i)) s d4 0).
  intros d5 L5 B5 K5 N5 F5 S5 O5 D5. split; [split|]; auto.
  - eapply same_links_trans; [eapply (changed_links _ _ _ _ _ C1); lia|].
    eapply same_links_trans; [eapply (changed_links _ _ _ _ _ C2); lia|].
    eapply same_links_trans; [eapply (changed_links _ _ _ _ _ C3); lia|].
    eapply same_links_trans; [eapply (changed_links _ _ _ _ _ C4); lia|done].
  - lia.
  - lia.
  - intros j Hj Hne. rewrite S5 by lia. by apply S4.
  - intros j Hj Hne Hsj. rewrite O5, S4, O4 by (done || lia).
    destruct (Hslot j Hj Hsj) as (? & ? & ?).
    destruct (Z.eqb_spec (siz d j) 0); [done|]. cbn [negb andb].
    destruct (Z.ltb_spec (off d j) (off d i)).
    + rewrite (decide_True (P := _ /\ _)) by (split; [lia|done]). rewrite decide_True by done.
      destruct (Hdisj i j) as [|]; auto; [lia|]. apply uwrap_id. unfold ufits. lia.
    + rewrite (decide_False (P := _ /\ _)) by naive_solver. by rewrite decide_False by lia.
  - intros o l Ho Hl Hol. rewrite D5 by lia. fields C4. fields C3. fields C2. apply M1; lia.
  - intros o l Ho. rewrite D5 by lia. fields C4. fields C3. fields C2. fields C1. done.
  - rewrite S5 by lia. done.
Qed.

Lemma ApplyDelete_spec P d rid del bytes :
  page_wf P d -> tuple_at d (slot_num_ rid) = Some (del, bytes) ->
  exists d', ApplyDelete d rid = Ret d' /\ page_wf P d' /\ same_links d d' /\ cnt d' = cnt d /\
    fsp d' = fsp d + zlen bytes /\ tuple_at d' (slot_num_ rid) = None /\
    (forall j, j <> slot_num_ rid -> tuple_at d' j = tuple_at d j).
Proof.
  intros Hw Ht. destruct (slot_size _ _ _ _ _ Hw Ht) as (Hi & Hsi & -> & Hlen). set (i := slot_num_ rid) in *.
  destruct (ApplyDelete_compacted P d i Hw Hi Hsi) as [Hco Hz].
  destruct (pw_slot _ _ Hw i Hi Hsi) as (Hi1 & Hi2 & Hi3).
  unfold ApplyDelete. fold i. destruct (Z.leb_spec (cnt d) i); [lia|].
  destruct (Z.ltb_spec (off d i) (fsp d)); [lia|]. rewrite Hlen.
  eexists. split; [reflexivity|]. pose proof (pw_fsp _ _ Hw). pose proof (pw_len _ _ Hw).
  split_and!.
  - eapply (compacted_wf P d i _ _ _ Hw Hi Hsi eq_refl (Z.le_refl _) Hco); [lia|by left].
  - apply (co_links _ _ _ _ _ _ Hco).
  - apply (co_cnt _ _ _ _ _ _ Hco).
  - rewrite zlen_slice by lia. apply (co_fsp _ _ _ _ _ _ Hco).
  - unfold tuple_at. rewrite Hz. by rewrite decide_False by naive_solver.
  - intros j Hne. by apply (compacted_tuple P d i _ _ _ Hw Hi Hsi eq_refl Hco).
Qed.

(** [ApplyDelete] empties the slot, whether it was marked or not, gives its bytes back
    to the free space and moves the other tuples without changing them. *)
Theorem ApplyDelete_correct P d rid del bytes :
  page_wf P d -> tuple_at d (slot_num_ rid) = Some (del, bytes) ->
  exists d', ApplyDelete d rid = Ret d' /\ page_wf P d' /\ same_links d d' /\ cnt d' = cnt d /\
    fsp d' = fsp d + zlen bytes /\ tuple_at d' (slot_num_ rid) = None /\
    (forall j, j <> slot_num_ rid -> tuple_at d' j = tuple_at d j).
Proof. apply ApplyDelete_spec. Qed.

(** ** Updating *)

Lemma UpdateTuple_compacted P d i new_tuple :
  page_wf P d -> 0 <= i < cnt d -> 0 < siz d i < 2 ^ 31 -> 0 < zlen new_tuple -> Forall byte_ok new_tuple ->
  24 + 8 * cnt d <= fsp d + siz d i - zlen new_tuple ->
  let s := siz d i in
  let n := zlen new_tuple in
  let d1 := memmove d (fsp d + s - n) (fsp d) (off d i - fsp d) in
  let d2 := SetFreeSpacePointer d1 (uwrap 32 (fsp d + s - n)) in
  let d3 := splice (off d i + s - n) new_tuple d2 in
  let d4 := SetTupleSize d3 i n in
  let d5 := shift_offsets (Z.to_nat (cnt d4))
              (fun size o => (0 <? size) && (o <? uwrap 32 (off d i + s))) (s - n) d4 0 in
  compacted P d i s (s - n) d5 /\ siz d5 i = n /\ off d5 i = off d i + (s - n) /\
  slice (off d i + (s - n)) n d5 = new_tuple.
Proof.
  intros Hw Hi Hsi Hn Hb Hroom. cbv zeta. destruct (pw_slot _ _ Hw i Hi) as (Hi1 & Hi2 & _); [lia|].
  rewrite tlen_live in Hi2 by lia.
  pose proof Hw as [Hlen HP Hok Hf Hslot Hdisj]. set (s := siz d i) in *. set (n := zlen new_tuple) in *.
  replace (fsp d + s - n) with (fsp d + (s - n)) by lia. replace (off d i + s - n) with (off d i + (s - n)) by lia.
  rewrite (uwrap_id 32 (fsp d + (s - n))) by (unfold ufits; lia).
  rewrite (uwrap_id 32 (off d i + s)) by (unfold ufits; lia).
  destruct (memmove_changed P d (fsp d) (off d i) (s - n) Hlen Hok) as [C1 M1]; [lia..|].
  revert C1 M1. generalize (memmove d (fsp d + (s - n)) (fsp d) (off d i - fsp d)). intros d1 C1 M1.
  destruct (set_fsp_spec P d1 (ch_len _ _ _ _ _ C1) (ch_ok _ _ _ _ _ C1) (fsp d + (s - n))) as [C2 E2]; [lia|].
  rewrite uwrap_id in E2 by (unfold ufits; lia).
  revert C2 E2. generalize (SetFreeSpacePointer d1 (fsp d + (s - n))). intros d2 C2 E2.
  destruct (splice_changed P d2 (off d i + (s - n)) new_tuple (ch_len _ _ _ _ _ C2) (ch_ok _ _ _ _ _ C2) Hb)
    as [C3 E3]; [lia|fold n; lia|]. fold n in C3, E3.
  revert C3 E3. generalize (splice (off d i + (s - n)) new_tuple d2). intros d3 C3 E3.
  destruct (set_siz_spec P d3 (ch_len _ _ _ _ _ C3) (ch_ok _ _ _ _ _ C3) i n) as [C4 E4]; [lia|lia|].
  rewrite uwrap_id in E4 by (unfold ufits; lia).
  revert C4 E4. generalize (SetTupleSize d3 i n). intros d4 C4 E4.
  assert (N4 : cnt d4 = cnt d) by (fields C4; fields C3; fields C2; by fields C1).
  assert (F4 : fsp d4 = fsp d + (s - n)) by (fields C4; by fields C3).
  assert (S4 : forall j, 0 <= j < cnt d -> j <> i -> siz d4 j = siz d j).
  { intros j Hj Hne. fields C4. fields C3. fields C2. by fields C1. }
  assert (O4 : forall j, 0 <= j < cnt d -> off d4 j = off d j).
  { intros j Hj. fields C4. fields C3. fields C2. by fields C1. }
  destruct (shift_offsets_spec P (fun size o => (0 <? size) && (o <? off d i + s)) (s - n) (Z.to_nat (cnt d4)) d4 0
    (ch_len _ _ _ _ _ C4) (ch_ok _ _ _ _ _ C4)) as (L5 & B5 & K5 & N5 & F5 & S5 & O5 & D5); [lia|lia|].
  cbv zeta in *. revert L5 B5 K5 N5 F5 S5 O5 D5.
  generalize (shift_offsets (Z.to_nat (cnt d4)) (fun size o => (0 <? size) && (o <? off d i + s)) (s - n) d4 0).
  intros d5 L5 B5 K5 N5 F5 S5 O5 D5.
  assert (Hs5 : forall j, 0 <= j < cnt d -> j <> i -> siz d5 j = siz d j).
  { intros j Hj Hne. rewrite S5 by lia. by apply S4. }
  split_and!; [split|..]; auto.
  - eapply same_links_trans; [eapply (changed_links _ _ _ _ _ C1); lia|].
    eapply same_links_trans; [eapply (changed_links _ _ _ _ _ C2); lia|].
    eapply same_links_trans; [eapply (changed_links _ _ _ _ _ C3); lia|].
    eapply same_links_trans; [eapply (changed_links _ _ _ _ _ C4); lia|done].
  - lia.
  - lia.
  - intros j Hj Hne Hsj. rewrite O5, S4, O4 by (done || lia).
    destruct (Hslot j Hj Hsj) as (? & ? & Hp). pose proof (word_fits d (OFFSET_TUPLE_SIZE + SIZE_TUPLE * j) Hok) as Hfit.
    fold (siz d j) in Hfit. destruct (Hdisj i j) as [Hd|Hd]; auto; try lia.
    + rewrite tlen_live in Hd by (unfold s in *; lia).
      destruct (Z.ltb_spec (off d j) (off d i + s)); [lia|]. rewrite andb_false_r.
      rewrite (decide_False (P := _ /\ _)) by naive_solver. by rewrite decide_False by lia.
    + destruct (Z.ltb_spec 0 (siz d j)); [|lia]. destruct (Z.ltb_spec (off d j) (off d i + s)); [|lia].
      rewrite (decide_True (P := _ /\ _)) by (split; [lia|done]). rewrite decide_True by lia.
      apply uwrap_id. unfold ufits. lia.
  - intros o l Ho Hl Hol. rewrite D5 by lia. fields C4. fields C3. fields C2. apply M1; lia.
  - intros o l Ho. rewrite D5 by lia. fields C4. fields C3. fields C2. fields C1. done.
  - rewrite S5 by lia. done.
  - rewrite O5, O4, E4 by lia. destruct (Z.ltb_spec 0 n); [|lia].
    destruct (Z.ltb_spec (off d i) (off d i + s)); [|lia].
    rewrite decide_True by (split; [lia|done]). apply uwrap_id. unfold ufits. lia.
  - rewrite D5 by lia. fields C4. done.
Qed.

Lemma UpdateTuple_spec enable_logging P d new_tuple rid t :
  page_wf P d -> 0 <= slot_num_ rid -> 0 < zlen new_tuple -> Forall byte_ok new_tuple ->
  match tuple_at d (slot_num_ rid) with
  | Some (false, bytes) =>
      if decide (fsp d - 24 - 8 * cnt d + zlen bytes < zlen new_tuple)
      then UpdateTuple enable_logging d new_tuple rid t = Ret (None, d, t)
      else exists d', UpdateTuple enable_logging d new_tuple rid t = Ret (Some bytes, d', t) /\
        page_wf P d' /\ same_links d d' /\ tuple_at d' (slot_num_ rid) = Some (false, new_tuple) /\
        (forall j, j <> slot_num_ rid -> tuple_at d' j = tuple_at d j)
  | _ => UpdateTuple enable_logging d new_tuple rid t = Ret (None, d, abort_txn enable_logging t)
  end.
Proof.
  intros Hw Hr Hn Hb. unfold UpdateTuple. set (i := slot_num_ rid) in *.
  destruct (Z.ltb_spec 0 (zlen new_tuple)); [|lia]. cbn [negb].
  destruct (tuple_at d i) as [[[|] bytes]|] eqn:Ht.
  - destruct (marked_size _ _ _ _ Hw Ht) as (Hi & s & Hs & E & _). destruct (Z.leb_spec (cnt d) i); [lia|].
    by rewrite E, IsDeleted_marked by lia.
  - destruct (live_size _ _ _ _ Hw Ht) as (Hi & Hs & ->). destruct (Z.leb_spec (cnt d) i); [lia|].
    destruct (pw_slot _ _ Hw i Hi) as (Hi1 & Hi2 & _); [lia|]. rewrite tlen_live in Hi2 by lia.
    pose proof (pw_fsp _ _ Hw). pose proof (pw_size _ _ Hw). pose proof (cnt_nonneg d (pw_ok _ _ Hw)).
    rewrite IsDeleted_live, (free_space _ _ Hw) by lia. rewrite uwrap_id by (unfold ufits; lia).
    rewrite zlen_slice by (rewrite ?(pw_len _ _ Hw); lia).
    destruct (decide (fsp d - 24 - 8 * cnt d + siz d i < zlen new_tuple)) as [Hno|Hroom];
      destruct (Z.ltb_spec (fsp d - 24 - 8 * cnt d + siz d i) (zlen new_tuple)); try lia; [done|].
    destruct (Z.ltb_spec (off d i) (fsp d)); [lia|].
    destruct (UpdateTuple_compacted P d i new_tuple) as (Hco & Hsz & Hoff & Hsl); auto; try lia.
    eexists. split; [reflexivity|]. assert (Hsi : siz d i <> 0) by lia.
    assert (Es : siz d i = tlen (siz d i)) by (by rewrite tlen_live by lia).
    assert (Htn : tlen (zlen new_tuple) = zlen new_tuple) by (apply tlen_live; lia).
    split_and!.
    + eapply (compacted_wf P d i _ _ _ Hw Hi Hsi Es); [|exact Hco| |]; [lia|lia|].
      right. rewrite Hsz, Htn. split_and!; [done|lia|lia].
    + apply (co_links _ _ _ _ _ _ Hco).
    + unfold tuple_at. rewrite (co_cnt _ _ _ _ _ _ Hco), Hsz, Hoff, Htn, Hsl.
      rewrite decide_True by lia. by rewrite IsDeleted_live by lia.
    + intros j Hne. by apply (compacted_tuple P d i _ _ _ Hw Hi Hsi Es Hco).
  - unfold tuple_at in Ht. destruct (Z.leb_spec (cnt d) i); [done|].
    destruct (decide _) as [|Hno]; [done|]. assert (E : siz d i = 0).
    { destruct (decide (siz d i = 0)); [done|]. destruct Hno. lia. }
    by rewrite E.
Qed.

(** C2: [UpdateTuple] replaces the bytes of a live tuple when the page has room for the
    difference, returns the old bytes and leaves every other slot as it was; it refuses,
    changing nothing, an empty or marked slot and an update that does not fit. *)
Theorem UpdateTuple_correct enable_logging P d new_tuple rid t :
  page_wf P d -> 0 <= slot_num_ rid -> 0 < zlen new_tuple -> Forall byte_ok new_tuple ->
  match tuple_at d (slot_num_ rid) with
  | Some (false, bytes) =>
      if decide (fsp d - 24 - 8 * cnt d + zlen bytes < zlen new_tuple)
      then UpdateTuple enable_logging d new_tuple rid t = Ret (None, d, t)
      else exists d', UpdateTuple enable_logging d new_tuple rid t = Ret (Some bytes, d', t) /\
        page_wf P d' /\ same_links d d' /\ tuple_at d' (slot_num_ rid) = Some (false, new_tuple) /\
        (forall j, j <> slot_num_ rid -> tuple_at d' j = tuple_at d j)
  | _ => UpdateTuple enable_logging d new_tuple rid t = Ret (None, d, abort_txn enable_logging t)
  end.
Proof. apply UpdateTuple_spec. Qed.

(** ** Scanning *)

Definition live_slot (d : list Z) (i : Z) : bool :=
  match tuple_at d i with Some (false, _) => true | _ => false end.

Lemma live_slot_eq P d i :
  page_wf P d -> 0 <= i < cnt d -> live_slot d i = negb (IsDeleted (siz d i)).
Proof.
  intros Hw Hi. unfold live_slot, tuple_at. destruct (decide (0 <= i < cnt d /\ siz d i <> 0)) as [_|Hno].
  - by destruct (IsDeleted (siz d i)).
  - assert (E : siz d i = 0) by (destruct (decide (siz d i = 0)); [done|]; destruct Hno; lia). by rewrite E.
Qed.

Lemma find_tuple_spec P d n : forall i,
  page_wf P d -> 0 <= i -> i + Z.of_nat n <= cnt d ->
  match find_tuple n d i with
  | Some j => i <= j < i + Z.of_nat n /\ live_slot d j = true /\ (forall k, i <= k < j -> live_slot d k = false)
  | None => forall k, i <= k < i + Z.of_nat n -> live_slot d k = false
  end.
Proof.
  induction n as [|n IH]; intros i Hw Hi Hn; simpl; [intros; lia|].
  rewrite <- (live_slot_eq P) by (done || lia). destruct (live_slot d i) eqn:E.
  - split_and!; [lia|lia|done|intros; lia].
  - specialize (IH (i + 1) Hw). destruct (find_tuple n d (i + 1)) as [j|].
    + destruct IH as (Hj & Hl & Hk); [lia|lia|]. split_and!; [lia|lia|done|].
      intros k Hk'. destruct (decide (k = i)) as [->|]; [done|]. apply Hk. lia.
    + intros k Hk. destruct (decide (k = i)) as [->|]; [done|]. apply IH; lia.
Qed.

(** The slots from [i] on that hold a tuple. *)
Definition live_from (d : list Z) (i : Z) : list Z :=
  filter (fun j => live_slot d j = true) (seqZ i (cnt d - i)).

(** A client's scan: [GetFirstTupleRid], then [GetNextTupleRid] until it fails. *)
Fixpoint scan_from (fuel : nat) (d : list Z) (r : bool * RID) : outcome (list Z) :=
  match fuel with
  | O => Crash
  | S fuel =>
      if r.1 then
        let* next := GetNextTupleRid d r.2 in
        let* l := scan_from fuel d next in
        Ret (slot_num_ r.2 :: l)
      else Ret []
  end.

Lemma live_from_find P d i :
  page_wf P d -> 0 <= i <= cnt d ->
  live_from d i = match find_tuple (Z.to_nat (cnt d - i)) d i with
                  | Some j => j :: live_from d (j + 1)
                  | None => []
                  end.
Proof.
  intros Hw Hi. pose proof (find_tuple_spec P d (Z.to_nat (cnt d - i)) i Hw) as Hf. unfold live_from.
  destruct (find_tuple _ d i) as [j|].
  - destruct Hf as (Hj & Hl & Hk); [lia|lia|].
    replace (cnt d - i) with ((j - i) + (cnt d - j)) by lia. rewrite seqZ_app by lia.
    rewrite filter_app. rewrite (filter_nil' _ (seqZ i (j - i))).
    2:{ intros k Hk'. apply elem_of_seqZ in Hk'. rewrite Hk by lia. done. }
    replace (i + (j - i)) with j by lia. rewrite (seqZ_cons j) by lia. rewrite filter_cons_True by done.
    simpl. do 2 f_equal; f_equal; lia.
  - apply filter_nil'. intros k Hk. apply elem_of_seqZ in Hk. rewrite Hf by lia. done.
Qed.

Lemma scan_from_spec P d n : forall i,
  page_wf P d -> 0 <= i <= cnt d -> cnt d - i < Z.of_nat n ->
  scan_from n d (rid_or_invalid d (find_tuple (Z.to_nat (cnt d - i)) d i)) = Ret (live_from d i).
Proof.
  induction n as [|n IH]; intros i Hw Hi Hn; [lia|]. rewrite (live_from_find P) by done.
  pose proof (find_tuple_spec P d (Z.to_nat (cnt d - i)) i Hw) as Hf.
  destruct (find_tuple _ d i) as [j|]; cbn [scan_from rid_or_invalid fst snd]; [|done].
  destruct Hf as (Hj & _); [lia|lia|]. pose proof (pw_fsp _ _ Hw). pose proof (pw_size _ _ Hw).
  unfold GetNextTupleRid. cbn [page_id_ slot_num_]. rewrite Z.eqb_refl. cbn [negb obind].
  rewrite (uwrap_id 32 (j + 1)) by (unfold ufits; lia). rewrite IH by (done || lia). done.
Qed.

(** Scanning a page with [GetFirstTupleRid] and [GetNextTupleRid] terminates and visits
    exactly the slots that hold an unmarked tuple, each once, in increasing order. *)
Theorem page_scan_correct P d :
  page_wf P d ->
  scan_from (S (Z.to_nat (cnt d))) d (GetFirstTupleRid d) =
    Ret (filter (fun i => live_slot d i = true) (seqZ 0 (cnt d))).
Proof.
  intros Hw. pose proof (cnt_nonneg d (pw_ok _ _ Hw)). unfold GetFirstTupleRid.
  pose proof (scan_from_spec P d (S (Z.to_nat (cnt d))) 0 Hw) as Hs.
  rewrite Z.sub_0_r in Hs. rewrite Hs by lia. unfold live_from. by rewrite Z.sub_0_r.
Qed.

Lemma Init_spec enable_logging P d page_id prev_page_id t :
  zlen d = P -> 24 <= P < 2 ^ 31 -> Forall byte_ok d -> sfits 32 page_id -> sfits 32 prev_page_id ->
  let d' := (Init enable_logging d page_id P prev_page_id t).1 in
  page_wf P d' /\ GetTablePageId d' = page_id /\ GetPrevPageId d' = prev_page_id /\
  GetNextPageId d' = -1 /\ cnt d' = 0 /\ fsp d' = P /\ forall i, tuple_at d' i = None.
Proof.
  intros Hl HP Hok Hid Hprev. unfold Init.
  destruct (put_changed P d 0 page_id Hl Hok) as [C0 E0]; [lia|lia|].
  set (d0 := put_u32 d 0 page_id) in *.
  assert (exists d1 t', (if enable_logging then (SetLSN d0 AppendLogRecord, mkTxn (state_ t) AppendLogRecord)
    else (d0, t)) = (d1, t') /\ (d1 = d0 \/ changed P d0 d1 4 4) /\ zlen d1 = P /\ Forall byte_ok d1) as
    (d1 & t' & -> & C1 & L1 & B1).
  { destruct (put_changed P d0 4 AppendLogRecord (ch_len _ _ _ _ _ C0) (ch_ok _ _ _ _ _ C0)) as [C1 _]; [lia|lia|].
    destruct enable_logging; eexists _, _; (split; [reflexivity|]).
    - split_and!; [by right|apply (ch_len _ _ _ _ _ C1)|apply (ch_ok _ _ _ _ _ C1)].
    - split_and!; [by left|apply (ch_len _ _ _ _ _ C0)|apply (ch_ok _ _ _ _ _ C0)]. }
  assert (E1 : get_u32 d1 0 = uwrap 32 page_id).
  { destruct C1 as [->|C1]; [done|]. rewrite (ch_word _ _ _ _ _ C1) by lia. done. }
  destruct (put_changed P d1 8 prev_page_id L1 B1) as [C2 E2]; [lia|lia|].
  change (put_u32 d1 8 prev_page_id) with (SetPrevPageId d1 prev_page_id) in *.
  set (d2 := SetPrevPageId d1 prev_page_id) in *.
  destruct (put_changed P d2 12 INVALID_PAGE (ch_len _ _ _ _ _ C2) (ch_ok _ _ _ _ _ C2)) as [C3 E3]; [lia|lia|].
  change (put_u32 d2 12 INVALID_PAGE) with (SetNextPageId d2 INVALID_PAGE) in *.
  set (d3 := SetNextPageId d2 INVALID_PAGE) in *.
  destruct (set_fsp_spec P d3 (ch_len _ _ _ _ _ C3) (ch_ok _ _ _ _ _ C3) P) as [C4 E4]; [lia|].
  set (d4 := SetFreeSpacePointer d3 P) in *.
  destruct (set_cnt_spec P d4 (ch_len _ _ _ _ _ C4) (ch_ok _ _ _ _ _ C4) 0) as [C5 E5]; [lia|].
  cbn [fst]. set (d5 := SetTupleCount d4 0) in *. change (uwrap 32 0) with 0 in E5.
  assert (F5 : fsp d5 = P) by (fields C5; rewrite E4; apply uwrap_id; unfold ufits; lia).
  unfold GetTablePageId, GetPrevPageId, GetNextPageId, get_i32, OFFSET_PREV_PAGE_ID, OFFSET_NEXT_PAGE_ID.
  rewrite (ch_word _ _ _ _ _ C5 0), (ch_word _ _ _ _ _ C4 0), (ch_word _ _ _ _ _ C3 0),
    (ch_word _ _ _ _ _ C2 0), E1 by lia.
  rewrite (ch_word _ _ _ _ _ C5 8), (ch_word _ _ _ _ _ C4 8), (ch_word _ _ _ _ _ C3 8), E2 by lia.
  rewrite (ch_word _ _ _ _ _ C5 12), (ch_word _ _ _ _ _ C4 12), E3 by lia.
  rewrite !swrap_uwrap, !swrap_id by (lia || done). split_and!; auto.
  - split; auto; try (apply (ch_len _ _ _ _ _ C5)); try (apply (ch_ok _ _ _ _ _ C5)); try (intros; lia).
  - intros i. unfold tuple_at. by rewrite decide_False by lia.
Qed.

(** [Init] makes an empty well-formed page with the given links. *)
Theorem Init_correct enable_logging P d page_id prev_page_id t :
  zlen d = P -> 24 <= P < 2 ^ 31 -> Forall byte_ok d -> sfits 32 page_id -> sfits 32 prev_page_id ->
  let d' := (Init enable_logging d page_id P prev_page_id t).1 in
  page_wf P d' /\ GetTablePageId d' = page_id /\ GetPrevPageId d' = prev_page_id /\
  GetNextPageId d' = -1 /\ cnt d' = 0 /\ fsp d' = P /\ forall i, tuple_at d' i = None.
Proof. apply Init_spec. Qed.

(** Linking a page to its successor touches nothing else. *)
Lemma SetNextPageId_spec P d q :
  page_wf P d -> sfits 32 q ->
  let d' := SetNextPageId d q in
  page_wf P d' /\ GetNextPageId d' = q /\ GetTablePageId d' = GetTablePageId d /\
  GetPrevPageId d' = GetPrevPageId d /\ forall i, tuple_at d' i = tuple_at d i.
Proof.
  intros [Hlen HP Hok Hf Hslot Hdisj] Hq. cbv zeta. unfold SetNextPageId, OFFSET_NEXT_PAGE_ID.
  destruct (put_changed P d 12 q Hlen Hok) as [C E]; [lia|lia|]. set (d' := put_u32 d 12 q) in *.
  assert (Hc : cnt d' = cnt d) by by fields C. assert (Hs : fsp d' = fsp d) by by fields C.
  assert (Ho : forall j, 0 <= j -> off d' j = off d j) by (intros j Hj; by fields C).
  assert (Hz : forall j, 0 <= j -> siz d' j = siz d j) by (intros j Hj; by fields C).
  split_and!.
  - split; try (apply (ch_len _ _ _ _ _ C)); try (apply (ch_ok _ _ _ _ _ C)); try lia.
    + intros i Hi. rewrite Hs, Ho, Hz by lia. apply Hslot. lia.
    + intros i j Hi Hj. rewrite !Ho, !Hz by lia. apply Hdisj; lia.
  - unfold GetNextPageId, get_i32, OFFSET_NEXT_PAGE_ID. rewrite E. by rewrite swrap_uwrap, swrap_id by (lia || done).
  - unfold GetTablePageId, get_i32. by rewrite (ch_word _ _ _ _ _ C) by lia.
  - unfold GetPrevPageId, get_i32, OFFSET_PREV_PAGE_ID. by rewrite (ch_word _ _ _ _ _ C) by lia.
  - intros i. unfold tuple_at. rewrite Hc. destruct (decide (0 <= i < cnt d /\ siz d i <> 0)) as [[Hi Hsz]|Hno].
    + rewrite Hz, Ho, decide_True by lia. destruct (Hslot i Hi Hsz). by rewrite (ch_slice _ _ _ _ _ C) by lia.
    + rewrite decide_False; [done|]. intros [Hi Hsz]. apply Hno. split; [done|]. by rewrite <- Hz by lia.
Qed.

(** ** Witnesses *)

(** A page of 128 bytes with two tuples. *)
Definition blank_page : list Z := replicate 128 0.
Definition no_txn : Txn := mkTxn GROWING INVALID_LSN.
Definition empty_page : list Z := (Init false blank_page 7 128 (-1) no_txn).1.

Lemma empty_page_wf : page_wf 128 empty_page.
Proof.
  assert (Ec : cnt empty_page = 0) by (vm_compute; reflexivity).
  assert (Ef : fsp empty_page = 128) by (vm_compute; reflexivity).
  split; [vm_compute; reflexivity|lia|apply (bool_decide_unpack _); vm_compute; exact I|lia| |]; intros; lia.
Qed.

Definition two_tuples : list Z :=
  match InsertTuple empty_page [1; 2; 3] with
  | Ret (_, d) => match InsertTuple d [4; 5] with Ret (_, d) => d | _ => [] end
  | _ => []
  end.

Lemma two_tuples_wf : page_wf 128 two_tuples.
Proof.
  assert (Ec : cnt two_tuples = 2) by (vm_compute; reflexivity).
  assert (Ef : fsp two_tuples = 123) by (vm_compute; reflexivity).
  assert (E0 : off two_tuples 0 = 125 /\ tlen (siz two_tuples 0) = 3) by (vm_compute; split; reflexivity).
  assert (E1 : off two_tuples 1 = 123 /\ tlen (siz two_tuples 1) = 2) by (vm_compute; split; reflexivity).
  assert (Hcase : forall i, 0 <= i < cnt two_tuples -> i = 0 \/ i = 1) by (rewrite Ec; lia).
  split; [vm_compute; reflexivity|lia|apply (bool_decide_unpack _); vm_compute; exact I|lia| |].
  - intros i [->| ->]%Hcase _; lia.
  - intros i j [->| ->]%Hcase [->| ->]%Hcase Hne _ _; lia.
Qed.

Lemma InsertTuple_correct_witness :
  exists i d', InsertTuple two_tuples [9] = Ret (Some (mkRID 7 i), d') /\ tuple_at d' i = Some (false, [9]).
Proof.
  pose proof (InsertTuple_correct 128 two_tuples [9] two_tuples_wf) as H.
  destruct (decide (fsp two_tuples - 24 - 8 * cnt two_tuples < zlen [9] + 8)) as [Hlt|_];
    [exfalso; vm_compute in Hlt; discriminate Hlt|].
  destruct H as (i & d' & H1 & _ & _ & _ & _ & _ & H2 & _);
    [vm_compute; done|repeat constructor; unfold byte_ok; lia|].
  exists i, d'. split; [exact H1|exact H2].
Defined.

Lemma GetTuple_correct_witness :
  GetTuple false two_tuples (mkRID 7 1) no_txn = (Some [4; 5], no_txn).
Proof.
  rewrite (GetTuple_correct false 128 two_tuples (mkRID 7 1) no_txn two_tuples_wf); [|simpl; lia].
  vm_compute. reflexivity.
Defined.

Lemma MarkDelete_correct_witness :
  exists d', MarkDelete false two_tuples (mkRID 7 0) no_txn = (true, d', no_txn) /\
    tuple_at d' 0 = Some (true, [1; 2; 3]).
Proof.
  pose proof (MarkDelete_correct false 128 two_tuples (mkRID 7 0) no_txn two_tuples_wf) as H.
  assert (E : tuple_at two_tuples (slot_num_ (mkRID 7 0)) = Some (false, [1; 2; 3])) by (vm_compute; reflexivity).
  rewrite E in H. destruct H as (d' & H1 & _ & _ & H2 & _); [simpl; lia|].
  exists d'. split; [exact H1|exact H2].
Defined.

Lemma RollbackDelete_MarkDelete_witness :
  RollbackDelete (MarkDelete false two_tuples (mkRID 7 0) no_txn).1.2 (mkRID 7 0) = Ret two_tuples.
Proof.
  apply (RollbackDelete_MarkDelete false 128 two_tuples (mkRID 7 0) no_txn [1; 2; 3]);
    [exact two_tuples_wf|vm_compute; reflexivity|vm_compute; reflexivity].
Defined.

Lemma ApplyDelete_correct_witness :
  exists d', ApplyDelete two_tuples (mkRID 7 0) = Ret d' /\ tuple_at d' 0 = None /\
    tuple_at d' 1 = tuple_at two_tuples 1.
Proof.
  destruct (ApplyDelete_correct 128 two_tuples (mkRID 7 0) false [1; 2; 3] two_tuples_wf) as
    (d' & H1 & _ & _ & _ & _ & H2 & H3); [vm_compute; reflexivity|].
  exists d'. split; [exact H1|]. split; [exact H2|]. apply H3. discriminate.
Defined.

Lemma UpdateTuple_correct_witness :
  exists d', UpdateTuple false two_tuples [8; 8; 8; 8] (mkRID 7 0) no_txn = Ret (Some [1; 2; 3], d', no_txn) /\
    tuple_at d' 0 = Some (false, [8; 8; 8; 8]) /\ tuple_at d' 1 = tuple_at two_tuples 1.
Proof.
  pose proof (UpdateTuple_correct false 128 two_tuples [8; 8; 8; 8] (mkRID 7 0) no_txn two_tuples_wf) as H.
  assert (E : tuple_at two_tuples (slot_num_ (mkRID 7 0)) = Some (false, [1; 2; 3])) by (vm_compute; reflexivity).
  rewrite E in H. rewrite decide_False in H by (vm_compute; discriminate).
  destruct H as (d' & H1 & _ & _ & H2 & H3); [simpl; lia|unfold zlen; simpl; lia|repeat constructor; unfold byte_ok; lia|].
  exists d'. split; [exact H1|]. split; [exact H2|]. apply H3. discriminate.
Defined.

Lemma page_scan_correct_witness :
  scan_from (S (Z.to_nat (cnt two_tuples))) two_tuples (GetFirstTupleRid two_tuples) = Ret [0; 1].
Proof. rewrite (page_scan_correct 128 two_tuples two_tuples_wf). vm_compute. reflexivity. Defined.

Lemma Init_correct_witness : GetTablePageId empty_page = 7.
Proof.
  apply (Init_correct false 128 blank_page 7 (-1) no_txn);
    [vm_compute; reflexivity|lia|apply Forall_replicate; unfold byte_ok; lia
    |unfold sfits; simpl; lia|unfold sfits; simpl; lia].
Defined.
