(* ===== verification/TableHeap.v ===== *)
(** * Table heaps

    [TableHeap] (src/storage/table/table_heap.cpp) and [TableIterator]
    (src/storage/table/table_iterator.cpp): a table is a chain of slotted pages
    behind the buffer pool. The operations run on any [Pages] (see [Pages.v]):
    they fetch a page into a frame, work on the bytes of the frame through the
    page operations of [TablePage.v], and unpin it. Latches serialise the
    operations. A [Transaction] (src/include/concurrency/transaction.h) has, with
    the fields a page touches, its write set; a [TableHeap *] in a write record
    is the heap. *)

From S2P Require Import Prelude.
From S2P Require Import Disk.
From S2P Require Import Pages.
From S2P Require Import TablePage.

Local Open Scope Z_scope.
Local Open Scope outcome_scope.

(** ** Transactions *)

Inductive WType : Type := INSERT | DELETE | UPDATE.

Record TableHeap := mkHeap {
  first_page_id_ : Z;
}.

Record TableWriteRecord := mkWrite {
  rid_ : RID;
  wtype_ : WType;
  tuple_ : list Z;
  table_ : TableHeap;
}.

Record Transaction := mkTransaction {
  txn_ : Txn;
  table_write_set_ : list TableWriteRecord;
}.

Definition Transaction_ctor : Transaction := mkTransaction (mkTxn GROWING INVALID_LSN) [].
Definition set_txn (t : Transaction) (x : Txn) : Transaction := mkTransaction x (table_write_set_ t).
Definition txn_SetState (t : Transaction) (s : TransactionState) : Transaction := set_txn t (SetState (txn_ t) s).
Definition AppendTableWriteRecord (t : Transaction) (w : TableWriteRecord) : Transaction :=
  mkTransaction (txn_ t) (table_write_set_ t ++ [w]).

Definition is_aborted (t : Transaction) : bool := match state_ (txn_ t) with ABORTED => true | _ => false end.

Section heap.
Context {P : Type} `{Pages P}.
Context (enable_logging : bool).
Implicit Types (p : P) (h : TableHeap) (t : Transaction).

(** ** TableHeap *)

(** [TableHeap(buffer_pool_manager, lock_manager, log_manager, txn)] *)
Definition TableHeap_ctor p t : outcome (TableHeap * P * Transaction) :=
  let* (first_page, p) := pg_new p in
  match first_page with
  | None => Raised
  | Some (f, first_page_id) =>
      let* d := pg_data p f in
      let '(d, x) := Init enable_logging d first_page_id BUSTUB_PAGE_SIZE INVALID_LSN (txn_ t) in
      let* p := pg_write p f d in
      let* (_, p) := pg_unpin p first_page_id true in
      Ret (mkHeap first_page_id, p, set_txn t x)
  end.

(** The loop of [InsertTuple], with [cur_page] in frame [f]; a unit of fuel per page. *)
Fixpoint insert_loop (fuel : nat) p t (f : Z) (tuple : list Z) : outcome (option RID * P * Transaction) :=
  match fuel with
  | O => Crash
  | S fuel =>
      let* d := pg_data p f in
      let* (inserted, d) := InsertTuple d tuple in
      match inserted with
      | Some rid =>
          let* p := pg_write p f d in
          let* (_, p) := pg_unpin p (GetTablePageId d) true in
          Ret (Some rid, p, t)
      | None =>
          let next_page_id := GetNextPageId d in
          if negb (next_page_id =? INVALID_PAGE) then
            let* (_, p) := pg_unpin p (GetTablePageId d) false in
            let* (cur_page, p) := pg_fetch p next_page_id in
            match cur_page with
            | None => Crash
            | Some f => insert_loop fuel p t f tuple
            end
          else
            let* (new_page, p) := pg_new p in
            match new_page with
            | None =>
                let* (_, p) := pg_unpin p (GetTablePageId d) false in
                Ret (None, p, txn_SetState t ABORTED)
            | Some (g, next_page_id) =>
                let* p := pg_write p f (SetNextPageId d next_page_id) in
                let* e := pg_data p g in
                let '(e, x) := Init enable_logging e next_page_id BUSTUB_PAGE_SIZE (GetTablePageId d) (txn_ t) in
                let* p := pg_write p g e in
                let* (_, p) := pg_unpin p (GetTablePageId d) true in
                insert_loop fuel p (set_txn t x) g tuple
            end
      end
  end.

(** The new [rid], or [None] when the call returns false. *)
Definition TableHeap_InsertTuple (fuel : nat) p h t (tuple : list Z) : outcome (option RID * P * Transaction) :=
  if BUSTUB_PAGE_SIZE <? uwrap 32 (zlen tuple + 32) then Ret (None, p, txn_SetState t ABORTED)
  else
    let* (cur_page, p) := pg_fetch p (first_page_id_ h) in
    match cur_page with
    | None => Ret (None, p, txn_SetState t ABORTED)
    | Some f =>
        let* (rid, p, t) := insert_loop fuel p t f tuple in
        match rid with
        | None => Ret (None, p, t)
        | Some rid => Ret (Some rid, p, AppendTableWriteRecord t (mkWrite rid INSERT [] h))
        end
    end.

(** The result of the page's [MarkDelete] is not looked at. *)
Definition TableHeap_MarkDelete p h t (rid : RID) : outcome (bool * P * Transaction) :=
  let* (page, p) := pg_fetch p (page_id_ rid) in
  match page with
  | None => Ret (false, p, txn_SetState t ABORTED)
  | Some f =>
      let* d := pg_data p f in
      let '(_, d, x) := MarkDelete enable_logging d rid (txn_ t) in
      let* p := pg_write p f d in
      let* (_, p) := pg_unpin p (GetTablePageId d) true in
      Ret (true, p, AppendTableWriteRecord (set_txn t x) (mkWrite rid DELETE [] h))
  end.

Definition TableHeap_UpdateTuple p h t (tuple : list Z) (rid : RID) : outcome (bool * P * Transaction) :=
  let* (page, p) := pg_fetch p (page_id_ rid) in
  match page with
  | None => Ret (false, p, txn_SetState t ABORTED)
  | Some f =>
      let* d := pg_data p f in
      let* (old_tuple, d, x) := UpdateTuple enable_logging d tuple rid (txn_ t) in
      let t := set_txn t x in
      match old_tuple with
      | None =>
          let* (_, p) := pg_unpin p (GetTablePageId d) false in
          Ret (false, p, t)
      | Some old_tuple =>
          let* p := pg_write p f d in
          let* (_, p) := pg_unpin p (GetTablePageId d) true in
          Ret (true, p,
               if is_aborted t then t else AppendTableWriteRecord t (mkWrite rid UPDATE old_tuple h))
      end
  end.

Definition TableHeap_ApplyDelete p h t (rid : RID) : outcome P :=
  let* (page, p) := pg_fetch p (page_id_ rid) in
  match page with
  | None => Raised
  | Some f =>
      let* d := pg_data p f in
      let* d := ApplyDelete d rid in
      let* p := pg_write p f d in
      let* (_, p) := pg_unpin p (GetTablePageId d) true in
      Ret p
  end.

Definition TableHeap_RollbackDelete p h t (rid : RID) : outcome P :=
  let* (page, p) := pg_fetch p (page_id_ rid) in
  match page with
  | None => Raised
  | Some f =>
      let* d := pg_data p f in
      let* d := RollbackDelete d rid in
      let* p := pg_write p f d in
      let* (_, p) := pg_unpin p (GetTablePageId d) true in
      Ret p
  end.

Definition TableHeap_GetTuple p h t (rid : RID) : outcome (option (list Z) * P * Transaction) :=
  let* (page, p) := pg_fetch p (page_id_ rid) in
  match page with
  | None => Ret (None, p, txn_SetState t ABORTED)
  | Some f =>
      let* d := pg_data p f in
      let '(tuple, x) := GetTuple enable_logging d rid (txn_ t) in
      let* (_, p) := pg_unpin p (page_id_ rid) false in
      Ret (tuple, p, set_txn t x)
  end.

(** ** TableIterator *)

Record TableIterator := mkIter {
  it_rid : RID;
  it_tuple : list Z;
}.

(** [TableIterator(table_heap, rid, txn)]; the result of [GetTuple] is not looked at. *)
Definition TableIterator_ctor p h t (rid : RID) : outcome (TableIterator * P * Transaction) :=
  if negb (page_id_ rid =? INVALID_PAGE) then
    let* (tuple, p, t) := TableHeap_GetTuple p h t rid in
    Ret (mkIter rid (default [] tuple), p, t)
  else Ret (mkIter rid [], p, t).

(** The loop of [Begin]; the next page id is read after the page is unpinned. *)
Fixpoint begin_loop (fuel : nat) p (page_id : Z) (rid : RID) : outcome (RID * P) :=
  match fuel with
  | O => Crash
  | S fuel =>
      if negb (page_id =? INVALID_PAGE) then
        let* (page, p) := pg_fetch p page_id in
        match page with
        | None => Crash
        | Some f =>
            let* d := pg_data p f in
            let '(found_tuple, rid) := GetFirstTupleRid d in
            let* (_, p) := pg_unpin p page_id false in
            if found_tuple : bool then Ret (rid, p)
            else let* d := pg_data p f in begin_loop fuel p (GetNextPageId d) rid
        end
      else Ret (rid, p)
  end.

Definition TableHeap_Begin (fuel : nat) p h t : outcome (TableIterator * P * Transaction) :=
  let* (rid, p) := begin_loop fuel p (first_page_id_ h) RID_default in
  TableIterator_ctor p h t rid.

Definition End_rid : RID := mkRID INVALID_PAGE 0.
Definition is_End (it : TableIterator) : bool := RID_Get (it_rid it) =? RID_Get End_rid.

(** The loop of [operator++] over the following pages, with [cur_page] in frame [f]. *)
Fixpoint next_loop (fuel : nat) p (f : Z) (next_tuple_rid : RID) : outcome (Z * RID * P) :=
  match fuel with
  | O => Crash
  | S fuel =>
      let* d := pg_data p f in
      if negb (GetNextPageId d =? INVALID_PAGE) then
        let* (next_page, p) := pg_fetch p (GetNextPageId d) in
        let* (_, p) := pg_unpin p (GetTablePageId d) false in
        match next_page with
        | None => Crash
        | Some f =>
            let* d := pg_data p f in
            let '(found, rid) := GetFirstTupleRid d in
            if found : bool then Ret (f, rid, p) else next_loop fuel p f rid
        end
      else Ret (f, next_tuple_rid, p)
  end.

(** [operator++] *)
Definition TableIterator_next (fuel : nat) p h t (it : TableIterator) : outcome (TableIterator * P * Transaction) :=
  let* (cur_page, p) := pg_fetch p (page_id_ (it_rid it)) in
  match cur_page with
  | None => Crash
  | Some f =>
      let* d := pg_data p f in
      let* (found, rid) := GetNextTupleRid d (it_rid it) in
      let* (f, rid, p) := if found : bool then Ret (f, rid, p) else next_loop fuel p f rid in
      let it := mkIter rid (it_tuple it) in
      let* (it, p, t) :=
        if negb (is_End it) then
          let* (tuple, p, t) := TableHeap_GetTuple p h t rid in
          Ret (mkIter rid (default (it_tuple it) tuple), p, t)
        else Ret (it, p, t) in
      let* d := pg_data p f in
      let* (_, p) := pg_unpin p (GetTablePageId d) false in
      Ret (it, p, t)
  end.

(** A client's scan of a table: [for (it = Begin(); it != End(); ++it)]. *)
Fixpoint scan_loop (fuel : nat) p h t (it : TableIterator) : outcome (list (RID * list Z) * P * Transaction) :=
  match fuel with
  | O => Crash
  | S fuel' =>
      if is_End it then Ret ([], p, t)
      else
        let* (it', p, t) := TableIterator_next fuel p h t it in
        let* (l, p, t) := scan_loop fuel' p h t it' in
        Ret ((it_rid it, it_tuple it) :: l, p, t)
  end.

Definition table_scan (fuel : nat) p h t : outcome (list (RID * list Z) * P * Transaction) :=
  let* (it, p, t) := TableHeap_Begin fuel p h t in scan_loop fuel p h t it.
End heap.

(** ** The chain of pages *)

Definition prev_of (pids : list Z) (i : nat) : Z :=
  match i with O => -1 | S j => default (-1) (pids !! j) end.

(** A page of the chain: well formed, linked to its neighbours. *)
Record linked (bytes : Z -> list Z) (next : Z) (pids : list Z) (i : nat) (pid : Z) : Prop := {
  ln_range : 0 <= pid < next;
  ln_wf : page_wf BUSTUB_PAGE_SIZE (bytes pid);
  ln_id : GetTablePageId (bytes pid) = pid;
  ln_prev : GetPrevPageId (bytes pid) = prev_of pids i;
  ln_next : GetNextPageId (bytes pid) = default (-1) (pids !! S i);
}.

Record heap_ok (v : view) (h : TableHeap) (pids : list Z) : Prop := {
  hp_linked : forall i pid, pids !! i = Some pid -> linked (v_bytes v) (v_next v) pids i pid;
  hp_nodup : NoDup pids;
  hp_first : pids !! O = Some (first_page_id_ h);
}.

(** What the table holds under a record id. *)
Definition heap_at (v : view) (pids : list Z) (rid : RID) : option (bool * list Z) :=
  if decide (page_id_ rid ∈ pids) then tuple_at (v_bytes v (page_id_ rid)) (slot_num_ rid) else None.

#[export] Instance RID_eq_dec : EqDecision RID.
Proof. solve_decision. Defined.

Lemma heap_page v h pids pid :
  heap_ok v h pids -> pid ∈ pids -> exists i, pids !! i = Some pid /\ linked (v_bytes v) (v_next v) pids i pid.
Proof. intros Hh [i Hi]%list_elem_of_lookup. exists i. split; [done|by apply Hh]. Qed.

Lemma upd_same m pid d : upd m pid d pid = d.
Proof. unfold upd. by rewrite decide_True. Qed.
Lemma upd_other m pid d q : q <> pid -> upd m pid d q = m q.
Proof. intros. unfold upd. by rewrite decide_False. Qed.

(** Changing the tuples of one page keeps the chain. *)
Lemma heap_ok_upd v v' h pids pid d :
  heap_ok v h pids -> (forall q, v_bytes v' q = upd (v_bytes v) pid d q) -> v_next v' = v_next v ->
  page_wf BUSTUB_PAGE_SIZE d -> same_links (v_bytes v pid) d -> heap_ok v' h pids.
Proof.
  intros [Hl Hnd Hf] Hb Hn Hw (S1 & _ & S3 & S4). split; [|done|done].
  intros i q Hq. destruct (Hl i q Hq) as [L1 L2 L3 L4 L5]. rewrite Hn.
  destruct (decide (q = pid)) as [->|Hne]; split; rewrite ?Hb, ?upd_same, ?upd_other by done; done || congruence.
Qed.

Lemma heap_at_upd v v' pids pid d rid :
  (forall q, v_bytes v' q = upd (v_bytes v) pid d q) -> pid ∈ pids ->
  heap_at v' pids rid = if decide (page_id_ rid = pid) then tuple_at d (slot_num_ rid) else heap_at v pids rid.
Proof.
  intros Hb Hin. unfold heap_at. rewrite Hb. destruct (decide (page_id_ rid = pid)) as [->|Hne].
  - by rewrite decide_True, upd_same.
  - by rewrite upd_other.
Qed.

(** The page the last one gets linked to. *)
Lemma heap_ok_extend v v' h pids last d e :
  heap_ok v h pids -> 0 <= v_next v < 2 ^ 31 -> pids !! pred (length pids) = Some last ->
  (forall q, v_bytes v' q = upd (upd (v_bytes v) last d) (v_next v) e q) -> v_next v' = v_next v + 1 ->
  d = SetNextPageId (v_bytes v last) (v_next v) ->
  page_wf BUSTUB_PAGE_SIZE e -> GetTablePageId e = v_next v -> GetPrevPageId e = last -> GetNextPageId e = -1 ->
  heap_ok v' h (pids ++ [v_next v]).
Proof.
  intros [Hl Hnd Hf] Hnext Hlast Hb Hn -> He1 He2 He3 He4.
  destruct (Hl _ _ Hlast) as [R1 R2 R3 R4 R5].
  destruct (SetNextPageId_spec BUSTUB_PAGE_SIZE (v_bytes v last) (v_next v) R2) as (D1 & D2 & D3 & D4 & _);
    [unfold sfits; lia|].
  assert (Hfresh : v_next v ∉ pids).
  { intros [i Hi]%list_elem_of_lookup. destruct (Hl i _ Hi). lia. }
  assert (Hlen : (pred (length pids) < length pids)%nat) by (by eapply lookup_lt_Some).
  split.
  - intros i q Hq. rewrite Hn. apply lookup_snoc_Some in Hq as [[Hi Hq]|[-> <-]].
    + destruct (Hl i q Hq) as [L1 L2 L3 L4 L5].
      assert (Hqn : q <> v_next v) by lia.
      assert (Hp : prev_of (pids ++ [v_next v]) i = prev_of pids i)
        by (destruct i; [done|]; simpl; by rewrite lookup_app_l by lia).
      destruct (decide (q = last)) as [->|Hne].
      * assert (i = pred (length pids)) as -> by (by eapply NoDup_lookup).
        split; rewrite ?Hb, ?upd_other, ?upd_same, ?Hp by done; try done; [lia|congruence|congruence|].
        rewrite D2, lookup_app_r by lia.
        by replace (S (pred (length pids)) - length pids)%nat with 0%nat by lia.
      * split; rewrite ?Hb, ?upd_other, ?Hp by done; try done; [lia|].
        rewrite lookup_app_l; [done|]. assert (i <> pred (length pids)) by congruence. lia.
    + assert (Hnl : v_next v <> last) by lia.
      split; rewrite ?Hb, ?upd_same; try done; [lia| |].
      * rewrite He3. unfold prev_of. destruct (length pids) as [|n] eqn:E; [lia|]. simpl in *.
        by rewrite lookup_app_l, Hlast by lia.
      * rewrite He4, lookup_ge_None_2; [done|]. rewrite length_app. simpl. lia.
  - apply NoDup_app. split_and!; [done|set_solver|apply NoDup_singleton].
  - rewrite lookup_app_l by lia. done.
Qed.

(** ** Inserting *)

Section heap_proofs.
Context {P : Type} `{PagesLaws P}.
Context (enable_logging : bool).
Implicit Types (p : P) (v : view) (h : TableHeap) (t : Transaction).

(** Whether the page has room for a tuple of this size and its slot. *)
Definition has_room (d tuple : list Z) : Prop := zlen tuple + 8 <= fsp d - 24 - 8 * cnt d.

Definition tuple_ok (tuple : list Z) : Prop :=
  0 < zlen tuple /\ zlen tuple + 32 <= BUSTUB_PAGE_SIZE /\ Forall byte_ok tuple.

Lemma insert_here fuel p v t f w pid tuple :
  pg_ok p (holding v pid f w) -> v_pins v !! pid = None -> tuple_ok tuple ->
  page_wf BUSTUB_PAGE_SIZE (v_bytes v pid) -> GetTablePageId (v_bytes v pid) = pid -> has_room (v_bytes v pid) tuple ->
  exists i d p', insert_loop enable_logging (S fuel) p t f tuple = Ret (Some (mkRID pid i), p', t) /\
    pg_ok p' (stored_page v pid d) /\ page_wf BUSTUB_PAGE_SIZE d /\ same_links (v_bytes v pid) d /\
    tuple_at (v_bytes v pid) i = None /\
    forall j, tuple_at d j = if decide (j = i) then Some (false, tuple) else tuple_at (v_bytes v pid) j.
Proof.
  intros Hok Hno (Ht1 & Ht2 & Ht3) Hw Hid Hroom. unfold has_room in Hroom.
  pose proof (InsertTuple_spec _ _ tuple Hw) as HI. rewrite decide_False in HI by lia.
  destruct HI as (i & d & HI & Hw' & Hlk & _ & Hnone & _ & Hat & Hoth); [unfold BUSTUB_PAGE_SIZE in *; lia|done|].
  destruct (write_back p v pid f w d Hok Hno (pw_len _ _ Hw')) as (p1 & p2 & HW & HU & Hok').
  exists i, d, p2. cbn [insert_loop]. rewrite (held_data _ _ _ _ _ Hok). cbn [obind]. rewrite HI. cbn [obind].
  rewrite HW. cbn [obind]. destruct Hlk as (S1 & S2 & S3 & S4). rewrite S1, Hid, HU. cbn [obind].
  split_and!; try done. intros j. destruct (decide (j = i)) as [->|]; [done|by apply Hoth].
Qed.

Record insert_result v h pids rid tuple v' pids' : Prop := {
  ir_heap : heap_ok v' h pids';
  ir_pids : pids' = pids \/ pids' = pids ++ [v_next v];
  ir_fresh : heap_at v pids rid = None;
  ir_at : forall r, heap_at v' pids' r = if decide (r = rid) then Some (false, tuple) else heap_at v pids r;
  ir_other : forall q, 0 <= q < v_next v -> q ∉ pids -> v_bytes v' q = v_bytes v q;
  ir_pins : v_pins v' = v_pins v;
  ir_size : v_size v' = v_size v;
  ir_next : v_next v' = v_next v + (zlen pids' - zlen pids);
}.

Lemma stored_insert v h pids pid i d tuple :
  heap_ok v h pids -> pid ∈ pids -> page_wf BUSTUB_PAGE_SIZE d -> same_links (v_bytes v pid) d ->
  tuple_at (v_bytes v pid) i = None ->
  (forall j, tuple_at d j = if decide (j = i) then Some (false, tuple) else tuple_at (v_bytes v pid) j) ->
  insert_result v h pids (mkRID pid i) tuple (stored_page v pid d) pids.
Proof.
  intros Hh Hin Hw Hlk Hnone Hat. split; try done.
  - by eapply heap_ok_upd.
  - by left.
  - unfold heap_at. simpl. by rewrite decide_True.
  - intros [q j]. rewrite (heap_at_upd v _ pids pid d) by done. simpl. unfold heap_at. simpl.
    destruct (decide (q = pid)) as [->|Hq]; [|by rewrite (decide_False (P := mkRID q j = _)) by congruence].
    rewrite Hat, (decide_True (P := pid ∈ pids)) by done.
    destruct (decide (j = i)) as [->|]; [by rewrite decide_True|by rewrite decide_False by congruence].
  - intros q Hq Hqn. simpl. apply upd_other. by intros ->.
  - simpl. lia.
Qed.

(** The empty page at the end of the chain holds no tuple. *)
Lemma heap_at_extend v v' h pids last e r :
  heap_ok v h pids -> 0 <= v_next v < 2 ^ 31 -> last ∈ pids ->
  (forall q, v_bytes v' q = upd (upd (v_bytes v) last (SetNextPageId (v_bytes v last) (v_next v))) (v_next v) e q) ->
  (forall i, tuple_at e i = None) ->
  heap_at v' (pids ++ [v_next v]) r = heap_at v pids r.
Proof.
  intros Hh Hn Hlast Hb He. unfold heap_at.
  assert (Hfresh : v_next v ∉ pids).
  { intros (i & _ & Hlk)%(heap_page v h pids _ Hh). destruct Hlk. lia. }
  destruct (decide (page_id_ r = v_next v)) as [E|E].
  - rewrite E, Hb, upd_same. rewrite decide_True by (apply elem_of_app; right; apply list_elem_of_singleton; done).
    by rewrite decide_False.
  - destruct (decide (page_id_ r ∈ pids)) as [Hin|Hin]; 
      [|by rewrite decide_False by (rewrite elem_of_app, list_elem_of_singleton; tauto)].
    rewrite decide_True by (apply elem_of_app; by left). rewrite Hb, upd_other by done.
    destruct (decide (page_id_ r = last)) as [->|]; [|by rewrite upd_other].
    rewrite upd_same. destruct (heap_page v h pids last Hh Hlast) as (i & _ & Hlk).
    apply (SetNextPageId_spec _ _ _ (ln_wf _ _ _ _ _ Hlk)). unfold sfits. lia.
Qed.

Lemma insert_result_trans v v2 h pids n rid tuple v' :
  insert_result v2 h (pids ++ [n]) rid tuple v' (pids ++ [n]) ->
  n = v_next v -> v_next v2 = v_next v + 1 -> v_pins v2 = v_pins v -> v_size v2 = v_size v ->
  (forall r, heap_at v2 (pids ++ [n]) r = heap_at v pids r) ->
  (forall q, 0 <= q < v_next v -> q ∉ pids -> v_bytes v2 q = v_bytes v q) ->
  insert_result v h pids rid tuple v' (pids ++ [n]).
Proof.
  intros [I1 I2 I3 I4 I5 I6 I7 I8] -> Hn Hp Hs Hat Hb. split; try done.
  - by right.
  - by rewrite <- Hat.
  - intros r. by rewrite I4, Hat.
  - intros q Hq Hqn. rewrite I5; [by apply Hb|lia|]. rewrite elem_of_app, list_elem_of_singleton.
    intros [?|?]; [done|lia].
  - congruence.
  - congruence.
  - unfold zlen in *. rewrite length_app in *. simpl in *. lia.
Qed.

Lemma zero_page_ok : Forall byte_ok zero_page.
Proof. apply Forall_replicate. unfold byte_ok. lia. Qed.

Lemma Init_state d pid size prev (x y : Txn) e :
  Init enable_logging d pid size prev x = (e, y) -> state_ y = state_ x.
Proof. unfold Init. destruct enable_logging; by intros [= _ <-]. Qed.

(** The last page is full: a new one is linked to it and takes the tuple. *)
Lemma insert_new fuel p v t f pid h pids tuple :
  pg_ok p (holding v pid f false) -> heap_ok v h pids -> pids !! pred (length pids) = Some pid ->
  (forall q, q ∈ pids -> v_pins v !! q = None) -> v_pins v !! v_next v = None ->
  0 < v_left v -> 0 <= v_next v < 2 ^ 19 - 1 -> room v 2 -> tuple_ok tuple -> ~ has_room (v_bytes v pid) tuple ->
  exists rid p' x v', insert_loop enable_logging (S (S fuel)) p t f tuple = Ret (Some rid, p', set_txn t x) /\
    state_ x = state_ (txn_ t) /\ pg_ok p' v' /\ insert_result v h pids rid tuple v' (pids ++ [v_next v]) /\
    v_left v' = v_left v - 1.
Proof.
  intros Hok Hh Hlast Hpins Hnn Hl Hn Hroom Ht Hfull. pose proof Ht as (Ht1 & Ht2 & Ht3).
  assert (Hin : pid ∈ pids) by (by eapply list_elem_of_lookup_2).
  destruct (hp_linked _ _ _ Hh _ _ Hlast) as [L1 L2 L3 L4 L5].
  rewrite lookup_ge_None_2 in L5 by (assert (length pids <> 0)%nat by (destruct pids; done); lia). simpl in L5.
  pose proof (InsertTuple_spec _ _ tuple L2) as HI. unfold has_room in Hfull. rewrite decide_True in HI by lia.
  specialize (HI ltac:(unfold BUSTUB_PAGE_SIZE in *; lia) Ht3).
  set (d := SetNextPageId (v_bytes v pid) (v_next v)).
  destruct (SetNextPageId_spec BUSTUB_PAGE_SIZE (v_bytes v pid) (v_next v) L2) as (D1 & D2 & D3 & D4 & D5);
    [unfold sfits; lia|]. fold d in D1, D2, D3, D4, D5.
  destruct (new_page p v pid f d Hok) as (g & p1 & p2 & HN & HW & HD & Hinit); auto; [lia|lia|apply D1|].
  pose proof (Init_spec enable_logging BUSTUB_PAGE_SIZE zero_page (v_next v) pid (txn_ t)) as HE.
  destruct (Init enable_logging zero_page (v_next v) BUSTUB_PAGE_SIZE pid (txn_ t)) as [e x] eqn:EI.
  cbn [fst] in HE. destruct HE as (E1 & E2 & E3 & E4 & E5 & E6 & E7);
    [unfold zlen; rewrite length_zero_page; done|unfold BUSTUB_PAGE_SIZE; lia|apply zero_page_ok|unfold sfits; lia..|].
  destruct (Hinit e (pw_len _ _ E1)) as (p3 & p4 & HW3 & HU & Hok4).
  set (v2 := mkView _ _ _ _ _) in Hok4.
  assert (Hb2 : forall q, v_bytes v2 q = upd (upd (v_bytes v) pid d) (v_next v) e q).
  { intros q. simpl. unfold upd. repeat case_decide; done || lia. }
  assert (He : v_bytes v2 (v_next v) = e) by by rewrite Hb2, upd_same.
  assert (Hh2 : heap_ok v2 h (pids ++ [v_next v])) by (eapply heap_ok_extend; eauto; lia).
  destruct (insert_here fuel p4 v2 (set_txn t x) g true (v_next v) tuple Hok4 Hnn Ht) as
    (i & d' & p' & HL & Hok' & Hw' & Hlk' & Hnone & Hat); rewrite ?He; [done|done|unfold has_room; unfold BUSTUB_PAGE_SIZE in *; lia|].
  exists (mkRID (v_next v) i), p', x, (stored_page v2 (v_next v) d').
  split_and!; [|by apply Init_state in EI|done| |done].
  - cbn [insert_loop]. rewrite (held_data _ _ _ _ _ Hok). cbn [obind]. rewrite HI. cbn [obind].
    rewrite L5. cbn [Z.eqb negb INVALID_PAGE]. change (negb (-1 =? INVALID_PAGE)) with false. cbv iota.
    rewrite HN. cbn [obind]. fold d. rewrite HW. cbn [obind]. rewrite HD. cbn [obind]. rewrite L3, EI.
    rewrite HW3. cbn [obind]. rewrite HU. cbn [obind]. exact HL.
  - eapply insert_result_trans; [apply stored_insert; try done; [|by rewrite He..]|done..| |].
    + apply elem_of_app. right. by apply list_elem_of_singleton.
    + intros r. eapply heap_at_extend; eauto. lia.
    + intros q Hq Hqn. rewrite Hb2, !upd_other; [done|by intros ->|lia].
Qed.

Lemma insert_loop_ok h pids tuple fuel : forall i p v t f pid,
  pids !! i = Some pid -> (length pids - i < fuel)%nat ->
  pg_ok p (holding v pid f false) -> heap_ok v h pids ->
  (forall q, q ∈ pids -> v_pins v !! q = None) -> v_pins v !! v_next v = None ->
  zlen pids - Z.of_nat i < v_left v + 1 -> 0 <= v_next v < 2 ^ 19 - 1 -> room v 2 -> tuple_ok tuple ->
  exists rid p' x v' pids', insert_loop enable_logging fuel p t f tuple = Ret (Some rid, p', set_txn t x) /\
    state_ x = state_ (txn_ t) /\ pg_ok p' v' /\ insert_result v h pids rid tuple v' pids' /\
    v_left v - (zlen pids - Z.of_nat i) <= v_left v' <= v_left v.
Proof.
  induction fuel as [|fuel IH]; intros i p v t f pid Hi Hf Hok Hh Hpins Hnn Hl Hn Hroom Ht; [lia|].
  assert (Hin : pid ∈ pids) by (by eapply list_elem_of_lookup_2).
  pose proof (lookup_lt_Some _ _ _ Hi) as Hlen.
  destruct (hp_linked _ _ _ Hh _ _ Hi) as [L1 L2 L3 L4 L5].
  assert (Hcase : has_room (v_bytes v pid) tuple \/ ~ has_room (v_bytes v pid) tuple) by (unfold has_room; lia).
  destruct Hcase as [Hhere|Hfull].
  { destruct (insert_here fuel p v t f false pid tuple Hok (Hpins _ Hin) Ht L2 L3 Hhere) as
      (j & d & p' & HL & Hok' & Hw' & Hlk' & Hnone & Hat).
    exists (mkRID pid j), p', (txn_ t), (stored_page v pid d), pids. split_and!; try done.
    - rewrite HL. by destruct t.
    - by apply stored_insert.
    - simpl. unfold zlen in *. lia. }
  destruct (pids !! S i) as [q|] eqn:Eq.
  - pose proof Ht as (Ht1 & Ht2 & Ht3). pose proof (lookup_lt_Some _ _ _ Eq) as Hlen'.
    pose proof (InsertTuple_spec _ _ tuple L2) as HI. unfold has_room in Hfull. rewrite decide_True in HI by lia.
    specialize (HI ltac:(unfold BUSTUB_PAGE_SIZE in *; lia) Ht3).
    destruct (hp_linked _ _ _ Hh _ _ Eq) as [R1 _ _ _ _].
    destruct (give_back p v pid f Hok (Hpins _ Hin)) as (p1 & HU & Hok1 & _). rewrite view_eta in Hok1.
    destruct (fetch_page p1 v q Hok1) as (g & p2 & HF & _ & Hok2).
    { split_and!; [lia|lia|unfold zlen in *; lia|apply Hpins; by eapply list_elem_of_lookup_2|unfold room in *; lia]. }
    destruct (IH (S i) p2 (used v) t g q Eq) as (rid & p' & x & v' & pids' & HL & Hx & Hok' & HR & Hleft);
      try done; [lia|by destruct Hh|cbn [used accessed v_left]; lia|].
    exists rid, p', x, v', pids'. split_and!; try done.
    + cbn [insert_loop]. rewrite (held_data _ _ _ _ _ Hok). cbn [obind]. rewrite HI. cbn [obind].
      rewrite L5. cbn [default]. unfold id, INVALID_PAGE. rewrite (proj2 (Z.eqb_neq q (-1))) by lia. cbn [negb].
      rewrite L3, HU. cbn [obind]. rewrite HF. cbn [obind]. exact HL.
    + by destruct HR as [I1 I2 I3 I4 I5 I6 I7 I8].
    + cbn [used accessed v_left] in Hleft. lia.
    + cbn [used accessed v_left] in Hleft. lia.
  - assert (i = pred (length pids)) as -> by (apply lookup_ge_None in Eq; lia).
    destruct fuel as [|fuel]; [lia|].
    destruct (insert_new fuel p v t f pid h pids tuple) as (rid & p' & x & v' & HL & Hx & Hok' & HR & Hleft);
      try done; [unfold zlen in *; lia|].
    exists rid, p', x, v', (pids ++ [v_next v]). split_and!; try done; unfold zlen in *; lia.
Qed.

(** The pages of the table are not held, and [n] frames can be used. *)
Definition idle v (pids : list Z) (n : Z) : Prop := (forall q, q ∈ pids -> v_pins v !! q = None) /\ room v n.

Lemma heap_accessible v h pids pid :
  heap_ok v h pids -> idle v pids 1 -> 0 < v_left v -> pid ∈ pids -> accessible v pid.
Proof.
  intros Hh [Hi Hr] Hl Hin. destruct (heap_page v h pids pid Hh Hin) as (i & _ & Hlk).
  split_and!; try apply (ln_range _ _ _ _ _ Hlk); auto.
Qed.

Lemma InsertTuple_heap fuel p v h t pids tuple :
  pg_ok p v -> heap_ok v h pids -> idle v pids 2 -> zlen pids < v_left v -> v_next v < 2 ^ 19 - 1 ->
  tuple_ok tuple -> (length pids < fuel)%nat ->
  exists rid p' x v' pids',
    TableHeap_InsertTuple enable_logging fuel p h t tuple =
      Ret (Some rid, p', AppendTableWriteRecord (set_txn t x) (mkWrite rid INSERT [] h)) /\
    state_ x = state_ (txn_ t) /\ pg_ok p' v' /\ insert_result v h pids rid tuple v' pids' /\
    v_left v - zlen pids - 1 <= v_left v' <= v_left v.
Proof.
  intros Hok Hh [Hi Hr] Hl Hn Ht Hf. pose proof Ht as (Ht1 & Ht2 & Ht3).
  assert (Hin : first_page_id_ h ∈ pids) by (eapply list_elem_of_lookup_2, (hp_first _ _ _ Hh)).
  destruct (fetch_page p v (first_page_id_ h) Hok) as (f & p1 & HF & _ & Hok1).
  { apply (heap_accessible v h pids); try done; [|unfold zlen in *; lia]. split; [done|unfold room in *; lia]. }
  pose proof (pg_next_ok _ _ Hok) as Hn0.
  destruct (insert_loop_ok h pids tuple fuel 0 p1 (used v) t f (first_page_id_ h)) as
    (rid & p' & x & v' & pids' & HL & Hx & Hok' & HR & Hleft); try done.
  - apply (hp_first _ _ _ Hh).
  - lia.
  - by destruct Hh.
  - destruct (v_pins v !! v_next v) as [y|] eqn:E; [|done].
    destruct (pg_pins_ok _ _ _ _ Hok E) as [Hlt _]. lia.
  - cbn [used accessed v_left]. lia.
  - cbn [used accessed v_next]. lia.
  - exists rid, p', x, v', pids'. split_and!; try done.
    + unfold TableHeap_InsertTuple. rewrite uwrap_id by (unfold ufits, BUSTUB_PAGE_SIZE in *; lia).
      rewrite (proj2 (Z.ltb_ge _ _)) by lia. rewrite HF. cbn [obind]. rewrite HL. done.
    + by destruct HR.
    + cbn [used accessed v_left] in Hleft. lia.
    + cbn [used accessed v_left] in Hleft. lia.
Qed.

(** ** Operations on one tuple *)

(** What the table holds changes under one record id at most. *)
Definition set_at v (pids : list Z) (rid : RID) (c : option (bool * list Z)) v' : Prop :=
  (forall r, heap_at v' pids r = if decide (r = rid) then c else heap_at v pids r) /\
  (forall q, 0 <= q < v_next v -> q ∉ pids -> v_bytes v' q = v_bytes v q) /\
  v_pins v' = v_pins v /\ v_size v' = v_size v /\ v_next v' = v_next v /\ v_left v' = v_left v - 1.

Lemma heap_at_page v h pids rid c :
  heap_ok v h pids -> heap_at v pids rid = Some c ->
  page_id_ rid ∈ pids /\ tuple_at (v_bytes v (page_id_ rid)) (slot_num_ rid) = Some c /\ 0 <= slot_num_ rid /\
  page_wf BUSTUB_PAGE_SIZE (v_bytes v (page_id_ rid)) /\ GetTablePageId (v_bytes v (page_id_ rid)) = page_id_ rid.
Proof.
  intros Hh. unfold heap_at. destruct (decide _) as [Hin|]; [|done]. intros Hat.
  destruct (heap_page v h pids _ Hh Hin) as (i & _ & Hlk). split_and!; try done; [|apply Hlk|apply Hlk].
  unfold tuple_at in Hat. destruct (decide _); [lia|done].
Qed.

(** One page is fetched, changed and given back. *)
Lemma change_page p v h pids pid :
  pg_ok p v -> heap_ok v h pids -> idle v pids 1 -> 0 < v_left v -> pid ∈ pids ->
  exists f p1, pg_fetch p pid = Ret (Some f, p1) /\ pg_data p1 f = Ret (v_bytes v pid) /\
    (exists p2, pg_unpin p1 pid false = Ret (true, p2) /\ pg_ok p2 (used v)) /\
    (forall d, page_wf BUSTUB_PAGE_SIZE d -> same_links (v_bytes v pid) d ->
       exists p2 p3, pg_write p1 f d = Ret p2 /\ pg_unpin p2 pid true = Ret (true, p3) /\
         pg_ok p3 (stored_page (used v) pid d) /\ heap_ok (stored_page (used v) pid d) h pids).
Proof.
  intros Hok Hh Hi Hl Hin. destruct (fetch_page p v pid Hok) as (f & p1 & HF & HD & Hok1).
  { by eapply heap_accessible. }
  exists f, p1. split_and!; [done|done| |].
  - destruct (give_back p1 _ _ _ Hok1) as (p2 & HU & Hok2 & _); [by apply Hi|]. rewrite view_eta in Hok2. eauto.
  - intros d Hw Hlk. destruct (write_back p1 _ _ _ _ d Hok1) as (p2 & p3 & HW & HU & Hok2); [by apply Hi|apply Hw|].
    exists p2, p3. split_and!; [done|done|done|]. by eapply (heap_ok_upd v).
Qed.

Lemma set_at_stored v h pids rid d c :
  heap_ok v h pids -> page_id_ rid ∈ pids -> tuple_at d (slot_num_ rid) = c ->
  (forall j, j <> slot_num_ rid -> tuple_at d j = tuple_at (v_bytes v (page_id_ rid)) j) ->
  set_at v pids rid c (stored_page (used v) (page_id_ rid) d).
Proof.
  intros Hh Hin Hc Hj. split_and!; try done.
  - intros [q j]. rewrite (heap_at_upd v _ pids (page_id_ rid) d) by done. simpl. unfold heap_at. simpl.
    destruct rid as [pid i]. simpl in *. destruct (decide (q = pid)) as [->|Hq].
    + rewrite (decide_True (P := pid ∈ pids)) by done. destruct (decide (j = i)) as [->|].
      * by rewrite decide_True.
      * rewrite decide_False by congruence. by apply Hj.
    + by rewrite (decide_False (P := mkRID q j = _)) by congruence.
  - intros q Hq Hqn. simpl. apply upd_other. by intros ->.
Qed.

Lemma same_links_id d d' : same_links d d' -> GetTablePageId d' = GetTablePageId d.
Proof. by intros (? & _). Qed.

(** Run the operations of a page access whose equations are in the context. *)
Ltac run_access :=
  repeat (cbn [obind];
    match goal with
    | HX : pg_fetch _ _ = Ret _ |- _ => rewrite HX; clear HX
    | HX : pg_data _ _ = Ret _ |- _ => rewrite HX; clear HX
    | HX : pg_write _ _ _ = Ret _ |- _ => rewrite HX; clear HX
    | HX : pg_unpin _ _ _ = Ret _ |- _ => rewrite HX; clear HX
    end); cbn [obind].

(** [MarkDelete] of a record id of the table always reports success. *)
Lemma MarkDelete_heap p v h t pids rid :
  pg_ok p v -> heap_ok v h pids -> idle v pids 1 -> 0 < v_left v -> page_id_ rid ∈ pids -> 0 <= slot_num_ rid ->
  exists p' v' t', TableHeap_MarkDelete enable_logging p h t rid = Ret (true, p', t') /\
    table_write_set_ t' = table_write_set_ t ++ [mkWrite rid DELETE [] h] /\
    pg_ok p' v' /\ heap_ok v' h pids /\
    match heap_at v pids rid with
    | Some (false, bytes) => txn_ t' = txn_ t /\ set_at v pids rid (Some (true, bytes)) v'
    | c => txn_ t' = abort_txn enable_logging (txn_ t) /\ set_at v pids rid c v'
    end.
Proof.
  intros Hok Hh Hi Hl Hin Hs. destruct (heap_page v h pids _ Hh Hin) as (i & _ & [_ Hw Hid _ _]).
  destruct (change_page p v h pids _ Hok Hh Hi Hl Hin) as (f & p1 & HF & HD & _ & Hwr).
  pose proof (MarkDelete_spec enable_logging _ _ rid (txn_ t) Hw Hs) as HM.
  assert (Hat : heap_at v pids rid = tuple_at (v_bytes v (page_id_ rid)) (slot_num_ rid))
    by (unfold heap_at; by rewrite decide_True).
  assert (Hmark : exists b d x, MarkDelete enable_logging (v_bytes v (page_id_ rid)) rid (txn_ t) = (b, d, x) /\
    page_wf BUSTUB_PAGE_SIZE d /\ same_links (v_bytes v (page_id_ rid)) d /\
    (forall j, j <> slot_num_ rid -> tuple_at d j = tuple_at (v_bytes v (page_id_ rid)) j) /\
    match heap_at v pids rid with
    | Some (false, bytes) => x = txn_ t /\ tuple_at d (slot_num_ rid) = Some (true, bytes)
    | c => x = abort_txn enable_logging (txn_ t) /\ tuple_at d (slot_num_ rid) = c
    end).
  { rewrite Hat. destruct (tuple_at _ (slot_num_ rid)) as [[[|] bytes]|] eqn:E.
    - rewrite HM. eexists _, _, _. split_and!; try done.
    - destruct HM as (d & HM & ? & ? & ? & ?). rewrite HM. eexists _, _, _. by split_and!.
    - rewrite HM. eexists _, _, _. split_and!; try done. }
  destruct Hmark as (b & d & x & HMd & Hwd & Hlk & Hoth & Hcase).
  destruct (Hwr d Hwd Hlk) as (p2 & p3 & HW & HU & Hok' & Hh').
  eexists p3, _, _. split_and!.
  - unfold TableHeap_MarkDelete. run_access. rewrite HMd. run_access.
    rewrite (same_links_id _ _ Hlk), Hid. run_access. reflexivity.
  - done.
  - exact Hok'.
  - done.
  - destruct (heap_at v pids rid) as [[[|] bytes]|]; destruct Hcase as [-> Hc];
      (split; [done|by eapply set_at_stored]).
Qed.

(** [GetTuple] gives a live tuple and fails on the others; the table does not change. *)
Lemma GetTuple_heap p v h t pids rid :
  pg_ok p v -> heap_ok v h pids -> idle v pids 1 -> 0 < v_left v -> page_id_ rid ∈ pids -> 0 <= slot_num_ rid ->
  exists p' t', pg_ok p' (used v) /\
    match heap_at v pids rid with
    | Some (false, bytes) => TableHeap_GetTuple enable_logging p h t rid = Ret (Some bytes, p', t) /\ t' = t
    | _ => TableHeap_GetTuple enable_logging p h t rid = Ret (None, p', t') /\
           t' = set_txn t (abort_txn enable_logging (txn_ t))
    end.
Proof.
  intros Hok Hh Hi Hl Hin Hs. destruct (heap_page v h pids _ Hh Hin) as (i & _ & [_ Hw Hid _ _]).
  destruct (change_page p v h pids _ Hok Hh Hi Hl Hin) as (f & p1 & HF & HD & (p2 & HU & Hok2) & _).
  assert (Hat : heap_at v pids rid = tuple_at (v_bytes v (page_id_ rid)) (slot_num_ rid))
    by (unfold heap_at; by rewrite decide_True).
  pose proof (GetTuple_spec enable_logging _ _ rid (txn_ t) Hw Hs) as HG. rewrite <- Hat in HG.
  unfold TableHeap_GetTuple. run_access. rewrite HG.
  destruct (heap_at v pids rid) as [[[|] bytes]|]; eexists p2, _; run_access;
    (split; [done|split; [|reflexivity]]); try done. by destruct t.
Qed.

(** The free bytes of the page of a tuple, its own included. *)
Definition space_for v (rid : RID) (bytes : list Z) : Z :=
  let d := v_bytes v (page_id_ rid) in fsp d - 24 - 8 * cnt d + zlen bytes.

Lemma UpdateTuple_heap p v h t pids rid tuple :
  pg_ok p v -> heap_ok v h pids -> idle v pids 1 -> 0 < v_left v -> page_id_ rid ∈ pids -> 0 <= slot_num_ rid ->
  0 < zlen tuple -> Forall byte_ok tuple ->
  match heap_at v pids rid with
  | Some (false, bytes) =>
      if decide (space_for v rid bytes < zlen tuple)
      then exists p', TableHeap_UpdateTuple enable_logging p h t tuple rid = Ret (false, p', t) /\ pg_ok p' (used v)
      else exists p' v',
        TableHeap_UpdateTuple enable_logging p h t tuple rid =
          Ret (true, p', if is_aborted t then t else AppendTableWriteRecord t (mkWrite rid UPDATE bytes h)) /\
        pg_ok p' v' /\ heap_ok v' h pids /\ set_at v pids rid (Some (false, tuple)) v'
  | _ => exists p', TableHeap_UpdateTuple enable_logging p h t tuple rid =
           Ret (false, p', set_txn t (abort_txn enable_logging (txn_ t))) /\ pg_ok p' (used v)
  end.
Proof.
  intros Hok Hh Hi Hl Hin Hs Hlen Hb. destruct (heap_page v h pids _ Hh Hin) as (i & _ & [_ Hw Hid _ _]).
  destruct (change_page p v h pids _ Hok Hh Hi Hl Hin) as (f & p1 & HF & HD & (q2 & HU2 & Hok2) & Hwr).
  assert (Hat : heap_at v pids rid = tuple_at (v_bytes v (page_id_ rid)) (slot_num_ rid))
    by (unfold heap_at; by rewrite decide_True).
  pose proof (UpdateTuple_spec enable_logging _ _ tuple rid (txn_ t) Hw Hs Hlen Hb) as HM. rewrite <- Hat in HM.
  assert (Ht : set_txn t (txn_ t) = t) by by destruct t.
  destruct (heap_at v pids rid) as [[[|] bytes]|] eqn:E; unfold space_for.
  - exists q2. unfold TableHeap_UpdateTuple. run_access. rewrite HM. cbn [obind]. rewrite Hid. by run_access.
  - destruct (decide (fsp _ - 24 - 8 * cnt _ + zlen bytes < zlen tuple)) as [Hno|Hfit].
    + exists q2. unfold TableHeap_UpdateTuple. run_access. rewrite HM. cbn [obind]. rewrite Hid, Ht. by run_access.
    + destruct HM as (d & HM & Hwd & Hlk & Hnew & Hoth).
      destruct (Hwr d Hwd Hlk) as (p2 & p3 & HW & HU & Hok' & Hh'). eexists p3, _. split_and!; [|exact Hok'|done|].
      * unfold TableHeap_UpdateTuple. run_access. rewrite HM. run_access.
        rewrite (same_links_id _ _ Hlk), Hid, Ht. by run_access.
      * by eapply set_at_stored.
  - exists q2. unfold TableHeap_UpdateTuple. run_access. rewrite HM. cbn [obind]. rewrite Hid. by run_access.
Qed.

Lemma ApplyDelete_heap p v h t pids rid del bytes :
  pg_ok p v -> heap_ok v h pids -> idle v pids 1 -> 0 < v_left v -> heap_at v pids rid = Some (del, bytes) ->
  exists p' v', TableHeap_ApplyDelete p h t rid = Ret p' /\ pg_ok p' v' /\ heap_ok v' h pids /\
    set_at v pids rid None v'.
Proof.
  intros Hok Hh Hi Hl Hat. destruct (heap_at_page v h pids rid _ Hh Hat) as (Hin & Htat & Hs & Hw & Hid).
  destruct (change_page p v h pids _ Hok Hh Hi Hl Hin) as (f & p1 & HF & HD & _ & Hwr).
  destruct (ApplyDelete_spec _ _ rid del bytes Hw Htat) as (d & HA & Hwd & Hlk & _ & _ & Hnone & Hoth).
  destruct (Hwr d Hwd Hlk) as (p2 & p3 & HW & HU & Hok' & Hh'). eexists p3, _. split_and!; [|exact Hok'|done|].
  - unfold TableHeap_ApplyDelete. run_access. rewrite HA. run_access.
    rewrite (same_links_id _ _ Hlk), Hid. by run_access.
  - by eapply set_at_stored.
Qed.

Lemma RollbackDelete_heap p v h t pids rid bytes :
  pg_ok p v -> heap_ok v h pids -> idle v pids 1 -> 0 < v_left v -> heap_at v pids rid = Some (true, bytes) ->
  exists p' v', TableHeap_RollbackDelete p h t rid = Ret p' /\ pg_ok p' v' /\ heap_ok v' h pids /\
    set_at v pids rid (Some (false, bytes)) v'.
Proof.
  intros Hok Hh Hi Hl Hat. destruct (heap_at_page v h pids rid _ Hh Hat) as (Hin & Htat & Hs & Hw & Hid).
  destruct (change_page p v h pids _ Hok Hh Hi Hl Hin) as (f & p1 & HF & HD & _ & Hwr).
  destruct (RollbackDelete_spec _ _ rid bytes Hw Htat) as (d & HA & Hwd & Hlk & Hback & Hoth).
  destruct (Hwr d Hwd Hlk) as (p2 & p3 & HW & HU & Hok' & Hh'). eexists p3, _. split_and!; [|exact Hok'|done|].
  - unfold TableHeap_RollbackDelete. run_access. rewrite HA. run_access.
    rewrite (same_links_id _ _ Hlk), Hid. by run_access.
  - by eapply set_at_stored.
Qed.

(** The constructor makes a table without tuples. *)
Lemma ctor_heap p v t :
  pg_ok p v -> room v 1 -> 0 < v_left v -> v_next v < 2 ^ 19 - 1 ->
  exists p' x v', TableHeap_ctor enable_logging p t = Ret (mkHeap (v_next v), p', set_txn t x) /\
    state_ x = state_ (txn_ t) /\ pg_ok p' v' /\ heap_ok v' (mkHeap (v_next v)) [v_next v] /\
    (forall r, heap_at v' [v_next v] r = None) /\
    (forall q, 0 <= q < v_next v -> v_bytes v' q = v_bytes v q) /\
    v_pins v' = v_pins v /\ v_size v' = v_size v /\ v_next v' = v_next v + 1 /\ v_left v' = v_left v - 1.
Proof.
  intros Hok Hroom Hl Hn. pose proof (pg_next_ok _ _ Hok) as Hn0.
  assert (Hno : v_pins v !! v_next v = None).
  { destruct (v_pins v !! v_next v) as [y|] eqn:E; [|done]. destruct (pg_pins_ok _ _ _ _ Hok E). lia. }
  destruct (pg_new_ok p v Hok Hl Hn Hroom) as (f & p1 & HN & Hok1).
  set (v1 := mkView (v_size v) (v_next v + 1) (upd (v_bytes v) (v_next v) zero_page) (v_pins v) (v_left v - 1)).
  change (created v f) with (holding v1 (v_next v) f false) in Hok1.
  pose proof (held_data _ _ _ _ _ Hok1) as HD. cbn [v1 v_bytes] in HD. rewrite upd_same in HD.
  pose proof (Init_spec enable_logging BUSTUB_PAGE_SIZE zero_page (v_next v) INVALID_LSN (txn_ t)) as HE.
  destruct (Init enable_logging zero_page (v_next v) BUSTUB_PAGE_SIZE INVALID_LSN (txn_ t)) as [e x] eqn:EI.
  cbn [fst] in HE. destruct HE as (E1 & E2 & E3 & E4 & E5 & E6 & E7);
    [unfold zlen; rewrite length_zero_page; done|unfold BUSTUB_PAGE_SIZE; lia|apply zero_page_ok
    |unfold sfits, INVALID_LSN; lia..|].
  destruct (write_back p1 v1 (v_next v) f false e Hok1 Hno (pw_len _ _ E1)) as (p2 & p3 & HW & HU & Hok3).
  exists p3, x, (stored_page v1 (v_next v) e). split_and!; try done.
  - unfold TableHeap_ctor. rewrite HN. run_access. rewrite EI. by run_access.
  - by apply Init_state in EI.
  - split; [|apply NoDup_singleton|done]. intros i q Hq. apply list_lookup_singleton_Some in Hq as [-> <-].
    split; simpl; rewrite ?upd_same; done || lia.
  - intros r. unfold heap_at. case_decide as Hin; [|done]. apply list_elem_of_singleton in Hin. rewrite Hin.
    simpl. by rewrite upd_same.
  - intros q Hq. simpl. rewrite !upd_other by lia. done.
Qed.

(** ** Scanning *)

Definition bytes_at (d : list Z) (j : Z) : list Z := match tuple_at d j with Some (_, b) => b | None => [] end.

(** The live tuples of a page from a slot on, and those of a list of pages. *)
Definition page_rows v (pid i : Z) : list (RID * list Z) :=
  (fun j => (mkRID pid j, bytes_at (v_bytes v pid) j)) <$> live_from (v_bytes v pid) i.
Definition heap_rows v (pids : list Z) : list (RID * list Z) := pids ≫= fun pid => page_rows v pid 0.

(** Where a scan goes on after slot [j] of the [k]-th page. *)
Definition rows_after v pids (k : nat) (pid j : Z) : list (RID * list Z) :=
  page_rows v pid (j + 1) ++ heap_rows v (drop (S k) pids).

Definition aged v (n : Z) : view := mkView (v_size v) (v_next v) (v_bytes v) (v_pins v) (v_left v - n).

Lemma heap_ok_aged v h pids n : heap_ok v h pids -> heap_ok (aged v n) h pids.
Proof. by intros []. Qed.

Lemma page_rows_find v pid i :
  page_wf BUSTUB_PAGE_SIZE (v_bytes v pid) -> 0 <= i <= cnt (v_bytes v pid) ->
  page_rows v pid i =
    match find_tuple (Z.to_nat (cnt (v_bytes v pid) - i)) (v_bytes v pid) i with
    | Some j => (mkRID pid j, bytes_at (v_bytes v pid) j) :: page_rows v pid (j + 1)
    | None => []
    end.
Proof. intros Hw Hi. unfold page_rows. rewrite (live_from_find _ _ _ Hw Hi). by destruct (find_tuple _ _ _). Qed.

Lemma found_live v pid i j :
  page_wf BUSTUB_PAGE_SIZE (v_bytes v pid) -> 0 <= i <= cnt (v_bytes v pid) ->
  find_tuple (Z.to_nat (cnt (v_bytes v pid) - i)) (v_bytes v pid) i = Some j ->
  i <= j < cnt (v_bytes v pid) /\
  tuple_at (v_bytes v pid) j = Some (false, bytes_at (v_bytes v pid) j).
Proof.
  intros Hw Hi Hf. pose proof (find_tuple_spec _ _ (Z.to_nat (cnt (v_bytes v pid) - i)) i Hw) as Hs.
  rewrite Hf in Hs. destruct Hs as (Hj & Hl & _); [lia|lia|]. split; [lia|].
  unfold live_slot in Hl. unfold bytes_at. by destruct (tuple_at _ j) as [[[|] b]|].
Qed.

Lemma slot_count v pid : page_wf BUSTUB_PAGE_SIZE (v_bytes v pid) -> 0 <= cnt (v_bytes v pid) < 2 ^ 31 - 1.
Proof.
  intros Hw. pose proof (pw_fsp _ _ Hw). pose proof (pw_size _ _ Hw). pose proof (cnt_nonneg _ (pw_ok _ _ Hw)). lia.
Qed.

Lemma drop_rows v pids k pid :
  pids !! k = Some pid -> heap_rows v (drop k pids) = page_rows v pid 0 ++ heap_rows v (drop (S k) pids).
Proof. intros Hk. by rewrite (drop_S _ _ _ Hk). Qed.

(** The record id a scan is on: the first of the rows left. *)
Definition first_rid (rows : list (RID * list Z)) : RID := match rows with [] => End_rid | r :: _ => r.1 end.

Lemma begin_loop_ok h pids fuel : forall k p v rid,
  (k <= length pids)%nat -> (length pids - k < fuel)%nat -> pg_ok p v -> heap_ok v h pids -> idle v pids 1 ->
  zlen pids - Z.of_nat k <= v_left v -> (k = length pids -> rid = End_rid) ->
  exists p' n, begin_loop fuel p (default (-1) (pids !! k)) rid =
    Ret (first_rid (heap_rows v (drop k pids)), p') /\
    pg_ok p' (aged v n) /\ 0 <= n <= zlen pids - Z.of_nat k.
Proof.
  induction fuel as [|fuel IH]; intros k p v rid Hk Hf Hok Hh Hi Hl Hend; [lia|]. cbn [begin_loop].
  destruct (pids !! k) as [pid|] eqn:Ek.
  - assert (Hin : pid ∈ pids) by (by eapply list_elem_of_lookup_2). pose proof (lookup_lt_Some _ _ _ Ek) as Hlt.
    destruct (hp_linked _ _ _ Hh _ _ Ek) as [L1 L2 L3 L4 L5].
    destruct (fetch_page p v pid Hok) as (f & p1 & HF & HD & Hok1).
    { eapply heap_accessible; try done. unfold zlen in *. lia. }
    destruct (give_back p1 _ _ _ Hok1) as (p2 & HU & Hok2 & Hsame); [by apply Hi|]. rewrite view_eta in Hok2.
    cbn [default]. unfold id, INVALID_PAGE. rewrite (proj2 (Z.eqb_neq pid (-1))) by lia. cbn [negb].
    rewrite HF. cbn [obind]. rewrite HD. cbn [obind]. rewrite (drop_rows v pids k pid Ek).
    pose proof (slot_count v pid L2) as Hc.
    rewrite (page_rows_find v pid 0 L2) by lia. unfold GetFirstTupleRid. rewrite Z.sub_0_r.
    destruct (find_tuple (Z.to_nat (cnt (v_bytes v pid))) (v_bytes v pid) 0) as [j|];
      cbn [rid_or_invalid]; rewrite HU; cbn [obind].
    + exists p2, 1. split_and!; [cbn; by rewrite L3|done|lia|unfold zlen in *; lia].
    + rewrite Hsame, HD. cbn [obind]. rewrite L5.
      destruct (IH (S k) p2 (used v) End_rid) as (p' & n & HB & Hok' & Hn); try done; try lia;
        try (by destruct Hh); try (cbn [used accessed v_left]; lia).
      exists p', (n + 1). split_and!; [exact HB| |lia|lia].
      unfold aged in *. simpl in Hok'. by replace (v_left v - (n + 1)) with (v_left v - 1 - n) by lia.
  - apply lookup_ge_None in Ek. cbn. rewrite drop_ge by lia. rewrite (Hend ltac:(lia)).
    exists p, 0. split_and!; [done| |lia|unfold zlen; lia]. unfold aged. rewrite Z.sub_0_r. by destruct v.
Qed.

(** Going from one page to the next: the next is fetched before the first is given back. *)
Lemma swap_page p v pid f q :
  pg_ok p (holding v pid f false) -> v_pins v !! pid = None -> v_pins v !! q = None -> q <> pid ->
  0 <= q < v_next v -> 0 < v_left v -> room v 2 ->
  exists g p1 p2, pg_fetch p q = Ret (Some g, p1) /\ pg_unpin p1 pid false = Ret (true, p2) /\
    pg_ok p2 (holding (used v) q g false).
Proof.
  intros Hok Hno Hnq Hne Hq Hl Hroom. destruct (fetch_page p _ q Hok) as (g & p1 & HF & _ & Hok1).
  { split_and!; simpl; [lia|lia|done|by rewrite lookup_insert_ne|].
    unfold room, holding in *. simpl. rewrite map_size_insert_None by done. lia. }
  destruct (pg_unpin_ok p1 _ pid (mkPin f 1 false) false Hok1) as (p2 & HU & Hok2 & _); [|done|].
  { simpl. rewrite lookup_insert_ne by done. apply lookup_insert_eq. }
  exists g, p1, p2. split_and!; [done|done|]. unfold unpinned, holding, used, accessed, with_pins in *. simpl in *.
  rewrite delete_insert_ne in Hok2 by done. by rewrite delete_insert_id in Hok2.
Qed.

(** Reading a page that is held already. *)
Lemma reread_page p v pid f :
  pg_ok p (holding v pid f false) -> 0 <= pid < v_next v -> 0 < v_left v ->
  exists p1 p2, pg_fetch p pid = Ret (Some f, p1) /\ pg_data p1 f = Ret (v_bytes v pid) /\
    pg_unpin p1 pid false = Ret (true, p2) /\ pg_ok p2 (holding (used v) pid f false).
Proof.
  intros Hok Hpid Hl. assert (Hx : v_pins (holding v pid f false) !! pid = Some (mkPin f 1 false)) by apply lookup_insert_eq.
  destruct (pg_fetch_ok p _ pid Hok Hl Hpid) as (g & p1 & HF & Hg & Hok1); [by rewrite Hx; simpl; lia|].
  specialize (Hg _ Hx). simpl in Hg. subst g. rewrite Hx in Hok1. simpl in Hok1.
  pose proof (pg_data_ok p1 _ pid (mkPin f 2 false) Hok1 (lookup_insert_eq _ _ _)) as HD.
  destruct (pg_unpin_ok p1 _ pid (mkPin f 2 false) false Hok1) as (p2 & HU & Hok2 & _); [apply lookup_insert_eq|done|].
  exists p1, p2. split_and!; [done|done|done|]. unfold unpinned, holding, used, accessed, with_pins in *. simpl in *.
  by rewrite !insert_insert_eq in Hok2.
Qed.

(** The first of the rows left is on the page held. *)
Definition positioned v pids (m : nat) (pid : Z) (rows : list (RID * list Z)) : Prop :=
  match rows with
  | [] => True
  | (r, b) :: rest => exists j, r = mkRID pid j /\ 0 <= j < cnt (v_bytes v pid) /\
      tuple_at (v_bytes v pid) j = Some (false, b) /\ rest = rows_after v pids m pid j
  end.

Lemma positioned_page v pids m pid i :
  page_wf BUSTUB_PAGE_SIZE (v_bytes v pid) -> 0 <= i <= cnt (v_bytes v pid) ->
  page_rows v pid i <> [] -> positioned v pids m pid (page_rows v pid i ++ heap_rows v (drop (S m) pids)).
Proof.
  intros Hw Hi. rewrite (page_rows_find v pid i Hw Hi).
  destruct (find_tuple _ _ i) as [j|] eqn:Ef; [|done]. intros _.
  destruct (found_live v pid i j Hw Hi Ef) as [Hj Hat]. exists j. split_and!; try done; lia.
Qed.

Lemma next_loop_ok h pids fuel : forall k p v f pid,
  pids !! k = Some pid -> (length pids - k <= fuel)%nat -> pg_ok p (holding v pid f false) ->
  heap_ok v h pids -> idle v pids 2 -> zlen pids - Z.of_nat k - 1 <= v_left v ->
  exists g m pid' p' n rows, rows = heap_rows v (drop (S k) pids) /\
    next_loop fuel p f End_rid = Ret (g, first_rid rows, p') /\ pids !! m = Some pid' /\
    pg_ok p' (holding (aged v n) pid' g false) /\ 0 <= n <= Z.of_nat m - Z.of_nat k /\
    positioned v pids m pid' rows.
Proof.
  induction fuel as [|fuel IH]; intros k p v f pid Ek Hf Hok Hh Hi Hl;
    pose proof (lookup_lt_Some _ _ _ Ek) as Hlt; [lia|].
  assert (Hin : pid ∈ pids) by (by eapply list_elem_of_lookup_2).
  destruct (hp_linked _ _ _ Hh _ _ Ek) as [L1 L2 L3 L4 L5]. cbn [next_loop].
  rewrite (held_data _ _ _ _ _ Hok). cbn [obind]. rewrite L5.
  destruct (pids !! S k) as [q|] eqn:Eq.
  - pose proof (lookup_lt_Some _ _ _ Eq) as Hlt'. assert (Hinq : q ∈ pids) by (by eapply list_elem_of_lookup_2).
    destruct (hp_linked _ _ _ Hh _ _ Eq) as [R1 R2 R3 R4 R5].
    assert (Hne : q <> pid).
    { intros ->. pose proof (NoDup_lookup _ _ _ _ (hp_nodup _ _ _ Hh) Ek Eq). lia. }
    cbn [default]. unfold id, INVALID_PAGE. rewrite (proj2 (Z.eqb_neq q (-1))) by lia. cbn [negb].
    destruct (swap_page p v pid f q Hok) as (g & p1 & p2 & HF & HU & Hok2); try done; try apply Hi; auto;
      [unfold zlen in *; lia|].
    rewrite HF. cbn [obind]. rewrite L3, HU. cbn [obind].
    rewrite (held_data _ _ _ _ _ Hok2). cbn [obind used accessed v_bytes].
    pose proof (slot_count v q R2) as Hc. unfold GetFirstTupleRid.
    rewrite (drop_rows v pids (S k) q Eq). pose proof (page_rows_find v q 0 R2 ltac:(lia)) as Hrows.
    rewrite Z.sub_0_r in Hrows.
    destruct (find_tuple (Z.to_nat (cnt (v_bytes v q))) (v_bytes v q) 0) as [j|] eqn:Ef; cbn [rid_or_invalid].
    + exists g, (S k), q, p2, 1. eexists. split_and!; [reflexivity| |done|done|lia|lia|].
      * rewrite Hrows, R3. done.
      * apply positioned_page; [done|lia|]. by rewrite Hrows.
    + destruct (IH (S k) p2 (used v) g q Eq) as (g' & m & pid' & p' & n & rows & -> & HL & Hm & Hok' & Hn & Hpos);
        try done; try lia; try (by destruct Hh); try (cbn [used accessed v_left]; lia).
      exists g', m, pid', p', (n + 1). eexists. split_and!;
        [reflexivity|rewrite Hrows; exact HL|done| |lia|lia|rewrite Hrows; exact Hpos].
      unfold aged in *. simpl in Hok'. by replace (v_left v - (n + 1)) with (v_left v - 1 - n) by lia.
  - cbn. apply lookup_ge_None in Eq. rewrite drop_ge by lia.
    exists f, k, pid, p, 0. eexists. split_and!; [reflexivity|done|done| |lia|lia|done].
    unfold aged. rewrite Z.sub_0_r. by destruct v.
Qed.

Lemma rid_not_End pid j : 0 <= pid < 2 ^ 31 -> 0 <= j < 2 ^ 32 ->
  (RID_Get (mkRID pid j) =? RID_Get End_rid) = false.
Proof.
  intros Hp Hj. apply Z.eqb_neq. intros E. apply (f_equal RID_of_int64) in E.
  rewrite !RID_roundtrip in E by (unfold sfits, ufits, End_rid, INVALID_PAGE; simpl; lia).
  injection E as E _. unfold INVALID_PAGE in E. lia.
Qed.

(** The iterator on the first of the rows left. *)
Definition iter_at (it : TableIterator) (rows : list (RID * list Z)) : Prop :=
  match rows with [] => it_rid it = End_rid | (r, b) :: _ => it = mkIter r b end.

(** [operator++] goes to the next row; on the last one it reaches the end. *)
Lemma next_ok fuel p v h t pids k pid j it :
  pg_ok p v -> heap_ok v h pids -> idle v pids 2 -> pids !! k = Some pid -> (length pids - k <= fuel)%nat ->
  zlen pids - Z.of_nat k + 1 <= v_left v -> 0 <= j < cnt (v_bytes v pid) -> it_rid it = mkRID pid j ->
  exists it' m pid' p' n, TableIterator_next enable_logging fuel p h t it = Ret (it', p', t) /\
    pids !! m = Some pid' /\ pg_ok p' (aged v n) /\ (k <= m)%nat /\ 0 <= n <= Z.of_nat m - Z.of_nat k + 2 /\
    iter_at it' (rows_after v pids k pid j) /\ positioned v pids m pid' (rows_after v pids k pid j).
Proof.
  intros Hok Hh Hi Ek Hf Hl Hj Hit. pose proof (lookup_lt_Some _ _ _ Ek) as Hlt.
  assert (Hin : pid ∈ pids) by (by eapply list_elem_of_lookup_2).
  destruct (hp_linked _ _ _ Hh _ _ Ek) as [L1 L2 L3 L4 L5]. pose proof (slot_count v pid L2) as Hc.
  destruct (fetch_page p v pid Hok) as (f & p1 & HF & HD & Hok1).
  { eapply heap_accessible; try done; [|unfold zlen in *; lia]. destruct Hi. split; [done|unfold room in *; lia]. }
  (* the row the scan goes to, with its page held *)
  assert (exists g m pid' p2 n,
    (let* (found, rid) := GetNextTupleRid (v_bytes v pid) (it_rid it) in
     if found : bool then Ret (f, rid, p1) else next_loop fuel p1 f rid) =
      Ret (g, first_rid (rows_after v pids k pid j), p2) /\ pids !! m = Some pid' /\
    pg_ok p2 (holding (aged v n) pid' g false) /\ 1 <= n <= Z.of_nat m - Z.of_nat k + 1 /\
    positioned v pids m pid' (rows_after v pids k pid j)) as (g & m & pid' & p2 & n & HN & Em & Hok2 & Hn & Hpos).
  { unfold GetNextTupleRid. rewrite Hit. cbn [page_id_ slot_num_]. rewrite L3, Z.eqb_refl. cbn [negb obind].
    rewrite uwrap_id by (unfold ufits; lia). unfold rows_after.
    pose proof (page_rows_find v pid (j + 1) L2 ltac:(lia)) as Hrows.
    destruct (find_tuple _ (v_bytes v pid) (j + 1)) as [j'|]; cbn [rid_or_invalid].
    - exists f, k, pid, p1, 1. split_and!; [by rewrite Hrows, L3|done|done|lia|lia|].
      apply positioned_page; [done|lia|]. by rewrite Hrows.
    - destruct (next_loop_ok h pids fuel k p1 (used v) f pid Ek Hf Hok1) as
        (g & m & pid' & p2 & n & rows & -> & HL & Em & Hok2 & Hn & Hpos);
        try done; try (by destruct Hh); try (cbn [used accessed v_left]; lia).
      exists g, m, pid', p2, (n + 1). rewrite Hrows. split_and!; [exact HL|done| |lia|lia|exact Hpos].
      unfold aged in *. simpl in Hok2. by replace (v_left v - (n + 1)) with (v_left v - 1 - n) by lia. }
  pose proof (lookup_lt_Some _ _ _ Em) as Hltm. assert (Hinm : pid' ∈ pids) by (by eapply list_elem_of_lookup_2).
  destruct (hp_linked _ _ _ Hh _ _ Em) as [R1 R2 R3 R4 R5].
  unfold TableIterator_next. rewrite Hit. cbn [page_id_]. rewrite HF. cbn [obind]. rewrite HD. cbn [obind].
  rewrite Hit in HN. destruct (GetNextTupleRid (v_bytes v pid) (mkRID pid j)) as [[found rid]| | |]; [|done..].
  cbn [obind] in HN |- *. rewrite HN. cbn [obind it_rid].
  destruct (rows_after v pids k pid j) as [|[r b] rest] eqn:ER; cbn [first_rid] in *.
  - change (is_End (mkIter End_rid (it_tuple it))) with true. cbn [negb obind].
    rewrite (held_data _ _ _ _ _ Hok2). cbn [obind]. change (v_bytes (aged v n)) with (v_bytes v). rewrite R3.
    destruct (give_back p2 _ _ _ Hok2) as (p3 & HU & Hok3 & _); [by apply Hi|]. rewrite view_eta in Hok3.
    rewrite HU. cbn [obind]. eexists _, m, pid', p3, n. split_and!; try done; lia.
  - destruct Hpos as (j' & -> & Hj' & Hat & ->). pose proof (slot_count v pid' R2) as Hc'.
    pose proof (pg_next_ok _ _ Hok) as Hnx.
    unfold is_End at 1. cbn [it_rid fst]. rewrite rid_not_End by lia. cbn [negb].
    destruct (reread_page p2 _ pid' g Hok2) as (p3 & p4 & HF3 & HD3 & HU3 & Hok4);
      [done|cbn [aged v_left]; unfold zlen in *; lia|].
    pose proof (GetTuple_spec enable_logging _ _ (mkRID pid' j') (txn_ t) R2) as HG. cbn [slot_num_] in HG.
    rewrite Hat in HG. specialize (HG ltac:(lia)).
    unfold TableHeap_GetTuple. cbn [page_id_]. rewrite HF3. cbn [obind]. rewrite HD3. cbn [obind].
    change (v_bytes (aged v n)) with (v_bytes v). rewrite HG, HU3. cbn [obind default it_tuple].
    rewrite (held_data _ _ _ _ _ Hok4). cbn [obind]. change (v_bytes (used (aged v n))) with (v_bytes v). rewrite R3.
    destruct (give_back p4 _ _ _ Hok4) as (p5 & HU & Hok5 & _); [by apply Hi|]. rewrite view_eta in Hok5.
    rewrite HU. cbn [obind]. assert (Ht : set_txn t (txn_ t) = t) by by destruct t. rewrite Ht.
    eexists _, m, pid', p5, (n + 1). split_and!; try done; try lia.
    + unfold used, accessed, aged in *. simpl in *. by replace (v_left v - (n + 1)) with (v_left v - n - 1) by lia.
    + exists j'. split_and!; try done; lia.
Qed.

Lemma scan_loop_ok h t pids fuel : forall k pid j b p v,
  pg_ok p v -> heap_ok v h pids -> idle v pids 2 -> pids !! k = Some pid ->
  (length (rows_after v pids k pid j) + 2 + (length pids - k) <= fuel)%nat ->
  zlen pids - Z.of_nat k + 2 * zlen (rows_after v pids k pid j) + 1 <= v_left v ->
  0 <= j < cnt (v_bytes v pid) ->
  exists p' n, scan_loop enable_logging fuel p h t (mkIter (mkRID pid j) b) =
      Ret ((mkRID pid j, b) :: rows_after v pids k pid j, p', t) /\ pg_ok p' (aged v n) /\
    0 <= n <= zlen pids - Z.of_nat k + 2 * zlen (rows_after v pids k pid j) + 1.
Proof.
  induction fuel as [|fuel IH]; intros k pid j b p v Hok Hh Hi Ek Hf Hl Hj; [lia|].
  pose proof (lookup_lt_Some _ _ _ Ek) as Hlt.
  destruct (hp_linked _ _ _ Hh _ _ Ek) as [L1 L2 _ _ _]. pose proof (slot_count v pid L2) as Hc.
  pose proof (pg_next_ok _ _ Hok) as Hnx.
  destruct (next_ok (S fuel) p v h t pids k pid j (mkIter (mkRID pid j) b)) as
    (it' & m & pid' & p1 & n & HN & Em & Hok1 & Hkm & Hn & Hat & Hpos); try done; [lia|unfold zlen in *; lia|].
  pose proof (lookup_lt_Some _ _ _ Em) as Hltm.
  cbn [scan_loop]. unfold is_End at 1. cbn [it_rid]. rewrite rid_not_End by lia. rewrite HN. cbn [obind it_tuple].
  destruct (rows_after v pids k pid j) as [|[r b'] rest] eqn:ER.
  - destruct fuel as [|fuel]; [simpl in Hf; lia|]. cbn [scan_loop].
    replace (is_End it') with true by (unfold is_End; by rewrite Hat). cbn [obind].
    exists p1, n. split_and!; try done; unfold zlen in *; simpl; lia.
  - destruct Hpos as (j' & -> & Hj' & Hat' & ->). cbn [iter_at] in Hat. subst it'.
    change (rows_after v pids m pid' j') with (rows_after (aged v n) pids m pid' j').
    unfold zlen in *. cbn [length] in *.
    destruct (IH m pid' j' b' p1 (aged v n) Hok1) as (p2 & n2 & HS & Hok2 & Hn2); try done;
      [by apply heap_ok_aged|change (rows_after (aged v n)) with (rows_after v); lia|cbn [aged v_left]; change (rows_after (aged v n)) with (rows_after v); lia|].
    exists p2, (n + n2). rewrite HS. cbn [obind]. split_and!; [done| |lia|].
    + unfold aged in *. simpl in *. by replace (v_left v - (n + n2)) with (v_left v - n - n2) by lia.
    + change (rows_after (aged v n)) with (rows_after v) in *. lia.
Qed.

Lemma rows_positioned v h pids : forall k,
  heap_ok v h pids -> heap_rows v (drop k pids) <> [] ->
  exists m pid, (k <= m)%nat /\ pids !! m = Some pid /\ positioned v pids m pid (heap_rows v (drop k pids)).
Proof.
  intros k Hh. remember (length pids - k)%nat as n eqn:En. revert k En.
  induction n as [|n IH]; intros k En Hne.
  { by rewrite drop_ge in Hne by lia. }
  destruct (lookup_lt_is_Some_2 pids k) as [pid Ek]; [lia|].
  destruct (hp_linked _ _ _ Hh _ _ Ek) as [_ L2 _ _ _]. pose proof (slot_count v pid L2) as Hc.
  rewrite (drop_rows v pids k pid Ek) in Hne |- *.
  destruct (decide (page_rows v pid 0 = [])) as [E|E].
  - rewrite E in Hne |- *. destruct (IH (S k)) as (m & pid' & Hm & Em & Hpos); [lia|done|]. exists m, pid'.
    split_and!; [lia|done|done].
  - exists k, pid. split_and!; [lia|done|]. apply positioned_page; (done || lia).
Qed.

Lemma table_scan_ok fuel p v h t pids :
  pg_ok p v -> heap_ok v h pids -> idle v pids 2 ->
  (length (heap_rows v pids) + length pids + 3 <= fuel)%nat ->
  2 * zlen pids + 2 * zlen (heap_rows v pids) + 2 <= v_left v ->
  exists p' n, table_scan enable_logging fuel p h t = Ret (heap_rows v pids, p', t) /\ pg_ok p' (aged v n) /\
    0 <= n <= 2 * zlen pids + 2 * zlen (heap_rows v pids) + 2.
Proof.
  intros Hok Hh Hi Hf Hl. assert (Hi1 : idle v pids 1) by (destruct Hi; split; [done|unfold room in *; lia]).
  destruct (begin_loop_ok h pids fuel 0 p v RID_default) as (p1 & n1 & HB & Hok1 & Hn1);
    try done; [lia|lia|unfold zlen in *; lia|].
  rewrite (hp_first _ _ _ Hh) in HB. cbn [default] in HB. unfold id in HB. rewrite drop_0 in HB.
  unfold table_scan, TableHeap_Begin. rewrite HB. cbn [obind].
  pose proof (rows_positioned v h pids 0 Hh) as Hpos. rewrite drop_0 in Hpos.
  destruct (heap_rows v pids) as [|[r b] rest] eqn:ER.
  - cbn [first_rid]. change (TableIterator_ctor enable_logging p1 h t End_rid) with (Ret (mkIter End_rid [], p1, t)).
    cbn [obind]. destruct fuel as [|fuel]; [lia|]. cbn [scan_loop].
    change (is_End (mkIter End_rid [])) with true. exists p1, n1. split_and!; try done; unfold zlen in *; simpl; lia.
  - destruct Hpos as (m & pid & _ & Em & j & -> & Hj & Hat & ->); [done|].
    pose proof (lookup_lt_Some _ _ _ Em) as Hltm. assert (Hin : pid ∈ pids) by (by eapply list_elem_of_lookup_2).
    destruct (hp_linked _ _ _ Hh _ _ Em) as [L1 L2 _ _ _].
    cbn [first_rid fst]. unfold TableIterator_ctor. cbn [page_id_]. unfold INVALID_PAGE.
    rewrite (proj2 (Z.eqb_neq pid (-1))) by lia. cbn [negb]. unfold zlen in *. cbn [length] in *.
    destruct (GetTuple_heap p1 (aged v n1) h t pids (mkRID pid j) Hok1) as (p2 & t2 & Hok2 & HG);
      [by apply heap_ok_aged|done|cbn [aged v_left]; lia|done|simpl; lia|].
    assert (Hha : heap_at (aged v n1) pids (mkRID pid j) = Some (false, b))
      by (unfold heap_at; simpl; by rewrite decide_True).
    rewrite Hha in HG. destruct HG as [HG _]. rewrite HG. cbn [obind default]. unfold id.
    destruct (scan_loop_ok h t pids fuel m pid j b p2 (used (aged v n1)) Hok2) as (p3 & n3 & HS & Hok3 & Hn3);
      try done; try (by destruct Hh).
    + change (rows_after (used (aged v n1))) with (rows_after v). lia.
    + change (rows_after (used (aged v n1))) with (rows_after v). cbn [used accessed aged v_left]. unfold zlen. lia.
    + change (rows_after (used (aged v n1))) with (rows_after v) in *. exists p3, (n1 + 1 + n3).
      split_and!; [done| |lia|unfold zlen in *; lia].
      unfold used, accessed, aged in *. simpl in *.
      by replace (v_left v - (n1 + 1 + n3)) with (v_left v - n1 - 1 - n3) by lia.
Qed.

(** The rows are the live tuples of the table, each once. *)
Lemma elem_of_heap_rows v h pids r b :
  heap_ok v h pids -> (r, b) ∈ heap_rows v pids <-> heap_at v pids r = Some (false, b).
Proof.
  intros Hh. unfold heap_rows. rewrite list_elem_of_bind. split.
  - intros (pid & Hr & Hin). unfold page_rows in Hr. apply list_elem_of_fmap in Hr as (j & [= -> ->] & Hj).
    unfold live_from in Hj. apply list_elem_of_filter in Hj as [Hl Hj].
    unfold heap_at. simpl. rewrite decide_True by done. unfold live_slot in Hl. unfold bytes_at.
    by destruct (tuple_at _ j) as [[[|] b]|].
  - intros Hat. destruct (heap_at_page v h pids r _ Hh Hat) as (Hin & Ht & Hs & Hw & _). exists (page_id_ r).
    split; [|done]. unfold page_rows. apply list_elem_of_fmap. exists (slot_num_ r).
    unfold bytes_at. rewrite Ht. split; [by destruct r|]. unfold live_from. apply list_elem_of_filter.
    unfold live_slot. rewrite Ht. split; [done|]. apply elem_of_seqZ.
    unfold tuple_at in Ht. destruct (decide _); [lia|done].
Qed.

Lemma heap_rows_NoDup v pids : NoDup pids -> NoDup (heap_rows v pids).*1.
Proof.
  intros Hnd. unfold heap_rows. induction Hnd as [|pid pids Hni Hnd IH]; [constructor|].
  cbn [mbind list_bind]. rewrite fmap_app. apply NoDup_app. split_and!; [| |done].
  - unfold page_rows. rewrite <- list_fmap_compose. apply NoDup_fmap_2_strong.
    + intros i j _ _ [= ->]. done.
    + apply NoDup_filter, NoDup_seqZ.
  - intros r Hr Hr'. apply list_elem_of_fmap in Hr as ([r1 b1] & -> & Hr).
    unfold page_rows in Hr. apply list_elem_of_fmap in Hr as (j & [= -> ->] & _).
    apply list_elem_of_fmap in Hr' as ([r2 b2] & Hr12 & Hr'). simpl in Hr12. subst r2.
    apply list_elem_of_bind in Hr' as (pid' & Hr' & Hin). unfold page_rows in Hr'.
    apply list_elem_of_fmap in Hr' as (j' & [= -> -> _] & _). done.
Qed.

Lemma insert_rows v h pids rid tuple v' pids' :
  heap_ok v h pids -> insert_result v h pids rid tuple v' pids' ->
  heap_rows v' pids' ≡ₚ (rid, tuple) :: heap_rows v pids.
Proof.
  intros Hh HR. pose proof (ir_heap _ _ _ _ _ _ _ HR) as Hh'.
  apply NoDup_Permutation.
  - eapply NoDup_fmap_1, heap_rows_NoDup, (hp_nodup _ _ _ Hh').
  - apply NoDup_cons. split; [|eapply NoDup_fmap_1, heap_rows_NoDup, (hp_nodup _ _ _ Hh)].
    rewrite (elem_of_heap_rows v h) by done. by rewrite (ir_fresh _ _ _ _ _ _ _ HR).
  - intros [r b]. rewrite elem_of_cons, (elem_of_heap_rows v' h), (elem_of_heap_rows v h) by done.
    rewrite (ir_at _ _ _ _ _ _ _ HR). destruct (decide (r = rid)) as [->|Hne].
    + rewrite (ir_fresh _ _ _ _ _ _ _ HR). naive_solver.
    + naive_solver.
Qed.

(** ** The theorems *)

(** [TableHeap::InsertTuple] of a tuple that fits a page returns true with a fresh record
    id: the chain of pages stays intact (at most one page is added at its end), the tuple
    is stored under the id, every other record of the table and every page outside the
    table is as before, no pin is left behind, and the write set gets the record. The loop
    over the pages ends: fuel for one more than the pages of the table is enough. *)
Theorem TableHeap_InsertTuple_correct fuel p v h t pids tuple :
  pg_ok p v -> heap_ok v h pids -> idle v pids 2 -> zlen pids < v_left v -> v_next v < 2 ^ 19 - 1 ->
  tuple_ok tuple -> (length pids < fuel)%nat ->
  exists rid p' x v' pids',
    TableHeap_InsertTuple enable_logging fuel p h t tuple =
      Ret (Some rid, p', AppendTableWriteRecord (set_txn t x) (mkWrite rid INSERT [] h)) /\
    state_ x = state_ (txn_ t) /\ pg_ok p' v' /\ insert_result v h pids rid tuple v' pids' /\
    heap_rows v' pids' ≡ₚ (rid, tuple) :: heap_rows v pids.
Proof.
  intros Hok Hh Hi Hl Hn Ht Hf.
  destruct (InsertTuple_heap fuel p v h t pids tuple) as (rid & p' & x & v' & pids' & HI & Hx & Hok' & HR & _); try done.
  exists rid, p', x, v', pids'. split_and!; try done. by apply insert_rows with h.
Qed.

(** C8: a scan of a table, from [Begin] with [operator++] to [End], terminates and returns the
    table's live tuples with their record ids, each exactly once, page by page and slot by
    slot; it changes no page and leaves no pin behind. *)
Theorem table_scan_correct fuel p v h t pids :
  pg_ok p v -> heap_ok v h pids -> idle v pids 2 ->
  (length (heap_rows v pids) + length pids + 3 <= fuel)%nat ->
  2 * zlen pids + 2 * zlen (heap_rows v pids) + 2 <= v_left v ->
  exists rows p' n, table_scan enable_logging fuel p h t = Ret (rows, p', t) /\ pg_ok p' (aged v n) /\
    rows = heap_rows v pids /\ NoDup rows.*1 /\
    forall r b, (r, b) ∈ rows <-> heap_at v pids r = Some (false, b).
Proof.
  intros Hok Hh Hi Hf Hl. destruct (table_scan_ok fuel p v h t pids) as (p' & n & HS & Hok' & _); try done.
  exists (heap_rows v pids), p', n. split_and!; try done.
  - apply heap_rows_NoDup, (hp_nodup _ _ _ Hh).
  - intros r b. by eapply elem_of_heap_rows.
Qed.

(** [TableHeap::UpdateTuple] replaces a live tuple when its page has room, appends the old
    bytes to the write set unless the transaction is aborted, and leaves the rest of the
    table alone; an update that does not fit, or of a record that is not live, returns
    false and changes no page. *)
Theorem TableHeap_UpdateTuple_correct p v h t pids rid tuple :
  pg_ok p v -> heap_ok v h pids -> idle v pids 1 -> 0 < v_left v -> page_id_ rid ∈ pids -> 0 <= slot_num_ rid ->
  0 < zlen tuple -> Forall byte_ok tuple ->
  match heap_at v pids rid with
  | Some (false, bytes) =>
      if decide (space_for v rid bytes < zlen tuple)
      then exists p', TableHeap_UpdateTuple enable_logging p h t tuple rid = Ret (false, p', t) /\ pg_ok p' (used v)
      else exists p' v',
        TableHeap_UpdateTuple enable_logging p h t tuple rid =
          Ret (true, p', if is_aborted t then t else AppendTableWriteRecord t (mkWrite rid UPDATE bytes h)) /\
        pg_ok p' v' /\ heap_ok v' h pids /\ set_at v pids rid (Some (false, tuple)) v'
  | _ => exists p', TableHeap_UpdateTuple enable_logging p h t tuple rid =
           Ret (false, p', set_txn t (abort_txn enable_logging (txn_ t))) /\ pg_ok p' (used v)
  end.
Proof. apply UpdateTuple_heap. Qed.

(** [TableHeap::MarkDelete] marks a live tuple. It returns true and appends a DELETE
    record to the write set in any case, also when the record was not live, when nothing
    is changed. *)
Theorem TableHeap_MarkDelete_correct p v h t pids rid :
  pg_ok p v -> heap_ok v h pids -> idle v pids 1 -> 0 < v_left v -> page_id_ rid ∈ pids -> 0 <= slot_num_ rid ->
  exists p' v' t', TableHeap_MarkDelete enable_logging p h t rid = Ret (true, p', t') /\
    table_write_set_ t' = table_write_set_ t ++ [mkWrite rid DELETE [] h] /\
    pg_ok p' v' /\ heap_ok v' h pids /\
    match heap_at v pids rid with
    | Some (false, bytes) => txn_ t' = txn_ t /\ set_at v pids rid (Some (true, bytes)) v'
    | c => txn_ t' = abort_txn enable_logging (txn_ t) /\ set_at v pids rid c v'
    end.
Proof. apply MarkDelete_heap. Qed.
End heap_proofs.
