(* ===== verification/TxnManager.v ===== *)
(** * Committing and aborting transactions

    [Commit] and [Abort] of [TransactionManager]
    (src/concurrency/transaction_manager.cpp) on the table write set: commit
    applies the deletes, abort undoes the writes, both from the last record to
    the first. The lock sets and [ReleaseLocks] only call the lock manager, whose
    methods are empty; nothing appends to the index write set, which is empty.

    Proved: a transaction on a table that is committed leaves exactly its live
    tuples, and one that is aborted restores the table, provided no update made a
    tuple shorter. Without that provision the undo of an update can fail for lack
    of room, silently (an example is at the end); so does a tuple deleted twice
    make the commit fail. *)

From S2P Require Import Prelude.
From S2P Require Import Disk.
From S2P Require Import Pages.
From S2P Require Import TablePage.
From S2P Require Import TableHeap.

Local Open Scope Z_scope.
Local Open Scope outcome_scope.

Section manager.
Context {P : Type} `{Pages P}.
Context (enable_logging : bool).
Implicit Types (p : P) (t : Transaction).

(** One record of the loop in [Commit] and in [Abort]. *)
Definition commit_record p t (item : TableWriteRecord) : outcome (P * Transaction) :=
  match wtype_ item with
  | DELETE => let* p := TableHeap_ApplyDelete p (table_ item) t (rid_ item) in Ret (p, t)
  | _ => Ret (p, t)
  end.

Definition abort_record p t (item : TableWriteRecord) : outcome (P * Transaction) :=
  match wtype_ item with
  | DELETE => let* p := TableHeap_RollbackDelete p (table_ item) t (rid_ item) in Ret (p, t)
  | INSERT => let* p := TableHeap_ApplyDelete p (table_ item) t (rid_ item) in Ret (p, t)
  | UPDATE =>
      let* (_, p, t) := TableHeap_UpdateTuple enable_logging p (table_ item) t (tuple_ item) (rid_ item) in
      Ret (p, t)
  end.

(** [while (!write_set->empty())]: the records from the back. A record appended
    while undoing would become the last one and be popped in place of the one
    undone, so the set is taken from the transaction in every round. *)
Fixpoint drain (fuel : nat) (record : P -> Transaction -> TableWriteRecord -> outcome (P * Transaction)) p t
    : outcome (P * Transaction) :=
  match last (table_write_set_ t), fuel with
  | None, _ => Ret (p, t)
  | Some _, O => Crash
  | Some item, S fuel =>
      let* (p, t) := record p t item in
      drain fuel record p (mkTransaction (txn_ t) (take (pred (length (table_write_set_ t))) (table_write_set_ t)))
  end.

Definition TransactionManager_Commit (fuel : nat) p t : outcome (P * Transaction) :=
  drain fuel commit_record p (txn_SetState t COMMITTED).

Definition TransactionManager_Abort (fuel : nat) p t : outcome (P * Transaction) :=
  drain fuel abort_record p (txn_SetState t ABORTED).

(** ** A client of one table *)

(** What an executor asks of the table: insert a tuple, delete or update the
    [i]-th row of a scan. This client never makes a tuple shorter. *)
Inductive command : Type :=
| CInsert (tuple : list Z)
| CDelete (i : nat)
| CUpdate (i : nat) (tuple : list Z).

Definition run_command (fuel : nat) p (h : TableHeap) t (c : command) : outcome (P * Transaction) :=
  match c with
  | CInsert tuple => let* (_, p, t) := TableHeap_InsertTuple enable_logging fuel p h t tuple in Ret (p, t)
  | CDelete i =>
      let* (rows, p, t) := table_scan enable_logging fuel p h t in
      match rows !! i with
      | Some (rid, _) => let* (_, p, t) := TableHeap_MarkDelete enable_logging p h t rid in Ret (p, t)
      | None => Ret (p, t)
      end
  | CUpdate i tuple =>
      let* (rows, p, t) := table_scan enable_logging fuel p h t in
      match rows !! i with
      | Some (rid, old) =>
          if zlen old <=? zlen tuple then
            let* (_, p, t) := TableHeap_UpdateTuple enable_logging p h t tuple rid in Ret (p, t)
          else Ret (p, t)
      | None => Ret (p, t)
      end
  end.

Fixpoint run_commands (fuel : nat) p (h : TableHeap) t (cs : list command) : outcome (P * Transaction) :=
  match cs with
  | [] => Ret (p, t)
  | c :: cs => let* (p, t) := run_command fuel p h t c in run_commands fuel p h t cs
  end.
End manager.

(** ** What the write set can undo *)

Abbreviation contents := (RID -> option (bool * list Z)).

(** A record of the write set and what it says the table held before and holds
    since under its record id. *)
Inductive undoable (h : TableHeap) : TableWriteRecord -> option (bool * list Z) -> option (bool * list Z) -> Prop :=
| undo_insert rid b : undoable h (mkWrite rid INSERT [] h) None (Some (false, b))
| undo_delete rid b : undoable h (mkWrite rid DELETE [] h) (Some (false, b)) (Some (true, b))
| undo_update rid old new :
    0 < zlen old <= zlen new -> Forall byte_ok old ->
    undoable h (mkWrite rid UPDATE old h) (Some (false, old)) (Some (false, new)).

(** The records of [ws], undone from the last to the first, lead from the contents
    [c] back to [c0]. *)
Inductive undo (h : TableHeap) (c0 : contents) : list TableWriteRecord -> contents -> Prop :=
| undo_nil c : (forall r, c r = c0 r) -> undo h c0 [] c
| undo_snoc ws item c1 c x :
    undo h c0 ws c1 -> undoable h item (c1 (rid_ item)) x ->
    (forall r, c r = if decide (r = rid_ item) then x else c1 r) ->
    undo h c0 (ws ++ [item]) c.

Section undo_proofs.
Context {P : Type} `{PagesLaws P}.
Context (enable_logging : bool).
Implicit Types (p : P) (v : view) (h : TableHeap) (t : Transaction).

Lemma heap_at_bytes v h pids rid del b :
  heap_ok v h pids -> heap_at v pids rid = Some (del, b) -> 0 < zlen b /\ Forall byte_ok b.
Proof.
  intros Hh Hat. destruct (heap_at_page v h pids rid _ Hh Hat) as (_ & Ht & _ & Hw & _).
  destruct (slot_size _ _ _ _ _ Hw Ht) as (Hi & Hsi & -> & _).
  destruct (pw_slot _ _ Hw _ Hi Hsi) as (H1 & H2 & H3). pose proof (pw_fsp _ _ Hw). pose proof (cnt_nonneg _ (pw_ok _ _ Hw)).
  rewrite zlen_slice by (rewrite ?(pw_len _ _ Hw); lia). split; [lia|]. apply Forall_slice, (pw_ok _ _ Hw).
Qed.

Lemma idle_set_at v pids rid c v' n : set_at v pids rid c v' -> idle v pids n -> idle v' pids n.
Proof. intros (_ & _ & Hp & Hs & _ & _) [Hi Hr]. unfold idle, room. by rewrite Hp, Hs. Qed.

Lemma drain_last fuel record p (t : Transaction) ws item :
  table_write_set_ t = ws ++ [item] ->
  drain (S fuel) record p t =
    (let* (p, t) := record p t item in
     drain fuel record p (mkTransaction (txn_ t) (take (pred (length (table_write_set_ t))) (table_write_set_ t)))).
Proof. intros E. cbn [drain]. by rewrite E, last_snoc. Qed.

Lemma take_pred_snoc {A} (l : list A) x : take (pred (length (l ++ [x]))) (l ++ [x]) = l.
Proof. rewrite length_app. simpl. rewrite Nat.add_1_r. simpl. by rewrite take_app_length. Qed.

Definition undone v h pids (c0 : contents) (n : Z) v' : Prop :=
  heap_ok v' h pids /\ (forall r, heap_at v' pids r = c0 r) /\ v_pins v' = v_pins v /\ v_size v' = v_size v /\
  v_next v' = v_next v /\ v_left v - n <= v_left v'.

Lemma abort_record_ok p v h t pids item x y :
  undoable h item x y -> heap_at v pids (rid_ item) = y -> is_aborted t = true ->
  pg_ok p v -> heap_ok v h pids -> idle v pids 1 -> 0 < v_left v ->
  exists p' v', abort_record enable_logging p t item = Ret (p', t) /\ pg_ok p' v' /\ heap_ok v' h pids /\
    set_at v pids (rid_ item) x v'.
Proof.
  intros Hun Hat Ha Hok Hh Hi Hl. destruct Hun as [rid b|rid b|rid old new Hlen Hb]; cbn [rid_] in Hat;
    unfold abort_record; cbn [wtype_ table_ rid_ tuple_].
  - destruct (ApplyDelete_heap p v h t pids rid false b) as (p1 & v1 & HA & ? & ? & ?); try done.
    rewrite HA. eexists _, _. by split_and!.
  - destruct (RollbackDelete_heap p v h t pids rid b) as (p1 & v1 & HA & ? & ? & ?); try done.
    rewrite HA. eexists _, _. by split_and!.
  - destruct (heap_at_page v h pids rid _ Hh Hat) as (Hin & _ & Hs & Hw & _).
    pose proof (UpdateTuple_heap enable_logging p v h t pids rid old Hok Hh Hi Hl Hin Hs ltac:(lia) Hb) as HU.
    rewrite Hat in HU. rewrite decide_False in HU by (unfold space_for; pose proof (pw_fsp _ _ Hw); lia).
    destruct HU as (p1 & v1 & HA & ? & ? & ?). rewrite HA, Ha. eexists _, _. by split_and!.
Qed.

Lemma abort_ok h pids c0 ws c : undo h c0 ws c -> forall fuel p v t,
  (forall r, heap_at v pids r = c r) -> table_write_set_ t = ws -> is_aborted t = true -> (length ws <= fuel)%nat ->
  pg_ok p v -> heap_ok v h pids -> idle v pids 1 -> zlen ws <= v_left v ->
  exists p' v', drain fuel (abort_record enable_logging) p t = Ret (p', mkTransaction (txn_ t) []) /\ pg_ok p' v' /\
    undone v h pids c0 (zlen ws) v'.
Proof.
  induction 1 as [c Hc|ws item c1 c x Hu IH Hun Hc]; intros fuel p v t Hat Ew Ha Hf Hok Hh Hi Hl.
  { exists p, v. split_and!; [|done|].
    - destruct fuel, t; simpl in *; subst; done.
    - split_and!; try done; [|unfold zlen; simpl; lia]. intros r. by rewrite Hat, Hc. }
  unfold zlen in *. rewrite length_app in Hf, Hl |- *. cbn [length] in *. destruct fuel as [|fuel]; [lia|].
  rewrite (drain_last fuel _ p t ws _ Ew).
  destruct (abort_record_ok p v h t pids item _ x Hun) as (p1 & v1 & HA & Hok1 & Hh1 & Hset); try done; [|lia|].
  { by rewrite Hat, Hc, decide_True. }
  rewrite HA. cbn [obind]. rewrite Ew, take_pred_snoc. pose proof Hset as (Hat1 & _ & Hp1 & Hs1 & Hn1 & Hl1).
  destruct (IH fuel p1 v1 (mkTransaction (txn_ t) ws)) as (p2 & v2 & HD & Hok2 & Hund); try done; [|lia| |lia|].
  - intros r. rewrite Hat1, Hat, Hc. destruct (decide (r = rid_ item)) as [->|]; done.
  - by eapply idle_set_at.
  - exists p2, v2. split_and!; [done|done|]. destruct Hund as (U1 & U2 & U3 & U4 & U5 & U6).
    split_and!; try done; congruence || lia.
Qed.

(** ** Running commands *)

Lemma pids_bound v h pids : heap_ok v h pids -> 0 <= v_next v -> zlen pids <= v_next v.
Proof.
  intros Hh Hn. assert (Hsub : pids ⊆+ seqZ 0 (v_next v)).
  { apply NoDup_submseteq; [apply (hp_nodup _ _ _ Hh)|]. intros q Hq. apply elem_of_seqZ.
    destruct (heap_page v h pids q Hh Hq) as (i & _ & Hlk). pose proof (ln_range _ _ _ _ _ Hlk). lia. }
  apply submseteq_length in Hsub. rewrite length_seqZ in Hsub. unfold zlen. lia.
Qed.

Lemma rows_bound v (pids : list Z) :
  (forall q, q ∈ pids -> page_wf BUSTUB_PAGE_SIZE (v_bytes v q)) -> zlen (heap_rows v pids) <= 512 * zlen pids.
Proof.
  intros Hw. unfold zlen, heap_rows. induction pids as [|q pids IH]; cbn [mbind list_bind]; [simpl; lia|].
  rewrite length_app. cbn [length]. specialize (IH ltac:(intros; apply Hw; by right)).
  assert (Z.of_nat (length (page_rows v q 0)) <= 512); [|unfold mbind, list_bind in *; lia].
  unfold page_rows, live_from. rewrite length_fmap. specialize (Hw q ltac:(by left)).
  pose proof (length_filter (fun j => live_slot (v_bytes v q) j = true) (seqZ 0 (cnt (v_bytes v q) - 0))) as Hf.
  rewrite length_seqZ in Hf. pose proof (pw_fsp _ _ Hw). pose proof (cnt_nonneg _ (pw_ok _ _ Hw)).
  unfold BUSTUB_PAGE_SIZE in *. lia.
Qed.

Lemma heap_rows_bound v h pids :
  heap_ok v h pids -> 0 <= v_next v <= 2 ^ 19 - 1 -> zlen pids < 2 ^ 19 /\ zlen (heap_rows v pids) < 2 ^ 28.
Proof.
  intros Hh Hn. pose proof (pids_bound v h pids Hh ltac:(lia)) as Hp.
  pose proof (rows_bound v pids) as Hr. split; [lia|].
  assert (zlen (heap_rows v pids) <= 512 * zlen pids); [|lia].
  apply Hr. intros q Hq. destruct (heap_page v h pids q Hh Hq) as (i & _ & Hlk). apply Hlk.
Qed.

Definition command_ok (c : command) : Prop :=
  match c with
  | CInsert tuple => tuple_ok tuple
  | CDelete _ => True
  | CUpdate _ tuple => 0 < zlen tuple /\ Forall byte_ok tuple
  end.

(** A transaction at work on the table, which was as [c0] when it began. *)
Record running p v h (pids : list Z) t (c0 : contents) : Prop := {
  rn_ok : pg_ok p v;
  rn_heap : heap_ok v h pids;
  rn_idle : idle v pids 2;
  rn_state : is_aborted t = false;
  rn_undo : undo h c0 (table_write_set_ t) (heap_at v pids);
}.

(** A command takes at most this many accesses, one page and one record. *)
Definition after_command v t v' t' : Prop :=
  v_pins v' = v_pins v /\ v_next v <= v_next v' <= v_next v + 1 /\ v_left v - 2 ^ 31 <= v_left v' /\
  (length (table_write_set_ t') <= S (length (table_write_set_ t)))%nat.

Lemma is_aborted_state t t' : state_ (txn_ t') = state_ (txn_ t) -> is_aborted t' = is_aborted t.
Proof. unfold is_aborted. by intros ->. Qed.

(** A row of a scan is a live tuple of the table. *)
Lemma row_live v h pids rows i rid b :
  heap_ok v h pids -> rows = heap_rows v pids -> rows !! i = Some (rid, b) ->
  heap_at v pids rid = Some (false, b) /\ page_id_ rid ∈ pids /\ 0 <= slot_num_ rid.
Proof.
  intros Hh -> Hi%list_elem_of_lookup_2. apply (elem_of_heap_rows v h) in Hi; [|done]. split; [done|].
  by destruct (heap_at_page v h pids rid _ Hh Hi) as (? & _ & ? & _).
Qed.

Lemma running_insert fuel p v h pids t c0 tuple :
  running p v h pids t c0 -> tuple_ok tuple -> v_next v < 2 ^ 19 - 1 -> 2 ^ 31 <= v_left v -> 2 ^ 30 <= Z.of_nat fuel ->
  exists p' v' pids' t', run_command enable_logging fuel p h t (CInsert tuple) = Ret (p', t') /\
    running p' v' h pids' t' c0 /\ after_command v t v' t'.
Proof.
  intros [Hok Hh Hi Ha Hu] Ht Hn Hl Hf. pose proof (pg_next_ok _ _ Hok) as Hn0.
  destruct (heap_rows_bound v h pids Hh Hn0) as [Hp _].
  destruct (InsertTuple_heap enable_logging fuel p v h t pids tuple) as
    (rid & p' & x & v' & pids' & HI & Hx & Hok' & HR & Hleft); try done; [lia|unfold zlen in *; lia|].
  exists p', v', pids', (AppendTableWriteRecord (set_txn t x) (mkWrite rid INSERT [] h)).
  unfold run_command. rewrite HI. cbn [obind]. split_and!; [done| |].
  - destruct HR as [I1 I2 I3 I4 I5 I6 I7 _]. split; try done.
    + destruct Hi as [Hi Hr]. split; [|unfold room in *; by rewrite I6, I7].
      intros q Hq. rewrite I6. destruct I2 as [->| ->]; [by apply Hi|].
      apply elem_of_app in Hq as [Hq|Hq]; [by apply Hi|]. apply list_elem_of_singleton in Hq as ->.
      destruct (v_pins v !! v_next v) as [y|] eqn:E; [|done]. destruct (pg_pins_ok _ _ _ _ Hok E). lia.
    + by rewrite <- Ha; apply is_aborted_state.
    + cbn [AppendTableWriteRecord table_write_set_ set_txn]. eapply undo_snoc; [exact Hu| |].
      * cbn [rid_]. rewrite I3. apply undo_insert.
      * cbn [rid_]. exact I4.
  - pose proof (ir_next _ _ _ _ _ _ _ HR) as Hnx.
    assert (0 <= zlen pids' - zlen pids <= 1).
    { destruct (ir_pids _ _ _ _ _ _ _ HR) as [->| ->]; unfold zlen; rewrite ?length_app; simpl; lia. }
    split_and!; try lia.
    + apply HR.
    + cbn [AppendTableWriteRecord table_write_set_ set_txn]. rewrite length_app. simpl. lia.
Qed.

Lemma scan_running fuel p v h pids t c0 :
  running p v h pids t c0 -> 2 ^ 31 <= v_left v -> 2 ^ 30 <= Z.of_nat fuel ->
  exists p' n, table_scan enable_logging fuel p h t = Ret (heap_rows v pids, p', t) /\
    running p' (aged v n) h pids t c0 /\ 0 <= n < 2 ^ 30.
Proof.
  intros [Hok Hh Hi Ha Hu] Hl Hf. destruct (heap_rows_bound v h pids Hh (pg_next_ok _ _ Hok)) as [Hp Hr].
  destruct (table_scan_ok enable_logging fuel p v h t pids) as (p' & n & HS & Hok' & Hn);
    try done; try (unfold zlen in *; lia).
  exists p', n. split_and!; try done; try lia. split; try done. by apply heap_ok_aged.
Qed.

(** One more record that can be undone. *)
Lemma running_snoc p' v v' h pids t t' c0 item x :
  idle v pids 2 -> is_aborted t = false -> undo h c0 (table_write_set_ t) (heap_at v pids) ->
  pg_ok p' v' -> heap_ok v' h pids -> set_at v pids (rid_ item) x v' ->
  undoable h item (heap_at v pids (rid_ item)) x ->
  txn_ t' = txn_ t -> table_write_set_ t' = table_write_set_ t ++ [item] -> running p' v' h pids t' c0.
Proof.
  intros Hi Ha Hu Hok' Hh' Hset Hun Et Ew. split; [done|done| | |].
  - by eapply idle_set_at.
  - unfold is_aborted in *. by rewrite Et.
  - rewrite Ew. eapply undo_snoc; [exact Hu|done|]. apply Hset.
Qed.

Lemma running_change fuel p v h pids t c0 c :
  running p v h pids t c0 -> command_ok c -> match c with CInsert _ => False | _ => True end ->
  2 ^ 31 <= v_left v -> 2 ^ 30 <= Z.of_nat fuel ->
  exists p' v' pids' t', run_command enable_logging fuel p h t c = Ret (p', t') /\
    running p' v' h pids' t' c0 /\ after_command v t v' t'.
Proof.
  intros Hrun Hc Hkind Hl Hf.
  destruct (scan_running fuel p v h pids t c0 Hrun Hl Hf) as (p1 & n & HS & Hrun1 & Hn).
  pose proof Hrun1 as [Hok Hh Hi Ha Hu]. set (v1 := aged v n) in *.
  assert (Hi1 : idle v1 pids 1) by (destruct Hi; split; [done|unfold room in *; lia]).
  assert (Hskip : running p1 v1 h pids t c0 /\ after_command v t v1 t)
    by (split; [done|]; split_and!; simpl; (done || lia)).
  destruct c as [|i|i tuple]; [done|..]; unfold run_command; rewrite HS; cbn [obind];
    change (heap_rows v pids) with (heap_rows v1 pids);
    destruct (heap_rows v1 pids !! i) as [[rid b]|] eqn:E; try (exists p1, v1, pids, t; by split);
    destruct (row_live v1 h pids _ i rid b Hh eq_refl E) as (Hat & Hin & Hs).
  - destruct (MarkDelete_heap enable_logging p1 v1 h t pids rid) as (p2 & v2 & t2 & HM & Hw & Hok2 & Hh2 & Hcase);
      try done; [simpl; lia|]. rewrite Hat in Hcase. destruct Hcase as [Et Hset]. rewrite HM. cbn [obind].
    exists p2, v2, pids, t2. split_and!; [done| |].
    + apply (running_snoc p2 v1 v2 h pids t t2 c0 (mkWrite rid DELETE [] h) (Some (true, b))); try done.
      cbn [rid_]. rewrite Hat. apply undo_delete.
    + destruct Hset as (_ & _ & S1 & S2 & S3 & S4). simpl in *. split_and!; try done; try lia.
      rewrite Hw, length_app. simpl. lia.
  - destruct Hc as [Hc1 Hc2]. destruct (Z.leb_spec (zlen b) (zlen tuple)) as [Hle|]; [|exists p1, v1, pids, t; by split].
    destruct (heap_at_bytes v1 h pids rid false b Hh Hat) as [Hb1 Hb2].
    pose proof (UpdateTuple_heap enable_logging p1 v1 h t pids rid tuple Hok Hh Hi1 ltac:(simpl; lia) Hin Hs Hc1 Hc2) as HU.
    rewrite Hat in HU. destruct (decide (space_for v1 rid b < zlen tuple)).
    + destruct HU as (p2 & HU & Hok2). rewrite HU. cbn [obind]. exists p2, (used v1), pids, t.
      split_and!; [done| |split_and!; simpl; (done || lia)]. split; try done. by destruct Hh.
    + destruct HU as (p2 & v2 & HU & Hok2 & Hh2 & Hset). rewrite HU, Ha. cbn [obind].
      exists p2, v2, pids, (AppendTableWriteRecord t (mkWrite rid UPDATE b h)). split_and!; [done| |].
      * apply (running_snoc p2 v1 v2 h pids t _ c0 (mkWrite rid UPDATE b h) (Some (false, tuple))); try done.
        cbn [rid_]. rewrite Hat. by apply undo_update.
      * destruct Hset as (_ & _ & S1 & S2 & S3 & S4). simpl in *. split_and!; try done; try lia.
        cbn [AppendTableWriteRecord table_write_set_]. rewrite length_app. simpl. lia.
Qed.

Lemma run_commands_ok fuel h c0 cs : forall p v pids t,
  running p v h pids t c0 -> Forall command_ok cs -> v_next v + zlen cs <= 2 ^ 19 - 1 ->
  (zlen cs + 1) * 2 ^ 31 <= v_left v -> 2 ^ 30 <= Z.of_nat fuel ->
  exists p' v' pids' t', run_commands enable_logging fuel p h t cs = Ret (p', t') /\
    running p' v' h pids' t' c0 /\ v_pins v' = v_pins v /\ 2 ^ 31 <= v_left v' /\
    (length (table_write_set_ t') <= length (table_write_set_ t) + length cs)%nat.
Proof.
  unfold zlen. induction cs as [|c cs IH]; intros p v pids t Hrun Hcs Hn Hl Hf; cbn [run_commands length] in *.
  { exists p, v, pids, t. split_and!; try done; lia. }
  apply Forall_cons in Hcs as [Hc Hcs].
  assert (exists p1 v1 pids1 t1, run_command enable_logging fuel p h t c = Ret (p1, t1) /\
    running p1 v1 h pids1 t1 c0 /\ after_command v t v1 t1) as (p1 & v1 & pids1 & t1 & HC & Hrun1 & A1 & A2 & A3 & A4).
  { destruct c; [apply (running_insert fuel p v h pids)|apply (running_change fuel p v h pids)..]; (done || lia). }
  destruct (IH p1 v1 pids1 t1) as (p2 & v2 & pids2 & t2 & HC2 & Hrun2 & B1 & B2 & B3); try done; try lia.
  rewrite HC. cbn [obind]. exists p2, v2, pids2, t2. split_and!; try done; [congruence|lia].
Qed.

(** ** Committing *)

#[local] Instance WType_eq_dec : EqDecision WType.
Proof. solve_decision. Defined.

Definition deleted (ws : list TableWriteRecord) : list RID :=
  rid_ <$> filter (fun w => wtype_ w = DELETE) ws.

Lemma deleted_snoc ws item :
  deleted (ws ++ [item]) = deleted ws ++ (if decide (wtype_ item = DELETE) then [rid_ item] else []).
Proof.
  unfold deleted. rewrite filter_app, fmap_app. f_equal. rewrite filter_cons, filter_nil. by destruct (decide _).
Qed.

(** A deleted record is marked, once, until the commit; every mark is the
    transaction's own or was there before. *)
Lemma undo_deleted h c0 ws c :
  undo h c0 ws c ->
  NoDup (deleted ws) /\ (forall r, r ∈ deleted ws -> exists b, c r = Some (true, b)) /\
  (forall r b, c r = Some (true, b) -> r ∈ deleted ws \/ c0 r = Some (true, b)).
Proof.
  induction 1 as [c Hc|ws item c1 c x Hu (I1 & I2 & I3) Hun Hc].
  { split_and!; [constructor|intros r Hr; by apply not_elem_of_nil in Hr|]. intros r b. rewrite Hc. by right. }
  rewrite deleted_snoc.
  assert (Hni : rid_ item ∉ deleted ws).
  { intros Hin. destruct (I2 _ Hin) as [b Hb]. rewrite Hb in Hun. by inversion Hun. }
  destruct (decide (wtype_ item = DELETE)) as [E|E].
  - split_and!.
    + apply NoDup_app. split_and!; [done| |apply NoDup_singleton]. intros r Hr ->%list_elem_of_singleton. done.
    + intros r. rewrite elem_of_app, list_elem_of_singleton, Hc. intros [Hr| ->].
      * rewrite decide_False by (by intros ->). by apply I2.
      * rewrite decide_True by done. inversion Hun; subst; simpl in E; try done. eauto.
    + intros r b. rewrite Hc. destruct (decide (r = rid_ item)) as [->|Hne].
      * intros _. left. apply elem_of_app. right. by apply list_elem_of_singleton.
      * intros [Hr|Hr]%I3; [left; apply elem_of_app; by left|by right].
  - rewrite app_nil_r. split_and!; [done| |].
    + intros r Hr. rewrite Hc, decide_False by (by intros ->). by apply I2.
    + intros r b. rewrite Hc. destruct (decide (r = rid_ item)) as [->|Hne]; [|by apply I3].
      inversion Hun; subst; simpl in *; done.
Qed.

Lemma commit_ok h pids ws : forall fuel p v t,
  table_write_set_ t = ws -> (forall w, w ∈ ws -> table_ w = h) -> (length ws <= fuel)%nat ->
  NoDup (deleted ws) -> (forall r, r ∈ deleted ws -> exists b, heap_at v pids r = Some (true, b)) ->
  pg_ok p v -> heap_ok v h pids -> idle v pids 1 -> zlen ws <= v_left v ->
  exists p' v', drain fuel commit_record p t = Ret (p', mkTransaction (txn_ t) []) /\ pg_ok p' v' /\
    undone v h pids (fun r => if decide (r ∈ deleted ws) then None else heap_at v pids r) (zlen ws) v'.
Proof.
  induction ws as [|item ws IH] using rev_ind; intros fuel p v t Ew Hth Hf Hnd Hmk Hok Hh Hi Hl.
  { exists p, v. split_and!; [|done|].
    - destruct fuel, t; simpl in *; subst; done.
    - split_and!; try done; unfold zlen; simpl; lia. }
  unfold zlen in *. rewrite length_app in Hf, Hl |- *. cbn [length] in *. destruct fuel as [|fuel]; [lia|].
  rewrite (drain_last fuel _ p t ws _ Ew). rewrite deleted_snoc in Hnd, Hmk.
  assert (Hth' : forall w, w ∈ ws -> table_ w = h) by (intros w Hw; apply Hth, elem_of_app; by left).
  destruct (decide (wtype_ item = DELETE)) as [E|E].
  - assert (Hrec : commit_record p t item = let* p := TableHeap_ApplyDelete p h t (rid_ item) in Ret (p, t)).
    { unfold commit_record. rewrite E. rewrite Hth; [done|]. apply elem_of_app. right. by apply list_elem_of_singleton. }
    rewrite Hrec.
    apply NoDup_app in Hnd as (Hnd & Hdisj & _).
    assert (Hni : rid_ item ∉ deleted ws).
    { intros Hin. apply (Hdisj _ Hin). by apply list_elem_of_singleton. }
    destruct (Hmk (rid_ item)) as [b Hb]; [apply elem_of_app; right; by apply list_elem_of_singleton|].
    destruct (ApplyDelete_heap p v h t pids (rid_ item) true b) as (p1 & v1 & HA & Hok1 & Hh1 & Hset); try done; [lia|].
    rewrite HA. cbn [obind]. rewrite Ew, take_pred_snoc. pose proof Hset as (Hat1 & _ & Hp1 & Hs1 & Hn1 & Hl1).
    destruct (IH fuel p1 v1 (mkTransaction (txn_ t) ws)) as (p2 & v2 & HD & Hok2 & Hund);
      try done; try lia; try (by eapply idle_set_at).
    { intros r Hr. rewrite Hat1, decide_False by (by intros ->). apply Hmk, elem_of_app. by left. }
    exists p2, v2. split_and!; [done|done|]. destruct Hund as (U1 & U2 & U3 & U4 & U5 & U6).
    split_and!; try done; try (congruence || lia). intros r. rewrite U2, Hat1, deleted_snoc, (decide_True (P := wtype_ item = DELETE)) by done.
    destruct (decide (r = rid_ item)) as [->|Hne].
    + rewrite (decide_True (P := _ ∈ _ ++ _)) by (apply elem_of_app; right; by apply list_elem_of_singleton).
      by destruct (decide (rid_ item ∈ deleted ws)).
    + destruct (decide (r ∈ deleted ws)) as [Hin|Hin].
      * by rewrite decide_True by (apply elem_of_app; by left).
      * by rewrite decide_False by (rewrite elem_of_app, list_elem_of_singleton; tauto).
  - assert (Hrec : commit_record p t item = Ret (p, t)) by (unfold commit_record; by destruct (wtype_ item)).
    rewrite Hrec. cbn [obind]. rewrite Ew, take_pred_snoc. rewrite app_nil_r in Hnd, Hmk.
    destruct (IH fuel p v (mkTransaction (txn_ t) ws)) as (p2 & v2 & HD & Hok2 & Hund); try done; try lia.
    exists p2, v2. split_and!; [done|done|]. destruct Hund as (U1 & U2 & U3 & U4 & U5 & U6).
    split_and!; try done; try lia. intros r. rewrite U2, deleted_snoc, (decide_False (P := wtype_ item = DELETE)) by done.
    by rewrite app_nil_r.
Qed.

Lemma undo_tables h c0 ws c w : undo h c0 ws c -> w ∈ ws -> table_ w = h.
Proof.
  induction 1 as [|ws item c1 c x Hu IH Hun Hc]; [intros Hw; by apply not_elem_of_nil in Hw|].
  rewrite elem_of_app, list_elem_of_singleton. intros [Hw| ->]; [by apply IH|]. by inversion Hun.
Qed.

(** ** The theorems *)

(** A new transaction on a table nobody else uses. *)
Definition fresh_transaction p v h (pids : list Z) t : Prop :=
  pg_ok p v /\ heap_ok v h pids /\ idle v pids 2 /\ table_write_set_ t = [] /\ is_aborted t = false.

Lemma fresh_running p v h pids t : fresh_transaction p v h pids t -> running p v h pids t (heap_at v pids).
Proof. intros (Hok & Hh & Hi & Ew & Ha). split; try done. rewrite Ew. by apply undo_nil. Qed.

(** The view of a table after its transaction ended. *)
Definition ended p' v' h (pids' : list Z) v (c : contents) : Prop :=
  pg_ok p' v' /\ heap_ok v' h pids' /\ v_pins v' = v_pins v /\ forall r, heap_at v' pids' r = c r.

(** C6: [TransactionManager::Abort] undoes a transaction: whatever a transaction did to a
    table (tuples inserted, rows deleted, rows updated without becoming shorter, in any
    order and number), after the abort every record id holds exactly what it held when
    the transaction began; the write set is empty, the state is ABORTED and no pin is
    left behind. *)
Theorem Abort_restores fuel p v h pids t cs :
  fresh_transaction p v h pids t -> Forall command_ok cs -> v_next v + zlen cs <= 2 ^ 19 - 1 ->
  (zlen cs + 1) * 2 ^ 31 <= v_left v -> 2 ^ 30 <= Z.of_nat fuel ->
  exists p1 t1 p2 x v2 pids2,
    run_commands enable_logging fuel p h t cs = Ret (p1, t1) /\
    TransactionManager_Abort enable_logging fuel p1 t1 = Ret (p2, mkTransaction x []) /\ state_ x = ABORTED /\
    ended p2 v2 h pids2 v (heap_at v pids).
Proof.
  intros Hfr Hcs Hn Hl Hf. pose proof Hfr as (Hok0 & _ & _ & Ew0 & _). pose proof (pg_next_ok _ _ Hok0).
  destruct (run_commands_ok fuel h (heap_at v pids) cs p v pids t (fresh_running _ _ _ _ _ Hfr) Hcs Hn Hl Hf) as
    (p1 & v1 & pids1 & t1 & HC & [Hok Hh Hi Ha Hu] & Hp & Hl1 & Hlen). rewrite Ew0 in Hlen. simpl in Hlen.
  destruct (abort_ok h pids1 (heap_at v pids) _ _ Hu fuel p1 v1 (txn_SetState t1 ABORTED)) as
    (p2 & v2 & HD & Hok2 & U1 & U2 & U3 & U4 & U5 & U6); try done; try (unfold zlen in *; lia).
  { destruct Hi. split; [done|unfold room in *; lia]. }
  exists p1, t1, p2, (SetState (txn_ t1) ABORTED), v2, pids1. split_and!; try done. split_and!; try done. congruence.
Qed.

(** C7: [TransactionManager::Commit] makes a transaction permanent: on a table without marked
    tuples, after the commit every record id holds the live tuple it held at the end of
    the transaction, and the slots of the rows the transaction deleted are free. *)
Theorem Commit_applies fuel p v h pids t cs :
  fresh_transaction p v h pids t -> Forall command_ok cs -> v_next v + zlen cs <= 2 ^ 19 - 1 ->
  (zlen cs + 1) * 2 ^ 31 <= v_left v -> 2 ^ 30 <= Z.of_nat fuel ->
  (forall r b, heap_at v pids r <> Some (true, b)) ->
  exists p1 t1 v1 p2 x v2 pids2,
    run_commands enable_logging fuel p h t cs = Ret (p1, t1) /\ pg_ok p1 v1 /\ heap_ok v1 h pids2 /\
    TransactionManager_Commit fuel p1 t1 = Ret (p2, mkTransaction x []) /\ state_ x = COMMITTED /\
    ended p2 v2 h pids2 v (fun r => match heap_at v1 pids2 r with Some (true, _) => None | c => c end).
Proof.
  intros Hfr Hcs Hn Hl Hf Hno. pose proof Hfr as (Hok0 & _ & _ & Ew0 & _). pose proof (pg_next_ok _ _ Hok0).
  destruct (run_commands_ok fuel h (heap_at v pids) cs p v pids t (fresh_running _ _ _ _ _ Hfr) Hcs Hn Hl Hf) as
    (p1 & v1 & pids1 & t1 & HC & [Hok Hh Hi Ha Hu] & Hp & Hl1 & Hlen). rewrite Ew0 in Hlen. simpl in Hlen.
  destruct (undo_deleted _ _ _ _ Hu) as (D1 & D2 & D3).
  destruct (commit_ok h pids1 (table_write_set_ t1) fuel p1 v1 (txn_SetState t1 COMMITTED)) as
    (p2 & v2 & HD & Hok2 & U1 & U2 & U3 & U4 & U5 & U6); try done; try (unfold zlen in *; lia).
  { intros w. by apply (undo_tables h _ _ _ w Hu). }
  { destruct Hi. split; [done|unfold room in *; lia]. }
  exists p1, t1, v1, p2, (SetState (txn_ t1) COMMITTED), v2, pids1. split_and!; try done. split_and!; try done; [congruence|].
  intros r. rewrite U2. destruct (decide (r ∈ deleted (table_write_set_ t1))) as [Hin|Hin].
  - by destruct (D2 _ Hin) as [b ->].
  - destruct (heap_at v1 pids1 r) as [[[|] b]|] eqn:E; try done. destruct (D3 r b E) as [|Hc]; [done|].
    by destruct (Hno r b).
Qed.
End undo_proofs.
