(* ===== verification/Storage.v ===== *)
(** * The storage engine put together

    Tables and transactions on the buffer pool the program builds: extendible
    hash page table, LRU-K replacer, disk file. The pool keeps the laws of
    [Pages.v], so the theorems of [TableHeap.v] and [TxnManager.v] hold of it. Here
    is what follows for the whole engine, with the examples that the hypotheses of
    those theorems can be met, and two runs that show what they leave out. *)

From S2P Require Import Prelude.
From S2P Require Import Interfaces.
From S2P Require Import ExtHash.
From S2P Require Import LruK.
From S2P Require Import Disk.
From S2P Require Import BufferPool.
From S2P Require Import Pool.
From S2P Require Import Pages.
From S2P Require Import TablePage.
From S2P Require Import TableHeap.
From S2P Require Import TxnManager.

Local Open Scope Z_scope.
Local Open Scope outcome_scope.

#[export] Instance pool_laws : PagesLaws pool := pool_PagesLaws max_page_id_ok.

Definition new_view (n : Z) : view := mkView n 0 (fun _ => []) ∅ (2 ^ 64 - 1).

Lemma new_pool_ok n k : 0 <= n < 2 ^ 31 -> 1 <= k -> pg_ok (new_pool n k new_disk) (new_view n).
Proof.
  intros Hn Hk. exists ∅. split_and!; try done; [by apply new_pool_inv|simpl; intros; lia|].
  intros pid x. simpl. rewrite lookup_empty. split; [done|].
  intros (p & (Hr & Hf & _) & _). exfalso. apply Hf. simpl in *. apply elem_of_seqZ. lia.
Qed.

(** ** Storing and scanning *)

Fixpoint insert_all (fuel : nat) (p : pool) (h : TableHeap) (t : Transaction) (tuples : list (list Z))
    : outcome (list (option RID) * pool * Transaction) :=
  match tuples with
  | [] => Ret ([], p, t)
  | tuple :: tuples =>
      let* (rid, p, t) := TableHeap_InsertTuple false fuel p h t tuple in
      let* (rids, p, t) := insert_all fuel p h t tuples in
      Ret (rid :: rids, p, t)
  end.

(** A new database with one table: store the tuples, then scan. *)
Definition store_and_scan (fuel : nat) (pool_size k : Z) (tuples : list (list Z))
    : outcome (list (option RID) * list (RID * list Z)) :=
  let* (h, p, t) := TableHeap_ctor false (new_pool pool_size k new_disk) Transaction_ctor in
  let* (rids, p, t) := insert_all fuel p h t tuples in
  let* (rows, p, t) := table_scan false fuel p h t in
  Ret (rids, rows).

Lemma insert_all_ok fuel h tuples : forall p v t pids,
  pg_ok p v -> heap_ok v h pids -> v_pins v = ∅ -> 2 <= v_size v -> Forall tuple_ok tuples ->
  v_next v + zlen tuples <= 2 ^ 19 - 1 -> (zlen tuples + 1) * 2 ^ 31 <= v_left v -> 2 ^ 30 <= Z.of_nat fuel ->
  exists rids p' v' t' pids', insert_all fuel p h t tuples = Ret (Some <$> rids, p', t') /\
    length rids = length tuples /\
    pg_ok p' v' /\ heap_ok v' h pids' /\ v_pins v' = ∅ /\ 2 <= v_size v' /\ 2 ^ 31 <= v_left v' /\
    heap_rows v' pids' ≡ₚ zip rids tuples ++ heap_rows v pids.
Proof.
  unfold zlen. induction tuples as [|tuple tuples IH]; intros p v t pids Hok Hh Hp Hs Ht Hn Hl Hf;
    cbn [insert_all length] in *.
  { exists [], p, v, t, pids. split_and!; done || lia. }
  apply Forall_cons in Ht as [Ht Hts]. pose proof (pg_next_ok _ _ Hok).
  destruct (heap_rows_bound v h pids Hh) as [Hpb _]; [lia|].
  destruct (InsertTuple_heap false fuel p v h t pids tuple) as (rid & p1 & x & v1 & pids1 & HI & _ & Hok1 & HR & Hleft);
    try done; try (unfold zlen in *; lia).
  { split; [|unfold room; rewrite Hp, map_size_empty; simpl; lia]. intros q _. by rewrite Hp. }
  pose proof (ir_next _ _ _ _ _ _ _ HR) as Hnx. pose proof (ir_pids _ _ _ _ _ _ _ HR) as Hpi.
  assert (Hp1 : zlen pids1 - zlen pids <= 1).
  { destruct Hpi as [->| ->]; unfold zlen; rewrite ?length_app; simpl; lia. }
  destruct (IH p1 v1 (AppendTableWriteRecord (set_txn t x) (mkWrite rid INSERT [] h)) pids1) as
    (rids & p2 & v2 & t2 & pids2 & HI2 & Hlen & Hok2 & Hh2 & Hpp & Hs2 & Hl2 & Hrows); try done.
  - apply HR.
  - rewrite (ir_pins _ _ _ _ _ _ _ HR). done.
  - rewrite (ir_size _ _ _ _ _ _ _ HR). done.
  - lia.
  - unfold zlen in *. lia.
  - rewrite HI. cbn [obind]. rewrite HI2. cbn [obind].
    exists (rid :: rids), p2, v2, t2, pids2. split_and!; try done; [simpl; lia|].
    rewrite Hrows, (insert_rows v h pids rid tuple v1 pids1 Hh HR). cbn [zip zip_with app].
    by rewrite <- Permutation_middle.
Qed.

(** C5: storing tuples in a new database and scanning the table gives back exactly these
    tuples, each with the record id its insertion returned, whatever the number of frames
    (two are enough) and the replacer's [k], and however many pages had to be evicted,
    written to disk and read again in between. *)
Theorem store_and_scan_correct fuel pool_size k tuples :
  2 <= pool_size < 2 ^ 31 -> 1 <= k -> Forall tuple_ok tuples -> zlen tuples < 2 ^ 19 - 1 ->
  2 ^ 30 <= Z.of_nat fuel ->
  exists rids rows, store_and_scan fuel pool_size k tuples = Ret (Some <$> rids, rows) /\
    length rids = length tuples /\ NoDup rids /\ rows ≡ₚ zip rids tuples.
Proof.
  intros Hn Hk Ht Hlen Hf. pose proof (new_pool_ok pool_size k ltac:(lia) Hk) as Hok.
  destruct (ctor_heap false _ _ Transaction_ctor Hok) as (p1 & x & v1 & HC & _ & Hok1 & Hh1 & Hat & _ & Hp1 & Hs1 & Hn1 & Hl1);
    [unfold room, new_view; simpl; rewrite map_size_empty; lia|simpl; lia|simpl; lia|].
  simpl in Hp1, Hs1, Hn1, Hl1.
  destruct (insert_all_ok fuel (mkHeap 0) tuples p1 v1 (set_txn Transaction_ctor x) [0]) as
    (rids & p2 & v2 & t2 & pids2 & HI & Hlr & Hok2 & Hh2 & Hp2 & Hs2 & Hl2 & Hrows); try done; try lia.
  assert (Hz : heap_rows v1 [0] = []).
  { destruct (heap_rows v1 [0]) as [|[r b] rows] eqn:E; [done|]. exfalso.
    assert (Hin : (r, b) ∈ heap_rows v1 [0]) by (rewrite E; left).
    apply (elem_of_heap_rows v1 (mkHeap 0) [0] r b Hh1) in Hin. change (v_next (new_view pool_size)) with 0 in Hat.
    rewrite Hat in Hin. done. }
  rewrite Hz, app_nil_r in Hrows.
  destruct (heap_rows_bound v2 _ pids2 Hh2 (pg_next_ok _ _ Hok2)) as [Hb1 Hb2].
  destruct (table_scan_ok false fuel p2 v2 (mkHeap 0) t2 pids2) as (p3 & n & HS & _); try done.
  { split; [intros q _; by rewrite Hp2|]. unfold room. rewrite Hp2, map_size_empty. lia. }
  { unfold zlen in *. lia. }
  { lia. }
  exists rids, (heap_rows v2 pids2). split_and!; try done.
  - unfold store_and_scan. rewrite HC. cbn [obind]. change (v_next (new_view pool_size)) with 0.
    rewrite HI. cbn [obind]. rewrite HS. done.
  - pose proof (heap_rows_NoDup v2 pids2 (hp_nodup _ _ _ Hh2)) as Hnd. rewrite Hrows in Hnd.
    by rewrite fst_zip in Hnd by lia.
Qed.

(** ** Examples *)

Lemma one_table : exists (p : pool) (v : view),
  pg_ok p v /\ heap_ok v (mkHeap 0) [0] /\ v_pins v = ∅ /\ v_size v = 3 /\ v_next v = 1 /\ v_left v = 2 ^ 64 - 2 /\
  forall r, heap_at v [0] r = None.
Proof.
  destruct (ctor_heap false _ _ Transaction_ctor (new_pool_ok 3 2 ltac:(lia) ltac:(lia))) as
    (p & x & v & _ & _ & Hok & Hh & Hat & _ & Hp & Hs & Hn & Hl);
    [unfold room, new_view; simpl; rewrite map_size_empty; lia|simpl; lia|simpl; lia|].
  exists p, v. simpl in *. split_and!; done || lia.
Qed.

Lemma no_pins_idle v pids n : v_pins v = ∅ -> n <= v_size v -> idle v pids n.
Proof. intros Hp Hs. split; [intros q _; by rewrite Hp|]. unfold room. rewrite Hp, map_size_empty. lia. Qed.

Lemma small_tuple : tuple_ok [1; 2; 3].
Proof.
  split_and!; [vm_compute; reflexivity|vm_compute; discriminate|repeat constructor; unfold byte_ok; lia].
Qed.

Lemma one_row : exists (p : pool) (v : view) (pids : list Z) (rid : RID),
  pg_ok p v /\ heap_ok v (mkHeap 0) pids /\ v_pins v = ∅ /\ v_size v = 3 /\ 0 < v_left v /\
  page_id_ rid ∈ pids /\ 0 <= slot_num_ rid /\ heap_at v pids rid = Some (false, [1; 2; 3]).
Proof.
  destruct one_table as (p & v & Hok & Hh & Hp & Hs & Hn & Hl & _).
  destruct (InsertTuple_heap false 2 p v (mkHeap 0) Transaction_ctor [0] [1; 2; 3]) as
    (rid & p' & x & v' & pids' & _ & _ & Hok' & HR & Hleft);
    try done; try (unfold zlen; simpl; lia); [apply no_pins_idle; [done|lia]|apply small_tuple|].
  assert (Hat : heap_at v' pids' rid = Some (false, [1; 2; 3]))
    by (rewrite (ir_at _ _ _ _ _ _ _ HR); by rewrite decide_True).
  destruct (heap_at_page v' _ pids' rid _ (ir_heap _ _ _ _ _ _ _ HR) Hat) as (Hin & _ & Hsl & _).
  exists p', v', pids', rid. destruct HR as [I1 I2 I3 I4 I5 I6 I7 I8]. split_and!; try done; try congruence.
  unfold zlen in Hleft. simpl in Hleft. lia.
Qed.

Lemma TableHeap_InsertTuple_correct_witness :
  exists (p : pool) rid p' t', TableHeap_InsertTuple false 2 p (mkHeap 0) Transaction_ctor [1; 2; 3] = Ret (Some rid, p', t').
Proof.
  destruct one_table as (p & v & Hok & Hh & Hp & Hs & Hn & Hl & _).
  destruct (TableHeap_InsertTuple_correct false 2 p v (mkHeap 0) Transaction_ctor [0] [1; 2; 3] Hok Hh) as
    (rid & p' & x & v' & pids' & HI & _);
    [apply no_pins_idle; [exact Hp|lia]|unfold zlen; simpl; lia|lia|exact small_tuple|simpl; lia|].
  exists p, rid, p'. eexists. exact HI.
Defined.

Lemma table_scan_correct_witness :
  exists (p : pool) rows p', table_scan false 4 p (mkHeap 0) Transaction_ctor = Ret (rows, p', Transaction_ctor) /\
    NoDup rows.*1.
Proof.
  destruct one_table as (p & v & Hok & Hh & Hp & Hs & Hn & Hl & Hat).
  assert (Hz : heap_rows v [0] = []).
  { destruct (heap_rows v [0]) as [|[r b] rows] eqn:E; [done|]. exfalso.
    assert (Hin : (r, b) ∈ heap_rows v [0]) by (rewrite E; left).
    apply (elem_of_heap_rows v (mkHeap 0) [0] r b Hh) in Hin. by rewrite Hat in Hin. }
  destruct (table_scan_correct false 4 p v (mkHeap 0) Transaction_ctor [0] Hok Hh) as (rows & p' & n & HS & _ & _ & Hnd & _);
    [apply no_pins_idle; [exact Hp|lia]|rewrite Hz; simpl; lia|rewrite Hz; unfold zlen; simpl; lia|].
  exists p, rows, p'. split; [exact HS|exact Hnd].
Defined.

Lemma TableHeap_UpdateTuple_correct_witness :
  exists (p p' : pool) rid t b, TableHeap_UpdateTuple false p (mkHeap 0) Transaction_ctor [4; 5] rid = Ret (b, p', t).
Proof.
  destruct one_row as (p & v & pids & rid & Hok & Hh & Hp & Hs & Hl & Hin & Hsl & Hat).
  pose proof (TableHeap_UpdateTuple_correct false p v (mkHeap 0) Transaction_ctor pids rid [4; 5] Hok Hh) as HU.
  rewrite Hat in HU.
  assert (Hok' : Forall byte_ok [4; 5]) by (repeat constructor; unfold byte_ok; lia).
  specialize (HU ltac:(apply no_pins_idle; [exact Hp|lia]) Hl Hin Hsl ltac:(vm_compute; reflexivity) Hok').
  destruct (decide (space_for v rid [1; 2; 3] < zlen [4; 5])).
  - destruct HU as (p' & HU & _). exists p, p', rid. eexists _, _. exact HU.
  - destruct HU as (p' & v' & HU & _). exists p, p', rid. eexists _, _. exact HU.
Defined.

Lemma TableHeap_MarkDelete_correct_witness :
  exists (p p' : pool) rid t, TableHeap_MarkDelete false p (mkHeap 0) Transaction_ctor rid = Ret (true, p', t).
Proof.
  destruct one_row as (p & v & pids & rid & Hok & Hh & Hp & Hs & Hl & Hin & Hsl & Hat).
  destruct (TableHeap_MarkDelete_correct false p v (mkHeap 0) Transaction_ctor pids rid Hok Hh) as (p' & v' & t' & HM & _);
    [apply no_pins_idle; [exact Hp|lia]|exact Hl|exact Hin|exact Hsl|].
  exists p, p', rid, t'. exact HM.
Defined.

Lemma store_and_scan_correct_witness :
  exists rids rows, store_and_scan (Z.to_nat (2 ^ 30)) 2 2 [[1; 2; 3]; [1; 2; 3]] = Ret (Some <$> rids, rows) /\
    rows ≡ₚ zip rids [[1; 2; 3]; [1; 2; 3]].
Proof.
  destruct (store_and_scan_correct (Z.to_nat (2 ^ 30)) 2 2 [[1; 2; 3]; [1; 2; 3]]) as (rids & rows & HS & _ & _ & Hr);
    [lia|lia|constructor; [exact small_tuple|constructor; [exact small_tuple|constructor]]
    |vm_compute; reflexivity|rewrite Z2Nat.id; lia|].
  exists rids, rows. split; [exact HS|exact Hr].
Defined.

Definition demo_commands : list command := [CInsert [1; 2; 3]; CUpdate 0 [4; 5; 6]; CDelete 0].

Lemma demo_commands_ok : Forall command_ok demo_commands.
Proof.
  constructor; [exact small_tuple|constructor; [|constructor; [exact I|constructor]]].
  split; [vm_compute; reflexivity|repeat constructor; unfold byte_ok; lia].
Qed.

Lemma one_table_fresh : exists (p : pool) (v : view),
  fresh_transaction p v (mkHeap 0) [0] Transaction_ctor /\ v_next v = 1 /\ v_left v = 2 ^ 64 - 2 /\
  forall r, heap_at v [0] r = None.
Proof.
  destruct one_table as (p & v & Hok & Hh & Hp & Hs & Hn & Hl & Hat). exists p, v. unfold fresh_transaction. split_and!; try done.
  apply no_pins_idle; [done|lia].
Qed.

Lemma Abort_restores_witness :
  exists (p p1 p2 : pool) t1 t2,
    run_commands false (Z.to_nat (2 ^ 30)) p (mkHeap 0) Transaction_ctor demo_commands = Ret (p1, t1) /\
    TransactionManager_Abort false (Z.to_nat (2 ^ 30)) p1 t1 = Ret (p2, t2).
Proof.
  destruct one_table_fresh as (p & v & Hfr & Hn & Hl & _).
  destruct (Abort_restores false (Z.to_nat (2 ^ 30)) p v (mkHeap 0) [0] Transaction_ctor demo_commands Hfr demo_commands_ok)
    as (p1 & t1 & p2 & x & v2 & pids2 & HC & HA & _);
    [unfold zlen; simpl; lia|unfold zlen; simpl; lia|rewrite Z2Nat.id; lia|].
  exists p, p1, p2, t1. eexists. split; [exact HC|exact HA].
Defined.

Lemma Commit_applies_witness :
  exists (p p1 p2 : pool) t1 t2,
    run_commands false (Z.to_nat (2 ^ 30)) p (mkHeap 0) Transaction_ctor demo_commands = Ret (p1, t1) /\
    TransactionManager_Commit (Z.to_nat (2 ^ 30)) p1 t1 = Ret (p2, t2).
Proof.
  destruct one_table_fresh as (p & v & Hfr & Hn & Hl & Hat).
  destruct (Commit_applies false (Z.to_nat (2 ^ 30)) p v (mkHeap 0) [0] Transaction_ctor demo_commands Hfr demo_commands_ok)
    as (p1 & t1 & v1 & p2 & x & v2 & pids2 & HC & _ & _ & HA & _);
    [unfold zlen; simpl; lia|unfold zlen; simpl; lia|rewrite Z2Nat.id; lia|intros r b; rewrite Hat; discriminate|].
  exists p, p1, p2, t1. eexists. split; [exact HC|exact HA].
Defined.

(** ** What the theorems leave out *)

(** A transaction that makes a row shorter and fills the room it left. [B] cannot
    be undone completely: its slot stays in the directory. *)
Definition shrink_and_abort (A A' B : list Z) : outcome (list (list Z)) :=
  let* (h, p, t) := TableHeap_ctor false (new_pool 3 2 new_disk) Transaction_ctor in
  let* (_, p, t) := TableHeap_InsertTuple false 5 p h t A in
  let* (p, t) := TransactionManager_Commit 5 p t in
  let* (_, p, t) := TableHeap_UpdateTuple false p h Transaction_ctor A' (mkRID 0 0) in
  let* (_, p, t) := TableHeap_InsertTuple false 5 p h t B in
  let* (p, t) := TransactionManager_Abort false 5 p t in
  let* (rows, p, t) := table_scan false 5 p h t in
  Ret (rows.*2).

(** [Abort] ignores the result of [UpdateTuple]: when the row before the update
    no longer fits in its page, the aborted version stays in the table. *)
Lemma Abort_can_lose_update :
  shrink_and_abort (replicate 4064 7) (replicate 3000 8) (replicate 1056 9) = Ret [replicate 3000 8].
Proof. vm_compute. reflexivity. Qed.

(** [MarkDelete] of the heap records the delete even when the page refused it, so
    a row deleted twice is applied twice by [Commit], and the second one finds
    no tuple to delete. *)
Definition delete_twice_and_commit : outcome (list (list Z)) :=
  let* (h, p, t) := TableHeap_ctor false (new_pool 3 2 new_disk) Transaction_ctor in
  let* (_, p, t) := TableHeap_InsertTuple false 5 p h t [1; 2; 3] in
  let* (p, t) := TransactionManager_Commit 5 p t in
  let* (_, p, t) := TableHeap_MarkDelete false p h Transaction_ctor (mkRID 0 0) in
  let* (_, p, t) := TableHeap_MarkDelete false p h t (mkRID 0 0) in
  let* (p, t) := TransactionManager_Commit 5 p t in
  let* (rows, p, t) := table_scan false 5 p h t in
  Ret (rows.*2).

Lemma Commit_fails_on_double_delete : delete_twice_and_commit = Raised.
Proof. vm_compute. reflexivity. Qed.
