(* ===== verification/BTreePage.v ===== *)
(** * Pages of the B+ tree

    [BPlusTreePage], [BPlusTreeLeafPage] and [BPlusTreeInternalPage]
    (src/storage/page/b_plus_tree_page.cpp, b_plus_tree_leaf_page.cpp,
    b_plus_tree_internal_page.cpp) on the bytes of the page: a header of six
    4-byte fields, in a leaf the id of the next leaf, then the array of pairs, a
    key of [N] bytes (GenericKey<N>) with a record id in a leaf and a page id in
    an internal page. The key comparator is a parameter, as it is a template
    parameter of the classes. An index outside the array or the page is
    undefined behaviour ([Crash]); a loop that never ends is [Blocked].

    Proved: on a leaf that represents a sorted list of pairs, the binary search
    of [KeyIndex] finds the rank of the key and [InsertKey] is insertion into
    the sorted list; [FindKey] is linear search; [DeleteKey] works for the last
    pair only, and steps out of the array for every other; [Insertkv] puts the
    new entry behind the old one, but in front of all when the old one is the
    first. *)

From S2P Require Import Prelude.
From S2P Require Import Disk.
From S2P Require Import TablePage.
From Stdlib Require Import Sorted.

Local Open Scope Z_scope.
Local Open Scope outcome_scope.

(** ** The common header *)

Definition INVALID_INDEX_PAGE : Z := 0.
Definition LEAF_PAGE : Z := 1.
Definition INTERNAL_PAGE : Z := 2.

Section header.
Implicit Types d : list Z.

Definition GetPageType d : Z := get_i32 d 0.
Definition SetPageType d (page_type : Z) : list Z := put_u32 d 0 page_type.
Definition SetLSN d (lsn : Z) : list Z := put_u32 d 4 lsn.
Definition GetSize d : Z := get_i32 d 8.
Definition SetSize d (size : Z) : list Z := put_u32 d 8 size.
Definition GetMaxSize d : Z := get_i32 d 12.
Definition SetMaxSize d (size : Z) : list Z := put_u32 d 12 size.
Definition GetParentPageId d : Z := get_i32 d 16.
Definition SetParentPageId d (parent_page_id : Z) : list Z := put_u32 d 16 parent_page_id.
Definition GetPageId d : Z := get_i32 d 20.
Definition SetPageId d (page_id : Z) : list Z := put_u32 d 20 page_id.
Definition IsLeafPage d : bool := GetPageType d =? LEAF_PAGE.
Definition IsRootPage d : bool := GetParentPageId d =? INVALID_PAGE.

(** A sum of two [int]: overflow is undefined. *)
Definition int_add (a b : Z) : outcome Z :=
  if (- 2 ^ 31 <=? a + b) && (a + b <? 2 ^ 31) then Ret (a + b) else Crash.

Definition IncreaseSize d (amount : Z) : outcome (list Z) :=
  let* size := int_add (GetSize d) amount in Ret (SetSize d size).

Definition GetMinSize d : outcome Z :=
  let* n := int_add (GetMaxSize d) 1 in Ret (Z.quot n 2).
End header.

(** ** Arrays of pairs *)

(** [array_[index]], or a part of it, at byte [off] of the page. *)
Definition array_read (d : list Z) (index off n : Z) : outcome (list Z) :=
  if (0 <=? index) && (off + n <=? zlen d) then Ret (slice off n d) else Crash.
Definition array_write (d : list Z) (index off : Z) (bs : list Z) : outcome (list Z) :=
  if (0 <=? index) && (off + zlen bs <=? zlen d) then Ret (splice off bs d) else Crash.

Definition RID_bytes (r : RID) : list Z := le_encode 4 (page_id_ r) ++ le_encode 4 (slot_num_ r).
Definition RID_of_bytes (b : list Z) : RID := mkRID (get_i32 b 0) (get_u32 b 4).

Section pages.
Context (N : Z) (comparator : list Z -> list Z -> Z).
Implicit Types (d key : list Z) (value : RID).

(** ** Leaf pages *)

Definition leaf_pair : Z := N + 8.
Definition leaf_off (i : Z) : Z := 28 + i * leaf_pair.

Definition Leaf_GetNextPageId d : Z := get_i32 d 24.
Definition Leaf_SetNextPageId d (next_page_id : Z) : list Z := put_u32 d 24 next_page_id.

Definition Leaf_Init d (page_id parent_id max_size : Z) : list Z :=
  let d := SetPageType d LEAF_PAGE in
  let d := SetSize d 0 in
  let d := SetPageId d page_id in
  let d := SetParentPageId d parent_id in
  let d := SetMaxSize d max_size in
  let d := Leaf_SetNextPageId d INVALID_PAGE in
  SetLSN d INVALID_LSN.

Definition Leaf_KeyAt d (index : Z) : outcome (list Z) := array_read d index (leaf_off index) N.
Definition Leaf_ValueAt d (index : Z) : outcome RID :=
  let* b := array_read d index (leaf_off index + N) 8 in Ret (RID_of_bytes b).

Fixpoint find_key_from (fuel : nat) d key (i : Z) : outcome Z :=
  match fuel with
  | O => Ret (GetSize d)
  | S fuel =>
      let* k := Leaf_KeyAt d i in
      if comparator k key =? 0 then Ret i else find_key_from fuel d key (i + 1)
  end.
Definition FindKey d key : outcome Z := find_key_from (Z.to_nat (GetSize d)) d key 0.

(** [std::lower_bound] of the elements from [first] on, [len] of them. *)
Fixpoint lower_bound (fuel : nat) d key (first len : Z) : outcome Z :=
  match fuel with
  | O => Blocked
  | S fuel =>
      if len <=? 0 then Ret first
      else
        let half := Z.shiftr len 1 in
        let middle := first + half in
        let* k := Leaf_KeyAt d middle in
        if comparator k key <? 0 then lower_bound fuel d key (middle + 1) (len - half - 1)
        else lower_bound fuel d key first half
  end.
Definition KeyIndex d key : outcome Z := lower_bound (S (Z.to_nat (GetSize d))) d key 0 (GetSize d).

(** [*(array_ + index) = {key, value}] *)
Definition leaf_set d (index : Z) key value : outcome (list Z) :=
  array_write d index (leaf_off index) (key ++ RID_bytes value).

(** [std::move_backward(array_ + first, array_ + last, array_ + last + 1)] *)
Definition leaf_move d (first last : Z) : outcome (list Z) :=
  let* b := array_read d first (leaf_off first) ((last - first) * leaf_pair) in
  array_write d (first + 1) (leaf_off (first + 1)) b.

Definition InsertKey d key value : outcome (bool * list Z) :=
  let* distance_in_array := KeyIndex d key in
  if distance_in_array =? GetSize d then
    let* d := leaf_set d distance_in_array key value in
    let* d := IncreaseSize d 1 in
    Ret (true, d)
  else
    let* k := Leaf_KeyAt d distance_in_array in
    if comparator k key =? 0 then Ret (true, d)
    else
      let* d := leaf_move d distance_in_array (GetSize d) in
      let* d := leaf_set d distance_in_array key value in
      let* d := IncreaseSize d 1 in
      Ret (true, d).

(** The loop [for (int i = pos + 1; i < GetSize(); i--)]. *)
Fixpoint delete_shift (fuel : nat) d (i : Z) : outcome (list Z) :=
  match fuel with
  | O => Blocked
  | S fuel =>
      if i <? GetSize d then
        let* b := array_read d i (leaf_off i) leaf_pair in
        let* d := array_write d (i - 1) (leaf_off (i - 1)) b in
        delete_shift fuel d (i - 1)
      else Ret d
  end.
Definition DeleteKey d key : outcome (bool * list Z) :=
  let* pos := FindKey d key in
  if pos =? GetSize d then Ret (false, d)
  else
    let* d := delete_shift (S (Z.to_nat (pos + 1))) d (pos + 1) in
    let* d := IncreaseSize d (-1) in
    Ret (true, d).

(** ** Internal pages *)

Definition internal_pair : Z := N + 4.
Definition internal_off (i : Z) : Z := 24 + i * internal_pair.

Definition Internal_Init d (page_id parent_id max_size : Z) : list Z :=
  let d := SetPageType d INTERNAL_PAGE in
  let d := SetSize d 1 in
  let d := SetPageId d page_id in
  let d := SetParentPageId d parent_id in
  let d := SetMaxSize d max_size in
  SetLSN d INVALID_LSN.

Definition Internal_KeyAt d (index : Z) : outcome (list Z) := array_read d index (internal_off index) N.
Definition Internal_SetKeyAt d (index : Z) key : outcome (list Z) := array_write d index (internal_off index) key.
Definition Internal_ValueAt d (index : Z) : outcome Z :=
  let* b := array_read d index (internal_off index + N) 4 in Ret (get_i32 b 0).
Definition Internal_SetValueAt d (index : Z) (value : Z) : outcome (list Z) :=
  array_write d index (internal_off index + N) (le_encode 4 value).
Definition Internal_SetAllAt d (index : Z) key (value : Z) : outcome (list Z) :=
  let* d := Internal_SetKeyAt d index key in Internal_SetValueAt d index value.

(** The two loops of [Insertkv]: where the new entry goes, and making room. *)
Fixpoint find_value_from (fuel : nat) d (old_value : Z) (i : Z) : outcome Z :=
  match fuel with
  | O => Ret 0
  | S fuel =>
      let* v := Internal_ValueAt d i in
      if v =? old_value then Ret (i + 1) else find_value_from fuel d old_value (i + 1)
  end.
Fixpoint shift_up (fuel : nat) d (i new_value_idx : Z) : outcome (list Z) :=
  match fuel with
  | O => Blocked
  | S fuel =>
      if new_value_idx <=? i then
        let* b := array_read d i (internal_off i) internal_pair in
        let* d := array_write d (i + 1) (internal_off (i + 1)) b in
        shift_up fuel d (i - 1) new_value_idx
      else Ret d
  end.
Definition Insertkv d (old_value : Z) (new_key : list Z) (new_value : Z) : outcome (bool * list Z) :=
  let* new_value_idx := find_value_from (Z.to_nat (GetSize d - 1)) d old_value 1 in
  let* d := shift_up (S (Z.to_nat (GetSize d))) d (GetSize d - 1) new_value_idx in
  let* d := Internal_SetKeyAt d new_value_idx new_key in
  let* d := Internal_SetValueAt d new_value_idx new_value in
  let* d := IncreaseSize d 1 in
  Ret (true, d).
End pages.

(** ** Ordered keys *)

(** What the tree needs of the comparator on the keys it is used with: the sign
    of a total order, whose equivalence may be coarser than equality. *)
Class KeyOrder (comparator : list Z -> list Z -> Z) (key_ok : list Z -> Prop) := {
  ko_sign a b : comparator a b = -1 \/ comparator a b = 0 \/ comparator a b = 1;
  ko_refl a : key_ok a -> comparator a a = 0;
  ko_opp a b : key_ok a -> key_ok b -> comparator b a = - comparator a b;
  ko_trans a b c : key_ok a -> key_ok b -> key_ok c ->
    comparator a b <= 0 -> comparator b c <= 0 -> comparator a c <= 0;
}.

Abbreviation entry := (list Z * RID)%type.

Section order.
Context `{KeyOrder comparator key_ok}.
Implicit Types (kvs : list entry) (key : list Z).

(** Below [b] when not above some key below [b]: the comparator respects its
    equivalence. *)
Lemma ko_lt_l a b c :
  key_ok a -> key_ok b -> key_ok c -> comparator a b < 0 -> comparator b c <= 0 -> comparator a c < 0.
Proof.
  intros Ha Hb Hc H1 H2. pose proof (ko_opp a b Ha Hb). pose proof (ko_opp a c Ha Hc).
  pose proof (ko_trans a b c Ha Hb Hc (Z.lt_le_incl _ _ H1) H2).
  destruct (Z.eq_dec (comparator a c) 0) as [E|]; [|lia]. assert (Hca : comparator c a <= 0) by lia.
  pose proof (ko_trans b c a Hb Hc Ha H2 Hca). lia.
Qed.

Definition sorted kvs : Prop := StronglySorted (fun x y => comparator x.1 y.1 < 0) kvs.
Definition keys_ok kvs : Prop := Forall (fun x => key_ok x.1) kvs.

(** The number of leading entries below [key]. *)
Fixpoint rank key kvs : nat :=
  match kvs with
  | [] => O
  | x :: kvs => if comparator x.1 key <? 0 then S (rank key kvs) else O
  end.

Fixpoint insert_sorted key (value : RID) kvs : list entry :=
  match kvs with
  | [] => [(key, value)]
  | x :: kvs =>
      if comparator x.1 key <? 0 then x :: insert_sorted key value kvs
      else if comparator x.1 key =? 0 then x :: kvs
      else (key, value) :: x :: kvs
  end.

Lemma rank_length key kvs : (rank key kvs <= length kvs)%nat.
Proof. induction kvs as [|x kvs IH]; simpl; [lia|]. destruct (_ <? _); lia. Qed.

Lemma rank_below key kvs i x : kvs !! i = Some x -> (i < rank key kvs)%nat -> comparator x.1 key < 0.
Proof.
  revert i. induction kvs as [|y kvs IH]; intros i Hi Hr; [done|]. simpl in Hr.
  destruct (Z.ltb_spec (comparator y.1 key) 0); [|lia]. destruct i as [|i]; [by injection Hi as <-|].
  apply (IH i); [done|lia].
Qed.

Lemma rank_above key kvs i x :
  sorted kvs -> keys_ok kvs -> key_ok key ->
  kvs !! i = Some x -> (rank key kvs <= i)%nat -> 0 <= comparator x.1 key.
Proof.
  intros Hs. revert i. induction Hs as [|y kvs Hs IH Hy]; intros i Hk Hkey Hi Hr; [done|].
  inversion_clear Hk as [|? ? Hky Hkk]. simpl in Hr. destruct (Z.ltb_spec (comparator y.1 key) 0) as [Hlt|Hge].
  - destruct i as [|i]; [lia|]. apply (IH i); try done. lia.
  - destruct i as [|i]; [by injection Hi as <-|]. simpl in Hi.
    assert (Hx : key_ok x.1) by (eapply (Forall_lookup_1 _ _ _ _ Hkk Hi)).
    pose proof (Forall_lookup_1 _ _ _ _ Hy Hi) as Hlt. cbn in Hlt.
    pose proof (ko_lt_l y.1 x.1 key Hky Hx Hkey Hlt). lia.
Qed.

Lemma insert_sorted_split key value kvs :
  insert_sorted key value kvs =
    match kvs !! rank key kvs with
    | Some x => if comparator x.1 key =? 0 then kvs
                else take (rank key kvs) kvs ++ (key, value) :: drop (rank key kvs) kvs
    | None => kvs ++ [(key, value)]
    end.
Proof.
  induction kvs as [|x kvs IH]; [done|]. cbn [insert_sorted rank]. destruct (comparator x.1 key <? 0).
  - rewrite IH. cbn. destruct (kvs !! rank key kvs) as [y|]; [|done]. by destruct (_ =? _).
  - cbn. done.
Qed.

Lemma insert_sorted_keys key value kvs : keys_ok kvs -> key_ok key -> keys_ok (insert_sorted key value kvs).
Proof.
  intros Hk Hkey. induction Hk as [|x kvs Hx Hk IH]; cbn; [by repeat constructor|].
  destruct (_ <? _); [by constructor|]. destruct (_ =? _); by repeat constructor.
Qed.

Lemma insert_sorted_Forall (P : entry -> Prop) key value kvs :
  Forall P kvs -> P (key, value) -> Forall P (insert_sorted key value kvs).
Proof.
  intros Hk Hkey. induction Hk as [|x kvs Hx Hk IH]; cbn; [by repeat constructor|].
  destruct (_ <? _); [by constructor|]. destruct (_ =? _); by repeat constructor.
Qed.

Lemma insert_sorted_sorted key value kvs :
  sorted kvs -> keys_ok kvs -> key_ok key -> sorted (insert_sorted key value kvs).
Proof.
  intros Hs Hk Hkey. induction Hs as [|x kvs Hs IH Hx]; cbn; [by repeat constructor|].
  inversion_clear Hk as [|? ? Hkx Hkk]. destruct (Z.ltb_spec (comparator x.1 key) 0) as [Hlt|Hge].
  - constructor; [by apply IH|]. by apply insert_sorted_Forall.
  - destruct (Z.eqb_spec (comparator x.1 key) 0) as [He|Hn]; [by constructor|].
    pose proof (ko_opp x.1 key Hkx Hkey) as Ho.
    constructor; [by constructor|]. constructor; [cbn; lia|]. rewrite Forall_forall in Hx |- *. intros y Hy.
    specialize (Hx y Hy). cbn in Hx |- *. unfold keys_ok in Hkk. rewrite Forall_forall in Hkk.
    apply (ko_lt_l key x.1 y.1); auto; lia.
Qed.

(** The value of a key in a sorted list, up to the equivalence. *)
Fixpoint find_entry key kvs : option RID :=
  match kvs with
  | [] => None
  | x :: kvs => if comparator x.1 key =? 0 then Some x.2 else find_entry key kvs
  end.

Lemma insert_sorted_find key value kvs key' :
  sorted kvs -> keys_ok kvs -> key_ok key -> key_ok key' ->
  find_entry key' (insert_sorted key value kvs) =
    if comparator key key' =? 0 then Some (default value (find_entry key kvs)) else find_entry key' kvs.
Proof.
  intros Hs Hk Hkey Hkey'. induction Hs as [|x kvs Hs IH Hx]; cbn.
  { by destruct (_ =? _). }
  inversion_clear Hk as [|? ? Hkx Hkk]. specialize (IH Hkk).
  pose proof (ko_opp key key' Hkey Hkey') as Ho. pose proof (ko_opp x.1 key Hkx Hkey) as Ho2.
  pose proof (ko_opp x.1 key' Hkx Hkey') as Ho3.
  pose proof (ko_trans x.1 key' key Hkx Hkey' Hkey) as T1. pose proof (ko_trans x.1 key key' Hkx Hkey Hkey') as T2.
  pose proof (ko_trans key x.1 key' Hkey Hkx Hkey') as T3. pose proof (ko_trans key' key x.1 Hkey' Hkey Hkx) as T4.
  pose proof (ko_trans key key' x.1 Hkey Hkey' Hkx) as T5. pose proof (ko_trans key' x.1 key Hkey' Hkx Hkey) as T6.
  destruct (Z.ltb_spec (comparator x.1 key) 0) as [Hlt|Hge]; cbn.
  - rewrite IH. rewrite (proj2 (Z.eqb_neq (comparator x.1 key) 0)) by lia.
    destruct (Z.eqb_spec (comparator x.1 key') 0), (Z.eqb_spec (comparator key key') 0); try done; lia.
  - destruct (Z.eqb_spec (comparator x.1 key) 0) as [He|Hn]; cbn.
    + destruct (Z.eqb_spec (comparator x.1 key') 0), (Z.eqb_spec (comparator key key') 0); try done; lia.
    + destruct (Z.eqb_spec (comparator key key') 0) as [E|]; [|done].
      assert (Hnone : find_entry key kvs = None); [|by rewrite Hnone].
      clear IH Hs. induction kvs as [|y kvs IH]; [done|]. cbn. inversion_clear Hx as [|? ? Hxy Hx'].
      inversion_clear Hkk as [|? ? Hky Hkk']. cbn in Hxy.
      pose proof (ko_lt_l key x.1 y.1 Hkey Hkx Hky ltac:(lia) ltac:(lia)).
      pose proof (ko_opp key y.1 Hkey Hky). rewrite (proj2 (Z.eqb_neq _ _)) by lia. by apply IH.
Qed.
End order.

(** ** Arrays of fixed-size cells *)

Lemma zlen_le_encode n z : zlen (le_encode n z) = Z.of_nat n.
Proof. unfold zlen. by rewrite length_le_encode. Qed.

Lemma splice_nil {A} off (l : list A) : splice off [] l = l.
Proof. unfold splice. cbn [app length]. rewrite Nat.add_0_r. apply take_drop. Qed.

Lemma slice_nil {A} off n (l : list A) : n <= 0 -> slice off n l = [].
Proof. intros. unfold slice. by replace (Z.to_nat n) with 0%nat by lia. Qed.

Lemma slice_app {A} off n m (l : list A) :
  0 <= off -> 0 <= n -> 0 <= m -> slice off n l ++ slice (off + n) m l = slice off (n + m) l.
Proof.
  intros. unfold slice. rewrite !Z2Nat.inj_add by lia. rewrite <- drop_drop. apply take_take_drop.
Qed.

Lemma splice_adjacent {A} off (x y l : list A) :
  0 <= off -> off + zlen x + zlen y <= zlen l ->
  splice off x (splice (off + zlen x) y l) = splice off (x ++ y) l.
Proof.
  intros H0 Hl. unfold zlen in *. apply list_eq. intros i.
  assert (E : zlen (splice (off + zlen x) y l) = zlen l) by (apply zlen_splice; unfold zlen; lia).
  destruct (decide (Z.to_nat off <= i < Z.to_nat off + length x)%nat) as [Hi|Hi].
  { rewrite !lookup_splice_in by (rewrite ?length_app; unfold zlen in *; lia). by rewrite lookup_app_l by lia. }
  rewrite (lookup_splice_out off x) by (unfold zlen in *; lia).
  destruct (decide (Z.to_nat off <= i < Z.to_nat off + length (x ++ y))%nat) as [Hj|Hj]; rewrite length_app in Hj.
  - rewrite !lookup_splice_in by (rewrite ?length_app; unfold zlen; lia). rewrite lookup_app_r by lia. f_equal. lia.
  - rewrite !lookup_splice_out by (rewrite ?length_app; unfold zlen; lia). done.
Qed.

Lemma splice_adjacent_r {A} off (x y l : list A) :
  0 <= off -> off + zlen x + zlen y <= zlen l ->
  splice (off + zlen x) y (splice off x l) = splice off (x ++ y) l.
Proof.
  intros H0 Hl. unfold zlen in *. apply list_eq. intros i.
  assert (E : zlen (splice off x l) = zlen l) by (apply zlen_splice; unfold zlen; lia).
  destruct (decide (Z.to_nat (off + zlen x) <= i < Z.to_nat (off + zlen x) + length y)%nat) as [Hi|Hi]; unfold zlen in *.
  { rewrite !lookup_splice_in by (rewrite ?length_app; unfold zlen in *; lia). rewrite lookup_app_r by lia. f_equal. lia. }
  rewrite (lookup_splice_out _ y) by (unfold zlen in *; lia).
  destruct (decide (Z.to_nat off <= i < Z.to_nat off + length (x ++ y))%nat) as [Hj|Hj]; rewrite length_app in Hj.
  - rewrite !lookup_splice_in by (rewrite ?length_app; unfold zlen; lia). by rewrite lookup_app_l by lia.
  - rewrite !lookup_splice_out by (rewrite ?length_app; unfold zlen; lia). done.
Qed.

Lemma array_read_ok d i off n : 0 <= i -> off + n <= zlen d -> array_read d i off n = Ret (slice off n d).
Proof. intros. unfold array_read. by rewrite (proj2 (andb_true_iff _ _)) by (split; apply Z.leb_le; lia). Qed.

Lemma array_write_ok d i off bs : 0 <= i -> off + zlen bs <= zlen d -> array_write d i off bs = Ret (splice off bs d).
Proof. intros. unfold array_write. by rewrite (proj2 (andb_true_iff _ _)) by (split; apply Z.leb_le; lia). Qed.

Lemma IncreaseSize_ok d n : - 2 ^ 31 <= GetSize d + n < 2 ^ 31 -> IncreaseSize d n = Ret (SetSize d (GetSize d + n)).
Proof.
  intros. unfold IncreaseSize, int_add. by rewrite (proj2 (andb_true_iff _ _)) by (split; [apply Z.leb_le|apply Z.ltb_lt]; lia).
Qed.

Lemma GetSize_splice d off bs : 12 <= off -> off + zlen bs <= zlen d -> GetSize (splice off bs d) = GetSize d.
Proof. intros. unfold GetSize, get_i32. rewrite get_u_splice_disj by lia. done. Qed.

Lemma get_i32_put d off v : 0 <= off -> off + 4 <= zlen d -> sfits 32 v -> get_i32 (put_u32 d off v) off = v.
Proof.
  intros. unfold get_i32. rewrite get_put_u by lia. change (8 * Z.of_nat 4) with 32. rewrite swrap_uwrap. by apply swrap_id.
Qed.

Lemma get_i32_put_ne d off off' v :
  0 <= off -> off + 4 <= zlen d -> 0 <= off' -> off' + 4 <= off \/ off + 4 <= off' ->
  get_i32 (put_u32 d off v) off' = get_i32 d off'.
Proof. intros. unfold get_i32. rewrite get_put_u_disj by lia. done. Qed.

(** [b] bytes of header, then cells of [c] bytes. *)
Section cells.
Context (b c : Z).
Hypothesis Hb : 12 <= b.
Hypothesis Hc : 0 < c.
Implicit Types (d x : list Z) (xs : list (list Z)).

Definition cell_off (i : Z) : Z := b + i * c.

Record cells d xs : Prop := {
  ce_size : GetSize d = zlen xs;
  ce_room : cell_off (zlen xs) <= zlen d < 2 ^ 31;
  ce_slots : forall i x, xs !! i = Some x -> slice (cell_off (Z.of_nat i)) c d = x;
  ce_cells : Forall (fun x => zlen x = c) xs;
}.

Lemma cell_off_pos i : 0 <= i -> b + i <= cell_off i.
Proof. intros. unfold cell_off. nia. Qed.

Lemma cell_off_S i : cell_off (i + 1) = cell_off i + c.
Proof. unfold cell_off. lia. Qed.

Lemma cell_off_le i j : i <= j -> cell_off i <= cell_off j.
Proof. intros. unfold cell_off. nia. Qed.

Lemma cell_le d xs i x : cells d xs -> xs !! i = Some x -> cell_off (Z.of_nat i) + c <= zlen d.
Proof.
  intros R Hi. apply lookup_lt_Some in Hi. destruct R as [_ Hr _ _].
  pose proof (cell_off_le (Z.of_nat i + 1) (zlen xs) ltac:(unfold zlen; lia)). rewrite cell_off_S in *. lia.
Qed.

(** A part of a cell, as the accessors read it. *)
Lemma cell_part d xs i x off n :
  cells d xs -> xs !! i = Some x -> 0 <= off -> 0 <= n -> off + n <= c ->
  array_read d (Z.of_nat i) (cell_off (Z.of_nat i) + off) n = Ret (slice off n x).
Proof.
  intros R Hi Ho Hn Hle. pose proof (cell_le d xs i x R Hi). pose proof (cell_off_pos (Z.of_nat i) ltac:(lia)).
  rewrite array_read_ok by lia. f_equal. rewrite <- (ce_slots _ _ R i x Hi). symmetry. apply slice_slice; lia.
Qed.

(** The header, but for the size. *)
Definition same_header d d' : Prop :=
  forall off n, 0 <= off -> off + n <= 8 \/ 12 <= off /\ off + n <= b -> slice off n d' = slice off n d.

(** The cells from [j] on moved up by one, and the new cell in their place. *)
Definition moved_up d (n j : Z) : list Z := splice (cell_off (j + 1)) (slice (cell_off j) ((n - j) * c) d) d.
Definition insert_at d (n j : Z) x : list Z := SetSize (splice (cell_off j) x (moved_up d n j)) (n + 1).

Lemma zlen_insert_at d n j x :
  0 <= j <= n -> cell_off (n + 1) <= zlen d -> zlen x = c ->
  zlen (slice (cell_off j) ((n - j) * c) d) = (n - j) * c /\
  cell_off (j + 1) + (n - j) * c = cell_off (n + 1) /\
  zlen (moved_up d n j) = zlen d /\
  zlen (splice (cell_off j) x (moved_up d n j)) = zlen d /\
  zlen (insert_at d n j x) = zlen d.
Proof.
  intros Hj Hn Hx. pose proof (cell_off_pos j ltac:(lia)) as Hp. pose proof (cell_off_S j) as HS.
  assert (E : cell_off (j + 1) + (n - j) * c = cell_off (n + 1)) by (unfold cell_off; lia).
  assert (0 <= (n - j) * c) by nia.
  assert (E1 : zlen (slice (cell_off j) ((n - j) * c) d) = (n - j) * c) by (apply zlen_slice; lia).
  assert (E2 : zlen (moved_up d n j) = zlen d) by (apply zlen_splice; lia).
  assert (E3 : zlen (splice (cell_off j) x (moved_up d n j)) = zlen d) by (rewrite zlen_splice; lia).
  split_and!; try done. unfold insert_at, SetSize. rewrite zlen_put_u; lia.
Qed.

(** Where the bytes of the new page come from. *)
Lemma insert_at_slice d n j x off len :
  0 <= j <= n -> cell_off (n + 1) <= zlen d -> zlen x = c -> 0 <= off -> 0 <= len ->
  (off + len <= 8 \/ 12 <= off /\ off + len <= cell_off j -> slice off len (insert_at d n j x) = slice off len d) /\
  (cell_off (j + 1) <= off /\ off + len <= cell_off (n + 1) ->
    slice off len (insert_at d n j x) = slice (off - c) len d).
Proof.
  intros Hj Hn Hx H0 Hl. destruct (zlen_insert_at d n j x Hj Hn Hx) as (E1 & E & E2 & E3 & _).
  pose proof (cell_off_pos j ltac:(lia)) as Hp. pose proof (cell_off_S j) as HS.
  pose proof (cell_off_le (j + 1) (n + 1) ltac:(lia)).
  unfold insert_at, SetSize, put_u. split; intros Ho.
  - rewrite slice_splice_disj by (rewrite ?E3, ?zlen_le_encode; lia).
    rewrite slice_splice_disj by lia. apply slice_splice_disj; lia.
  - rewrite slice_splice_disj by (rewrite ?E3, ?zlen_le_encode; lia).
    rewrite slice_splice_disj by lia. unfold moved_up. rewrite slice_splice_inside by lia.
    rewrite slice_slice by lia. f_equal. lia.
Qed.

Lemma same_header_insert_at d n j x :
  0 <= j <= n -> cell_off (n + 1) <= zlen d -> zlen x = c -> same_header d (insert_at d n j x).
Proof.
  intros Hj Hn Hx off len H0 Ho. destruct (Z.le_gt_cases 0 len); [|by rewrite !slice_nil by lia].
  apply (insert_at_slice d n j x off len); try done. pose proof (cell_off_pos j ltac:(lia)). lia.
Qed.

Lemma insert_at_cells d xs j x :
  cells d xs -> (j <= length xs)%nat -> cell_off (zlen xs + 1) <= zlen d -> zlen x = c ->
  cells (insert_at d (zlen xs) (Z.of_nat j) x) (take j xs ++ x :: drop j xs).
Proof.
  intros R Hj Hroom Hx. assert (Hjn : 0 <= Z.of_nat j <= zlen xs) by (unfold zlen; lia).
  destruct (zlen_insert_at d (zlen xs) (Z.of_nat j) x Hjn Hroom Hx) as (E1 & E & E2 & E3 & E4).
  pose proof (ce_room _ _ R) as Hr0. pose proof (cell_off_pos (Z.of_nat j) ltac:(lia)) as Hp.
  pose proof (cell_off_pos (zlen xs) ltac:(lia)). pose proof (cell_off_le (Z.of_nat j + 1) (zlen xs + 1) ltac:(lia)).
  assert (Hlen : zlen (take j xs ++ x :: drop j xs) = zlen xs + 1).
  { unfold zlen. rewrite length_app. cbn [length]. rewrite length_take, length_drop. lia. }
  constructor.
  - rewrite Hlen. unfold insert_at, GetSize, SetSize, get_i32. rewrite get_put_u by (rewrite ?E3; lia).
    change (8 * Z.of_nat 4) with 32. rewrite swrap_uwrap. apply swrap_id; unfold sfits; lia.
  - rewrite Hlen, E4. lia.
  - intros i y Hi. pose proof (cell_off_S (Z.of_nat i)) as HS. pose proof (cell_off_S (Z.of_nat j)) as HSj.
    pose proof (cell_off_pos (Z.of_nat i) ltac:(lia)) as Hpi.
    destruct (insert_at_slice d (zlen xs) (Z.of_nat j) x (cell_off (Z.of_nat i)) c Hjn Hroom Hx
      ltac:(lia) ltac:(lia)) as [HL HU].
    destruct (lt_eq_lt_dec i j) as [[Hij|Hij]|Hij].
    + pose proof (cell_off_le (Z.of_nat i + 1) (Z.of_nat j) ltac:(lia)). rewrite HL by lia.
      apply (ce_slots _ _ R). rewrite lookup_app_l in Hi by (rewrite length_take; lia).
      by rewrite lookup_take_lt in Hi by lia.
    + subst i. rewrite lookup_app_r in Hi by (rewrite length_take; lia). rewrite length_take in Hi.
      replace (j - min j (length xs))%nat with 0%nat in Hi by lia. injection Hi as <-.
      unfold insert_at, SetSize, put_u. rewrite slice_splice_disj by (rewrite ?E3, ?zlen_le_encode; lia).
      rewrite <- Hx at 1. apply slice_splice_same; lia.
    + assert (Hik : xs !! (i - 1)%nat = Some y).
      { rewrite lookup_app_r in Hi by (rewrite length_take; lia). rewrite length_take in Hi.
        replace (i - min j (length xs))%nat with (S (i - 1 - j)) in Hi by lia. simpl in Hi.
        rewrite lookup_drop in Hi. by replace (j + (i - 1 - j))%nat with (i - 1)%nat in Hi by lia. }
      pose proof (lookup_lt_Some _ _ _ Hik). pose proof (cell_off_le (Z.of_nat j + 1) (Z.of_nat i) ltac:(lia)).
      pose proof (cell_off_le (Z.of_nat i + 1) (zlen xs + 1) ltac:(unfold zlen; lia)).
      rewrite HU by lia. rewrite <- (ce_slots _ _ R _ _ Hik). f_equal.
      pose proof (cell_off_S (Z.of_nat (i - 1))) as E'. replace (Z.of_nat (i - 1) + 1) with (Z.of_nat i) in E' by lia. lia.
  - rewrite Forall_app, Forall_cons. pose proof (ce_cells _ _ R).
    split_and!; [by apply Forall_take|done|by apply Forall_drop].
Qed.

(** Storing the new cell and counting it, after the others were moved. *)
Lemma set_and_count d n j x :
  GetSize d = n -> 0 <= j <= n -> cell_off (n + 1) <= zlen d < 2 ^ 31 -> zlen x = c ->
  array_write (moved_up d n j) j (cell_off j) x = Ret (splice (cell_off j) x (moved_up d n j)) /\
  IncreaseSize (splice (cell_off j) x (moved_up d n j)) 1 = Ret (insert_at d n j x).
Proof.
  intros Hs Hj Hn Hx. destruct (zlen_insert_at d n j x Hj ltac:(lia) Hx) as (E1 & E & E2 & E3 & E4).
  pose proof (cell_off_pos j ltac:(lia)). pose proof (cell_off_pos n ltac:(lia)). pose proof (cell_off_S j) as HS.
  pose proof (cell_off_le (j + 1) (n + 1) ltac:(lia)). pose proof (cell_off_le n (n + 1) ltac:(lia)).
  split; [apply array_write_ok; lia|].
  assert (G : GetSize (splice (cell_off j) x (moved_up d n j)) = n).
  { rewrite GetSize_splice by lia. unfold moved_up. rewrite GetSize_splice by lia. done. }
  rewrite IncreaseSize_ok; rewrite G; [done|lia].
Qed.

Lemma same_header_get d d' off :
  same_header d d' -> 0 <= off -> off + 4 <= 8 \/ 12 <= off /\ off + 4 <= b -> get_i32 d' off = get_i32 d off.
Proof. intros HH H0 Ho. unfold get_i32, get_u. change (Z.of_nat 4) with 4. by rewrite HH. Qed.

(** The cells from [k] on copied to the front of another page. *)
Lemma copy_cells d e xs k :
  cells d xs -> (k <= length xs)%nat -> zlen e = zlen d ->
  let bs := slice (cell_off (Z.of_nat k)) (cell_off (zlen xs) - cell_off (Z.of_nat k)) d in
  let e' := SetSize (splice (cell_off 0) bs e) (zlen xs - Z.of_nat k) in
  zlen bs = cell_off (zlen xs) - cell_off (Z.of_nat k) /\
  cells e' (drop k xs) /\ zlen e' = zlen e /\ same_header e e'.
Proof.
  intros R Hk He bs e'. pose proof (ce_room _ _ R) as Hr. assert (Hn : 0 <= zlen xs) by (unfold zlen; lia).
  pose proof (cell_off_pos (zlen xs) Hn). pose proof (cell_off_pos (Z.of_nat k) ltac:(lia)).
  pose proof (cell_off_le (Z.of_nat k) (zlen xs) ltac:(unfold zlen; lia)).
  assert (E0 : cell_off 0 = b) by (unfold cell_off; lia).
  assert (Hbs : zlen bs = cell_off (zlen xs) - cell_off (Z.of_nat k)) by (apply zlen_slice; lia).
  assert (Hz : zlen (splice (cell_off 0) bs e) = zlen e) by (apply zlen_splice; lia).
  assert (Hl : zlen (drop k xs) = zlen xs - Z.of_nat k) by (unfold zlen; rewrite length_drop; lia).
  assert (Hz' : zlen e' = zlen e) by (unfold e', SetSize; rewrite zlen_put_u; lia).
  split_and!; try done.
  - constructor.
    + rewrite Hl. apply get_i32_put; unfold sfits; lia.
    + rewrite Hl, Hz', He. pose proof (cell_off_le (zlen xs - Z.of_nat k) (zlen xs) ltac:(lia)). lia.
    + intros i x Hi. pose proof (lookup_lt_Some _ _ _ Hi) as Hlt. rewrite length_drop in Hlt. rewrite lookup_drop in Hi.
      pose proof (cell_off_pos (Z.of_nat i) ltac:(lia)). rewrite <- (ce_slots _ _ R _ _ Hi).
      pose proof (cell_off_le (Z.of_nat (k + i) + 1) (zlen xs) ltac:(unfold zlen; lia)) as Hle. rewrite cell_off_S in Hle.
      assert (Ea : cell_off (Z.of_nat k) + (cell_off (Z.of_nat i) - b) = cell_off (Z.of_nat (k + i))) by (unfold cell_off; lia).
      unfold e', SetSize, put_u. rewrite slice_splice_disj by (rewrite ?zlen_le_encode; lia).
      rewrite slice_splice_inside by lia. unfold bs. rewrite slice_slice by lia. f_equal. lia.
    + apply Forall_drop, R.
  - intros off n Hoff Ho. unfold e', SetSize, put_u. rewrite slice_splice_disj by (rewrite ?zlen_le_encode; lia).
    apply slice_splice_disj; lia.
Qed.

(** Forgetting the cells from [k] on. *)
Lemma truncate_cells d xs k :
  cells d xs -> (k <= length xs)%nat ->
  cells (SetSize d (Z.of_nat k)) (take k xs) /\ same_header d (SetSize d (Z.of_nat k)) /\
  zlen (SetSize d (Z.of_nat k)) = zlen d.
Proof.
  intros R Hk. pose proof (ce_room _ _ R) as Hr. assert (Hn : 0 <= zlen xs) by (unfold zlen; lia).
  pose proof (cell_off_pos (zlen xs) Hn).
  assert (Hz : zlen (SetSize d (Z.of_nat k)) = zlen d) by (apply zlen_put_u; lia).
  assert (Hs : forall off n, 0 <= off -> off + n <= 8 \/ 12 <= off -> slice off n (SetSize d (Z.of_nat k)) = slice off n d).
  { intros off n H0 Ho. unfold SetSize, put_u. apply slice_splice_disj; rewrite ?zlen_le_encode; lia. }
  assert (Hl : zlen (take k xs) = Z.of_nat k) by (unfold zlen; rewrite length_take; lia).
  split_and!; [|intros off n H0 Ho; apply Hs; lia|done]. constructor.
  - rewrite Hl. unfold GetSize, SetSize, get_i32. rewrite get_put_u by lia.
    change (8 * Z.of_nat 4) with 32. rewrite swrap_uwrap. apply swrap_id; unfold sfits, zlen in *; lia.
  - rewrite Hl, Hz. pose proof (cell_off_le (Z.of_nat k) (zlen xs) ltac:(unfold zlen; lia)). lia.
  - intros i x Hi. pose proof (lookup_lt_Some _ _ _ Hi) as Hlt. rewrite length_take in Hlt.
    rewrite lookup_take_lt in Hi by lia. pose proof (cell_off_pos (Z.of_nat i) ltac:(lia)).
    rewrite Hs by lia. by apply (ce_slots _ _ R).
  - apply Forall_take, R.
Qed.
End cells.

(** ** What a leaf represents *)

Definition entry_bytes (x : entry) : list Z := x.1 ++ RID_bytes x.2.

Lemma length_RID_bytes r : length (RID_bytes r) = 8%nat.
Proof. unfold RID_bytes. by rewrite length_app, !length_le_encode. Qed.

Lemma RID_of_RID_bytes r : sfits 32 (page_id_ r) -> ufits 32 (slot_num_ r) -> RID_of_bytes (RID_bytes r) = r.
Proof.
  intros Hp Hs. destruct r as [pid slot]. unfold RID_of_bytes, RID_bytes, get_i32, get_u, slice. cbn [page_id_ slot_num_] in *.
  change (Z.to_nat 0) with 0%nat. change (Z.to_nat (Z.of_nat 4)) with 4%nat. change (Z.to_nat 4) with 4%nat.
  rewrite drop_0, take_app_le, drop_app_ge by (rewrite length_le_encode; lia). rewrite length_le_encode, drop_0.
  rewrite !take_ge by (rewrite length_le_encode; lia). rewrite !le_decode_encode.
  change (256 ^ Z.of_nat 4) with (2 ^ 32). f_equal.
  - change (pid mod 2 ^ 32) with (uwrap 32 pid). rewrite swrap_uwrap. by apply swrap_id.
  - by apply Z.mod_small.
Qed.

Section leaf.
Context (N : Z) {comparator : list Z -> list Z -> Z} {key_ok : list Z -> Prop} `{!KeyOrder comparator key_ok}.
Hypothesis HN : 0 < N.
Implicit Types (d key : list Z) (kvs : list entry) (value : RID).
Abbreviation sorted := (sorted (comparator := comparator)).
Abbreviation keys_ok := (keys_ok (key_ok := key_ok)).
Abbreviation rank := (rank (comparator := comparator)).
Abbreviation insert_sorted := (insert_sorted (comparator := comparator)).

Definition entry_ok (x : entry) : Prop :=
  zlen x.1 = N /\ sfits 32 (page_id_ x.2) /\ ufits 32 (slot_num_ x.2).

Definition leaf_rep d kvs : Prop := cells 28 (leaf_pair N) d (entry_bytes <$> kvs) /\ Forall entry_ok kvs.

Lemma leaf_pair_pos : 0 < leaf_pair N.
Proof. unfold leaf_pair. lia. Qed.

Lemma zlen_entry x : entry_ok x -> zlen (entry_bytes x) = leaf_pair N.
Proof. intros [Hx _]. unfold entry_bytes, zlen, leaf_pair in *. rewrite length_app, length_RID_bytes. lia. Qed.

Lemma zlen_fmap {A B} (f : A -> B) (l : list A) : zlen (f <$> l) = zlen l.
Proof. unfold zlen. by rewrite length_fmap. Qed.

Lemma leaf_size d kvs : leaf_rep d kvs -> GetSize d = zlen kvs.
Proof. intros [R _]. by rewrite (ce_size _ _ _ _ R), zlen_fmap. Qed.

Lemma leaf_cell d kvs i x : kvs !! i = Some x -> (entry_bytes <$> kvs) !! i = Some (entry_bytes x).
Proof. intros Hi. by rewrite list_lookup_fmap, Hi. Qed.

Lemma KeyAt_rep d kvs i x : leaf_rep d kvs -> kvs !! i = Some x -> Leaf_KeyAt N d (Z.of_nat i) = Ret x.1.
Proof.
  intros [R Hk] Hi. destruct (Forall_lookup_1 _ _ _ _ Hk Hi) as (Hx & _). unfold Leaf_KeyAt.
  replace (leaf_off N (Z.of_nat i)) with (cell_off 28 (leaf_pair N) (Z.of_nat i) + 0) by (unfold leaf_off, cell_off; lia).
  rewrite (cell_part 28 (leaf_pair N) ltac:(lia) leaf_pair_pos d _ i _ 0 N R (leaf_cell d _ _ _ Hi)) by (unfold leaf_pair; lia).
  unfold slice, entry_bytes, zlen in *. change (Z.to_nat 0) with 0%nat. rewrite drop_0, take_app_length'; [done|lia].
Qed.

Lemma ValueAt_rep d kvs i x : leaf_rep d kvs -> kvs !! i = Some x -> Leaf_ValueAt N d (Z.of_nat i) = Ret x.2.
Proof.
  intros [R Hk] Hi. destruct (Forall_lookup_1 _ _ _ _ Hk Hi) as (Hx & Hr1 & Hr2). unfold Leaf_ValueAt.
  change (leaf_off N (Z.of_nat i)) with (cell_off 28 (leaf_pair N) (Z.of_nat i)).
  rewrite (cell_part 28 (leaf_pair N) ltac:(lia) leaf_pair_pos d _ i _ N 8 R (leaf_cell d _ _ _ Hi)) by (unfold leaf_pair; lia).
  cbn [obind]. f_equal. unfold slice, entry_bytes, zlen in *. rewrite drop_app_length' by lia.
  rewrite take_ge by (rewrite length_RID_bytes; lia). by apply RID_of_RID_bytes.
Qed.

(** Reading past a store to another field. *)
Ltac skip d := unfold d; rewrite get_i32_put_ne by lia.

(** A new leaf. *)
Lemma Leaf_Init_rep d page_id parent_id max_size :
  zlen d = BUSTUB_PAGE_SIZE -> sfits 32 page_id -> sfits 32 parent_id -> sfits 32 max_size ->
  let d' := Leaf_Init d page_id parent_id max_size in
  zlen d' = zlen d /\ leaf_rep d' [] /\ IsLeafPage d' = true /\ GetPageId d' = page_id /\ GetParentPageId d' = parent_id /\
  GetMaxSize d' = max_size /\ Leaf_GetNextPageId d' = INVALID_PAGE.
Proof.
  intros Hd H1 H2 H3. unfold BUSTUB_PAGE_SIZE in Hd. unfold Leaf_Init, leaf_rep.
  unfold IsLeafPage, GetPageType, GetPageId, GetParentPageId, GetMaxSize, Leaf_GetNextPageId,
    SetPageType, SetSize, SetPageId, SetParentPageId, SetMaxSize, Leaf_SetNextPageId, SetLSN.
  assert (Hz : forall d' off v, zlen d' = zlen d -> 0 <= off <= 24 -> zlen (put_u32 d' off v) = zlen d)
    by (intros; rewrite zlen_put_u; lia).
  set (d1 := put_u32 d 0 LEAF_PAGE). assert (Z1 : zlen d1 = zlen d) by (apply Hz; lia || done).
  set (d2 := put_u32 d1 8 0). assert (Z2 : zlen d2 = zlen d) by (apply Hz; lia || done).
  set (d3 := put_u32 d2 20 page_id). assert (Z3 : zlen d3 = zlen d) by (apply Hz; lia || done).
  set (d4 := put_u32 d3 16 parent_id). assert (Z4 : zlen d4 = zlen d) by (apply Hz; lia || done).
  set (d5 := put_u32 d4 12 max_size). assert (Z5 : zlen d5 = zlen d) by (apply Hz; lia || done).
  set (d6 := put_u32 d5 24 INVALID_PAGE). assert (Z6 : zlen d6 = zlen d) by (apply Hz; lia || done).
  set (d7 := put_u32 d6 4 INVALID_LSN). assert (Z7 : zlen d7 = zlen d) by (apply Hz; lia || done).
  split_and!; try done.
  - constructor; [|rewrite Z7, Hd; unfold cell_off, zlen; simpl; lia|done|constructor].
    unfold GetSize. skip d7; skip d6; skip d5; skip d4; skip d3. apply get_i32_put; done || lia.
  - skip d7; skip d6; skip d5; skip d4. apply get_i32_put; done || lia.
  - skip d7; skip d6; skip d5. apply get_i32_put; done || lia.
  - skip d7; skip d6. apply get_i32_put; done || lia.
  - skip d7. apply get_i32_put; unfold sfits, INVALID_PAGE; lia.
Qed.

(** ** Searching *)

(** Binary search keeps the rank between its bounds, and halves the distance. *)
Lemma lower_bound_rank d kvs key fuel first len :
  leaf_rep d kvs -> sorted kvs -> keys_ok kvs -> key_ok key ->
  0 <= first -> first <= Z.of_nat (rank key kvs) <= first + len ->
  first + len <= zlen kvs -> (Z.to_nat len < fuel)%nat ->
  lower_bound N comparator fuel d key first len = Ret (Z.of_nat (rank key kvs)).
Proof.
  intros R Hs Hk Hkey. revert first len. induction fuel as [|fuel IH]; intros first len H0 Hr Hl Hf; [lia|].
  cbn [lower_bound]. destruct (Z.leb_spec len 0); [f_equal; lia|].
  rewrite Z.shiftr_div_pow2 by lia. change (2 ^ 1) with 2.
  assert (0 <= len / 2 < len) by (split; [apply Z.div_pos|apply Z.div_lt]; lia).
  destruct (lookup_lt_is_Some_2 kvs (Z.to_nat (first + len / 2))) as [x Hx]; [unfold zlen in Hl; lia|].
  pose proof (KeyAt_rep _ _ _ _ R Hx) as HK. rewrite Z2Nat.id in HK by lia. rewrite HK. cbn [obind].
  destruct (Z.ltb_spec (comparator x.1 key) 0) as [Hlt|Hge].
  - apply IH; try lia. split; [|lia].
    destruct (decide (rank key kvs <= Z.to_nat (first + len / 2))%nat) as [Hle|]; [|lia].
    pose proof (rank_above key kvs _ x Hs Hk Hkey Hx Hle). lia.
  - apply IH; try lia. split; [lia|].
    destruct (decide (Z.to_nat (first + len / 2) < rank key kvs)%nat) as [Hlt|]; [|lia].
    pose proof (rank_below key kvs _ x Hx Hlt). lia.
Qed.

Lemma KeyIndex_rank d kvs key :
  leaf_rep d kvs -> sorted kvs -> keys_ok kvs -> key_ok key ->
  KeyIndex N comparator d key = Ret (Z.of_nat (rank key kvs)).
Proof.
  intros R Hs Hk Hkey. unfold KeyIndex. rewrite (leaf_size _ _ R).
  pose proof (rank_length (comparator := comparator) key kvs). apply (lower_bound_rank d kvs); try done; unfold zlen; lia.
Qed.

Definition entry_index key kvs : option nat := fst <$> list_find (fun x => comparator x.1 key = 0) kvs.

Lemma find_key_from_ok d kvs key i :
  leaf_rep d kvs -> (i <= length kvs)%nat ->
  find_key_from N comparator (length kvs - i) d key (Z.of_nat i) =
    Ret (Z.of_nat (default (length kvs) (Nat.add i <$> entry_index key (drop i kvs)))).
Proof.
  intros R Hi. remember (length kvs - i)%nat as k eqn:Hk. revert i Hi Hk. induction k as [|k IH]; intros i Hi Hk.
  - rewrite drop_ge by lia. cbn. by rewrite (leaf_size _ _ R).
  - destruct (lookup_lt_is_Some_2 kvs i) as [x Hx]; [lia|]. cbn [find_key_from].
    rewrite (KeyAt_rep _ _ _ _ R Hx). cbn [obind]. rewrite (drop_S kvs x i Hx). unfold entry_index. cbn [list_find].
    destruct (Z.eqb_spec (comparator x.1 key) 0) as [E|E]; destruct (decide (comparator x.1 key = 0)); try done.
    + cbn. f_equal. lia.
    + replace (Z.of_nat i + 1) with (Z.of_nat (S i)) by lia. rewrite IH by lia. unfold entry_index.
      destruct (list_find _ (drop (S i) kvs)) as [[j y]|]; cbn; do 2 f_equal. lia.
Qed.

Lemma FindKey_index d kvs key :
  leaf_rep d kvs -> FindKey N comparator d key = Ret (Z.of_nat (default (length kvs) (entry_index key kvs))).
Proof.
  intros R. unfold FindKey. rewrite (leaf_size _ _ R). pose proof (find_key_from_ok d kvs key 0 R ltac:(lia)) as E.
  rewrite Nat.sub_0_r, drop_0 in E. unfold zlen. rewrite Nat2Z.id. change 0 with (Z.of_nat 0). rewrite E. do 2 f_equal.
  by destruct (entry_index key kvs).
Qed.

(** ** Inserting and deleting *)

Lemma InsertKey_rep d kvs key value :
  leaf_rep d kvs -> sorted kvs -> keys_ok kvs -> key_ok key -> entry_ok (key, value) ->
  leaf_off N (zlen kvs + 1) <= zlen d ->
  exists d', InsertKey N comparator d key value = Ret (true, d') /\ leaf_rep d' (insert_sorted key value kvs) /\
    same_header 28 d d' /\ zlen d' = zlen d.
Proof.
  intros R Hs Hk Hkey Hx Hroom. unfold InsertKey. rewrite (KeyIndex_rank d kvs) by done. cbn [obind].
  rewrite (leaf_size _ _ R). pose proof (rank_length (comparator := comparator) key kvs) as Hr.
  assert (Hn : 0 <= Z.of_nat (rank key kvs) <= zlen kvs) by (unfold zlen; lia). pose proof R as [RC RE].
  pose proof (zlen_entry _ Hx) as Hb. pose proof leaf_pair_pos as Hpos. pose proof (ce_room _ _ _ _ RC) as Hcr.
  change (leaf_off N (zlen kvs + 1)) with (cell_off 28 (leaf_pair N) (zlen kvs + 1)) in Hroom.
  destruct (set_and_count 28 (leaf_pair N) ltac:(lia) Hpos d (zlen kvs) (Z.of_nat (rank key kvs)) (entry_bytes (key, value))
    (leaf_size _ _ R) Hn ltac:(lia) Hb) as [HC1 HC2].
  destruct (zlen_insert_at 28 (leaf_pair N) ltac:(lia) Hpos d (zlen kvs) (Z.of_nat (rank key kvs)) _ Hn Hroom Hb)
    as (E1 & E & E2 & E3 & E4).
  pose proof (same_header_insert_at 28 _ ltac:(lia) Hpos d _ _ _ Hn Hroom Hb) as HH.
  assert (HR : leaf_rep (insert_at 28 (leaf_pair N) d (zlen kvs) (Z.of_nat (rank key kvs)) (entry_bytes (key, value)))
    (take (rank key kvs) kvs ++ (key, value) :: drop (rank key kvs) kvs)).
  { split; [|rewrite Forall_app, Forall_cons; split_and!; [by apply Forall_take|done|by apply Forall_drop]].
    rewrite fmap_app, fmap_cons, fmap_take, fmap_drop, <- (zlen_fmap entry_bytes kvs).
    apply insert_at_cells; rewrite ?length_fmap, ?zlen_fmap; lia || done. }
  assert (HC : (let* d := leaf_set N (moved_up 28 (leaf_pair N) d (zlen kvs) (Z.of_nat (rank key kvs)))
      (Z.of_nat (rank key kvs)) key value in let* d := IncreaseSize d 1 in Ret (true, d)) =
      Ret (true, insert_at 28 (leaf_pair N) d (zlen kvs) (Z.of_nat (rank key kvs)) (entry_bytes (key, value)))).
  { unfold leaf_set. change (key ++ RID_bytes value) with (entry_bytes (key, value)).
    change (leaf_off N) with (cell_off 28 (leaf_pair N)). rewrite HC1. cbn [obind]. by rewrite HC2. }
  rewrite insert_sorted_split. destruct (kvs !! rank key kvs) as [x|] eqn:Ex.
  - pose proof (lookup_lt_Some _ _ _ Ex). rewrite (proj2 (Z.eqb_neq _ _)) by (unfold zlen; lia).
    rewrite (KeyAt_rep _ _ _ _ R Ex). cbn [obind]. destruct (comparator x.1 key =? 0); [by exists d|].
    unfold leaf_move. change (leaf_off N) with (cell_off 28 (leaf_pair N)).
    pose proof (cell_off_S 28 (leaf_pair N) (Z.of_nat (rank key kvs))).
    rewrite array_read_ok by lia. cbn [obind]. rewrite array_write_ok by lia. cbn [obind].
    change (splice _ _ _) with (moved_up 28 (leaf_pair N) d (zlen kvs) (Z.of_nat (rank key kvs))). rewrite HC. eauto.
  - apply lookup_ge_None in Ex. assert (Er : Z.of_nat (rank key kvs) = zlen kvs) by (unfold zlen; lia).
    rewrite Er, Z.eqb_refl. rewrite Er in *. unfold moved_up in HC. rewrite slice_nil, splice_nil in HC by lia.
    rewrite HC. rewrite take_ge, drop_ge in HR by lia. eauto.
Qed.

Lemma delete_shift_crash d kvs i fuel :
  leaf_rep d kvs -> 0 <= i < zlen kvs -> (Z.to_nat i < fuel)%nat -> delete_shift N fuel d i = Crash.
Proof.
  intros [R _]. rewrite <- (zlen_fmap entry_bytes). assert (Hsz : GetSize d = zlen (entry_bytes <$> kvs)) by apply R.
  destruct R as [_ Hroom _ _]. revert Hsz Hroom. generalize (zlen (entry_bytes <$> kvs)) as n. intros n Hsz Hroom.
  revert d i Hsz Hroom. pose proof leaf_pair_pos. induction fuel as [|fuel IH]; intros d i Hsz Hroom Hi Hf; [lia|].
  cbn [delete_shift]. rewrite Hsz, (proj2 (Z.ltb_lt _ _)) by lia. change (leaf_off N) with (cell_off 28 (leaf_pair N)).
  pose proof (cell_off_le 28 _ leaf_pair_pos (i + 1) n ltac:(lia)) as Hle. rewrite cell_off_S in Hle.
  pose proof (cell_off_pos 28 _ leaf_pair_pos i ltac:(lia)). rewrite array_read_ok by lia. cbn [obind].
  destruct (Z.eq_dec i 0) as [->|Hne]; [done|].
  pose proof (cell_off_S 28 (leaf_pair N) (i - 1)) as HS. replace (i - 1 + 1) with i in HS by lia.
  pose proof (cell_off_pos 28 _ leaf_pair_pos (i - 1) ltac:(lia)).
  assert (Hb : zlen (slice (cell_off 28 (leaf_pair N) i) (leaf_pair N) d) = leaf_pair N) by (apply zlen_slice; lia).
  rewrite array_write_ok by lia. cbn [obind]. apply IH; [| |lia|lia].
  - rewrite GetSize_splice by lia. done.
  - rewrite zlen_splice by lia. done.
Qed.

Lemma DeleteKey_rep d kvs key :
  leaf_rep d kvs ->
  match entry_index key kvs with
  | None => DeleteKey N comparator d key = Ret (false, d)
  | Some i =>
      if decide (S i = length kvs) then
        exists d', DeleteKey N comparator d key = Ret (true, d') /\ leaf_rep d' (take i kvs) /\ same_header 28 d d' /\
          zlen d' = zlen d
      else DeleteKey N comparator d key = Crash
  end.
Proof.
  intros R. unfold DeleteKey. rewrite (FindKey_index d kvs key R). cbn [obind]. rewrite (leaf_size _ _ R).
  destruct (entry_index key kvs) as [i|] eqn:Ei; cbn [default]; [|by unfold zlen; rewrite Z.eqb_refl].
  assert (Hi : (i < length kvs)%nat).
  { apply fmap_Some in Ei as ([j x] & Hf & ->). apply list_find_Some in Hf as [Hf _]. by eapply lookup_lt_Some. }
  unfold id. rewrite (proj2 (Z.eqb_neq _ _)) by (unfold zlen; lia). case_decide as Hl.
  - cbn [delete_shift]. rewrite (leaf_size _ _ R), (proj2 (Z.ltb_ge _ _)) by (unfold zlen; lia). cbn [obind].
    pose proof R as [RC RE]. pose proof (ce_room _ _ _ _ RC) as Hroom. rewrite zlen_fmap in Hroom.
    pose proof (cell_off_pos 28 _ leaf_pair_pos (zlen kvs) ltac:(unfold zlen; lia)).
    rewrite IncreaseSize_ok by (rewrite (leaf_size _ _ R); unfold zlen in *; lia). cbn [obind].
    rewrite (leaf_size _ _ R). replace (zlen kvs + -1) with (Z.of_nat i) by (unfold zlen; lia).
    destruct (truncate_cells 28 _ ltac:(lia) leaf_pair_pos d _ i RC) as (HT & HH & HZ); [rewrite length_fmap; lia|].
    eexists. split_and!; try done. split; [by rewrite fmap_take|by apply Forall_take].
  - rewrite (delete_shift_crash d kvs) by (done || unfold zlen; lia). done.
Qed.
End leaf.

(** ** What an internal page represents *)

Abbreviation child := (list Z * Z)%type.
Definition child_bytes (x : child) : list Z := x.1 ++ le_encode 4 x.2.

Section internal.
Context (N : Z).
Hypothesis HN : 0 < N.
Implicit Types (d key : list Z) (es : list child).

Definition child_ok (x : child) : Prop := zlen x.1 = N /\ sfits 32 x.2.
Definition internal_rep d es : Prop := cells 24 (internal_pair N) d (child_bytes <$> es) /\ Forall child_ok es.

Lemma internal_pair_pos : 0 < internal_pair N.
Proof. unfold internal_pair. lia. Qed.

Lemma zlen_child x : child_ok x -> zlen (child_bytes x) = internal_pair N.
Proof. intros [Hx _]. unfold child_bytes, zlen, internal_pair in *. rewrite length_app, length_le_encode. lia. Qed.

Lemma internal_size d es : internal_rep d es -> GetSize d = zlen es.
Proof. intros [R _]. by rewrite (ce_size _ _ _ _ R), zlen_fmap. Qed.

Lemma child_cell es i x : es !! i = Some x -> (child_bytes <$> es) !! i = Some (child_bytes x).
Proof. intros Hi. by rewrite list_lookup_fmap, Hi. Qed.

Lemma Internal_KeyAt_rep d es i x : internal_rep d es -> es !! i = Some x -> Internal_KeyAt N d (Z.of_nat i) = Ret x.1.
Proof.
  intros [R Hk] Hi. destruct (Forall_lookup_1 _ _ _ _ Hk Hi) as (Hx & _). unfold Internal_KeyAt.
  replace (internal_off N (Z.of_nat i)) with (cell_off 24 (internal_pair N) (Z.of_nat i) + 0)
    by (unfold internal_off, cell_off; lia).
  rewrite (cell_part 24 _ ltac:(lia) internal_pair_pos d _ i _ 0 N R (child_cell _ _ _ Hi)) by (unfold internal_pair; lia).
  unfold slice, child_bytes, zlen in *. change (Z.to_nat 0) with 0%nat. rewrite drop_0, take_app_length'; [done|lia].
Qed.

Lemma Internal_ValueAt_rep d es i x : internal_rep d es -> es !! i = Some x -> Internal_ValueAt N d (Z.of_nat i) = Ret x.2.
Proof.
  intros [R Hk] Hi. destruct (Forall_lookup_1 _ _ _ _ Hk Hi) as (Hx & Hv). unfold Internal_ValueAt.
  change (internal_off N (Z.of_nat i)) with (cell_off 24 (internal_pair N) (Z.of_nat i)).
  rewrite (cell_part 24 _ ltac:(lia) internal_pair_pos d _ i _ N 4 R (child_cell _ _ _ Hi)) by (unfold internal_pair; lia).
  cbn [obind]. f_equal. unfold get_i32, get_u, slice, child_bytes, zlen in *. change (Z.to_nat 0) with 0%nat.
  rewrite drop_app_length', drop_0 by lia. rewrite !take_ge by (rewrite ?length_take, ?length_le_encode; lia).
  rewrite le_decode_encode. change (_ mod _) with (uwrap 32 x.2). rewrite swrap_uwrap. by apply swrap_id.
Qed.

(** Where [Insertkv] puts the new entry: behind the first entry from the second
    on with the old child, in front of all if there is none. *)
Definition child_slot (old : Z) es : nat :=
  match list_find (fun x => x.2 = old) (drop 1 es) with Some (i, _) => i + 2 | None => 0 end.

Lemma find_value_from_ok d es old i :
  internal_rep d es -> (i <= length es)%nat ->
  find_value_from N (length es - i) d old (Z.of_nat i) =
    Ret (match list_find (fun x => x.2 = old) (drop i es) with Some (j, _) => Z.of_nat (i + j + 1) | None => 0 end).
Proof.
  intros R Hi. remember (length es - i)%nat as k eqn:Hk. revert i Hi Hk. induction k as [|k IH]; intros i Hi Hk.
  - by rewrite drop_ge by lia.
  - destruct (lookup_lt_is_Some_2 es i) as [x Hx]; [lia|]. cbn [find_value_from].
    rewrite (Internal_ValueAt_rep _ _ _ _ R Hx). cbn [obind]. rewrite (drop_S es x i Hx). cbn [list_find].
    destruct (Z.eqb_spec x.2 old) as [E|E]; destruct (decide (x.2 = old)); try done.
    + f_equal. lia.
    + replace (Z.of_nat i + 1) with (Z.of_nat (S i)) by lia. rewrite IH by lia.
      destruct (list_find _ (drop (S i) es)) as [[j y]|]; cbn; f_equal. lia.
Qed.

Lemma shift_up_ok d n j fuel i :
  0 <= j -> j <= i + 1 -> internal_off N (i + 2) <= zlen d -> (Z.to_nat (i + 1 - j) < fuel)%nat -> n = i + 1 ->
  shift_up N fuel d i j = Ret (moved_up 24 (internal_pair N) d n j).
Proof.
  intros Hj. revert d i n. change (internal_off N) with (cell_off 24 (internal_pair N)).
  pose proof internal_pair_pos as Hpos. induction fuel as [|fuel IH]; intros d i n Hi Hroom Hf ->; [lia|].
  cbn [shift_up]. change (internal_off N) with (cell_off 24 (internal_pair N)). destruct (Z.leb_spec j i) as [Hji|Hji].
  2:{ unfold moved_up. by rewrite slice_nil, splice_nil by nia. }
  pose proof (cell_off_S 24 (internal_pair N) i) as S1. pose proof (cell_off_S 24 (internal_pair N) (i + 1)) as S2.
  replace (i + 1 + 1) with (i + 2) in S2 by lia. pose proof (cell_off_S 24 (internal_pair N) j) as S3.
  pose proof (cell_off_pos 24 _ Hpos i ltac:(lia)). pose proof (cell_off_pos 24 _ Hpos j ltac:(lia)).
  assert (Ec : cell_off 24 (internal_pair N) j + (i - j) * internal_pair N = cell_off 24 (internal_pair N) i)
    by (unfold cell_off; lia).
  assert (0 <= (i - j) * internal_pair N) by nia.
  rewrite array_read_ok by lia. cbn [obind].
  assert (Hb : zlen (slice (cell_off 24 (internal_pair N) i) (internal_pair N) d) = internal_pair N) by (apply zlen_slice; lia).
  rewrite array_write_ok by lia. cbn [obind].
  rewrite (IH _ (i - 1) i); [|lia|rewrite zlen_splice by lia|lia|lia].
  2:{ replace (i - 1 + 2) with (i + 1) by lia. lia. }
  f_equal. unfold moved_up. rewrite slice_splice_disj by lia.
  assert (Hb' : zlen (slice (cell_off 24 (internal_pair N) j) ((i - j) * internal_pair N) d) = (i - j) * internal_pair N)
    by (apply zlen_slice; lia).
  replace (cell_off 24 (internal_pair N) (i + 1)) with (cell_off 24 (internal_pair N) (j + 1) +
    zlen (slice (cell_off 24 (internal_pair N) j) ((i - j) * internal_pair N) d)) by lia.
  rewrite splice_adjacent by lia. f_equal. rewrite <- Ec. rewrite slice_app by lia. f_equal. lia.
Qed.

Lemma Insertkv_rep d es old key value :
  internal_rep d es -> child_ok (key, value) -> internal_off N (zlen es + 1) <= zlen d -> es <> [] ->
  exists d', Insertkv N d old key value = Ret (true, d') /\
    internal_rep d' (take (child_slot old es) es ++ (key, value) :: drop (child_slot old es) es) /\
    same_header 24 d d' /\ zlen d' = zlen d.
Proof.
  intros R Hx Hroom Hne. pose proof R as [RC RE]. pose proof internal_pair_pos as Hpos.
  assert (Hlen : (1 <= length es)%nat) by (destruct es; [done|simpl; lia]).
  assert (Hslot : (child_slot old es <= length es)%nat).
  { unfold child_slot. destruct (list_find _ _) as [[j y]|] eqn:E; [|lia]. apply list_find_Some in E as [E _].
    apply lookup_lt_Some in E. rewrite length_drop in E. lia. }
  assert (Hn : 0 <= Z.of_nat (child_slot old es) <= zlen es) by (unfold zlen; lia).
  pose proof (zlen_child _ Hx) as Hb. pose proof (ce_room _ _ _ _ RC) as Hcr.
  unfold Insertkv. rewrite (internal_size _ _ R).
  replace (Z.to_nat (zlen es - 1)) with (length es - 1)%nat by (unfold zlen; lia).
  pose proof (find_value_from_ok d es old 1 R Hlen) as HF. change (Z.of_nat 1) with 1 in HF. rewrite HF. cbn [obind].
  replace (match list_find _ (drop 1 es) with Some (j, _) => _ | None => 0 end) with (Z.of_nat (child_slot old es)).
  2:{ unfold child_slot. destruct (list_find _ _) as [[j y]|]; lia. }
  change (internal_off N (zlen es + 1)) with (cell_off 24 (internal_pair N) (zlen es + 1)) in Hroom.
  rewrite (shift_up_ok d (zlen es)); [|lia|lia| |lia|lia].
  2:{ replace (zlen es - 1 + 2) with (zlen es + 1) by lia. exact Hroom. }
  cbn [obind]. set (j := Z.of_nat (child_slot old es)) in *.
  destruct (set_and_count 24 _ ltac:(lia) Hpos d (zlen es) j (child_bytes (key, value)) (internal_size _ _ R) Hn ltac:(lia) Hb)
    as [HC1 HC2].
  destruct (zlen_insert_at 24 _ ltac:(lia) Hpos d (zlen es) j _ Hn Hroom Hb) as (E1 & E & E2 & E3 & E4).
  pose proof (cell_off_S 24 (internal_pair N) j) as S1. pose proof (cell_off_pos 24 _ Hpos j ltac:(lia)).
  pose proof (cell_off_le 24 _ Hpos (j + 1) (zlen es + 1) ltac:(lia)).
  destruct Hx as [Hk Hv]. cbn [fst snd] in Hk, Hv. unfold Internal_SetKeyAt, Internal_SetValueAt.
  change (internal_off N j) with (cell_off 24 (internal_pair N) j). assert (Hip : internal_pair N = N + 4) by done.
  rewrite array_write_ok by (rewrite ?Hk; lia). cbn [obind].
  rewrite array_write_ok; [|lia|rewrite zlen_splice, zlen_le_encode by (rewrite ?Hk; lia); lia].
  replace (cell_off 24 (internal_pair N) j + N) with (cell_off 24 (internal_pair N) j + zlen key) by lia.
  rewrite splice_adjacent_r by (rewrite ?Hk, ?zlen_le_encode; lia).
  change (key ++ le_encode 4 value) with (child_bytes (key, value)). cbn [obind]. rewrite HC2. cbn [obind].
  eexists. split; [done|]. split_and!.
  - split; [|rewrite Forall_app, Forall_cons; split_and!; [by apply Forall_take|by split|by apply Forall_drop]].
    rewrite fmap_app, fmap_cons, fmap_take, fmap_drop, <- (zlen_fmap child_bytes es).
    apply insert_at_cells; rewrite ?length_fmap, ?zlen_fmap; lia || done.
  - by apply same_header_insert_at.
  - done.
Qed.
End internal.

(** ** Properties *)

(** C10: on a leaf page that represents a sorted list of entries, [KeyIndex]
    returns the number of entries below the key, found by binary search, and
    [InsertKey] leaves a page that represents the list with the new entry in
    its place, still sorted, the rest of the header unchanged. Afterwards the
    key has the value inserted, or the one it had before; every key that is not
    equivalent keeps its value. *)
Theorem InsertKey_correct N (comparator : list Z -> list Z -> Z) (key_ok : list Z -> Prop)
    `{!KeyOrder comparator key_ok} (d key : list Z) (value : RID) (kvs : list entry) :
  0 < N -> leaf_rep N d kvs -> sorted (comparator := comparator) kvs -> keys_ok (key_ok := key_ok) kvs ->
  key_ok key -> entry_ok N (key, value) -> leaf_off N (zlen kvs + 1) <= zlen d ->
  (exists i, KeyIndex N comparator d key = Ret (Z.of_nat i) /\
     (forall j x, kvs !! j = Some x -> comparator x.1 key < 0 <-> (j < i)%nat)) /\
  exists d' kvs', InsertKey N comparator d key value = Ret (true, d') /\ leaf_rep N d' kvs' /\
    sorted (comparator := comparator) kvs' /\ same_header 28 d d' /\
    forall key', key_ok key' ->
      find_entry (comparator := comparator) key' kvs' =
        if comparator key key' =? 0 then Some (default value (find_entry (comparator := comparator) key kvs))
        else find_entry (comparator := comparator) key' kvs.
Proof.
  intros HN R Hs Hk Hkey Hx Hroom. split.
  - exists (rank (comparator := comparator) key kvs). split; [by apply (KeyIndex_rank N (key_ok := key_ok))|].
    intros j x Hj. split; intros Hc.
    + destruct (decide (j < rank (comparator := comparator) key kvs)%nat); [done|].
      pose proof (rank_above key kvs j x Hs Hk Hkey Hj ltac:(lia)). lia.
    + by apply (rank_below key kvs j).
  - destruct (InsertKey_rep N (key_ok := key_ok) HN d kvs key value R Hs Hk Hkey Hx Hroom) as (d' & HI & HR & HH & _).
    exists d', (insert_sorted (comparator := comparator) key value kvs). split_and!; try done.
    + by apply (insert_sorted_sorted (key_ok := key_ok)).
    + intros key' Hkey'. by apply (insert_sorted_find (key_ok := key_ok)).
Qed.

(** [DeleteKey] returns false for a key the leaf does not have and removes
    the entry when it is the last one of the leaf. For any other entry its loop
    counts down, copies the cells in front of the entry and leaves the array:
    the behaviour is undefined. *)
Theorem DeleteKey_only_last N (comparator : list Z -> list Z -> Z) (d key : list Z) (kvs : list entry) :
  0 < N -> leaf_rep N d kvs ->
  match entry_index (comparator := comparator) key kvs with
  | None => DeleteKey N comparator d key = Ret (false, d)
  | Some i =>
      if decide (S i = length kvs) then exists d', DeleteKey N comparator d key = Ret (true, d') /\ leaf_rep N d' (take i kvs)
      else DeleteKey N comparator d key = Crash
  end.
Proof.
  intros HN R. pose proof (DeleteKey_rep N (comparator := comparator) HN d kvs key R) as HD.
  destruct (entry_index key kvs) as [i|]; [|done]. case_decide; [|done]. destruct HD as (d' & HD & HR & _). eauto.
Qed.

(** On an internal page whose children are distinct, [Insertkv] puts the new
    entry behind the entry of the child that was split, when that is not the
    first one. Behind the first child it does not: the new entry goes in front
    of all entries. *)
Theorem Insertkv_correct N (d key : list Z) (es : list child) (i : nat) (old_key : list Z) (old value : Z) :
  0 < N -> internal_rep N d es -> child_ok N (key, value) -> internal_off N (zlen es + 1) <= zlen d ->
  NoDup es.*2 -> es !! i = Some (old_key, old) ->
  exists d' es', Insertkv N d old key value = Ret (true, d') /\ internal_rep N d' es' /\ same_header 24 d d' /\
    es' = if decide (i = 0%nat) then (key, value) :: es else take (S i) es ++ (key, value) :: drop (S i) es.
Proof.
  intros HN R Hx Hroom Hnd Hi.
  destruct (Insertkv_rep N HN d es old key value R Hx Hroom) as (d' & HI & HR & HH & _); [by intros ->|].
  assert (Huniq : forall j x, es !! j = Some x -> x.2 = old -> j = i).
  { intros j x Hj E. eapply (NoDup_lookup es.*2); [done| |]; rewrite list_lookup_fmap; [by rewrite Hj|rewrite Hi; cbn; congruence]. }
  exists d', (take (child_slot old es) es ++ (key, value) :: drop (child_slot old es) es).
  split_and!; try done. unfold child_slot.
  destruct (list_find (fun x => x.2 = old) (drop 1 es)) as [[j x]|] eqn:E.
  - apply list_find_Some in E as (E & Hx2 & _). rewrite lookup_drop in E.
    pose proof (Huniq _ _ E Hx2) as <-. rewrite decide_False by lia. by replace (j + 2)%nat with (S (1 + j)) by lia.
  - apply list_find_None in E. case_decide as Hi0; [done|]. exfalso. rewrite Forall_forall in E.
    apply (E (old_key, old)); [|done]. apply list_elem_of_lookup. exists (i - 1)%nat. rewrite lookup_drop.
    by replace (1 + (i - 1))%nat with i by lia.
Qed.

(** ** Examples *)

(** Keys of four bytes compared as numbers. *)
Definition number_order (a b : list Z) : Z := Z.sgn (le_decode a - le_decode b).

#[export] Instance number_order_ok : KeyOrder number_order (fun _ => True).
Proof. constructor; unfold number_order; intros; lia. Qed.

Definition demo_leaf : list Z := Leaf_Init (replicate 4096 0) 5 (-1) 10.

Definition insert_all_keys (d : list Z) (kvs : list entry) : outcome (list Z) :=
  foldl (fun d x => let* d := d in let* (_, d) := InsertKey 4 number_order d x.1 x.2 in Ret d) (Ret d) kvs.

Definition demo_entries : list entry := [([3; 0; 0; 0], mkRID 1 2); ([7; 0; 0; 0], mkRID 3 4)].
Definition demo_page : list Z :=
  match insert_all_keys demo_leaf (rev demo_entries) with Ret d => d | _ => [] end.

Lemma demo_page_rep : leaf_rep 4 demo_page demo_entries.
Proof.
  split; [constructor|].
  - vm_compute. reflexivity.
  - split; vm_compute; [discriminate|reflexivity].
  - intros [|[|i]] x Hx; try done; injection Hx as <-; vm_compute; reflexivity.
  - repeat constructor.
  - repeat constructor; vm_compute; done.
Defined.

Lemma InsertKey_correct_witness :
  exists d', InsertKey 4 number_order demo_page [5; 0; 0; 0] (mkRID 9 9) = Ret (true, d') /\
    exists kvs', leaf_rep 4 d' kvs' /\ find_entry (comparator := number_order) [5; 0; 0; 0] kvs' = Some (mkRID 9 9).
Proof.
  destruct (InsertKey_correct 4 number_order (fun _ => True) demo_page [5; 0; 0; 0] (mkRID 9 9) demo_entries)
    as [_ (d' & kvs' & HI & HR & _ & _ & HF)].
  - lia.
  - exact demo_page_rep.
  - repeat constructor.
  - repeat constructor.
  - exact I.
  - split; [reflexivity|split; vm_compute; split; discriminate || reflexivity].
  - vm_compute. discriminate.
  - exists d'. split; [exact HI|]. exists kvs'. split; [exact HR|]. rewrite HF by exact I. reflexivity.
Defined.

Lemma DeleteKey_only_last_witness : DeleteKey 4 number_order demo_page [3; 0; 0; 0] = Crash.
Proof. exact (DeleteKey_only_last 4 number_order demo_page [3; 0; 0; 0] demo_entries ltac:(lia) demo_page_rep). Defined.

Definition demo_children : list child := [([0; 0; 0; 0], 11); ([5; 0; 0; 0], 12)].
Definition demo_internal : list Z :=
  match (let* d := Internal_SetAllAt 4 (Internal_Init (replicate 4096 0) 5 (-1) 10) 1 [5; 0; 0; 0] 12 in
         let* d := Internal_SetValueAt 4 d 0 11 in Ret (SetSize d 2)) with Ret d => d | _ => [] end.

Lemma demo_internal_rep : internal_rep 4 demo_internal demo_children.
Proof.
  split; [constructor|].
  - vm_compute. reflexivity.
  - split; vm_compute; [discriminate|reflexivity].
  - intros [|[|i]] x Hx; try done; injection Hx as <-; vm_compute; reflexivity.
  - repeat constructor.
  - repeat constructor; vm_compute; done.
Defined.

(** The first child, 11, splits into 11 and 13: the entry of 13 is put first. *)
Lemma Insertkv_correct_witness :
  exists d', Insertkv 4 demo_internal 11 [2; 0; 0; 0] 13 = Ret (true, d') /\
    internal_rep 4 d' (([2; 0; 0; 0], 13) :: demo_children).
Proof.
  destruct (Insertkv_correct 4 demo_internal [2; 0; 0; 0] demo_children 0 [0; 0; 0; 0] 11 13) as (d' & es' & HI & HR & _ & E).
  - lia.
  - exact demo_internal_rep.
  - split; [reflexivity|vm_compute; split; discriminate || reflexivity].
  - vm_compute. discriminate.
  - vm_compute. repeat constructor; set_solver.
  - reflexivity.
  - exists d'. split; [exact HI|]. rewrite decide_True in E by reflexivity. subst es'. exact HR.
Defined.
