(* ===== verification/CStd.v ===== *)
(** * The C++ standard library, as far as the value system uses it

    Strings are lists of bytes. [std::to_string], [std::stoi], [std::stoll]
    and [std::stod] are written out for the "C" locale; a [double] is the
    IEEE binary64 number of Stdlib's [SpecFloat] (precision 53, exponent
    bound 1024, round to nearest even), with the bit pattern it has in
    memory. *)

From Stdlib Require Import SpecFloat Ascii String.
From S2P Require Import Prelude.
Local Open Scope Z_scope.
Local Open Scope bustub_scope.

(** ** Strings *)

Fixpoint str (s : string) : list Z :=
  match s with
  | EmptyString => []
  | String a s => Z.of_nat (nat_of_ascii a) :: str s
  end.

Definition isspace (c : Z) : bool := (c =? 32) || ((9 <=? c) && (c <=? 13)).
Definition isdigit (c : Z) : bool := (48 <=? c) && (c <=? 57).
Definition tolower (c : Z) : Z := if (65 <=? c) && (c <=? 90) then c + 32 else c.

(** *** [std::to_string] on integers *)

Fixpoint dec_digits (fuel : nat) (n : Z) (acc : list Z) : list Z :=
  match fuel with
  | O => acc
  | S f =>
      let acc := (48 + n mod 10) :: acc in
      if n / 10 =? 0 then acc else dec_digits f (n / 10) acc
  end.

(** A number has at most as many decimal as binary digits. *)
Definition dec_string (n : Z) : list Z := dec_digits (S (Z.to_nat (Z.log2 n))) n [].

Definition to_string (z : Z) : list Z :=
  if z <? 0 then 45 :: dec_string (- z) else dec_string z.

(** *** [strtol] in base 10: white space, a sign, digits; [None] when there is no digit *)

Fixpoint skip_space (l : list Z) : list Z :=
  match l with
  | c :: t => if isspace c then skip_space t else l
  | [] => []
  end.

Definition read_sign (l : list Z) : bool * list Z :=
  match l with
  | c :: t => if c =? 45 then (true, t) else if c =? 43 then (false, t) else (false, l)
  | [] => (false, [])
  end.

Fixpoint read_digits (acc : Z) (l : list Z) : Z * list Z :=
  match l with
  | c :: t => if isdigit c then read_digits (10 * acc + (c - 48)) t else (acc, l)
  | [] => (acc, [])
  end.

Definition strtol (s : list Z) : option Z :=
  let '(neg, l) := read_sign (skip_space s) in
  match l with
  | c :: _ => if isdigit c then let n := (read_digits 0 l).1 in Some (if neg : bool then - n else n) else None
  | [] => None
  end.

Definition sto (w : Z) (s : list Z) : result Z :=
  match strtol s with
  | None => Throw InvalidArgument
  | Some z => if (- 2 ^ (w - 1) <=? z) && (z <? 2 ^ (w - 1)) then Ok z else Throw StdOutOfRange
  end.

Definition stoi : list Z -> result Z := sto 32.
Definition stoll : list Z -> result Z := sto 64.

(** [try { .. } catch (std::out_of_range &e) { throw Exception(OUT_OF_RANGE) }] *)
Definition catch_out_of_range {A} (r : result A) : result A :=
  match r with Throw StdOutOfRange => Throw OutOfRange | _ => r end.

(** [catch (std::invalid_argument &e) { throw Exception("Invalid input syntax ..") }] *)
Definition catch_invalid_argument {A} (r : result A) : result A :=
  match r with Throw InvalidArgument => Throw EMessage | _ => r end.

(** ** Doubles *)

Abbreviation double := spec_float.
Definition dadd : double -> double -> double := SFadd 53 1024.
Definition dsub : double -> double -> double := SFsub 53 1024.
Definition dmul : double -> double -> double := SFmul 53 1024.
Definition ddiv : double -> double -> double := SFdiv 53 1024.
Definition dsqrt : double -> double := SFsqrt 53 1024.
Definition deqb : double -> double -> bool := SFeqb.
Definition dltb : double -> double -> bool := SFltb.
Definition dleb : double -> double -> bool := SFleb.

(** [static_cast<double>(z)] *)
Definition of_int (z : Z) : double := binary_normalize 53 1024 z 0 false.

Definition DBL_MAX : double := S754_finite false (2 ^ 53 - 1) 971.
Definition DBL_LOWEST : double := S754_finite true (2 ^ 53 - 1) 971.
Definition FLT_LOWEST : double := S754_finite true ((2 ^ 24 - 1) * 2 ^ 29) 75.

(** The integer part, towards zero. *)
Definition trunc_Z (d : double) : option Z :=
  match d with
  | S754_zero _ => Some 0
  | S754_finite s m e =>
      let a := if 0 <=? e then Z.pos m * 2 ^ e else Z.pos m / 2 ^ (- e) in
      Some (if s then - a else a)
  | S754_infinity _ | S754_nan => None
  end.

(** [std::trunc] *)
Definition dtrunc (d : double) : double :=
  match d with
  | S754_finite s m e =>
      if 0 <=? e then d
      else let a := Z.pos m / 2 ^ (- e) in binary_normalize 53 1024 (if s then - a else a) 0 s
  | _ => d
  end.

(** [static_cast<intN_t>(d)]: undefined when the integer part does not fit. *)
Definition to_int (w : Z) (d : double) : result Z :=
  match trunc_Z d with
  | Some z => if (- 2 ^ (w - 1) <=? z) && (z <? 2 ^ (w - 1)) then Ok z else Throw Undefined
  | None => Throw Undefined
  end.

(** The 64 bits of a double in memory, and back. *)
Definition double_bits (d : double) : Z :=
  let sign (s : bool) := if s then 2 ^ 63 else 0 in
  match d with
  | S754_zero s => sign s
  | S754_infinity s => sign s + 2047 * 2 ^ 52
  | S754_nan => 2047 * 2 ^ 52 + 2 ^ 51
  | S754_finite s m e =>
      if Z.pos m <? 2 ^ 52 then sign s + Z.pos m
      else sign s + (e + 1075) * 2 ^ 52 + (Z.pos m - 2 ^ 52)
  end.

Definition bits_double (b : Z) : double :=
  let s := 2 ^ 63 <=? b in
  let ex := (b / 2 ^ 52) mod 2048 in
  let fr := b mod 2 ^ 52 in
  if ex =? 2047 then (if fr =? 0 then S754_infinity s else S754_nan)
  else if ex =? 0 then (if fr =? 0 then S754_zero s else S754_finite s (Z.to_pos fr) (-1074))
  else S754_finite s (Z.to_pos (fr + 2 ^ 52)) (ex - 1075).

(** [std::to_string(double)], that is [printf("%f")]: six decimals, the last
    one rounded half to even on the exact value. *)
Definition round_half_even (n d : Z) : Z :=
  let q := n / d in let r := n mod d in
  if (2 * r <? d) || ((2 * r =? d) && Z.even q) then q else q + 1.

Definition pad_zero (n : nat) (l : list Z) : list Z := replicate (n - length l) 48 ++ l.

Definition dto_string (d : double) : list Z :=
  let sign (s : bool) := if s then [45] else [] in
  let fixed6 q := dec_string (q / 10 ^ 6) ++ 46 :: pad_zero 6 (dec_string (q mod 10 ^ 6)) in
  match d with
  | S754_zero s => sign s ++ fixed6 0
  | S754_infinity s => sign s ++ str "inf"
  | S754_nan => str "nan"
  | S754_finite s m e =>
      sign s ++ fixed6 (if 0 <=? e then Z.pos m * 2 ^ e * 10 ^ 6
                        else round_half_even (Z.pos m * 10 ^ 6) (2 ^ (- e)))
  end.

(** *** [std::stod]: [strtod] on a decimal, hexadecimal, infinite or NaN numeral *)

Definition dec_digit (c : Z) : option Z := if isdigit c then Some (c - 48) else None.
Definition hex_digit (c : Z) : option Z :=
  if isdigit c then Some (c - 48)
  else if (97 <=? tolower c) && (tolower c <=? 102) then Some (tolower c - 87) else None.

(** Value, number of digits read, rest. *)
Fixpoint read_base (base : Z) (digit : Z -> option Z) (acc n : Z) (l : list Z) : Z * Z * list Z :=
  match l with
  | c :: t =>
      match digit c with
      | Some d => read_base base digit (base * acc + d) (n + 1) t
      | None => (acc, n, l)
      end
  | [] => (acc, n, [])
  end.

(** Digits, an optional point and digits: mantissa, digits after the point, rest. *)
Definition read_mantissa (base : Z) (digit : Z -> option Z) (l : list Z) : option (Z * Z * list Z) :=
  let '(m, n, l1) := read_base base digit 0 0 l in
  let '(m, n, f, l2) :=
    match l1 with
    | 46 :: t => let '(m', f, l2) := read_base base digit m 0 t in (m', n + f, f, l2)
    | _ => (m, n, 0, l1)
    end in
  if n =? 0 then None else Some (m, f, l2).

(** The exponent after the letter [mark], zero when there is none. *)
Definition read_exponent (mark : Z) (l : list Z) : Z :=
  match l with
  | c :: t =>
      if tolower c =? mark then
        let '(neg, t) := read_sign t in
        let x := (read_digits 0 t).1 in if neg : bool then - x else x
      else 0
  | [] => 0
  end.

Definition pow_rat (b x : Z) : Z * Z := if 0 <=? x then (b ^ x, 1) else (1, b ^ (- x)).

Definition round_rat (emax : Z) (s : bool) (n d : Z) : double :=
  if n =? 0 then S754_zero s
  else let '(q, e, l) := SFdiv_core_binary 53 emax n 0 d 0 in binary_round_aux 53 emax s q e l.

(** [errno == ERANGE]: overflow, or an inexact result below the normal range. *)
Definition rat_erange (n d : Z) : bool :=
  match round_rat 1024 false n d with
  | S754_infinity _ => true
  | r =>
      let exact :=
        match r with
        | S754_finite _ m e => let '(p, q) := pow_rat 2 e in Z.pos m * p * d =? n * q
        | _ => n =? 0
        end in
      let tiny :=
        match round_rat (2 ^ 20) false n d with
        | S754_finite _ m e => Z.log2 (Z.pos m) + e <? -1022
        | _ => true
        end in
      negb exact && tiny
  end.

Definition rat_double (s : bool) (n d : Z) : result double :=
  if rat_erange n d then Throw StdOutOfRange else Ok (round_rat 1024 s n d).

Definition starts_with (p l : list Z) : bool := bool_decide (take (length p) (tolower <$> l) = p).

Definition stod (str_ : list Z) : result double :=
  let '(s, l) := read_sign (skip_space str_) in
  let decimal :=
    match read_mantissa 10 dec_digit l with
    | Some (m, f, l') =>
        let '(p, q) := pow_rat 10 (read_exponent 101 l' - f) in rat_double s (m * p) q
    | None => Throw InvalidArgument
    end in
  if starts_with (str "inf") l then Ok (S754_infinity s)
  else if starts_with (str "nan") l then Ok S754_nan
  else if starts_with (str "0x") l then
    match read_mantissa 16 hex_digit (drop 2 l) with
    | Some (m, f, l') =>
        let '(p, q) := pow_rat 2 (read_exponent 112 l' - 4 * f) in rat_double s (m * p) q
    | None => decimal
    end
  else decimal.

Example stod_tenth : stod (str "-0.1e0x") = Ok (S754_finite true 7205759403792794 (-56)).
Proof. vm_compute. reflexivity. Qed.
Example stod_hex : stod (str " 0x1.8p1") = Ok (of_int 3).
Proof. vm_compute. reflexivity. Qed.
Example stod_range : stod (str "1e309") = Throw StdOutOfRange /\ stod (str "4e-320") = Throw StdOutOfRange.
Proof. vm_compute. split; reflexivity. Qed.
Example stod_lowest : stod (str "-3.4028234663852886e38") = Ok FLT_LOWEST.
Proof. vm_compute. reflexivity. Qed.
Example dto_string_sample : dto_string (ddiv (of_int (-17)) (of_int 8)) = str "-2.125000".
Proof. vm_compute. reflexivity. Qed.

(** ** Facts *)

Lemma catch_out_of_range_Ok {A} (a : A) : catch_out_of_range (Ok a) = Ok a.
Proof. reflexivity. Qed.

(** Division and remainder by constants inside [lia]. *)
Ltac zlia := Z.to_euclidean_division_equations; lia.

(** *** Printing and reading back an integer *)

Definition digit_ok (c : Z) : Prop := 48 <= c <= 57.

Lemma isdigit_spec c : isdigit c = true <-> digit_ok c.
Proof. unfold isdigit, digit_ok. lia. Qed.

(** [read_digits] on the digits of [n] followed by [acc]. *)
Lemma dec_digits_ok fuel n acc :
  0 <= n < 2 ^ Z.of_nat fuel -> Forall digit_ok acc -> (0 < fuel)%nat ->
  exists ds, dec_digits fuel n acc = ds ++ acc /\ ds <> [] /\ Forall digit_ok ds /\
    forall a t, read_digits a (ds ++ t) = read_digits (a * 10 ^ zlen ds + n) t.
Proof.
  revert n acc. induction fuel as [|fuel IH]; intros n acc Hn Ha Hf; [lia|].
  assert (Hd : digit_ok (48 + n mod 10)) by (unfold digit_ok; zlia).
  cbn [dec_digits]. destruct (Z.eqb_spec (n / 10) 0) as [Hz|Hz].
  - exists [48 + n mod 10]. split_and!; [done|done|by constructor|]. intros a t.
    cbn [app read_digits]. rewrite (proj2 (isdigit_spec _) Hd). f_equal. unfold zlen. simpl. zlia.
  - assert (n / 10 < 2 ^ Z.of_nat fuel).
    { rewrite Nat2Z.inj_succ, Z.pow_succ_r in Hn by lia. zlia. }
    destruct (IH (n / 10) ((48 + n mod 10) :: acc)) as (ds & -> & Hne & Hds & Hr).
    + zlia.
    + by constructor.
    + destruct fuel; [simpl in *; zlia|lia].
    + exists (ds ++ [48 + n mod 10]). split_and!.
      * by rewrite <- app_assoc.
      * by destruct ds.
      * rewrite Forall_app. split; [done|by constructor].
      * intros a t. rewrite <- app_assoc, Hr. cbn [app read_digits].
        rewrite (proj2 (isdigit_spec _) Hd). f_equal.
        unfold zlen. rewrite length_app, Nat2Z.inj_add, Z.pow_add_r by lia. simpl Z.of_nat.
        change (10 ^ 1) with 10. zlia.
Qed.

Lemma dec_string_ok n :
  0 <= n -> exists c t, dec_string n = c :: t /\ Forall digit_ok (c :: t) /\ (read_digits 0 (c :: t)).1 = n.
Proof.
  intros Hn. unfold dec_string.
  destruct (dec_digits_ok (S (Z.to_nat (Z.log2 n))) n []) as (ds & -> & Hne & Hds & Hr); [|done|lia|].
  - split; [done|]. destruct (Z.eq_dec n 0) as [->|]; [done|].
    replace (Z.of_nat (S (Z.to_nat (Z.log2 n)))) with (Z.succ (Z.log2 n)) by (pose proof (Z.log2_nonneg n); lia).
    apply Z.log2_spec. lia.
  - destruct ds as [|c t]; [done|]. exists c, t. rewrite app_nil_r. split_and!; [done|done|].
    specialize (Hr 0 []). rewrite app_nil_r in Hr. rewrite Hr. done.
Qed.

Lemma strtol_to_string z : strtol (to_string z) = Some z.
Proof.
  unfold strtol, to_string. destruct (Z.ltb_spec z 0).
  - destruct (dec_string_ok (- z)) as (c & t & -> & Hd & Hr); [lia|].
    change (read_sign (skip_space (45 :: c :: t))) with (true, c :: t). cbn iota beta.
    apply Forall_cons in Hd as [Hc _]. rewrite (proj2 (isdigit_spec _) Hc), Hr. f_equal. lia.
  - destruct (dec_string_ok z) as (c & t & -> & Hd & Hr); [lia|].
    apply Forall_cons in Hd as [Hc _].
    assert (isspace c = false) as Hs by (unfold isspace, digit_ok in *; lia).
    cbn [skip_space]. rewrite Hs. cbn [read_sign].
    replace (c =? 45) with false by (unfold digit_ok in *; lia).
    replace (c =? 43) with false by (unfold digit_ok in *; lia).
    by rewrite (proj2 (isdigit_spec _) Hc), Hr.
Qed.

Lemma sto_to_string w z : sfits w z -> sto w (to_string z) = Ok z.
Proof.
  intros Hz. unfold sto. rewrite strtol_to_string. unfold sfits in Hz.
  destruct (andb_true_iff (- 2 ^ (w - 1) <=? z) (z <? 2 ^ (w - 1))) as [_ H]. rewrite H; [done|].
  split; [apply Z.leb_le|apply Z.ltb_lt]; apply Hz.
Qed.

(** *** The bits of a double *)

Lemma digits2_pos_bounds m : 2 ^ (Z.pos (digits2_pos m) - 1) <= Z.pos m < 2 ^ Z.pos (digits2_pos m).
Proof.
  induction m as [m IH|m IH|]; cbn [digits2_pos]; [| |simpl; lia];
    rewrite Pos2Z.inj_succ; replace (Z.succ (Z.pos (digits2_pos m)) - 1) with (Z.pos (digits2_pos m)) by lia;
    rewrite (Z.pow_succ_r 2 (Z.pos (digits2_pos m))) by lia;
    rewrite (pow_split (Z.pos (digits2_pos m))) in * by lia; lia.
Qed.

Definition valid_double (d : double) : Prop := valid_binary 53 1024 d = true.

Lemma valid_finite s m e :
  valid_double (S754_finite s m e) ->
  (2 ^ 52 <= Z.pos m < 2 ^ 53 /\ -1074 <= e <= 971) \/ (0 < Z.pos m < 2 ^ 52 /\ e = -1074).
Proof.
  unfold valid_double, valid_binary, bounded, canonical_mantissa, fexp, emin. intros [Hc He]%andb_true_iff.
  apply Z.eqb_eq in Hc. apply Z.leb_le in He. pose proof (digits2_pos_bounds m) as Hb.
  set (p := Z.pos (digits2_pos m)) in *.
  destruct (Z.eq_dec p 53) as [->|Hp]; [left; simpl in *; lia|right].
  assert (e = -1074 /\ p <= 52) as [-> Hp'] by lia. split; [|done].
  split; [lia|]. assert (2 ^ p <= 2 ^ 52) by (apply Z.pow_le_mono_r; lia). lia.
Qed.

Lemma double_bits_bound d : valid_double d -> ufits 64 (double_bits d).
Proof.
  unfold ufits. destruct d as [s|s| |s m e]; intros Hd; cbn [double_bits].
  1-3: try destruct s; lia.
  apply valid_finite in Hd. destruct (Z.ltb_spec (Z.pos m) (2 ^ 52)); destruct s; lia.
Qed.

Lemma bits_double_bits d : valid_double d -> bits_double (double_bits d) = d.
Proof.
  destruct d as [s|s| |s m e]; intros Hd; [by destruct s|by destruct s|by vm_compute|].
  apply valid_finite in Hd. cbn [double_bits].
  destruct (Z.ltb_spec (Z.pos m) (2 ^ 52)) as [Hm|Hm]; unfold bits_double.
  - destruct Hd as [Hd|[_ ->]]; [lia|].
    replace (((if s then 2 ^ 63 else 0) + Z.pos m) / 2 ^ 52) with (if s then 2048 else 0)
      by (destruct s; zlia).
    replace (((if s then 2 ^ 63 else 0) + Z.pos m) mod 2 ^ 52) with (Z.pos m) by (destruct s; zlia).
    replace (2 ^ 63 <=? (if s then 2 ^ 63 else 0) + Z.pos m) with s by (destruct s; zlia).
    by destruct s.
  - destruct Hd as [[Hm' He]|[]]; [|lia].
    set (b := (if s then 2 ^ 63 else 0) + (e + 1075) * 2 ^ 52 + (Z.pos m - 2 ^ 52)).
    assert (Hq : b / 2 ^ 52 = (if s then 2048 else 0) + (e + 1075)) by (subst b; destruct s; zlia).
    assert (Hr : b mod 2 ^ 52 = Z.pos m - 2 ^ 52) by (subst b; destruct s; zlia).
    replace (2 ^ 63 <=? b) with s by (subst b; destruct s; zlia).
    rewrite Hq, Hr. replace (((if s then 2048 else 0) + (e + 1075)) mod 2048) with (e + 1075) by (destruct s; zlia).
    replace (e + 1075 =? 2047) with false by lia. replace (e + 1075 =? 0) with false by lia.
    f_equal; [|lia]. replace (Z.pos m - 2 ^ 52 + 2 ^ 52) with (Z.pos m) by lia. done.
Qed.

Lemma deqb_refl d : deqb d d = true <-> d <> S754_nan.
Proof.
  destruct d as [[]|[]| |[] m e]; unfold deqb, SFeqb; cbn [SFcompare]; rewrite ?Z.compare_refl, ?Pos.compare_cont_refl;
    try (split; congruence); done.
Qed.
