(* ===== verification/StringUtil.v ===== *)
(** * String utilities

    [StringUtil] (src/common/util/string_util.cpp) on strings as lists of bytes,
    in the C locale. The two overloads of [Split] are [Split_char] and [Split_str].
    [Format] (a C variadic function) and [FormatSize] (decimal output of doubles)
    are left out.

    Proved: lines joined with a delimiter are split into the same lines, and
    splitting and replacing end, unless the separator is empty. *)

From Stdlib Require Import String.
From S2P Require Import Prelude.
From S2P Require Import CStd.
Local Open Scope Z_scope.
Local Open Scope bustub_scope.

(** ** Searching *)

(** Does the string start with [needle]? *)
Fixpoint is_prefix (needle hay : list Z) : bool :=
  match needle, hay with
  | [], _ => true
  | _ :: _, [] => false
  | c :: needle, d :: hay => (c =? d) && is_prefix needle hay
  end.

(** [hay.find(needle)]: the first position, or [npos]. *)
Fixpoint find (needle hay : list Z) : option nat :=
  if is_prefix needle hay then Some O
  else match hay with [] => None | _ :: hay => S <$> find needle hay end.

(** [hay.find(needle, pos)] for a position in the string. *)
Definition find_from (needle hay : list Z) (pos : nat) : option nat := (Nat.add pos) <$> find needle (drop pos hay).

Definition Contains (haystack needle : list Z) : bool :=
  match find needle haystack with Some _ => true | None => false end.

(** [std::equal(prefix.begin(), prefix.end(), str.begin())]: reads beyond the end of
    a shorter string that agrees with the prefix. *)
Fixpoint StartsWith (str prefix : list Z) {struct prefix} : result bool :=
  match prefix, str with
  | [], _ => Ok true
  | _ :: _, [] => Throw Undefined
  | c :: prefix, d :: str => if c =? d then StartsWith str prefix else Ok false
  end.

Definition EndsWith (str suffix : list Z) : bool :=
  if (length str <? length suffix)%nat then false else is_prefix (rev suffix) (rev str).

(** ** Building *)

(** Drops the trailing bytes [std::isspace] accepts. *)
Definition RTrim (s : list Z) : list Z := rev (skip_space (rev s)).

Definition Indent (num_indent : nat) : list Z := replicate num_indent 32.
Definition Repeat (s : list Z) (n : nat) : list Z := concat (replicate n s).

(** [std::getline] until the end of the stream: the text after the last delimiter
    is a line unless it is empty. *)
Fixpoint Split_char (s : list Z) (delimiter : Z) : list (list Z) :=
  match s with
  | [] => []
  | c :: s =>
      if c =? delimiter then [] :: Split_char s delimiter
      else match Split_char s delimiter with [] => [[c]] | l :: ls => (c :: l) :: ls end
  end.

Definition Join (input : list (list Z)) (separator : list Z) : list Z :=
  match input with
  | [] => []
  | s :: ss => s ++ concat ((fun s => separator ++ s) <$> ss)
  end.

Definition Prefix (s prefix : list Z) : list Z :=
  match Split_char s 10 with
  | [] => []
  | l :: ls => prefix ++ l ++ concat ((fun l => 10 :: prefix ++ l) <$> ls)
  end.

Definition Bold (s : list Z) : list Z := (27 :: str "[0;1m") ++ s ++ (27 :: str "[0;0m").

Definition toupper (c : Z) : Z := if (97 <=? c) && (c <=? 122) then c - 32 else c.
Definition Upper (s : list Z) : list Z := toupper <$> s.
Definition Lower (s : list Z) : list Z := tolower <$> s.

Definition Strip (s : list Z) (c : Z) : list Z := filter (fun d => d <> c) s.

(** The loop of [Split] from position [last] on; a unit of fuel per iteration. *)
Fixpoint split_loop (fuel : nat) (input split : list Z) (last : nat) : option (list (list Z)) :=
  match fuel with
  | O => None
  | S fuel =>
      if (length input <? last)%nat then Some []
      else
        let next := default (length input) (find_from split input last) in
        let substr := take (next - last) (drop last input) in
        rest ← split_loop fuel input split (next + length split);
        Some (if bool_decide (substr = []) then rest else substr :: rest)
  end.
Definition Split_str (fuel : nat) (input split : list Z) : option (list (list Z)) := split_loop fuel input split 0.

(** The loop of [Replace]: [source] up to [start_pos] is done. *)
Fixpoint replace_loop (fuel : nat) (source from to : list Z) (start_pos : nat) : option (list Z) :=
  match fuel with
  | O => None
  | S fuel =>
      match find_from from source start_pos with
      | None => Some source
      | Some pos =>
          replace_loop fuel (take pos source ++ to ++ drop (pos + length from) source) from to (pos + length to)
      end
  end.
Definition Replace (fuel : nat) (source from to : list Z) : option (list Z) := replace_loop fuel source from to 0.

Definition IndentAllLines (lines : list Z) (num_indent : nat) (except_first_line : bool) : list Z :=
  match Split_char lines 10 with
  | [] => []
  | l :: ls =>
      Join ((if except_first_line then l else Indent num_indent ++ l) :: ((fun l => Indent num_indent ++ l) <$> ls)) [10]
  end.

(** ** Lemmas *)

Lemma is_prefix_spec needle hay : is_prefix needle hay = true <-> exists rest, hay = needle ++ rest.
Proof.
  revert hay. induction needle as [|c n IH]; intros hay; cbn; [naive_solver|]. destruct hay as [|d hay]; [naive_solver|].
  rewrite andb_true_iff, Z.eqb_eq, IH. naive_solver.
Qed.

Lemma StartsWith_prefix prefix rest : StartsWith (prefix ++ rest) prefix = Ok true.
Proof. induction prefix as [|c p IH]; cbn; [done|]. by rewrite Z.eqb_refl. Qed.

(** [StartsWith] is defined on every string at least as long as the prefix. *)
Lemma StartsWith_spec s prefix : (length prefix <= length s)%nat -> StartsWith s prefix = Ok (is_prefix prefix s).
Proof.
  revert s. induction prefix as [|c p IH]; intros [|d s] Hl; cbn in *; try done; [lia|].
  destruct (c =? d); cbn; [|done]. apply IH. lia.
Qed.

Lemma find_bound needle hay i : find needle hay = Some i -> (i + length needle <= length hay)%nat.
Proof.
  revert i. induction hay as [|c h IH]; intros i; cbn [find]; destruct (is_prefix needle _) eqn:E.
  - intros [= <-]. apply is_prefix_spec in E as [r ->]. rewrite length_app. lia.
  - done.
  - intros [= <-]. apply is_prefix_spec in E as [r ->]. rewrite length_app. lia.
  - destruct (find needle h) as [j|] eqn:Ej; [|done]. cbn. intros [= <-]. specialize (IH j eq_refl). lia.
Qed.

Lemma find_from_bound needle hay pos i :
  (pos <= length hay)%nat -> find_from needle hay pos = Some i -> (pos <= i /\ i + length needle <= length hay)%nat.
Proof.
  unfold find_from. intros Hp. destruct (find needle (drop pos hay)) as [j|] eqn:E; [|done]. cbn. intros [= <-].
  apply find_bound in E. rewrite length_drop in E. lia.
Qed.

Lemma Split_char_no s d : d ∉ s -> s <> [] -> Split_char s d = [s].
Proof.
  induction s as [|c s IH]; [done|]. intros [Hc Hs]%not_elem_of_cons _. cbn. destruct (Z.eqb_spec c d); [congruence|].
  destruct s; [done|]. by rewrite IH.
Qed.

Lemma Split_char_app s d rest : d ∉ s -> Split_char (s ++ d :: rest) d = s :: Split_char rest d.
Proof.
  induction s as [|c s IH]; cbn; [by rewrite Z.eqb_refl|]. intros [Hc Hs]%not_elem_of_cons.
  destruct (Z.eqb_spec c d); [congruence|]. by rewrite IH.
Qed.

Lemma split_loop_ends fuel input split last :
  split <> [] -> (1 <= fuel)%nat -> (length input + 2 <= fuel + last)%nat -> is_Some (split_loop fuel input split last).
Proof.
  intros Hs. assert (1 <= length split)%nat by (destruct split; cbn; [done|lia]).
  revert last. induction fuel as [|fuel IH]; intros last H1 Hf; [lia|]. cbn [split_loop].
  destruct (Nat.ltb_spec (length input) last) as [|Hl]; [by eexists|].
  assert (last <= default (length input) (find_from split input last))%nat.
  { destruct (find_from split input last) as [i|] eqn:E; cbn; [|lia]. apply find_from_bound in E; lia. }
  set (next := default _ _) in *. destruct (IH (next + length split)%nat) as [r Hr]; [lia|lia|].
  rewrite Hr. cbn. by eexists.
Qed.

Lemma replace_loop_ends fuel source from to start_pos :
  from <> [] -> (start_pos <= length source)%nat -> (length source - start_pos < fuel)%nat ->
  is_Some (replace_loop fuel source from to start_pos).
Proof.
  intros Hs. assert (1 <= length from)%nat by (destruct from; cbn; [done|lia]).
  revert source start_pos. induction fuel as [|fuel IH]; intros source pos Hp Hf; [lia|]. cbn [replace_loop].
  destruct (find_from from source pos) as [i|] eqn:E; [|by eexists]. apply find_from_bound in E; [|done].
  apply IH; rewrite !length_app, length_take, length_drop; lia.
Qed.

Lemma find_nil hay : find [] hay = Some O.
Proof. by destruct hay. Qed.

Lemma split_loop_empty fuel input last : (last <= length input)%nat -> split_loop fuel input [] last = None.
Proof.
  intros Hl. induction fuel as [|fuel IH]; [done|]. cbn [split_loop]. destruct (Nat.ltb_spec (length input) last); [lia|].
  unfold find_from. rewrite find_nil. cbn. by rewrite !Nat.add_0_r, IH.
Qed.

Lemma replace_loop_empty fuel source to pos : replace_loop fuel source [] to pos = None.
Proof.
  revert source pos. induction fuel as [|fuel IH]; intros source pos; [done|]. cbn [replace_loop].
  unfold find_from. rewrite find_nil. apply IH.
Qed.

(** ** Properties *)

(** Lines without the delimiter, the last of them not empty, are what [Split]
    makes of the string [Join] builds from them. *)
Theorem Split_Join (lines : list (list Z)) (d : Z) :
  Forall (fun l => d ∉ l) lines -> last lines <> Some [] -> Split_char (Join lines [d]) d = lines.
Proof.
  destruct lines as [|l ls]; [done|]. revert l. induction ls as [|l' ls IH]; intros l [Hl Hls]%Forall_cons Hlast; cbn.
  - rewrite app_nil_r. apply Split_char_no; [done|]. intros ->. by apply Hlast.
  - rewrite Split_char_app by done. f_equal. by apply IH.
Qed.

(** [Split] by a string and [Replace] end when the separator is not empty: a
    number of iterations given by the length of the input is enough. With an
    empty separator they never return. *)
Theorem Split_Replace_terminate (input split to : list Z) :
  (split <> [] -> is_Some (Split_str (S (S (length input))) input split) /\
    is_Some (Replace (S (length input)) input split to)) /\
  (split = [] -> forall fuel, Split_str fuel input split = None /\ Replace fuel input split to = None).
Proof.
  split.
  - intros Hs. split; [apply split_loop_ends|apply replace_loop_ends]; (done || lia).
  - intros -> fuel. split; [apply split_loop_empty; lia|apply replace_loop_empty].
Qed.

(** ** Examples *)

Lemma Split_Join_witness : Split_char (Join [str "a"; []; str "bc"] [10]) 10 = [str "a"; []; str "bc"].
Proof. apply Split_Join; [|done]. apply (bool_decide_unpack _). vm_compute. done. Defined.

(** Quoting doubles the quotes. *)
Lemma Replace_quotes : Replace 4 (str "a'b") (str "'") (str "''") = Some (str "a''b").
Proof. reflexivity. Qed.

Lemma Split_str_sample : Split_str 10 (str "a, b,, c") (str ",") = Some [str "a"; str " b"; str " c"].
Proof. reflexivity. Qed.

(** A name that is a proper prefix of the prefix tested for is read beyond its end. *)
Lemma StartsWith_reads_past_end : StartsWith (str "_") (str "__") = Throw Undefined.
Proof. reflexivity. Qed.

Lemma IndentAllLines_sample : IndentAllLines (str "a" ++ [10] ++ str "b") 2 true = str "a" ++ [10] ++ str "  b".
Proof. reflexivity. Qed.
