(* ===== verification/Value.v ===== *)
(** * SQL values

    [Value] of src/include/type/value.h and src/type/value.cpp with the
    limits of src/include/type/limits.h, and the static parts of [Type]
    (src/type/type.cpp). The union [Val] is an inductive type whose
    constructors are the kinds of member the code stores; reading another
    member than the one stored ([GetAs]) reinterprets the bits. [manage_data_]
    and the destructor only decide who frees a string and have no counterpart:
    strings are immutable byte lists. Assertions are enabled, as in the
    default debug build. *)

From Stdlib Require Import SpecFloat String.
From S2P Require Import Prelude.
From S2P Require Import CStd.
Local Open Scope Z_scope.
Local Open Scope bustub_scope.

(** ** Type identifiers and limits *)

Inductive TypeId : Type :=
| INVALID | BOOLEAN | TINYINT | SMALLINT | INTEGER | BIGINT | DECIMAL | VARCHAR | TIMESTAMP.

#[export] Instance TypeId_eq_dec : EqDecision TypeId.
Proof. solve_decision. Defined.

Definition TypeId_eqb (a b : TypeId) : bool := bool_decide (a = b).

Inductive CmpBool : Type := CmpFalse | CmpTrue | CmpNull.

#[export] Instance CmpBool_eq_dec : EqDecision CmpBool.
Proof. solve_decision. Defined.

Definition GetCmpBool (b : bool) : CmpBool := if b then CmpTrue else CmpFalse.

Definition BUSTUB_INT8_MIN : Z := - 2 ^ 7 + 1.
Definition BUSTUB_INT16_MIN : Z := - 2 ^ 15 + 1.
Definition BUSTUB_INT32_MIN : Z := - 2 ^ 31 + 1.
Definition BUSTUB_INT64_MIN : Z := - 2 ^ 63 + 1.
Definition BUSTUB_DECIMAL_MIN : double := FLT_LOWEST.

Definition BUSTUB_INT8_MAX : Z := 2 ^ 7 - 1.
Definition BUSTUB_INT16_MAX : Z := 2 ^ 15 - 1.
Definition BUSTUB_INT32_MAX : Z := 2 ^ 31 - 1.
Definition BUSTUB_INT64_MAX : Z := 2 ^ 63 - 1.
Definition BUSTUB_DECIMAL_MAX : double := DBL_MAX.
Definition BUSTUB_TIMESTAMP_MAX : Z := 11231999986399999999.

Definition BUSTUB_VALUE_NULL : Z := 2 ^ 32 - 1.
Definition BUSTUB_INT8_NULL : Z := - 2 ^ 7.
Definition BUSTUB_INT16_NULL : Z := - 2 ^ 15.
Definition BUSTUB_INT32_NULL : Z := - 2 ^ 31.
Definition BUSTUB_INT64_NULL : Z := - 2 ^ 63.
Definition BUSTUB_TIMESTAMP_NULL : Z := 2 ^ 64 - 1.
Definition BUSTUB_DECIMAL_NULL : double := DBL_LOWEST.
Definition BUSTUB_BOOLEAN_NULL : Z := - 2 ^ 7.
Definition BUSTUB_VARCHAR_MAX_LEN : Z := 2 ^ 32 - 1.

(** ** Values *)

Inductive Val : Type :=
| NoVal                              (* not initialised *)
| IntVal (z : Z)                     (* boolean_ .. bigint_, timestamp_ *)
| DoubleVal (d : double)             (* decimal_ *)
| VarlenVal (data : option (list Z)) (* varlen_; [None] is the null pointer *).

Record Value : Type := mkValue {
  type_id_ : TypeId;
  value_ : Val;
  len_ : Z;
}.

Definition IsNull (v : Value) : bool := len_ v =? BUSTUB_VALUE_NULL.

(** The C++ integer types the templates are instantiated with. *)
Inductive ity : Type := int8_t | int16_t | int32_t | int64_t.
Definition bits (T : ity) : Z :=
  match T with int8_t => 8 | int16_t => 16 | int32_t => 32 | int64_t => 64 end.

(** The 64 bits of the union; a pointer has no value the code could use. *)
Definition raw (v : Value) : Z :=
  match value_ v with
  | IntVal z => z
  | DoubleVal d => double_bits d
  | _ => 0
  end.

(** [GetAs<T>()] *)
Definition GetAs (T : ity) (v : Value) : Z := swrap (bits T) (raw v).
Definition GetAs_uint64 (v : Value) : Z := uwrap 64 (raw v).
Definition GetAs_double (v : Value) : double :=
  match value_ v with DoubleVal d => d | _ => bits_double (uwrap 64 (raw v)) end.

Definition null_len (b : bool) : Z := if b then BUSTUB_VALUE_NULL else 0.

(** [value_.m = i; size_.len_ = (value_.m == null ? BUSTUB_VALUE_NULL : 0)]
    for a member [m] of [w] bits. *)
Definition set_int (type : TypeId) (w null i : Z) : Value :=
  mkValue type (IntVal (swrap w i)) (null_len (swrap w i =? null)).
Definition set_timestamp (i : Z) : Value :=
  mkValue TIMESTAMP (IntVal (uwrap 64 i)) (null_len (uwrap 64 i =? BUSTUB_TIMESTAMP_NULL)).

Definition Value_int8 (type : TypeId) (i : Z) : result Value :=
  match type with
  | BOOLEAN => Ok (set_int type 8 BUSTUB_BOOLEAN_NULL i)
  | TINYINT => Ok (set_int type 8 BUSTUB_INT8_NULL i)
  | SMALLINT => Ok (set_int type 16 BUSTUB_INT16_NULL i)
  | INTEGER => Ok (set_int type 32 BUSTUB_INT32_NULL i)
  | BIGINT => Ok (set_int type 64 BUSTUB_INT64_NULL i)
  | _ => Throw IncompatibleType
  end.

Definition Value_int16 (type : TypeId) (i : Z) : result Value :=
  match type with
  | BOOLEAN => Ok (set_int type 8 BUSTUB_BOOLEAN_NULL i)
  | TINYINT => Ok (set_int type 8 BUSTUB_INT8_NULL i)
  | SMALLINT => Ok (set_int type 16 BUSTUB_INT16_NULL i)
  | INTEGER => Ok (set_int type 32 BUSTUB_INT32_NULL i)
  | BIGINT => Ok (set_int type 64 BUSTUB_INT64_NULL i)
  | TIMESTAMP => Ok (set_timestamp i)
  | _ => Throw IncompatibleType
  end.

Definition Value_int32 (type : TypeId) (i : Z) : result Value :=
  match type with
  | BOOLEAN => Ok (set_int type 8 BUSTUB_BOOLEAN_NULL i)
  | TINYINT => Ok (set_int type 8 BUSTUB_INT8_NULL i)
  | SMALLINT => Ok (set_int type 16 BUSTUB_INT16_NULL i)
  | INTEGER => Ok (set_int type 32 BUSTUB_INT32_NULL i)
  | BIGINT => Ok (set_int type 64 BUSTUB_INT64_NULL i)
  | TIMESTAMP => Ok (set_timestamp i)
  | _ => Throw IncompatibleType
  end.

Definition Value_int64 (type : TypeId) (i : Z) : result Value :=
  match type with
  | BOOLEAN => Ok (set_int type 8 BUSTUB_BOOLEAN_NULL i)
  | TINYINT => Ok (set_int type 8 BUSTUB_INT8_NULL i)
  | SMALLINT => Ok (set_int type 16 BUSTUB_INT16_NULL i)
  | INTEGER => Ok (set_int type 32 BUSTUB_INT32_NULL i)
  | BIGINT => Ok (set_int type 64 BUSTUB_INT64_NULL i)
  | TIMESTAMP => Ok (set_timestamp i)
  | _ => Throw IncompatibleType
  end.

Definition Value_uint64 (type : TypeId) (i : Z) : result Value :=
  match type with
  | BIGINT => Ok (set_int type 64 BUSTUB_INT64_NULL i)
  | TIMESTAMP => Ok (set_timestamp i)
  | _ => Throw IncompatibleType
  end.

(** Overload resolution on the static type of the second argument. *)
Definition Value_int (T : ity) : TypeId -> Z -> result Value :=
  match T with
  | int8_t => Value_int8
  | int16_t => Value_int16
  | int32_t => Value_int32
  | int64_t => Value_int64
  end.

Definition Value_double (type : TypeId) (d : double) : result Value :=
  match type with
  | DECIMAL => Ok (mkValue type (DoubleVal d) (null_len (deqb d BUSTUB_DECIMAL_NULL)))
  | _ => Throw IncompatibleType
  end.

(** [Value(type, data, len, manage_data)]; [data] is the memory from the
    pointer on. A managed string is copied, which reads [len] bytes. *)
Definition Value_varlen (type : TypeId) (data : option (list Z)) (len : Z) (manage_data : bool) : result Value :=
  match type with
  | VARCHAR =>
      match data with
      | None => Ok (mkValue type (VarlenVal None) BUSTUB_VALUE_NULL)
      | Some bytes =>
          if manage_data then
            if negb (len <? BUSTUB_VARCHAR_MAX_LEN) then Throw AssertFailed
            else if zlen bytes <? len then Throw Undefined
            else Ok (mkValue type (VarlenVal (Some (slice 0 len bytes))) len)
          else Ok (mkValue type (VarlenVal (Some bytes)) len)
      end
  | _ => Throw IncompatibleType
  end.

(** [Value(type, std::string)]: the bytes and the terminating zero of [c_str]. *)
Definition Value_string (type : TypeId) (data : list Z) : result Value :=
  match type with
  | VARCHAR =>
      let len := uwrap 32 (zlen data + 1) in
      Ok (mkValue type (VarlenVal (Some (slice 0 len (data ++ [0])))) len)
  | _ => Throw IncompatibleType
  end.

(** [Value(const Value &other)] *)
Definition Value_copy (v : Value) : Value :=
  match type_id_ v with
  | VARCHAR => if len_ v =? BUSTUB_VALUE_NULL then mkValue VARCHAR (VarlenVal None) (len_ v) else v
  | _ => v
  end.

Definition CheckComparable (v o : Value) : bool :=
  match type_id_ v with
  | BOOLEAN => match type_id_ o with BOOLEAN | VARCHAR => true | _ => false end
  | TINYINT | SMALLINT | INTEGER | BIGINT | DECIMAL =>
      match type_id_ o with
      | TINYINT | SMALLINT | INTEGER | BIGINT | DECIMAL | VARCHAR => true
      | _ => false
      end
  | VARCHAR => true
  | _ => false
  end.

Definition CheckInteger (v : Value) : bool :=
  match type_id_ v with TINYINT | SMALLINT | INTEGER | BIGINT => true | _ => false end.

Definition massert {A} (b : bool) (k : result A) : result A := if b then k else Throw AssertFailed.
Notation "'assert!' b ; k" := (massert b k) (at level 10, b at level 100, k at level 200) : bustub_scope.

(** ** [Type]: the static functions and the table of instances *)

Definition GetTypeSize (type_id : TypeId) : result Z :=
  match type_id with
  | BOOLEAN | TINYINT => Ok 1
  | SMALLINT => Ok 2
  | INTEGER => Ok 4
  | BIGINT | DECIMAL | TIMESTAMP => Ok 8
  | VARCHAR => Ok 0
  | INVALID => Throw UnknownType
  end.

Definition IsCoercableFrom (self type_id : TypeId) : bool :=
  match self with
  | INVALID => false
  | BOOLEAN => true
  | TINYINT | SMALLINT | INTEGER | BIGINT | DECIMAL =>
      match type_id with
      | TINYINT | SMALLINT | INTEGER | BIGINT | DECIMAL | VARCHAR => true
      | _ => false
      end
  | TIMESTAMP => match type_id with VARCHAR | TIMESTAMP => true | _ => false end
  | VARCHAR => match type_id with INVALID => false | _ => true end
  end.

Definition TypeIdToString (type_id : TypeId) : list Z :=
  str match type_id with
      | INVALID => "INVALID" | BOOLEAN => "BOOLEAN" | TINYINT => "TINYINT" | SMALLINT => "SMALLINT"
      | INTEGER => "INTEGER" | BIGINT => "BIGINT" | DECIMAL => "DECIMAL" | TIMESTAMP => "TIMESTAMP"
      | VARCHAR => "VARCHAR"
      end.

Definition GetMinValue (type_id : TypeId) : result Value :=
  match type_id with
  | BOOLEAN => Value_int32 type_id 0
  | TINYINT => Value_int8 type_id BUSTUB_INT8_MIN
  | SMALLINT => Value_int16 type_id BUSTUB_INT16_MIN
  | INTEGER => Value_int32 type_id BUSTUB_INT32_MIN
  | BIGINT => Value_int64 type_id BUSTUB_INT64_MIN
  | DECIMAL => Value_double type_id BUSTUB_DECIMAL_MIN
  | TIMESTAMP => Value_int32 type_id 0
  | VARCHAR => Value_string type_id []
  | INVALID => Throw MismatchType
  end.

Definition GetMaxValue (type_id : TypeId) : result Value :=
  match type_id with
  | BOOLEAN => Value_int32 type_id 1
  | TINYINT => Value_int8 type_id BUSTUB_INT8_MAX
  | SMALLINT => Value_int16 type_id BUSTUB_INT16_MAX
  | INTEGER => Value_int32 type_id BUSTUB_INT32_MAX
  | BIGINT => Value_int64 type_id BUSTUB_INT64_MAX
  | DECIMAL => Value_double type_id BUSTUB_DECIMAL_MAX
  | TIMESTAMP => Value_uint64 type_id BUSTUB_TIMESTAMP_MAX
  | VARCHAR => Value_varlen type_id None 0 false
  | INVALID => Throw MismatchType
  end.

(** The entries of [k_types]; the remaining slots of the array are null, among
    them the one [TypeId::TIMESTAMP] selects. [GetInstance] on a null slot is
    followed by a call through the null pointer. *)
Inductive TypeClass : Type :=
| Type_ | BooleanType | TinyintType | SmallintType | IntegerType | BigintType | DecimalType | VarlenType.

Definition k_types : list TypeClass :=
  [Type_; BooleanType; TinyintType; SmallintType; IntegerType; BigintType; DecimalType; VarlenType].

Definition TypeId_index (t : TypeId) : nat :=
  match t with
  | INVALID => 0 | BOOLEAN => 1 | TINYINT => 2 | SMALLINT => 3 | INTEGER => 4 | BIGINT => 5 | DECIMAL => 6
  | VARCHAR => 7 | TIMESTAMP => 8
  end.

Definition GetInstance (t : TypeId) : result TypeClass :=
  match k_types !! TypeId_index t with Some c => Ok c | None => Throw Undefined end.

(** ** Facts about values *)

(** The integer types, as the C++ type that represents them. *)
Definition int_type (t : TypeId) : option ity :=
  match t with
  | TINYINT => Some int8_t
  | SMALLINT => Some int16_t
  | INTEGER => Some int32_t
  | BIGINT => Some int64_t
  | _ => None
  end.

(** The numbers a type of [bits T] bits represents besides NULL, which takes the least one. *)
Definition in_range (T : ity) (z : Z) : Prop := - 2 ^ (bits T - 1) < z < 2 ^ (bits T - 1).
Definition in_rangeb (T : ity) (z : Z) : bool := (- 2 ^ (bits T - 1) <? z) && (z <? 2 ^ (bits T - 1)).

Definition VInt (t : TypeId) (z : Z) : Value := mkValue t (IntVal z) 0.
Definition NullInt (t : TypeId) (T : ity) : Value := mkValue t (IntVal (- 2 ^ (bits T - 1))) BUSTUB_VALUE_NULL.

(** The value of type [t] and content [z]: the least number stands for NULL. *)
Definition int_or_null (t : TypeId) (T : ity) (z : Z) : Value :=
  if z =? - 2 ^ (bits T - 1) then NullInt t T else VInt t z.

(** What the constructors build. *)
Definition wf_value (v : Value) : Prop :=
  match type_id_ v, value_ v with
  | BOOLEAN, IntVal z => sfits 8 z /\ len_ v = null_len (z =? BUSTUB_BOOLEAN_NULL)
  | TINYINT, IntVal z => sfits 8 z /\ len_ v = null_len (z =? BUSTUB_INT8_NULL)
  | SMALLINT, IntVal z => sfits 16 z /\ len_ v = null_len (z =? BUSTUB_INT16_NULL)
  | INTEGER, IntVal z => sfits 32 z /\ len_ v = null_len (z =? BUSTUB_INT32_NULL)
  | BIGINT, IntVal z => sfits 64 z /\ len_ v = null_len (z =? BUSTUB_INT64_NULL)
  | DECIMAL, DoubleVal d => valid_double d /\ len_ v = null_len (deqb d BUSTUB_DECIMAL_NULL)
  | VARCHAR, VarlenVal None => len_ v = BUSTUB_VALUE_NULL
  | VARCHAR, VarlenVal (Some data) => len_ v = zlen data /\ zlen data < BUSTUB_VALUE_NULL
  | _, _ => False
  end.

Lemma bits_pos T : 0 < bits T.
Proof. by destruct T. Qed.
#[export] Hint Resolve bits_pos : core.

Lemma in_range_sfits T z : in_range T z -> sfits (bits T) z.
Proof. unfold in_range, sfits. lia. Qed.

Lemma in_rangeb_spec T z : reflect (in_range T z) (in_rangeb T z).
Proof. apply iff_reflect. unfold in_range, in_rangeb. lia. Qed.

Lemma GetAs_VInt t T z : sfits (bits T) z -> GetAs T (VInt t z) = z.
Proof. intros. unfold GetAs, raw. simpl. by apply swrap_id. Qed.

Lemma Value_int_own t T z :
  int_type t = Some T -> sfits (bits T) z -> Value_int T t z = Ok (int_or_null t T z).
Proof.
  intros Ht Hz. unfold int_or_null, NullInt, VInt.
  destruct t; inversion Ht; subst T; cbn [Value_int Value_int8 Value_int16 Value_int32 Value_int64];
    unfold set_int, null_len; cbn [bits] in *; rewrite swrap_id by done;
    unfold BUSTUB_INT8_NULL, BUSTUB_INT16_NULL, BUSTUB_INT32_NULL, BUSTUB_INT64_NULL;
    change (8 - 1) with 7; change (16 - 1) with 15; change (32 - 1) with 31; change (64 - 1) with 63;
    match goal with |- context [z =? ?n] => destruct (Z.eqb_spec z n) as [->|] end; done.
Qed.

Lemma int_or_null_in_range t T z : in_range T z -> int_or_null t T z = VInt t z.
Proof. unfold in_range, int_or_null. intros. by destruct (Z.eqb_spec z (- 2 ^ (bits T - 1))); [lia|]. Qed.

Lemma Value_int_VInt t T z : int_type t = Some T -> in_range T z -> Value_int T t z = Ok (VInt t z).
Proof.
  intros Ht Hz. rewrite Value_int_own by auto using in_range_sfits. by rewrite int_or_null_in_range.
Qed.

Lemma IsNull_VInt t z : IsNull (VInt t z) = false.
Proof. reflexivity. Qed.
Lemma IsNull_NullInt t T : IsNull (NullInt t T) = true.
Proof. reflexivity. Qed.

Lemma int_type_inv t T : int_type t = Some T ->
  t = TINYINT /\ T = int8_t \/ t = SMALLINT /\ T = int16_t \/ t = INTEGER /\ T = int32_t \/ t = BIGINT /\ T = int64_t.
Proof. destruct t; intros [= <-]; tauto. Qed.
