(* ===== verification/Types.v ===== *)
(** * The value types: printing, casting, storing

    One group of definitions per class of src/type/: [ToString], [Copy],
    [CastAs], [SerializeTo], [DeserializeFrom], [IsZero] and [OperateNull] of
    [BooleanType], [TinyintType], [SmallintType], [IntegerType], [BigintType],
    [DecimalType] and [VarlenType], and the methods of [Value] that dispatch
    to them through [Type::GetInstance]. A method a class does not override is
    [Type]'s, which throws [NotImplementedException].

    Proved: a value written into a buffer is read back unchanged, integer casts
    are exact or refused, and an integer survives the way through VARCHAR. *)

From Stdlib Require Import SpecFloat String.
From S2P Require Import Prelude.
From S2P Require Import CStd.
From S2P Require Import Value.
Local Open Scope Z_scope.
Local Open Scope bustub_scope.

(** ** ToString *)

Definition BooleanType_ToString (val : Value) : result (list Z) :=
  if GetAs int8_t val =? 1 then Ok (str "true")
  else if GetAs int8_t val =? 0 then Ok (str "false")
  else Ok (str "boolean_null").

Definition TinyintType_ToString (val : Value) : result (list Z) :=
  assert! CheckInteger val;
  if IsNull val then Ok (str "tinyint_null") else Ok (to_string (GetAs int8_t val)).

Definition IntegerType_ToString (val : Value) : result (list Z) :=
  assert! CheckInteger val;
  if IsNull val then Ok (str "integer_null") else Ok (to_string (GetAs int32_t val)).

Definition BigintType_ToString (val : Value) : result (list Z) :=
  assert! CheckInteger val;
  if IsNull val then Ok (str "bigint_null") else Ok (to_string (GetAs int64_t val)).

Definition SmallintType_ToString (val : Value) : result (list Z) :=
  assert! CheckInteger val;
  match type_id_ val with
  | TINYINT => if IsNull val then Ok (str "tinyint_null") else Ok (to_string (GetAs int8_t val))
  | SMALLINT => if IsNull val then Ok (str "smallint_null") else Ok (to_string (GetAs int16_t val))
  | INTEGER => if IsNull val then Ok (str "integer_null") else Ok (to_string (GetAs int32_t val))
  | BIGINT => if IsNull val then Ok (str "bigint_null") else Ok (to_string (GetAs int64_t val))
  | _ => Throw EMessage
  end.

Definition DecimalType_ToString (val : Value) : result (list Z) :=
  if IsNull val then Ok (str "decimal_null") else Ok (dto_string (GetAs_double val)).

Definition VarlenType_GetLength (val : Value) : Z := len_ val.
Definition VarlenType_GetData (val : Value) : option (list Z) :=
  match value_ val with VarlenVal data => data | _ => None end.

(** [std::string(GetData(val), len - 1)] reads [len - 1] bytes. *)
Definition VarlenType_ToString (val : Value) : result (list Z) :=
  let len := VarlenType_GetLength val in
  if IsNull val then Ok (str "varlen_null")
  else if len =? BUSTUB_VARCHAR_MAX_LEN then Ok (str "varlen_max")
  else if len =? 0 then Ok []
  else match VarlenType_GetData val with
       | Some data => if zlen data <? len - 1 then Throw Undefined else Ok (slice 0 (len - 1) data)
       | None => Throw Undefined
       end.

(** [Value::ToString()] *)
Definition Value_ToString (val : Value) : result (list Z) :=
  let! c := GetInstance (type_id_ val) in
  match c with
  | Type_ => Throw NotImplemented
  | BooleanType => BooleanType_ToString val
  | TinyintType => TinyintType_ToString val
  | SmallintType => SmallintType_ToString val
  | IntegerType => IntegerType_ToString val
  | BigintType => BigintType_ToString val
  | DecimalType => DecimalType_ToString val
  | VarlenType => VarlenType_ToString val
  end.

(** ** Copy *)

Definition BooleanType_Copy (val : Value) : result Value := Value_int8 BOOLEAN (GetAs int8_t val).
Definition TinyintType_Copy (val : Value) : result Value :=
  assert! CheckInteger val; Value_int8 TINYINT (GetAs int8_t val).
Definition SmallintType_Copy (val : Value) : result Value :=
  assert! CheckInteger val; Value_int16 SMALLINT (GetAs int16_t val).
Definition IntegerType_Copy (val : Value) : result Value :=
  assert! CheckInteger val; Value_int32 (type_id_ val) (GetAs int32_t val).
Definition BigintType_Copy (val : Value) : result Value := Value_int64 BIGINT (GetAs int64_t val).
Definition DecimalType_Copy (val : Value) : result Value := Value_double DECIMAL (GetAs_double val).
Definition VarlenType_Copy (val : Value) : result Value := Ok (Value_copy val).

Definition Value_Copy (val : Value) : result Value :=
  let! c := GetInstance (type_id_ val) in
  match c with
  | Type_ => Throw NotImplemented
  | BooleanType => BooleanType_Copy val
  | TinyintType => TinyintType_Copy val
  | SmallintType => SmallintType_Copy val
  | IntegerType => IntegerType_Copy val
  | BigintType => BigintType_Copy val
  | DecimalType => DecimalType_Copy val
  | VarlenType => VarlenType_Copy val
  end.

(** ** CastAs *)

(** [if (val > max || val < min) throw OUT_OF_RANGE; return {type_id, static_cast<D>(val)}] *)
Definition cast_checked (T D : ity) (min max : Z) (val : Value) (type_id : TypeId) : result Value :=
  if (max <? GetAs T val) || (GetAs T val <? min) then Throw OutOfRange
  else Value_int D type_id (swrap (bits D) (GetAs T val)).

(** [return {type_id, static_cast<D>(val)}] *)
Definition cast_widen (T D : ity) (val : Value) (type_id : TypeId) : result Value :=
  Value_int D type_id (swrap (bits D) (GetAs T val)).

(** [return {TypeId::VARCHAR, val.ToString()}] *)
Definition cast_varchar (val : Value) : result Value :=
  let! s := Value_ToString val in Value_string VARCHAR s.

Definition BooleanType_CastAs (val : Value) (type_id : TypeId) : result Value :=
  match type_id with
  | BOOLEAN => BooleanType_Copy val
  | VARCHAR => if IsNull val then Value_varlen VARCHAR None 0 false else cast_varchar val
  | _ => Throw EMessage
  end.

Definition TinyintType_CastAs (val : Value) (type_id : TypeId) : result Value :=
  match type_id with
  | TINYINT =>
      if IsNull val then Value_int int8_t type_id BUSTUB_INT8_NULL
      else TinyintType_Copy val
  | SMALLINT =>
      if IsNull val then Value_int int16_t type_id BUSTUB_INT16_NULL
      else cast_widen int8_t int16_t val type_id
  | INTEGER =>
      if IsNull val then Value_int int32_t type_id BUSTUB_INT32_NULL
      else cast_widen int8_t int32_t val type_id
  | BIGINT =>
      if IsNull val then Value_int int64_t type_id BUSTUB_INT64_NULL
      else cast_widen int8_t int64_t val type_id
  | DECIMAL =>
      if IsNull val then Value_double type_id BUSTUB_DECIMAL_NULL
      else Value_double type_id (of_int (GetAs int8_t val))
  | VARCHAR => if IsNull val then Value_varlen VARCHAR None 0 false else cast_varchar val
  | _ => Throw EMessage
  end.

Definition SmallintType_CastAs (val : Value) (type_id : TypeId) : result Value :=
  match type_id with
  | TINYINT =>
      if IsNull val then Value_int int8_t type_id BUSTUB_INT8_NULL
      else cast_checked int16_t int8_t BUSTUB_INT8_MIN BUSTUB_INT8_MAX val type_id
  | SMALLINT =>
      if IsNull val then Value_int int16_t type_id BUSTUB_INT16_NULL
      else SmallintType_Copy val
  | INTEGER =>
      if IsNull val then Value_int int32_t type_id BUSTUB_INT32_NULL
      else cast_widen int16_t int32_t val type_id
  | BIGINT =>
      if IsNull val then Value_int int64_t type_id BUSTUB_INT64_NULL
      else cast_widen int16_t int64_t val type_id
  | DECIMAL =>
      if IsNull val then Value_double type_id BUSTUB_DECIMAL_NULL
      else Value_double type_id (of_int (GetAs int16_t val))
  | VARCHAR => if IsNull val then Value_varlen VARCHAR None 0 false else cast_varchar val
  | _ => Throw EMessage
  end.

Definition IntegerType_CastAs (val : Value) (type_id : TypeId) : result Value :=
  match type_id with
  | TINYINT =>
      if IsNull val then Value_int int8_t type_id BUSTUB_INT8_NULL
      else cast_checked int32_t int8_t BUSTUB_INT8_MIN BUSTUB_INT8_MAX val type_id
  | SMALLINT =>
      if IsNull val then Value_int int16_t type_id BUSTUB_INT16_NULL
      else cast_checked int32_t int16_t BUSTUB_INT16_MIN BUSTUB_INT16_MAX val type_id
  | INTEGER =>
      if IsNull val then Value_int int32_t type_id BUSTUB_INT32_NULL
      else cast_widen int32_t int32_t val type_id
  | BIGINT =>
      if IsNull val then Value_int int64_t type_id BUSTUB_INT64_NULL
      else cast_widen int32_t int64_t val type_id
  | DECIMAL =>
      if IsNull val then Value_double type_id BUSTUB_DECIMAL_NULL
      else Value_double type_id (of_int (GetAs int32_t val))
  | VARCHAR => if IsNull val then Value_varlen VARCHAR None 0 false else cast_varchar val
  | _ => Throw EMessage
  end.

Definition BigintType_CastAs (val : Value) (type_id : TypeId) : result Value :=
  match type_id with
  | TINYINT =>
      if IsNull val then Value_int int8_t type_id BUSTUB_INT8_NULL
      else cast_checked int64_t int8_t BUSTUB_INT8_MIN BUSTUB_INT8_MAX val type_id
  | SMALLINT =>
      if IsNull val then Value_int int16_t type_id BUSTUB_INT16_NULL
      else cast_checked int64_t int16_t BUSTUB_INT16_MIN BUSTUB_INT16_MAX val type_id
  | INTEGER =>
      if IsNull val then Value_int int32_t type_id BUSTUB_INT32_NULL
      else cast_checked int64_t int32_t BUSTUB_INT32_MIN BUSTUB_INT32_MAX val type_id
  | BIGINT =>
      if IsNull val then Value_int int64_t type_id BUSTUB_INT64_NULL
      else BigintType_Copy val
  | DECIMAL =>
      if IsNull val then Value_double type_id BUSTUB_DECIMAL_NULL
      else Value_double type_id (of_int (GetAs int64_t val))
  | VARCHAR => if IsNull val then Value_varlen VARCHAR None 0 false else cast_varchar val
  | _ => Throw EMessage
  end.

(** [if (d > max || d < min) throw OUT_OF_RANGE; return {type_id, static_cast<D>(d)}];
    a comparison with a NaN is false, so a NaN reaches the conversion. *)
Definition cast_double (D : ity) (min max : Z) (val : Value) (type_id : TypeId) : result Value :=
  if dltb (of_int max) (GetAs_double val) || dltb (GetAs_double val) (of_int min) then Throw OutOfRange
  else let! i := to_int (bits D) (GetAs_double val) in Value_int D type_id i.

Definition DecimalType_CastAs (val : Value) (type_id : TypeId) : result Value :=
  match type_id with
  | TINYINT =>
      if IsNull val then Value_int8 type_id BUSTUB_INT8_NULL
      else cast_double int8_t BUSTUB_INT8_MIN BUSTUB_INT8_MAX val type_id
  | SMALLINT =>
      if IsNull val then Value_int16 type_id BUSTUB_INT16_NULL
      else cast_double int16_t BUSTUB_INT16_MIN BUSTUB_INT16_MAX val type_id
  | INTEGER =>
      if IsNull val then Value_int32 type_id BUSTUB_INT32_NULL
      else cast_double int32_t BUSTUB_INT32_MIN BUSTUB_INT32_MAX val type_id
  | BIGINT =>
      if IsNull val then Value_int64 type_id BUSTUB_INT64_NULL
      else if dleb (of_int BUSTUB_INT64_MAX) (GetAs_double val) || dltb (GetAs_double val) (of_int BUSTUB_INT64_MIN)
      then Throw OutOfRange
      else let! i := to_int 64 (GetAs_double val) in Value_int64 type_id i
  | DECIMAL => Value_Copy val
  | VARCHAR => if IsNull val then Value_varlen VARCHAR None 0 false else cast_varchar val
  | _ => Throw EMessage
  end.

(** [static_cast<D>(stoi(str))] with its [catch], then [if (i < min) throw]. *)
Definition varchar_to_int (D : ity) (min : Z) (value : Value) (type_id : TypeId) : result Value :=
  let! s := Value_ToString value in
  let! i := catch_out_of_range (stoi s) in
  let i := swrap (bits D) i in
  if i <? min then Throw OutOfRange else Value_int D type_id i.

Definition VarlenType_CastAs (value : Value) (type_id : TypeId) : result Value :=
  match type_id with
  | BOOLEAN =>
      let! s := Value_ToString value in
      let s := tolower <$> s in
      if bool_decide (s = str "true") || bool_decide (s = str "1") || bool_decide (s = str "t")
      then Value_int32 type_id 1
      else if bool_decide (s = str "false") || bool_decide (s = str "0") || bool_decide (s = str "f")
      then Value_int32 type_id 0
      else Throw EMessage
  | TINYINT => varchar_to_int int8_t BUSTUB_INT8_MIN value type_id
  | SMALLINT => varchar_to_int int16_t BUSTUB_INT16_MIN value type_id
  | INTEGER =>
      let! s := Value_ToString value in
      let! i := catch_out_of_range (stoi s) in
      if (BUSTUB_INT32_MAX <? i) || (i <? BUSTUB_INT32_MIN) then Throw OutOfRange
      else Value_int32 type_id i
  | BIGINT =>
      let! s := Value_ToString value in
      let! i := catch_out_of_range (stoll s) in
      if (BUSTUB_INT64_MAX <? i) || (i <? BUSTUB_INT64_MIN) then Throw OutOfRange
      else Value_int64 type_id i
  | DECIMAL =>
      let! s := Value_ToString value in
      let! res := catch_out_of_range (stod s) in
      if dltb BUSTUB_DECIMAL_MAX res || dltb res BUSTUB_DECIMAL_MIN then Throw OutOfRange
      else Value_double type_id res
  | VARCHAR => Value_Copy value
  | _ => Throw EMessage
  end.

(** [Value::CastAs(type_id)] *)
Definition Value_CastAs (val : Value) (type_id : TypeId) : result Value :=
  let! c := GetInstance (type_id_ val) in
  match c with
  | Type_ => Throw NotImplemented
  | BooleanType => BooleanType_CastAs val type_id
  | TinyintType => TinyintType_CastAs val type_id
  | SmallintType => SmallintType_CastAs val type_id
  | IntegerType => IntegerType_CastAs val type_id
  | BigintType => BigintType_CastAs val type_id
  | DecimalType => DecimalType_CastAs val type_id
  | VarlenType => VarlenType_CastAs val type_id
  end.

(** ** SerializeTo, DeserializeFrom

    [storage] is a buffer and an offset into it; touching bytes outside the
    buffer is undefined behaviour. *)

Definition store (n : nat) (v : Z) (storage : list Z) (off : Z) : result (list Z) :=
  if (0 <=? off) && (off + Z.of_nat n <=? zlen storage) then Ok (put_u n storage off v) else Throw Undefined.
Definition load (n : nat) (storage : list Z) (off : Z) : result Z :=
  if (0 <=? off) && (off + Z.of_nat n <=? zlen storage) then Ok (get_u n storage off) else Throw Undefined.

Definition BooleanType_SerializeTo (val : Value) (storage : list Z) (off : Z) : result (list Z) :=
  store 1 (GetAs int8_t val) storage off.
Definition BooleanType_DeserializeFrom (storage : list Z) (off : Z) : result Value :=
  let! val := load 1 storage off in Value_int int8_t BOOLEAN (swrap 8 val).

Definition TinyintType_SerializeTo (val : Value) (storage : list Z) (off : Z) : result (list Z) :=
  store 1 (GetAs int8_t val) storage off.
Definition TinyintType_DeserializeFrom (storage : list Z) (off : Z) : result Value :=
  let! val := load 1 storage off in Value_int int8_t TINYINT (swrap 8 val).

Definition SmallintType_SerializeTo (val : Value) (storage : list Z) (off : Z) : result (list Z) :=
  store 2 (GetAs int16_t val) storage off.
Definition SmallintType_DeserializeFrom (storage : list Z) (off : Z) : result Value :=
  let! val := load 2 storage off in Value_int int16_t SMALLINT (swrap 16 val).

Definition IntegerType_SerializeTo (val : Value) (storage : list Z) (off : Z) : result (list Z) :=
  store 4 (GetAs int32_t val) storage off.
Definition IntegerType_DeserializeFrom (storage : list Z) (off : Z) : result Value :=
  let! val := load 4 storage off in Value_int int32_t INTEGER (swrap 32 val).

Definition BigintType_SerializeTo (val : Value) (storage : list Z) (off : Z) : result (list Z) :=
  store 8 (GetAs int64_t val) storage off.
Definition BigintType_DeserializeFrom (storage : list Z) (off : Z) : result Value :=
  let! val := load 8 storage off in Value_int int64_t BIGINT (swrap 64 val).

Definition DecimalType_SerializeTo (val : Value) (storage : list Z) (off : Z) : result (list Z) :=
  store 8 (double_bits (GetAs_double val)) storage off.
Definition DecimalType_DeserializeFrom (storage : list Z) (off : Z) : result Value :=
  let! val := load 8 storage off in Value_double DECIMAL (bits_double val).

Definition VarlenType_SerializeTo (val : Value) (storage : list Z) (off : Z) : result (list Z) :=
  let len := VarlenType_GetLength val in
  if len =? BUSTUB_VALUE_NULL then store 4 len storage off
  else
    let! storage := store 4 len storage off in
    match VarlenType_GetData val with
    | Some data =>
        if (zlen data <? len) || (zlen storage <? off + 4 + len) then Throw Undefined
        else Ok (splice (off + 4) (slice 0 len data) storage)
    | None => Throw Undefined
    end.
Definition VarlenType_DeserializeFrom (storage : list Z) (off : Z) : result Value :=
  let! len := load 4 storage off in
  if len =? BUSTUB_VALUE_NULL then Value_varlen VARCHAR None len false
  else Value_varlen VARCHAR (Some (drop (Z.to_nat (off + 4)) storage)) len true.

(** [Value::SerializeTo(storage)], [Value::DeserializeFrom(storage, type_id)] *)
Definition Value_SerializeTo (val : Value) (storage : list Z) (off : Z) : result (list Z) :=
  let! c := GetInstance (type_id_ val) in
  match c with
  | Type_ => Throw NotImplemented
  | BooleanType => BooleanType_SerializeTo val storage off
  | TinyintType => TinyintType_SerializeTo val storage off
  | SmallintType => SmallintType_SerializeTo val storage off
  | IntegerType => IntegerType_SerializeTo val storage off
  | BigintType => BigintType_SerializeTo val storage off
  | DecimalType => DecimalType_SerializeTo val storage off
  | VarlenType => VarlenType_SerializeTo val storage off
  end.

Definition Value_DeserializeFrom (storage : list Z) (off : Z) (type_id : TypeId) : result Value :=
  let! c := GetInstance type_id in
  match c with
  | Type_ => Throw NotImplemented
  | BooleanType => BooleanType_DeserializeFrom storage off
  | TinyintType => TinyintType_DeserializeFrom storage off
  | SmallintType => SmallintType_DeserializeFrom storage off
  | IntegerType => IntegerType_DeserializeFrom storage off
  | BigintType => BigintType_DeserializeFrom storage off
  | DecimalType => DecimalType_DeserializeFrom storage off
  | VarlenType => VarlenType_DeserializeFrom storage off
  end.

(** ** IsZero, OperateNull *)

Definition TinyintType_IsZero (val : Value) : bool := GetAs int8_t val =? 0.
Definition SmallintType_IsZero (val : Value) : bool := GetAs int16_t val =? 0.
Definition IntegerType_IsZero (val : Value) : bool := GetAs int32_t val =? 0.
Definition BigintType_IsZero (val : Value) : bool := GetAs int64_t val =? 0.
Definition DecimalType_IsZero (val : Value) : bool := deqb (GetAs_double val) (of_int 0).

Definition Value_IsZero (val : Value) : result bool :=
  let! c := GetInstance (type_id_ val) in
  match c with
  | Type_ | BooleanType | VarlenType => Throw NotImplemented
  | TinyintType => Ok (TinyintType_IsZero val)
  | SmallintType => Ok (SmallintType_IsZero val)
  | IntegerType => Ok (IntegerType_IsZero val)
  | BigintType => Ok (BigintType_IsZero val)
  | DecimalType => Ok (DecimalType_IsZero val)
  end.

Definition TinyintType_OperateNull (left right : Value) : result Value :=
  match type_id_ right with
  | TINYINT => Value_int8 TINYINT BUSTUB_INT8_NULL
  | SMALLINT => Value_int16 SMALLINT BUSTUB_INT16_NULL
  | INTEGER => Value_int32 INTEGER BUSTUB_INT32_NULL
  | BIGINT => Value_int64 BIGINT BUSTUB_INT64_NULL
  | DECIMAL => Value_double DECIMAL BUSTUB_DECIMAL_NULL
  | _ => Throw EMessage
  end.
Definition SmallintType_OperateNull (left right : Value) : result Value :=
  match type_id_ right with
  | TINYINT | SMALLINT => Value_int16 SMALLINT BUSTUB_INT16_NULL
  | INTEGER => Value_int32 INTEGER BUSTUB_INT32_NULL
  | BIGINT => Value_int64 BIGINT BUSTUB_INT64_NULL
  | DECIMAL => Value_double DECIMAL BUSTUB_DECIMAL_NULL
  | _ => Throw EMessage
  end.
Definition IntegerType_OperateNull (left right : Value) : result Value :=
  match type_id_ right with
  | TINYINT | SMALLINT | INTEGER => Value_int32 INTEGER BUSTUB_INT32_NULL
  | BIGINT => Value_int64 BIGINT BUSTUB_INT64_NULL
  | DECIMAL => Value_double DECIMAL BUSTUB_DECIMAL_NULL
  | _ => Throw EMessage
  end.
Definition BigintType_OperateNull (left right : Value) : result Value :=
  match type_id_ right with
  | TINYINT | SMALLINT | INTEGER | BIGINT => Value_int64 BIGINT BUSTUB_INT64_NULL
  | DECIMAL => Value_double DECIMAL BUSTUB_DECIMAL_NULL
  | _ => Throw EMessage
  end.
Definition DecimalType_OperateNull (left right : Value) : result Value :=
  Value_double DECIMAL BUSTUB_DECIMAL_NULL.

Definition Value_OperateNull (left right : Value) : result Value :=
  let! c := GetInstance (type_id_ left) in
  match c with
  | Type_ | BooleanType | VarlenType => Throw NotImplemented
  | TinyintType => TinyintType_OperateNull left right
  | SmallintType => SmallintType_OperateNull left right
  | IntegerType => IntegerType_OperateNull left right
  | BigintType => BigintType_OperateNull left right
  | DecimalType => DecimalType_OperateNull left right
  end.

(** ** Storing a value and loading it back *)

(** The bytes [SerializeTo] writes. *)
Definition stored_size (v : Value) : Z :=
  match type_id_ v with
  | BOOLEAN | TINYINT => 1
  | SMALLINT => 2
  | INTEGER => 4
  | VARCHAR => if IsNull v then 4 else 4 + len_ v
  | _ => 8
  end.

Lemma load_ok n s off : 0 <= off -> off + Z.of_nat n <= zlen s -> load n s off = Ok (get_u n s off).
Proof.
  intros. unfold load. destruct (Z.leb_spec 0 off); [|lia]. by destruct (Z.leb_spec (off + Z.of_nat n) (zlen s)); [|lia].
Qed.

Lemma store_ok n v s off : 0 <= off -> off + Z.of_nat n <= zlen s -> store n v s off = Ok (put_u n s off v).
Proof.
  intros. unfold store. destruct (Z.leb_spec 0 off); [|lia]. by destruct (Z.leb_spec (off + Z.of_nat n) (zlen s)); [|lia].
Qed.

Lemma store_load n v storage off :
  0 <= off -> off + Z.of_nat n <= zlen storage ->
  exists s, store n v storage off = Ok s /\ zlen s = zlen storage /\
    load n s off = Ok (uwrap (8 * Z.of_nat n) v) /\
    forall off' len', 0 <= off' -> off' + len' <= off \/ off + Z.of_nat n <= off' ->
      slice off' len' s = slice off' len' storage.
Proof.
  intros H0 H1. assert (Hl : zlen (put_u n storage off v) = zlen storage) by by apply zlen_put_u.
  rewrite store_ok by done. eexists. split_and!; [done|done| |].
  - rewrite load_ok by lia. by rewrite get_put_u.
  - intros off' len' ??. unfold put_u. unfold zlen in *.
    apply slice_splice_disj; unfold zlen; rewrite ?length_le_encode; lia.
Qed.

(** The round trip and the frame of a store. *)
Definition stores_back (v : Value) (storage : list Z) (off : Z) : Prop :=
  exists s, Value_SerializeTo v storage off = Ok s /\
    Value_DeserializeFrom s off (type_id_ v) = Ok v /\ zlen s = zlen storage /\
    forall off' len', 0 <= off' -> off' + len' <= off \/ off + stored_size v <= off' ->
      slice off' len' s = slice off' len' storage.

Lemma store_back_int t T n z l storage off :
  Value_int T t z = Ok (mkValue t (IntVal z) l) ->
  sfits (bits T) z -> bits T = 8 * Z.of_nat n -> stored_size (mkValue t (IntVal z) l) = Z.of_nat n ->
  (forall s, Value_SerializeTo (mkValue t (IntVal z) l) s off = store n (GetAs T (mkValue t (IntVal z) l)) s off) ->
  (forall s, Value_DeserializeFrom s off t = let! val := load n s off in Value_int T t (swrap (bits T) val)) ->
  0 <= off -> off + Z.of_nat n <= zlen storage ->
  stores_back (mkValue t (IntVal z) l) storage off.
Proof.
  intros Hv Hz Hb Hsz Hs Hd H0 H1.
  destruct (store_load n (GetAs T (mkValue t (IntVal z) l)) storage off) as (s & E & Hl & HL & HF); [done..|].
  exists s. rewrite Hs, Hd, Hsz. split_and!; [done| |done|done].
  rewrite HL. cbn [rbind]. rewrite <- Hb, swrap_uwrap. unfold GetAs, raw. cbn [value_].
  rewrite (swrap_id _ z), swrap_id by auto. done.
Qed.

Lemma Value_int_wf t T z l :
  int_type t = Some T -> sfits (bits T) z -> l = null_len (z =? - 2 ^ (bits T - 1)) ->
  Value_int T t z = Ok (mkValue t (IntVal z) l).
Proof.
  intros Ht Hz ->. rewrite (Value_int_own t T z Ht Hz). unfold int_or_null, NullInt, VInt, null_len.
  destruct (Z.eqb_spec z (- 2 ^ (bits T - 1))) as [->|]; done.
Qed.

Lemma store_back_decimal d l storage off :
  valid_double d -> l = null_len (deqb d BUSTUB_DECIMAL_NULL) ->
  0 <= off -> off + 8 <= zlen storage ->
  stores_back (mkValue DECIMAL (DoubleVal d) l) storage off.
Proof.
  intros Hd -> H0 H1. destruct (store_load 8 (double_bits d) storage off) as (s & E & Hl & HL & HF); [done..|].
  exists s. split_and!; [done| |done|done]. cbn [type_id_].
  change (Value_DeserializeFrom s off DECIMAL)
    with (let! val := load 8 s off in Value_double DECIMAL (bits_double val)).
  rewrite HL. cbn [rbind]. rewrite uwrap_id by by apply double_bits_bound.
  by rewrite bits_double_bits.
Qed.

Lemma store_back_varchar data storage off :
  zlen data < BUSTUB_VALUE_NULL -> 0 <= off -> off + 4 + zlen data <= zlen storage ->
  stores_back (mkValue VARCHAR (VarlenVal (Some data)) (zlen data)) storage off.
Proof.
  intros Hd H0 H1. set (v := mkValue _ _ _).
  assert (Hn : 0 <= zlen data) by (unfold zlen; lia). unfold BUSTUB_VALUE_NULL in *.
  destruct (store_load 4 (zlen data) storage off) as (s & E & Hl & HL & HF); [lia..|].
  assert (Hbs : slice 0 (zlen data) data = data) by (unfold slice, zlen; rewrite Nat2Z.id; apply firstn_all).
  set (s' := splice (off + 4) data s).
  assert (Hl' : zlen s' = zlen storage) by (subst s'; rewrite zlen_splice; lia).
  assert (Hnn : (zlen data =? BUSTUB_VALUE_NULL) = false) by (unfold BUSTUB_VALUE_NULL; lia).
  exists s'. split_and!.
  - change (Value_SerializeTo v storage off) with (VarlenType_SerializeTo v storage off).
    unfold VarlenType_SerializeTo, VarlenType_GetLength, VarlenType_GetData. cbn [v len_ value_].
    rewrite Hnn, E. cbn [rbind].
    replace (zlen data <? zlen data) with false by lia. replace (zlen s <? off + 4 + zlen data) with false by lia.
    by rewrite Hbs.
  - change (Value_DeserializeFrom s' off (type_id_ v)) with (VarlenType_DeserializeFrom s' off).
    unfold VarlenType_DeserializeFrom.
    assert (load 4 s' off = Ok (zlen data)) as ->.
    { unfold load in HL |- *. rewrite Hl'. rewrite Hl in HL.
      assert (Hb : (0 <=? off) && (off + Z.of_nat 4 <=? zlen storage) = true) by (change (Z.of_nat 4) with 4; lia). rewrite Hb in HL |- *.
      subst s'. rewrite get_u_splice_disj by lia. rewrite HL. rewrite uwrap_id; [done|]. unfold ufits. lia. }
    cbn [rbind]. rewrite Hnn. unfold Value_varlen.
    replace (zlen data <? BUSTUB_VARCHAR_MAX_LEN) with true by (unfold BUSTUB_VARCHAR_MAX_LEN; lia). cbn [negb].
    assert (Hdrop : slice 0 (zlen data) (drop (Z.to_nat (off + 4)) s') = data).
    { change (slice 0 (zlen data) (drop (Z.to_nat (off + 4)) s')) with (slice (off + 4) (zlen data) s').
      subst s'. apply slice_splice_same; lia. }
    rewrite Hdrop. replace (zlen (drop (Z.to_nat (off + 4)) s') <? zlen data) with false; [done|].
    symmetry. apply Z.ltb_ge. unfold zlen in *. rewrite length_drop. lia.
  - done.
  - intros off' len' Ho' Hd'. unfold stored_size in Hd'. cbn [v type_id_] in Hd'. unfold IsNull in Hd'.
    cbn [len_ v] in Hd'. rewrite Hnn in Hd'. subst s'.
    rewrite slice_splice_disj by lia. apply HF; lia.
Qed.

Lemma store_back v storage off :
  wf_value v -> 0 <= off -> off + stored_size v <= zlen storage -> stores_back v storage off.
Proof.
  destruct v as [t x l]. unfold wf_value. cbn [type_id_ value_ len_].
  destruct t, x as [|z|d|[data|]]; try done; intros Hw H0 H1.
  1-5: destruct Hw as [Hz ->]; unfold stored_size in H1; cbn [type_id_] in H1.
  - apply (store_back_int _ int8_t 1); auto.
    cbn [Value_int Value_int8]. unfold set_int. by rewrite swrap_id.
  - apply (store_back_int _ int8_t 1); auto. by apply Value_int_wf.
  - apply (store_back_int _ int16_t 2); auto. by apply Value_int_wf.
  - apply (store_back_int _ int32_t 4); auto. by apply Value_int_wf.
  - apply (store_back_int _ int64_t 8); auto. by apply Value_int_wf.
  - destruct Hw as [Hd ->]. by apply store_back_decimal.
  - destruct Hw as [-> Hd]. apply store_back_varchar; [done..|].
    unfold stored_size, IsNull in H1. cbn [type_id_ len_] in H1. destruct (zlen data =? BUSTUB_VALUE_NULL) eqn:?; lia.
  - subst l. destruct (store_load 4 BUSTUB_VALUE_NULL storage off) as (s & E & Hl & HL & HF); [done..|].
    exists s. split_and!; [done| |done|done].
    cbn [type_id_]. change (Value_DeserializeFrom s off VARCHAR) with (VarlenType_DeserializeFrom s off).
    unfold VarlenType_DeserializeFrom. by rewrite HL.
Qed.

(** ** Casts *)

Lemma to_string_of_int t T z :
  int_type t = Some T -> in_range T z -> Value_ToString (VInt t z) = Ok (to_string z).
Proof.
  intros Ht Hz%in_range_sfits.
  destruct (int_type_inv t T Ht) as [[-> ->]|[[-> ->]|[[-> ->]|[-> ->]]]];
    unfold Value_ToString, GetInstance; cbn [k_types TypeId_index VInt type_id_ lookup list_lookup rbind];
    unfold TinyintType_ToString, SmallintType_ToString, IntegerType_ToString, BigintType_ToString;
    cbn [VInt type_id_ CheckInteger massert]; rewrite IsNull_VInt, GetAs_VInt by done; done.
Qed.

Lemma cast_widen_ok t T D u z :
  int_type u = Some D -> in_range T z -> in_range D z -> cast_widen T D (VInt t z) u = Ok (VInt u z).
Proof.
  intros Hu Hz HD. unfold cast_widen. rewrite GetAs_VInt by auto using in_range_sfits.
  rewrite swrap_id by auto using in_range_sfits. by apply Value_int_VInt.
Qed.

Lemma cast_checked_ok t T D u min max z :
  int_type u = Some D -> min = - 2 ^ (bits D - 1) + 1 -> max = 2 ^ (bits D - 1) - 1 -> in_range T z ->
  cast_checked T D min max (VInt t z) u = if in_rangeb D z then Ok (VInt u z) else Throw OutOfRange.
Proof.
  intros Hu -> -> Hz. unfold cast_checked. rewrite GetAs_VInt by auto using in_range_sfits.
  destruct (in_rangeb_spec D z) as [Hr|Hr].
  - replace (_ || _) with false by (unfold in_range in Hr; lia).
    rewrite swrap_id by auto using in_range_sfits. by apply Value_int_VInt.
  - replace (_ || _) with true; [done|]. unfold in_range in Hr. lia.
Qed.

Lemma copy_int t T z : int_type t = Some T -> in_range T z -> Value_Copy (VInt t z) = Ok (VInt t z).
Proof.
  intros Ht Hz. pose proof (in_range_sfits _ _ Hz) as Hs. pose proof (Value_int_VInt t T z Ht Hz) as Hv.
  destruct (int_type_inv t T Ht) as [[-> ->]|[[-> ->]|[[-> ->]|[-> ->]]]];
    cbn [Value_int] in Hv; rewrite <- Hv; unfold Value_Copy, GetInstance;
    cbn [k_types TypeId_index VInt type_id_ lookup list_lookup rbind];
    unfold TinyintType_Copy, SmallintType_Copy, IntegerType_Copy, BigintType_Copy, CheckInteger;
    cbn [VInt type_id_ massert]; by rewrite GetAs_VInt.
Qed.

(** The cast of [u] as each class's [CastAs] decides it: refused unless the number fits. *)
Lemma cast_int s T u D z :
  int_type s = Some T -> int_type u = Some D -> in_range T z ->
  Value_CastAs (VInt s z) u = if in_rangeb D z then Ok (VInt u z) else Throw OutOfRange.
Proof.
  intros Hs Hu Hz. pose proof (copy_int s T z Hs Hz) as Hc.
  destruct (int_type_inv s T Hs) as [[-> ->]|[[-> ->]|[[-> ->]|[-> ->]]]];
    destruct (int_type_inv u D Hu) as [[-> ->]|[[-> ->]|[[-> ->]|[-> ->]]]];
    unfold Value_CastAs, GetInstance; cbn [k_types TypeId_index VInt type_id_ lookup list_lookup rbind];
    unfold TinyintType_CastAs, SmallintType_CastAs, IntegerType_CastAs, BigintType_CastAs;
    rewrite IsNull_VInt;
    first [ by apply cast_checked_ok
          | match goal with |- context [in_rangeb ?D ?z] =>
              destruct (in_rangeb_spec D z) as [HD|HD]; [|exfalso; unfold in_range, bits in *; lia] end;
            first [by apply cast_widen_ok | exact Hc] ].
Qed.

Lemma cast_null s T u D :
  int_type s = Some T -> int_type u = Some D -> Value_CastAs (NullInt s T) u = Ok (NullInt u D).
Proof.
  intros Hs Hu.
  destruct (int_type_inv s T Hs) as [[-> ->]|[[-> ->]|[[-> ->]|[-> ->]]]];
    destruct (int_type_inv u D Hu) as [[-> ->]|[[-> ->]|[[-> ->]|[-> ->]]]]; vm_compute; reflexivity.
Qed.

(** The string a VARCHAR holds, and the value [Value(VARCHAR, s)]. *)
Definition VString (s : list Z) : Value := mkValue VARCHAR (VarlenVal (Some (s ++ [0]))) (zlen s + 1).

Definition short (s : list Z) : Prop := zlen s + 1 < BUSTUB_VALUE_NULL.

Lemma Value_string_ok s : short s -> Value_string VARCHAR s = Ok (VString s).
Proof.
  unfold short, BUSTUB_VALUE_NULL. intros Hs. unfold Value_string, VString.
  assert (0 <= zlen s) by (unfold zlen; lia).
  rewrite uwrap_id by (unfold ufits; lia). f_equal. f_equal. f_equal. f_equal.
  unfold slice, zlen. change (drop (Z.to_nat 0) (s ++ [0])) with (s ++ [0]).
  replace (Z.to_nat (Z.of_nat (length s) + 1)) with (length (s ++ [0])) by (rewrite length_app; simpl; lia).
  apply firstn_all.
Qed.

Lemma ToString_VString s : short s -> Value_ToString (VString s) = Ok s.
Proof.
  unfold short, BUSTUB_VALUE_NULL. intros Hs. assert (0 <= zlen s) by (unfold zlen; lia).
  change (Value_ToString (VString s)) with (VarlenType_ToString (VString s)).
  unfold VarlenType_ToString, VarlenType_GetLength, VarlenType_GetData, IsNull.
  cbn [VString len_ value_]. unfold BUSTUB_VALUE_NULL, BUSTUB_VARCHAR_MAX_LEN.
  replace (zlen s + 1 =? 2 ^ 32 - 1) with false by lia. replace (zlen s + 1 =? 0) with false by lia.
  replace (zlen (s ++ [0]) <? zlen s + 1 - 1) with false
    by (symmetry; apply Z.ltb_ge; unfold zlen; rewrite length_app; simpl; lia).
  f_equal. unfold slice, zlen. replace (Z.to_nat (Z.of_nat (length s) + 1 - 1)) with (length s) by lia.
  apply take_app_length.
Qed.

Lemma length_dec_digits fuel n acc : (length (dec_digits fuel n acc) <= length acc + fuel)%nat.
Proof.
  revert n acc. induction fuel as [|f IH]; intros n acc; cbn [dec_digits]; [lia|].
  destruct (n / 10 =? 0); [simpl; lia|]. etransitivity; [apply IH|]. simpl. lia.
Qed.

Lemma to_string_short T z : in_range T z -> short (to_string z).
Proof.
  intros Hz. unfold short, zlen, BUSTUB_VALUE_NULL.
  assert (Hd : forall n, 0 <= n < 2 ^ 64 -> (length (dec_string n) <= 65)%nat).
  { intros n Hn. unfold dec_string. pose proof (length_dec_digits (S (Z.to_nat (Z.log2 n))) n []).
    simpl length in *. assert (Z.log2 n <= 63); [|lia]. destruct (Z.eq_dec n 0) as [->|]; [by vm_compute|].
    apply Z.lt_succ_r. apply Z.log2_lt_pow2; lia. }
  assert (Z.abs z < 2 ^ 64) by (unfold in_range in Hz; destruct T; simpl in Hz; lia).
  unfold to_string. destruct (Z.ltb_spec z 0); simpl length.
  - specialize (Hd (- z)). lia.
  - specialize (Hd z). lia.
Qed.

Lemma cast_to_varchar t T z :
  int_type t = Some T -> in_range T z -> Value_CastAs (VInt t z) VARCHAR = Ok (VString (to_string z)).
Proof.
  intros Ht Hz. pose proof (to_string_of_int t T z Ht Hz) as Hs.
  assert (cast_varchar (VInt t z) = Ok (VString (to_string z))) as Hc.
  { unfold cast_varchar. rewrite Hs. cbn [rbind]. apply Value_string_ok. by apply (to_string_short T). }
  destruct (int_type_inv t T Ht) as [[-> ->]|[[-> ->]|[[-> ->]|[-> ->]]]];
    unfold Value_CastAs, GetInstance; cbn [k_types TypeId_index VInt type_id_ lookup list_lookup rbind];
    unfold TinyintType_CastAs, SmallintType_CastAs, IntegerType_CastAs, BigintType_CastAs; by rewrite IsNull_VInt.
Qed.

Lemma cast_from_varchar t T z :
  int_type t = Some T -> in_range T z -> Value_CastAs (VString (to_string z)) t = Ok (VInt t z).
Proof.
  intros Ht Hz. pose proof (ToString_VString _ (to_string_short T z Hz)) as Hs.
  pose proof (Value_int_VInt t T z Ht Hz) as Hv.
  change (Value_CastAs (VString (to_string z)) t) with (VarlenType_CastAs (VString (to_string z)) t).
  assert (Hi : bits T <> 64 -> stoi (to_string z) = Ok z).
  { intros HT. apply sto_to_string. unfold in_range, sfits in *. destruct T; simpl in *; lia. }
  destruct (int_type_inv t T Ht) as [[-> ->]|[[-> ->]|[[-> ->]|[-> ->]]]]; cbn [VarlenType_CastAs Value_int] in *;
    unfold varchar_to_int; rewrite Hs; cbn [rbind];
    rewrite ?Hi by done; rewrite ?catch_out_of_range_Ok; cbn [rbind];
    rewrite ?swrap_id by (done || by apply (in_range_sfits int8_t) || by apply (in_range_sfits int16_t)).
  - replace (z <? BUSTUB_INT8_MIN) with false; [exact Hv|].
    symmetry. apply Z.ltb_ge. unfold in_range, BUSTUB_INT8_MIN in *. simpl in *. lia.
  - replace (z <? BUSTUB_INT16_MIN) with false; [exact Hv|].
    symmetry. apply Z.ltb_ge. unfold in_range, BUSTUB_INT16_MIN in *. simpl in *. lia.
  - replace (_ || _) with false; [exact Hv|].
    unfold in_range, BUSTUB_INT32_MIN, BUSTUB_INT32_MAX in *. simpl bits in *. lia.
  - unfold stoll. rewrite sto_to_string by (by apply (in_range_sfits int64_t)). rewrite catch_out_of_range_Ok. cbn [rbind].
    replace (_ || _) with false; [exact Hv|].
    unfold in_range, BUSTUB_INT64_MIN, BUSTUB_INT64_MAX in *. simpl bits in *. lia.
Qed.

(** ** Properties *)

(** Storing any well-formed value in a buffer with room for it and loading
    it again with its type gives the value back, NULLs and NaN included, and
    every byte outside the value's own is left as it was. *)
Theorem SerializeTo_DeserializeFrom (v : Value) (storage : list Z) (off : Z) :
  wf_value v -> 0 <= off -> off + stored_size v <= zlen storage ->
  exists s, Value_SerializeTo v storage off = Ok s /\
    Value_DeserializeFrom s off (type_id_ v) = Ok v /\ zlen s = zlen storage /\
    forall off' len', 0 <= off' -> off' + len' <= off \/ off + stored_size v <= off' ->
      slice off' len' s = slice off' len' storage.
Proof. exact (store_back v storage off). Qed.

Lemma SerializeTo_DeserializeFrom_witness :
  exists s, Value_SerializeTo (VString (str "bustub")) (replicate 16 7) 2 = Ok s /\
    Value_DeserializeFrom s 2 VARCHAR = Ok (VString (str "bustub")).
Proof.
  destruct (SerializeTo_DeserializeFrom (VString (str "bustub")) (replicate 16 7) 2) as (s & E & D & _).
  - vm_compute. split; reflexivity.
  - vm_compute. discriminate.
  - vm_compute. discriminate.
  - exists s. split; [exact E|exact D].
Defined.

(** Casting an integer value to an integer type keeps the number when the
    target represents it and throws OUT_OF_RANGE otherwise; the least number of
    a type is not represented, it is NULL, and NULL casts to NULL. *)
Theorem CastAs_integer (s u : TypeId) (T D : ity) (z : Z) :
  int_type s = Some T -> int_type u = Some D -> in_range T z ->
  Value_CastAs (VInt s z) u = (if in_rangeb D z then Ok (VInt u z) else Throw OutOfRange) /\
  Value_CastAs (NullInt s T) u = Ok (NullInt u D).
Proof. intros Hs Hu Hz. split; [by apply (cast_int s T)|by apply cast_null]. Qed.

Lemma CastAs_integer_witness :
  Value_CastAs (VInt INTEGER 300) SMALLINT = Ok (VInt SMALLINT 300) /\
  Value_CastAs (VInt INTEGER 300) TINYINT = Throw OutOfRange.
Proof.
  destruct (CastAs_integer INTEGER SMALLINT int32_t int16_t 300) as [E _]; [reflexivity..|split; reflexivity|].
  destruct (CastAs_integer INTEGER TINYINT int32_t int8_t 300) as [E' _]; [reflexivity..|split; reflexivity|].
  split; [exact E|exact E'].
Defined.

(** An integer cast to VARCHAR and back to its type is the integer it was. *)
Theorem CastAs_varchar_roundtrip (t : TypeId) (T : ity) (z : Z) :
  int_type t = Some T -> in_range T z ->
  exists v, Value_CastAs (VInt t z) VARCHAR = Ok v /\ type_id_ v = VARCHAR /\
    Value_ToString v = Ok (to_string z) /\ Value_CastAs v t = Ok (VInt t z).
Proof.
  intros Ht Hz. exists (VString (to_string z)). split_and!; [by apply (cast_to_varchar t T)|done| |].
  - apply ToString_VString. by apply (to_string_short T).
  - by apply (cast_from_varchar t T).
Qed.

Lemma CastAs_varchar_roundtrip_witness :
  exists v, Value_CastAs (VInt BIGINT (-4611686018427387904)) VARCHAR = Ok v /\
    Value_CastAs v BIGINT = Ok (VInt BIGINT (-4611686018427387904)).
Proof.
  destruct (CastAs_varchar_roundtrip BIGINT int64_t (-4611686018427387904)) as (v & E & _ & _ & D);
    [reflexivity|split; reflexivity|].
  exists v. split; [exact E|exact D].
Defined.

(** The cast of a VARCHAR to TINYINT or SMALLINT narrows the number
    [stoi] returns before it is checked, so a string out of the type's range is
    accepted and silently becomes another number: '300' casts to TINYINT 44 and
    '-70000' to SMALLINT -4464, although the INTEGERs of these strings are
    refused with OUT_OF_RANGE. *)
Theorem CastAs_varchar_truncates :
  Value_CastAs (VString (str "300")) TINYINT = Ok (VInt TINYINT 44) /\
  Value_CastAs (VString (str "-70000")) SMALLINT = Ok (VInt SMALLINT (-4464)) /\
  Value_CastAs (VInt INTEGER 300) TINYINT = Throw OutOfRange /\
  Value_CastAs (VInt INTEGER (-70000)) SMALLINT = Throw OutOfRange.
Proof. vm_compute. split_and!; reflexivity. Qed.
