(* ===== verification/TypeOps.v ===== *)
(** * The value types: arithmetic and comparison

    The operators of [TinyintType], [SmallintType], [IntegerType],
    [BigintType], [DecimalType], [BooleanType] and [VarlenType]
    (src/type/), with the overflow checks of [IntegerParentType]
    (src/include/type/integer_parent_type.h) on C++'s promoted integers, where
    signed overflow is undefined behaviour, and the methods of [Value] that dispatch to them. The macros
    [TINYINT_COMPARE_FUNC], .. , [BIGINT_MODIFY_FUNC] are one text up to the
    width of the left operand, here the parameter [T].

    Proved: integer arithmetic, whatever the widths of the operands, is exact, throws when
    a narrow type overflows, and is undefined when an INTEGER or BIGINT does; the six comparisons of integers are the order of the numbers;
    NULL is contagious. *)

From Stdlib Require Import SpecFloat String.
From S2P Require Import Prelude.
From S2P Require Import CStd.
From S2P Require Import Value.
From S2P Require Import Types.
Local Open Scope Z_scope.
Local Open Scope bustub_scope.

(** ** [IntegerParentType]: arithmetic with overflow detection *)

(** The type C++ computes [x op y] in: [int], or [int64_t] when an operand has 64 bits. *)
Definition common (T1 T2 : ity) : Z := Z.max 32 (Z.max (bits T1) (bits T2)).
Definition sizeof_ge (T1 T2 : ity) : bool := bits T2 <=? bits T1.

(** [x op y] on signed operands; a result that the type of the computation cannot hold is undefined behaviour. *)
Definition sfitsb (w z : Z) : bool := (- 2 ^ (w - 1) <=? z) && (z <? 2 ^ (w - 1)).
Definition signed_op (T1 T2 : ity) (z : Z) : result Z := if sfitsb (common T1 T2) z then Ok z else Throw Undefined.

Definition AddValue (T1 T2 : ity) (left right : Value) : result Value :=
  let x := GetAs T1 left in
  let y := GetAs T2 right in
  let! s := signed_op T1 T2 (x + y) in
  let sum1 := swrap (bits T1) s in
  let sum2 := swrap (bits T2) s in
  if negb (s =? sum1) && negb (s =? sum2) then Throw OutOfRange
  else if sizeof_ge T1 T2 then
    if ((0 <? x) && (0 <? y) && (sum1 <? 0)) || ((x <? 0) && (y <? 0) && (0 <? sum1)) then Throw OutOfRange
    else Value_int T1 (type_id_ left) sum1
  else
    if ((0 <? x) && (0 <? y) && (sum2 <? 0)) || ((x <? 0) && (y <? 0) && (0 <? sum2)) then Throw OutOfRange
    else Value_int T2 (type_id_ right) sum2.

Definition SubtractValue (T1 T2 : ity) (left right : Value) : result Value :=
  let x := GetAs T1 left in
  let y := GetAs T2 right in
  let! d := signed_op T1 T2 (x - y) in
  let diff1 := swrap (bits T1) d in
  let diff2 := swrap (bits T2) d in
  if negb (d =? diff1) && negb (d =? diff2) then Throw OutOfRange
  else if sizeof_ge T1 T2 then
    if ((0 <? x) && (y <? 0) && (diff1 <? 0)) || ((x <? 0) && (0 <? y) && (0 <? diff1)) then Throw OutOfRange
    else Value_int T1 (type_id_ left) diff1
  else
    if ((0 <? x) && (y <? 0) && (diff2 <? 0)) || ((x <? 0) && (0 <? y) && (0 <? diff2)) then Throw OutOfRange
    else Value_int T2 (type_id_ right) diff2.

(** C++ division truncates; the quotient that does not fit, the least number by
    minus one, is undefined behaviour. *)
Definition cdiv (T1 T2 : ity) (x y : Z) : result Z :=
  if Z.quot x y =? 2 ^ (common T1 T2 - 1) then Throw Undefined else Ok (Z.quot x y).
Definition crem (T1 T2 : ity) (x y : Z) : result Z :=
  if Z.quot x y =? 2 ^ (common T1 T2 - 1) then Throw Undefined else Ok (Z.rem x y).

Definition MultiplyValue (T1 T2 : ity) (left right : Value) : result Value :=
  let x := GetAs T1 left in
  let y := GetAs T2 right in
  let! p := signed_op T1 T2 (x * y) in
  let prod1 := swrap (bits T1) p in
  let prod2 := swrap (bits T2) p in
  if negb (p =? prod1) && negb (p =? prod2) then Throw OutOfRange
  else if sizeof_ge T1 T2 then
    let! overflow := if y =? 0 then Ok false else (let! q := cdiv T1 T2 prod1 y in Ok (negb (q =? x))) in
    if overflow : bool then Throw OutOfRange else Value_int T1 (type_id_ left) prod1
  else
    let! overflow := if y =? 0 then Ok false else (let! q := cdiv T1 T2 prod2 y in Ok (negb (q =? x))) in
    if overflow : bool then Throw OutOfRange else Value_int T2 (type_id_ right) prod2.

Definition DivideValue (T1 T2 : ity) (left right : Value) : result Value :=
  let x := GetAs T1 left in
  let y := GetAs T2 right in
  if y =? 0 then Throw DivideByZero
  else
    let! q := cdiv T1 T2 x y in
    if sizeof_ge T1 T2 then Value_int T1 (type_id_ left) (swrap (bits T1) q)
    else Value_int T2 (type_id_ right) (swrap (bits T2) q).

Definition ModuloValue (T1 T2 : ity) (left right : Value) : result Value :=
  let x := GetAs T1 left in
  let y := GetAs T2 right in
  if y =? 0 then Throw DivideByZero
  else
    let! q := crem T1 T2 x y in
    if sizeof_ge T1 T2 then Value_int T1 (type_id_ left) (swrap (bits T1) q)
    else Value_int T2 (type_id_ right) (swrap (bits T2) q).

(** [NumericType::ValMod] *)
Definition ValMod (x y : double) : double := dsub x (dmul (dtrunc (ddiv x y)) y).

(** ** The operator tokens the comparison macros are applied to *)

Inductive cmp_op : Type := OpEq | OpNe | OpLt | OpLe | OpGt | OpGe.

Definition cmpZ (OP : cmp_op) (a b : Z) : bool :=
  match OP with
  | OpEq => a =? b | OpNe => negb (a =? b) | OpLt => a <? b | OpLe => a <=? b | OpGt => b <? a | OpGe => b <=? a
  end.
Definition cmpD (OP : cmp_op) (a b : double) : bool :=
  match OP with
  | OpEq => deqb a b | OpNe => negb (deqb a b) | OpLt => dltb a b | OpLe => dleb a b | OpGt => dltb b a | OpGe => dleb b a
  end.

(** ** The macros of the integer types *)

Definition INT_COMPARE (T : ity) (own : TypeId) (OP : cmp_op) (left right : Value) : result CmpBool :=
  match type_id_ right with
  | TINYINT => Ok (GetCmpBool (cmpZ OP (GetAs T left) (GetAs int8_t right)))
  | SMALLINT => Ok (GetCmpBool (cmpZ OP (GetAs T left) (GetAs int16_t right)))
  | INTEGER => Ok (GetCmpBool (cmpZ OP (GetAs T left) (GetAs int32_t right)))
  | BIGINT => Ok (GetCmpBool (cmpZ OP (GetAs T left) (GetAs int64_t right)))
  | DECIMAL => Ok (GetCmpBool (cmpD OP (of_int (GetAs T left)) (GetAs_double right)))
  | VARCHAR =>
      let! r_value := Value_CastAs right own in
      Ok (GetCmpBool (cmpZ OP (GetAs T left) (GetAs T r_value)))
  | _ => Throw EMessage
  end.

Definition INT_MODIFY (T : ity) (own : TypeId) (METHOD : ity -> ity -> Value -> Value -> result Value)
    (OP : double -> double -> double) (left right : Value) : result Value :=
  match type_id_ right with
  | TINYINT => METHOD T int8_t left right
  | SMALLINT => METHOD T int16_t left right
  | INTEGER => METHOD T int32_t left right
  | BIGINT => METHOD T int64_t left right
  | DECIMAL => Value_double DECIMAL (OP (of_int (GetAs T left)) (GetAs_double right))
  | VARCHAR => let! r_value := Value_CastAs right own in METHOD T T left r_value
  | _ => Throw EMessage
  end.

Definition TINYINT_COMPARE_FUNC : cmp_op -> Value -> Value -> result CmpBool := INT_COMPARE int8_t TINYINT.
Definition SMALLINT_COMPARE_FUNC : cmp_op -> Value -> Value -> result CmpBool := INT_COMPARE int16_t SMALLINT.
Definition INT_COMPARE_FUNC : cmp_op -> Value -> Value -> result CmpBool := INT_COMPARE int32_t INTEGER.
Definition BIGINT_COMPARE_FUNC : cmp_op -> Value -> Value -> result CmpBool := INT_COMPARE int64_t BIGINT.

Definition TINYINT_MODIFY_FUNC := INT_MODIFY int8_t TINYINT.
Definition SMALLINT_MODIFY_FUNC := INT_MODIFY int16_t SMALLINT.
Definition INT_MODIFY_FUNC := INT_MODIFY int32_t INTEGER.
Definition BIGINT_MODIFY_FUNC := INT_MODIFY int64_t BIGINT.

(** ** [TinyintType] *)

Definition TinyintType_Add (left right : Value) : result Value :=
  assert! CheckInteger left; assert! CheckComparable left right;
  if IsNull left || IsNull right then Value_OperateNull left right
  else TINYINT_MODIFY_FUNC AddValue dadd left right.

Definition TinyintType_Subtract (left right : Value) : result Value :=
  assert! CheckInteger left; assert! CheckComparable left right;
  if IsNull left || IsNull right then Value_OperateNull left right
  else TINYINT_MODIFY_FUNC SubtractValue dsub left right.

Definition TinyintType_Multiply (left right : Value) : result Value :=
  assert! CheckInteger left; assert! CheckComparable left right;
  if IsNull left || IsNull right then Value_OperateNull left right
  else TINYINT_MODIFY_FUNC MultiplyValue dmul left right.

Definition TinyintType_Divide (left right : Value) : result Value :=
  assert! CheckInteger left; assert! CheckComparable left right;
  if IsNull left || IsNull right then Value_OperateNull left right
  else
    let! zero := Value_IsZero right in
    if zero : bool then Throw DivideByZero else TINYINT_MODIFY_FUNC DivideValue ddiv left right.

Definition TinyintType_Modulo (left right : Value) : result Value :=
  assert! CheckInteger left; assert! CheckComparable left right;
  if IsNull left || IsNull right then Value_OperateNull left right
  else
    let! zero := Value_IsZero right in
    if zero : bool then Throw DivideByZero
    else match type_id_ right with
         | TINYINT => ModuloValue int8_t int8_t left right
         | SMALLINT => ModuloValue int8_t int16_t left right
         | INTEGER => ModuloValue int8_t int32_t left right
         | BIGINT => ModuloValue int8_t int64_t left right
         | DECIMAL => Value_double DECIMAL (ValMod (of_int (GetAs int8_t left)) (GetAs_double right))
         | VARCHAR => let! r_value := Value_CastAs right TINYINT in ModuloValue int8_t int8_t left r_value
         | _ => Throw EMessage
         end.

Definition TinyintType_Sqrt (val : Value) : result Value :=
  assert! CheckInteger val;
  if IsNull val then Value_double DECIMAL BUSTUB_DECIMAL_NULL
  else if GetAs int8_t val <? 0 then Throw DecimalError
  else Value_double DECIMAL (dsqrt (of_int (GetAs int8_t val))).

Definition TinyintType_CompareEquals (left right : Value) : result CmpBool :=
  assert! CheckInteger left; assert! CheckComparable left right;
  if IsNull left || IsNull right then Ok CmpNull else TINYINT_COMPARE_FUNC OpEq left right.

Definition TinyintType_CompareNotEquals (left right : Value) : result CmpBool :=
  assert! CheckInteger left; assert! CheckComparable left right;
  if IsNull left || IsNull right then Ok CmpNull else TINYINT_COMPARE_FUNC OpNe left right.

Definition TinyintType_CompareLessThan (left right : Value) : result CmpBool :=
  assert! CheckInteger left; assert! CheckComparable left right;
  if IsNull left || IsNull right then Ok CmpNull else TINYINT_COMPARE_FUNC OpLt left right.

Definition TinyintType_CompareLessThanEquals (left right : Value) : result CmpBool :=
  assert! CheckInteger left; assert! CheckComparable left right;
  if IsNull left || IsNull right then Ok CmpNull else TINYINT_COMPARE_FUNC OpLe left right.

Definition TinyintType_CompareGreaterThan (left right : Value) : result CmpBool :=
  assert! CheckInteger left; assert! CheckComparable left right;
  if IsNull left || IsNull right then Ok CmpNull else TINYINT_COMPARE_FUNC OpGt left right.

Definition TinyintType_CompareGreaterThanEquals (left right : Value) : result CmpBool :=
  assert! CheckInteger left; assert! CheckComparable left right;
  if IsNull left || IsNull right then Ok CmpNull else TINYINT_COMPARE_FUNC OpGe left right.

(** ** [SmallintType] *)

Definition SmallintType_Add (left right : Value) : result Value :=
  assert! CheckInteger left; assert! CheckComparable left right;
  if IsNull left || IsNull right then Value_OperateNull left right
  else SMALLINT_MODIFY_FUNC AddValue dadd left right.

Definition SmallintType_Subtract (left right : Value) : result Value :=
  assert! CheckInteger left; assert! CheckComparable left right;
  if IsNull left || IsNull right then Value_OperateNull left right
  else SMALLINT_MODIFY_FUNC SubtractValue dsub left right.

Definition SmallintType_Multiply (left right : Value) : result Value :=
  assert! CheckInteger left; assert! CheckComparable left right;
  if IsNull left || IsNull right then Value_OperateNull left right
  else SMALLINT_MODIFY_FUNC MultiplyValue dmul left right.

Definition SmallintType_Divide (left right : Value) : result Value :=
  assert! CheckInteger left; assert! CheckComparable left right;
  if IsNull left || IsNull right then Value_OperateNull left right
  else
    let! zero := Value_IsZero right in
    if zero : bool then Throw DivideByZero else SMALLINT_MODIFY_FUNC DivideValue ddiv left right.

Definition SmallintType_Modulo (left right : Value) : result Value :=
  assert! CheckInteger left; assert! CheckComparable left right;
  if IsNull left || IsNull right then Value_OperateNull left right
  else
    let! zero := Value_IsZero right in
    if zero : bool then Throw DivideByZero
    else match type_id_ right with
         | TINYINT => ModuloValue int16_t int8_t left right
         | SMALLINT => ModuloValue int16_t int16_t left right
         | INTEGER => ModuloValue int16_t int32_t left right
         | BIGINT => ModuloValue int16_t int64_t left right
         | DECIMAL => Value_double DECIMAL (ValMod (of_int (GetAs int16_t left)) (GetAs_double right))
         | VARCHAR => let! r_value := Value_CastAs right SMALLINT in ModuloValue int16_t int16_t left r_value
         | _ => Throw EMessage
         end.

Definition SmallintType_Sqrt (val : Value) : result Value :=
  assert! CheckInteger val;
  if IsNull val then Value_double DECIMAL BUSTUB_DECIMAL_NULL
  else if GetAs int16_t val <? 0 then Throw DecimalError
  else Value_double DECIMAL (dsqrt (of_int (GetAs int16_t val))).

Definition SmallintType_CompareEquals (left right : Value) : result CmpBool :=
  assert! CheckInteger left; assert! CheckComparable left right;
  if IsNull left || IsNull right then Ok CmpNull else SMALLINT_COMPARE_FUNC OpEq left right.

Definition SmallintType_CompareNotEquals (left right : Value) : result CmpBool :=
  assert! CheckInteger left; assert! CheckComparable left right;
  if IsNull left || IsNull right then Ok CmpNull else SMALLINT_COMPARE_FUNC OpNe left right.

Definition SmallintType_CompareLessThan (left right : Value) : result CmpBool :=
  assert! CheckInteger left; assert! CheckComparable left right;
  if IsNull left || IsNull right then Ok CmpNull else SMALLINT_COMPARE_FUNC OpLt left right.

Definition SmallintType_CompareLessThanEquals (left right : Value) : result CmpBool :=
  assert! CheckInteger left; assert! CheckComparable left right;
  if IsNull left || IsNull right then Ok CmpNull else SMALLINT_COMPARE_FUNC OpLe left right.

Definition SmallintType_CompareGreaterThan (left right : Value) : result CmpBool :=
  assert! CheckInteger left; assert! CheckComparable left right;
  if IsNull left || IsNull right then Ok CmpNull else SMALLINT_COMPARE_FUNC OpGt left right.

Definition SmallintType_CompareGreaterThanEquals (left right : Value) : result CmpBool :=
  assert! CheckInteger left; assert! CheckComparable left right;
  if IsNull left || IsNull right then Ok CmpNull else SMALLINT_COMPARE_FUNC OpGe left right.

(** ** [IntegerType] *)

Definition IntegerType_Add (left right : Value) : result Value :=
  assert! CheckInteger left; assert! CheckComparable left right;
  if IsNull left || IsNull right then Value_OperateNull left right
  else INT_MODIFY_FUNC AddValue dadd left right.

Definition IntegerType_Subtract (left right : Value) : result Value :=
  assert! CheckInteger left; assert! CheckComparable left right;
  if IsNull left || IsNull right then Value_OperateNull left right
  else INT_MODIFY_FUNC SubtractValue dsub left right.

Definition IntegerType_Multiply (left right : Value) : result Value :=
  assert! CheckInteger left; assert! CheckComparable left right;
  if IsNull left || IsNull right then Value_OperateNull left right
  else INT_MODIFY_FUNC MultiplyValue dmul left right.

Definition IntegerType_Divide (left right : Value) : result Value :=
  assert! CheckInteger left; assert! CheckComparable left right;
  if IsNull left || IsNull right then Value_OperateNull left right
  else
    let! zero := Value_IsZero right in
    if zero : bool then Throw DivideByZero else INT_MODIFY_FUNC DivideValue ddiv left right.

Definition IntegerType_Modulo (left right : Value) : result Value :=
  assert! CheckInteger left; assert! CheckComparable left right;
  if IsNull left || IsNull right then Value_OperateNull left right
  else
    let! zero := Value_IsZero right in
    if zero : bool then Throw DivideByZero
    else match type_id_ right with
         | TINYINT => ModuloValue int32_t int8_t left right
         | SMALLINT => ModuloValue int32_t int16_t left right
         | INTEGER => ModuloValue int32_t int32_t left right
         | BIGINT => ModuloValue int32_t int64_t left right
         | DECIMAL => Value_double DECIMAL (ValMod (of_int (GetAs int32_t left)) (GetAs_double right))
         | VARCHAR => let! r_value := Value_CastAs right INTEGER in ModuloValue int32_t int32_t left r_value
         | _ => Throw EMessage
         end.

Definition IntegerType_Sqrt (val : Value) : result Value :=
  assert! CheckInteger val;
  if IsNull val then IntegerType_OperateNull val val
  else if GetAs int32_t val <? 0 then Throw DecimalError
  else Value_double DECIMAL (dsqrt (of_int (GetAs int32_t val))).

Definition IntegerType_CompareEquals (left right : Value) : result CmpBool :=
  assert! CheckInteger left; assert! CheckComparable left right;
  if IsNull left || IsNull right then Ok CmpNull else INT_COMPARE_FUNC OpEq left right.

Definition IntegerType_CompareNotEquals (left right : Value) : result CmpBool :=
  assert! CheckInteger left; assert! CheckComparable left right;
  if IsNull left || IsNull right then Ok CmpNull else INT_COMPARE_FUNC OpNe left right.

Definition IntegerType_CompareLessThan (left right : Value) : result CmpBool :=
  assert! CheckInteger left; assert! CheckComparable left right;
  if IsNull left || IsNull right then Ok CmpNull else INT_COMPARE_FUNC OpLt left right.

Definition IntegerType_CompareLessThanEquals (left right : Value) : result CmpBool :=
  assert! CheckInteger left; assert! CheckComparable left right;
  if IsNull left || IsNull right then Ok CmpNull else INT_COMPARE_FUNC OpLe left right.

Definition IntegerType_CompareGreaterThan (left right : Value) : result CmpBool :=
  assert! CheckInteger left; assert! CheckComparable left right;
  if IsNull left || IsNull right then Ok CmpNull else INT_COMPARE_FUNC OpGt left right.

Definition IntegerType_CompareGreaterThanEquals (left right : Value) : result CmpBool :=
  assert! CheckInteger left; assert! CheckComparable left right;
  if IsNull left || IsNull right then Ok CmpNull else INT_COMPARE_FUNC OpGe left right.

(** ** [BigintType] *)

Definition BigintType_Add (left right : Value) : result Value :=
  assert! CheckInteger left; assert! CheckComparable left right;
  if IsNull left || IsNull right then Value_OperateNull left right
  else BIGINT_MODIFY_FUNC AddValue dadd left right.

Definition BigintType_Subtract (left right : Value) : result Value :=
  assert! CheckInteger left; assert! CheckComparable left right;
  if IsNull left || IsNull right then Value_OperateNull left right
  else BIGINT_MODIFY_FUNC SubtractValue dsub left right.

Definition BigintType_Multiply (left right : Value) : result Value :=
  assert! CheckInteger left; assert! CheckComparable left right;
  if IsNull left || IsNull right then Value_OperateNull left right
  else BIGINT_MODIFY_FUNC MultiplyValue dmul left right.

Definition BigintType_Divide (left right : Value) : result Value :=
  assert! CheckInteger left; assert! CheckComparable left right;
  if IsNull left || IsNull right then Value_OperateNull left right
  else
    let! zero := Value_IsZero right in
    if zero : bool then Throw DivideByZero else BIGINT_MODIFY_FUNC DivideValue ddiv left right.

Definition BigintType_Modulo (left right : Value) : result Value :=
  assert! CheckInteger left; assert! CheckComparable left right;
  if IsNull left || IsNull right then Value_OperateNull left right
  else
    let! zero := Value_IsZero right in
    if zero : bool then Throw DivideByZero
    else match type_id_ right with
         | TINYINT => ModuloValue int64_t int8_t left right
         | SMALLINT => ModuloValue int64_t int16_t left right
         | INTEGER => ModuloValue int64_t int32_t left right
         | BIGINT => ModuloValue int64_t int64_t left right
         | DECIMAL => Value_double DECIMAL (ValMod (of_int (GetAs int64_t left)) (GetAs_double right))
         | VARCHAR => let! r_value := Value_CastAs right BIGINT in ModuloValue int64_t int64_t left r_value
         | _ => Throw EMessage
         end.

Definition BigintType_Sqrt (val : Value) : result Value :=
  assert! CheckInteger val;
  if IsNull val then Value_double DECIMAL BUSTUB_DECIMAL_NULL
  else if GetAs int64_t val <? 0 then Throw DecimalError
  else Value_double DECIMAL (dsqrt (of_int (GetAs int64_t val))).

Definition BigintType_CompareEquals (left right : Value) : result CmpBool :=
  assert! CheckInteger left; assert! CheckComparable left right;
  if IsNull left || IsNull right then Ok CmpNull else BIGINT_COMPARE_FUNC OpEq left right.

Definition BigintType_CompareNotEquals (left right : Value) : result CmpBool :=
  assert! CheckInteger left; assert! CheckComparable left right;
  if IsNull left || IsNull right then Ok CmpNull else BIGINT_COMPARE_FUNC OpNe left right.

Definition BigintType_CompareLessThan (left right : Value) : result CmpBool :=
  assert! CheckInteger left; assert! CheckComparable left right;
  if IsNull left || IsNull right then Ok CmpNull else BIGINT_COMPARE_FUNC OpLt left right.

Definition BigintType_CompareLessThanEquals (left right : Value) : result CmpBool :=
  assert! CheckInteger left; assert! CheckComparable left right;
  if IsNull left || IsNull right then Ok CmpNull else BIGINT_COMPARE_FUNC OpLe left right.

Definition BigintType_CompareGreaterThan (left right : Value) : result CmpBool :=
  assert! CheckInteger left; assert! CheckComparable left right;
  if IsNull left || IsNull right then Ok CmpNull else BIGINT_COMPARE_FUNC OpGt left right.

Definition BigintType_CompareGreaterThanEquals (left right : Value) : result CmpBool :=
  assert! CheckInteger left; assert! CheckComparable left right;
  if IsNull left || IsNull right then Ok CmpNull else BIGINT_COMPARE_FUNC OpGe left right.

(** ** [DecimalType] *)

(** The right operand as the double the usual conversions make of it; a string is cast first. *)
Definition decimal_operand (right : Value) : result double :=
  match type_id_ right with
  | TINYINT => Ok (of_int (GetAs int8_t right))
  | SMALLINT => Ok (of_int (GetAs int16_t right))
  | INTEGER => Ok (of_int (GetAs int32_t right))
  | BIGINT => Ok (of_int (GetAs int64_t right))
  | DECIMAL => Ok (GetAs_double right)
  | VARCHAR => let! r_value := Value_CastAs right DECIMAL in Ok (GetAs_double r_value)
  | _ => Throw EMessage
  end.

Definition DECIMAL_COMPARE_FUNC (OP : cmp_op) (left right : Value) : result CmpBool :=
  let! r := decimal_operand right in Ok (GetCmpBool (cmpD OP (GetAs_double left) r)).
Definition DECIMAL_MODIFY_FUNC (OP : double -> double -> double) (left right : Value) : result Value :=
  let! r := decimal_operand right in Value_double DECIMAL (OP (GetAs_double left) r).

Definition DecimalType_Add (left right : Value) : result Value :=
  assert! CheckComparable left right;
  if IsNull left || IsNull right then Value_OperateNull left right else DECIMAL_MODIFY_FUNC dadd left right.

Definition DecimalType_Subtract (left right : Value) : result Value :=
  assert! CheckComparable left right;
  if IsNull left || IsNull right then Value_OperateNull left right else DECIMAL_MODIFY_FUNC dsub left right.

Definition DecimalType_Multiply (left right : Value) : result Value :=
  assert! CheckComparable left right;
  if IsNull left || IsNull right then Value_OperateNull left right else DECIMAL_MODIFY_FUNC dmul left right.

Definition DecimalType_Divide (left right : Value) : result Value :=
  assert! CheckComparable left right;
  if IsNull left || IsNull right then Value_OperateNull left right
  else
    let! zero := Value_IsZero right in
    if zero : bool then Throw DivideByZero else DECIMAL_MODIFY_FUNC ddiv left right.

Definition DecimalType_Modulo (left right : Value) : result Value :=
  assert! CheckComparable left right;
  if IsNull left || IsNull right then DecimalType_OperateNull left right
  else
    let! zero := Value_IsZero right in
    if zero : bool then Throw DivideByZero
    else let! r := decimal_operand right in Value_double DECIMAL (ValMod (GetAs_double left) r).

Definition DecimalType_Sqrt (val : Value) : result Value :=
  if IsNull val then Value_double DECIMAL BUSTUB_DECIMAL_NULL
  else if dltb (GetAs_double val) (of_int 0) then Throw DecimalError
  else Value_double DECIMAL (dsqrt (GetAs_double val)).

Definition DecimalType_CompareEquals (left right : Value) : result CmpBool :=
  assert! CheckComparable left right;
  if IsNull left || IsNull right then Ok CmpNull else DECIMAL_COMPARE_FUNC OpEq left right.

Definition DecimalType_CompareNotEquals (left right : Value) : result CmpBool :=
  assert! CheckComparable left right;
  if IsNull left || IsNull right then Ok CmpNull else DECIMAL_COMPARE_FUNC OpNe left right.

Definition DecimalType_CompareLessThan (left right : Value) : result CmpBool :=
  assert! CheckComparable left right;
  if IsNull left || IsNull right then Ok CmpNull else DECIMAL_COMPARE_FUNC OpLt left right.

Definition DecimalType_CompareLessThanEquals (left right : Value) : result CmpBool :=
  assert! CheckComparable left right;
  if IsNull left || IsNull right then Ok CmpNull else DECIMAL_COMPARE_FUNC OpLe left right.

Definition DecimalType_CompareGreaterThan (left right : Value) : result CmpBool :=
  assert! CheckComparable left right;
  if IsNull left || IsNull right then Ok CmpNull else DECIMAL_COMPARE_FUNC OpGt left right.

Definition DecimalType_CompareGreaterThanEquals (left right : Value) : result CmpBool :=
  assert! CheckComparable left right;
  if IsNull left || IsNull right then Ok CmpNull else DECIMAL_COMPARE_FUNC OpGe left right.

(** ** [BooleanType] *)

Definition BOOLEAN_COMPARE_FUNC (OP : cmp_op) (left right : Value) : result CmpBool :=
  let! r := Value_CastAs right BOOLEAN in
  Ok (GetCmpBool (cmpZ OP (GetAs int8_t left) (GetAs int8_t r))).

Definition BooleanType_CompareEquals (left right : Value) : result CmpBool :=
  assert! CheckComparable left right;
  if IsNull left || IsNull right then Ok CmpNull else BOOLEAN_COMPARE_FUNC OpEq left right.

Definition BooleanType_CompareNotEquals (left right : Value) : result CmpBool :=
  assert! CheckComparable left right;
  if IsNull left || IsNull right then Ok CmpNull else BOOLEAN_COMPARE_FUNC OpNe left right.

Definition BooleanType_CompareLessThan (left right : Value) : result CmpBool :=
  assert! CheckComparable left right;
  if IsNull left || IsNull right then Ok CmpNull else BOOLEAN_COMPARE_FUNC OpLt left right.

Definition BooleanType_CompareLessThanEquals (left right : Value) : result CmpBool :=
  assert! CheckComparable left right;
  if IsNull left || IsNull right then Ok CmpNull else BOOLEAN_COMPARE_FUNC OpLe left right.

Definition BooleanType_CompareGreaterThan (left right : Value) : result CmpBool :=
  assert! CheckComparable left right;
  if IsNull left || IsNull right then Ok CmpNull else BOOLEAN_COMPARE_FUNC OpGt left right.

Definition BooleanType_CompareGreaterThanEquals (left right : Value) : result CmpBool :=
  assert! CheckComparable left right;
  if IsNull left || IsNull right then Ok CmpNull else BOOLEAN_COMPARE_FUNC OpGe left right.

(** ** [VarlenType] *)

(** [memcmp] on [n] bytes: the sign of the first difference. *)
Fixpoint memcmp (n : nat) (a b : list Z) : result Z :=
  match n with
  | O => Ok 0
  | S n =>
      match a, b with
      | x :: a, y :: b => if x =? y then memcmp n a b else Ok (x - y)
      | _, _ => Throw Undefined
      end
  end.

(** [TypeUtil::CompareStrings] *)
Definition CompareStrings (str1 : option (list Z)) (len1 : Z) (str2 : option (list Z)) (len2 : Z) : result Z :=
  match str1, str2 with
  | Some a, Some b =>
      assert! 0 <=? len1; assert! 0 <=? len2;
      let! ret := memcmp (Z.to_nat (Z.min len1 len2)) a b in
      if (ret =? 0) && negb (len1 =? len2) then Ok (len1 - len2) else Ok ret
  | _, _ => Throw AssertFailed
  end.

(** The lengths are [uint32_t] and become the [int] parameters of [CompareStrings]. *)
Definition VARLEN_COMPARE_FUNC (OP : cmp_op) (left right : Value) : result CmpBool :=
  let str1 := VarlenType_GetData left in
  let len1 := swrap 32 (VarlenType_GetLength left - 1) in
  let! r_value := if TypeId_eqb (type_id_ right) VARCHAR then Ok right else Value_CastAs right VARCHAR in
  let str2 := VarlenType_GetData r_value in
  let len2 := swrap 32 (VarlenType_GetLength r_value - 1) in
  let! c := CompareStrings str1 len1 str2 len2 in
  Ok (GetCmpBool (cmpZ OP c 0)).

Definition VarlenType_CompareEquals (left right : Value) : result CmpBool :=
  assert! CheckComparable left right;
  if IsNull left || IsNull right then Ok CmpNull
  else if (VarlenType_GetLength left =? BUSTUB_VARCHAR_MAX_LEN) || (VarlenType_GetLength right =? BUSTUB_VARCHAR_MAX_LEN)
  then Ok (GetCmpBool (cmpZ OpEq (VarlenType_GetLength left) (VarlenType_GetLength right)))
  else VARLEN_COMPARE_FUNC OpEq left right.

Definition VarlenType_CompareNotEquals (left right : Value) : result CmpBool :=
  assert! CheckComparable left right;
  if IsNull left || IsNull right then Ok CmpNull
  else if (VarlenType_GetLength left =? BUSTUB_VARCHAR_MAX_LEN) || (VarlenType_GetLength right =? BUSTUB_VARCHAR_MAX_LEN)
  then Ok (GetCmpBool (cmpZ OpNe (VarlenType_GetLength left) (VarlenType_GetLength right)))
  else VARLEN_COMPARE_FUNC OpNe left right.

Definition VarlenType_CompareLessThan (left right : Value) : result CmpBool :=
  assert! CheckComparable left right;
  if IsNull left || IsNull right then Ok CmpNull
  else if (VarlenType_GetLength left =? BUSTUB_VARCHAR_MAX_LEN) || (VarlenType_GetLength right =? BUSTUB_VARCHAR_MAX_LEN)
  then Ok (GetCmpBool (cmpZ OpLt (VarlenType_GetLength left) (VarlenType_GetLength right)))
  else VARLEN_COMPARE_FUNC OpLt left right.

Definition VarlenType_CompareLessThanEquals (left right : Value) : result CmpBool :=
  assert! CheckComparable left right;
  if IsNull left || IsNull right then Ok CmpNull
  else if (VarlenType_GetLength left =? BUSTUB_VARCHAR_MAX_LEN) || (VarlenType_GetLength right =? BUSTUB_VARCHAR_MAX_LEN)
  then Ok (GetCmpBool (cmpZ OpLe (VarlenType_GetLength left) (VarlenType_GetLength right)))
  else VARLEN_COMPARE_FUNC OpLe left right.

Definition VarlenType_CompareGreaterThan (left right : Value) : result CmpBool :=
  assert! CheckComparable left right;
  if IsNull left || IsNull right then Ok CmpNull
  else if (VarlenType_GetLength left =? BUSTUB_VARCHAR_MAX_LEN) || (VarlenType_GetLength right =? BUSTUB_VARCHAR_MAX_LEN)
  then Ok (GetCmpBool (cmpZ OpGt (VarlenType_GetLength left) (VarlenType_GetLength right)))
  else VARLEN_COMPARE_FUNC OpGt left right.

Definition VarlenType_CompareGreaterThanEquals (left right : Value) : result CmpBool :=
  assert! CheckComparable left right;
  if IsNull left || IsNull right then Ok CmpNull
  else if (VarlenType_GetLength left =? BUSTUB_VARCHAR_MAX_LEN) || (VarlenType_GetLength right =? BUSTUB_VARCHAR_MAX_LEN)
  then Ok (GetCmpBool (cmpZ OpGe (VarlenType_GetLength left) (VarlenType_GetLength right)))
  else VARLEN_COMPARE_FUNC OpGe left right.

(** ** The comparison methods of [Value] *)

Definition Value_CompareEquals (left right : Value) : result CmpBool :=
  let! c := GetInstance (type_id_ left) in
  match c with
  | Type_ => Throw NotImplemented
  | BooleanType => BooleanType_CompareEquals left right
  | TinyintType => TinyintType_CompareEquals left right
  | SmallintType => SmallintType_CompareEquals left right
  | IntegerType => IntegerType_CompareEquals left right
  | BigintType => BigintType_CompareEquals left right
  | DecimalType => DecimalType_CompareEquals left right
  | VarlenType => VarlenType_CompareEquals left right
  end.

Definition Value_CompareNotEquals (left right : Value) : result CmpBool :=
  let! c := GetInstance (type_id_ left) in
  match c with
  | Type_ => Throw NotImplemented
  | BooleanType => BooleanType_CompareNotEquals left right
  | TinyintType => TinyintType_CompareNotEquals left right
  | SmallintType => SmallintType_CompareNotEquals left right
  | IntegerType => IntegerType_CompareNotEquals left right
  | BigintType => BigintType_CompareNotEquals left right
  | DecimalType => DecimalType_CompareNotEquals left right
  | VarlenType => VarlenType_CompareNotEquals left right
  end.

Definition Value_CompareLessThan (left right : Value) : result CmpBool :=
  let! c := GetInstance (type_id_ left) in
  match c with
  | Type_ => Throw NotImplemented
  | BooleanType => BooleanType_CompareLessThan left right
  | TinyintType => TinyintType_CompareLessThan left right
  | SmallintType => SmallintType_CompareLessThan left right
  | IntegerType => IntegerType_CompareLessThan left right
  | BigintType => BigintType_CompareLessThan left right
  | DecimalType => DecimalType_CompareLessThan left right
  | VarlenType => VarlenType_CompareLessThan left right
  end.

Definition Value_CompareLessThanEquals (left right : Value) : result CmpBool :=
  let! c := GetInstance (type_id_ left) in
  match c with
  | Type_ => Throw NotImplemented
  | BooleanType => BooleanType_CompareLessThanEquals left right
  | TinyintType => TinyintType_CompareLessThanEquals left right
  | SmallintType => SmallintType_CompareLessThanEquals left right
  | IntegerType => IntegerType_CompareLessThanEquals left right
  | BigintType => BigintType_CompareLessThanEquals left right
  | DecimalType => DecimalType_CompareLessThanEquals left right
  | VarlenType => VarlenType_CompareLessThanEquals left right
  end.

Definition Value_CompareGreaterThan (left right : Value) : result CmpBool :=
  let! c := GetInstance (type_id_ left) in
  match c with
  | Type_ => Throw NotImplemented
  | BooleanType => BooleanType_CompareGreaterThan left right
  | TinyintType => TinyintType_CompareGreaterThan left right
  | SmallintType => SmallintType_CompareGreaterThan left right
  | IntegerType => IntegerType_CompareGreaterThan left right
  | BigintType => BigintType_CompareGreaterThan left right
  | DecimalType => DecimalType_CompareGreaterThan left right
  | VarlenType => VarlenType_CompareGreaterThan left right
  end.

Definition Value_CompareGreaterThanEquals (left right : Value) : result CmpBool :=
  let! c := GetInstance (type_id_ left) in
  match c with
  | Type_ => Throw NotImplemented
  | BooleanType => BooleanType_CompareGreaterThanEquals left right
  | TinyintType => TinyintType_CompareGreaterThanEquals left right
  | SmallintType => SmallintType_CompareGreaterThanEquals left right
  | IntegerType => IntegerType_CompareGreaterThanEquals left right
  | BigintType => BigintType_CompareGreaterThanEquals left right
  | DecimalType => DecimalType_CompareGreaterThanEquals left right
  | VarlenType => VarlenType_CompareGreaterThanEquals left right
  end.

(** ** Min, Max *)

Definition IntegerParentType_Min (left right : Value) : result Value :=
  assert! CheckInteger left; assert! CheckComparable left right;
  if IsNull left || IsNull right then Value_OperateNull left right
  else
    let! c := Value_CompareLessThan left right in
    if bool_decide (c = CmpTrue) then Value_Copy left else Value_Copy right.

Definition IntegerParentType_Max (left right : Value) : result Value :=
  assert! CheckInteger left; assert! CheckComparable left right;
  if IsNull left || IsNull right then Value_OperateNull left right
  else
    let! c := Value_CompareGreaterThanEquals left right in
    if bool_decide (c = CmpTrue) then Value_Copy left else Value_Copy right.

Definition DecimalType_Min (left right : Value) : result Value :=
  assert! CheckComparable left right;
  if IsNull left || IsNull right then Value_OperateNull left right
  else
    let! c := Value_CompareLessThanEquals left right in
    if bool_decide (c = CmpTrue) then Value_Copy left else Value_Copy right.

Definition DecimalType_Max (left right : Value) : result Value :=
  assert! CheckComparable left right;
  if IsNull left || IsNull right then Value_OperateNull left right
  else
    let! c := Value_CompareGreaterThanEquals left right in
    if bool_decide (c = CmpTrue) then Value_Copy left else Value_Copy right.

Definition VarlenType_Min (left right : Value) : result Value :=
  assert! CheckComparable left right;
  if IsNull left || IsNull right then Value_OperateNull left right
  else
    let! c := Value_CompareLessThan left right in
    if bool_decide (c = CmpTrue) then Value_Copy left else Value_Copy right.

Definition VarlenType_Max (left right : Value) : result Value :=
  assert! CheckComparable left right;
  if IsNull left || IsNull right then Value_OperateNull left right
  else
    let! c := Value_CompareGreaterThan left right in
    if bool_decide (c = CmpTrue) then Value_Copy left else Value_Copy right.

(** ** The arithmetic methods of [Value] *)

Definition Value_Add (left right : Value) : result Value :=
  let! c := GetInstance (type_id_ left) in
  match c with
  | Type_ | BooleanType | VarlenType => Throw NotImplemented
  | TinyintType => TinyintType_Add left right
  | SmallintType => SmallintType_Add left right
  | IntegerType => IntegerType_Add left right
  | BigintType => BigintType_Add left right
  | DecimalType => DecimalType_Add left right
  end.

Definition Value_Subtract (left right : Value) : result Value :=
  let! c := GetInstance (type_id_ left) in
  match c with
  | Type_ | BooleanType | VarlenType => Throw NotImplemented
  | TinyintType => TinyintType_Subtract left right
  | SmallintType => SmallintType_Subtract left right
  | IntegerType => IntegerType_Subtract left right
  | BigintType => BigintType_Subtract left right
  | DecimalType => DecimalType_Subtract left right
  end.

Definition Value_Multiply (left right : Value) : result Value :=
  let! c := GetInstance (type_id_ left) in
  match c with
  | Type_ | BooleanType | VarlenType => Throw NotImplemented
  | TinyintType => TinyintType_Multiply left right
  | SmallintType => SmallintType_Multiply left right
  | IntegerType => IntegerType_Multiply left right
  | BigintType => BigintType_Multiply left right
  | DecimalType => DecimalType_Multiply left right
  end.

Definition Value_Divide (left right : Value) : result Value :=
  let! c := GetInstance (type_id_ left) in
  match c with
  | Type_ | BooleanType | VarlenType => Throw NotImplemented
  | TinyintType => TinyintType_Divide left right
  | SmallintType => SmallintType_Divide left right
  | IntegerType => IntegerType_Divide left right
  | BigintType => BigintType_Divide left right
  | DecimalType => DecimalType_Divide left right
  end.

Definition Value_Modulo (left right : Value) : result Value :=
  let! c := GetInstance (type_id_ left) in
  match c with
  | Type_ | BooleanType | VarlenType => Throw NotImplemented
  | TinyintType => TinyintType_Modulo left right
  | SmallintType => SmallintType_Modulo left right
  | IntegerType => IntegerType_Modulo left right
  | BigintType => BigintType_Modulo left right
  | DecimalType => DecimalType_Modulo left right
  end.

Definition Value_Min (left right : Value) : result Value :=
  let! c := GetInstance (type_id_ left) in
  match c with
  | Type_ | BooleanType => Throw NotImplemented
  | TinyintType | SmallintType | IntegerType | BigintType => IntegerParentType_Min left right
  | DecimalType => DecimalType_Min left right
  | VarlenType => VarlenType_Min left right
  end.

Definition Value_Max (left right : Value) : result Value :=
  let! c := GetInstance (type_id_ left) in
  match c with
  | Type_ | BooleanType => Throw NotImplemented
  | TinyintType | SmallintType | IntegerType | BigintType => IntegerParentType_Max left right
  | DecimalType => DecimalType_Max left right
  | VarlenType => VarlenType_Max left right
  end.

Definition Value_Sqrt (val : Value) : result Value :=
  let! c := GetInstance (type_id_ val) in
  match c with
  | Type_ | BooleanType | VarlenType => Throw NotImplemented
  | TinyintType => TinyintType_Sqrt val
  | SmallintType => SmallintType_Sqrt val
  | IntegerType => IntegerType_Sqrt val
  | BigintType => BigintType_Sqrt val
  | DecimalType => DecimalType_Sqrt val
  end.

(** ** Overflow detection is exact *)

Definition wide (T1 T2 : ity) : ity := if sizeof_ge T1 T2 then T1 else T2.
Definition wide_id (t1 t2 : TypeId) (T1 T2 : ity) : TypeId := if sizeof_ge T1 T2 then t1 else t2.

Lemma sfitsb_spec w z : reflect (sfits w z) (sfitsb w z).
Proof. apply iff_reflect. unfold sfits, sfitsb. lia. Qed.

(** The exact result [z] in the wider type; the overflow exception when it does not fit; undefined behaviour when
    it does not even fit the type of the computation. *)
Definition exact (t1 t2 : TypeId) (T1 T2 : ity) (z : Z) : result Value :=
  if sfitsb (bits (wide T1 T2)) z then Ok (int_or_null (wide_id t1 t2 T1 T2) (wide T1 T2) z)
  else if sfitsb (common T1 T2) z then Throw OutOfRange
  else Throw Undefined.

Lemma sfits_mono w w' z : 0 < w -> w <= w' -> sfits w z -> sfits w' z.
Proof.
  unfold sfits. intros H0 Hw Hz. assert (2 ^ (w - 1) <= 2 ^ (w' - 1)) by (apply Z.pow_le_mono_r; lia). lia.
Qed.

Lemma bits_wide_l T1 T2 : bits T1 <= bits (wide T1 T2).
Proof. by destruct T1, T2. Qed.
Lemma bits_wide_r T1 T2 : bits T2 <= bits (wide T1 T2).
Proof. by destruct T1, T2. Qed.
Lemma bits_wide_common T1 T2 : bits (wide T1 T2) <= common T1 T2.
Proof. by destruct T1, T2. Qed.

(** The tests of [AddValue] on the number [z] of the exact result, whose
    operands have the signs of [x] and [y]. *)
Definition lost (T1 T2 : ity) (z : Z) : bool := negb (z =? swrap (bits T1) z) && negb (z =? swrap (bits T2) z).
Definition sign_error (x y s : Z) : bool :=
  ((0 <? x) && (0 <? y) && (s <? 0)) || ((x <? 0) && (y <? 0) && (0 <? s)).
Definition stored (T1 T2 : ity) (z : Z) : Z := swrap (bits (wide T1 T2)) z.

Lemma fits_common T1 T2 z : sfits (bits (wide T1 T2)) z -> sfits (common T1 T2) z.
Proof. intros Hz. eapply sfits_mono; [|apply bits_wide_common|done]. auto. Qed.

Lemma fits_kept T1 T2 z :
  sfits (bits (wide T1 T2)) z -> lost T1 T2 z = false /\ stored T1 T2 z = z.
Proof.
  intros Hz. unfold lost, stored. rewrite (swrap_id (bits (wide T1 T2)) z) by auto. split; [|done].
  unfold wide in Hz. destruct (sizeof_ge T1 T2); rewrite (swrap_id _ z (bits_pos _) Hz), Z.eqb_refl; [done|].
  apply andb_false_r.
Qed.

(** A result that fits the computation but not the wider type is noticed by the first test. *)
Lemma misfit_lost T1 T2 z : ~ sfits (bits (wide T1 T2)) z -> lost T1 T2 z = true.
Proof.
  intros Hn. unfold lost. apply andb_true_intro. split; apply negb_true_iff, Z.eqb_neq; intros Heq; apply Hn; rewrite Heq.
  - eapply sfits_mono; [|apply bits_wide_l|apply swrap_fits]; auto.
  - eapply sfits_mono; [|apply bits_wide_r|apply swrap_fits]; auto.
Qed.

(** A computation that is followed by the tests [k]: exact when they accept the results that fit. *)
Lemma tested_exact t1 t2 T1 T2 z (k : Z -> result Value) :
  (sfits (bits (wide T1 T2)) z -> k z = Ok (int_or_null (wide_id t1 t2 T1 T2) (wide T1 T2) z)) ->
  (let! s := signed_op T1 T2 z in if lost T1 T2 s then Throw OutOfRange else k s) = exact t1 t2 T1 T2 z.
Proof.
  intros Hk. unfold signed_op, exact. destruct (sfitsb_spec (bits (wide T1 T2)) z) as [Hf|Hf].
  - destruct (sfitsb_spec (common T1 T2) z) as [_|Hn]; [|by destruct Hn; apply fits_common]. cbn [rbind]. rewrite (proj1 (fits_kept _ _ _ Hf)). by apply Hk.
  - destruct (sfitsb (common T1 T2) z); cbn [rbind]; [|done]. by rewrite misfit_lost.
Qed.

Lemma range_common T1 T2 x : in_range T1 x -> Z.abs x < 2 ^ (common T1 T2 - 1).
Proof.
  unfold in_range. intros. pose proof (bits_wide_l T1 T2). pose proof (bits_wide_common T1 T2).
  assert (2 ^ (bits T1 - 1) <= 2 ^ (common T1 T2 - 1)) by (apply Z.pow_le_mono_r; lia). lia.
Qed.

Section exact_arithmetic.
Context (t1 t2 : TypeId) (T1 T2 : ity) (x y : Z).
Hypothesis (Ht1 : int_type t1 = Some T1) (Ht2 : int_type t2 = Some T2).
Hypothesis (Hx : in_range T1 x) (Hy : in_range T2 y).
Let left := VInt t1 x.
Let right := VInt t2 y.

Lemma GetAs_left : GetAs T1 left = x.
Proof. by apply GetAs_VInt, in_range_sfits. Qed.
Lemma GetAs_right : GetAs T2 right = y.
Proof. by apply GetAs_VInt, in_range_sfits. Qed.

Lemma wide_int_type : int_type (wide_id t1 t2 T1 T2) = Some (wide T1 T2).
Proof. unfold wide_id, wide. by destruct (sizeof_ge T1 T2). Qed.

Lemma Value_wide z :
  sfits (bits (wide T1 T2)) z ->
  Value_int (wide T1 T2) (wide_id t1 t2 T1 T2) z = Ok (int_or_null (wide_id t1 t2 T1 T2) (wide T1 T2) z).
Proof. intros. apply Value_int_own; [apply wide_int_type|done]. Qed.

Lemma sign_error_opp s :
  ((0 <? x) && (y <? 0) && (s <? 0)) || ((x <? 0) && (0 <? y) && (0 <? s)) = sign_error x (- y) s.
Proof.
  unfold sign_error. replace (0 <? - y) with (y <? 0) by lia. by replace (- y <? 0) with (0 <? y) by lia.
Qed.

Lemma sign_error_exact a b s : s = a + b -> sign_error a b s = false.
Proof. unfold sign_error. lia. Qed.

(** The second test of [AddValue] and [SubtractValue]. *)
Lemma sign_tested a b z :
  z = a + b -> sfits (bits (wide T1 T2)) z ->
  (if sign_error a b (stored T1 T2 z) then Throw OutOfRange
   else Value_int (wide T1 T2) (wide_id t1 t2 T1 T2) (stored T1 T2 z)) = Ok (int_or_null (wide_id t1 t2 T1 T2) (wide T1 T2) z).
Proof. intros Hz Hf. destruct (fits_kept T1 T2 _ Hf) as [_ ->]. rewrite sign_error_exact by done. by apply Value_wide. Qed.

Lemma AddValue_exact : AddValue T1 T2 left right = exact t1 t2 T1 T2 (x + y).
Proof.
  rewrite <- (tested_exact _ _ _ _ _ (fun s => if sign_error x y (stored T1 T2 s) then Throw OutOfRange
    else Value_int (wide T1 T2) (wide_id t1 t2 T1 T2) (stored T1 T2 s))) by by apply sign_tested.
  unfold AddValue. rewrite GetAs_left, GetAs_right. unfold stored, wide, wide_id, lost, sign_error.
  destruct (signed_op T1 T2 (x + y)); cbn [rbind]; [|done]. by destruct (sizeof_ge T1 T2).
Qed.

Lemma SubtractValue_exact : SubtractValue T1 T2 left right = exact t1 t2 T1 T2 (x - y).
Proof.
  rewrite <- (tested_exact _ _ _ _ _ (fun s => if sign_error x (- y) (stored T1 T2 s) then Throw OutOfRange
    else Value_int (wide T1 T2) (wide_id t1 t2 T1 T2) (stored T1 T2 s))) by (intros; apply sign_tested; (lia || done)).
  unfold SubtractValue. rewrite GetAs_left, GetAs_right. unfold stored, wide, wide_id, lost.
  destruct (signed_op T1 T2 (x - y)); cbn [rbind]; [|done]. rewrite !sign_error_opp. by destruct (sizeof_ge T1 T2).
Qed.

(** The division test of [MultiplyValue]. *)
Definition quot_error (p : Z) : result bool :=
  if y =? 0 then Ok false else let! q := cdiv T1 T2 p y in Ok (negb (q =? x)).

Lemma in_range_common_l : Z.abs x < 2 ^ (common T1 T2 - 1).
Proof. by apply range_common. Qed.

Lemma quot_error_fits : quot_error (x * y) = Ok false.
Proof.
  unfold quot_error. destruct (Z.eqb_spec y 0); [done|]. unfold cdiv. rewrite Z.quot_mul by done.
  pose proof in_range_common_l. destruct (Z.eqb_spec x (2 ^ (common T1 T2 - 1))); [lia|].
  cbn [rbind]. by rewrite Z.eqb_refl.
Qed.

Lemma MultiplyValue_exact : MultiplyValue T1 T2 left right = exact t1 t2 T1 T2 (x * y).
Proof.
  rewrite <- (tested_exact _ _ _ _ _ (fun s => let! e := quot_error (stored T1 T2 s) in
    if e : bool then Throw OutOfRange else Value_int (wide T1 T2) (wide_id t1 t2 T1 T2) (stored T1 T2 s))).
  - unfold MultiplyValue. rewrite GetAs_left, GetAs_right. unfold stored, wide, wide_id, lost, quot_error.
    destruct (signed_op T1 T2 (x * y)); cbn [rbind]; [|done]. by destruct (sizeof_ge T1 T2).
  - intros Hf. destruct (fits_kept T1 T2 _ Hf) as [_ ->]. rewrite quot_error_fits. by apply Value_wide.
Qed.

(** Division and remainder never leave the wider type, nor meet NULL's number. *)
Lemma quot_range : y <> 0 -> in_range T1 (Z.quot x y).
Proof.
  intros Hy0. assert (Z.abs (Z.quot x y) <= Z.abs x); [|unfold in_range in *; lia].
  rewrite <- Z.quot_abs by lia. rewrite Z.quot_div_nonneg by lia. apply Z.div_le_upper_bound; [lia|].
  nia.
Qed.

Lemma rem_range : y <> 0 -> in_range T1 (Z.rem x y) /\ in_range T2 (Z.rem x y).
Proof.
  intros Hy0. pose proof (Z.rem_bound_abs x y Hy0). unfold in_range in *. split; [|lia].
  assert (Z.abs (Z.rem x y) <= Z.abs x); [|lia]. rewrite <- Z.rem_abs by lia. apply Z.rem_le; lia.
Qed.

Lemma in_range_wide T z : bits T <= bits (wide T1 T2) -> in_range T z -> in_range (wide T1 T2) z.
Proof.
  unfold in_range. intros HT ?. pose proof (bits_pos T).
  assert (2 ^ (bits T - 1) <= 2 ^ (bits (wide T1 T2) - 1)) by (apply Z.pow_le_mono_r; lia). lia.
Qed.

Lemma cdiv_ok p : Z.abs (Z.quot x y) < 2 ^ (common T1 T2 - 1) -> (if Z.quot x y =? 2 ^ (common T1 T2 - 1) then Throw Undefined else Ok p : result Z) = Ok p.
Proof. intros H. by destruct (Z.eqb_spec (Z.quot x y) (2 ^ (common T1 T2 - 1))); [lia|]. Qed.

Lemma quot_common : y <> 0 -> Z.abs (Z.quot x y) < 2 ^ (common T1 T2 - 1).
Proof.
  intros Hy0. pose proof in_range_common_l. assert (Z.abs (Z.quot x y) <= Z.abs x); [|lia].
  rewrite <- Z.quot_abs by lia. rewrite Z.quot_div_nonneg by lia. apply Z.div_le_upper_bound; [lia|]. nia.
Qed.

Lemma DivideValue_exact :
  y <> 0 -> DivideValue T1 T2 left right = Ok (VInt (wide_id t1 t2 T1 T2) (Z.quot x y)).
Proof.
  intros Hy0. unfold DivideValue. rewrite GetAs_left, GetAs_right. destruct (Z.eqb_spec y 0); [done|].
  unfold cdiv. rewrite cdiv_ok by by apply quot_common. cbn [rbind].
  assert (Hq : in_range (wide T1 T2) (Z.quot x y))
    by (apply (in_range_wide T1); [apply bits_wide_l|by apply quot_range]).
  pose proof (Value_int_VInt _ _ _ wide_int_type Hq) as Hv.
  unfold wide, wide_id in *. cbn [left right VInt type_id_]. apply in_range_sfits in Hq.
  destruct (sizeof_ge T1 T2); by rewrite swrap_id.
Qed.

Lemma ModuloValue_exact :
  y <> 0 -> ModuloValue T1 T2 left right = Ok (VInt (wide_id t1 t2 T1 T2) (Z.rem x y)).
Proof.
  intros Hy0. unfold ModuloValue. rewrite GetAs_left, GetAs_right. destruct (Z.eqb_spec y 0); [done|].
  unfold crem. rewrite cdiv_ok by by apply quot_common. cbn [rbind].
  assert (Hq : in_range (wide T1 T2) (Z.rem x y))
    by (apply (in_range_wide T1); [apply bits_wide_l|by apply rem_range]).
  pose proof (Value_int_VInt _ _ _ wide_int_type Hq) as Hv.
  unfold wide, wide_id in *. cbn [left right VInt type_id_]. apply in_range_sfits in Hq.
  destruct (sizeof_ge T1 T2); by rewrite swrap_id.
Qed.

End exact_arithmetic.

(** ** The operators on integer values *)

(** The operators of the four classes reduce to the methods of [IntegerParentType]. *)
Lemma Value_arith_int t1 t2 T1 T2 x y :
  int_type t1 = Some T1 -> int_type t2 = Some T2 ->
  Value_Add (VInt t1 x) (VInt t2 y) = AddValue T1 T2 (VInt t1 x) (VInt t2 y) /\
  Value_Subtract (VInt t1 x) (VInt t2 y) = SubtractValue T1 T2 (VInt t1 x) (VInt t2 y) /\
  Value_Multiply (VInt t1 x) (VInt t2 y) = MultiplyValue T1 T2 (VInt t1 x) (VInt t2 y).
Proof. destruct t1; intros [= <-]; destruct t2; intros [= <-]; split_and!; reflexivity. Qed.

Lemma Value_divide_int t1 t2 T1 T2 x y :
  int_type t1 = Some T1 -> int_type t2 = Some T2 -> in_range T2 y ->
  Value_Divide (VInt t1 x) (VInt t2 y) =
    (if y =? 0 then Throw DivideByZero else DivideValue T1 T2 (VInt t1 x) (VInt t2 y)) /\
  Value_Modulo (VInt t1 x) (VInt t2 y) =
    (if y =? 0 then Throw DivideByZero else ModuloValue T1 T2 (VInt t1 x) (VInt t2 y)).
Proof.
  intros H1 H2 Hy%in_range_sfits. pose proof (GetAs_VInt t2 T2 y Hy) as Hg.
  assert (Hz : Value_IsZero (VInt t2 y) = Ok (y =? 0)).
  { destruct t2; inversion H2; subst T2;
      unfold Value_IsZero, GetInstance; cbn [k_types TypeId_index VInt type_id_ lookup list_lookup rbind];
      unfold TinyintType_IsZero, SmallintType_IsZero, IntegerType_IsZero, BigintType_IsZero;
      by rewrite Hg. }
  destruct t1; inversion H1; subst T1; destruct t2; inversion H2; subst T2;
    unfold Value_Divide, Value_Modulo, GetInstance;
    cbn [k_types TypeId_index VInt type_id_ lookup list_lookup rbind];
    unfold TinyintType_Divide, SmallintType_Divide, IntegerType_Divide, BigintType_Divide,
      TinyintType_Modulo, SmallintType_Modulo, IntegerType_Modulo, BigintType_Modulo;
    cbn [VInt type_id_ CheckInteger CheckComparable massert];
    rewrite !IsNull_VInt; cbn [orb]; rewrite Hz; by destruct (y =? 0).
Qed.

(** [left OP right] of [Value]. *)
Definition Value_Compare (OP : cmp_op) : Value -> Value -> result CmpBool :=
  match OP with
  | OpEq => Value_CompareEquals | OpNe => Value_CompareNotEquals
  | OpLt => Value_CompareLessThan | OpLe => Value_CompareLessThanEquals
  | OpGt => Value_CompareGreaterThan | OpGe => Value_CompareGreaterThanEquals
  end.

Lemma Value_Compare_INT OP t1 T1 v2 x :
  int_type t1 = Some T1 -> CheckComparable (VInt t1 x) v2 = true -> IsNull v2 = false ->
  Value_Compare OP (VInt t1 x) v2 = INT_COMPARE T1 t1 OP (VInt t1 x) v2.
Proof.
  intros H1 Hc Hn.
  destruct t1; inversion H1; subst T1; destruct OP; cbn [Value_Compare];
    unfold Value_CompareEquals, Value_CompareNotEquals, Value_CompareLessThan, Value_CompareLessThanEquals,
      Value_CompareGreaterThan, Value_CompareGreaterThanEquals, GetInstance;
    cbn [k_types TypeId_index VInt type_id_ lookup list_lookup rbind];
    unfold TinyintType_CompareEquals, TinyintType_CompareNotEquals, TinyintType_CompareLessThan,
      TinyintType_CompareLessThanEquals, TinyintType_CompareGreaterThan, TinyintType_CompareGreaterThanEquals,
      SmallintType_CompareEquals, SmallintType_CompareNotEquals, SmallintType_CompareLessThan,
      SmallintType_CompareLessThanEquals, SmallintType_CompareGreaterThan, SmallintType_CompareGreaterThanEquals,
      IntegerType_CompareEquals, IntegerType_CompareNotEquals, IntegerType_CompareLessThan,
      IntegerType_CompareLessThanEquals, IntegerType_CompareGreaterThan, IntegerType_CompareGreaterThanEquals,
      BigintType_CompareEquals, BigintType_CompareNotEquals, BigintType_CompareLessThan,
      BigintType_CompareLessThanEquals, BigintType_CompareGreaterThan, BigintType_CompareGreaterThanEquals;
    rewrite Hc, Hn; reflexivity.
Qed.

Lemma Value_Compare_int OP t1 t2 T1 T2 x y :
  int_type t1 = Some T1 -> int_type t2 = Some T2 -> in_range T1 x -> in_range T2 y ->
  Value_Compare OP (VInt t1 x) (VInt t2 y) = Ok (GetCmpBool (cmpZ OP x y)).
Proof.
  intros H1 H2 Hx%in_range_sfits Hy%in_range_sfits.
  rewrite (Value_Compare_INT OP t1 T1) by
    (done || (destruct t1; inversion H1; destruct t2; inversion H2; reflexivity)).
  unfold INT_COMPARE. rewrite GetAs_VInt by done. pose proof (GetAs_VInt t2 T2 y Hy) as Hg.
  destruct t2; inversion H2; subst T2; cbn [VInt type_id_]; by rewrite Hg.
Qed.

(** ** NULL *)

Definition numeric (t : TypeId) : bool :=
  match t with TINYINT | SMALLINT | INTEGER | BIGINT | DECIMAL => true | _ => false end.

(** The wider of two numeric types. *)
Definition numeric_join (t u : TypeId) : TypeId := if (TypeId_index t <=? TypeId_index u)%nat then u else t.

Definition arith_ops : list (Value -> Value -> result Value) :=
  [Value_Add; Value_Subtract; Value_Multiply; Value_Divide; Value_Modulo; Value_Min; Value_Max].

Ltac unfold_arith :=
  unfold Value_Add, Value_Subtract, Value_Multiply, Value_Divide, Value_Modulo, Value_Min, Value_Max,
    TinyintType_Add, TinyintType_Subtract, TinyintType_Multiply, TinyintType_Divide, TinyintType_Modulo,
    SmallintType_Add, SmallintType_Subtract, SmallintType_Multiply, SmallintType_Divide, SmallintType_Modulo,
    IntegerType_Add, IntegerType_Subtract, IntegerType_Multiply, IntegerType_Divide, IntegerType_Modulo,
    BigintType_Add, BigintType_Subtract, BigintType_Multiply, BigintType_Divide, BigintType_Modulo,
    DecimalType_Add, DecimalType_Subtract, DecimalType_Multiply, DecimalType_Divide, DecimalType_Modulo,
    IntegerParentType_Min, IntegerParentType_Max, DecimalType_Min, DecimalType_Max,
    CheckInteger, CheckComparable, Value_OperateNull, GetInstance.

Lemma arith_null op v1 v2 :
  op ∈ arith_ops -> numeric (type_id_ v1) = true -> numeric (type_id_ v2) = true ->
  IsNull v1 || IsNull v2 = true ->
  exists r, op v1 v2 = Ok r /\ IsNull r = true /\ type_id_ r = numeric_join (type_id_ v1) (type_id_ v2).
Proof.
  intros Hop H1 H2 Hn. unfold arith_ops in Hop. repeat rewrite elem_of_cons in Hop.
  destruct_or?; subst; [..|by apply elem_of_nil in Hop]; unfold_arith;
    destruct (type_id_ v1); try done; destruct (type_id_ v2) eqn:E2; try done;
    cbn [k_types TypeId_index lookup list_lookup rbind massert]; rewrite Hn;
    unfold TinyintType_OperateNull, SmallintType_OperateNull, IntegerType_OperateNull, BigintType_OperateNull,
      DecimalType_OperateNull; rewrite ?E2; eexists; split_and!; reflexivity.
Qed.

(** ** Strings *)

(** The reference order on byte strings. *)
Fixpoint lex (a b : list Z) : comparison :=
  match a, b with
  | [], [] => Eq
  | [], _ :: _ => Lt
  | _ :: _, [] => Gt
  | x :: a, y :: b => match x ?= y with Eq => lex a b | c => c end
  end.

Definition cmp_of (OP : cmp_op) (c : comparison) : bool :=
  match OP, c with
  | OpEq, Eq | OpNe, (Lt | Gt) | OpLt, Lt | OpLe, (Lt | Eq) | OpGt, Gt | OpGe, (Gt | Eq) => true
  | _, _ => false
  end.

Definition sign_of (c : comparison) (z : Z) : Prop :=
  match c with Eq => z = 0 | Lt => z < 0 | Gt => 0 < z end.

Lemma cmp_of_sign OP c z : sign_of c z -> cmpZ OP z 0 = cmp_of OP c.
Proof. destruct c, OP; cbn; lia. Qed.

(** [memcmp] over the shorter string, then the lengths. *)
Lemma memcmp_lex a b ta tb :
  exists r, memcmp (Z.to_nat (Z.min (zlen a) (zlen b))) (a ++ ta) (b ++ tb) = Ok r /\
    sign_of (lex a b) (if (r =? 0) && negb (zlen a =? zlen b) then zlen a - zlen b else r).
Proof.
  unfold zlen. replace (Z.to_nat _) with (Nat.min (length a) (length b)) by lia.
  revert b. induction a as [|x a IH]; intros [|y b]; cbn [length Nat.min memcmp lex app].
  - exists 0. by split.
  - exists 0. split; [done|]. cbn [Z.eqb andb]. destruct (Z.eqb_spec (Z.of_nat 0) (Z.of_nat (S (length b)))); [lia|].
    cbn. lia.
  - exists 0. split; [done|]. cbn [Z.eqb andb]. destruct (Z.eqb_spec (Z.of_nat (S (length a))) (Z.of_nat 0)); [lia|].
    cbn. lia.
  - destruct (Z.compare_spec x y) as [->|Hxy|Hxy].
    + rewrite Z.eqb_refl. destruct (IH b) as (r & -> & Hr). exists r. split; [done|].
      rewrite !Nat2Z.inj_succ. unfold Z.succ. generalize dependent (Z.of_nat (length a)). intros la.
      generalize (Z.of_nat (length b)). intros lb Hr. replace (la + 1 =? lb + 1) with (la =? lb) by lia.
      by replace (la + 1 - (lb + 1)) with (la - lb) by lia.
    + destruct (Z.eqb_spec x y); [lia|]. exists (x - y). split; [done|].
      replace (x - y =? 0) with false by lia. cbn. lia.
    + destruct (Z.eqb_spec x y); [lia|]. exists (x - y). split; [done|].
      replace (x - y =? 0) with false by lia. cbn. lia.
Qed.

(** The lengths are compared as [int]s. *)
Definition int_length (s : list Z) : Prop := zlen s < 2 ^ 31.

Lemma compare_varchar OP a b :
  int_length a -> int_length b ->
  VARLEN_COMPARE_FUNC OP (VString a) (VString b) = Ok (GetCmpBool (cmp_of OP (lex a b))).
Proof.
  unfold int_length. intros Ha Hb. unfold VARLEN_COMPARE_FUNC.
  change (TypeId_eqb (type_id_ (VString b)) VARCHAR) with true. cbn [rbind].
  unfold VarlenType_GetData, VarlenType_GetLength. cbn [VString value_ len_].
  replace (zlen a + 1 - 1) with (zlen a) by lia. replace (zlen b + 1 - 1) with (zlen b) by lia.
  assert (0 <= zlen a /\ 0 <= zlen b) as [??] by (unfold zlen; lia).
  rewrite !swrap_id by (unfold sfits; simpl; lia). unfold CompareStrings.
  replace (0 <=? zlen a) with true by lia. replace (0 <=? zlen b) with true by lia. cbn [massert].
  destruct (memcmp_lex a b [0] [0]) as (r & -> & Hr). cbn [rbind].
  destruct ((r =? 0) && negb (zlen a =? zlen b)); cbn [rbind]; by rewrite (cmp_of_sign OP (lex a b)).
Qed.

Lemma Value_Compare_varchar OP a b :
  int_length a -> int_length b ->
  Value_Compare OP (VString a) (VString b) = Ok (GetCmpBool (cmp_of OP (lex a b))).
Proof.
  intros Ha Hb. rewrite <- compare_varchar by done. unfold int_length in *.
  assert (0 <= zlen a /\ 0 <= zlen b) as [??] by (unfold zlen; lia).
  assert (Hna : (zlen a + 1 =? BUSTUB_VALUE_NULL) = false) by (unfold BUSTUB_VALUE_NULL; lia).
  assert (Hnb : (zlen b + 1 =? BUSTUB_VALUE_NULL) = false) by (unfold BUSTUB_VALUE_NULL; lia).
  destruct OP; cbn [Value_Compare];
    unfold Value_CompareEquals, Value_CompareNotEquals, Value_CompareLessThan, Value_CompareLessThanEquals,
      Value_CompareGreaterThan, Value_CompareGreaterThanEquals, GetInstance;
    cbn [k_types TypeId_index VString type_id_ lookup list_lookup rbind];
    unfold VarlenType_CompareEquals, VarlenType_CompareNotEquals, VarlenType_CompareLessThan,
      VarlenType_CompareLessThanEquals, VarlenType_CompareGreaterThan, VarlenType_CompareGreaterThanEquals,
      IsNull, VarlenType_GetLength, CheckComparable; cbn [VString type_id_ len_ massert];
    unfold BUSTUB_VARCHAR_MAX_LEN; fold BUSTUB_VALUE_NULL; by rewrite Hna, Hnb.
Qed.

(** ** Properties *)

(** C4: adding, subtracting and multiplying two non-NULL integers of any
    widths. When the mathematical sum, difference or product fits the wider of the two types, the result is that
    number in the wider type (its least number is stored as NULL). When it fits the type C++ computes in ([int], or
    64 bits if an operand is a BIGINT) but not the wider type, as for TINYINT and SMALLINT operands, OUT_OF_RANGE is
    thrown. When it does not even fit the type of the computation, as for INTEGER and BIGINT overflows,
    the computation is signed overflow, undefined behaviour that happens before the code's overflow tests. *)
Theorem integer_arithmetic (t1 t2 : TypeId) (T1 T2 : ity) (x y : Z) :
  int_type t1 = Some T1 -> int_type t2 = Some T2 -> in_range T1 x -> in_range T2 y ->
  Value_Add (VInt t1 x) (VInt t2 y) = exact t1 t2 T1 T2 (x + y) /\
  Value_Subtract (VInt t1 x) (VInt t2 y) = exact t1 t2 T1 T2 (x - y) /\
  Value_Multiply (VInt t1 x) (VInt t2 y) = exact t1 t2 T1 T2 (x * y).
Proof.
  intros H1 H2 Hx Hy. destruct (Value_arith_int t1 t2 T1 T2 x y H1 H2) as (-> & -> & ->).
  split_and!; [by apply AddValue_exact|by apply SubtractValue_exact|by apply MultiplyValue_exact].
Qed.

Lemma integer_arithmetic_witness :
  Value_Multiply (VInt INTEGER 65536) (VInt SMALLINT 32767) = Ok (VInt INTEGER 2147418112) /\
  Value_Add (VInt TINYINT 127) (VInt TINYINT 1) = Throw OutOfRange /\
  Value_Multiply (VInt INTEGER 65536) (VInt INTEGER 32768) = Throw Undefined.
Proof.
  destruct (integer_arithmetic INTEGER SMALLINT int32_t int16_t 65536 32767) as (_ & _ & E1);
    [reflexivity..|split; reflexivity|split; reflexivity|].
  destruct (integer_arithmetic TINYINT TINYINT int8_t int8_t 127 1) as (E2 & _ & _);
    [reflexivity..|split; reflexivity|split; reflexivity|].
  destruct (integer_arithmetic INTEGER INTEGER int32_t int32_t 65536 32768) as (_ & _ & E3);
    [reflexivity..|split; reflexivity|split; reflexivity|].
  split; [exact E1|split; [exact E2|exact E3]].
Defined.

(** A sum of two non-NULL integers that is the least number of the wider
    type is not an overflow for the code, which returns NULL: -100 + -28 as
    TINYINT, and -2147483647 - 1 as INTEGER. *)
Theorem Add_least_is_null :
  Value_Add (VInt TINYINT (-100)) (VInt TINYINT (-28)) = Ok (NullInt TINYINT int8_t) /\
  Value_Subtract (VInt INTEGER (-2147483647)) (VInt INTEGER 1) = Ok (NullInt INTEGER int32_t).
Proof. vm_compute. split; reflexivity. Qed.

(** Dividing two non-NULL integers gives the quotient truncated towards
    zero and the remainder of the dividend's sign, in the wider type; a zero
    divisor throws DIVIDE_BY_ZERO, and nothing else fails. *)
Theorem integer_division (t1 t2 : TypeId) (T1 T2 : ity) (x y : Z) :
  int_type t1 = Some T1 -> int_type t2 = Some T2 -> in_range T1 x -> in_range T2 y ->
  Value_Divide (VInt t1 x) (VInt t2 y) =
    (if y =? 0 then Throw DivideByZero else Ok (VInt (wide_id t1 t2 T1 T2) (Z.quot x y))) /\
  Value_Modulo (VInt t1 x) (VInt t2 y) =
    (if y =? 0 then Throw DivideByZero else Ok (VInt (wide_id t1 t2 T1 T2) (Z.rem x y))).
Proof.
  intros H1 H2 Hx Hy. destruct (Value_divide_int t1 t2 T1 T2 x y H1 H2 Hy) as [-> ->].
  destruct (Z.eqb_spec y 0) as [|Hy0]; [done|].
  split; [by apply DivideValue_exact|by apply ModuloValue_exact].
Qed.

Lemma integer_division_witness :
  Value_Divide (VInt TINYINT (-127)) (VInt BIGINT (-1)) = Ok (VInt BIGINT 127) /\
  Value_Modulo (VInt TINYINT (-127)) (VInt BIGINT (-10)) = Ok (VInt BIGINT (-7)) /\
  Value_Divide (VInt TINYINT (-127)) (VInt BIGINT 0) = Throw DivideByZero.
Proof.
  destruct (integer_division TINYINT BIGINT int8_t int64_t (-127) (-1)) as [E1 _];
    [reflexivity..|split; reflexivity|split; reflexivity|].
  destruct (integer_division TINYINT BIGINT int8_t int64_t (-127) (-10)) as [_ E2];
    [reflexivity..|split; reflexivity|split; reflexivity|].
  destruct (integer_division TINYINT BIGINT int8_t int64_t (-127) 0) as [E3 _];
    [reflexivity..|split; reflexivity|split; reflexivity|].
  split; [exact E1|split; [exact E2|exact E3]].
Defined.

(** Each of the six comparisons of two non-NULL integers, whatever their
    types, is the comparison of the numbers. *)
Theorem integer_comparison (OP : cmp_op) (t1 t2 : TypeId) (T1 T2 : ity) (x y : Z) :
  int_type t1 = Some T1 -> int_type t2 = Some T2 -> in_range T1 x -> in_range T2 y ->
  Value_Compare OP (VInt t1 x) (VInt t2 y) = Ok (GetCmpBool (cmpZ OP x y)).
Proof. intros. by apply (Value_Compare_int OP t1 t2 T1 T2). Qed.

Lemma integer_comparison_witness :
  Value_CompareLessThan (VInt BIGINT (-4000000000)) (VInt TINYINT 5) = Ok CmpTrue.
Proof.
  apply (integer_comparison OpLt BIGINT TINYINT int64_t int8_t (-4000000000) 5);
    [reflexivity..|split; reflexivity|split; reflexivity].
Defined.

(** The comparisons of two VARCHARs of less than 2 GiB are the
    lexicographic order of their bytes, a proper prefix being smaller. *)
Theorem varchar_comparison (OP : cmp_op) (a b : list Z) :
  int_length a -> int_length b ->
  Value_Compare OP (VString a) (VString b) = Ok (GetCmpBool (cmp_of OP (lex a b))).
Proof. intros. by apply Value_Compare_varchar. Qed.

Lemma varchar_comparison_witness :
  Value_CompareLessThan (VString (str "ab")) (VString (str "abc")) = Ok CmpTrue.
Proof. apply (varchar_comparison OpLt (str "ab") (str "abc")); vm_compute; reflexivity. Defined.

(** NULL is contagious: an arithmetic operator, [Min] or [Max] on two
    numeric values one of which is NULL returns a NULL of the wider type. *)
Theorem arithmetic_null (op : Value -> Value -> result Value) (v1 v2 : Value) :
  op ∈ arith_ops -> numeric (type_id_ v1) = true -> numeric (type_id_ v2) = true ->
  IsNull v1 || IsNull v2 = true ->
  exists r, op v1 v2 = Ok r /\ IsNull r = true /\ type_id_ r = numeric_join (type_id_ v1) (type_id_ v2).
Proof. apply arith_null. Qed.

Lemma arithmetic_null_witness :
  exists r, Value_Divide (NullInt SMALLINT int16_t) (VInt BIGINT 0) = Ok r /\ IsNull r = true /\ type_id_ r = BIGINT.
Proof.
  apply (arithmetic_null Value_Divide (NullInt SMALLINT int16_t) (VInt BIGINT 0));
    [|reflexivity|reflexivity|reflexivity].
  right; right; right; left.
Defined.

(** Comparing a VARCHAR with a number does not commute: with the number on
    the left the string is parsed, with the string on the left the number is
    printed and the texts are compared. So 10 > '9' is true and '9' < 10 is
    false. *)
Theorem compare_varchar_number_asymmetric :
  Value_CompareGreaterThan (VInt INTEGER 10) (VString (str "9")) = Ok CmpTrue /\
  Value_CompareLessThan (VString (str "9")) (VInt INTEGER 10) = Ok CmpFalse.
Proof. vm_compute. split; reflexivity. Qed.

(** No method of a TIMESTAMP value works: [Type::k_types] has no instance
    for the type, so printing, copying, casting, storing and comparing one all
    go through a null pointer. *)
Theorem timestamp_undefined (v w : Value) :
  type_id_ v = TIMESTAMP ->
  Value_ToString v = Throw Undefined /\ Value_Copy v = Throw Undefined /\
  (forall t, Value_CastAs v t = Throw Undefined) /\
  (forall storage off, Value_SerializeTo v storage off = Throw Undefined) /\
  (forall OP, Value_Compare OP v w = Throw Undefined).
Proof.
  intros Hv. assert (Hg : GetInstance (type_id_ v) = Throw Undefined) by by rewrite Hv.
  unfold Value_ToString, Value_Copy, Value_CastAs, Value_SerializeTo. rewrite Hg. split_and!; try done.
  intros []; cbn [Value_Compare];
    unfold Value_CompareEquals, Value_CompareNotEquals, Value_CompareLessThan, Value_CompareLessThanEquals,
      Value_CompareGreaterThan, Value_CompareGreaterThanEquals; by rewrite Hg.
Qed.

Lemma timestamp_undefined_witness :
  GetMaxValue TIMESTAMP = Ok (VInt TIMESTAMP BUSTUB_TIMESTAMP_MAX) /\
  Value_ToString (VInt TIMESTAMP BUSTUB_TIMESTAMP_MAX) = Throw Undefined.
Proof.
  split; [vm_compute; reflexivity|].
  destruct (timestamp_undefined (VInt TIMESTAMP BUSTUB_TIMESTAMP_MAX) (VInt TIMESTAMP 0)) as [E _];
    [reflexivity|exact E].
Defined.
