(* ===== verification/ValueFactory.v ===== *)
(** * ValueFactory

    src/include/type/value_factory.h: constructing values and the [CastAs*]
    functions, which decide coercibility with [Type::IsCoercableFrom] and
    repeat the casts of the type classes; with them [TimestampType::ToString]
    (src/type/timestamp_type.cpp), the inverse of the parser in
    [CastAsTimestamp].

    Proved: on integers the factory's casts agree with [Value::CastAs], and a
    valid timestamp text is reproduced by printing the number it is packed
    into. *)

From Stdlib Require Import SpecFloat String.
From S2P Require Import Prelude.
From S2P Require Import CStd.
From S2P Require Import Value.
From S2P Require Import Types.
Local Open Scope Z_scope.
Local Open Scope bustub_scope.

Definition GetTinyIntValue (value : Z) : result Value := Value_int8 TINYINT value.
Definition GetSmallIntValue (value : Z) : result Value := Value_int16 SMALLINT value.
Definition GetIntegerValue (value : Z) : result Value := Value_int32 INTEGER value.
Definition GetBigIntValue (value : Z) : result Value := Value_int64 BIGINT value.
Definition GetTimestampValue (value : Z) : result Value := Value_int64 TIMESTAMP (swrap 64 value).
Definition GetDecimalValue (value : double) : result Value := Value_double DECIMAL value.

Definition CmpBool_int8 (c : CmpBool) : Z := match c with CmpFalse => 0 | CmpTrue => 1 | CmpNull => 2 end.
Definition GetBooleanValue_cmp (value : CmpBool) : result Value :=
  Value_int8 BOOLEAN (if bool_decide (value = CmpNull) then BUSTUB_BOOLEAN_NULL else CmpBool_int8 value).
Definition GetBooleanValue_bool (value : bool) : result Value := Value_int8 BOOLEAN (if value then 1 else 0).
Definition GetBooleanValue_int8 (value : Z) : result Value := Value_int8 BOOLEAN value.

(** [strlen]: the bytes before the first zero. *)
Fixpoint strlen (s : list Z) : Z :=
  match s with
  | [] => 0
  | c :: t => if c =? 0 then 0 else 1 + strlen t
  end.
Definition GetVarcharValue_len (value : option (list Z)) (len : Z) (manage_data : bool) : result Value :=
  Value_varlen VARCHAR value len manage_data.
Definition GetVarcharValue_ptr (value : option (list Z)) (manage_data : bool) : result Value :=
  GetVarcharValue_len value (match value with None => 0 | Some s => uwrap 32 (strlen s + 1) end) manage_data.
Definition GetVarcharValue (value : list Z) : result Value := Value_string VARCHAR value.

Definition GetNullValueByType (type_id : TypeId) : result Value :=
  match type_id with
  | BOOLEAN => GetBooleanValue_int8 BUSTUB_BOOLEAN_NULL
  | TINYINT => GetTinyIntValue BUSTUB_INT8_NULL
  | SMALLINT => GetSmallIntValue BUSTUB_INT16_NULL
  | INTEGER => GetIntegerValue BUSTUB_INT32_NULL
  | BIGINT => GetBigIntValue BUSTUB_INT64_NULL
  | DECIMAL => GetDecimalValue BUSTUB_DECIMAL_NULL
  | VARCHAR => GetVarcharValue_ptr None false
  | _ => Throw UnknownType
  end.

Definition GetZeroValueByType (type_id : TypeId) : result Value :=
  match type_id with
  | BOOLEAN => GetBooleanValue_bool false
  | TINYINT => GetTinyIntValue 0
  | SMALLINT => GetSmallIntValue 0
  | INTEGER => GetIntegerValue 0
  | BIGINT => GetBigIntValue 0
  | DECIMAL => GetDecimalValue (of_int 0)
  | VARCHAR => GetVarcharValue (str "0")
  | _ => Throw UnknownType
  end.

(** ** The casts *)

(** [Type::GetInstance(target)->IsCoercableFrom(value.GetTypeId())] *)
Definition coercable (target : TypeId) (value : Value) : result bool :=
  let! _ := GetInstance target in Ok (IsCoercableFrom target (type_id_ value)).

(** [throw Exception(Type::GetInstance(..)->ToString(value) + " is not coercable to ..")] *)
Definition not_coercable (value : Value) : result Value :=
  let! _ := Value_ToString value in Throw EMessage.

Definition int_checked (get : Z -> result Value) (w min max i : Z) : result Value :=
  if (max <? i) || (i <? min) then Throw OutOfRange else get (swrap w i).
Definition double_checked (get : Z -> result Value) (w min max : Z) (d : double) : result Value :=
  if dltb (of_int max) d || dltb d (of_int min) then Throw OutOfRange
  else let! i := to_int w d in get i.

Definition CastAsBigInt (value : Value) : result Value :=
  let! ok := coercable BIGINT value in
  if ok : bool then
    if IsNull value then GetBigIntValue BUSTUB_INT64_NULL
    else match type_id_ value with
         | TINYINT => GetBigIntValue (GetAs int8_t value)
         | SMALLINT => GetBigIntValue (GetAs int16_t value)
         | INTEGER => GetBigIntValue (GetAs int32_t value)
         | BIGINT => GetBigIntValue (GetAs int64_t value)
         | DECIMAL => double_checked GetBigIntValue 64 BUSTUB_INT64_MIN BUSTUB_INT64_MAX (GetAs_double value)
         | VARCHAR =>
             let! s := Value_ToString value in
             let! i := catch_invalid_argument (catch_out_of_range (stoll s)) in
             if (BUSTUB_INT64_MAX <? i) || (i <? BUSTUB_INT64_MIN) then Throw OutOfRange else GetBigIntValue i
         | _ => not_coercable value
         end
  else not_coercable value.

Definition CastAsInteger (value : Value) : result Value :=
  let! ok := coercable INTEGER value in
  if ok : bool then
    if IsNull value then GetIntegerValue BUSTUB_INT32_NULL
    else match type_id_ value with
         | TINYINT => GetIntegerValue (GetAs int8_t value)
         | SMALLINT => GetIntegerValue (GetAs int16_t value)
         | INTEGER => GetIntegerValue (GetAs int32_t value)
         | BIGINT => int_checked GetIntegerValue 32 BUSTUB_INT32_MIN BUSTUB_INT32_MAX (GetAs int64_t value)
         | DECIMAL => double_checked GetIntegerValue 32 BUSTUB_INT32_MIN BUSTUB_INT32_MAX (GetAs_double value)
         | VARCHAR =>
             let! s := Value_ToString value in
             let! i := catch_invalid_argument (catch_out_of_range (stoi s)) in
             if (BUSTUB_INT32_MAX <? i) || (i <? BUSTUB_INT32_MIN) then Throw OutOfRange else GetIntegerValue i
         | _ => not_coercable value
         end
  else not_coercable value.

Definition CastAsSmallInt (value : Value) : result Value :=
  let! ok := coercable SMALLINT value in
  if ok : bool then
    if IsNull value then GetSmallIntValue BUSTUB_INT16_NULL
    else match type_id_ value with
         | TINYINT => GetSmallIntValue (GetAs int8_t value)
         | SMALLINT => GetSmallIntValue (GetAs int16_t value)
         | INTEGER => int_checked GetSmallIntValue 16 BUSTUB_INT16_MIN BUSTUB_INT16_MAX (GetAs int32_t value)
         | BIGINT => int_checked GetSmallIntValue 16 BUSTUB_INT16_MIN BUSTUB_INT16_MAX (GetAs int64_t value)
         | DECIMAL => double_checked GetSmallIntValue 16 BUSTUB_INT16_MIN BUSTUB_INT16_MAX (GetAs_double value)
         | VARCHAR =>
             let! s := Value_ToString value in
             let! i := catch_invalid_argument (catch_out_of_range (stoi s)) in
             let i := swrap 16 i in
             if i <? BUSTUB_INT16_MIN then Throw OutOfRange else GetSmallIntValue i
         | _ => not_coercable value
         end
  else not_coercable value.

Definition CastAsTinyInt (value : Value) : result Value :=
  let! ok := coercable TINYINT value in
  if ok : bool then
    if IsNull value then GetTinyIntValue BUSTUB_INT8_NULL
    else match type_id_ value with
         | TINYINT => GetTinyIntValue (GetAs int8_t value)
         | SMALLINT => int_checked GetTinyIntValue 8 BUSTUB_INT8_MIN BUSTUB_INT8_MAX (GetAs int16_t value)
         | INTEGER => int_checked GetTinyIntValue 8 BUSTUB_INT8_MIN BUSTUB_INT8_MAX (GetAs int32_t value)
         | BIGINT => int_checked GetTinyIntValue 8 BUSTUB_INT8_MIN BUSTUB_INT8_MAX (GetAs int64_t value)
         | DECIMAL => double_checked GetTinyIntValue 8 BUSTUB_INT8_MIN BUSTUB_INT8_MAX (GetAs_double value)
         | VARCHAR =>
             let! s := Value_ToString value in
             let! i := catch_invalid_argument (catch_out_of_range (stoi s)) in
             let i := swrap 8 i in
             if i <? BUSTUB_INT8_MIN then Throw OutOfRange else GetTinyIntValue i
         | _ => not_coercable value
         end
  else not_coercable value.

Definition CastAsDecimal (value : Value) : result Value :=
  let! ok := coercable DECIMAL value in
  if ok : bool then
    if IsNull value then GetDecimalValue BUSTUB_DECIMAL_NULL
    else match type_id_ value with
         | TINYINT => GetDecimalValue (of_int (GetAs int8_t value))
         | SMALLINT => GetDecimalValue (of_int (GetAs int16_t value))
         | INTEGER => GetDecimalValue (of_int (GetAs int32_t value))
         | BIGINT => GetDecimalValue (of_int (GetAs int64_t value))
         | DECIMAL => GetDecimalValue (GetAs_double value)
         | VARCHAR =>
             let! s := Value_ToString value in
             let! res := catch_invalid_argument (catch_out_of_range (stod s)) in
             if dltb BUSTUB_DECIMAL_MAX res || dltb res BUSTUB_DECIMAL_MIN then Throw OutOfRange
             else GetDecimalValue res
         | _ => not_coercable value
         end
  else not_coercable value.

Definition CastAsVarchar (value : Value) : result Value :=
  let! ok := coercable VARCHAR value in
  if ok : bool then
    if IsNull value then GetVarcharValue_ptr None false
    else match type_id_ value with
         | BOOLEAN | TINYINT | SMALLINT | INTEGER | BIGINT | DECIMAL | VARCHAR =>
             let! s := Value_ToString value in GetVarcharValue s
         | _ => not_coercable value
         end
  else not_coercable value.

Definition CastAsBoolean (value : Value) : result Value :=
  let! ok := coercable BOOLEAN value in
  if ok : bool then
    if IsNull value then GetBooleanValue_int8 BUSTUB_BOOLEAN_NULL
    else match type_id_ value with
         | BOOLEAN => GetBooleanValue_int8 (GetAs int8_t value)
         | VARCHAR =>
             let! s := Value_ToString value in
             let s := tolower <$> s in
             if bool_decide (s = str "true") || bool_decide (s = str "1") || bool_decide (s = str "t")
             then GetBooleanValue_bool true
             else if bool_decide (s = str "false") || bool_decide (s = str "0") || bool_decide (s = str "f")
             then GetBooleanValue_bool false
             else Throw EMessage
         | _ => not_coercable value
         end
  else not_coercable value.

(** *** Timestamps *)

(** [str[i]]: the byte at [i]; the text has been checked to have 29. *)
Definition at_ (s : list Z) (i : nat) : Z := nth i s 0.

Definition is_digit : list bool :=
  [true; true; true; true; false; true; true; false; true; true;
   false; true; true; false; true; true; false; true; true; false;
   true; true; true; true; true; true; false; true; true].

(** The number the digits [i .. i+n) denote; what [%nu] reads in a text whose
    digits have been checked. *)
Definition field (s : list Z) (i n : Z) : Z := (read_digits 0 (slice i n s)).1.

Definition max_day (leap : bool) (month : Z) : Z :=
  nth (Z.to_nat month) [0; 31; if leap then 29 else 28; 31; 30; 31; 30; 31; 31; 30; 31; 30; 31] 0.
Definition leap_year (year : Z) : bool :=
  ((year mod 4 =? 0) && negb (year mod 100 =? 0)) || (year mod 400 =? 0).

(** [res = ((((month * 32 + day) * 27 + timezone) * 10000 + year) * 100000 + seconds) * 1000000 + micro]
    in [uint64_t]. *)
Definition pack_timestamp (month day timezone year seconds micro : Z) : Z :=
  let res := uwrap 64 (0 + month) in
  let res := uwrap 64 (uwrap 64 (res * 32) + day) in
  let res := uwrap 64 (uwrap 64 (res * 27) + timezone) in
  let res := uwrap 64 (uwrap 64 (res * 10000) + year) in
  let res := uwrap 64 (uwrap 64 (res * 100000) + seconds) in
  uwrap 64 (uwrap 64 (res * 1000000) + micro).

(** The VARCHAR case of [CastAsTimestamp]. *)
Definition parse_timestamp (str_ : list Z) : result Z :=
  let s := if zlen str_ =? 22 then slice 0 19 str_ ++ str ".000000" ++ slice 19 3 str_ else str_ in
  if negb (zlen s =? 29) then Throw EMessage
  else if negb (at_ s 10 =? 32) || negb (at_ s 4 =? 45) || negb (at_ s 7 =? 45) || negb (at_ s 13 =? 58)
          || negb (at_ s 16 =? 58) || negb (at_ s 19 =? 46) || (negb (at_ s 26 =? 43) && negb (at_ s 26 =? 45))
  then Throw EMessage
  else if negb (forallb (fun i => negb (nth i is_digit false) || isdigit (at_ s i)) (seq 0 29)) then Throw EMessage
  else
    let year := field s 0 4 in let month := field s 5 2 in let day := field s 8 2 in
    let hour := field s 11 2 in let min := field s 14 2 in let sec := field s 17 2 in
    let micro := field s 20 6 in
    let tz := if at_ s 26 =? 45 then - field s 27 2 else field s 27 2 in
    if (9999 <? year) || (12 <? month) || (31 <? day) || (23 <? hour) || (59 <? min) || (59 <? sec)
       || (999999 <? micro) || (day =? 0) || (month =? 0)
    then Throw OutOfRange
    else if max_day (leap_year year) month <? day then Throw OutOfRange
    else
      let timezone := uwrap 32 (tz + 12) in
      if 26 <? tz then Throw EMessage
      else Ok (pack_timestamp month day timezone year (hour * 3600 + min * 60 + sec) micro).

Definition CastAsTimestamp (value : Value) : result Value :=
  let! ok := coercable TIMESTAMP value in
  if ok : bool then
    if IsNull value then GetTimestampValue BUSTUB_TIMESTAMP_NULL
    else match type_id_ value with
         | TIMESTAMP => GetTimestampValue (GetAs_uint64 value)
         | VARCHAR =>
             let! s := Value_ToString value in
             let! res := parse_timestamp s in GetTimestampValue res
         | _ => not_coercable value
         end
  else not_coercable value.

(** [printf("%0nd", z)] of a number that is not negative. *)
Definition printf_0d (n : nat) (z : Z) : list Z := pad_zero n (dec_string z).

(** [TimestampType::ToString]: the text is built in a buffer of 30 bytes whose
    byte 26 is overwritten by the sign and byte 27 by the terminator; the zone
    is printed in a buffer of 5. *)
Definition TimestampType_ToString (val : Value) : list Z :=
  if IsNull val then str "timestamp_null"
  else
    let tm := GetAs_uint64 val in
    let micro := uwrap 32 (tm mod 1000000) in
    let tm := tm / 1000000 in
    let second := uwrap 32 (tm mod 100000) in
    let sec := uwrap 16 (second mod 60) in
    let second := second / 60 in
    let min := uwrap 16 (second mod 60) in
    let second := second / 60 in
    let hour := uwrap 16 (second mod 24) in
    let tm := tm / 100000 in
    let year := uwrap 16 (tm mod 10000) in
    let tm := tm / 10000 in
    let tz := tm mod 27 - 12 in
    let tm := tm / 27 in
    let day := uwrap 16 (tm mod 32) in
    let tm := tm / 32 in
    let month := uwrap 16 tm in
    let text := printf_0d 4 year ++ [45] ++ printf_0d 2 month ++ [45] ++ printf_0d 2 day ++ [32]
                ++ printf_0d 2 hour ++ [58] ++ printf_0d 2 min ++ [58] ++ printf_0d 2 sec
                ++ [46] ++ printf_0d 6 micro in
    take 26 (take 29 text) ++ [if 0 <=? tz then 43 else 45] ++ take 4 (printf_0d 2 (Z.abs tz)).

(** ** The factory's casts on integers *)

Definition Factory_CastAs (target : TypeId) (value : Value) : result Value :=
  match target with
  | BOOLEAN => CastAsBoolean value
  | TINYINT => CastAsTinyInt value
  | SMALLINT => CastAsSmallInt value
  | INTEGER => CastAsInteger value
  | BIGINT => CastAsBigInt value
  | DECIMAL => CastAsDecimal value
  | VARCHAR => CastAsVarchar value
  | TIMESTAMP => CastAsTimestamp value
  | INVALID => Throw EMessage
  end.

Lemma factory_cast_int s T u D z :
  int_type s = Some T -> int_type u = Some D -> in_range T z ->
  Factory_CastAs u (VInt s z) = if in_rangeb D z then Ok (VInt u z) else Throw OutOfRange.
Proof.
  intros Hs Hu Hz. pose proof (GetAs_VInt s T z (in_range_sfits _ _ Hz)) as Hg.
  assert (Hv : forall D, int_type u = Some D -> in_range D z -> Value_int D u z = Ok (VInt u z))
    by (intros; by apply Value_int_VInt).
  destruct (int_type_inv s T Hs) as [[-> ->]|[[-> ->]|[[-> ->]|[-> ->]]]];
    destruct (int_type_inv u D Hu) as [[-> ->]|[[-> ->]|[[-> ->]|[-> ->]]]];
    cbn [Factory_CastAs]; unfold CastAsTinyInt, CastAsSmallInt, CastAsInteger, CastAsBigInt, coercable, GetInstance;
    cbn [k_types TypeId_index VInt type_id_ lookup list_lookup rbind IsCoercableFrom]; rewrite IsNull_VInt; rewrite ?Hg;
    match goal with |- context [in_rangeb ?D ?z] => destruct (in_rangeb_spec D z) as [HD|HD] end;
    first
      [ by apply (Hv _ eq_refl)
      | exfalso; unfold in_range, bits in *; lia
      | unfold int_checked; replace (_ || _) with false
          by (unfold in_range, BUSTUB_INT8_MIN, BUSTUB_INT8_MAX, BUSTUB_INT16_MIN, BUSTUB_INT16_MAX,
                BUSTUB_INT32_MIN, BUSTUB_INT32_MAX in *; cbn [bits] in *; lia);
        rewrite swrap_id by (lia || by apply (in_range_sfits _ _ HD)); by apply (Hv _ eq_refl)
      | unfold int_checked; replace (_ || _) with true
          by (unfold in_range, BUSTUB_INT8_MIN, BUSTUB_INT8_MAX, BUSTUB_INT16_MIN, BUSTUB_INT16_MAX,
                BUSTUB_INT32_MIN, BUSTUB_INT32_MAX in *; cbn [bits] in *; lia); done ].
Qed.

Lemma factory_cast_varchar t T z :
  int_type t = Some T -> in_range T z -> Factory_CastAs VARCHAR (VInt t z) = Ok (VString (to_string z)).
Proof.
  intros Ht Hz. cbn [Factory_CastAs]. unfold CastAsVarchar, coercable. cbn [GetInstance k_types TypeId_index].
  change (GetInstance VARCHAR) with (Ok VarlenType). cbn [rbind]. rewrite IsNull_VInt.
  assert (Hi : IsCoercableFrom VARCHAR (type_id_ (VInt t z)) = true) by by destruct t.
  rewrite Hi, (to_string_of_int t T z Ht Hz). cbn [rbind].
  assert (Hs : GetVarcharValue (to_string z) = Ok (VString (to_string z)))
    by (apply Value_string_ok, (to_string_short T z Hz)).
  by destruct t; inversion Ht; cbn [VInt type_id_].
Qed.

(** ** Properties *)

(** On a non-NULL integer [ValueFactory::CastAs*] and [Value::CastAs] agree
    for every integer target and for VARCHAR, results and exceptions alike. *)
Theorem factory_casts_agree (s u : TypeId) (T : ity) (z : Z) :
  int_type s = Some T -> in_range T z -> (is_Some (int_type u) \/ u = VARCHAR) ->
  Factory_CastAs u (VInt s z) = Value_CastAs (VInt s z) u.
Proof.
  intros Hs Hz [[D Hu]| ->].
  - by rewrite (factory_cast_int s T u D), (cast_int s T u D).
  - by rewrite (factory_cast_varchar s T), (cast_to_varchar s T).
Qed.

Lemma factory_casts_agree_witness :
  CastAsTinyInt (VInt BIGINT 128) = Value_CastAs (VInt BIGINT 128) TINYINT.
Proof.
  apply (factory_casts_agree BIGINT TINYINT int64_t 128); [reflexivity|split; reflexivity|].
  left. exists int8_t. reflexivity.
Defined.

(** [CastAsBigInt] lets the double 2^63 pass its range test, which compares
    with [>] against INT64_MAX rounded to a double, and converts it, which is
    undefined; [DecimalType::CastAs] tests with [>=] and throws. *)
Theorem CastAsBigInt_accepts_2_63 :
  let v := mkValue DECIMAL (DoubleVal (of_int (2 ^ 63))) 0 in
  CastAsBigInt v = Throw Undefined /\ Value_CastAs v BIGINT = Throw OutOfRange.
Proof. vm_compute. split; reflexivity. Qed.

(** ** Timestamps: the text of a packed timestamp is the text that was parsed *)

(** The last [n] decimal digits of [z]. *)
Fixpoint fix_digits (n : nat) (z : Z) : list Z :=
  match n with
  | O => []
  | S n => fix_digits n (z / 10) ++ [48 + z mod 10]
  end.

Lemma length_fix_digits n z : length (fix_digits n z) = n.
Proof. revert z. induction n as [|n IH]; intros z; cbn [fix_digits]; [done|]. rewrite length_app, IH. simpl. lia. Qed.

Lemma dec_digits_acc f n acc : dec_digits f n acc = dec_digits f n [] ++ acc.
Proof.
  revert n acc. induction f as [|f IH]; intros n acc; cbn [dec_digits]; [done|].
  destruct (n / 10 =? 0); [done|]. rewrite IH, (IH _ [_]). by rewrite <- app_assoc.
Qed.

Lemma dec_digits_S f n acc :
  dec_digits (S f) n acc =
    if n / 10 =? 0 then (48 + n mod 10) :: acc else dec_digits f (n / 10) ((48 + n mod 10) :: acc).
Proof. reflexivity. Qed.

(** More fuel than a number has digits changes nothing. *)
Lemma dec_digits_fuel f g n :
  0 <= n < 2 ^ Z.of_nat (S f) -> 0 <= n < 2 ^ Z.of_nat (S g) -> dec_digits (S f) n [] = dec_digits (S g) n [].
Proof.
  revert g n. induction f as [|f IH]; intros g n Hf Hg; rewrite (dec_digits_S _ n), (dec_digits_S g).
  - simpl in Hf. replace (n / 10 =? 0) with true by zlia. done.
  - destruct (Z.eqb_spec (n / 10) 0) as [|Hz]; [done|].
    destruct g as [|g]; [simpl in Hg; zlia|].
    rewrite (dec_digits_acc (S f)), (dec_digits_acc (S g)). f_equal.
    rewrite (Nat2Z.inj_succ (S f)), Z.pow_succ_r in Hf by lia. rewrite (Nat2Z.inj_succ (S g)), Z.pow_succ_r in Hg by lia.
    apply IH; zlia.
Qed.

Lemma dec_string_step n : 10 <= n -> dec_string n = dec_string (n / 10) ++ [48 + n mod 10].
Proof.
  intros Hn. unfold dec_string. rewrite dec_digits_S. destruct (Z.eqb_spec (n / 10) 0); [zlia|].
  rewrite dec_digits_acc. f_equal.
  assert (Hl : 1 <= Z.log2 n) by (apply Z.log2_le_pow2; lia).
  destruct (Z.to_nat (Z.log2 n)) as [|f] eqn:Ef; [lia|]. apply dec_digits_fuel.
  - pose proof (Z.log2_spec n ltac:(lia)). rewrite <- Ef. rewrite Z2Nat.id by lia.
    rewrite Z.pow_succ_r in * by lia. zlia.
  - pose proof (Z.log2_spec (n / 10) ltac:(zlia)). rewrite Nat2Z.inj_succ, Z2Nat.id by apply Z.log2_nonneg. zlia.
Qed.

Lemma dec_string_small n : 0 <= n < 10 -> dec_string n = [48 + n mod 10].
Proof. intros Hn. unfold dec_string. cbn [dec_digits]. by replace (n / 10 =? 0) with true by zlia. Qed.

Lemma printf_0d_fix n z : (0 < n)%nat -> 0 <= z < 10 ^ Z.of_nat n -> printf_0d n z = fix_digits n z.
Proof.
  unfold printf_0d, pad_zero. revert z. induction n as [|n IH]; intros z Hn Hz; [lia|]. cbn [fix_digits].
  destruct (decide (z < 10)).
  - rewrite dec_string_small by lia. cbn [length].
    replace (z / 10) with 0 by zlia. replace (S n - 1)%nat with n by lia. f_equal.
    clear. induction n as [|n IH]; [done|]. cbn [fix_digits]. rewrite replicate_S_end, IH. done.
  - rewrite dec_string_step by lia. rewrite length_app, app_assoc. f_equal.
    destruct n as [|n]; [simpl in Hz; lia|]. rewrite <- IH; [|lia|].
    + f_equal. f_equal. simpl. lia.
    + rewrite (Nat2Z.inj_succ (S n)), Z.pow_succ_r in Hz by lia. zlia.
Qed.

Lemma isdigit_mod z : isdigit (48 + z mod 10) = true.
Proof. unfold isdigit. zlia. Qed.

Lemma read_fix_digits n z a t :
  0 <= z < 10 ^ Z.of_nat n -> read_digits a (fix_digits n z ++ t) = read_digits (a * 10 ^ Z.of_nat n + z) t.
Proof.
  revert z a t. induction n as [|n IH]; intros z a t Hz; cbn [fix_digits].
  - cbn [app]. f_equal. simpl in Hz |- *. lia.
  - rewrite Nat2Z.inj_succ, Z.pow_succ_r in * by lia. rewrite <- app_assoc, IH by zlia.
    cbn [app read_digits]. rewrite isdigit_mod. f_equal. zlia.
Qed.

(** The fields of a timestamp the packing has room for. *)
Record timestamp_fields (year month day hour min sec micro tz : Z) : Prop := {
  tf_year : 0 <= year <= 9999;
  tf_month : 1 <= month <= 12;
  tf_day : 1 <= day <= max_day (leap_year year) month;
  tf_hour : 0 <= hour <= 23;
  tf_min : 0 <= min <= 59;
  tf_sec : 0 <= sec <= 59;
  tf_micro : 0 <= micro <= 999999;
  tf_tz : -12 <= tz <= 14;
}.

(** YYYY-MM-DD HH:MM:SS.uuuuuu+ZZ *)
Definition timestamp_text (year month day hour min sec micro tz : Z) : list Z :=
  fix_digits 4 year ++ [45] ++ fix_digits 2 month ++ [45] ++ fix_digits 2 day ++ [32]
  ++ fix_digits 2 hour ++ [58] ++ fix_digits 2 min ++ [58] ++ fix_digits 2 sec
  ++ [46] ++ fix_digits 6 micro ++ [if 0 <=? tz then 43 else 45] ++ fix_digits 2 (Z.abs tz).

Lemma max_day_31 leap month : 1 <= month <= 12 -> max_day leap month <= 31.
Proof.
  intros Hm. unfold max_day. assert (H : Z.to_nat month ∈ seq 1 12) by (apply list_elem_of_In, in_seq; lia).
  generalize dependent (Z.to_nat month). intros n Hn. repeat (apply elem_of_cons in Hn as [->|Hn]; [destruct leap; simpl; lia|]).
  by apply elem_of_nil in Hn.
Qed.

Lemma read_fix n z : 0 <= z < 10 ^ Z.of_nat n -> (read_digits 0 (fix_digits n z)).1 = z.
Proof.
  intros Hz. pose proof (read_fix_digits n z 0 [] Hz) as Hr. rewrite app_nil_r in Hr. rewrite Hr. done.
Qed.

Lemma uwrap_muladd w r k c : uwrap w (uwrap w (uwrap w r * k) + c) = uwrap w (r * k + c).
Proof. unfold uwrap. by rewrite Zmult_mod_idemp_l, Zplus_mod_idemp_l. Qed.

Section timestamp.
Context (year month day hour min sec micro tz : Z).
Hypothesis F : timestamp_fields year month day hour min sec micro tz.
Let s := timestamp_text year month day hour min sec micro tz.

Lemma text_fields :
  field s 0 4 = year /\ field s 5 2 = month /\ field s 8 2 = day /\ field s 11 2 = hour /\
  field s 14 2 = min /\ field s 17 2 = sec /\ field s 20 6 = micro /\ field s 27 2 = Z.abs tz.
Proof.
  destruct F. pose proof (max_day_31 (leap_year year) month tf_month0). unfold field.
  change (slice 0 4 s) with (fix_digits 4 year). change (slice 5 2 s) with (fix_digits 2 month).
  change (slice 8 2 s) with (fix_digits 2 day). change (slice 11 2 s) with (fix_digits 2 hour).
  change (slice 14 2 s) with (fix_digits 2 min). change (slice 17 2 s) with (fix_digits 2 sec).
  change (slice 20 6 s) with (fix_digits 6 micro). change (slice 27 2 s) with (fix_digits 2 (Z.abs tz)).
  split_and!; apply read_fix; simpl; lia.
Qed.

Lemma text_digits : forallb (fun i => negb (nth i is_digit false) || isdigit (at_ s i)) (seq 0 29) = true.
Proof. subst s. cbn -[isdigit Z.div Z.modulo Z.add Z.leb Z.abs]. rewrite !isdigit_mod. reflexivity. Qed.

Definition packed : Z :=
  ((((month * 32 + day) * 27 + (tz + 12)) * 10000 + year) * 100000 + (hour * 3600 + min * 60 + sec)) * 1000000 + micro.

Lemma packed_bound : 0 <= packed <= BUSTUB_TIMESTAMP_MAX.
Proof.
  destruct F. pose proof (max_day_31 (leap_year year) month tf_month0).
  unfold packed, BUSTUB_TIMESTAMP_MAX. lia.
Qed.

Lemma pack_exact : pack_timestamp month day (uwrap 32 (tz + 12)) year (hour * 3600 + min * 60 + sec) micro = packed.
Proof.
  pose proof packed_bound as Hp. destruct F. unfold pack_timestamp.
  rewrite (uwrap_id 32) by (unfold ufits; lia). 
  rewrite (uwrap_muladd _ _ 32), (uwrap_muladd _ _ 27), (uwrap_muladd _ _ 10000), (uwrap_muladd _ _ 100000),
    (uwrap_muladd _ _ 1000000), Z.add_0_l. apply Z.mod_small. unfold BUSTUB_TIMESTAMP_MAX in Hp. fold packed. lia.
Qed.

Lemma parse_text : parse_timestamp s = Ok packed.
Proof.
  destruct text_fields as (E1 & E2 & E3 & E4 & E5 & E6 & E7 & E8). destruct F.
  pose proof (max_day_31 (leap_year year) month tf_month0). unfold parse_timestamp.
  change (zlen s =? 22) with false. cbv zeta. cbn iota. change (zlen s =? 29) with true. cbn [negb].
  change (at_ s 10) with 32. change (at_ s 4) with 45. change (at_ s 7) with 45. change (at_ s 13) with 58.
  change (at_ s 16) with 58. change (at_ s 19) with 46. change (at_ s 26) with (if 0 <=? tz then 43 else 45).
  replace (_ || (negb ((if 0 <=? tz then 43 else 45) =? 43) && negb ((if 0 <=? tz then 43 else 45) =? 45)))
    with false by (destruct (0 <=? tz); reflexivity).
  rewrite text_digits. cbn [negb]. rewrite E1, E2, E3, E4, E5, E6, E7, E8.
  replace (if (if 0 <=? tz then 43 else 45) =? 45 then - Z.abs tz else Z.abs tz) with tz
    by (destruct (Z.leb_spec 0 tz); simpl; lia).
  replace (_ || (month =? 0)) with false by lia.
  replace (max_day (leap_year year) month <? day) with false by lia. replace (26 <? tz) with false by lia.
  by rewrite pack_exact.
Qed.

Lemma pack_split a b k : 0 <= b < k -> (a * k + b) / k = a /\ (a * k + b) mod k = b.
Proof. intros. split; [rewrite Z.div_add_l, Z.div_small by lia; lia|]. rewrite Z.add_comm, Z.mod_add, Z.mod_small by lia. done. Qed.

Lemma print_packed : TimestampType_ToString (VInt TIMESTAMP packed) = s.
Proof.
  destruct F. pose proof (max_day_31 (leap_year year) month tf_month0). pose proof packed_bound as Hp.
  unfold TimestampType_ToString. rewrite IsNull_VInt. unfold GetAs_uint64, raw. cbn [VInt value_].
  rewrite (uwrap_id 64) by (unfold ufits, BUSTUB_TIMESTAMP_MAX in *; lia). unfold packed.
  destruct (pack_split ((((month * 32 + day) * 27 + (tz + 12)) * 10000 + year) * 100000 + (hour * 3600 + min * 60 + sec)) micro 1000000) as [-> ->]; [lia|].
  destruct (pack_split (((month * 32 + day) * 27 + (tz + 12)) * 10000 + year) (hour * 3600 + min * 60 + sec) 100000) as [-> ->]; [lia|].
  destruct (pack_split ((month * 32 + day) * 27 + (tz + 12)) year 10000) as [-> ->]; [lia|].
  destruct (pack_split (month * 32 + day) (tz + 12) 27) as [-> ->]; [lia|].
  destruct (pack_split month day 32) as [-> ->]; [lia|].
  rewrite !(uwrap_id 32) by (unfold ufits; lia).
  assert (Hs : (hour * 3600 + min * 60 + sec) mod 60 = sec /\ (hour * 3600 + min * 60 + sec) / 60 = hour * 60 + min) by zlia.
  destruct Hs as [-> ->]. destruct (pack_split hour min 60) as [-> ->]; [lia|]. rewrite (Z.mod_small hour 24) by lia.
  rewrite !(uwrap_id 16) by (unfold ufits; lia). replace (tz + 12 - 12) with tz by lia.
  rewrite !printf_0d_fix by (simpl; lia). reflexivity.
Qed.

End timestamp.

(** The parser of [CastAsTimestamp] accepts the text of every valid date
    and time with a zone from -12 to +14, packs it without overflow, and
    [TimestampType::ToString] prints the number as the same text. *)
Theorem timestamp_roundtrip (year month day hour min sec micro tz : Z) :
  timestamp_fields year month day hour min sec micro tz ->
  exists t, parse_timestamp (timestamp_text year month day hour min sec micro tz) = Ok t /\
    0 <= t <= BUSTUB_TIMESTAMP_MAX /\
    TimestampType_ToString (VInt TIMESTAMP t) = timestamp_text year month day hour min sec micro tz.
Proof.
  intros F. exists (packed year month day hour min sec micro tz).
  split_and!; [by apply parse_text|apply packed_bound; exact F..|by apply print_packed].
Qed.

Lemma timestamp_roundtrip_witness :
  timestamp_text 2024 2 29 23 59 7 45 (-5) = str "2024-02-29 23:59:07.000045-05" /\
  exists t, parse_timestamp (timestamp_text 2024 2 29 23 59 7 45 (-5)) = Ok t /\
    TimestampType_ToString (VInt TIMESTAMP t) = str "2024-02-29 23:59:07.000045-05".
Proof.
  split; [vm_compute; reflexivity|].
  destruct (timestamp_roundtrip 2024 2 29 23 59 7 45 (-5)) as (t & E & _ & P).
  - constructor; vm_compute; split; discriminate.
  - exists t. split; [exact E|exact P].
Defined.
