(* ===== verification/Tuple.v ===== *)
(** * Columns, schemas and tuples

    [Column] and [Schema] (src/include/catalog/column.h, schema.h,
    src/catalog/column.cpp, schema.cpp) and [Tuple]
    (src/include/storage/table/tuple.h, src/storage/table/tuple.cpp). A tuple
    is its bytes: the fixed-size part laid out by the schema, in which a
    VARCHAR column holds the offset of its payload, then the payloads. The
    [allocated_] flag and [rid_] play no part in the format.

    Proved: a tuple built from well-formed values of the columns' types gives
    every value back, NULLs included; a key built by [KeyFromTuple] holds the
    selected columns; and a tuple survives [SerializeTo]/[DeserializeFrom]. *)

From Stdlib Require Import String.
From S2P Require Import Prelude.
From S2P Require Import CStd.
From S2P Require Import Value.
From S2P Require Import Types.
Local Open Scope Z_scope.
Local Open Scope bustub_scope.

(** ** Columns *)

Record Column : Type := mkColumn {
  column_name_ : list Z;
  column_type_ : TypeId;
  fixed_length_ : Z;
  variable_length_ : Z;
  column_offset_ : Z;
}.

Definition TypeSize (type : TypeId) : result Z :=
  match type with
  | BOOLEAN | TINYINT => Ok 1
  | SMALLINT => Ok 2
  | INTEGER => Ok 4
  | BIGINT | DECIMAL | TIMESTAMP => Ok 8
  | VARCHAR => Ok 12
  | INVALID => Throw LogicError
  end.

(** [Column(column_name, type)] *)
Definition Column_fixed (column_name : list Z) (type : TypeId) : result Column :=
  let! n := TypeSize type in
  assert! negb (TypeId_eqb type VARCHAR); Ok (mkColumn column_name type n 0 0).
(** [Column(column_name, type, length)] *)
Definition Column_var (column_name : list Z) (type : TypeId) (length : Z) : result Column :=
  let! n := TypeSize type in
  assert! TypeId_eqb type VARCHAR; Ok (mkColumn column_name type n length 0).
(** [Column(column_name, column)] *)
Definition Column_rename (column_name : list Z) (column : Column) : Column :=
  mkColumn column_name (column_type_ column) (fixed_length_ column) (variable_length_ column) (column_offset_ column).

Definition Column_IsInlined (c : Column) : bool := negb (TypeId_eqb (column_type_ c) VARCHAR).
Definition Column_GetLength (c : Column) : Z := if Column_IsInlined c then fixed_length_ c else variable_length_ c.

Definition Column_ToString (c : Column) (simplified : bool) : list Z :=
  if simplified then column_name_ c ++ str ":" ++ TypeIdToString (column_type_ c)
  else str "Column[" ++ column_name_ c ++ str ", " ++ TypeIdToString (column_type_ c) ++ str ", "
       ++ str "Offset:" ++ to_string (column_offset_ c) ++ str ", "
       ++ (if Column_IsInlined c then str "FixedLength:" ++ to_string (fixed_length_ c)
           else str "VarLength:" ++ to_string (variable_length_ c))
       ++ str "]".

(** ** Schemas *)

Record Schema : Type := mkSchema {
  length_ : Z;
  columns_ : list Column;
  tuple_is_inlined_ : bool;
  uninlined_columns_ : list Z;
}.

Definition set_offset (c : Column) (off : Z) : Column :=
  mkColumn (column_name_ c) (column_type_ c) (fixed_length_ c) (variable_length_ c) off.

(** One iteration of the constructor's loop. *)
Definition add_column (st : Schema) (index : Z) (column : Column) : Schema :=
  let inl := Column_IsInlined column in
  mkSchema (uwrap 32 (length_ st + fixed_length_ column))
    (columns_ st ++ [set_offset column (length_ st)])
    (if inl then tuple_is_inlined_ st else false)
    (if inl then uninlined_columns_ st else uninlined_columns_ st ++ [index]).

Fixpoint add_columns (st : Schema) (index : Z) (columns : list Column) : Schema :=
  match columns with
  | [] => st
  | c :: cs => add_columns (add_column st index c) (index + 1) cs
  end.

Definition Schema_ctor (columns : list Column) : Schema := add_columns (mkSchema 0 [] true []) 0 columns.

(** [columns_[i]]: undefined out of range. *)
Definition GetColumn (s : Schema) (col_idx : Z) : result Column :=
  match (if col_idx <? 0 then None else columns_ s !! Z.to_nat col_idx) with
  | Some c => Ok c
  | None => Throw Undefined
  end.

Fixpoint CopySchema_columns (from : Schema) (attrs : list Z) : result (list Column) :=
  match attrs with
  | [] => Ok []
  | i :: attrs => let! c := GetColumn from i in let! cs := CopySchema_columns from attrs in Ok (c :: cs)
  end.
Definition CopySchema (from : Schema) (attrs : list Z) : result Schema :=
  let! cols := CopySchema_columns from attrs in Ok (Schema_ctor cols).

Fixpoint find_column (i : Z) (cols : list Column) (col_name : list Z) : option Z :=
  match cols with
  | [] => None
  | c :: cs => if bool_decide (column_name_ c = col_name) then Some i else find_column (i + 1) cs col_name
  end.
Definition TryGetColIdx (s : Schema) (col_name : list Z) : option Z := find_column 0 (columns_ s) col_name.
Definition GetColIdx (s : Schema) (col_name : list Z) : result Z :=
  match TryGetColIdx s col_name with Some i => Ok i | None => Throw LogicError end.

(** The columns, separated by commas; both formats print them in the short form. *)
Definition column_list (cols : list Column) : list Z :=
  match Column_ToString <$> cols with
  | [] => []
  | c :: cs => c true ++ concat ((fun c => str ", " ++ c true) <$> cs)
  end.
Definition Schema_ToString (s : Schema) (simplified : bool) : list Z :=
  if simplified then str "(" ++ column_list (columns_ s) ++ str ")"
  else str "Schema[" ++ str "NumColumns:" ++ to_string (zlen (columns_ s)) ++ str ", "
       ++ str "IsInlined:" ++ str (if tuple_is_inlined_ s then "1" else "0") ++ str ", "
       ++ str "Length:" ++ to_string (length_ s) ++ str "]"
       ++ str " :: (" ++ column_list (columns_ s) ++ str ")".

(** [GetLength()] of a value: the stored length of a VARCHAR, not implemented for the other types. *)
Definition Value_GetLength (v : Value) : result Z :=
  let! c := GetInstance (type_id_ v) in
  match c with VarlenType => Ok (VarlenType_GetLength v) | _ => Throw NotImplemented end.

(** ** Tuples *)

(** The bytes [data_]; [size_] is their number. *)
Abbreviation Tuple := (list Z).

Definition payload (len : Z) : Z := (if len =? BUSTUB_VALUE_NULL then 0 else len) + 4.

(** Step 1 of the constructor: the payloads of the columns in [uninlined_columns_]. *)
Fixpoint add_payloads (values : list Value) (tuple_size : Z) (idxs : list Z) : result Z :=
  match idxs with
  | [] => Ok tuple_size
  | i :: idxs =>
      match values !! Z.to_nat i with
      | None => Throw Undefined
      | Some v =>
          let! len := Value_GetLength v in
          add_payloads values (uwrap 32 (tuple_size + payload len)) idxs
      end
  end.

(** Step 3: serialize each attribute. *)
Fixpoint serialize_columns (cols : list Column) (values : list Value) (data : list Z) (offset : Z) : result (list Z) :=
  match cols, values with
  | col :: cols, v :: values =>
      if negb (Column_IsInlined col) then
        let! data := store 4 offset data (column_offset_ col) in
        let! data := Value_SerializeTo v data offset in
        let! len := Value_GetLength v in
        serialize_columns cols values data (uwrap 32 (offset + payload len))
      else
        let! data := Value_SerializeTo v data (column_offset_ col) in
        serialize_columns cols values data offset
  | _, _ => Ok data
  end.

Definition Tuple_ctor (values : list Value) (schema : Schema) : result Tuple :=
  assert! zlen values =? zlen (columns_ schema);
  let! size := add_payloads values (length_ schema) (uninlined_columns_ schema) in
  serialize_columns (columns_ schema) values (replicate (Z.to_nat size) 0) (length_ schema).

(** The offset into [data_] where the column's bytes are. *)
Definition GetDataPtr (t : Tuple) (schema : Schema) (column_idx : Z) : result Z :=
  let! col := GetColumn schema column_idx in
  if Column_IsInlined col then Ok (column_offset_ col)
  else let! offset := load 4 t (column_offset_ col) in Ok (swrap 32 offset).

Definition Tuple_GetValue (t : Tuple) (schema : Schema) (column_idx : Z) : result Value :=
  let! col := GetColumn schema column_idx in
  let! ptr := GetDataPtr t schema column_idx in
  Value_DeserializeFrom t ptr (column_type_ col).

Definition Tuple_IsNull (t : Tuple) (schema : Schema) (column_idx : Z) : result bool :=
  let! v := Tuple_GetValue t schema column_idx in Ok (IsNull v).

Fixpoint key_values (t : Tuple) (schema : Schema) (key_attrs : list Z) : result (list Value) :=
  match key_attrs with
  | [] => Ok []
  | idx :: key_attrs =>
      let! v := Tuple_GetValue t schema idx in
      let! vs := key_values t schema key_attrs in Ok (v :: vs)
  end.
Definition KeyFromTuple (t : Tuple) (schema key_schema : Schema) (key_attrs : list Z) : result Tuple :=
  let! values := key_values t schema key_attrs in Tuple_ctor values key_schema.

Fixpoint tuple_fields (fuel : nat) (t : Tuple) (schema : Schema) (i : Z) : result (list Z) :=
  match fuel with
  | O => Ok []
  | S fuel =>
      let! null := Tuple_IsNull t schema i in
      let! s := if null : bool then Ok (str "<NULL>") else (let! v := Tuple_GetValue t schema i in Value_ToString v) in
      let! rest := tuple_fields fuel t schema (i + 1) in
      Ok ((if i =? 0 then [] else str ", ") ++ s ++ rest)
  end.
Definition Tuple_ToString (t : Tuple) (schema : Schema) : result (list Z) :=
  let! fields := tuple_fields (List.length (columns_ schema)) t schema 0 in
  Ok (str "(" ++ fields ++ str ")" ++ str " Tuple size is " ++ to_string (zlen t)).

Definition Tuple_SerializeTo (t : Tuple) (storage : list Z) (off : Z) : result (list Z) :=
  let! storage := store 4 (zlen t) storage off in
  if zlen storage <? off + 4 + zlen t then Throw Undefined else Ok (splice (off + 4) t storage).
Definition Tuple_DeserializeFrom (storage : list Z) (off : Z) : result Tuple :=
  let! size := load 4 storage off in
  if zlen storage <? off + 4 + size then Throw Undefined else Ok (slice (off + 4) size storage).

(** ** Reading depends on the value's own bytes only *)

Lemma load_local n s s' off :
  zlen s = zlen s' -> slice off (Z.of_nat n) s = slice off (Z.of_nat n) s' -> load n s off = load n s' off.
Proof. intros Hl E. unfold load, get_u. by rewrite Hl, E. Qed.

Lemma stored_size_pos v : wf_value v -> 1 <= stored_size v.
Proof.
  destruct v as [t x l]. unfold wf_value, stored_size, IsNull. cbn [type_id_ value_ len_].
  destruct t, x as [|z|d|[data|]]; try done; try lia.
  - intros [-> _]. destruct (zlen data =? BUSTUB_VALUE_NULL); unfold zlen; lia.
  - intros ->. by rewrite Z.eqb_refl.
Qed.

(** The scalar types read [stored_size] bytes with one load. *)
Lemma deserialize_scalar t :
  t <> VARCHAR -> t <> INVALID -> t <> TIMESTAMP ->
  exists n f, TypeSize t = Ok (Z.of_nat n) /\
    (forall v, type_id_ v = t -> stored_size v = Z.of_nat n) /\
    forall s off, Value_DeserializeFrom s off t = let! x := load n s off in f x.
Proof.
  intros H1 H2 H3. destruct t; try done.
  - exists 1%nat, (fun x => Value_int int8_t BOOLEAN (swrap 8 x)). unfold stored_size. by split_and!; [|intros ? ->|].
  - exists 1%nat, (fun x => Value_int int8_t TINYINT (swrap 8 x)). unfold stored_size. by split_and!; [|intros ? ->|].
  - exists 2%nat, (fun x => Value_int int16_t SMALLINT (swrap 16 x)). unfold stored_size. by split_and!; [|intros ? ->|].
  - exists 4%nat, (fun x => Value_int int32_t INTEGER (swrap 32 x)). unfold stored_size. by split_and!; [|intros ? ->|].
  - exists 8%nat, (fun x => Value_int int64_t BIGINT (swrap 64 x)). unfold stored_size. by split_and!; [|intros ? ->|].
  - exists 8%nat, (fun x => Value_double DECIMAL (bits_double x)). unfold stored_size. by split_and!; [|intros ? ->|].
Qed.

(** What reading a VARCHAR depends on. *)
Lemma deserialize_varchar s off :
  0 <= off ->
  Value_DeserializeFrom s off VARCHAR =
    let! len := load 4 s off in
    if len =? BUSTUB_VALUE_NULL then Ok (mkValue VARCHAR (VarlenVal None) BUSTUB_VALUE_NULL)
    else if negb (len <? BUSTUB_VARCHAR_MAX_LEN) then Throw AssertFailed
    else if Z.max 0 (zlen s - (off + 4)) <? len then Throw Undefined
    else Ok (mkValue VARCHAR (VarlenVal (Some (slice (off + 4) len s))) len).
Proof.
  intros H0. change (Value_DeserializeFrom s off VARCHAR) with (VarlenType_DeserializeFrom s off).
  unfold VarlenType_DeserializeFrom. destruct (load 4 s off) as [len|]; [|done]. cbn [rbind].
  destruct (len =? BUSTUB_VALUE_NULL); [done|]. unfold Value_varlen.
  destruct (negb _); [done|].
  replace (zlen (drop (Z.to_nat (off + 4)) s)) with (Z.max 0 (zlen s - (off + 4)))
    by (unfold zlen; rewrite length_drop; lia).
  done.
Qed.

Lemma deserialize_local v s s' off :
  wf_value v -> 0 <= off -> zlen s = zlen s' ->
  slice off (stored_size v) s = slice off (stored_size v) s' ->
  Value_DeserializeFrom s off (type_id_ v) = Ok v -> Value_DeserializeFrom s' off (type_id_ v) = Ok v.
Proof.
  intros Hw H0 Hl Hs Hd. pose proof (stored_size_pos v Hw) as Hpos.
  destruct (decide (type_id_ v = VARCHAR)) as [Hv|Hv].
  - rewrite Hv, deserialize_varchar in Hd |- * by done.
    assert (Hst : stored_size v = if IsNull v then 4 else 4 + len_ v) by (unfold stored_size; by rewrite Hv).
    assert (Hlen : 0 <= len_ v).
    { destruct v as [t [| | |[data|]] l]; unfold wf_value in Hw; cbn [type_id_ value_ len_] in *; subst; try done.
      - destruct Hw as [-> _]. unfold zlen. lia.
      - by subst. }
    rewrite <- (load_local 4 s s' off Hl); cycle 1.
    { replace off with (off + 0) by lia. apply (slice_sub _ _ off off (stored_size v)); [lia..| |done].
      rewrite Hst. destruct (IsNull v); simpl; lia. }
    destruct (load 4 s off) as [len|]; [|done]. cbn [rbind] in Hd |- *.
    destruct (len =? BUSTUB_VALUE_NULL) eqn:En; [done|]. destruct (negb _); [done|]. rewrite <- Hl.
    destruct (_ <? len); [done|]. injection Hd as <-. f_equal. f_equal. f_equal. f_equal.
    symmetry. cbn [len_] in *. apply (slice_sub _ _ off off (4 + len)); [lia..|].
    rewrite Hst in Hs. unfold IsNull in Hs. cbn [len_] in Hs. by rewrite En in Hs.
  - assert (type_id_ v <> INVALID /\ type_id_ v <> TIMESTAMP) as [??].
    { destruct v as [[] [] l]; unfold wf_value in Hw; cbn [type_id_ value_] in *; done. }
    destruct (deserialize_scalar (type_id_ v)) as (n & f & _ & Hn & Hf); [done..|].
    rewrite Hf in Hd |- *. rewrite <- (load_local n s s' off Hl); [done|]. by rewrite (Hn v eq_refl) in Hs.
Qed.

(** ** The layout of a schema *)

Fixpoint laid_out (o : Z) (cols : list Column) : Prop :=
  match cols with
  | [] => True
  | c :: cs => column_offset_ c = o /\ TypeSize (column_type_ c) = Ok (fixed_length_ c) /\ laid_out (o + fixed_length_ c) cs
  end.

Definition fixed_total (cols : list Column) : Z := foldr (fun c n => fixed_length_ c + n) 0 cols.

(** A column as the constructors make it. *)
Definition column_ok (c : Column) : Prop := TypeSize (column_type_ c) = Ok (fixed_length_ c).

Lemma fixed_length_bound c : column_ok c -> 1 <= fixed_length_ c <= 12.
Proof. unfold column_ok. destruct (column_type_ c); intros [= <-]; lia. Qed.

Lemma fixed_total_nonneg cols : Forall column_ok cols -> 0 <= fixed_total cols.
Proof. induction 1 as [|c cs Hc _ IH]; simpl; [lia|]. pose proof (fixed_length_bound c Hc). lia. Qed.

(** The indices of the VARCHAR columns, counted from [i]. *)
Fixpoint uninlined_from (i : Z) (cols : list Column) : list Z :=
  match cols with
  | [] => []
  | c :: cs => (if Column_IsInlined c then [] else [i]) ++ uninlined_from (i + 1) cs
  end.

Fixpoint with_offsets (o : Z) (cols : list Column) : list Column :=
  match cols with
  | [] => []
  | c :: cs => set_offset c o :: with_offsets (o + fixed_length_ c) cs
  end.

Lemma add_columns_spec st i cols :
  Forall column_ok cols -> 0 <= length_ st -> length_ st + fixed_total cols < 2 ^ 32 ->
  add_columns st i cols =
    mkSchema (length_ st + fixed_total cols) (columns_ st ++ with_offsets (length_ st) cols)
      (tuple_is_inlined_ st && forallb Column_IsInlined cols) (uninlined_columns_ st ++ uninlined_from i cols).
Proof.
  intros Hok. revert st i. induction Hok as [|c cs Hc Hcs IH]; intros st i H0 Hb; cbn [add_columns].
  - destruct st. cbn. by rewrite Z.add_0_r, !app_nil_r, andb_true_r.
  - pose proof (fixed_length_bound c Hc). pose proof (fixed_total_nonneg cs Hcs). cbn [fixed_total foldr] in *.
    fold (fixed_total cs) in *. rewrite IH; unfold add_column; cbn [length_ columns_ tuple_is_inlined_ uninlined_columns_];
      rewrite ?uwrap_id by (unfold ufits; lia); [|lia..].
    rewrite <- Z.add_assoc, <- app_assoc. cbn [with_offsets uninlined_from forallb app]. f_equal.
    + destruct (Column_IsInlined c); cbn [andb]; [done|by rewrite andb_false_r].
    + destruct (Column_IsInlined c); cbn [app]; [done|by rewrite <- app_assoc].
Qed.

Lemma Schema_ctor_spec cols :
  Forall column_ok cols -> fixed_total cols < 2 ^ 32 ->
  Schema_ctor cols =
    mkSchema (fixed_total cols) (with_offsets 0 cols) (forallb Column_IsInlined cols) (uninlined_from 0 cols).
Proof. intros. unfold Schema_ctor. rewrite add_columns_spec by (simpl; done || lia). done. Qed.

Lemma laid_out_with_offsets o cols : Forall column_ok cols -> laid_out o (with_offsets o cols).
Proof.
  intros Hok. revert o. induction Hok as [|c cs Hc Hcs IH]; intros o; cbn [with_offsets laid_out]; [done|].
  split_and!; [done|done|apply IH].
Qed.

Lemma with_offsets_types o cols : column_type_ <$> with_offsets o cols = column_type_ <$> cols.
Proof. revert o. induction cols as [|c cs IH]; intros o; cbn; [done|]. f_equal. apply IH. Qed.

Lemma fixed_total_with_offsets o cols : fixed_total (with_offsets o cols) = fixed_total cols.
Proof. revert o. induction cols as [|c cs IH]; intros o; cbn; [done|]. f_equal. apply IH. Qed.

(** ** Writing the columns and reading them back *)

Definition value_fits (c : Column) (v : Value) : Prop := wf_value v /\ type_id_ v = column_type_ c.

(** The payload of a value in the variable part of the tuple. *)
Definition var_size (v : Value) : Z := match type_id_ v with VARCHAR => stored_size v | _ => 0 end.
Definition var_total (vs : list Value) : Z := foldr (fun v n => var_size v + n) 0 vs.

Definition read_column (t : Tuple) (c : Column) : result Value :=
  let! ptr := if Column_IsInlined c then Ok (column_offset_ c)
              else (let! offset := load 4 t (column_offset_ c) in Ok (swrap 32 offset)) in
  Value_DeserializeFrom t ptr (column_type_ c).

Lemma var_size_nonneg v : wf_value v -> 0 <= var_size v.
Proof. intros Hw. pose proof (stored_size_pos v Hw). unfold var_size. destruct (type_id_ v); lia. Qed.

Lemma var_total_nonneg cols vs : Forall2 value_fits cols vs -> 0 <= var_total vs.
Proof.
  induction 1 as [|c v cs vs [Hw _] _ IH]; [done|]. pose proof (var_size_nonneg v Hw).
  change (var_total (v :: vs)) with (var_size v + var_total vs). lia.
Qed.

Lemma payload_varchar v :
  wf_value v -> type_id_ v = VARCHAR -> Value_GetLength v = Ok (len_ v) /\ payload (len_ v) = stored_size v.
Proof.
  intros Hw Ht. unfold Value_GetLength, stored_size. rewrite Ht. split; [done|]. unfold payload, IsNull.
  destruct (len_ v =? BUSTUB_VALUE_NULL); lia.
Qed.

Lemma stored_size_inlined c v :
  value_fits c v -> column_ok c -> Column_IsInlined c = true -> stored_size v = fixed_length_ c /\ var_size v = 0.
Proof.
  unfold Column_IsInlined, TypeId_eqb. intros [Hw Ht] Hc Hi%negb_true_iff%bool_decide_eq_false_1.
  unfold column_ok in Hc. unfold stored_size, var_size. rewrite Ht. destruct (column_type_ c); try done;
    by injection Hc as <-.
Qed.

Lemma not_inlined c : Column_IsInlined c = false -> column_type_ c = VARCHAR.
Proof. unfold Column_IsInlined, TypeId_eqb. by intros ?%negb_false_iff%bool_decide_eq_true_1. Qed.

(** [data'] differs from [data] in [o, o + n) and [p, p + m) only. *)
Definition frame (data data' : list Z) (o n p m : Z) : Prop :=
  zlen data' = zlen data /\
  forall off len, 0 <= off ->
    off + len <= o \/ (o + n <= off /\ off + len <= p) \/ p + m <= off ->
    slice off len data' = slice off len data.

Lemma serialize_columns_ok cols vs :
  Forall2 value_fits cols vs -> forall o data off,
  laid_out o cols -> 0 <= o -> o + fixed_total cols <= off ->
  off + var_total vs <= zlen data -> off + var_total vs < 2 ^ 31 ->
  exists data', serialize_columns cols vs data off = Ok data' /\
    frame data data' o (fixed_total cols) off (var_total vs) /\
    Forall2 (fun c v => read_column data' c = Ok v) cols vs.
Proof.
  induction 1 as [|c v cs vs Hf Hcv IH]; intros o data off Hlay H0 Hfix Hvar Hmax.
  { exists data. cbn. split_and!; [done|split; done|constructor]. }
  destruct Hlay as (Ho & Hc & Hlay). pose proof (fixed_length_bound c Hc) as Hfl. pose proof Hf as [Hw Ht].
  pose proof (stored_size_pos v Hw) as Hsp. pose proof (var_total_nonneg cs vs Hcv) as Hvt.
  assert (Hft : 0 <= fixed_total cs).
  { clear -Hlay. revert Hlay. generalize (o + fixed_length_ c). induction cs as [|c' cs IH]; intros o'; cbn; [lia|].
    intros (_ & Hc' & Hl). pose proof (fixed_length_bound c' Hc'). specialize (IH _ Hl). unfold fixed_total in IH. lia. }
  cbn [fixed_total foldr var_total] in *. fold (fixed_total cs) (var_total vs) in *. cbn [serialize_columns].
  destruct (Column_IsInlined c) eqn:Hin; cbn [negb]; rewrite Ho.
  - destruct (stored_size_inlined c v Hf Hc Hin) as [Hss Hvs]. rewrite Hvs in *. rewrite Z.add_0_l in *.
    destruct (store_back v data o) as (d1 & E1 & D1 & L1 & F1); [done|done|lia|]. rewrite E1. cbn [rbind].
    destruct (IH (o + fixed_length_ c) d1 off) as (d2 & E2 & [L2 F2] & R2); [done|lia..|].
    exists d2. split_and!; [done| |].
    + split; [lia|]. intros off' len' Ho' Hd. rewrite F2, F1; [done|lia..].
    + constructor; [|done]. unfold read_column. rewrite Hin, Ho, <- Ht. cbn [rbind].
      apply (deserialize_local v d1); [done|lia|lia| |done]. symmetry. apply F2; lia.
  - pose proof (not_inlined c Hin) as Hv. assert (Htv : type_id_ v = VARCHAR) by congruence.
    assert (Hfl12 : fixed_length_ c = 12) by (unfold column_ok in Hc; rewrite Hv in Hc; by injection Hc).
    destruct (payload_varchar v Hw Htv) as [Hgl Hpl].
    assert (Hvs : var_size v = stored_size v) by (unfold var_size; by rewrite Htv). rewrite Hvs in *.
    destruct (store_load 4 off data o) as (d0 & E0 & L0 & R0 & F0); [lia|simpl; lia|]. rewrite E0. cbn [rbind].
    destruct (store_back v d0 off) as (d1 & E1 & D1 & L1 & F1); [done|lia|lia|]. rewrite E1, Hgl. cbn [rbind].
    rewrite Hpl, uwrap_id by (unfold ufits; lia).
    destruct (IH (o + fixed_length_ c) d1 (off + stored_size v)) as (d2 & E2 & [L2 F2] & R2); [done|lia..|].
    exists d2. split_and!; [done| |].
    + split; [lia|]. intros off' len' Ho' Hd. rewrite F2, F1, F0; [done|simpl; lia..].
    + constructor; [|done]. unfold read_column. rewrite Hin, Ho, <- Ht.
      rewrite <- (load_local 4 d0 d2 o); [|lia|].
      * rewrite R0. cbn [rbind]. rewrite swrap_uwrap, swrap_id by (unfold sfits; simpl; lia).
        apply (deserialize_local v d1); [done|lia|lia| |done]. symmetry. apply F2; lia.
      * simpl Z.of_nat. rewrite F2, F1; [done|lia..].
Qed.

(** Step 1 computes the size of the payloads. *)
Lemma add_payloads_ok cols vs values size i :
  Forall2 value_fits cols vs -> 0 <= i -> drop (Z.to_nat i) values = vs ->
  0 <= size -> size + var_total vs < 2 ^ 32 ->
  add_payloads values size (uninlined_from i cols) = Ok (size + var_total vs).
Proof.
  intros Hf. revert i size. induction Hf as [|c v cs vs Hcv Hf IH]; intros i size Hi Hd H0 Hb.
  { cbn. by rewrite Z.add_0_r. }
  pose proof Hcv as [Hw Ht]. pose proof (var_size_nonneg v Hw). pose proof (var_total_nonneg cs vs Hf).
  assert (Hl : values !! Z.to_nat i = Some v).
  { rewrite <- (Nat.add_0_r (Z.to_nat i)), <- lookup_drop, Hd. done. }
  assert (Hd' : drop (Z.to_nat (i + 1)) values = vs).
  { replace (Z.to_nat (i + 1)) with (Z.to_nat i + 1)%nat by lia. rewrite <- drop_drop, Hd. done. }
  cbn [uninlined_from var_total foldr] in *. fold (var_total vs) in *.
  destruct (Column_IsInlined c) eqn:Hin; cbn [app].
  - assert (var_size v = 0) as Hz.
    { unfold var_size. rewrite Ht. unfold Column_IsInlined, TypeId_eqb in Hin. by destruct (column_type_ c). }
    rewrite IH by (done || lia). f_equal. lia.
  - pose proof (not_inlined c Hin) as Hv. destruct (payload_varchar v Hw) as [Hgl Hpl]; [congruence|].
    assert (Hvs : var_size v = stored_size v) by (unfold var_size; by rewrite Ht, Hv).
    cbn [add_payloads]. rewrite Hl, Hgl. cbn [rbind]. rewrite Hpl, <- Hvs, uwrap_id by (unfold ufits; lia).
    rewrite IH by (done || lia). f_equal. lia.
Qed.

Lemma GetColumn_lookup s i c : 0 <= i -> columns_ s !! Z.to_nat i = Some c -> GetColumn s i = Ok c.
Proof. intros Hi Hc. unfold GetColumn. replace (i <? 0) with false by lia. by rewrite Hc. Qed.

Lemma Tuple_GetValue_column t s i c :
  0 <= i -> columns_ s !! Z.to_nat i = Some c -> Tuple_GetValue t s i = read_column t c.
Proof.
  intros Hi Hc. unfold Tuple_GetValue, GetDataPtr. rewrite (GetColumn_lookup s i c) by done. cbn [rbind].
  unfold read_column. by destruct (Column_IsInlined c).
Qed.

(** The values a schema's tuple can hold. *)
Definition tuple_values (cols : list Column) (vs : list Value) : Prop :=
  Forall column_ok cols /\ Forall2 value_fits cols vs /\ fixed_total cols + var_total vs < 2 ^ 31.

Lemma tuple_ctor_ok cols vs :
  tuple_values cols vs ->
  exists t, Tuple_ctor vs (Schema_ctor cols) = Ok t /\ zlen t = fixed_total cols + var_total vs /\
    forall i v, 0 <= i -> vs !! Z.to_nat i = Some v -> Tuple_GetValue t (Schema_ctor cols) i = Ok v.
Proof.
  intros (Hok & Hf & Hmax). pose proof (fixed_total_nonneg cols Hok) as Hft. pose proof (var_total_nonneg cols vs Hf) as Hvt.
  rewrite Schema_ctor_spec by (done || lia). set (s := mkSchema _ _ _ _).
  assert (Hf' : Forall2 value_fits (with_offsets 0 cols) vs).
  { clear -Hf. generalize 0. induction Hf as [|c v cs vs Hcv _ IH]; intros o; cbn; constructor; [done|apply IH]. }
  unfold Tuple_ctor. cbn [s columns_ length_ uninlined_columns_].
  assert (Hlen : (zlen vs =? zlen (with_offsets 0 cols)) = true).
  { apply Z.eqb_eq. unfold zlen. f_equal. symmetry. by eapply Forall2_length. }
  rewrite Hlen. cbn [massert]. rewrite (add_payloads_ok cols vs) by (done || lia). cbn [rbind].
  set (data := replicate _ 0).
  assert (Hdl : zlen data = fixed_total cols + var_total vs) by (subst data; unfold zlen; rewrite length_replicate; lia).
  destruct (serialize_columns_ok _ _ Hf' 0 data (fixed_total cols)) as (t & Et & [Lt _] & Rt).
  - by apply laid_out_with_offsets.
  - lia.
  - rewrite fixed_total_with_offsets. lia.
  - lia.
  - lia.
  - exists t. split_and!; [done|lia|]. intros i v Hi Hv.
    destruct (Forall2_lookup_r _ _ _ _ _ Rt Hv) as (c & Hc & Hr). by rewrite (Tuple_GetValue_column t s i c).
Qed.

Lemma key_values_ok t s attrs (vs kvs : list Value) :
  (forall i v, 0 <= i -> vs !! Z.to_nat i = Some v -> Tuple_GetValue t s i = Ok v) ->
  Forall2 (fun i v => 0 <= i /\ vs !! Z.to_nat i = Some v) attrs kvs ->
  key_values t s attrs = Ok kvs.
Proof.
  intros Hg. induction 1 as [|i v attrs kvs [Hi Hv] _ IH]; cbn [key_values]; [done|].
  by rewrite (Hg i v), IH.
Qed.

(** ** Properties *)

(** C38: a tuple built from one well-formed value per column, of the column's
    type, and shorter than 2 GiB, is built without failing, has the length of
    the fixed part plus the payloads, and returns every value, NULLs and
    VARCHARs included. *)
Theorem Tuple_roundtrip (cols : list Column) (vs : list Value) :
  tuple_values cols vs ->
  exists t, Tuple_ctor vs (Schema_ctor cols) = Ok t /\ zlen t = fixed_total cols + var_total vs /\
    forall i v, 0 <= i -> vs !! Z.to_nat i = Some v -> Tuple_GetValue t (Schema_ctor cols) i = Ok v.
Proof. apply tuple_ctor_ok. Qed.

Definition demo_columns : list Column :=
  [mkColumn (str "id") INTEGER 4 0 0; mkColumn (str "name") VARCHAR 12 32 0;
   mkColumn (str "note") VARCHAR 12 32 0; mkColumn (str "ok") BOOLEAN 1 0 0].
Definition demo_values : list Value :=
  [VInt INTEGER (-7); VString (str "bustub"); mkValue VARCHAR (VarlenVal None) BUSTUB_VALUE_NULL; VInt BOOLEAN 1].

Lemma demo_tuple_values : tuple_values demo_columns demo_values.
Proof.
  split_and!.
  - by repeat constructor.
  - repeat constructor; by vm_compute.
  - by vm_compute.
Defined.

Lemma Tuple_roundtrip_witness :
  exists t, Tuple_ctor demo_values (Schema_ctor demo_columns) = Ok t /\
    Tuple_GetValue t (Schema_ctor demo_columns) 1 = Ok (VString (str "bustub")) /\
    Tuple_IsNull t (Schema_ctor demo_columns) 2 = Ok true.
Proof.
  destruct (Tuple_roundtrip demo_columns demo_values demo_tuple_values) as (t & Et & _ & Hv).
  exists t. split; [exact Et|]. split; [apply (Hv 1); [lia|reflexivity]|].
  unfold Tuple_IsNull. rewrite (Hv 2 (mkValue VARCHAR (VarlenVal None) BUSTUB_VALUE_NULL)); [reflexivity|lia|reflexivity].
Defined.

(** [KeyFromTuple] on a tuple of the values [vs] makes a tuple of the
    selected values: reading column [j] of the key gives the value of the
    column [key_attrs[j]], provided the key schema has the types of the selected
    columns. *)
Theorem KeyFromTuple_correct (cols kcols : list Column) (vs kvs : list Value) (attrs : list Z) :
  tuple_values cols vs -> tuple_values kcols kvs ->
  Forall2 (fun i v => 0 <= i /\ vs !! Z.to_nat i = Some v) attrs kvs ->
  exists t k, Tuple_ctor vs (Schema_ctor cols) = Ok t /\
    KeyFromTuple t (Schema_ctor cols) (Schema_ctor kcols) attrs = Ok k /\
    forall j i v, 0 <= j -> attrs !! Z.to_nat j = Some i -> vs !! Z.to_nat i = Some v ->
      Tuple_GetValue k (Schema_ctor kcols) j = Ok v.
Proof.
  intros Hv Hk Ha. destruct (tuple_ctor_ok cols vs Hv) as (t & Et & _ & Gt).
  destruct (tuple_ctor_ok kcols kvs Hk) as (k & Ek & _ & Gk).
  exists t, k. split_and!; [done| |].
  - unfold KeyFromTuple. by rewrite (key_values_ok t _ attrs vs kvs).
  - intros j i v Hj Hi Hiv. destruct (Forall2_lookup_l _ _ _ _ _ Ha Hi) as (v' & Hv' & _ & Hvi).
    rewrite Hiv in Hvi. injection Hvi as <-. by apply Gk.
Qed.

Lemma KeyFromTuple_correct_witness :
  exists t k, Tuple_ctor demo_values (Schema_ctor demo_columns) = Ok t /\
    KeyFromTuple t (Schema_ctor demo_columns)
      (Schema_ctor [mkColumn (str "name") VARCHAR 12 32 0; mkColumn (str "id") INTEGER 4 0 0]) [1; 0] = Ok k /\
    Tuple_GetValue k (Schema_ctor [mkColumn (str "name") VARCHAR 12 32 0; mkColumn (str "id") INTEGER 4 0 0]) 1
      = Ok (VInt INTEGER (-7)).
Proof.
  destruct (KeyFromTuple_correct demo_columns
    [mkColumn (str "name") VARCHAR 12 32 0; mkColumn (str "id") INTEGER 4 0 0]
    demo_values [VString (str "bustub"); VInt INTEGER (-7)] [1; 0]) as (t & k & Et & Ek & G).
  - exact demo_tuple_values.
  - split_and!; [by repeat constructor|repeat constructor; by vm_compute|by vm_compute].
  - repeat constructor; by vm_compute.
  - exists t, k. split; [exact Et|]. split; [exact Ek|]. apply (G 1 0); [lia|reflexivity|reflexivity].
Defined.

(** A tuple written with [SerializeTo] into a buffer with room for it is
    the tuple [DeserializeFrom] reads at the same place. *)
Theorem Tuple_storage_roundtrip (t : Tuple) (storage : list Z) (off : Z) :
  zlen t < 2 ^ 32 -> 0 <= off -> off + 4 + zlen t <= zlen storage ->
  exists s, Tuple_SerializeTo t storage off = Ok s /\ zlen s = zlen storage /\
    Tuple_DeserializeFrom s off = Ok t.
Proof.
  intros Hmax H0 H1. assert (Hn : 0 <= zlen t) by (unfold zlen; lia).
  destruct (store_load 4 (zlen t) storage off) as (s & E & Hl & HL & _); [lia..|].
  unfold Tuple_SerializeTo. rewrite E. cbn [rbind]. replace (zlen s <? off + 4 + zlen t) with false by lia.
  assert (Hl' : zlen (splice (off + 4) t s) = zlen s) by (apply zlen_splice; lia).
  eexists. split_and!; [done|lia|]. unfold Tuple_DeserializeFrom.
  rewrite <- (load_local 4 s); [|lia|].
  - rewrite HL. cbn [rbind]. rewrite uwrap_id by (unfold ufits; lia). rewrite Hl'.
    replace (zlen s <? off + 4 + zlen t) with false by lia. f_equal. apply slice_splice_same; lia.
  - symmetry. apply slice_splice_disj; simpl; lia.
Qed.

Lemma Tuple_storage_roundtrip_witness :
  exists s, Tuple_SerializeTo [1; 2; 3] (replicate 10 9) 2 = Ok s /\ Tuple_DeserializeFrom s 2 = Ok [1; 2; 3].
Proof.
  destruct (Tuple_storage_roundtrip [1; 2; 3] (replicate 10 9) 2) as (s & E & _ & D);
    [vm_compute; reflexivity|lia|vm_compute; discriminate|].
  exists s. split; [exact E|exact D].
Defined.
