(* ===== verification/HeaderPage.v ===== *)
(** * The header page

    [HeaderPage] (src/include/storage/page/header_page.h,
    src/storage/page/header_page.cpp): page 0 of the database keeps, for each
    table or index, its name and the id of its root page. The page is its bytes:
    a count, then records of 36 bytes, a zero-terminated name in 32 and the root
    id in 4. An access outside the page is undefined behaviour.

    Proved: on a page that represents a list of records, the four operations
    are the operations on that list. [InsertRecord] does not test whether the
    page has room: the record after the 113th is written past its end. *)

From S2P Require Import Prelude.
From S2P Require Import Types.
Local Open Scope Z_scope.
Local Open Scope bustub_scope.

Definition RECORD_SIZE : Z := 36.

Definition GetRecordCount (d : list Z) : result Z := let! n := load 4 d 0 in Ok (swrap 32 n).
Definition SetRecordCount (d : list Z) (record_count : Z) : result (list Z) := store 4 record_count d 0.

(** [strcmp(raw_name, name.c_str()) == 0], on the memory from [raw_name] on and
    the bytes of [name.c_str()]: stops at the first difference. *)
Fixpoint streq (raw name : list Z) : result bool :=
  match raw, name with
  | x :: raw, y :: name => if x =? y then (if x =? 0 then Ok true else streq raw name) else Ok false
  | _, _ => Throw Undefined
  end.

Fixpoint find_from (fuel : nat) (d name : list Z) (i : Z) : result Z :=
  match fuel with
  | O => Ok (-1)
  | S fuel =>
      let! eq := streq (drop (Z.to_nat (4 + i * 36)) d) (name ++ [0]) in
      if eq : bool then Ok i else find_from fuel d name (i + 1)
  end.
Definition FindRecord (d name : list Z) : result Z :=
  let! record_num := GetRecordCount d in find_from (Z.to_nat record_num) d name 0.

(** [memcpy(GetData() + offset, bytes, n)] *)
Definition copy_to (d : list Z) (offset : Z) (bytes : list Z) : result (list Z) :=
  if (0 <=? offset) && (offset + zlen bytes <=? zlen d) then Ok (splice offset bytes d) else Throw Undefined.

Definition HeaderPage_Init (d : list Z) : result (list Z) := SetRecordCount d 0.

Definition InsertRecord (d name : list Z) (root_id : Z) : result (bool * list Z) :=
  if negb (zlen name <? 32) then Throw AssertFailed
  else if negb (-1 <? root_id) then Throw AssertFailed
  else
    let! record_num := GetRecordCount d in
    let offset := swrap 32 (4 + swrap 32 (record_num * 36)) in
    let! index := FindRecord d name in
    if negb (index =? -1) then Ok (false, d)
    else
      let! d := copy_to d offset (name ++ [0]) in
      let! d := store 4 root_id d (offset + 32) in
      let! d := SetRecordCount d (record_num + 1) in
      Ok (true, d).

Definition DeleteRecord (d name : list Z) : result (bool * list Z) :=
  let! record_num := GetRecordCount d in
  if negb (0 <? record_num) then Throw AssertFailed
  else
    let! index := FindRecord d name in
    if index =? -1 then Ok (false, d)
    else
      let offset := index * 36 + 4 in
      let n := (record_num - index - 1) * 36 in
      if zlen d <? offset + 36 + n then Throw Undefined
      else
        let! d := copy_to d offset (slice (offset + 36) n d) in
        let! d := SetRecordCount d (record_num - 1) in
        Ok (true, d).

Definition UpdateRecord (d name : list Z) (root_id : Z) : result (bool * list Z) :=
  if negb (zlen name <? 32) then Throw AssertFailed
  else
    let! index := FindRecord d name in
    if index =? -1 then Ok (false, d)
    else
      let offset := index * 36 + 4 in
      let! d := store 4 root_id d (offset + 32) in
      Ok (true, d).

(** [None]: the function returned false and left [*root_id] alone. *)
Definition GetRootId (d name : list Z) : result (option Z) :=
  if negb (zlen name <? 32) then Throw AssertFailed
  else
    let! index := FindRecord d name in
    if index =? -1 then Ok None
    else
      let offset := (index + 1) * 36 in
      let! r := load 4 d offset in Ok (Some (swrap 32 r)).

(** ** What a page represents *)

(** A name the page can hold: shorter than 32 bytes, none of them zero. *)
Definition name_ok (n : list Z) : Prop := zlen n < 32 /\ Forall (fun c => c <> 0) n.

Definition record_at (d : list Z) (o : Z) (nr : list Z * Z) : Prop :=
  name_ok nr.1 /\ slice o (zlen nr.1 + 1) d = nr.1 ++ [0] /\ get_i32 d (o + 32) = nr.2.

Record header_rep (d : list Z) (recs : list (list Z * Z)) : Prop := {
  hr_count : get_i32 d 0 = zlen recs;
  hr_room : 4 + 36 * zlen recs <= zlen d < 2 ^ 31;
  hr_records : forall i nr, recs !! i = Some nr -> record_at d (4 + 36 * Z.of_nat i) nr;
  hr_nodup : NoDup recs.*1;
}.

(** The index of a name, and the list operations the page implements. *)
Definition index_of (recs : list (list Z * Z)) (name : list Z) : option nat :=
  fst <$> list_find (fun nr => nr.1 = name) recs.

Definition root_of (recs : list (list Z * Z)) (name : list Z) : option Z :=
  i ← index_of recs name; snd <$> recs !! i.

Lemma streq_record n name t :
  Forall (fun c => c <> 0) n -> Forall (fun c => c <> 0) name ->
  streq ((n ++ [0]) ++ t) (name ++ [0]) = Ok (bool_decide (n = name)).
Proof.
  intros Hn. revert name. induction Hn as [|x n Hx Hn IH]; intros name Hm; destruct Hm as [|y name Hy Hm];
    cbn [app streq].
  - done.
  - replace (0 =? y) with false by lia. done.
  - replace (x =? 0) with false by lia. done.
  - destruct (Z.eqb_spec x y) as [->|Hxy].
    + replace (y =? 0) with false by lia. rewrite IH by done.
      f_equal. apply bool_decide_ext. split; [by intros ->|by intros [= ->]].
    + by rewrite bool_decide_false by congruence.
Qed.

Lemma streq_at d o nr name :
  0 <= o -> record_at d o nr -> Forall (fun c => c <> 0) name ->
  streq (drop (Z.to_nat o) d) (name ++ [0]) = Ok (bool_decide (nr.1 = name)).
Proof.
  intros H0 ([_ Hn] & Hs & _) Hm. unfold slice in Hs.
  rewrite <- (take_drop (Z.to_nat (zlen nr.1 + 1)) (drop (Z.to_nat o) d)), Hs.
  by apply streq_record.
Qed.

Lemma of_nat_not_neg1 j : (Z.of_nat j =? -1) = false.
Proof. apply Z.eqb_neq. lia. Qed.

Lemma record_local d d' o o' nr :
  0 <= o -> 0 <= o' -> slice o 36 d = slice o' 36 d' -> record_at d o nr -> record_at d' o' nr.
Proof.
  intros H0 H0' E (Hn & Hs & Hr). split_and!; [done| |].
  - rewrite <- Hs. symmetry. replace o with (o + 0) by lia. replace o' with (o' + 0) by lia.
    destruct Hn as [Hn _]. apply (slice_sub _ _ o o' 36); unfold zlen in *; lia || done.
  - rewrite <- Hr. unfold get_i32, get_u. do 2 f_equal. symmetry. apply (slice_sub _ _ o o' 36); simpl; lia || done.
Qed.

Lemma record_write d o nr :
  0 <= o -> o + 36 <= zlen d -> name_ok nr.1 -> sfits 32 nr.2 ->
  record_at (put_u 4 (splice o (nr.1 ++ [0]) d) (o + 32) nr.2) o nr.
Proof.
  intros H0 H1 [Hl Hn] Hr. assert (Hz : zlen (nr.1 ++ [0]) = zlen nr.1 + 1) by (unfold zlen; rewrite length_app; simpl; lia).
  assert (0 <= zlen nr.1) by (unfold zlen; lia).
  assert (Hs : zlen (splice o (nr.1 ++ [0]) d) = zlen d) by (apply zlen_splice; lia).
  split_and!; [done| |].
  - unfold put_u. rewrite slice_splice_disj; unfold zlen in *; rewrite ?length_le_encode; [|lia..].
    rewrite <- Hz. apply slice_splice_same; unfold zlen; lia.
  - unfold get_i32. rewrite get_put_u by (simpl; lia). simpl (8 * _). by rewrite swrap_uwrap, swrap_id.
Qed.

Section header.
Context (d : list Z) (recs : list (list Z * Z)).
Hypothesis R : header_rep d recs.

Lemma recs_len : 0 <= zlen recs < 2 ^ 26 /\ 4 <= zlen d.
Proof. destruct R as [_ Hr _ _]. unfold zlen in *. lia. Qed.

Lemma count_ok : GetRecordCount d = Ok (zlen recs).
Proof.
  destruct R as [Hc Hr _ _]. pose proof recs_len as [? ?]. unfold GetRecordCount.
  rewrite load_ok by lia. cbn [rbind].
  unfold get_i32 in Hc. by rewrite Hc.
Qed.

Lemma find_from_ok name i :
  Forall (fun c => c <> 0) name -> (i <= length recs)%nat ->
  find_from (length recs - i) d name (Z.of_nat i) =
    Ok (match index_of (drop i recs) name with Some j => Z.of_nat (i + j) | None => -1 end).
Proof.
  intros Hn Hi. remember (length recs - i)%nat as k eqn:Hk. revert i Hi Hk.
  induction k as [|k IH]; intros i Hi Hk.
  - rewrite drop_ge by lia. done.
  - destruct (lookup_lt_is_Some_2 recs i) as [nr Hnr]; [lia|]. cbn [find_from].
    pose proof (hr_records _ _ R i nr Hnr) as Hrec.
    replace (4 + Z.of_nat i * 36) with (4 + 36 * Z.of_nat i) by lia.
    rewrite (streq_at d _ nr name) by (done || lia). cbn [rbind].
    rewrite (drop_S recs nr i Hnr). unfold index_of. cbn [list_find].
    destruct (decide (nr.1 = name)) as [E|E].
    + rewrite bool_decide_true by done. cbn. f_equal. lia.
    + rewrite bool_decide_false by done. replace (Z.of_nat i + 1) with (Z.of_nat (S i)) by lia.
      rewrite IH by lia. unfold index_of. destruct (list_find _ (drop (S i) recs)) as [[j x]|]; cbn; f_equal; lia.
Qed.

Lemma find_ok name :
  Forall (fun c => c <> 0) name ->
  FindRecord d name = Ok (match index_of recs name with Some j => Z.of_nat j | None => -1 end).
Proof.
  intros Hn. unfold FindRecord. rewrite count_ok. cbn [rbind].
  replace (Z.to_nat (zlen recs)) with (length recs - 0)%nat by (unfold zlen; lia).
  pose proof (find_from_ok name 0 Hn ltac:(lia)) as E. rewrite drop_0 in E. exact E.
Qed.

Lemma index_of_Some name j :
  index_of recs name = Some j -> exists r, recs !! j = Some (name, r) /\ (j < length recs)%nat.
Proof.
  unfold index_of. intros H. apply fmap_Some in H as ((k & [n r]) & Hf & ->).
  apply list_find_Some in Hf as (Hl & Hn & _). cbn in Hn. subst n.
  exists r. split; [done|]. by apply lookup_lt_Some in Hl.
Qed.

Lemma index_of_None name : index_of recs name = None -> name ∉ recs.*1.
Proof.
  unfold index_of. intros H%fmap_None Hin. apply list_find_None in H. rewrite Forall_forall in H.
  apply list_elem_of_fmap in Hin as (nr & -> & Hin). by apply (H nr).
Qed.


Lemma slot_bound i nr : recs !! i = Some nr -> 0 <= Z.of_nat i < zlen recs.
Proof. intros H%lookup_lt_Some. unfold zlen. lia. Qed.

Lemma zlen_app1 (nr : list Z * Z) : zlen (recs ++ [nr]) = zlen recs + 1.
Proof. unfold zlen. rewrite length_app. simpl. lia. Qed.

(** A page whose records and count are in place, in terms of 36-byte slots. *)
Lemma rep_intro d' recs' :
  get_i32 d' 0 = zlen recs' -> zlen d' = zlen d -> 4 + 36 * zlen recs' <= zlen d ->
  (forall i nr, recs' !! i = Some nr -> record_at d' (4 + 36 * Z.of_nat i) nr) ->
  NoDup recs'.*1 -> header_rep d' recs'.
Proof. intros Hc Hl Hr H Hn. destruct R as [_ Hroom _ _]. constructor; [done|lia|done|done]. Qed.

Lemma insert_ok name root :
  name_ok name -> 0 <= root < 2 ^ 31 ->
  match index_of recs name with
  | Some _ => InsertRecord d name root = Ok (false, d)
  | None => 4 + 36 * (zlen recs + 1) <= zlen d ->
      exists d', InsertRecord d name root = Ok (true, d') /\ header_rep d' (recs ++ [(name, root)])
  end.
Proof.
  intros [Hl Hn] Hroot. pose proof recs_len as [Hc _]. pose proof (hr_room _ _ R) as Hroom. unfold InsertRecord.
  replace (zlen name <? 32) with true by lia. replace (-1 <? root) with true by lia. cbn [negb].
  rewrite count_ok, find_ok by done. cbn [rbind]. destruct (index_of recs name) as [j|] eqn:Ei.
  { by rewrite of_nat_not_neg1. }
  intros Hroom'. change (-1 =? -1) with true. cbn [negb].
  rewrite (swrap_id 32 (zlen recs * 36)), swrap_id by (unfold sfits; lia).
  set (o := 4 + zlen recs * 36). assert (Hz : zlen (name ++ [0]) = zlen name + 1) by (unfold zlen; rewrite length_app; simpl; lia).
  assert (0 <= zlen name) by (unfold zlen; lia).
  unfold copy_to. replace ((0 <=? o) && (o + zlen (name ++ [0]) <=? zlen d)) with true by lia. cbn [rbind].
  assert (Hs : zlen (splice o (name ++ [0]) d) = zlen d) by (apply zlen_splice; lia).
  rewrite store_ok by (simpl; lia). cbn [rbind].
  set (d1 := put_u 4 _ (o + 32) root). assert (Hd1 : zlen d1 = zlen d) by (subst d1; rewrite zlen_put_u; simpl; lia).
  unfold SetRecordCount. rewrite store_ok by (simpl; lia). cbn [rbind].
  eexists. split; [done|]. set (d2 := put_u 4 d1 0 _).
  assert (Hd2 : zlen d2 = zlen d) by (subst d2; rewrite zlen_put_u; simpl; lia).
  assert (F2 : forall off, 4 <= off -> slice off 36 d2 = slice off 36 d1).
  { intros off Hoff. subst d2. unfold put_u. apply slice_splice_disj; unfold zlen in *; rewrite ?length_le_encode; lia. }
  apply rep_intro.
  - subst d2. unfold get_i32. rewrite get_put_u by (simpl; lia). simpl (8 * _).
    rewrite swrap_uwrap, swrap_id by (unfold sfits; lia). by rewrite zlen_app1.
  - done.
  - rewrite zlen_app1. lia.
  - intros i nr Hi. apply lookup_app_Some in Hi as [Hi|[Hge Hi]].
    + pose proof (slot_bound i nr Hi). apply (record_local d d2 (4 + 36 * Z.of_nat i)); [lia..| |by apply (hr_records _ _ R)].
      rewrite F2 by lia. subst d1. unfold put_u.
      rewrite !slice_splice_disj; unfold zlen in *; rewrite ?length_le_encode; lia || done.
    + apply list_lookup_singleton_Some in Hi as [Hi0 <-].
      replace (4 + 36 * Z.of_nat i) with o by (subst o; unfold zlen; lia).
      apply (record_local d1 d2 o); [lia..|by rewrite F2 by lia|].
      apply (record_write d o (name, root)); [lia|lia|done|unfold sfits; simpl; lia].
  - rewrite fmap_app. apply NoDup_app. split_and!; [by apply R| |apply NoDup_singleton].
    intros x Hx Hin%list_elem_of_singleton. subst x. by apply (index_of_None name).
Qed.

(** Without room the copies leave the page. *)
Lemma insert_full name root :
  name_ok name -> 0 <= root < 2 ^ 31 -> index_of recs name = None -> zlen d < 4 + 36 * (zlen recs + 1) ->
  InsertRecord d name root = Throw Undefined.
Proof.
  intros [Hl Hn] Hroot Ei Hfull. pose proof recs_len as [Hc _]. pose proof (hr_room _ _ R) as Hroom. unfold InsertRecord.
  replace (zlen name <? 32) with true by lia. replace (-1 <? root) with true by lia. cbn [negb].
  rewrite count_ok, find_ok by done. cbn [rbind]. rewrite Ei. change (-1 =? -1) with true. cbn [negb].
  rewrite (swrap_id 32 (zlen recs * 36)), swrap_id by (unfold sfits; lia).
  unfold copy_to. destruct (_ && _) eqn:E; cbn [rbind]; [|done].
  unfold store at 1. rewrite zlen_splice by lia.
  destruct ((0 <=? 4 + zlen recs * 36 + 32) && _) eqn:E2; cbn [rbind]; [|done]. change (Z.of_nat 4) with 4 in E2. apply andb_true_iff in E2 as [_ E2%Z.leb_le]. lia.
Qed.

Lemma delete_empty name : recs = [] -> DeleteRecord d name = Throw AssertFailed.
Proof. intros He. unfold DeleteRecord. rewrite count_ok, He. done. Qed.

Lemma update_ok name root :
  name_ok name -> sfits 32 root ->
  match index_of recs name with
  | None => UpdateRecord d name root = Ok (false, d)
  | Some j => exists d', UpdateRecord d name root = Ok (true, d') /\ header_rep d' (<[j := (name, root)]> recs)
  end.
Proof.
  intros [Hl Hn] Hroot. pose proof (hr_room _ _ R) as Hroom. unfold UpdateRecord.
  replace (zlen name <? 32) with true by lia. cbn [negb]. rewrite find_ok by done. cbn [rbind].
  destruct (index_of recs name) as [j|] eqn:Ei; [|done].
  rewrite of_nat_not_neg1. destruct (index_of_Some name j Ei) as (r & Hj & Hjl).
  pose proof (slot_bound j _ Hj). set (o := Z.of_nat j * 36 + 4). rewrite store_ok by (simpl; lia). cbn [rbind].
  eexists. split; [done|]. set (d1 := put_u 4 d (o + 32) root).
  assert (F : forall off len, 0 <= off -> off + len <= o + 32 \/ o + 36 <= off -> slice off len d1 = slice off len d).
  { intros off len ??. subst d1. unfold put_u. apply slice_splice_disj; unfold zlen in *; rewrite ?length_le_encode; lia. }
  apply rep_intro.
  - unfold get_i32, get_u. rewrite F by (simpl; lia). pose proof (hr_count _ _ R) as Hc. unfold get_i32, get_u in Hc.
    rewrite Hc. unfold zlen. by rewrite length_insert.
  - subst d1. rewrite zlen_put_u; simpl; lia.
  - unfold zlen in *. rewrite length_insert. lia.
  - intros i nr Hi. destruct (decide (i = j)) as [->|Hij].
    + rewrite list_lookup_insert_eq in Hi by done. injection Hi as <-.
      replace (4 + 36 * Z.of_nat j) with o by lia. destruct (hr_records _ _ R j _ Hj) as (_ & Hs & _).
      replace (4 + 36 * Z.of_nat j) with o in Hs by lia. split_and!; [done| |].
      * cbn [fst] in *. rewrite F; [done|lia|unfold zlen in *; lia].
      * subst d1. unfold get_i32. rewrite get_put_u by (simpl; lia). simpl (8 * _). by rewrite swrap_uwrap, swrap_id.
    + rewrite list_lookup_insert_ne in Hi by done. pose proof (slot_bound i nr Hi).
      apply (record_local d d1 (4 + 36 * Z.of_nat i)); [lia..| |by apply (hr_records _ _ R)].
      rewrite F; [done|lia|lia].
  - pose proof (hr_nodup _ _ R) as Hnd. rewrite list_fmap_insert. cbn [fst].
    rewrite list_insert_id; [done|]. rewrite list_lookup_fmap, Hj. done.
Qed.

Lemma get_root_ok name : name_ok name -> GetRootId d name = Ok (root_of recs name).
Proof.
  intros [Hl Hn]. pose proof (hr_room _ _ R) as Hroom. unfold GetRootId, root_of.
  replace (zlen name <? 32) with true by lia. cbn [negb]. rewrite find_ok by done. cbn [rbind].
  destruct (index_of recs name) as [j|] eqn:Ei; [|done].
  rewrite of_nat_not_neg1. destruct (index_of_Some name j Ei) as (r & Hj & Hjl).
  pose proof (slot_bound j _ Hj). destruct (hr_records _ _ R j _ Hj) as (_ & _ & Hr).
  rewrite load_ok by (simpl; lia). cbn [rbind mbind option_bind]. rewrite Hj. cbn [fmap option_fmap option_map snd] in *.
  unfold get_i32 in Hr. do 2 f_equal. rewrite <- Hr. do 2 f_equal. lia.
Qed.

Lemma delete_ok name :
  name_ok name -> recs <> [] ->
  match index_of recs name with
  | None => DeleteRecord d name = Ok (false, d)
  | Some j => exists d', DeleteRecord d name = Ok (true, d') /\ header_rep d' (delete j recs)
  end.
Proof.
  intros [Hl Hn] Hne. pose proof (hr_room _ _ R) as Hroom. pose proof recs_len as [Hc _]. unfold DeleteRecord.
  rewrite count_ok. cbn [rbind].
  assert (0 < zlen recs) by (destruct recs; [done|unfold zlen; simpl; lia]).
  replace (0 <? zlen recs) with true by lia. cbn [negb]. rewrite find_ok by done. cbn [rbind].
  destruct (index_of recs name) as [j|] eqn:Ei; [|done].
  rewrite of_nat_not_neg1. destruct (index_of_Some name j Ei) as (r & Hj & Hjl).
  pose proof (slot_bound j _ Hj). set (o := Z.of_nat j * 36 + 4). set (n := (zlen recs - Z.of_nat j - 1) * 36).
  replace (zlen d <? o + 36 + n) with false by lia.
  assert (Hb : zlen (slice (o + 36) n d) = n) by (apply zlen_slice; lia).
  unfold copy_to. rewrite Hb. replace ((0 <=? o) && (o + n <=? zlen d)) with true by lia. cbn [rbind].
  set (d1 := splice o _ d). assert (Hd1 : zlen d1 = zlen d) by (subst d1; apply zlen_splice; lia).
  unfold SetRecordCount. rewrite store_ok by (simpl; lia). cbn [rbind]. eexists. split; [done|]. set (d2 := put_u 4 d1 0 _).
  assert (F2 : forall off, 4 <= off -> slice off 36 d2 = slice off 36 d1).
  { intros off Hoff. subst d2. unfold put_u. apply slice_splice_disj; unfold zlen in *; rewrite ?length_le_encode; lia. }
  assert (Hdl : zlen (delete j recs) = zlen recs - 1) by (unfold zlen; rewrite length_delete by eauto; lia).
  apply rep_intro.
  - subst d2. unfold get_i32. rewrite get_put_u by (simpl; lia). simpl (8 * _).
    rewrite swrap_uwrap, swrap_id by (unfold sfits; lia). lia.
  - subst d2. rewrite zlen_put_u; simpl; lia.
  - lia.
  - intros i nr Hi. assert (Hil : Z.of_nat i < zlen recs - 1) by (apply lookup_lt_Some in Hi; unfold zlen in *; lia).
    destruct (decide (i < j)%nat) as [Hij|Hij].
    + rewrite list_lookup_delete_lt in Hi by done.
      apply (record_local d d2 (4 + 36 * Z.of_nat i)); [lia..| |by apply (hr_records _ _ R)].
      rewrite F2 by lia. subst d1. rewrite slice_splice_disj; [done|lia..].
    + rewrite list_lookup_delete_ge in Hi by lia.
      apply (record_local d d2 (4 + 36 * Z.of_nat (S i))); [lia..| |by apply (hr_records _ _ R)].
      rewrite F2 by lia. subst d1. rewrite slice_splice_inside by lia. rewrite slice_slice by lia. f_equal. lia.
  - pose proof (hr_nodup _ _ R) as Hnd. rewrite list_fmap_delete. eapply sublist_NoDup; [exact Hnd|apply sublist_delete].
Qed.

End header.

(** No operation changes the length of the page. *)
Lemma store_len n v s off s' : store n v s off = Ok s' -> zlen s' = zlen s.
Proof. unfold store. case_match; intros [= <-]. apply zlen_put_u; lia. Qed.

Lemma copy_to_len d off bs d' : copy_to d off bs = Ok d' -> zlen d' = zlen d.
Proof. unfold copy_to. case_match; intros [= <-]. apply zlen_splice; lia. Qed.

Lemma InsertRecord_len d name root r d' : InsertRecord d name root = Ok (r, d') -> zlen d' = zlen d.
Proof.
  unfold InsertRecord. do 2 (case_match; [done|]). destruct (GetRecordCount d) as [n|]; [|done]. cbn [rbind].
  destruct (FindRecord d name) as [i|]; [|done]. cbn [rbind]. case_match; [by intros [= _ <-]|].
  destruct (copy_to _ _ _) as [d1|] eqn:E1; [|done]. cbn [rbind]. destruct (store _ _ _ _) as [d2|] eqn:E2; [|done]. cbn [rbind].
  destruct (SetRecordCount _ _) as [d3|] eqn:E3; [|done]. intros [= _ <-].
  apply copy_to_len in E1. apply store_len in E2, E3. congruence.
Qed.

(** ** Properties *)

(** C39: a header page that represents a list of named roots implements the
    operations on the list, for names of less than 32 bytes, none of them zero, and roots that are page ids ([0] to [2 ^ 31 - 1]):
    [GetRootId] looks a name up. [InsertRecord] refuses a known name without changing the page, appends
    a new one when the page has room, and writes outside the page when it has none. [UpdateRecord] replaces the root of a
    known name and refuses an unknown one without changing the page. [DeleteRecord] removes the record of a known
    name; it refuses an unknown one without changing the page, unless there are no records at all, where its
    assertion fails. A name of 32 bytes or more fails the assertion of the three others. *)
Theorem HeaderPage_refines (d : list Z) (recs : list (list Z * Z)) (name : list Z) (root : Z) :
  header_rep d recs -> 0 <= root < 2 ^ 31 ->
  (32 <= zlen name ->
     GetRootId d name = Throw AssertFailed /\ InsertRecord d name root = Throw AssertFailed /\
     UpdateRecord d name root = Throw AssertFailed) /\
  (name_ok name ->
     GetRootId d name = Ok (root_of recs name) /\
     match index_of recs name with
     | None =>
         (4 + 36 * (zlen recs + 1) <= zlen d ->
          exists d', InsertRecord d name root = Ok (true, d') /\ header_rep d' (recs ++ [(name, root)])) /\
         (zlen d < 4 + 36 * (zlen recs + 1) -> InsertRecord d name root = Throw Undefined) /\
         UpdateRecord d name root = Ok (false, d) /\
         DeleteRecord d name = match recs with [] => Throw AssertFailed | _ => Ok (false, d) end
     | Some j =>
         InsertRecord d name root = Ok (false, d) /\
         (exists d', UpdateRecord d name root = Ok (true, d') /\ header_rep d' (<[j := (name, root)]> recs)) /\
         (exists d', DeleteRecord d name = Ok (true, d') /\ header_rep d' (delete j recs))
     end).
Proof.
  intros R Hr. split.
  { intros Hl. unfold GetRootId, InsertRecord, UpdateRecord. by replace (zlen name <? 32) with false by lia. }
  intros Hn. split; [by apply get_root_ok|].
  pose proof (insert_ok d recs R name root Hn Hr) as HI.
  pose proof (update_ok d recs R name root Hn ltac:(unfold sfits; lia)) as HU.
  pose proof (delete_ok d recs R name Hn) as HD.
  destruct (index_of recs name) as [j|] eqn:Ei.
  - split_and!; [done|done|]. apply HD. intros ->. done.
  - split_and!; [done|by apply insert_full|done|]. destruct recs; [by eapply delete_empty|by apply HD].
Qed.

Definition demo_header : list Z :=
  match InsertRecord (replicate 4096 0) [102; 111; 111] 7 with Ok (_, d) => d | Throw _ => [] end.

Lemma demo_header_rep : header_rep demo_header [([102; 111; 111], 7)].
Proof.
  constructor.
  - vm_compute. reflexivity.
  - split; vm_compute; [discriminate|reflexivity].
  - intros [|i] nr H; [|done]. injection H as <-. split_and!; [split; [by vm_compute|]|by vm_compute|by vm_compute].
    repeat constructor; discriminate.
  - apply NoDup_singleton.
Defined.

Lemma HeaderPage_refines_witness :
  GetRootId demo_header [102; 111; 111] = Ok (Some 7) /\
  InsertRecord demo_header [102; 111; 111] 9 = Ok (false, demo_header) /\
  GetRootId demo_header (replicate 32 65) = Throw AssertFailed.
Proof.
  destruct (HeaderPage_refines demo_header [([102; 111; 111], 7)] [102; 111; 111] 9 demo_header_rep ltac:(lia)) as [_ H].
  destruct (HeaderPage_refines demo_header [([102; 111; 111], 7)] (replicate 32 65) 9 demo_header_rep ltac:(lia)) as [L _].
  destruct H as [G H].
  - split; [by vm_compute|]. repeat constructor; discriminate.
  - split; [exact G|]. split; [exact (proj1 H)|]. apply L. vm_compute. discriminate.
Defined.

(** With 113 records the page is full, and [InsertRecord] writes past it. *)
Lemma InsertRecord_no_capacity_check :
  InsertRecord (put_u 4 (replicate 4096 0) 0 113) [102] 7 = Throw Undefined.
Proof. vm_compute. reflexivity. Qed.
