(* ===== verification/BPlusTree.v ===== *)
(** * The B+ tree

    [BPlusTree] (src/storage/index/b_plus_tree.cpp) over the pages of the buffer
    pool (the interface of [Pages.v]), with the node operations of [BTreePage.v]
    and the root recorded in the header page. A pointer to a node is the frame
    that holds its page; the copy [InsertIntoParent] makes of a full parent is a
    byte string of its own. A null page that is dereferenced is [Crash]. [Remove]
    and the iterators are stubs in the source.

    Proved: [Split] of a full leaf divides its entries between the two pages.
    [GetValue] tests the comparator for difference, so it answers a key the tree
    does not have with the values of the others, and a key it has with nothing.
    [Insert], which asks it first, therefore keeps the first entry of a tree for
    ever: after any sequence of insertions the tree is one leaf with that entry,
    and its root is recorded in the header page. *)

From S2P Require Import Prelude.
From S2P Require Import Disk.
From S2P Require Import Pages.
From S2P Require Import TablePage.
From S2P Require Import Types.
From S2P Require Import HeaderPage.
From S2P Require Import BTreePage.

Local Open Scope Z_scope.
Local Open Scope outcome_scope.

Record BPlusTree := mkTree {
  index_name_ : list Z;
  root_page_id_ : Z;
  leaf_max_size_ : Z;
  internal_max_size_ : Z;
}.

Definition BPlusTree_ctor (name : list Z) (leaf_max_size internal_max_size : Z) : BPlusTree :=
  mkTree name INVALID_PAGE leaf_max_size internal_max_size.
Definition set_root (t : BPlusTree) (root : Z) : BPlusTree :=
  mkTree (index_name_ t) root (leaf_max_size_ t) (internal_max_size_ t).

Definition IsEmpty (t : BPlusTree) : bool := root_page_id_ t =? INVALID_PAGE.
Definition GetRootPageId (t : BPlusTree) : Z := root_page_id_ t.

(** A failed assertion ends the program like an uncaught exception. *)
Definition of_result {A} (r : result A) : outcome A :=
  match r with
  | Ok a => Ret a
  | Throw Undefined => Crash
  | Throw _ => Raised
  end.

Section tree.
Context {P : Type} `{Pages P} (N : Z) (comparator_ : list Z -> list Z -> Z).
Implicit Types (p : P) (t : BPlusTree) (key : list Z).

(** ** Searching *)

(** The loop over the keys of an internal page: stops at the first larger key. *)
Fixpoint find_child (fuel : nat) (internal : list Z) key (idx : Z) : outcome Z :=
  match fuel with
  | O => Ret idx
  | S fuel =>
      let* k := Internal_KeyAt N internal idx in
      if comparator_ k key =? 1 then Ret idx else find_child fuel internal key (idx + 1)
  end.

Fixpoint descend (fuel : nat) p (f : Z) key : outcome (Z * P) :=
  match fuel with
  | O => Blocked
  | S fuel =>
      let* page := pg_data p f in
      if IsLeafPage page then Ret (f, p)
      else
        let* idx := find_child (Z.to_nat (GetSize page - 1)) page key 1 in
        let* v := Internal_ValueAt N page (idx - 1) in
        let* (g, p) := pg_fetch p v in
        match g with
        | None => Crash
        | Some g =>
            let* (_, p) := pg_unpin p (GetPageId page) false in
            descend fuel p g key
        end
  end.

(** The frame of the leaf, which stays pinned. *)
Definition Findleaf (fuel : nat) p t key : outcome (Z * P) :=
  let* (f, p) := pg_fetch p (root_page_id_ t) in
  match f with
  | None => Crash
  | Some f => descend fuel p f key
  end.

(** The loop of [GetValue], with its test [if (comparator_(leaf->KeyAt(idx), key))]. *)
Fixpoint collect_values (fuel : nat) (leaf : list Z) key (idx : Z) (result : list RID) : outcome (list RID) :=
  match fuel with
  | O => Ret result
  | S fuel =>
      let* k := Leaf_KeyAt N leaf idx in
      if negb (comparator_ k key =? 0) then
        let* v := Leaf_ValueAt N leaf idx in
        collect_values fuel leaf key (idx + 1) (result ++ [v])
      else collect_values fuel leaf key (idx + 1) result
  end.

Definition GetValue (fuel : nat) p t key (result : list RID) : outcome (bool * list RID * P) :=
  if IsEmpty t then Ret (false, result, p)
  else
    let* (f, p) := Findleaf fuel p t key in
    let* leaf := pg_data p f in
    let* result := collect_values (Z.to_nat (GetSize leaf)) leaf key 0 result in
    let* (_, p) := pg_unpin p (GetPageId leaf) false in
    Ret (match result with [] => false | _ => true end, result, p).

(** ** Inserting *)

Definition UpdateRootPageId p t (insert_record : bool) : outcome P :=
  let* (f, p) := pg_fetch p 0 in
  match f with
  | None => Crash
  | Some f =>
      let* header_page := pg_data p f in
      let* (_, header_page) :=
        of_result (if insert_record then InsertRecord header_page (index_name_ t) (root_page_id_ t)
                   else UpdateRecord header_page (index_name_ t) (root_page_id_ t)) in
      let* p := pg_write p f header_page in
      let* (_, p) := pg_unpin p 0 true in
      Ret p
  end.

(** [std::copy(src.array_ + first, src.array_ + last, dst.array_ + to)] *)
Definition copy_array (off : Z -> Z) (src : list Z) (first last : Z) (dst : list Z) (to : Z) : outcome (list Z) :=
  if last <? first then Crash
  else
    let* b := array_read src first (off first) (off last - off first) in
    array_write dst to (off to) b.

(** The children from [st_index] on get the new page as their parent. *)
Fixpoint adopt (fuel : nat) p (node : list Z) (st_index i new_page_id : Z) : outcome P :=
  match fuel with
  | O => Ret p
  | S fuel =>
      let* son_id := Internal_ValueAt N node (i + st_index) in
      let* (g, p) := pg_fetch p son_id in
      match g with
      | None => Crash
      | Some g =>
          let* son := pg_data p g in
          let son := SetParentPageId son new_page_id in
          let* p := pg_write p g son in
          let* (_, p) := pg_unpin p (GetPageId son) true in
          adopt fuel p node st_index (i + 1) new_page_id
      end
  end.

(** [node] is the bytes of the node to split; the result has its new bytes and
    the frame of the new page. *)
Definition Split p t (node : list Z) : outcome (list Z * Z * P) :=
  let* (np, p) := pg_new p in
  match np with
  | None => Crash
  | Some (g, new_page_id) =>
      let* new_page := pg_data p g in
      let new_page := SetPageType new_page (GetPageType node) in
      if IsLeafPage node then
        let new_leaf := Leaf_Init new_page new_page_id (GetParentPageId node) (leaf_max_size_ t) in
        let* st_index := GetMinSize node in
        let* new_leaf := copy_array (leaf_off N) node st_index (GetSize node) new_leaf (GetSize new_leaf) in
        let* amount := int_add (GetMaxSize node) (- st_index) in
        let* new_leaf := IncreaseSize new_leaf amount in
        let* p := pg_write p g new_leaf in
        Ret (SetSize node st_index, g, p)
      else
        let new_internal := Internal_Init new_page new_page_id (GetParentPageId node) (internal_max_size_ t) in
        let* p := pg_write p g new_internal in
        let* st_index := GetMinSize node in
        let* p := adopt (Z.to_nat st_index) p node st_index 0 new_page_id in
        let* new_internal := pg_data p g in
        let* new_internal := copy_array (internal_off N) node st_index (GetSize node) new_internal (GetSize new_internal) in
        let* amount := int_add (GetMaxSize node) (- st_index) in
        let* new_internal := IncreaseSize new_internal amount in
        let* p := pg_write p g new_internal in
        Ret (SetSize node st_index, g, p)
  end.

(** The copy of a full parent: one more cell than it has, not initialised by
    the program. *)
Definition parent_copy (parent : list Z) : outcome (list Z) :=
  let n := internal_off N (GetSize parent) in
  if (0 <=? GetSize parent) && (n <=? zlen parent) then Ret (slice 0 n parent ++ replicate (Z.to_nat (internal_pair N)) 0)
  else Crash.

(** [old_node] and [new_node] are in the frames [f] and [g]. *)
Fixpoint InsertIntoParent (fuel : nat) p t (f : Z) key (g : Z) : outcome (BPlusTree * P) :=
  match fuel with
  | O => Blocked
  | S fuel =>
      let* old_node := pg_data p f in
      let* new_node := pg_data p g in
      if IsRootPage old_node then
        let* (nr, p) := pg_new p in
        match nr with
        | None => Crash
        | Some (r, root) =>
            let t := set_root t root in
            let* new_root := pg_data p r in
            let new_root := Internal_Init new_root root INVALID_PAGE (internal_max_size_ t) in
            let* p := pg_write p f (SetParentPageId old_node root) in
            let* p := pg_write p g (SetParentPageId new_node root) in
            let* new_root := Internal_SetAllAt N new_root 1 key (GetPageId new_node) in
            let* new_root := Internal_SetValueAt N new_root 0 (GetPageId old_node) in
            let* p := pg_write p r (SetSize new_root 2) in
            let* p := UpdateRootPageId p t false in
            let* (_, p) := pg_unpin p (GetPageId new_root) true in
            let* (_, p) := pg_unpin p (GetPageId old_node) true in
            let* (_, p) := pg_unpin p (GetPageId new_node) true in
            Ret (t, p)
        end
      else
        let* (pp, p) := pg_fetch p (GetParentPageId old_node) in
        match pp with
        | None => Crash
        | Some q =>
            let* parent_node := pg_data p q in
            if GetSize parent_node <? internal_max_size_ t then
              let* (_, parent_node) := Insertkv N parent_node (GetPageId old_node) key (GetPageId new_node) in
              let* p := pg_write p q parent_node in
              let* (_, p) := pg_unpin p (GetPageId parent_node) true in
              let* (_, p) := pg_unpin p (GetPageId old_node) true in
              let* (_, p) := pg_unpin p (GetPageId new_node) true in
              Ret (t, p)
            else
              let* mem := parent_copy parent_node in
              let* (_, mem) := Insertkv N mem (GetPageId old_node) key (GetPageId new_node) in
              let* (mem, sibling, p) := Split p t mem in
              let* sibling_node := pg_data p sibling in
              let* new_key := Internal_KeyAt N sibling_node 0 in
              let* n := GetMinSize mem in
              let* b := array_read mem n 0 (internal_off N n) in
              let* parent_node := array_write parent_node n 0 b in
              let* p := pg_write p q parent_node in
              InsertIntoParent fuel p t q new_key sibling
        end
  end.

Definition Insert (fuel : nat) p t key (value : RID) : outcome (bool * BPlusTree * P) :=
  let* (found, _, p) := GetValue fuel p t key [] in
  if found : bool then Ret (false, t, p)
  else if IsEmpty t then
    let* (np, p) := pg_new p in
    match np with
    | None => Crash
    | Some (f, root) =>
        let t := set_root t root in
        let* leaf := pg_data p f in
        let leaf := Leaf_Init leaf root INVALID_PAGE (leaf_max_size_ t) in
        let* (_, leaf) := InsertKey N comparator_ leaf key value in
        let* p := pg_write p f leaf in
        let* p := UpdateRootPageId p t true in
        let* (_, p) := pg_unpin p root true in
        Ret (true, t, p)
    end
  else
    let* (f, p) := Findleaf fuel p t key in
    let* leaf := pg_data p f in
    let* (_, leaf) := InsertKey N comparator_ leaf key value in
    let* p := pg_write p f leaf in
    if GetSize leaf =? GetMaxSize leaf then
      let* (leaf, g, p) := Split p t leaf in
      let* sibling := pg_data p g in
      let* p := pg_write p g (Leaf_SetNextPageId sibling (Leaf_GetNextPageId leaf)) in
      let* p := pg_write p f (Leaf_SetNextPageId leaf (GetPageId sibling)) in
      let* key := Leaf_KeyAt N sibling 0 in
      let* (t, p) := InsertIntoParent fuel p t f key g in
      Ret (true, t, p)
    else
      let* (_, p) := pg_unpin p (GetPageId leaf) true in
      Ret (true, t, p).

(** [void BPLUSTREE_TYPE::Remove(const KeyType &key, Transaction *transaction) {}] *)
Definition Remove p t key : outcome (BPlusTree * P) := Ret (t, p).
End tree.

(** ** A tree of one leaf *)

Section one_leaf.
Context {P : Type} `{PagesLaws P} (N : Z) {comparator : list Z -> list Z -> Z} {key_ok : list Z -> Prop}.
Context `{!KeyOrder comparator key_ok}.
Hypothesis HN : 0 < N.
Hypothesis HN' : leaf_off N 2 <= BUSTUB_PAGE_SIZE.
Implicit Types (p : P) (t : BPlusTree) (v : view) (key : list Z).

Record leaf_page v t (kvs : list entry) : Prop := {
  lp_rep : leaf_rep N (v_bytes v (root_page_id_ t)) kvs;
  lp_len : zlen (v_bytes v (root_page_id_ t)) = BUSTUB_PAGE_SIZE;
  lp_leaf : IsLeafPage (v_bytes v (root_page_id_ t)) = true;
  lp_id : GetPageId (v_bytes v (root_page_id_ t)) = root_page_id_ t;
  lp_max : GetMaxSize (v_bytes v (root_page_id_ t)) = leaf_max_size_ t;
}.

(** The tree is empty, or one leaf with one entry whose page the header names. *)
Record tree_ok v t (recs : list (list Z * Z)) (o : option entry) : Prop := {
  tr_header : header_rep (v_bytes v 0) recs;
  tr_header_len : zlen (v_bytes v 0) = BUSTUB_PAGE_SIZE;
  tr_next : 0 < v_next v;
  tr_name : name_ok (index_name_ t);
  tr_max : 2 <= leaf_max_size_ t < 2 ^ 31;
  tr_contents :
    match o with
    | None => root_page_id_ t = INVALID_PAGE /\ index_of recs (index_name_ t) = None /\
        4 + 36 * (zlen recs + 1) <= BUSTUB_PAGE_SIZE
    | Some x => 0 < root_page_id_ t < v_next v /\ root_of recs (index_name_ t) = Some (root_page_id_ t) /\
        leaf_page v t [x] /\ key_ok x.1
    end;
}.

(** The pages of the tree are not held, and two frames can be used. *)
Definition quiet v t : Prop := v_pins v !! 0 = None /\ v_pins v !! root_page_id_ t = None /\ room v 2.

Lemma tree_ok_used v t recs o : tree_ok v t recs o -> tree_ok (used v) t recs o.
Proof. intros [T1 T2 T3 T4 T5 T6]. constructor; try done. destruct o; [|done]. by destruct T6 as (? & ? & [] & ?). Qed.

Lemma Findleaf_one p v t recs x key fuel :
  pg_ok p v -> tree_ok v t recs (Some x) -> quiet v t -> 0 < v_left v ->
  exists f p', Findleaf N comparator (S fuel) p t key = Ret (f, p') /\ pg_data p' f = Ret (v_bytes v (root_page_id_ t)) /\
    pg_ok p' (holding (used v) (root_page_id_ t) f false).
Proof.
  intros Hok HT (_ & Hq & Hr) Hl. destruct (tr_contents _ _ _ _ HT) as (Hroot & _ & HL & _).
  destruct (fetch_page p v (root_page_id_ t) Hok) as (f & p' & HF & HD & Hok').
  { split_and!; try done; try lia. unfold room in *. lia. }
  exists f, p'. split_and!; try done. unfold Findleaf. rewrite HF. cbn [obind descend]. rewrite HD. cbn [obind].
  by rewrite (lp_leaf _ _ _ HL).
Qed.

Lemma collect_one (leaf : list Z) x key result :
  leaf_rep N leaf [x] ->
  collect_values N comparator 1 leaf key 0 result =
    Ret (result ++ if comparator x.1 key =? 0 then [] else [x.2]).
Proof.
  intros R. cbn [collect_values].
  pose proof (KeyAt_rep N HN leaf [x] 0 x R eq_refl) as HK.
  pose proof (ValueAt_rep N HN leaf [x] 0 x R eq_refl) as HV.
  change (Z.of_nat 0) with 0 in *. rewrite HK, HV. cbn [obind]. destruct (_ =? 0); cbn [negb]; by rewrite ?app_nil_r.
Qed.

Lemma GetValue_one p v t recs x key fuel result :
  pg_ok p v -> tree_ok v t recs (Some x) -> quiet v t -> 0 < v_left v ->
  exists p', GetValue N comparator (S fuel) p t key result =
      Ret (match result ++ (if comparator x.1 key =? 0 then [] else [x.2]) with [] => false | _ => true end,
           result ++ (if comparator x.1 key =? 0 then [] else [x.2]), p') /\
    pg_ok p' (used v).
Proof.
  intros Hok HT Hq Hl. destruct (tr_contents _ _ _ _ HT) as (Hroot & _ & HL & _).
  destruct (Findleaf_one p v t recs x key fuel Hok HT Hq Hl) as (f & p1 & HF & HD & Hok1).
  destruct Hq as (_ & Hq & _). destruct (give_back p1 (used v) _ f Hok1 Hq) as (p2 & HU & Hok2 & _).
  rewrite view_eta in Hok2. exists p2. split; [|done]. unfold GetValue, IsEmpty.
  rewrite (proj2 (Z.eqb_neq _ _)) by (unfold INVALID_PAGE; lia). rewrite HF. cbn [obind]. rewrite HD. cbn [obind].
  rewrite (leaf_size N _ [x] (lp_rep _ _ _ HL)). change (Z.to_nat (zlen [x])) with 1%nat.
  rewrite (collect_one _ x) by apply HL. cbn [obind]. rewrite (lp_id _ _ _ HL), HU. done.
Qed.

Lemma UpdateRootPageId_insert p v t recs :
  pg_ok p v -> header_rep (v_bytes v 0) recs -> zlen (v_bytes v 0) = BUSTUB_PAGE_SIZE -> accessible v 0 ->
  name_ok (index_name_ t) -> index_of recs (index_name_ t) = None -> 4 + 36 * (zlen recs + 1) <= BUSTUB_PAGE_SIZE ->
  0 <= root_page_id_ t < 2 ^ 31 ->
  exists p' d', UpdateRootPageId p t true = Ret p' /\ header_rep d' (recs ++ [(index_name_ t, root_page_id_ t)]) /\
    zlen d' = BUSTUB_PAGE_SIZE /\ pg_ok p' (stored_page (used v) 0 d').
Proof.
  intros Hok HR Hlen Hacc Hname Hnone Hroom Hroot. pose proof Hacc as (_ & _ & Hno & _).
  destruct (fetch_page p v 0 Hok Hacc) as (f & p1 & HF & HD & Hok1).
  pose proof (insert_ok _ recs HR (index_name_ t) (root_page_id_ t) Hname Hroot) as HI. rewrite Hnone, Hlen in HI.
  destruct (HI Hroom) as (d' & HI' & HR'). pose proof (InsertRecord_len _ _ _ _ _ HI') as Hl'.
  destruct (write_back p1 (used v) 0 f false d' Hok1 Hno ltac:(congruence)) as (p2 & p3 & HW & HU & Hok3).
  exists p3, d'. split_and!; try done; [|congruence]. unfold UpdateRootPageId. rewrite HF. cbn [obind]. rewrite HD. cbn [obind].
  rewrite HI'. cbn [of_result obind]. rewrite HW. cbn [obind]. rewrite HU. done.
Qed.

Lemma root_of_new recs name root : index_of recs name = None -> root_of (recs ++ [(name, root)]) name = Some root.
Proof.
  intros Hn. apply fmap_None in Hn. unfold root_of, index_of. rewrite list_find_app_r by done. cbn.
  rewrite decide_True by done. cbn. rewrite lookup_app_r by lia. replace (_ - _)%nat with 0%nat by lia. done.
Qed.

(** The first insertion. *)
Lemma Insert_first p v t recs key value fuel :
  pg_ok p v -> tree_ok v t recs None -> quiet v t -> 2 <= v_left v -> v_next v < 2 ^ 19 - 1 ->
  key_ok key -> entry_ok N (key, value) ->
  exists p' v', Insert N comparator (S fuel) p t key value = Ret (true, set_root t (v_next v), p') /\ pg_ok p' v' /\
    tree_ok v' (set_root t (v_next v)) (recs ++ [(index_name_ t, v_next v)]) (Some (key, value)) /\
    v_pins v' = v_pins v /\ v_size v' = v_size v /\ v_next v' = v_next v + 1 /\ v_left v' = v_left v - 2.
Proof.
  intros Hok [T1 T2 T3 T4 T5 (T6 & T7 & T8)] (Hq0 & Hqr & Hr) Hl Hn Hkey Hx.
  destruct (new_held p v Hok) as (f & p1 & HP & HD & Hok1); [lia|done|unfold room in *; lia|].
  pose proof (next_unpinned p v Hok) as Hnn.
  destruct (Leaf_Init_rep N zero_page (v_next v) INVALID_PAGE (leaf_max_size_ t))
    as (Z1 & L1 & L2 & L3 & L4 & L5 & L6); [done|unfold sfits; lia|unfold sfits, INVALID_PAGE; lia|unfold sfits; lia|].
  set (leaf := Leaf_Init _ _ _ _) in *. change (zlen zero_page) with BUSTUB_PAGE_SIZE in Z1.
  destruct (InsertKey_rep N (key_ok := key_ok) HN leaf [] key value L1) as (leaf' & HI & HR & HH & HZ);
    [constructor|constructor|done|done|rewrite Z1; change (zlen [] + 1) with 1; unfold leaf_off, leaf_pair in *; lia|].
  cbn [insert_sorted] in HR. rewrite Z1 in HZ.
  destruct (held_write p1 _ (v_next v) f false leaf' Hok1 HZ) as (p2 & HW & Hok2).
  set (v1 := stored_page (grown v zero_page) (v_next v) leaf') in *.
  set (t' := set_root t (v_next v)).
  assert (Hb0 : v_bytes v1 0 = v_bytes v 0) by (cbn; unfold upd; by rewrite !decide_False by lia).
  destruct (UpdateRootPageId_insert p2 (holding v1 (v_next v) f true) t' recs) as (p3 & d' & HUp & HR' & HZ' & Hok3); try done.
  { cbn [v_bytes holding with_pins]. by rewrite Hb0. }
  { cbn [v_bytes holding with_pins]. by rewrite Hb0. }
  { split_and!; cbn; [lia|lia|lia|by rewrite lookup_insert_ne by lia|].
    unfold room in *. cbn. rewrite map_size_insert_None by done. lia. }
  { cbn. lia. }
  destruct (held_release p3 (stored_page (used v1) 0 d') (v_next v) f true Hok3 Hnn) as (p4 & HUn & Hok4).
  exists p4, (stored_page (used v1) 0 d'). split_and!; try done; [| |cbn; lia].
  - unfold Insert. cbn [GetValue]. unfold GetValue, IsEmpty. rewrite T6, Z.eqb_refl. cbn [obind]. rewrite HP. cbn [obind].
    rewrite HD. cbn [obind]. change (leaf_max_size_ (set_root t (v_next v))) with (leaf_max_size_ t). fold leaf.
    rewrite HI. cbn [obind]. rewrite HW. cbn [obind]. fold t'. rewrite HUp. cbn [obind]. rewrite HUn. done.
  - assert (Hbr : v_bytes (stored_page (used v1) 0 d') (v_next v) = leaf')
      by (cbn; unfold upd; rewrite decide_False, decide_True by lia; done).
    unfold t'. constructor; try done; cbn [root_page_id_ index_name_ set_root].
    + cbn. lia.
    + split_and!; [lia|cbn; lia|by apply root_of_new| |done].
      constructor; cbn [root_page_id_ set_root leaf_max_size_]; rewrite ?Hbr; try done.
      * unfold IsLeafPage, GetPageType in *. rewrite (same_header_get 28 leaf leaf') by (done || lia). done.
      * unfold GetPageId in *. rewrite (same_header_get 28 leaf leaf') by (done || lia). done.
      * unfold GetMaxSize in *. rewrite (same_header_get 28 leaf leaf') by (done || lia). done.
Qed.

Lemma quiet_used v t : quiet v t -> quiet (used v) t.
Proof. done. Qed.

(** A key that differs from the one in the tree is taken for present. *)
Lemma Insert_other p v t recs x key value fuel :
  pg_ok p v -> tree_ok v t recs (Some x) -> quiet v t -> 0 < v_left v -> comparator x.1 key <> 0 ->
  exists p', Insert N comparator (S fuel) p t key value = Ret (false, t, p') /\ pg_ok p' (used v).
Proof.
  intros Hok HT Hq Hl Hne. destruct (GetValue_one p v t recs x key fuel [] Hok HT Hq Hl) as (p' & HG & Hok').
  rewrite (proj2 (Z.eqb_neq _ _)) in HG by done. exists p'. split; [|done]. unfold Insert. rewrite HG. done.
Qed.

(** The key of the tree is not found, and inserted again without effect. *)
Lemma Insert_same p v t recs x key value fuel :
  pg_ok p v -> tree_ok v t recs (Some x) -> quiet v t -> 2 <= v_left v -> comparator x.1 key = 0 ->
  key_ok key -> entry_ok N (key, value) ->
  exists p' v', Insert N comparator (S fuel) p t key value = Ret (true, t, p') /\ pg_ok p' v' /\
    tree_ok v' t recs (Some x) /\ v_pins v' = v_pins v /\ v_size v' = v_size v /\ v_next v' = v_next v /\
    v_left v' = v_left v - 2.
Proof.
  intros Hok HT Hq Hl He Hkey Hx. pose proof (tr_contents _ _ _ _ HT) as (Hroot & Hrec & HL & Hkx).
  destruct (GetValue_one p v t recs x key fuel [] Hok HT Hq ltac:(lia)) as (p1 & HG & Hok1).
  rewrite He, Z.eqb_refl in HG. cbn in HG.
  destruct (Findleaf_one p1 (used v) t recs x key fuel Hok1 (tree_ok_used _ _ _ _ HT) (quiet_used _ _ Hq)) as
    (f & p2 & HF & HD & Hok2); [cbn; lia|]. change (v_bytes (used v)) with (v_bytes v) in HD.
  set (leaf := v_bytes v (root_page_id_ t)) in *.
  destruct (InsertKey_rep N (key_ok := key_ok) HN leaf [x] key value (lp_rep _ _ _ HL)) as (leaf' & HI & HR & HH & HZ);
    [repeat constructor|by repeat constructor|done|done|unfold leaf; rewrite (lp_len _ _ _ HL); exact HN'|].
  unfold leaf in HZ. rewrite (lp_len _ _ _ HL) in HZ.
  assert (HR1 : leaf_rep N leaf' [x]).
  { cbn [insert_sorted] in HR. rewrite He in HR. by rewrite Z.ltb_irrefl, Z.eqb_refl in HR. }
  destruct Hq as (Hq0 & Hqr & Hr).
  destruct (write_back p2 (used (used v)) _ f false leaf' Hok2 Hqr HZ) as (p3 & p4 & HW & HU & Hok4).
  assert (Hg : forall off, 0 <= off -> off + 4 <= 8 \/ 12 <= off /\ off + 4 <= 28 -> get_i32 leaf' off = get_i32 leaf off)
    by (intros; by apply (same_header_get 28)).
  assert (Hid : GetPageId leaf' = root_page_id_ t) by (unfold GetPageId; rewrite Hg by lia; apply HL).
  assert (Hmax : GetMaxSize leaf' = leaf_max_size_ t) by (unfold GetMaxSize; rewrite Hg by lia; apply HL).
  pose proof (tr_max _ _ _ _ HT) as Hmx.
  exists p4, (stored_page (used (used v)) (root_page_id_ t) leaf'). split_and!; try done; [| |cbn; lia].
  - unfold Insert. rewrite HG. cbn [obind]. unfold IsEmpty. rewrite (proj2 (Z.eqb_neq _ _)) by (unfold INVALID_PAGE; lia).
    rewrite HF. cbn [obind]. rewrite HD. cbn [obind]. rewrite HI. cbn [obind]. rewrite HW. cbn [obind].
    rewrite (leaf_size N _ [x] HR1), Hmax. change (zlen [x]) with 1.
    rewrite (proj2 (Z.eqb_neq 1 (leaf_max_size_ t))) by lia. rewrite Hid, HU. done.
  - assert (Hbr : v_bytes (stored_page (used (used v)) (root_page_id_ t) leaf') (root_page_id_ t) = leaf')
      by (cbn; unfold upd; by rewrite decide_True).
    assert (Hb0 : v_bytes (stored_page (used (used v)) (root_page_id_ t) leaf') 0 = v_bytes v 0)
      by (cbn; unfold upd; by rewrite decide_False by lia).
    destruct HT as [T1 T2 T3 T4 T5 T6]. constructor; rewrite ?Hb0; try done. split_and!; try done; try (cbn; lia).
    constructor; rewrite ?Hbr; try done. unfold IsLeafPage, GetPageType. rewrite Hg by lia. apply HL.
Qed.

(** ** Sequences of insertions *)

Fixpoint insert_many (fuel : nat) p t (kvs : list entry) : outcome (list bool * BPlusTree * P) :=
  match kvs with
  | [] => Ret ([], t, p)
  | x :: kvs =>
      let* (b, t, p) := Insert N comparator fuel p t x.1 x.2 in
      let* (bs, t, p) := insert_many fuel p t kvs in
      Ret (b :: bs, t, p)
  end.

Lemma insert_many_one fuel kvs : forall p v t recs x,
  pg_ok p v -> tree_ok v t recs (Some x) -> quiet v t -> 2 * zlen kvs < v_left v ->
  Forall (fun y => key_ok y.1 /\ entry_ok N y) kvs ->
  exists p' v', insert_many (S fuel) p t kvs = Ret ((fun y => comparator x.1 y.1 =? 0) <$> kvs, t, p') /\ pg_ok p' v' /\
    tree_ok v' t recs (Some x) /\ v_pins v' = v_pins v /\ v_size v' = v_size v /\ v_left v - 2 * zlen kvs <= v_left v'.
Proof.
  induction kvs as [|y kvs IH]; intros p v t recs x Hok HT Hq Hl Hk.
  { exists p, v. split_and!; try done. unfold zlen. cbn [length]. lia. }
  inversion_clear Hk as [|? ? [Hky Hy] Hk']. cbn [insert_many].
  assert (Hz : zlen (y :: kvs) = zlen kvs + 1) by (unfold zlen; cbn [length]; lia). assert (0 <= zlen kvs) by (unfold zlen; lia).
  destruct (Z.eq_dec (comparator x.1 y.1) 0) as [He|Hne].
  - destruct (Insert_same p v t recs x y.1 y.2 fuel Hok HT Hq ltac:(lia) He Hky) as
      (p1 & v1 & HI & Hok1 & HT1 & Hp1 & Hs1 & Hn1 & Hl1); [by destruct y|].
    destruct (IH p1 v1 t recs x Hok1 HT1) as (p' & v' & HM & Hok' & HT' & Hp' & Hs' & Hl'); try done; [|lia|].
    { unfold quiet, room in *. by rewrite Hp1, Hs1. }
    exists p', v'. split_and!; try done; try congruence; [|lia]. rewrite HI. cbn [obind]. rewrite HM. cbn [obind fmap list_fmap].
    by rewrite He, Z.eqb_refl.
  - destruct (Insert_other p v t recs x y.1 y.2 fuel Hok HT Hq ltac:(lia) Hne) as (p1 & HI & Hok1).
    destruct (IH p1 (used v) t recs x Hok1 (tree_ok_used _ _ _ _ HT) Hq) as (p' & v' & HM & Hok' & HT' & Hp' & Hs' & Hl');
      try done; [cbn; lia|].
    exists p', v'. split_and!; try done; [|cbn in Hl'; lia]. rewrite HI. cbn [obind]. rewrite HM. cbn [obind fmap list_fmap].
    by rewrite (proj2 (Z.eqb_neq _ _)) by done.
Qed.
End one_leaf.

(** ** Splitting a leaf *)

Section split.
Context {P : Type} `{PagesLaws P} (N : Z).
Hypothesis HN : 0 < N.
Implicit Types (p : P) (t : BPlusTree) (v : view).

Lemma get_i32_fits d off : sfits 32 (get_i32 d off).
Proof. by apply swrap_fits. Qed.

Lemma GetMinSize_half d (n : nat) : GetMaxSize d = Z.of_nat n -> Z.of_nat n < 2 ^ 31 - 1 ->
  GetMinSize d = Ret (Z.of_nat ((n + 1) / 2)).
Proof.
  intros Hm Hn. unfold GetMinSize, int_add. rewrite Hm.
  rewrite (proj2 (andb_true_iff _ _)) by (split; [apply Z.leb_le|apply Z.ltb_lt]; lia). cbn [obind].
  rewrite Z.quot_div_nonneg by lia. by rewrite Nat2Z.inj_div, Nat2Z.inj_add.
Qed.

Lemma Split_leaf p v t node kvs :
  pg_ok p v -> 0 < v_left v -> v_next v < 2 ^ 19 - 1 -> room v 1 -> sfits 32 (leaf_max_size_ t) ->
  zlen node = BUSTUB_PAGE_SIZE -> leaf_rep N node kvs -> IsLeafPage node = true -> GetMaxSize node = zlen kvs ->
  let st := ((length kvs + 1) / 2)%nat in
  exists node' sibling g p', Split N p t node = Ret (node', g, p') /\
    leaf_rep N node' (take st kvs) /\ leaf_rep N sibling (drop st kvs) /\
    same_header 28 node node' /\ IsLeafPage sibling = true /\ GetPageId sibling = v_next v /\
    GetParentPageId sibling = GetParentPageId node /\ GetMaxSize sibling = leaf_max_size_ t /\
    pg_ok p' (holding (stored_page (grown v zero_page) (v_next v) sibling) (v_next v) g true).
Proof.
  intros Hok Hl Hn Hr Hmx Hz R Hleaf Hmax st. pose proof R as [RC RE]. pose proof (pg_next_ok _ _ Hok) as Hn0.
  pose proof (leaf_pair_pos N HN) as Hpos. pose proof (ce_room _ _ _ _ RC) as Hroom. rewrite zlen_fmap in Hroom.
  pose proof (cell_off_pos 28 _ Hpos (zlen kvs) ltac:(unfold zlen; lia)).
  assert (Hst : (st <= length kvs)%nat).
  { destruct kvs; [done|]. apply Nat.Div0.div_le_upper_bound. cbn [length]. lia. }
  destruct (new_held p v Hok Hl Hn Hr) as (g & p1 & HP & HD & Hok1).
  set (d0 := SetPageType zero_page (GetPageType node)).
  assert (Hd0 : zlen d0 = BUSTUB_PAGE_SIZE) by (unfold d0, SetPageType; rewrite zlen_put_u; done).
  destruct (Leaf_Init_rep N d0 (v_next v) (GetParentPageId node) (leaf_max_size_ t) Hd0) as (Z1 & L1 & L2 & L3 & L4 & L5 & L6);
    [unfold sfits; lia|apply get_i32_fits|done|]. set (e := Leaf_Init _ _ _ _) in *.
  destruct (copy_cells 28 _ ltac:(lia) Hpos node e _ st RC) as (Hb & HC & HZ & HH); [by rewrite length_fmap|congruence|].
  rewrite zlen_fmap in Hb, HC, HZ, HH. set (sib := SetSize _ _) in HC, HZ, HH.
  destruct (truncate_cells 28 _ ltac:(lia) Hpos node _ st RC) as (HT & HH' & HZ'); [by rewrite length_fmap|].
  destruct (held_write p1 _ (v_next v) g false sib Hok1 ltac:(congruence)) as (p2 & HW & Hok2).
  exists (SetSize node (Z.of_nat st)), sib, g, p2. split_and!; try done.
  - unfold Split. rewrite HP. cbn [obind]. rewrite HD. cbn [obind]. fold d0. rewrite Hleaf. fold e.
    rewrite (GetMinSize_half node (length kvs)) by (done || unfold zlen in *; lia). cbn [obind]. fold st.
    rewrite (leaf_size N node kvs R), (leaf_size N e [] L1). change (zlen []) with 0. unfold copy_array.
    rewrite (proj2 (Z.ltb_ge _ _)) by (unfold zlen; lia). change (leaf_off N) with (cell_off 28 (leaf_pair N)).
    pose proof (cell_off_pos 28 _ Hpos (Z.of_nat st) ltac:(lia)).
    rewrite array_read_ok by lia. cbn [obind]. assert (E0 : cell_off 28 (leaf_pair N) 0 = 28) by (unfold cell_off; lia).
    rewrite array_write_ok by (rewrite ?Hb; lia). cbn [obind]. unfold int_add. rewrite Hmax.
    rewrite (proj2 (andb_true_iff _ _)) by (split; [apply Z.leb_le|apply Z.ltb_lt]; unfold zlen in *; lia). cbn [obind].
    assert (Hsz : GetSize (splice (cell_off 28 (leaf_pair N) 0) (slice (cell_off 28 (leaf_pair N) (Z.of_nat st))
      (cell_off 28 (leaf_pair N) (zlen kvs) - cell_off 28 (leaf_pair N) (Z.of_nat st)) node) e) = 0).
    { rewrite GetSize_splice by lia. exact (leaf_size N e [] L1). }
    rewrite IncreaseSize_ok by (rewrite Hsz; unfold zlen in *; lia). rewrite Hsz. cbn [obind].
    replace (0 + (zlen kvs + - Z.of_nat st)) with (zlen kvs - Z.of_nat st) by lia. fold sib. rewrite HW. done.
  - split; [by rewrite fmap_take|by apply Forall_take].
  - split; [by rewrite fmap_drop|by apply Forall_drop].
Qed.
End split.

(** ** Properties *)

(** C11: [Split] of a full leaf. The old page keeps the first half of the
    entries, rounded up, and the new page gets the rest in the same order; the
    new page is a leaf with the same parent and its own id, held in the frame
    returned, and nothing else changes in the pool. *)
Theorem Split_correct {P : Type} `{PagesLaws P} (N : Z) (p : P) (v : view) (t : BPlusTree) (node : list Z) (kvs : list entry) :
  0 < N -> pg_ok p v -> 0 < v_left v -> v_next v < 2 ^ 19 - 1 -> room v 1 -> sfits 32 (leaf_max_size_ t) ->
  zlen node = BUSTUB_PAGE_SIZE -> leaf_rep N node kvs -> IsLeafPage node = true -> GetMaxSize node = zlen kvs ->
  exists node' sibling g p' first second, Split N p t node = Ret (node', g, p') /\
    kvs = first ++ second /\ length first = ((length kvs + 1) / 2)%nat /\
    leaf_rep N node' first /\ leaf_rep N sibling second /\ same_header 28 node node' /\
    IsLeafPage sibling = true /\ GetPageId sibling = v_next v /\ GetParentPageId sibling = GetParentPageId node /\
    pg_ok p' (holding (stored_page (grown v zero_page) (v_next v) sibling) (v_next v) g true).
Proof.
  intros HN Hok Hl Hn Hr Hmx Hz R Hleaf Hmax.
  destruct (Split_leaf N HN p v t node kvs) as (node' & sibling & g & p' & HS & R1 & R2 & HH & L1 & L2 & L3 & L4 & Hok'); try done.
  exists node', sibling, g, p', (take ((length kvs + 1) / 2) kvs), (drop ((length kvs + 1) / 2) kvs).
  split_and!; try done; [by rewrite take_drop|]. rewrite length_take.
  destruct kvs; [done|]. apply Nat.min_l, Nat.Div0.div_le_upper_bound. cbn [length]. lia.
Qed.

(** C9: whatever is inserted into a new tree, it keeps only the first entry: the
    tree is a single leaf with it, whose page the header page records under the
    name of the index. Later insertions return true for a key equivalent to the
    first and false for every other, and change nothing; [GetValue] finds
    nothing for the key the tree has, and its value for every key it has not. *)
Theorem BPlusTree_keeps_first {P : Type} `{PagesLaws P} (N : Z) (comparator : list Z -> list Z -> Z)
    (key_ok : list Z -> Prop) `{!KeyOrder comparator key_ok} (fuel : nat) (p : P) (v : view)
    (name : list Z) (leaf_max internal_max : Z) (recs : list (list Z * Z)) (x : entry) (kvs : list entry) :
  0 < N -> leaf_off N 2 <= BUSTUB_PAGE_SIZE -> pg_ok p v ->
  tree_ok (key_ok := key_ok) N v (BPlusTree_ctor name leaf_max internal_max) recs None ->
  v_pins v = ∅ -> 2 <= v_size v -> v_next v < 2 ^ 19 - 1 -> 2 * zlen kvs + 3 < v_left v ->
  Forall (fun y => key_ok y.1 /\ entry_ok N y) (x :: kvs) ->
  exists p' v' t',
    insert_many (comparator := comparator) N (S fuel) p (BPlusTree_ctor name leaf_max internal_max) (x :: kvs) =
      Ret (true :: ((fun y => comparator x.1 y.1 =? 0) <$> kvs), t', p') /\
    pg_ok p' v' /\ tree_ok (key_ok := key_ok) N v' t' (recs ++ [(name, root_page_id_ t')]) (Some x) /\
    forall key, exists p'', GetValue N comparator (S fuel) p' t' key [] =
      Ret (if comparator x.1 key =? 0 then (false, [], p'') else (true, [x.2], p'')).
Proof.
  intros HN HN' Hok HT Hp Hs Hn Hl Hk. inversion_clear Hk as [|? ? [Hkx Hx] Hk'].
  assert (Hr : room v 2) by (unfold room; rewrite Hp, map_size_empty; lia). assert (0 <= zlen kvs) by (unfold zlen; lia).
  destruct (Insert_first N HN HN' p v _ recs x.1 x.2 fuel Hok HT) as (p1 & v1 & HI & Hok1 & HT1 & Hp1 & Hs1 & Hn1 & Hl1);
    [unfold quiet; by rewrite Hp|lia|done|done|by destruct x|].
  replace (x.1, x.2) with x in HT1 by (by destruct x). cbn [index_name_ BPlusTree_ctor] in HT1.
  set (t1 := set_root _ _) in *.
  assert (Hq1 : quiet v1 t1) by (unfold quiet, room in *; rewrite Hp1, Hp, Hs1, map_size_empty; split_and!; try done; lia).
  destruct (insert_many_one N HN HN' fuel kvs p1 v1 t1 _ x Hok1 HT1 Hq1) as (p' & v' & HM & Hok' & HT' & Hp' & Hs' & Hl');
    [lia|done|].
  exists p', v', t1. split_and!; try done.
  - cbn [insert_many]. rewrite HI. cbn [obind]. fold t1. rewrite HM. done.
  - intros key. destruct (GetValue_one N (comparator := comparator) (key_ok := key_ok) HN p' v' t1 _ x key fuel [] Hok' HT') as (p'' & HG & _).
    { unfold quiet, room in *. by rewrite Hp', Hs'. }
    { lia. }
    exists p''. rewrite HG. cbn [app]. by destruct (_ =? 0).
Qed.
