(* ===== verification/Index.v ===== *)
(** * Index keys and B+ tree indexes

    [GenericKey] and [GenericComparator] (src/include/storage/index/generic_key.h),
    [IndexMetadata] (src/include/storage/index/index.h) and [BPlusTreeIndex]
    (src/storage/index/b_plus_tree_index.cpp). A key is [N] bytes, the bytes of a
    tuple of the key schema followed by zeros; the comparator compares the
    columns of two keys in turn.

    Proved: on integer columns without NULL the comparator is the lexicographic
    order of the columns, so it is a comparator the tree can use ([KeyOrder]). The
    examples run the index on the buffer pool of the program. *)

From S2P Require Import Prelude.
From S2P Require Import Interfaces.
From S2P Require Import ExtHash.
From S2P Require Import LruK.
From S2P Require Import Disk.
From S2P Require Import BufferPool.
From S2P Require Import Pool.
From S2P Require Import Pages.
From S2P Require Import TablePage.
From S2P Require Import Storage.
From S2P Require Import Value.
From S2P Require Import Types.
From S2P Require Import TypeOps.
From S2P Require Import Tuple.
From S2P Require Import HeaderPage.
From S2P Require Import BTreePage.
From S2P Require Import BPlusTree.

Local Open Scope Z_scope.
Local Open Scope bustub_scope.

(** ** Keys *)

(** [memset(data_, 0, KeySize); memcpy(data_, tuple.GetData(), tuple.GetLength())] *)
Definition GenericKey_SetFromKey (N : Z) (tuple : Tuple) : result (list Z) :=
  if N <? zlen tuple then Throw Undefined else Ok (tuple ++ replicate (Z.to_nat (N - zlen tuple)) 0).

Definition GenericKey_SetFromInteger (N : Z) (key : Z) : result (list Z) :=
  if N <? 8 then Throw Undefined else Ok (le_encode 8 key ++ replicate (Z.to_nat (N - 8)) 0).

Definition GenericKey_ToValue (data : list Z) (schema : Schema) (column_idx : Z) : result Value :=
  let! col := GetColumn schema column_idx in
  let! ptr :=
    if Column_IsInlined col then Ok (column_offset_ col)
    else let! offset := load 4 data (column_offset_ col) in Ok (swrap 32 offset) in
  Value_DeserializeFrom data ptr (column_type_ col).

Definition GenericKey_ToString (data : list Z) : result Z := let! z := load 8 data 0 in Ok (swrap 64 z).

(** ** The comparator *)

Fixpoint compare_columns (fuel : nat) (key_schema : Schema) (lhs rhs : list Z) (i : Z) : result Z :=
  match fuel with
  | O => Ok 0
  | S fuel =>
      let! lhs_value := GenericKey_ToValue lhs key_schema i in
      let! rhs_value := GenericKey_ToValue rhs key_schema i in
      let! lt := Value_CompareLessThan lhs_value rhs_value in
      if bool_decide (lt = CmpTrue) then Ok (-1)
      else
        let! gt := Value_CompareGreaterThan lhs_value rhs_value in
        if bool_decide (gt = CmpTrue) then Ok 1 else compare_columns fuel key_schema lhs rhs (i + 1)
  end.
Definition GenericComparator (key_schema : Schema) (lhs rhs : list Z) : result Z :=
  compare_columns (length (columns_ key_schema)) key_schema lhs rhs 0.

(** The comparator as the tree is given it, on keys for which it does not throw. *)
Definition key_compare (key_schema : Schema) (lhs rhs : list Z) : Z :=
  match GenericComparator key_schema lhs rhs with Ok c => c | Throw _ => 0 end.

(** ** The index *)

Record IndexMetadata := mkMetadata {
  name_ : list Z;
  table_name_ : list Z;
  key_attrs_ : list Z;
  key_schema_ : Schema;
}.

Definition IndexMetadata_ctor (index_name table_name : list Z) (tuple_schema : Schema) (key_attrs : list Z)
    : result IndexMetadata :=
  let! key_schema := CopySchema tuple_schema key_attrs in
  Ok (mkMetadata index_name table_name key_attrs key_schema).

Record BPlusTreeIndex := mkIndex {
  metadata_ : IndexMetadata;
  container_ : BPlusTree;
}.

(** The default sizes of the tree, with the pair of a key and a record id. *)
Definition LEAF_PAGE_SIZE (N : Z) : Z := (BUSTUB_PAGE_SIZE - 28) / (N + 8).
Definition INTERNAL_PAGE_SIZE (N : Z) : Z := (BUSTUB_PAGE_SIZE - 24) / (N + 8).

Definition BPlusTreeIndex_ctor (N : Z) (metadata : IndexMetadata) : BPlusTreeIndex :=
  mkIndex metadata (BPlusTree_ctor (name_ metadata) (LEAF_PAGE_SIZE N) (INTERNAL_PAGE_SIZE N)).

Section index.
Local Open Scope outcome_scope.
Context {P : Type} `{Pages P} (N : Z).
Implicit Types (p : P) (x : BPlusTreeIndex).

Definition InsertEntry (fuel : nat) p x (key : Tuple) (rid : RID) : outcome (BPlusTreeIndex * P) :=
  let* index_key := of_result (GenericKey_SetFromKey N key) in
  let* (_, t, p) := BPlusTree.Insert N (key_compare (key_schema_ (metadata_ x))) fuel p (container_ x) index_key rid in
  Ret (mkIndex (metadata_ x) t, p).

Definition DeleteEntry p x (key : Tuple) (rid : RID) : outcome (BPlusTreeIndex * P) :=
  let* index_key := of_result (GenericKey_SetFromKey N key) in
  let* (t, p) := BPlusTree.Remove p (container_ x) index_key in
  Ret (mkIndex (metadata_ x) t, p).

Definition ScanKey (fuel : nat) p x (key : Tuple) (result : list RID) : outcome (list RID * P) :=
  let* index_key := of_result (GenericKey_SetFromKey N key) in
  let* (_, result, p) :=
    BPlusTree.GetValue N (key_compare (key_schema_ (metadata_ x))) fuel p (container_ x) index_key result in
  Ret (result, p).
End index.

(** ** Lexicographic order *)

Fixpoint lex (xs ys : list Z) : Z :=
  match xs, ys with
  | x :: xs, y :: ys => if x <? y then -1 else if y <? x then 1 else lex xs ys
  | _, _ => 0
  end.

Lemma lex_refl xs : lex xs xs = 0.
Proof. induction xs as [|x xs IH]; [done|]. cbn. by rewrite Z.ltb_irrefl. Qed.

Lemma lex_opp xs ys : lex ys xs = - lex xs ys.
Proof.
  revert ys. induction xs as [|x xs IH]; intros [|y ys]; try done. cbn. rewrite IH.
  destruct (Z.ltb_spec x y), (Z.ltb_spec y x); done || lia.
Qed.

Lemma lex_trans xs ys zs :
  length xs = length ys -> length ys = length zs -> lex xs ys <= 0 -> lex ys zs <= 0 -> lex xs zs <= 0.
Proof.
  revert ys zs. induction xs as [|x xs IH]; intros [|y ys] [|z zs] H1 H2; try done. cbn in *.
  destruct (Z.ltb_spec x y), (Z.ltb_spec y x), (Z.ltb_spec y z), (Z.ltb_spec z y), (Z.ltb_spec x z), (Z.ltb_spec z x);
    try lia. intros. by apply (IH ys); lia.
Qed.

(** ** Integer keys *)

Definition int_size (T : ity) : nat := match T with int8_t => 1 | int16_t => 2 | int32_t => 4 | int64_t => 8 end.

(** The integer a key holds in a column. *)
Definition column_int (k : list Z) (c : Column) : Z :=
  match int_type (column_type_ c) with
  | Some T => swrap (bits T) (get_u (int_size T) k (column_offset_ c))
  | None => 0
  end.
Definition key_ints (s : Schema) (k : list Z) : list Z := column_int k <$> columns_ s.

Definition int_column (N : Z) (c : Column) : Prop :=
  match int_type (column_type_ c) with
  | Some T => 0 <= column_offset_ c /\ column_offset_ c + Z.of_nat (int_size T) <= N
  | None => False
  end.
Definition not_null (k : list Z) (c : Column) : Prop :=
  match int_type (column_type_ c) with Some T => in_range T (column_int k c) | None => True end.

(** A key schema of integer columns, and a key of it without NULLs. *)
Definition int_schema (N : Z) (s : Schema) : Prop := Forall (int_column N) (columns_ s).
Definition int_key (N : Z) (s : Schema) (k : list Z) : Prop := zlen k = N /\ Forall (not_null k) (columns_ s).

Lemma ToValue_int N s k i c :
  columns_ s !! i = Some c -> int_column N c -> not_null k c -> zlen k = N ->
  GenericKey_ToValue k s (Z.of_nat i) = Ok (VInt (column_type_ c) (column_int k c)).
Proof.
  intros Hi Hc Hk Hl. unfold GenericKey_ToValue, GetColumn. rewrite (proj2 (Z.ltb_ge _ _)) by lia.
  rewrite Nat2Z.id, Hi. cbn [rbind]. unfold int_column, not_null, column_int in *. unfold Column_IsInlined.
  destruct c as [nm ty fl vl off]. cbn [column_type_ column_offset_] in *.
  destruct ty; try done; cbn [int_type] in *; cbn [int_size] in *; change (negb (TypeId_eqb _ VARCHAR)) with true; cbn [rbind];
    unfold Value_DeserializeFrom; cbn;
    [unfold TinyintType_DeserializeFrom|unfold SmallintType_DeserializeFrom
    |unfold IntegerType_DeserializeFrom|unfold BigintType_DeserializeFrom];
    rewrite load_ok by lia; cbn [rbind]; by apply Value_int_VInt.
Qed.

Lemma compare_columns_lex N s a b fuel i :
  int_schema N s -> int_key N s a -> int_key N s b -> (i + fuel = length (columns_ s))%nat ->
  compare_columns fuel s a b (Z.of_nat i) = Ok (lex (column_int a <$> drop i (columns_ s)) (column_int b <$> drop i (columns_ s))).
Proof.
  intros Hs [Ha Hna] [Hb Hnb]. revert i. induction fuel as [|fuel IH]; intros i Hi.
  { by rewrite drop_ge by lia. }
  destruct (lookup_lt_is_Some_2 (columns_ s) i) as [c Hc]; [lia|].
  pose proof (Forall_lookup_1 _ _ _ _ Hs Hc) as Hcol. pose proof (Forall_lookup_1 _ _ _ _ Hna Hc) as Hca.
  pose proof (Forall_lookup_1 _ _ _ _ Hnb Hc) as Hcb. cbn [compare_columns].
  rewrite (ToValue_int N s a i c), (ToValue_int N s b i c) by done. cbn [rbind].
  rewrite (drop_S _ c i Hc). cbn [fmap list_fmap lex].
  unfold int_column, not_null in *. destruct (int_type (column_type_ c)) as [T|] eqn:ET; [|done].
  pose proof (Value_Compare_int OpLt _ _ T T _ _ ET ET Hca Hcb) as HL.
  pose proof (Value_Compare_int OpGt _ _ T T _ _ ET ET Hca Hcb) as HG. cbn [Value_Compare cmpZ] in HL, HG.
  rewrite HL. cbn [rbind]. destruct (column_int a c <? column_int b c); [done|]. cbn [GetCmpBool].
  rewrite bool_decide_false by done. rewrite HG. cbn [rbind]. destruct (column_int b c <? column_int a c); [done|].
  cbn [GetCmpBool]. rewrite bool_decide_false by done. replace (Z.of_nat i + 1) with (Z.of_nat (S i)) by lia. apply IH. lia.
Qed.

Lemma GenericComparator_ints N s a b :
  int_schema N s -> int_key N s a -> int_key N s b -> GenericComparator s a b = Ok (lex (key_ints s a) (key_ints s b)).
Proof.
  intros Hs Ha Hb. pose proof (compare_columns_lex N s a b (length (columns_ s)) 0 Hs Ha Hb eq_refl) as E.
  rewrite drop_0 in E. exact E.
Qed.

Lemma compare_columns_sign fuel s a b i c : compare_columns fuel s a b i = Ok c -> c = -1 \/ c = 0 \/ c = 1.
Proof.
  revert i. induction fuel as [|fuel IH]; intros i; cbn [compare_columns]; [intros [= <-]; lia|].
  destruct (GenericKey_ToValue a s i); [|done]. destruct (GenericKey_ToValue b s i); [|done]. cbn [rbind].
  destruct (Value_CompareLessThan _ _); [|done]. cbn [rbind]. case_bool_decide; [intros [= <-]; lia|].
  destruct (Value_CompareGreaterThan _ _); [|done]. cbn [rbind]. case_bool_decide; [intros [= <-]; lia|]. apply IH.
Qed.

#[export] Instance key_order N s : int_schema N s -> KeyOrder (key_compare s) (int_key N s).
Proof.
  intros Hs. assert (E : forall a b, int_key N s a -> int_key N s b -> key_compare s a b = lex (key_ints s a) (key_ints s b)).
  { intros a b Ha Hb. unfold key_compare. by rewrite (GenericComparator_ints N s a b). }
  assert (Hlen : forall a b, length (key_ints s a) = length (key_ints s b)) by (intros; unfold key_ints; by rewrite !length_fmap).
  constructor.
  - intros a b. unfold key_compare. destruct (GenericComparator s a b) eqn:Ec; [by eapply compare_columns_sign|lia].
  - intros a Ha. rewrite E by done. apply lex_refl.
  - intros a b Ha Hb. rewrite !E by done. apply lex_opp.
  - intros a b c Ha Hb Hc. rewrite !E by done. by apply lex_trans.
Qed.

(** ** Properties *)

(** C12: on keys of a schema of integer columns, none of them NULL, the
    comparator never throws and is the lexicographic order of the columns; it
    is antisymmetric and transitive, as the tree needs it. *)
Theorem GenericComparator_lex (N : Z) (s : Schema) (a b c : list Z) :
  int_schema N s -> int_key N s a -> int_key N s b -> int_key N s c ->
  GenericComparator s a b = Ok (lex (key_ints s a) (key_ints s b)) /\
  key_compare s b a = - key_compare s a b /\
  (key_compare s a b <= 0 -> key_compare s b c <= 0 -> key_compare s a c <= 0).
Proof.
  intros Hs Ha Hb Hc. pose proof (key_order N s Hs) as K. split; [by apply (GenericComparator_ints N)|].
  split; [by apply ko_opp|]. intros H1 H2. by apply (ko_trans (KeyOrder := K) a b c).
Qed.

(** ** Examples *)

Definition int_columns (names : list (list Z)) : list Column := (fun n => mkColumn n INTEGER 4 0 0) <$> names.
Definition demo_schema : Schema := Schema_ctor (int_columns [[97]; [98]]).
Definition int_row (x y : Z) : list Z := le_encode 4 x ++ le_encode 4 y.

Lemma demo_schema_ints : int_schema 8 demo_schema.
Proof. repeat constructor; vm_compute; discriminate. Defined.

Lemma int_row_key x y : in_range int32_t x -> in_range int32_t y -> int_key 8 demo_schema (int_row x y).
Proof.
  intros Hx Hy. split; [reflexivity|].
  assert (E : forall z, in_range int32_t z -> swrap 32 (z mod 2 ^ 32) = z).
  { intros z Hz. change (z mod 2 ^ 32) with (uwrap 32 z). rewrite swrap_uwrap. apply swrap_id; unfold in_range, sfits, bits in *; lia. }
  constructor; [|constructor; [|constructor]]; unfold not_null, column_int; cbn -[get_u swrap in_range le_encode];
    unfold get_u, int_row, slice; change (Z.to_nat 0) with 0%nat; change (Z.to_nat (Z.of_nat 4)) with 4%nat;
    change (Z.to_nat (uwrap 32 (0 + 4))) with 4%nat.
  - rewrite drop_0, take_app_le, take_ge by (rewrite length_le_encode; lia). rewrite le_decode_encode. cbn [bits].
    change (256 ^ Z.of_nat 4) with (2 ^ 32). by rewrite E.
  - rewrite drop_app_ge by (rewrite length_le_encode; lia). rewrite length_le_encode, drop_0, take_ge by (rewrite length_le_encode; lia).
    rewrite le_decode_encode. cbn [bits]. change (256 ^ Z.of_nat 4) with (2 ^ 32). by rewrite E.
Qed.

Lemma GenericComparator_lex_witness :
  GenericComparator demo_schema (int_row 1 (-5)) (int_row 1 7) = Ok (-1).
Proof.
  destruct (GenericComparator_lex 8 demo_schema (int_row 1 (-5)) (int_row 1 7) (int_row 1 7) demo_schema_ints) as (E & _);
    [apply int_row_key; split; reflexivity..|]. exact E.
Defined.

(** A NULL compares equal to every number, so with NULLs the order is lost. *)
Lemma NULL_key_equals_all :
  key_compare demo_schema (int_row 1 2) (int_row (- 2 ^ 31) 2) = 0 /\
  key_compare demo_schema (int_row (- 2 ^ 31) 2) (int_row 3 2) = 0 /\
  key_compare demo_schema (int_row 1 2) (int_row 3 2) = -1.
Proof. by vm_compute. Qed.

(** A pool whose page 0 is the header page. *)
Lemma pool_with_header : exists (p : pool) (v : view),
  pg_ok p v /\ v_pins v = ∅ /\ v_size v = 3 /\ v_next v = 1 /\ v_left v = 2 ^ 64 - 2 /\
  v_bytes v 0 = zero_page.
Proof.
  destruct (new_held _ _ (new_pool_ok 3 2 ltac:(lia) ltac:(lia))) as (f & p & _ & _ & Hok);
    [simpl; lia|simpl; lia|unfold room, new_view; simpl; rewrite map_size_empty; lia|].
  destruct (held_release p _ _ f false Hok eq_refl) as (p' & _ & Hok'). eexists p', _. split; [exact Hok'|]. done.
Qed.

Lemma zero_header : header_rep zero_page [].
Proof.
  constructor.
  - vm_compute. reflexivity.
  - split; vm_compute; [discriminate|reflexivity].
  - done.
  - constructor.
Qed.

Lemma demo_tree_ok (v : view) key_ok :
  v_next v = 1 -> v_bytes v 0 = zero_page ->
  tree_ok (key_ok := key_ok) 8 v (BPlusTree_ctor [105] 10 10) [] None.
Proof.
  intros Hn Hb. constructor; rewrite ?Hb; try done; [apply zero_header|lia|].
  split; [vm_compute; reflexivity|by repeat constructor].
Qed.

Lemma rid_entry x y : in_range int32_t x -> in_range int32_t y -> entry_ok 8 (int_row x y, mkRID 1 1).
Proof. intros. split; [done|]. split; vm_compute; split; discriminate || reflexivity. Qed.

Lemma BPlusTree_keeps_first_witness :
  exists (p p' : pool) t',
    insert_many (comparator := key_compare demo_schema) 8 1 p (BPlusTree_ctor [105] 10 10)
      [(int_row 1 1, mkRID 1 1); (int_row 2 2, mkRID 1 1); (int_row 1 1, mkRID 1 1)] = Ret ([true; false; true], t', p').
Proof.
  destruct pool_with_header as (p & v & Hok & Hp & Hs & Hn & Hl & Hb).
  destruct (BPlusTree_keeps_first (KeyOrder0 := key_order 8 demo_schema demo_schema_ints) 8 (key_compare demo_schema)
    (int_key 8 demo_schema) 0 p v [105] 10 10 [] (int_row 1 1, mkRID 1 1)
    [(int_row 2 2, mkRID 1 1); (int_row 1 1, mkRID 1 1)]) as (p' & v' & t' & HI & _).
  - lia.
  - vm_compute. discriminate.
  - exact Hok.
  - apply demo_tree_ok; [exact Hn|exact Hb].
  - exact Hp.
  - lia.
  - lia.
  - rewrite Hl. vm_compute. reflexivity.
  - repeat constructor; try (apply int_row_key; split; reflexivity); try (apply rid_entry; split; reflexivity).
  - exists p, p', t'. exact HI.
Defined.

Lemma Split_correct_witness :
  exists (p p' : pool) node' g, BPlusTree.Split 4 p (BPlusTree_ctor [105] 2 2) (SetMaxSize demo_page 2) = Ret (node', g, p').
Proof.
  destruct pool_with_header as (p & v & Hok & Hp & Hs & Hn & Hl & Hb).
  destruct (Split_correct 4 p v (BPlusTree_ctor [105] 2 2) (SetMaxSize demo_page 2) demo_entries) as
    (node' & sib & g & p' & l1 & l2 & HS & _).
  - lia.
  - exact Hok.
  - lia.
  - lia.
  - unfold room. rewrite Hp, map_size_empty. lia.
  - split; vm_compute; discriminate || reflexivity.
  - vm_compute. reflexivity.
  - split; [constructor|exact (proj2 demo_page_rep)].
    + vm_compute. reflexivity.
    + split; vm_compute; [discriminate|reflexivity].
    + intros [|[|i]] x Hx; try done; injection Hx as <-; vm_compute; reflexivity.
    + repeat constructor.
  - vm_compute. reflexivity.
  - vm_compute. reflexivity.
  - exists p, p', node', g. exact HS.
Defined.

(** ** Runs on the buffer pool *)

Section runs.
Local Open Scope outcome_scope.

(** New pages, given back at once; page 0 is the header page. *)
Fixpoint new_pages (n : nat) (p : pool) : outcome pool :=
  match n with
  | O => Ret p
  | S n =>
      let* (np, p) := pg_new p in
      match np with
      | None => Crash
      | Some (_, pid) => let* (_, p) := pg_unpin p pid false in new_pages n p
      end
  end.

(** Two rows are inserted into an index, then both keys are looked up. *)
Definition index_run : outcome (list RID * list RID) :=
  let* p := new_pages 1 (new_pool 3 2 new_disk) in
  let x := BPlusTreeIndex_ctor 8 (mkMetadata [105] [116] [0; 1] demo_schema) in
  let* (x, p) := InsertEntry 8 5 p x (int_row 1 1) (mkRID 4 1) in
  let* (x, p) := InsertEntry 8 5 p x (int_row 2 2) (mkRID 4 2) in
  let* (first, p) := ScanKey 8 5 p x (int_row 1 1) [] in
  let* (second, p) := ScanKey 8 5 p x (int_row 2 2) [] in
  Ret (first, second).

(** The entry of the tree is not found under its key, and found under the key
    that was refused. *)
Lemma index_run_inverted : index_run = Ret ([], [mkRID 4 1]).
Proof. vm_compute. reflexivity. Qed.

(** An internal node with four children, one more than its maximum, is split.
    The result is the list of the entries of the new page. *)
Definition four_children : outcome (list Z) :=
  let* d := Internal_SetAllAt 4 (Internal_Init (replicate 4096 0) 7 (-1) 3) 0 [0; 0; 0; 0] 1 in
  let* d := Internal_SetAllAt 4 d 1 [10; 0; 0; 0] 2 in
  let* d := Internal_SetAllAt 4 d 2 [20; 0; 0; 0] 3 in
  let* d := Internal_SetAllAt 4 d 3 [30; 0; 0; 0] 4 in
  Ret (SetSize d 4).

Definition split_run : outcome (list (list Z * Z)) :=
  let* p := new_pages 5 (new_pool 3 2 new_disk) in
  let* node := four_children in
  let* (node, g, p) := BPlusTree.Split 4 p (BPlusTree_ctor [105] 3 3) node in
  let* d := pg_data p g in
  let* k0 := Internal_KeyAt 4 d 0 in
  let* v0 := Internal_ValueAt 4 d 0 in
  let* k1 := Internal_KeyAt 4 d 1 in
  let* v1 := Internal_ValueAt 4 d 1 in
  Ret (take (Z.to_nat (GetSize d)) [(k0, v0); (k1, v1)]).

(** The copy starts at the size of the new page, which [Init] sets to one: slot 0
    stays zero, the header page as a child, and the last child is lost. *)
Lemma Split_internal_loses_child : split_run = Ret [([0; 0; 0; 0], 0); ([20; 0; 0; 0], 3)].
Proof. vm_compute. reflexivity. Qed.
End runs.
