(* ===== verification/Catalog.v ===== *)
(** * The catalog

    [Catalog] (src/include/catalog/catalog.h): the tables and indexes by object id and
    by name. A pointer to a [TableInfo] or [IndexInfo] is the entry of the map that
    owns it; the table heap of a catalog without storage is null ([None]). The order
    in which an [std::unordered_map] is traversed is unspecified: it is a parameter,
    any enumeration of the map's pairs.

    Proved: in every catalog reached from the empty one the maps agree with each
    other, so that no lookup fails an assertion ("Broken Invariant") and each finds
    exactly what was created. *)

From S2P Require Import Prelude.
From S2P Require Import Interfaces.
From S2P Require Import ExtHash.
From S2P Require Import LruK.
From S2P Require Import Disk.
From S2P Require Import BufferPool.
From S2P Require Import Pool.
From S2P Require Import Pages.
From S2P Require Import TablePage.
From S2P Require Import TableHeap.
From S2P Require Import Storage.
From S2P Require Import Value.
From S2P Require Import Tuple.
From S2P Require Import HeaderPage.
From S2P Require Import BPlusTree.
From S2P Require Import Index.

Local Open Scope Z_scope.

Record TableInfo := mkTableInfo {
  ti_schema_ : Schema;
  ti_name_ : list Z;
  ti_table_ : option TableHeap;
  ti_oid_ : Z;
}.

Record IndexInfo := mkIndexInfo {
  ii_key_schema_ : Schema;
  ii_name_ : list Z;
  ii_index_ : BPlusTreeIndex;
  ii_index_oid_ : Z;
  ii_table_name_ : list Z;
  ii_key_size_ : Z;
}.

Record Catalog := mkCatalog {
  tables_ : gmap Z TableInfo;
  table_names_ : gmap (list Z) Z;
  next_table_oid_ : Z;
  indexes_ : gmap Z IndexInfo;
  index_names_ : gmap (list Z) (gmap (list Z) Z);
  next_index_oid_ : Z;
}.

Definition Catalog_ctor : Catalog := mkCatalog ∅ ∅ 0 ∅ ∅ 0.

(** [std::unordered_map::emplace]: does nothing when the key is present. *)
Definition emplace `{Countable K} {V} (k : K) (v : V) (m : gmap K V) : gmap K V :=
  match m !! k with Some _ => m | None => <[k := v]> m end.

(** ** Lookups *)

Section lookups.
Local Open Scope bustub_scope.
Context (iteration : gmap (list Z) Z -> list (list Z * Z)).
Implicit Types (c : Catalog).

(** The entry of the owning map that a second map refers to. *)
Definition the_entry {V} (m : gmap Z V) (oid : Z) : result V :=
  match m !! oid with Some v => Ok v | None => Throw AssertFailed end.

Definition GetTable_name c (table_name : list Z) : result (option TableInfo) :=
  match table_names_ c !! table_name with
  | None => Ok None
  | Some table_oid => let! meta := the_entry (tables_ c) table_oid in Ok (Some meta)
  end.

Definition GetTable c (table_oid : Z) : option TableInfo := tables_ c !! table_oid.

Definition GetIndex_name c (index_name table_name : list Z) : result (option IndexInfo) :=
  match index_names_ c !! table_name with
  | None => assert! bool_decide (table_names_ c !! table_name = None); Ok None
  | Some table_indexes =>
      match table_indexes !! index_name with
      | None => Ok None
      | Some oid => let! index := the_entry (indexes_ c) oid in Ok (Some index)
      end
  end.

Definition GetIndex_table c (index_name : list Z) (table_oid : Z) : result (option IndexInfo) :=
  match tables_ c !! table_oid with
  | None => Ok None
  | Some table_meta => GetIndex_name c index_name (ti_name_ table_meta)
  end.

Definition GetIndex c (index_oid : Z) : option IndexInfo := indexes_ c !! index_oid.

Definition GetTableIndexes c (table_name : list Z) : result (list IndexInfo) :=
  match table_names_ c !! table_name with
  | None => Ok []
  | Some _ =>
      match index_names_ c !! table_name with
      | None => Throw AssertFailed
      | Some table_indexes => rseq ((fun index_meta => the_entry (indexes_ c) index_meta.2) <$> iteration table_indexes)
      end
  end.

Definition GetTableNames c : list (list Z) := fst <$> iteration (table_names_ c).

End lookups.

(** ** Creation *)

Section creation.
Local Open Scope outcome_scope.
Context {P : Type} `{Pages P} (enable_logging : bool).
Implicit Types (p : P) (c : Catalog) (t : Transaction).

Definition CreateTable p c t (table_name : list Z) (schema : Schema) (create_table_heap : bool)
    : outcome (option TableInfo * Catalog * P * Transaction) :=
  match table_names_ c !! table_name with
  | Some _ => Ret (None, c, p, t)
  | None =>
      let* (table, p, t) :=
        if create_table_heap then (let* (h, p, t) := TableHeap_ctor enable_logging p t in Ret (Some h, p, t))
        else Ret (None, p, t) in
      let table_oid := next_table_oid_ c in
      let meta := mkTableInfo schema table_name table table_oid in
      Ret (Some meta,
           mkCatalog (emplace table_oid meta (tables_ c)) (emplace table_name table_oid (table_names_ c))
             (uwrap 32 (next_table_oid_ c + 1)) (indexes_ c) (emplace table_name ∅ (index_names_ c)) (next_index_oid_ c),
           p, t)
  end.

(** The loop of [CreateIndex] over the rows of the table. [N] is the size of the key type. *)
Fixpoint populate (N : Z) (fuel : nat) p t (h : TableHeap) (it : TableIterator) (index : BPlusTreeIndex)
    (schema key_schema : Schema) (key_attrs : list Z) : outcome (BPlusTreeIndex * P * Transaction) :=
  match fuel with
  | O => Crash
  | S fuel' =>
      if is_End it then Ret (index, p, t)
      else
        let* key := of_result (KeyFromTuple (it_tuple it) schema key_schema key_attrs) in
        let* (index, p) := InsertEntry N fuel p index key (it_rid it) in
        let* (it, p, t) := TableIterator_next enable_logging fuel p h t it in
        populate N fuel' p t h it index schema key_schema key_attrs
  end.

Definition CreateIndex (N : Z) (fuel : nat) p c t (index_name table_name : list Z) (schema key_schema : Schema)
    (key_attrs : list Z) (keysize : Z) : outcome (option IndexInfo * Catalog * P * Transaction) :=
  match table_names_ c !! table_name with
  | None => Ret (None, c, p, t)
  | Some _ =>
      match index_names_ c !! table_name with
      | None => Raised
      | Some table_indexes =>
          match table_indexes !! index_name with
          | Some _ => Ret (None, c, p, t)
          | None =>
              let* meta := of_result (IndexMetadata_ctor index_name table_name schema key_attrs) in
              let index := BPlusTreeIndex_ctor N meta in
              let* table_meta := of_result (GetTable_name c table_name) in
              let* table_meta := of_option table_meta in
              let* heap := of_option (ti_table_ table_meta) in
              let* (it, p, t) := TableHeap_Begin enable_logging fuel p heap t in
              let* (index, p, t) := populate N fuel p t heap it index schema key_schema key_attrs in
              let index_oid := next_index_oid_ c in
              let info := mkIndexInfo key_schema index_name index index_oid table_name keysize in
              Ret (Some info,
                   mkCatalog (tables_ c) (table_names_ c) (next_table_oid_ c) (emplace index_oid info (indexes_ c))
                     (<[table_name := emplace index_name index_oid table_indexes]> (index_names_ c))
                     (uwrap 32 (next_index_oid_ c + 1)),
                   p, t)
          end
      end
  end.

(** A step of a program that creates tables and indexes, with oids left. *)
Definition catalog_step (c c' : Catalog) : Prop :=
  next_table_oid_ c < 2 ^ 32 - 1 /\ next_index_oid_ c < 2 ^ 32 - 1 /\
  ((exists p t table_name schema heap r p' t', CreateTable p c t table_name schema heap = Ret (r, c', p', t')) \/
   (exists N fuel p t index_name table_name schema key_schema key_attrs keysize r p' t',
      CreateIndex N fuel p c t index_name table_name schema key_schema key_attrs keysize = Ret (r, c', p', t'))).

End creation.

(** ** The maps agree *)

Record catalog_ok (c : Catalog) : Prop := {
  ok_oids : 0 <= next_table_oid_ c /\ 0 <= next_index_oid_ c;
  ok_tables oid ti : tables_ c !! oid = Some ti ->
    ti_oid_ ti = oid /\ oid < next_table_oid_ c /\ table_names_ c !! ti_name_ ti = Some oid;
  ok_names n oid : table_names_ c !! n = Some oid -> exists ti, tables_ c !! oid = Some ti /\ ti_name_ ti = n;
  ok_dom n : is_Some (index_names_ c !! n) <-> is_Some (table_names_ c !! n);
  ok_indexes oid ii : indexes_ c !! oid = Some ii ->
    ii_index_oid_ ii = oid /\ oid < next_index_oid_ c /\
    exists m, index_names_ c !! ii_table_name_ ii = Some m /\ m !! ii_name_ ii = Some oid;
  ok_index_names n m i oid : index_names_ c !! n = Some m -> m !! i = Some oid ->
    exists ii, indexes_ c !! oid = Some ii /\ ii_name_ ii = i /\ ii_table_name_ ii = n;
}.

Lemma Catalog_ctor_ok : catalog_ok Catalog_ctor.
Proof.
  split; cbn; [done| | |by intros n; rewrite !lookup_empty| |]; intros * H; by rewrite lookup_empty in H.
Qed.

Lemma emplace_new `{Countable K} {V} (k : K) (v : V) (m : gmap K V) : m !! k = None -> emplace k v m = <[k := v]> m.
Proof. unfold emplace. by intros ->. Qed.

Lemma fresh_table c : catalog_ok c -> tables_ c !! next_table_oid_ c = None.
Proof. intros Hok. destruct (tables_ c !! next_table_oid_ c) as [ti|] eqn:E; [|done]. apply (ok_tables c Hok) in E. lia. Qed.
Lemma fresh_index c : catalog_ok c -> indexes_ c !! next_index_oid_ c = None.
Proof. intros Hok. destruct (indexes_ c !! next_index_oid_ c) as [ii|] eqn:E; [|done]. apply (ok_indexes c Hok) in E. lia. Qed.

(** What a new table and a new index do to the maps. *)
Definition add_table (c : Catalog) (ti : TableInfo) : Catalog :=
  mkCatalog (<[ti_oid_ ti := ti]> (tables_ c)) (<[ti_name_ ti := ti_oid_ ti]> (table_names_ c)) (next_table_oid_ c + 1)
    (indexes_ c) (<[ti_name_ ti := ∅]> (index_names_ c)) (next_index_oid_ c).
Definition add_index (c : Catalog) (m : gmap (list Z) Z) (ii : IndexInfo) : Catalog :=
  mkCatalog (tables_ c) (table_names_ c) (next_table_oid_ c) (<[ii_index_oid_ ii := ii]> (indexes_ c))
    (<[ii_table_name_ ii := <[ii_name_ ii := ii_index_oid_ ii]> m]> (index_names_ c)) (next_index_oid_ c + 1).

Lemma add_table_ok c ti :
  catalog_ok c -> ti_oid_ ti = next_table_oid_ c -> table_names_ c !! ti_name_ ti = None -> catalog_ok (add_table c ti).
Proof.
  intros Hok Ho Hn. pose proof (fresh_table c Hok) as Hf. rewrite <- Ho in Hf.
  assert (Hin : index_names_ c !! ti_name_ ti = None).
  { apply eq_None_not_Some. rewrite (ok_dom c Hok), Hn. by intros []. }
  split; cbn [tables_ table_names_ next_table_oid_ indexes_ index_names_ next_index_oid_ add_table].
  - destruct (ok_oids c Hok). lia.
  - intros oid ti' [[<- <-]|[Hne Ht]]%lookup_insert_Some.
    + rewrite lookup_insert_eq. split_and!; [done|lia|done].
    + destruct (ok_tables c Hok oid ti' Ht) as (? & ? & Hn'). rewrite lookup_insert_ne by (intros He; rewrite He in Hn; congruence).
      split_and!; [done|lia|done].
  - intros n oid [[<- <-]|[Hne Ht]]%lookup_insert_Some.
    + exists ti. by rewrite lookup_insert_eq.
    + destruct (ok_names c Hok n oid Ht) as (ti' & Ht' & ?). exists ti'. by rewrite lookup_insert_ne by congruence.
  - intros n. destruct (decide (n = ti_name_ ti)) as [->|]; [rewrite !lookup_insert_eq; split; by eexists|].
    rewrite !lookup_insert_ne by done. apply (ok_dom c Hok).
  - intros oid ii Hi. destruct (ok_indexes c Hok oid ii Hi) as (? & ? & m & Hm & ?). split_and!; [done|done|].
    exists m. by rewrite lookup_insert_ne by congruence.
  - intros n m i oid [[<- <-]|[Hne Hm]]%lookup_insert_Some Hi; [by rewrite lookup_empty in Hi|].
    by apply (ok_index_names c Hok n m).
Qed.

Lemma add_index_ok c m ii :
  catalog_ok c -> ii_index_oid_ ii = next_index_oid_ c -> index_names_ c !! ii_table_name_ ii = Some m ->
  m !! ii_name_ ii = None -> catalog_ok (add_index c m ii).
Proof.
  intros Hok Ho Hm Hn. pose proof (fresh_index c Hok) as Hf. rewrite <- Ho in Hf.
  split; cbn [tables_ table_names_ next_table_oid_ indexes_ index_names_ next_index_oid_ add_index].
  - destruct (ok_oids c Hok). lia.
  - apply (ok_tables c Hok).
  - apply (ok_names c Hok).
  - intros n. rewrite <- (ok_dom c Hok). destruct (decide (n = ii_table_name_ ii)) as [->|].
    + rewrite lookup_insert_eq, Hm. split; by eexists.
    + by rewrite lookup_insert_ne.
  - intros oid ii' [[<- <-]|[Hne Hi]]%lookup_insert_Some.
    + split_and!; [done|lia|]. eexists. by rewrite !lookup_insert_eq.
    + destruct (ok_indexes c Hok oid ii' Hi) as (? & ? & m' & Hm' & Hi'). split_and!; [done|lia|].
      destruct (decide (ii_table_name_ ii' = ii_table_name_ ii)) as [He|].
      * eexists. rewrite He, lookup_insert_eq. split; [done|]. rewrite He in Hm'. simplify_eq.
        rewrite lookup_insert_ne; [done|]. intros Hx. rewrite Hx in Hn. congruence.
      * exists m'. by rewrite lookup_insert_ne.
  - intros n m' i oid [[<- <-]|[Hne Hm']]%lookup_insert_Some Hi.
    + apply lookup_insert_Some in Hi as [[<- <-]|[Hni Hi]].
      * exists ii. by rewrite lookup_insert_eq.
      * destruct (ok_index_names c Hok _ m i oid Hm Hi) as (ii' & Hi' & ? & ?). exists ii'.
        rewrite lookup_insert_ne; [done|]. intros Hx. rewrite Hx in Hf. congruence.
    + destruct (ok_index_names c Hok n m' i oid Hm' Hi) as (ii' & Hi' & ? & ?). exists ii'.
      rewrite lookup_insert_ne; [done|]. intros Hx. rewrite Hx in Hf. congruence.
Qed.

Section catalog.
Context {P : Type} `{Pages P} (enable_logging : bool).
Context (iteration : gmap (list Z) Z -> list (list Z * Z)) (iteration_perm : forall m, iteration m ≡ₚ map_to_list m).
Implicit Types (p : P) (c : Catalog) (t : Transaction).

Lemma CreateTable_spec p c t table_name schema heap r c' p' t' :
  catalog_ok c -> next_table_oid_ c < 2 ^ 32 - 1 ->
  CreateTable enable_logging p c t table_name schema heap = Ret (r, c', p', t') ->
  (is_Some (table_names_ c !! table_name) /\ r = None /\ c' = c) \/
  (table_names_ c !! table_name = None /\ exists ti, r = Some ti /\ c' = add_table c ti /\
    ti_oid_ ti = next_table_oid_ c /\ ti_name_ ti = table_name /\ ti_schema_ ti = schema).
Proof.
  intros Hok Hb. unfold CreateTable. destruct (table_names_ c !! table_name) as [oid|] eqn:En.
  - intros [= <- <- <- <-]. left. split_and!; [by eexists|done|done].
  - destruct (if heap then _ else _) as [[[h p1] t1]| | |]; cbn [obind]; try done. intros [= <- <- <- <-]. right. split; [done|].
    eexists. split; [done|]. destruct (ok_oids c Hok). pose proof (fresh_table c Hok).
    assert (index_names_ c !! table_name = None).
    { apply eq_None_not_Some. rewrite (ok_dom c Hok), En. by intros []. }
    rewrite !emplace_new by done.
    unfold add_table. cbn. by rewrite uwrap_id by (unfold ufits; lia).
Qed.

Lemma CreateIndex_spec N fuel p c t index_name table_name schema key_schema key_attrs keysize r c' p' t' :
  catalog_ok c -> next_index_oid_ c < 2 ^ 32 - 1 ->
  CreateIndex enable_logging N fuel p c t index_name table_name schema key_schema key_attrs keysize = Ret (r, c', p', t') ->
  (r = None /\ c' = c /\ (table_names_ c !! table_name = None \/
    exists m, index_names_ c !! table_name = Some m /\ is_Some (m !! index_name))) \/
  (exists m ii, r = Some ii /\ c' = add_index c m ii /\ index_names_ c !! table_name = Some m /\ m !! index_name = None /\
    ii_index_oid_ ii = next_index_oid_ c /\ ii_name_ ii = index_name /\ ii_table_name_ ii = table_name /\
    ii_key_schema_ ii = key_schema).
Proof.
  intros Hok Hb. unfold CreateIndex. destruct (table_names_ c !! table_name) as [oid|]; [|intros [= <- <- <- <-]; by left; auto].
  destruct (index_names_ c !! table_name) as [m|] eqn:Em; [|done]. destruct (m !! index_name) as [i|] eqn:Ei.
  { intros [= <- <- <- <-]. left. split_and!; [done|done|]. right. exists m. split; [done|by eexists]. }
  repeat (match goal with |- obind _ ?x = _ -> _ => destruct x end; cbn [obind]; try done).
  repeat case_match; cbn [obind]; try done.
  repeat (match goal with |- obind _ ?x = _ -> _ => destruct x end; cbn [obind]; try done).
  repeat case_match; cbn [obind]; try done. intros [= <- <- <- <-]. right. eexists m, _. split; [done|].
  destruct (ok_oids c Hok). rewrite !emplace_new by (done || by apply fresh_index).
  unfold add_index. cbn. rewrite uwrap_id by (unfold ufits; lia). done.
Qed.

Lemma catalog_step_ok c c' : catalog_ok c -> catalog_step enable_logging c c' -> catalog_ok c'.
Proof.
  intros Hok (Ht & Hi & [(p & t & n & s & h & r & p' & t' & Hc)|Hc]).
  - destruct (CreateTable_spec _ _ _ _ _ _ _ _ _ _ Hok Ht Hc) as [(_ & _ & ->)|(Hn & ti & _ & -> & Ho & Hti & _)]; [done|].
    apply add_table_ok; congruence.
  - destruct Hc as (N & fuel & p & t & i & n & s & ks & ka & kz & r & p' & t' & Hc).
    destruct (CreateIndex_spec _ _ _ _ _ _ _ _ _ _ _ _ _ _ _ Hok Hi Hc)
      as [(_ & -> & _)|(m & ii & _ & -> & Hm & Hn & Ho & Hin & Hit & _)]; [done|].
    apply add_index_ok; congruence.
Qed.

Lemma reachable_ok c : rtc (catalog_step enable_logging) Catalog_ctor c -> catalog_ok c.
Proof.
  generalize Catalog_ctor_ok. generalize Catalog_ctor. intros c0 Hok. induction 1 as [|c0 c1 c2 Hs _ IH]; [done|].
  by apply IH, (catalog_step_ok c0).
Qed.

(** The lookups of a catalog whose maps agree. *)
Lemma GetTable_name_ok c n :
  catalog_ok c -> exists o, GetTable_name c n = Ok o /\
    forall ti, o = Some ti <-> GetTable c (ti_oid_ ti) = Some ti /\ ti_name_ ti = n.
Proof.
  intros Hok. unfold GetTable_name, GetTable, the_entry. destruct (table_names_ c !! n) as [oid|] eqn:En.
  - destruct (ok_names c Hok n oid En) as (ti & Ht & Hn). rewrite Ht. eexists. split; [done|]. intros ti'. split.
    + intros [= <-]. destruct (ok_tables c Hok oid ti Ht) as (-> & _). done.
    + intros [Ht' Hn']. destruct (ok_tables c Hok _ ti' Ht') as (_ & _ & Hx). congruence.
  - eexists. split; [done|]. intros ti. split; [done|]. intros [Ht Hn]. destruct (ok_tables c Hok _ ti Ht) as (_ & _ & Hx). congruence.
Qed.

Lemma GetIndex_name_ok c i n :
  catalog_ok c -> exists o, GetIndex_name c i n = Ok o /\
    forall ii, o = Some ii <-> GetIndex c (ii_index_oid_ ii) = Some ii /\ ii_name_ ii = i /\ ii_table_name_ ii = n.
Proof.
  intros Hok. unfold GetIndex_name, GetIndex, the_entry. destruct (index_names_ c !! n) as [m|] eqn:Em.
  - destruct (m !! i) as [oid|] eqn:Ei.
    + destruct (ok_index_names c Hok n m i oid Em Ei) as (ii & Hi & Hin & Hit). rewrite Hi. eexists. split; [done|]. intros ii'. split.
      * intros [= <-]. destruct (ok_indexes c Hok oid ii Hi) as (-> & _). done.
      * intros (Hi' & Hin' & Hit'). destruct (ok_indexes c Hok _ ii' Hi') as (_ & _ & m' & Hm' & Hx). congruence.
    + eexists. split; [done|]. intros ii. split; [done|]. intros (Hi & Hin & Hit).
      destruct (ok_indexes c Hok _ ii Hi) as (_ & _ & m' & Hm' & Hx). congruence.
  - assert (Hn : table_names_ c !! n = None).
    { apply eq_None_not_Some. rewrite <- (ok_dom c Hok), Em. by intros []. }
    rewrite bool_decide_eq_true_2 by done. eexists. split; [done|]. intros ii. split; [done|]. intros (Hi & Hin & Hit).
    destruct (ok_indexes c Hok _ ii Hi) as (_ & _ & m' & Hm' & Hx). congruence.
Qed.

Lemma entries_ok (l : list (list Z * Z)) (ix : gmap Z IndexInfo) :
  (forall i oid, (i, oid) ∈ l -> is_Some (ix !! oid)) ->
  exists iis, rseq ((fun e => the_entry ix e.2) <$> l) = Ok iis /\ Forall2 (fun e ii => ix !! e.2 = Some ii) l iis.
Proof.
  induction l as [|[i oid] l IH]; intros Hl; [by exists []|]. destruct (Hl i oid) as [ii Hi]; [by left|].
  destruct IH as (iis & Hr & Hf); [intros; apply (Hl i0); by right|]. exists (ii :: iis). cbn. unfold the_entry at 1.
  rewrite Hi, Hr. split; [done|]. by constructor.
Qed.

Lemma GetTableIndexes_ok c n :
  catalog_ok c -> exists l, GetTableIndexes iteration c n = Ok l /\ NoDup (ii_index_oid_ <$> l) /\
    forall ii, ii ∈ l <-> GetIndex c (ii_index_oid_ ii) = Some ii /\ ii_table_name_ ii = n.
Proof.
  intros Hok. unfold GetTableIndexes, GetIndex. destruct (table_names_ c !! n) as [oid|] eqn:En.
  2: { exists []. split_and!; [done|constructor|]. intros ii. split; [by intros ?%elem_of_nil|]. intros [Hi Ht].
       destruct (ok_indexes c Hok _ ii Hi) as (_ & _ & m & Hm & _). rewrite Ht in Hm.
       assert (is_Some (table_names_ c !! n)) as [? ?] by (apply (ok_dom c Hok); by eexists). congruence. }
  destruct (proj2 (ok_dom c Hok n)) as [m Em]; [by eexists|]. rewrite Em.
  assert (Hel : forall i o, (i, o) ∈ iteration m <-> m !! i = Some o).
  { intros i o. rewrite iteration_perm. apply elem_of_map_to_list. }
  destruct (entries_ok (iteration m) (indexes_ c)) as (iis & Hr & Hf).
  { intros i o Hin%Hel. destruct (ok_index_names c Hok n m i o Em Hin) as (ii & Hi & _). by eexists. }
  exists iis. split; [done|]. assert (Hoid : ii_index_oid_ <$> iis = snd <$> iteration m).
  { clear -Hf Hok. induction Hf as [|e ii l iis Hi _ IH]; cbn; [done|]. f_equal; [|done]. by apply (ok_indexes c Hok). }
  split.
  - rewrite Hoid. assert (Hnd : NoDup (iteration m)) by (rewrite iteration_perm; apply NoDup_map_to_list).
    apply NoDup_fmap_2_strong; [|done]. intros [i o] [i' o'] H1%Hel H2%Hel Heq. cbn in Heq. subst o'.
    destruct (ok_index_names c Hok n m i o Em H1) as (ii & Hi & <- & _).
    destruct (ok_index_names c Hok n m i' o Em H2) as (ii' & Hi' & <- & _). congruence.
  - intros ii. split.
    + intros [k Hk]%list_elem_of_lookup. destruct (Forall2_lookup_r _ _ _ _ _ Hf Hk) as ([i o] & Hio & Hi). cbn in Hi.
      apply list_elem_of_lookup_2, Hel in Hio. destruct (ok_index_names c Hok n m i o Em Hio) as (ii' & Hi' & _ & Ht).
      assert (ii' = ii) as -> by congruence. destruct (ok_indexes c Hok o ii Hi) as (-> & _). done.
    + intros [Hi Ht]. destruct (ok_indexes c Hok _ ii Hi) as (_ & _ & m' & Hm' & Hx). rewrite Ht, Em in Hm'. injection Hm' as <-.
      apply Hel, list_elem_of_lookup in Hx as [k Hk]. destruct (Forall2_lookup_l _ _ _ _ _ Hf Hk) as (ii' & Hk' & Hi').
      cbn in Hi'. apply list_elem_of_lookup. exists k. congruence.
Qed.

(** ** Properties *)

(** In every catalog that creating tables and indexes can lead to, from the empty
    one and as long as object ids are left, no lookup fails its assertion. Looking up
    a table or an index by name finds it exactly when an object with these names is
    registered under its object id, and the indexes of a table are those
    registered for it, each once, in whatever order the hash map is traversed. *)
Theorem Catalog_consistent (c : Catalog) :
  rtc (catalog_step enable_logging) Catalog_ctor c ->
  (forall n, exists o, GetTable_name c n = Ok o /\
    forall ti, o = Some ti <-> GetTable c (ti_oid_ ti) = Some ti /\ ti_name_ ti = n) /\
  (forall i n, exists o, GetIndex_name c i n = Ok o /\
    forall ii, o = Some ii <-> GetIndex c (ii_index_oid_ ii) = Some ii /\ ii_name_ ii = i /\ ii_table_name_ ii = n) /\
  (forall n, exists l, GetTableIndexes iteration c n = Ok l /\ NoDup (ii_index_oid_ <$> l) /\
    forall ii, ii ∈ l <-> GetIndex c (ii_index_oid_ ii) = Some ii /\ ii_table_name_ ii = n).
Proof.
  intros Hr%reachable_ok. split_and!; intros; [by apply GetTable_name_ok|by apply GetIndex_name_ok|by apply GetTableIndexes_ok].
Qed.

(** [CreateTable] refuses a name in use and otherwise registers the table under an
    object id nobody had, without changing what other names refer to. *)
Theorem CreateTable_correct p c t table_name schema heap r c' p' t' :
  rtc (catalog_step enable_logging) Catalog_ctor c -> next_table_oid_ c < 2 ^ 32 - 1 ->
  CreateTable enable_logging p c t table_name schema heap = Ret (r, c', p', t') ->
  (r = None /\ c' = c /\ GetTable_name c table_name <> Ok None) \/
  exists ti, r = Some ti /\ ti_schema_ ti = schema /\ GetTable c (ti_oid_ ti) = None /\
    GetTable_name c table_name = Ok None /\ GetTable_name c' table_name = Ok (Some ti) /\
    GetTable c' (ti_oid_ ti) = Some ti /\
    forall n, n <> table_name -> GetTable_name c' n = GetTable_name c n.
Proof.
  intros Hok%reachable_ok Hb Hc.
  destruct (CreateTable_spec _ _ _ _ _ _ _ _ _ _ Hok Hb Hc) as [([oid Hn] & -> & ->)|(Hn & ti & -> & -> & Ho & Hti & Hs)].
  - left. split_and!; [done|done|]. unfold GetTable_name, the_entry. rewrite Hn. by destruct (tables_ c !! oid).
  - right. exists ti. pose proof (fresh_table c Hok) as Hf. rewrite <- Ho in Hf.
    unfold GetTable_name, GetTable, the_entry. cbn [tables_ table_names_ add_table]. rewrite Hti, Hn, !lookup_insert_eq.
    split_and!; try done. intros n Hne. rewrite lookup_insert_ne by done.
    destruct (table_names_ c !! n) as [oid|] eqn:En; [|done]. destruct (ok_names c Hok n oid En) as (ti' & Ht' & _).
    rewrite lookup_insert_ne; [done|]. intros He. rewrite He in Hf. congruence.
Qed.
End catalog.

(** ** Example: a table with an index, in the storage engine of the program *)

(** The database: a header page, a table of pairs and an index on it. *)
Definition demo_run : outcome (Catalog * Catalog) :=
  (let* p := new_pages 1 (new_pool 3 2 new_disk) in
   let* (_, c1, p, t) := CreateTable false p Catalog_ctor Transaction_ctor [116] demo_schema true in
   let* (_, c2, p, t) := CreateIndex false 8 10 p c1 t [105] [116] demo_schema demo_schema [0; 1] 8 in
   Ret (c1, c2))%outcome.

Lemma demo_reachable :
  exists c1 c2, demo_run = Ret (c1, c2) /\ rtc (catalog_step (P := pool) false) Catalog_ctor c2.
Proof.
  unfold demo_run. destruct (new_pages 1 (new_pool 3 2 new_disk)) as [p| | |] eqn:Ep; [|by vm_compute in Ep..]. cbn [obind].
  destruct (CreateTable false p Catalog_ctor Transaction_ctor [116] demo_schema true) as [[[[r1 c1] p1] t1]| | |] eqn:E1;
    [|exfalso; vm_compute in Ep; injection Ep as <-; by vm_compute in E1..]. cbn [obind].
  destruct (CreateIndex false 8 10 p1 c1 t1 [105] [116] demo_schema demo_schema [0; 1] 8) as [[[[r2 c2] p2] t2]| | |] eqn:E2;
    [|exfalso; vm_compute in Ep; injection Ep as <-; vm_compute in E1; injection E1 as <- <- <- <-; by vm_compute in E2..].
  cbn [obind]. exists c1, c2. split; [done|]. apply (rtc_l _ _ c1).
  - split_and!; [done|done|]. left. by repeat eexists.
  - apply rtc_once. assert (Hn : next_table_oid_ c1 = 1 /\ next_index_oid_ c1 = 0).
    { vm_compute in Ep. injection Ep as <-. vm_compute in E1. by injection E1 as <- <- <- <-. }
    split_and!; [lia|lia|]. right. by repeat eexists.
Qed.

Lemma Catalog_consistent_witness :
  exists c1 c2 l, demo_run = Ret (c1, c2) /\ GetTableIndexes map_to_list c2 [116] = Ok l.
Proof.
  destruct demo_reachable as (c1 & c2 & Hrun & Hr).
  destruct (Catalog_consistent (P := pool) false map_to_list (fun m => Permutation_refl _) c2 Hr) as (_ & _ & Hl).
  destruct (Hl [116]) as (l & Hl1 & _). exists c1, c2, l. split; [exact Hrun|exact Hl1].
Defined.
