(* ===== verification/Transactions.v ===== *)
(** * Transactions and their manager

    The lock sets of a [Transaction] (src/include/concurrency/transaction.h), the reasons of an
    abort, and what [TransactionManager] (src/concurrency/transaction_manager.cpp and its header)
    does around the write sets of TxnManager.v: [Begin], [ReleaseLocks], the undo of the index
    write set, the transaction map and the global latch. The methods of [LockManager] do
    nothing but return true, so that the calls made to it are given as a list. The order in
    which an unordered container is traversed is a parameter. The latch is a shared mutex: a
    call that has to wait is [Blocked], an unlock of a latch that is not held is [Crash].

    Proved: [ReleaseLocks] unlocks every row and every table the transaction holds once,
    rows first; and in every interleaving of transactions the latch is held by exactly the
    running ones, so that none runs while they are blocked. *)

From Stdlib Require Import String.
From S2P Require Import Prelude.
From S2P Require Import CStd.
From S2P Require Import Interfaces.
From S2P Require Import ExtHash.
From S2P Require Import LruK.
From S2P Require Import Disk.
From S2P Require Import BufferPool.
From S2P Require Import Pool.
From S2P Require Import Pages.
From S2P Require Import TablePage.
From S2P Require Import TableHeap.
From S2P Require Import TxnManager.
From S2P Require Import Value.
From S2P Require Import Tuple.
From S2P Require Import HeaderPage.
From S2P Require Import BPlusTree.
From S2P Require Import Index.
From S2P Require Import Catalog.
Local Open Scope Z_scope.

#[export] Instance RID_countable : Countable RID :=
  inj_countable' (fun r => (page_id_ r, slot_num_ r)) (fun x => mkRID x.1 x.2) ltac:(by intros []).

(** ** Reasons of an abort *)

Inductive AbortReason : Type :=
| LOCK_ON_SHRINKING
| UPGRADE_CONFLICT
| DEADLOCK
| LOCK_SHARED_ON_READ_UNCOMMITTED
| TABLE_LOCK_NOT_PRESENT
| ATTEMPTED_INTENTION_LOCK_ON_ROW
| TABLE_UNLOCKED_BEFORE_UNLOCKING_ROWS
| INCOMPATIBLE_UPGRADE
| ATTEMPTED_UNLOCK_BUT_NO_LOCK_HELD.

(** [TransactionAbortException::GetInfo] *)
Definition GetInfo (txn_id : Z) (abort_reason : AbortReason) : list Z :=
  str "Transaction " ++ to_string txn_id ++
  match abort_reason with
  | LOCK_ON_SHRINKING => str " aborted because it can not take locks in the shrinking state"
  | UPGRADE_CONFLICT => str " aborted because another transaction is already waiting to upgrade its lock"
  | DEADLOCK => str " aborted on deadlock"
  | LOCK_SHARED_ON_READ_UNCOMMITTED => str " aborted on lockshared on READ_UNCOMMITTED"
  | TABLE_LOCK_NOT_PRESENT => str " aborted because table lock not present"
  | ATTEMPTED_INTENTION_LOCK_ON_ROW => str " aborted because intention lock attempted on row"
  | TABLE_UNLOCKED_BEFORE_UNLOCKING_ROWS => str " aborted because table locks dropped before dropping row locks"
  | INCOMPATIBLE_UPGRADE => str " aborted because attempted lock upgrade is incompatible"
  | ATTEMPTED_UNLOCK_BUT_NO_LOCK_HELD => str " aborted because attempted to unlock but no lock held "
  end ++ [10].

(** ** Lock sets *)

Record LockSets := mkLocks {
  s_table_lock_set_ : gset Z;
  x_table_lock_set_ : gset Z;
  is_table_lock_set_ : gset Z;
  ix_table_lock_set_ : gset Z;
  six_table_lock_set_ : gset Z;
  s_row_lock_set_ : gmap Z (gset RID);
  x_row_lock_set_ : gmap Z (gset RID);
}.
Definition LockSets_ctor : LockSets := mkLocks ∅ ∅ ∅ ∅ ∅ ∅ ∅.

Definition row_locked (rows : gmap Z (gset RID)) (oid : Z) (rid : RID) : bool :=
  match rows !! oid with None => false | Some row_lock_set => bool_decide (rid ∈ row_lock_set) end.
Definition IsRowSharedLocked (l : LockSets) (oid : Z) (rid : RID) : bool := row_locked (s_row_lock_set_ l) oid rid.
Definition IsRowExclusiveLocked (l : LockSets) (oid : Z) (rid : RID) : bool := row_locked (x_row_lock_set_ l) oid rid.
Definition IsTableIntentionSharedLocked (l : LockSets) (oid : Z) : bool := bool_decide (oid ∈ is_table_lock_set_ l).
Definition IsTableSharedLocked (l : LockSets) (oid : Z) : bool := bool_decide (oid ∈ s_table_lock_set_ l).
Definition IsTableIntentionExclusiveLocked (l : LockSets) (oid : Z) : bool := bool_decide (oid ∈ ix_table_lock_set_ l).
Definition IsTableExclusiveLocked (l : LockSets) (oid : Z) : bool := bool_decide (oid ∈ x_table_lock_set_ l).
Definition IsTableSharedIntentionExclusiveLocked (l : LockSets) (oid : Z) : bool := bool_decide (oid ∈ six_table_lock_set_ l).

(** A call of the lock manager. *)
Inductive lock_call : Type := UnlockRow (oid : Z) (rid : RID) | UnlockTable (oid : Z).

Section release.
Context (oid_order : gset Z -> list Z) (rid_order : gset RID -> list RID) (row_order : gmap Z (gset RID) -> list (Z * gset RID)).

(** [row_lock_set[oid].emplace(rid)] *)
Definition row_emplace (oid : Z) (rid : RID) (m : gmap Z (gset RID)) : gmap Z (gset RID) := <[oid := {[rid]} ∪ default ∅ (m !! oid)]> m.

(** The loops that collect the row locks of one map, and the table locks. *)
Definition collect_rows (rows acc : gmap Z (gset RID)) : gmap Z (gset RID) :=
  foldl (fun acc r => foldl (fun acc rid => row_emplace r.1 rid acc) acc (rid_order r.2)) acc (row_order rows).
Definition collect_tables (tables acc : gset Z) : gset Z := foldl (fun acc oid => {[oid]} ∪ acc) acc (oid_order tables).

Definition ReleaseLocks (l : LockSets) : list lock_call :=
  let row_lock_set := collect_rows (x_row_lock_set_ l) (collect_rows (s_row_lock_set_ l) ∅) in
  let table_lock_set :=
    collect_tables (six_table_lock_set_ l) (collect_tables (ix_table_lock_set_ l)
      (collect_tables (x_table_lock_set_ l) (collect_tables (is_table_lock_set_ l) (collect_tables (s_table_lock_set_ l) ∅)))) in
  concat ((fun r => UnlockRow r.1 <$> rid_order r.2) <$> row_order row_lock_set) ++ (UnlockTable <$> oid_order table_lock_set).
End release.

(** ** Index write records *)

Record IndexWriteRecord := mkIndexWrite {
  iw_rid_ : RID;
  iw_table_oid_ : Z;
  iw_wtype_ : WType;
  iw_tuple_ : list Z;
  iw_old_tuple_ : list Z;
  iw_index_oid_ : Z;
}.
(** The constructor leaves [old_tuple_] as an empty tuple; [catalog_] is the one catalog. *)
Definition IndexWriteRecord_ctor (rid : RID) (table_oid : Z) (wtype : WType) (tuple : list Z) (index_oid : Z) : IndexWriteRecord :=
  mkIndexWrite rid table_oid wtype tuple [] index_oid.

Section undo.
Local Open Scope outcome_scope.
Context {P : Type} `{Pages P} (N : Z).
Implicit Types (p : P) (c : Catalog).

(** The index object of a catalog entry after an operation on it. *)
Definition set_index c (info : IndexInfo) (index : BPlusTreeIndex) : Catalog :=
  mkCatalog (tables_ c) (table_names_ c) (next_table_oid_ c)
    (<[ii_index_oid_ info := mkIndexInfo (ii_key_schema_ info) (ii_name_ info) index (ii_index_oid_ info) (ii_table_name_ info) (ii_key_size_ info)]>
       (indexes_ c))
    (index_names_ c) (next_index_oid_ c).

Definition undo_index_record (fuel : nat) p c (item : IndexWriteRecord) : outcome (P * Catalog) :=
  let* table_info := of_option (GetTable c (iw_table_oid_ item)) in
  let* index_info := of_option (GetIndex c (iw_index_oid_ item)) in
  let index := ii_index_ index_info in
  let key_of tuple := of_result (KeyFromTuple tuple (ti_schema_ table_info) (key_schema_ (metadata_ index)) (key_attrs_ (metadata_ index))) in
  let* new_key := key_of (iw_tuple_ item) in
  let* (index, p) :=
    match iw_wtype_ item with
    | DELETE => InsertEntry N fuel p index new_key (iw_rid_ item)
    | INSERT => DeleteEntry N p index new_key (iw_rid_ item)
    | UPDATE =>
        let* (index, p) := DeleteEntry N p index new_key (iw_rid_ item) in
        let* old_key := key_of (iw_old_tuple_ item) in
        InsertEntry N fuel p index old_key (iw_rid_ item)
    end in
  Ret (p, set_index c index_info index).

(** From the last record to the first. *)
Fixpoint undo_index_writes (fuel : nat) p c (rev_items : list IndexWriteRecord) : outcome (P * Catalog) :=
  match rev_items with
  | [] => Ret (p, c)
  | item :: items => let* (p, c) := undo_index_record fuel p c item in undo_index_writes fuel p c items
  end.
End undo.

(** ** The manager *)

Inductive IsolationLevel : Type := READ_UNCOMMITTED | REPEATABLE_READ | READ_COMMITTED.

(** A transaction with its identity, its index write set and its locks. *)
Record TransactionObject := mkObject {
  isolation_level_ : IsolationLevel;
  txn_id_ : Z;
  work_ : Transaction;
  index_write_set_ : list IndexWriteRecord;
  locks_ : LockSets;
}.
Definition TransactionObject_ctor (txn_id : Z) (isolation_level : IsolationLevel) : TransactionObject :=
  mkObject isolation_level txn_id Transaction_ctor [] LockSets_ctor.
Definition AppendIndexWriteRecord (o : TransactionObject) (w : IndexWriteRecord) : TransactionObject :=
  mkObject (isolation_level_ o) (txn_id_ o) (work_ o) (index_write_set_ o ++ [w]) (locks_ o).

(** [ReaderWriterLatch]: held by a number of readers or by a writer. *)
Inductive Latch : Type := Shared (readers : nat) | Exclusive.
Definition RLock (l : Latch) : outcome Latch := match l with Shared n => Ret (Shared (S n)) | Exclusive => Blocked end.
Definition RUnlock (l : Latch) : outcome Latch := match l with Shared (S n) => Ret (Shared n) | _ => Crash end.
Definition WLock (l : Latch) : outcome Latch := match l with Shared O => Ret Exclusive | _ => Blocked end.
Definition WUnlock (l : Latch) : outcome Latch := match l with Exclusive => Ret (Shared 0) | _ => Crash end.

(** [txn_map] holds pointers to transactions, given by their ids; [objects_] are the
    transactions that exist. *)
Record TransactionManager := mkManager {
  next_txn_id_ : Z;
  txn_map : gset Z;
  global_txn_latch_ : Latch;
  objects_ : gmap Z TransactionObject;
}.
Definition TransactionManager_ctor : TransactionManager := mkManager 0 ∅ (Shared 0) ∅.

Section manager.
Local Open Scope outcome_scope.
Context {P : Type} `{Pages P} (enable_logging : bool).
Context (oid_order : gset Z -> list Z) (rid_order : gset RID -> list RID) (row_order : gmap Z (gset RID) -> list (Z * gset RID)).
Implicit Types (p : P) (m : TransactionManager) (c : Catalog).

Definition set_latch m (l : Latch) : TransactionManager := mkManager (next_txn_id_ m) (txn_map m) l (objects_ m).
Definition put_object m (o : TransactionObject) : TransactionManager :=
  mkManager (next_txn_id_ m) (txn_map m) (global_txn_latch_ m) (<[txn_id_ o := o]> (objects_ m)).

(** [Begin(nullptr, isolation_level)]: the id of the new transaction. *)
Definition Begin m (isolation_level : IsolationLevel) : outcome (Z * TransactionManager) :=
  let* latch := RLock (global_txn_latch_ m) in
  let txn := TransactionObject_ctor (next_txn_id_ m) isolation_level in
  Ret (txn_id_ txn,
       mkManager (swrap 32 (next_txn_id_ m + 1)) ({[txn_id_ txn]} ∪ txn_map m) latch (<[txn_id_ txn := txn]> (objects_ m))).

(** [Begin(txn)] of a transaction that exists. *)
Definition Begin_existing m (txn : TransactionObject) : outcome TransactionManager :=
  let* latch := RLock (global_txn_latch_ m) in
  Ret (mkManager (next_txn_id_ m) ({[txn_id_ txn]} ∪ txn_map m) latch (<[txn_id_ txn := txn]> (objects_ m))).

(** [GetTransaction]: a pointer to a transaction that was deleted dangles. *)
Definition GetTransaction m (txn_id : Z) : outcome TransactionObject :=
  if bool_decide (txn_id ∈ txn_map m) then of_option (objects_ m !! txn_id) else Raised.

(** [Commit] and [Abort]: the write sets, the locks, the latch. *)
Definition Commit (fuel : nat) p m (o : TransactionObject) : outcome (P * TransactionManager * list lock_call) :=
  let* (p, t) := TransactionManager_Commit fuel p (work_ o) in
  let o := mkObject (isolation_level_ o) (txn_id_ o) t (index_write_set_ o) (locks_ o) in
  let calls := ReleaseLocks oid_order rid_order row_order (locks_ o) in
  let* latch := RUnlock (global_txn_latch_ m) in
  Ret (p, set_latch (put_object m o) latch, calls).

Definition Abort (N : Z) (fuel : nat) p c m (o : TransactionObject) : outcome (P * Catalog * TransactionManager * list lock_call) :=
  let* (p, t) := TransactionManager_Abort enable_logging fuel p (work_ o) in
  let* (p, c) := undo_index_writes N fuel p c (rev (index_write_set_ o)) in
  let o := mkObject (isolation_level_ o) (txn_id_ o) t [] (locks_ o) in
  let calls := ReleaseLocks oid_order rid_order row_order (locks_ o) in
  let* latch := RUnlock (global_txn_latch_ m) in
  Ret (p, c, set_latch (put_object m o) latch, calls).

Definition BlockAllTransactions m : outcome TransactionManager :=
  let* latch := WLock (global_txn_latch_ m) in Ret (set_latch m latch).
Definition ResumeTransactions m : outcome TransactionManager :=
  let* latch := WUnlock (global_txn_latch_ m) in Ret (set_latch m latch).

(** [delete txn]: the map keeps its pointer. *)
Definition delete_transaction m (txn_id : Z) : TransactionManager :=
  mkManager (next_txn_id_ m) (txn_map m) (global_txn_latch_ m) (delete txn_id (objects_ m)).

(** The threads of a program, one call at a time. The second component is the set of the
    transactions that were begun and have not ended; only those are committed or aborted.
    A running transaction may do anything to its own object. *)
Inductive manager_step : TransactionManager * gset Z -> TransactionManager * gset Z -> Prop :=
| step_begin m R isolation id m' :
    next_txn_id_ m < 2 ^ 31 - 1 -> Begin m isolation = Ret (id, m') -> manager_step (m, R) (m', {[id]} ∪ R)
| step_work m R id o o' :
    id ∈ R -> objects_ m !! id = Some o -> txn_id_ o' = id -> manager_step (m, R) (put_object m o', R)
| step_commit m R id o fuel p p' m' calls :
    id ∈ R -> GetTransaction m id = Ret o -> Commit fuel p m o = Ret (p', m', calls) -> manager_step (m, R) (m', R ∖ {[id]})
| step_abort m R id o N fuel p c p' c' m' calls :
    id ∈ R -> GetTransaction m id = Ret o -> Abort N fuel p c m o = Ret (p', c', m', calls) -> manager_step (m, R) (m', R ∖ {[id]})
| step_delete m R id : id ∉ R -> manager_step (m, R) (delete_transaction m id, R)
| step_block m R m' : BlockAllTransactions m = Ret m' -> manager_step (m, R) (m', R)
| step_resume m R m' : global_txn_latch_ m = Exclusive -> ResumeTransactions m = Ret m' -> manager_step (m, R) (m', R).
End manager.

(** ** Releasing locks *)

Section release_correct.
Context (oid_order : gset Z -> list Z) (rid_order : gset RID -> list RID) (row_order : gmap Z (gset RID) -> list (Z * gset RID)).
Context (oid_perm : forall s, oid_order s ≡ₚ elements s) (rid_perm : forall s, rid_order s ≡ₚ elements s).
Context (row_perm : forall m, row_order m ≡ₚ map_to_list m).

Definition holds (m : gmap Z (gset RID)) (o : Z) (r : RID) : Prop := exists s, m !! o = Some s /\ r ∈ s.

Lemma row_locked_spec m o r : row_locked m o r = true <-> holds m o r.
Proof.
  unfold row_locked, holds. destruct (m !! o) as [s|]; [|naive_solver]. rewrite bool_decide_eq_true. naive_solver.
Qed.

Lemma row_emplace_holds oid rid m o r : holds (row_emplace oid rid m) o r <-> (o = oid /\ r = rid) \/ holds m o r.
Proof.
  unfold row_emplace, holds. destruct (decide (o = oid)) as [->|Hne].
  - rewrite lookup_insert_eq. split.
    + intros (s & [= <-] & [Hr%elem_of_singleton|Hr]%elem_of_union); [by left|]. right.
      destruct (m !! oid) as [s|]; cbn in Hr; [by exists s|by apply not_elem_of_empty in Hr].
    + intros H. eexists. split; [done|]. rewrite elem_of_union, elem_of_singleton.
      destruct H as [[_ ->]|(s & -> & Hs)]; [by left|by right].
  - rewrite lookup_insert_ne by done. naive_solver.
Qed.

Lemma collect_rids_holds oid rids : forall acc o r,
  holds (foldl (fun acc rid => row_emplace oid rid acc) acc rids) o r <-> (o = oid /\ r ∈ rids) \/ holds acc o r.
Proof.
  induction rids as [|x rids IH]; intros acc o r; cbn; [set_solver|]. rewrite IH, row_emplace_holds, elem_of_cons. naive_solver.
Qed.

Lemma collect_rows_holds rows acc o r :
  holds (collect_rows rid_order row_order rows acc) o r <-> holds rows o r \/ holds acc o r.
Proof.
  assert (Hm : holds rows o r <-> exists s, (o, s) ∈ row_order rows /\ r ∈ s).
  { unfold holds. setoid_rewrite row_perm. by setoid_rewrite elem_of_map_to_list. }
  rewrite Hm. unfold collect_rows. clear Hm. generalize (row_order rows) as l. intros l. revert acc.
  induction l as [|[oid s] l IH]; intros acc; cbn [foldl fst snd].
  - split; [by right|]. intros [(s & Hs & _)|H]; [by apply not_elem_of_nil in Hs|done].
  - rewrite IH, collect_rids_holds, rid_perm, elem_of_elements. setoid_rewrite elem_of_cons. naive_solver.
Qed.

Lemma collect_tables_elem tables acc o : o ∈ collect_tables oid_order tables acc <-> o ∈ tables \/ o ∈ acc.
Proof.
  unfold collect_tables. rewrite <- (elem_of_elements tables o), <- (oid_perm tables). generalize (oid_order tables) as l. intros l. revert acc.
  induction l as [|x l IH]; intros acc; cbn; [set_solver|]. rewrite IH, elem_of_cons. set_solver.
Qed.

Lemma row_calls_elem m call :
  call ∈ concat ((fun r => UnlockRow r.1 <$> rid_order r.2) <$> row_order m) <-> exists o r, call = UnlockRow o r /\ holds m o r.
Proof.
  rewrite list_elem_of_In, in_concat. setoid_rewrite <- list_elem_of_In. split.
  - intros (l & Hl & Hc). apply list_elem_of_fmap in Hl as ([o s] & -> & Ho). cbn in Hc. apply list_elem_of_fmap in Hc as (r & -> & Hr).
    rewrite row_perm in Ho. rewrite rid_perm, elem_of_elements in Hr. exists o, r. split; [done|]. exists s. by rewrite <- elem_of_map_to_list.
  - intros (o & r & -> & s & Ho & Hr). exists (UnlockRow o <$> rid_order s). split.
    + apply list_elem_of_fmap. exists (o, s). split; [done|]. rewrite row_perm. by apply elem_of_map_to_list.
    + apply list_elem_of_fmap. exists r. split; [done|]. by rewrite rid_perm, elem_of_elements.
Qed.

Lemma row_calls_NoDup m : NoDup (concat ((fun r => UnlockRow r.1 <$> rid_order r.2) <$> row_order m)).
Proof.
  assert (Hn : NoDup (row_order m).*1) by (rewrite row_perm; apply NoDup_fst_map_to_list).
  induction (row_order m) as [|[o s] l IH]; cbn in *; [constructor|]. apply NoDup_cons in Hn as [Ho Hn].
  apply NoDup_app. split_and!; [| |by apply IH].
  - apply NoDup_fmap_2; [by intros ?? [=]|]. rewrite rid_perm. apply NoDup_elements.
  - intros c Hc Hl. apply list_elem_of_fmap in Hc as (r & -> & _). apply list_elem_of_In, in_concat in Hl as (x & Hx & Hr).
    apply list_elem_of_In, list_elem_of_fmap in Hx as ([o' s'] & -> & Ho'). apply list_elem_of_In, list_elem_of_fmap in Hr as (r' & [= -> ->] & _).
    apply Ho, list_elem_of_fmap. by exists (o', s').
Qed.

(** C19: [ReleaseLocks] gives back what a transaction holds. The lock manager is asked to unlock every
    row that is locked shared or exclusive, exactly once each even if it is locked both ways, and
    after all rows every table that is locked in any of the five modes, exactly once each, and
    nothing else. *)
Theorem ReleaseLocks_exact (l : LockSets) :
  exists rows tables,
    ReleaseLocks oid_order rid_order row_order l = ((fun x => UnlockRow x.1 x.2) <$> rows) ++ (UnlockTable <$> tables) /\
    NoDup rows /\ NoDup tables /\
    (forall oid rid, (oid, rid) ∈ rows <-> IsRowSharedLocked l oid rid || IsRowExclusiveLocked l oid rid = true) /\
    (forall oid, oid ∈ tables <->
       IsTableSharedLocked l oid || IsTableExclusiveLocked l oid || IsTableIntentionSharedLocked l oid ||
       IsTableIntentionExclusiveLocked l oid || IsTableSharedIntentionExclusiveLocked l oid = true).
Proof.
  unfold ReleaseLocks. set (rows := collect_rows _ _ _ _). set (tables := collect_tables _ _ _).
  pose proof (row_calls_NoDup rows) as Hn. pose proof (row_calls_elem rows) as He.
  exists (concat ((fun r => pair r.1 <$> rid_order r.2) <$> row_order rows)), (oid_order tables).
  assert (Hm : concat ((fun r => UnlockRow r.1 <$> rid_order r.2) <$> row_order rows) =
    (fun x => UnlockRow x.1 x.2) <$> concat ((fun r => pair r.1 <$> rid_order r.2) <$> row_order rows)).
  { clear. induction (row_order rows) as [|[o s] k IH]; [done|]. cbn [fmap list_fmap concat fst snd]. rewrite fmap_app, <- list_fmap_compose, IH. done. }
  rewrite Hm in Hn, He |- *. split_and!; [done| | | |].
  - by apply NoDup_fmap_1 in Hn.
  - rewrite oid_perm. apply NoDup_elements.
  - intros oid rid. unfold IsRowSharedLocked, IsRowExclusiveLocked. rewrite orb_true_iff, !row_locked_spec.
    specialize (He (UnlockRow oid rid)). rewrite list_elem_of_fmap in He.
    assert (Hh : holds rows oid rid <-> holds (x_row_lock_set_ l) oid rid \/ holds (s_row_lock_set_ l) oid rid).
    { subst rows. rewrite !collect_rows_holds. unfold holds at 3. setoid_rewrite lookup_empty. naive_solver. }
    split; [intros Hi; destruct (proj1 He (ex_intro _ (oid, rid) (conj eq_refl Hi))) as (o & r & [= <- <-] & Hr); tauto|].
    intros Hr. destruct (proj2 He (ex_intro _ oid (ex_intro _ rid (conj eq_refl (proj2 Hh ltac:(tauto)))))) as ([o r] & [= -> ->] & Hi). done.
  - intros oid. rewrite oid_perm, elem_of_elements. subst tables. rewrite !collect_tables_elem, !orb_true_iff.
    unfold IsTableSharedLocked, IsTableExclusiveLocked, IsTableIntentionSharedLocked, IsTableIntentionExclusiveLocked,
      IsTableSharedIntentionExclusiveLocked. rewrite !bool_decide_eq_true. set_solver.
Qed.
End release_correct.

(** ** The latch and the running transactions *)

Section running.
Context {P : Type} `{Pages P} (enable_logging : bool).
Context (oid_order : gset Z -> list Z) (rid_order : gset RID -> list RID) (row_order : gmap Z (gset RID) -> list (Z * gset RID)).
Abbreviation step := (manager_step enable_logging oid_order rid_order row_order).

Record manager_ok (m : TransactionManager) (R : gset Z) : Prop := {
  ok_latch : global_txn_latch_ m = Shared (size R) \/ (global_txn_latch_ m = Exclusive /\ R = ∅);
  ok_next : 0 <= next_txn_id_ m < 2 ^ 31;
  ok_running id : id ∈ R -> id < next_txn_id_ m /\ id ∈ txn_map m /\ exists o, objects_ m !! id = Some o /\ txn_id_ o = id;
}.

Lemma manager_ctor_ok : manager_ok TransactionManager_ctor ∅.
Proof. split; cbn; [by left; rewrite size_empty|lia|]. by intros id []%not_elem_of_empty. Qed.

(** The end of a transaction: its object is written back and the latch is given up. *)
Lemma end_ok m R id o latch :
  manager_ok m R -> id ∈ R -> txn_id_ o = id -> RUnlock (global_txn_latch_ m) = Ret latch ->
  manager_ok (set_latch (put_object m o) latch) (R ∖ {[id]}).
Proof.
  intros Hok Hid Ho Hl. split; cbn.
  - destruct (ok_latch m R Hok) as [E|[E ->]]; [|by apply not_elem_of_empty in Hid]. rewrite E in Hl. left.
    rewrite size_difference by set_solver. rewrite size_singleton. destruct (size R) as [|n]; cbn in Hl; [done|]. injection Hl as <-.
    f_equal. lia.
  - apply (ok_next m R Hok).
  - intros i Hi. destruct (ok_running m R Hok i) as (? & ? & oi & Hoi & ?); [set_solver|]. split_and!; [done|done|].
    destruct (decide (i = txn_id_ o)) as [->|]; [exists o; by rewrite lookup_insert_eq|exists oi; by rewrite lookup_insert_ne].
Qed.

Lemma GetTransaction_running m R id : manager_ok m R -> id ∈ R -> exists o, GetTransaction m id = Ret o /\ txn_id_ o = id.
Proof.
  intros Hok Hid. destruct (ok_running m R Hok id Hid) as (_ & Hm & o & Ho & Hi). exists o. unfold GetTransaction.
  by rewrite bool_decide_true, Ho.
Qed.

Lemma begin_ok m R isolation id m' :
  manager_ok m R -> next_txn_id_ m < 2 ^ 31 - 1 -> Begin m isolation = Ret (id, m') -> id ∉ R /\ manager_ok m' ({[id]} ∪ R).
Proof.
  intros Hok Hn. unfold Begin. destruct (ok_latch m R Hok) as [->|[-> _]]; cbn; [|done]. intros [= <- <-].
  pose proof (ok_next m R Hok). assert (Hf : next_txn_id_ m ∉ R) by (intros Hx; apply (ok_running m R Hok) in Hx; lia).
  split; [done|]. split; cbn.
  - left. rewrite size_union by set_solver. by rewrite size_singleton.
  - rewrite swrap_id by (unfold sfits; lia). lia.
  - intros i [->%elem_of_singleton|Hi]%elem_of_union.
    + rewrite swrap_id by (unfold sfits; lia). split_and!; [lia|set_solver|]. eexists. by rewrite lookup_insert_eq.
    + destruct (ok_running m R Hok i Hi) as (? & ? & o & Ho & ?). rewrite swrap_id by (unfold sfits; lia).
      split_and!; [lia|set_solver|]. exists o. by rewrite lookup_insert_ne by lia.
Qed.

Lemma manager_step_ok x y : step x y -> manager_ok x.1 x.2 -> manager_ok y.1 y.2.
Proof.
  destruct 1 as [m R isolation id m' Hn Hb|m R id o o' Hid Ho Ho'|m R id o fuel p p' m' calls Hid Hg Hc
    |m R id o N fuel p c p' c' m' calls Hid Hg Ha|m R id Hid|m R m' Hb|m R m' Hl Hr]; cbn; intros Hok.
  - by eapply begin_ok.
  - split; cbn; [apply (ok_latch m R Hok)|apply (ok_next m R Hok)|]. intros i Hi. destruct (ok_running m R Hok i Hi) as (? & ? & oi & ? & ?).
    split_and!; [done|done|]. destruct (decide (i = txn_id_ o')) as [->|]; [exists o'; by rewrite lookup_insert_eq|exists oi; by rewrite lookup_insert_ne].
  - destruct (GetTransaction_running m R id Hok Hid) as (o1 & Ho1 & Hi). rewrite Ho1 in Hg. injection Hg as ->. unfold Commit in Hc.
    destruct (TransactionManager_Commit fuel p (work_ o)) as [[p1 t1]| | |]; cbn [obind] in Hc; try done.
    destruct (RUnlock (global_txn_latch_ m)) as [latch| | |] eqn:El; cbn [obind] in Hc; try done. injection Hc as _ <- _. by apply end_ok.
  - destruct (GetTransaction_running m R id Hok Hid) as (o1 & Ho1 & Hi). rewrite Ho1 in Hg. injection Hg as ->. unfold Abort in Ha.
    destruct (TransactionManager_Abort enable_logging fuel p (work_ o)) as [[p1 t1]| | |]; cbn [obind] in Ha; try done.
    destruct (undo_index_writes N fuel p1 c (rev (index_write_set_ o))) as [[p2 c2]| | |]; cbn [obind] in Ha; try done.
    destruct (RUnlock (global_txn_latch_ m)) as [latch| | |] eqn:El; cbn [obind] in Ha; try done. injection Ha as _ _ <- _. by apply end_ok.
  - split; cbn; [apply (ok_latch m R Hok)|apply (ok_next m R Hok)|]. intros i Hi. destruct (ok_running m R Hok i Hi) as (? & ? & o & ? & ?).
    split_and!; [done|done|]. exists o. by rewrite lookup_delete_ne by set_solver.
  - unfold BlockAllTransactions in Hb. destruct (ok_latch m R Hok) as [E|[E _]]; rewrite E in Hb; [|done].
    destruct (size R) eqn:Es; cbn in Hb; [|done]. injection Hb as <-. apply size_empty_inv in Es. split; cbn; [right; split; [done|set_solver]| |];
      apply Hok.
  - unfold ResumeTransactions in Hr. rewrite Hl in Hr. cbn in Hr. injection Hr as <-. destruct (ok_latch m R Hok) as [E|[_ ->]]; [congruence|].
    split; cbn; [left; by rewrite size_empty| |]; apply Hok.
Qed.

Lemma running_ok m R : rtc step (TransactionManager_ctor, ∅) (m, R) -> manager_ok m R.
Proof.
  intros Hs. change (manager_ok (m, R).1 (m, R).2). revert Hs. generalize (m, R) as y. intros y Hs.
  assert (H0 : manager_ok (TransactionManager_ctor, ∅ : gset Z).1 (TransactionManager_ctor, ∅ : gset Z).2) by apply manager_ctor_ok.
  induction Hs as [x|x z y Hx _ IH]; [done|]. apply IH. by eapply manager_step_ok.
Qed.

(** C18: the global latch. In every interleaving of transactions that begin, work, commit and abort, and
    of a checkpoint that blocks and resumes them, the latch is held in shared mode once per running
    transaction, or exclusively while none runs. So a running transaction is found by its id and
    can always give the latch up, blocking succeeds exactly when no transaction runs (and they
    are not blocked already), and a transaction can begin, with an id no running one has,
    exactly when they are not blocked. *)
Theorem latch_counts_running (m : TransactionManager) (R : gset Z) :
  rtc step (TransactionManager_ctor, ∅) (m, R) ->
  (global_txn_latch_ m = Shared (size R) \/ (global_txn_latch_ m = Exclusive /\ R = ∅)) /\
  (forall id, id ∈ R -> exists o latch, GetTransaction m id = Ret o /\ txn_id_ o = id /\ RUnlock (global_txn_latch_ m) = Ret latch) /\
  ((exists m', BlockAllTransactions m = Ret m') <-> R = ∅ /\ global_txn_latch_ m <> Exclusive) /\
  (forall isolation, next_txn_id_ m < 2 ^ 31 - 1 ->
     (global_txn_latch_ m <> Exclusive -> exists id m', Begin m isolation = Ret (id, m') /\ id ∉ R) /\
     (global_txn_latch_ m = Exclusive -> Begin m isolation = Blocked)).
Proof.
  intros Hok%running_ok. pose proof (ok_latch m R Hok) as Hl. split_and!; [done| | |].
  - intros id Hid. destruct (GetTransaction_running m R id Hok Hid) as (o & Ho & Hi).
    destruct Hl as [->|[_ ->]]; [|by apply not_elem_of_empty in Hid].
    destruct (size R) eqn:Es; [apply size_empty_inv in Es; set_solver|]. by exists o, (Shared n).
  - unfold BlockAllTransactions. destruct Hl as [->|[-> ->]]; cbn; [|split; [intros []; done|by intros []]].
    destruct (size R) eqn:Es; cbn.
    + apply size_empty_inv in Es. split; [intros _; split; [set_solver|done]|by eexists].
    + split; [by intros []|]. intros [-> _]. by rewrite size_empty in Es.
  - intros isolation Hn. split; [|unfold Begin; by intros ->]. intros Hx. destruct Hl as [E|[E _]]; [|done].
    destruct (Begin m isolation) as [[id m']| | |] eqn:Eb; unfold Begin in Eb; rewrite E in Eb; cbn in Eb; try done.
    exists id, m'. split; [done|]. eapply begin_ok; [done|done|]. unfold Begin. rewrite E. exact Eb.
Qed.
End running.

(** ** Examples *)

Lemma ReleaseLocks_exact_witness :
  let l := mkLocks {[7]} ∅ {[7]} ∅ ∅ {[3 := {[mkRID 1 2]}]} {[3 := {[mkRID 1 2]}]} in
  exists rows tables,
    ReleaseLocks elements elements map_to_list l = ((fun x => UnlockRow x.1 x.2) <$> rows) ++ (UnlockTable <$> tables) /\
    rows = [(3, mkRID 1 2)] /\ tables = [7].
Proof.
  intros l.
  destruct (ReleaseLocks_exact elements elements map_to_list (fun s => Permutation_refl _) (fun s => Permutation_refl _)
    (fun m => Permutation_refl _) l) as (rows & tables & E & _ & _ & Hr & Ht).
  exists rows, tables. split; [exact E|]. assert (Ec : ReleaseLocks elements elements map_to_list l = [UnlockRow 3 (mkRID 1 2); UnlockTable 7])
    by (vm_compute; reflexivity).
  rewrite Ec in E. destruct rows as [|[o r] [|? rows]], tables as [|t [|? tables]]; try discriminate E.
  cbn in E. injection E as E1 E2 E3. subst. split; reflexivity.
Defined.

Section demo.
Abbreviation step := (manager_step (P := pool) false elements elements map_to_list).

Definition begun : TransactionManager := mkManager 1 {[0]} (Shared 1) {[0 := TransactionObject_ctor 0 REPEATABLE_READ]}.

Lemma begun_reachable : rtc step (TransactionManager_ctor, ∅) (begun, {[0]}).
Proof.
  eapply rtc_l; [eapply (step_begin _ _ _ _ _ _ REPEATABLE_READ 0 begun); [cbn; lia|]|].
  - unfold Begin, begun. cbn. do 3 f_equal; set_solver.
  - rewrite (right_id_L ∅ (∪)). apply rtc_refl.
Qed.

(** While a transaction runs, blocking does not succeed. *)
Lemma latch_counts_running_witness : rtc step (TransactionManager_ctor, ∅) (begun, {[0]}) /\ ~ exists m', BlockAllTransactions begun = Ret m'.
Proof.
  split; [exact begun_reachable|].
  destruct (latch_counts_running (P := pool) false elements elements map_to_list begun {[0]} begun_reachable) as (_ & _ & [Hb _] & _).
  intros Hx. apply Hb in Hx as [Hx _]. apply (f_equal size) in Hx. vm_compute in Hx. discriminate Hx.
Defined.
End demo.

(** A transaction ends and is deleted; the map still has its pointer, which dangles. *)
Lemma ended_transaction_dangles {P : Type} `{Pages P} (p : P) :
  (let* (id, m) := Begin TransactionManager_ctor REPEATABLE_READ in
   let* txn := GetTransaction m id in
   let* (p, m, _) := Commit elements elements map_to_list 0 p m txn in
   GetTransaction (delete_transaction m id) id)%outcome = Crash.
Proof. vm_compute. reflexivity. Qed.
