(* ===== verification/Expressions.v ===== *)
(** * Expressions

    The expression classes of src/include/execution/expressions/: columns,
    constants, integer arithmetic, comparisons and three-valued logic, evaluated
    on a tuple ([Evaluate]) or on a pair of tuples ([EvaluateJoin]). A null [Tuple *]
    is [None]. Overflow of the [int32_t] arithmetic, and a [bool] read from a byte
    other than 0 and 1, are undefined.

    Proved: on a tuple of its schema a well-typed expression evaluates to a
    well-formed value of its return type; it can fail only in an addition or
    subtraction that overflows, or in a comparison of VARCHARs. *)

From Stdlib Require Import String.
From S2P Require Import Prelude.
From S2P Require Import CStd.
From S2P Require Import Value.
From S2P Require Import Types.
From S2P Require Import TypeOps.
From S2P Require Import ValueFactory.
From S2P Require Import Tuple.
Local Open Scope Z_scope.
Local Open Scope bustub_scope.

Inductive ArithmeticType : Type := Plus | Minus.
Inductive ComparisonType : Type := Equal | NotEqual | LessThan | LessThanOrEqual | GreaterThan | GreaterThanOrEqual.
Inductive LogicType : Type := And | Or.

(** [children_] of a binary expression are its two operands. *)
Inductive AbstractExpression : Type :=
| ColumnValueExpression (tuple_idx_ col_idx_ : Z) (ret_type_ : TypeId)
| ConstantValueExpression (val_ : Value)
| ArithmeticExpression (compute_type_ : ArithmeticType) (e1 e2 : AbstractExpression)
| ComparisonExpression (comp_type_ : ComparisonType) (e1 e2 : AbstractExpression)
| LogicExpression (logic_type_ : LogicType) (e1 e2 : AbstractExpression).

Definition GetReturnType (e : AbstractExpression) : TypeId :=
  match e with
  | ColumnValueExpression _ _ ret_type => ret_type
  | ConstantValueExpression val => type_id_ val
  | ArithmeticExpression _ _ _ => INTEGER
  | ComparisonExpression _ _ _ | LogicExpression _ _ _ => BOOLEAN
  end.

Definition ArithmeticExpression_ctor (e1 e2 : AbstractExpression) (compute_type : ArithmeticType)
    : result AbstractExpression :=
  if negb (TypeId_eqb (GetReturnType e1) INTEGER) || negb (TypeId_eqb (GetReturnType e2) INTEGER)
  then Throw NotImplemented else Ok (ArithmeticExpression compute_type e1 e2).

Definition LogicExpression_ctor (e1 e2 : AbstractExpression) (logic_type : LogicType) : result AbstractExpression :=
  if negb (TypeId_eqb (GetReturnType e1) BOOLEAN) || negb (TypeId_eqb (GetReturnType e2) BOOLEAN)
  then Throw NotImplemented else Ok (LogicExpression logic_type e1 e2).

(** ** Operations on values *)

(** A result of [int] arithmetic. *)
Definition int32_result (z : Z) : result Z := if (- 2 ^ 31 <=? z) && (z <? 2 ^ 31) then Ok z else Throw Undefined.

(** [ArithmeticExpression::PerformComputation]: [None] is [std::nullopt]. *)
Definition PerformArithmetic (compute_type : ArithmeticType) (lhs rhs : Value) : result (option Z) :=
  if IsNull lhs || IsNull rhs then Ok None
  else
    let! z :=
      match compute_type with
      | Plus => int32_result (GetAs int32_t lhs + GetAs int32_t rhs)
      | Minus => int32_result (GetAs int32_t lhs - GetAs int32_t rhs)
      end in
    Ok (Some z).

Definition PerformComparison (comp_type : ComparisonType) (lhs rhs : Value) : result CmpBool :=
  match comp_type with
  | Equal => Value_CompareEquals lhs rhs
  | NotEqual => Value_CompareNotEquals lhs rhs
  | LessThan => Value_CompareLessThan lhs rhs
  | LessThanOrEqual => Value_CompareLessThanEquals lhs rhs
  | GreaterThan => Value_CompareGreaterThan lhs rhs
  | GreaterThanOrEqual => Value_CompareGreaterThanEquals lhs rhs
  end.

(** [GetAs<bool>()]: the first byte of the union. *)
Definition GetAs_bool (v : Value) : result bool :=
  match value_ v with
  | IntVal _ | DoubleVal _ =>
      let b := uwrap 8 (raw v) in
      if b =? 0 then Ok false else if b =? 1 then Ok true else Throw Undefined
  | _ => Throw Undefined
  end.

Definition GetBoolAsCmpBool (val : Value) : result CmpBool :=
  if IsNull val then Ok CmpNull
  else let! b := GetAs_bool val in Ok (if b : bool then CmpTrue else CmpFalse).

(** [LogicExpression::PerformComputation] *)
Definition PerformLogic (logic_type : LogicType) (lhs rhs : Value) : result CmpBool :=
  let! l := GetBoolAsCmpBool lhs in
  let! r := GetBoolAsCmpBool rhs in
  Ok (match logic_type with
      | And => if bool_decide (l = CmpFalse) || bool_decide (r = CmpFalse) then CmpFalse
               else if bool_decide (l = CmpTrue) && bool_decide (r = CmpTrue) then CmpTrue else CmpNull
      | Or => if bool_decide (l = CmpFalse) && bool_decide (r = CmpFalse) then CmpFalse
              else if bool_decide (l = CmpTrue) || bool_decide (r = CmpTrue) then CmpTrue else CmpNull
      end).

(** What a binary expression does with the values of its operands. *)
Definition arithmetic_value (compute_type : ArithmeticType) (lhs rhs : Value) : result Value :=
  let! res := PerformArithmetic compute_type lhs rhs in
  match res with
  | None => GetNullValueByType INTEGER
  | Some z => GetIntegerValue z
  end.
Definition comparison_value (comp_type : ComparisonType) (lhs rhs : Value) : result Value :=
  let! c := PerformComparison comp_type lhs rhs in GetBooleanValue_cmp c.
Definition logic_value (logic_type : LogicType) (lhs rhs : Value) : result Value :=
  let! c := PerformLogic logic_type lhs rhs in GetBooleanValue_cmp c.

(** ** Evaluation *)

Definition tuple_value (tuple : option Tuple) (schema : Schema) (col_idx : Z) : result Value :=
  match tuple with
  | Some t => Tuple_GetValue t schema col_idx
  | None => Throw Undefined
  end.

Fixpoint Evaluate (e : AbstractExpression) (tuple : option Tuple) (schema : Schema) : result Value :=
  match e with
  | ColumnValueExpression _ col_idx _ => tuple_value tuple schema col_idx
  | ConstantValueExpression val => Ok val
  | ArithmeticExpression compute_type e1 e2 =>
      let! lhs := Evaluate e1 tuple schema in
      let! rhs := Evaluate e2 tuple schema in arithmetic_value compute_type lhs rhs
  | ComparisonExpression comp_type e1 e2 =>
      let! lhs := Evaluate e1 tuple schema in
      let! rhs := Evaluate e2 tuple schema in comparison_value comp_type lhs rhs
  | LogicExpression logic_type e1 e2 =>
      let! lhs := Evaluate e1 tuple schema in
      let! rhs := Evaluate e2 tuple schema in logic_value logic_type lhs rhs
  end.

Fixpoint EvaluateJoin (e : AbstractExpression) (left_tuple : option Tuple) (left_schema : Schema)
    (right_tuple : option Tuple) (right_schema : Schema) : result Value :=
  match e with
  | ColumnValueExpression tuple_idx col_idx _ =>
      if tuple_idx =? 0 then tuple_value left_tuple left_schema col_idx else tuple_value right_tuple right_schema col_idx
  | ConstantValueExpression val => Ok val
  | ArithmeticExpression compute_type e1 e2 =>
      let! lhs := EvaluateJoin e1 left_tuple left_schema right_tuple right_schema in
      let! rhs := EvaluateJoin e2 left_tuple left_schema right_tuple right_schema in arithmetic_value compute_type lhs rhs
  | ComparisonExpression comp_type e1 e2 =>
      let! lhs := EvaluateJoin e1 left_tuple left_schema right_tuple right_schema in
      let! rhs := EvaluateJoin e2 left_tuple left_schema right_tuple right_schema in comparison_value comp_type lhs rhs
  | LogicExpression logic_type e1 e2 =>
      let! lhs := EvaluateJoin e1 left_tuple left_schema right_tuple right_schema in
      let! rhs := EvaluateJoin e2 left_tuple left_schema right_tuple right_schema in logic_value logic_type lhs rhs
  end.

(** ** Printing *)

(** The [fmt::formatter]s of the operators. *)
Definition ArithmeticType_format (c : ArithmeticType) : list Z := match c with Plus => str "+" | Minus => str "-" end.
Definition ComparisonType_format (c : ComparisonType) : list Z :=
  match c with
  | Equal => str "=" | NotEqual => str "!=" | LessThan => str "<" | LessThanOrEqual => str "<="
  | GreaterThan => str ">" | GreaterThanOrEqual => str ">="
  end.
Definition LogicType_format (c : LogicType) : list Z := match c with And => str "and" | Or => str "or" end.

Fixpoint ToString (e : AbstractExpression) : result (list Z) :=
  match e with
  | ColumnValueExpression tuple_idx col_idx _ => Ok (str "#" ++ to_string tuple_idx ++ str "." ++ to_string col_idx)
  | ConstantValueExpression val => Value_ToString val
  | ArithmeticExpression compute_type e1 e2 =>
      let! s1 := ToString e1 in let! s2 := ToString e2 in
      Ok (str "(" ++ s1 ++ ArithmeticType_format compute_type ++ s2 ++ str ")")
  | ComparisonExpression comp_type e1 e2 =>
      let! s1 := ToString e1 in let! s2 := ToString e2 in
      Ok (str "(" ++ s1 ++ ComparisonType_format comp_type ++ s2 ++ str ")")
  | LogicExpression logic_type e1 e2 =>
      let! s1 := ToString e1 in let! s2 := ToString e2 in
      Ok (str "(" ++ s1 ++ LogicType_format logic_type ++ s2 ++ str ")")
  end.

(** [GetChildren] and [CloneWithChildren]: a copy that has other children; the
    inner expressions of the sources have two. *)
Definition GetChildren (e : AbstractExpression) : list AbstractExpression :=
  match e with
  | ColumnValueExpression _ _ _ | ConstantValueExpression _ => []
  | ArithmeticExpression _ e1 e2 | ComparisonExpression _ e1 e2 | LogicExpression _ e1 e2 => [e1; e2]
  end.
Definition CloneWithChildren (e : AbstractExpression) (children : list AbstractExpression) : result AbstractExpression :=
  match e, children with
  | ColumnValueExpression _ _ _, [] | ConstantValueExpression _, [] => Ok e
  | ArithmeticExpression op _ _, [e1; e2] => Ok (ArithmeticExpression op e1 e2)
  | ComparisonExpression op _ _, [e1; e2] => Ok (ComparisonExpression op e1 e2)
  | LogicExpression op _ _, [e1; e2] => Ok (LogicExpression op e1 e2)
  | _, _ => Throw Undefined
  end.

(** ** Types *)

(** A well-formed value; a BOOLEAN is false, true or NULL. *)
Definition good_value (v : Value) : Prop :=
  wf_value v /\ (type_id_ v = BOOLEAN -> exists c, GetBooleanValue_cmp c = Ok v).

(** Well-typed over columns of the given types. *)
Fixpoint well_typed (types : list TypeId) (e : AbstractExpression) : Prop :=
  match e with
  | ColumnValueExpression _ col_idx ret_type => 0 <= col_idx /\ types !! Z.to_nat col_idx = Some ret_type
  | ConstantValueExpression val => good_value val
  | ArithmeticExpression _ e1 e2 =>
      well_typed types e1 /\ well_typed types e2 /\ GetReturnType e1 = INTEGER /\ GetReturnType e2 = INTEGER
  | ComparisonExpression _ e1 e2 =>
      well_typed types e1 /\ well_typed types e2 /\ GetReturnType e1 = GetReturnType e2
  | LogicExpression _ e1 e2 =>
      well_typed types e1 /\ well_typed types e2 /\ GetReturnType e1 = BOOLEAN /\ GetReturnType e2 = BOOLEAN
  end.

(** The expressions whose evaluation may fail: arithmetic can overflow, and the
    comparison of VARCHARs has assertions on their lengths. *)
Fixpoint may_fail (e : AbstractExpression) : bool :=
  match e with
  | ColumnValueExpression _ _ _ | ConstantValueExpression _ => false
  | ArithmeticExpression _ _ _ => true
  | ComparisonExpression _ e1 e2 => may_fail e1 || may_fail e2 || TypeId_eqb (GetReturnType e1) VARCHAR
  | LogicExpression _ e1 e2 => may_fail e1 || may_fail e2
  end.

Lemma set_int_wf t T z : int_type t = Some T -> wf_value (set_int t (bits T) (- 2 ^ (bits T - 1)) z).
Proof.
  intros Ht. pose proof (swrap_fits (bits T) z (bits_pos T)) as Hz. unfold set_int, wf_value. cbn [type_id_ value_ len_].
  destruct t; inversion Ht; subst T; cbn [bits] in *; done.
Qed.

Lemma cmp_value_good c : exists v, GetBooleanValue_cmp c = Ok v /\ good_value v /\ type_id_ v = BOOLEAN.
Proof. destruct c; eexists; (split; [reflexivity|]); (split; [|done]); (split; [by vm_compute|]); intros _; by eexists. Qed.

Lemma null_integer_good : exists v, GetNullValueByType INTEGER = Ok v /\ good_value v /\ type_id_ v = INTEGER.
Proof. eexists. split; [reflexivity|]. split; [|done]. split; [by vm_compute|done]. Qed.

Lemma integer_good z : exists v, GetIntegerValue z = Ok v /\ good_value v /\ type_id_ v = INTEGER.
Proof.
  eexists. split; [reflexivity|]. split; [|done]. split; [|done]. by apply (set_int_wf INTEGER int32_t).
Qed.

Lemma arithmetic_value_good op lhs rhs :
  match arithmetic_value op lhs rhs with
  | Ok v => good_value v /\ type_id_ v = INTEGER
  | Throw e => e = Undefined
  end.
Proof.
  destruct null_integer_good as (vn & Hn & Hgn). unfold arithmetic_value, PerformArithmetic.
  destruct (IsNull lhs || IsNull rhs); cbn [rbind]; [by rewrite Hn|].
  destruct op; unfold int32_result; (destruct (_ && _); [|done]); cbn [rbind];
    match goal with |- context [GetIntegerValue ?z] => destruct (integer_good z) as (v & -> & Hg) end; done.
Qed.

Lemma compare_same_type op lhs rhs :
  wf_value lhs -> wf_value rhs -> type_id_ lhs = type_id_ rhs -> type_id_ lhs <> VARCHAR ->
  exists c, PerformComparison op lhs rhs = Ok c.
Proof.
  destruct lhs as [t x l], rhs as [t' y l']. cbn [type_id_]. intros Hl Hr <- Hv. unfold wf_value in Hl, Hr. cbn in Hl, Hr.
  destruct t; try done; destruct x; try done; destruct y; try done;
    destruct op; unfold PerformComparison, Value_CompareEquals, Value_CompareNotEquals, Value_CompareLessThan,
      Value_CompareLessThanEquals, Value_CompareGreaterThan, Value_CompareGreaterThanEquals; cbn -[IsNull Z.eqb];
    match goal with |- context [IsNull ?a || IsNull ?b] => destruct (IsNull a || IsNull b) eqn:En end; eauto;
    by eexists.
Qed.

Lemma good_bool v : good_value v -> type_id_ v = BOOLEAN -> exists c, GetBoolAsCmpBool v = Ok c.
Proof. intros [_ Hb] Ht. destruct (Hb Ht) as (c & Hc). destruct c; injection Hc as <-; by eexists. Qed.

Lemma logic_value_good op lhs rhs :
  good_value lhs -> good_value rhs -> type_id_ lhs = BOOLEAN -> type_id_ rhs = BOOLEAN ->
  exists v, logic_value op lhs rhs = Ok v /\ good_value v /\ type_id_ v = BOOLEAN.
Proof.
  intros Hl Hr Tl Tr. destruct (good_bool lhs Hl Tl) as (c & Hc). destruct (good_bool rhs Hr Tr) as (c' & Hc').
  unfold logic_value, PerformLogic. rewrite Hc, Hc'. cbn [rbind].
  match goal with |- context [GetBooleanValue_cmp ?c] => destruct (cmp_value_good c) as (v & -> & Hg) end. by exists v.
Qed.

(** The columns a tuple has the values of. *)
Definition reads (tuple : option Tuple) (s : Schema) (vs : list Value) : Prop :=
  forall i v, 0 <= i -> vs !! Z.to_nat i = Some v -> tuple_value tuple s i = Ok v.

Definition sound (e : AbstractExpression) (r : result Value) : Prop :=
  match r with
  | Ok v => good_value v /\ type_id_ v = GetReturnType e
  | Throw _ => may_fail e = true
  end.

Lemma Evaluate_sound tuple s vs e :
  reads tuple s vs -> Forall good_value vs -> well_typed (type_id_ <$> vs) e -> sound e (Evaluate e tuple s).
Proof.
  intros Hr Hg. induction e as [k i ty|val|op e1 IH1 e2 IH2|op e1 IH1 e2 IH2|op e1 IH1 e2 IH2]; cbn [well_typed Evaluate].
  - intros [Hi Hty]. rewrite list_lookup_fmap in Hty. destruct (vs !! Z.to_nat i) as [v|] eqn:Ev; [|done].
    injection Hty as <-. rewrite (Hr i v Hi Ev). split; [|done]. by apply (Forall_lookup_1 _ _ _ _ Hg Ev).
  - done.
  - intros (H1 & H2 & _). specialize (IH1 H1). specialize (IH2 H2). unfold sound in *. cbn [may_fail].
    destruct (Evaluate e1 tuple s) as [v1|]; [|done]. destruct (Evaluate e2 tuple s) as [v2|]; [|done]. cbn [rbind].
    pose proof (arithmetic_value_good op v1 v2) as HA. by destruct (arithmetic_value op v1 v2).
  - intros (H1 & H2 & Ht). specialize (IH1 H1). specialize (IH2 H2). unfold sound in *. cbn [may_fail GetReturnType].
    destruct (Evaluate e1 tuple s) as [v1|]; [|by rewrite IH1]. destruct (Evaluate e2 tuple s) as [v2|];
      [|by rewrite IH2, orb_true_r]. cbn [rbind]. destruct IH1 as [G1 T1], IH2 as [G2 T2]. unfold comparison_value.
    destruct (decide (type_id_ v1 = VARCHAR)) as [Ev|Ev].
    + destruct (PerformComparison op v1 v2) as [c|]; cbn [rbind].
      * destruct (cmp_value_good c) as (v & -> & Hv). done.
      * rewrite <- T1, Ev. by rewrite orb_true_r.
    + destruct (compare_same_type op v1 v2) as (c & ->); [by apply G1|by apply G2|congruence|done|]. cbn [rbind].
      destruct (cmp_value_good c) as (v & -> & Hv). done.
  - intros (H1 & H2 & T1 & T2). specialize (IH1 H1). specialize (IH2 H2). unfold sound in *. cbn [may_fail GetReturnType].
    destruct (Evaluate e1 tuple s) as [v1|]; [|by rewrite IH1]. destruct (Evaluate e2 tuple s) as [v2|];
      [|by rewrite IH2, orb_true_r]. cbn [rbind]. destruct IH1 as [G1 E1], IH2 as [G2 E2].
    destruct (logic_value_good op v1 v2 G1 G2) as (v & -> & Hv); [congruence|congruence|]. done.
Qed.

(** A tuple built from values has them. *)
Lemma ctor_reads cols vs :
  tuple_values cols vs -> exists t, Tuple_ctor vs (Schema_ctor cols) = Ok t /\ reads (Some t) (Schema_ctor cols) vs.
Proof. intros Hv. destruct (tuple_ctor_ok cols vs Hv) as (t & Ht & _ & Hr). exists t. split; [done|]. exact Hr. Qed.

Lemma values_types cols vs : tuple_values cols vs -> type_id_ <$> vs = column_type_ <$> cols.
Proof.
  intros (_ & Hf & _). induction Hf as [|c v cols vs Hcv _ IH]; [done|]. cbn. f_equal; [|apply IH]. apply Hcv.
Qed.

(** ** Properties *)

(** Type soundness of expressions. On a tuple of a schema, built from
    well-formed values of the columns' types, an expression that is well typed
    for these columns evaluates to a well-formed value of its return type (a
    BOOLEAN being false, true or NULL). An expression without arithmetic and
    without comparisons of VARCHARs always has a value. *)
Theorem Evaluate_type_sound (cols : list Column) (vs : list Value) (e : AbstractExpression) :
  tuple_values cols vs -> Forall good_value vs -> well_typed (column_type_ <$> cols) e ->
  exists t, Tuple_ctor vs (Schema_ctor cols) = Ok t /\
    (forall v, Evaluate e (Some t) (Schema_ctor cols) = Ok v -> good_value v /\ type_id_ v = GetReturnType e) /\
    (may_fail e = false -> exists v, Evaluate e (Some t) (Schema_ctor cols) = Ok v).
Proof.
  intros Hv Hg Hw. destruct (ctor_reads cols vs Hv) as (t & Ht & Hr). exists t. split; [done|].
  rewrite <- (values_types cols vs Hv) in Hw. pose proof (Evaluate_sound (Some t) _ vs e Hr Hg Hw) as Hs.
  unfold sound in Hs. destruct (Evaluate e (Some t) (Schema_ctor cols)) as [v|x].
  - split; [by intros ? [= <-]|by eexists].
  - split; [done|]. by rewrite Hs.
Qed.

(** ** Examples *)

(** [id < 3 and ok], over the columns of [demo_columns]. *)
Definition demo_expr : AbstractExpression :=
  LogicExpression And
    (ComparisonExpression LessThan (ColumnValueExpression 0 0 INTEGER) (ConstantValueExpression (VInt INTEGER 3)))
    (ColumnValueExpression 0 3 BOOLEAN).

Lemma demo_values_good : Forall good_value demo_values.
Proof.
  repeat constructor; try (by vm_compute); try (intros H; discriminate H).
  intros _. by exists CmpTrue.
Qed.

Lemma Evaluate_type_sound_witness :
  exists t v, Tuple_ctor demo_values (Schema_ctor demo_columns) = Ok t /\
    Evaluate demo_expr (Some t) (Schema_ctor demo_columns) = Ok v.
Proof.
  destruct (Evaluate_type_sound demo_columns demo_values demo_expr demo_tuple_values demo_values_good)
    as (t & Ht & _ & Hs).
  - cbn. split_and!; try done; try lia.
  - destruct (Hs eq_refl) as (v & Hv). exists t, v. split; [exact Ht|exact Hv].
Defined.

(** The least [int32_t] is NULL, also as the result of an addition. *)
Lemma arithmetic_least_is_null :
  Evaluate (ArithmeticExpression Plus (ConstantValueExpression (VInt INTEGER (- 2 ^ 31 + 1)))
    (ConstantValueExpression (VInt INTEGER (-1)))) None (Schema_ctor []) = Ok (NullInt INTEGER int32_t).
Proof. vm_compute. reflexivity. Qed.

(** An addition that overflows is undefined, where [Value::Add] throws. *)
Lemma arithmetic_overflow_undefined :
  Evaluate (ArithmeticExpression Plus (ConstantValueExpression (VInt INTEGER (2 ^ 31 - 1)))
    (ConstantValueExpression (VInt INTEGER 1))) None (Schema_ctor []) = Throw Undefined.
Proof. vm_compute. reflexivity. Qed.

(** The demo expression, printed. *)
Lemma ToString_demo : ToString demo_expr = Ok (str "((#0.0<3)and#0.3)").
Proof. vm_compute. reflexivity. Qed.
