(* ===== verification/Plans.v ===== *)
(** * Query plans

    The plan nodes of src/include/execution/plans/ and the schemas inferred for
    them in src/execution/plan_node.cpp. A plan is a tree of nodes; each has the
    schema of the tuples it yields, its children and the members of its class
    ([PlanKind]). Nodes are immutable once they are built, so that a shared pointer
    to one is a value; a null [AbstractExpressionRef] is [None]. *)

From Stdlib Require Import String.
From S2P Require Import Prelude.
From S2P Require Import CStd.
From S2P Require Import Value.
From S2P Require Import Types.
From S2P Require Import Tuple.
From S2P Require Import Expressions.
Local Open Scope Z_scope.
Local Open Scope bustub_scope.

Inductive JoinType : Type := JOIN_INVALID | LEFT | RIGHT | INNER | OUTER.
Inductive OrderByType : Type := ORDER_INVALID | DEFAULT | ASC | DESC.
Inductive AggregationType : Type :=
| CountStarAggregate | CountAggregate | SumAggregate | MinAggregate | MaxAggregate.

#[export] Instance JoinType_eq_dec : EqDecision JoinType.
Proof. solve_decision. Defined.
#[export] Instance OrderByType_eq_dec : EqDecision OrderByType.
Proof. solve_decision. Defined.

(** The classes of plan nodes with their members. *)
Inductive PlanKind : Type :=
| SeqScanPlanNode (table_oid_ : Z) (table_name_ : list Z) (filter_predicate_ : option AbstractExpression)
| IndexScanPlanNode (index_oid_ : Z)
| InsertPlanNode (table_oid_ : Z)
| UpdatePlanNode (table_oid_ : Z) (target_expressions_ : list AbstractExpression)
| DeletePlanNode (table_oid_ : Z)
| AggregationPlanNode (group_bys_ aggregates_ : list AbstractExpression) (agg_types_ : list AggregationType)
| LimitPlanNode (limit_ : Z)
| NestedLoopJoinPlanNode (predicate_ : AbstractExpression) (join_type_ : JoinType)
| NestedIndexJoinPlanNode (key_predicate_ : AbstractExpression) (inner_table_oid_ index_oid_ : Z)
    (index_name_ index_table_name_ : list Z) (inner_table_schema_ : Schema) (join_type_ : JoinType)
| HashJoinPlanNode (left_key_expression_ right_key_expression_ : AbstractExpression) (join_type_ : JoinType)
| FilterPlanNode (predicate_ : AbstractExpression)
| ValuesPlanNode (values_ : list (list AbstractExpression))
| ProjectionPlanNode (expressions_ : list AbstractExpression)
| SortPlanNode (order_bys_ : list (OrderByType * AbstractExpression))
| TopNPlanNode (order_bys_ : list (OrderByType * AbstractExpression)) (n_ : Z)
| MockScanPlanNode (table_ : list Z).

Inductive AbstractPlanNode : Type := PlanNode (output_schema_ : Schema) (children_ : list AbstractPlanNode) (kind : PlanKind).

Definition OutputSchema (plan : AbstractPlanNode) : Schema := let '(PlanNode s _ _) := plan in s.
Definition Plan_GetChildren (plan : AbstractPlanNode) : list AbstractPlanNode := let '(PlanNode _ cs _) := plan in cs.
Definition plan_kind (plan : AbstractPlanNode) : PlanKind := let '(PlanNode _ _ k) := plan in k.
Definition Plan_CloneWithChildren (plan : AbstractPlanNode) (children : list AbstractPlanNode) : AbstractPlanNode :=
  PlanNode (OutputSchema plan) children (plan_kind plan).

(** [GetChildAt]: [children_[i]]. *)
Definition Plan_GetChildAt (plan : AbstractPlanNode) (i : nat) : result AbstractPlanNode :=
  match Plan_GetChildren plan !! i with Some c => Ok c | None => Throw Undefined end.
(** [GetChildPlan] of the nodes that assert to have one child. *)
Definition GetChildPlan (plan : AbstractPlanNode) : result AbstractPlanNode :=
  assert! zlen (Plan_GetChildren plan) =? 1; Plan_GetChildAt plan 0.
(** [GetLeftPlan] and [GetRightPlan] of a hash join. *)
Definition HashJoin_GetPlan (plan : AbstractPlanNode) (i : nat) : result AbstractPlanNode :=
  assert! zlen (Plan_GetChildren plan) =? 2; Plan_GetChildAt plan i.

(** ** Schema inference *)

Definition VARCHAR_DEFAULT_LENGTH : Z := 128.
Definition UNNAMED_COLUMN : list Z := str "<unnamed>".

(** A column of a type, a VARCHAR with the default length. *)
Definition make_column (col_name : list Z) (type_id : TypeId) : result Column :=
  if negb (TypeId_eqb type_id VARCHAR) then Column_fixed col_name type_id
  else Column_var col_name type_id VARCHAR_DEFAULT_LENGTH.

Fixpoint make_columns (cols : list (list Z * TypeId)) : result (list Column) :=
  match cols with
  | [] => Ok []
  | (name, type_id) :: cols => let! c := make_column name type_id in let! cs := make_columns cols in Ok (c :: cs)
  end.

(** [table] is the bound name of the table, [schema] its schema. *)
Definition InferScanSchema (table : list Z) (schema : Schema) : Schema :=
  Schema_ctor ((fun c => Column_rename (table ++ str "." ++ column_name_ c) c) <$> columns_ schema).

Definition InferJoinSchema (l r : AbstractPlanNode) : Schema :=
  Schema_ctor (columns_ (OutputSchema l) ++ columns_ (OutputSchema r)).

Definition InferProjectionSchema (expressions : list AbstractExpression) : result Schema :=
  let! cols := make_columns ((fun e => (UNNAMED_COLUMN, GetReturnType e)) <$> expressions) in Ok (Schema_ctor cols).

Definition RenameSchema (schema : Schema) (col_names : list (list Z)) : result Schema :=
  if negb (zlen col_names =? zlen (columns_ schema)) then Throw EMessage
  else Ok (Schema_ctor (zip_with Column_rename col_names (columns_ schema))).

(** The group-by columns, then an INTEGER for each aggregate. *)
Definition InferAggSchema (group_bys aggregates : list AbstractExpression) (agg_types : list AggregationType)
    : result Schema :=
  let! keys := make_columns ((fun e => (UNNAMED_COLUMN, GetReturnType e)) <$> group_bys) in
  let! aggs := make_columns ((fun _ => (UNNAMED_COLUMN, INTEGER)) <$> aggregates) in
  Ok (Schema_ctor (keys ++ aggs)).

(** ** Induction on plans *)

Section plan_induction.
  Context (P : AbstractPlanNode -> Prop).
  Context (step : forall s cs k, Forall P cs -> P (PlanNode s cs k)).

Fixpoint plan_ind (p : AbstractPlanNode) : P p :=
    let '(PlanNode s cs k) := p in
    step s cs k ((fix go l : Forall P l :=
      match l with [] => Forall_nil_2 _ | c :: l => Forall_cons_2 _ _ _ (plan_ind c) (go l) end) cs).
End plan_induction.

(** The types of a schema's columns. *)
Definition schema_types (s : Schema) : list TypeId := column_type_ <$> columns_ s.

(** A schema of columns the constructor has laid out. *)
Definition wf_schema (s : Schema) : Prop :=
  exists cols, s = Schema_ctor cols /\ Forall column_ok cols /\ fixed_total cols < 2 ^ 31.

Lemma wf_schema_types cols :
  Forall column_ok cols -> fixed_total cols < 2 ^ 31 -> schema_types (Schema_ctor cols) = column_type_ <$> cols.
Proof. intros Hok Hn. rewrite Schema_ctor_spec by (done || lia). apply with_offsets_types. Qed.

Lemma rename_columns_types names cols :
  length names = length cols -> column_type_ <$> zip_with Column_rename names cols = column_type_ <$> cols.
Proof. revert names. induction cols as [|c cs IH]; intros [|n names] [=]; cbn; [done|]. f_equal. by apply IH. Qed.
