(* ===== verification/Bound.v ===== *)
(** * Bound statements

    What the binder hands to the planner: bound expressions
    (src/include/binder/expressions/), table references
    (src/include/binder/table_ref/) and statements (src/include/binder/statement/).
    A [BoundExpression] of no subclass, with type INVALID, stands for an absent clause. *)

From Stdlib Require Import String.
From S2P Require Import Prelude.
From S2P Require Import CStd.
From S2P Require Import StringUtil.
From S2P Require Import Value.
From S2P Require Import Types.
From S2P Require Import Tuple.
From S2P Require Import Plans.
Local Open Scope Z_scope.
Local Open Scope bustub_scope.

Inductive BoundExpression : Type :=
| BoundInvalid
| BoundConstant (val_ : Value)
| BoundColumnRef (col_name_ : list (list Z))
| BoundAggCall (func_name_ : list Z) (is_distinct_ : bool) (args_ : list BoundExpression)
| BoundStar
| BoundUnaryOp (op_name_ : list Z) (arg_ : BoundExpression)
| BoundBinaryOp (op_name_ : list Z) (larg_ rarg_ : BoundExpression)
| BoundAlias (alias_ : list Z) (child_ : BoundExpression).

Definition IsInvalid (e : BoundExpression) : bool := match e with BoundInvalid => true | _ => false end.

Fixpoint HasAggregation (e : BoundExpression) : result bool :=
  match e with
  | BoundInvalid => Throw LogicError
  | BoundConstant _ | BoundColumnRef _ => Ok false
  | BoundAggCall _ _ _ => Ok true
  | BoundStar => Throw EMessage
  | BoundUnaryOp _ arg => HasAggregation arg
  | BoundBinaryOp _ l r => let! b := HasAggregation l in if b : bool then Ok true else HasAggregation r
  | BoundAlias _ child => HasAggregation child
  end.

(** [fmt::join(col_name_, ".")] *)
Definition ColumnRef_ToString (col_name : list (list Z)) : list Z := Join col_name (str ".").

(** [BoundColumnRef::Prepend] *)
Definition Prepend (self : option (list (list Z))) (prefix : list Z) : option (list (list Z)) := (cons prefix) <$> self.

(** The members of [BoundBaseTableRef]. *)
Record BaseTableRef := mkBase {
  bt_table_ : list Z;
  bt_oid_ : Z;
  bt_alias_ : option (list Z);
  bt_schema_ : Schema;
}.
Definition GetBoundTableName (t : BaseTableRef) : list Z := default (bt_table_ t) (bt_alias_ t).

(** Table references and select statements. A common table expression is a
    [BoundSubqueryRef]: a select statement, the names of its columns and its alias. *)
Inductive BoundTableRef : Type :=
| InvalidTableRef
| EmptyTableRef
| BoundBaseTableRef (t : BaseTableRef)
| BoundJoinRef (join_type_ : JoinType) (left_ right_ : BoundTableRef) (condition_ : BoundExpression)
| BoundCrossProductRef (left_ right_ : BoundTableRef)
| BoundExpressionListRef (values_ : list (list BoundExpression)) (identifier_ : list Z)
| BoundSubqueryRef (subquery_ : SelectStatement) (select_list_name_ : list (list (list Z))) (alias_ : list Z)
| BoundCTERef (cte_name_ alias_ : list Z)
with SelectStatement : Type :=
| mkSelect (table_ : BoundTableRef) (select_list_ : list BoundExpression) (where_ : BoundExpression)
    (group_by_ : list BoundExpression) (having_ limit_count_ limit_offset_ : BoundExpression)
    (sort_ : list (OrderByType * BoundExpression)) (ctes_ : list (SelectStatement * list (list (list Z)) * list Z))
    (is_distinct_ : bool).

Abbreviation CTE := (SelectStatement * list (list (list Z)) * list Z)%type.

(** [select_list_] *)
Definition select_list_of (s : SelectStatement) : list BoundExpression := let '(mkSelect _ l _ _ _ _ _ _ _ _) := s in l.

(** [ColumnRef] pointers of an UPDATE may be null. *)
Inductive BoundStatement : Type :=
| SelectStmt (s : SelectStatement)
| InsertStmt (table_ : BaseTableRef) (select_ : SelectStatement)
| DeleteStmt (table_ : BaseTableRef) (expr_ : BoundExpression)
| UpdateStmt (table_ : BaseTableRef) (filter_expr_ : BoundExpression)
    (target_expr_ : list (option (list (list Z)) * BoundExpression))
| CreateStmt (table_ : list Z) (columns_ : list Column)
| IndexStmt (index_name_ : list Z) (table_ : BaseTableRef) (cols_ : list (list (list Z)))
| ExplainStmt (statement_ : BoundStatement) (options_ : Z)
| VariableSetStmt (variable_ value_ : list Z)
| VariableShowStmt (variable_ : list Z).
