(* ===== verification/Binder.v ===== *)
(** * The binder

    [Binder] (src/binder/): from the parse tree to bound statements. The parse tree
    comes from libpg_query; its nodes are given here as far as the binder reads them
    (third_party/libpg_query/include/nodes/parsenodes.hpp), a null pointer as [None]
    and a list that may be null as an option. A node of any other type is an [Other].

    The binder's state is the counter of unnamed things; [scope_] and [cte_scope_] are
    set under a [ContextGuard], which restores them, so that they are arguments here. *)

From Stdlib Require Import String.
From S2P Require Import Prelude.
From S2P Require Import CStd.
From S2P Require Import StringUtil.
From S2P Require Import Value.
From S2P Require Import Types.
From S2P Require Import ValueFactory.
From S2P Require Import Tuple.
From S2P Require Import Catalog.
From S2P Require Import Plans.
From S2P Require Import Bound.
Local Open Scope Z_scope.
Local Open Scope bustub_scope.

(** ** The parse tree *)

Inductive PGValue : Type := PGInteger (ival : Z) | PGString (s : list Z) | PGNull | PGOtherValue.
(** A field of a column reference; a star may name a relation. *)
Inductive PGField : Type := FieldString (s : list Z) | FieldStar (relation : option (list Z)) | FieldOther.
Inductive PGBoolExprType : Type := PG_AND_EXPR | PG_OR_EXPR | PG_NOT_EXPR.
Inductive PGSortByDir : Type := PG_SORTBY_DEFAULT | PG_SORTBY_ASC | PG_SORTBY_DESC | PG_SORTBY_OTHER.
Inductive PGJoinType : Type := PG_JOIN_INNER | PG_JOIN_LEFT | PG_JOIN_FULL | PG_JOIN_RIGHT | PG_JOIN_OTHER.

Inductive PGExpr : Type :=
| PGColumnRef (fields : list PGField)
| PGAConst (val : PGValue)
| PGResTarget (name : option (list Z)) (val : PGExpr)
| PGAStar
| PGFuncCall (funcname : list Z) (args : list PGExpr) (agg_distinct : bool)
| PGAExpr (kind_is_op : bool) (name : list Z) (lexpr rexpr : option PGExpr)
| PGBoolExpr (boolop : PGBoolExprType) (args : list PGExpr)
| PGOtherExpr.

(** A sort item, [None] when it is not a [PGSortBy]. *)
Abbreviation PGSortBy := (option (PGSortByDir * PGExpr)).

Inductive PGTableRef : Type :=
| PGRangeVar (relname : list Z) (alias : option (list Z))
| PGJoinExpr (jointype : PGJoinType) (larg rarg : PGTableRef) (quals : option PGExpr)
| PGRangeSubselect (lateral : bool) (subquery : PGSelectStmt) (alias : option (list Z))
| PGOtherTable
with PGSelectStmt : Type :=
| mkPGSelect
    (distinctClause : option bool)                  (* whether there is a DISTINCT ON list *)
    (targetList : option (list PGExpr))
    (fromClause : option (list PGTableRef))
    (whereClause : option PGExpr)
    (groupClause : option (list PGExpr))
    (havingClause : option PGExpr)
    (valuesLists : option (list (list PGExpr)))
    (sortClause : option (list PGSortBy))
    (limitOffset limitCount : option PGExpr)
    (withClause : option (bool * list (list Z * bool * option PGSelectStmt))).

Abbreviation PGCommonTableExpr := (list Z * bool * option PGSelectStmt)%type.

(** An element of CREATE TABLE; [typmods] are the arguments of the type. *)
Inductive PGTableElt : Type :=
| PGColumnDef (colname : option (list Z)) (has_coll : bool) (type_name : list Z) (typmods : option (list PGExpr)) (has_constraints : bool)
| PGConstraint
| PGOtherElt.

Inductive PGStmt : Type :=
| PGRawStmt (stmt : PGStmt)
| PGCreateStmt (relname : list Z) (tableElts : list PGTableElt)
| PGInsertStmt (has_cols : bool) (relname : list Z) (selectStmt : PGSelectStmt)
| PGSelect (stmt : PGSelectStmt)
| PGExplainStmt (query : PGStmt) (options : option (list (list Z)))
| PGDeleteStmt (relname : list Z) (whereClause : option PGExpr)
| PGUpdateStmt (has_with has_from : bool) (relname : list Z) (whereClause : option PGExpr) (targetList : list (list Z * PGExpr))
| PGIndexStmt (idxname relname : list Z) (indexParams : list (option (list Z)))
| PGVariableSetStmt (name : list Z) (args : option (list PGExpr))
| PGVariableShowStmt (name : list Z)
| PGOtherStmt.

(** ** Name resolution *)

(** A [CTEList] pointer. *)
Abbreviation CTEScope := (option (list CTE)).

(** The loop over candidates that throws at the second match. *)
Fixpoint resolve_loop {A B} (matches : A -> bool) (make : A -> B) (l : list A) (column_ref : option B) : result (option B) :=
  match l with
  | [] => Ok column_ref
  | a :: l =>
      if matches a then
        match column_ref with Some _ => Throw EMessage | None => resolve_loop matches make l (Some (make a)) end
      else resolve_loop matches make l column_ref
  end.

Definition ResolveColumnRefFromSchema (schema : Schema) (col_name : list (list Z)) : result (option (list (list Z))) :=
  match col_name with
  | [name] => resolve_loop (fun c => bool_decide (Lower (column_name_ c) = name)) (fun c => [column_name_ c]) (columns_ schema) None
  | _ => Ok None
  end.

(** The result of resolving a name as it is and without the prefix that names the table. *)
Definition direct_or_stripped (direct stripped : option (list (list Z))) : result (option (list (list Z))) :=
  match stripped, direct with
  | Some _, Some _ => Throw EMessage
  | Some s, None => Ok (Some s)
  | None, d => Ok d
  end.
(** [f] on the name without its first part, when that is [prefix] and not all of the name. *)
Definition strip_and_resolve (prefix : list Z) (f : list (list Z) -> result (option (list (list Z)))) (col_name : list (list Z))
    : result (option (list (list Z))) :=
  match col_name with
  | p :: _ :: _ => if bool_decide (p = prefix) then f (tail col_name) else Ok None
  | _ => Ok None
  end.

Definition ResolveColumnRefFromBaseTableRef (t : BaseTableRef) (col_name : list (list Z)) : result (option (list (list Z))) :=
  let bound_table_name := GetBoundTableName t in
  let! direct := ResolveColumnRefFromSchema (bt_schema_ t) col_name in
  let! stripped := strip_and_resolve bound_table_name (ResolveColumnRefFromSchema (bt_schema_ t)) col_name in
  direct_or_stripped (Prepend direct bound_table_name) (Prepend stripped bound_table_name).

Definition MatchSuffix (suffix full_name : list (list Z)) : bool :=
  let lowercase_full_name := Lower <$> full_name in
  if (length lowercase_full_name <? length suffix)%nat then false
  else bool_decide (reverse suffix = take (length suffix) (reverse lowercase_full_name)).

Definition ResolveColumnRefFromSelectList (select_list : list (list (list Z))) (col_name : list (list Z))
    : result (option (list (list Z))) :=
  resolve_loop (MatchSuffix col_name) id select_list None.

(** [subquery_ref] is given by its select list and its own alias. *)
Definition ResolveColumnRefFromSubqueryRef (select_list_name : list (list (list Z))) (subquery_alias alias : list Z)
    (col_name : list (list Z)) : result (option (list (list Z))) :=
  let! direct := ResolveColumnRefFromSelectList select_list_name col_name in
  let! stripped := strip_and_resolve alias (ResolveColumnRefFromSelectList select_list_name) col_name in
  direct_or_stripped (Prepend direct subquery_alias) (Prepend stripped subquery_alias).

Fixpoint find_cte_ref (cte_name : list Z) (l : list CTE) : option CTE :=
  match l with
  | [] => None
  | c :: l => if bool_decide (cte_name = c.2) then Some c else find_cte_ref cte_name l
  end.
(** The common table expression of a [BoundCTERef]. *)
Definition the_cte (ctes : CTEScope) (cte_name : list Z) : result CTE :=
  match ctes with
  | None => Throw Undefined
  | Some l => match find_cte_ref cte_name l with Some c => Ok c | None => Throw LogicError end
  end.

(** Computations with the counter [universal_id_]. *)
Definition binding (A : Type) : Type := Z -> result (A * Z).
Definition bret {A} (a : A) : binding A := fun id => Ok (a, id).
Definition blift {A} (r : result A) : binding A := fun id => let! a := r in Ok (a, id).
Definition bbind {A B} (f : A -> binding B) (m : binding A) : binding B := fun id => let! (a, id) := m id in f a id.
(** [universal_id_++], printed after a prefix. *)
Definition fresh (prefix : string) : binding (list Z) := fun id => Ok (str prefix ++ to_string id, uwrap 64 (id + 1)).
Declare Scope binder_scope.
Notation "'let$' x := c 'in' k" := (bbind (fun x => k) c)
  (at level 10, x pattern, c at level 100, k at level 200) : binder_scope.
Local Open Scope binder_scope.

Section binder.
Context (catalog_ : Catalog).

Section scopes.
Context (cte_scope_ : CTEScope).

Fixpoint ResolveColumnInternal (table_ref : BoundTableRef) (col_name : list (list Z)) : result (option (list (list Z))) :=
  match table_ref with
  | BoundBaseTableRef t => ResolveColumnRefFromBaseTableRef t col_name
  | BoundCrossProductRef l r | BoundJoinRef _ l r _ =>
      let! left_column := ResolveColumnInternal l col_name in
      let! right_column := ResolveColumnInternal r col_name in
      match left_column, right_column with
      | Some _, Some _ => Throw EMessage
      | Some c, None => Ok (Some c)
      | None, c => Ok c
      end
  | BoundSubqueryRef _ names alias => ResolveColumnRefFromSubqueryRef names alias alias col_name
  | BoundCTERef cte_name alias =>
      let! (_, names, cte_alias) := the_cte cte_scope_ cte_name in
      ResolveColumnRefFromSubqueryRef names cte_alias alias col_name
  | InvalidTableRef | EmptyTableRef | BoundExpressionListRef _ _ => Throw EMessage
  end.

Definition ResolveColumn (scope : BoundTableRef) (col_name : list (list Z)) : result (list (list Z)) :=
  assert! match scope with InvalidTableRef => false | _ => true end;
  let! expr := ResolveColumnInternal scope col_name in
  match expr with None => Throw EMessage | Some c => Ok c end.

(** The names of the columns a star stands for. *)
Fixpoint GetAllColumns (scope : BoundTableRef) : result (list (list (list Z))) :=
  match scope with
  | BoundBaseTableRef t => Ok ((fun c => [GetBoundTableName t; column_name_ c]) <$> columns_ (bt_schema_ t))
  | BoundCrossProductRef l r | BoundJoinRef _ l r _ =>
      let! columns := GetAllColumns l in
      let! append_columns := GetAllColumns r in
      Ok (columns ++ append_columns)
  | BoundSubqueryRef _ names alias => Ok ((cons alias) <$> names)
  | BoundCTERef cte_name alias =>
      let! (_, names, cte_alias) := the_cte cte_scope_ cte_name in
      Ok ((fun c => <[0%nat := alias]> c) <$> ((cons cte_alias) <$> names))
  | InvalidTableRef | EmptyTableRef | BoundExpressionListRef _ _ => Throw EMessage
  end.
End scopes.

(** ** Expressions *)

Section expressions.
Context (scope_ : option BoundTableRef) (cte_scope_ : CTEScope).

Definition BindConstant (val : PGValue) : result BoundExpression :=
  match val with
  | PGInteger ival =>
      if ival <=? 2 ^ 31 - 1 then let! v := GetIntegerValue (swrap 32 ival) in Ok (BoundConstant v) else Throw LogicError
  | PGString s => let! v := GetVarcharValue s in Ok (BoundConstant v)
  | PGNull => let! v := GetNullValueByType INTEGER in Ok (BoundConstant v)
  | PGOtherValue => Throw EMessage
  end.

(** The string of each field; a field that is no string is read as one. *)
Fixpoint field_strings (fields : list PGField) : result (list (list Z)) :=
  match fields with
  | [] => Ok []
  | FieldString s :: fields => let! l := field_strings fields in Ok (s :: l)
  | _ => Throw Undefined
  end.

Definition BindColumnRef (fields : list PGField) : result BoundExpression :=
  match fields with
  | [] => Throw Undefined
  | FieldString _ :: _ =>
      let! column_names := field_strings fields in
      match scope_ with
      | None => Throw Undefined
      | Some scope => let! c := ResolveColumn cte_scope_ scope column_names in Ok (BoundColumnRef c)
      end
  | FieldStar _ :: _ => Ok BoundStar
  | FieldOther :: _ => Throw EMessage
  end.

Definition is_agg_name (function_name : list Z) : bool :=
  existsb (fun n => bool_decide (function_name = str n)) ["min"; "max"; "first"; "last"; "sum"; "count"]%string.

Definition make_func_call (funcname : list Z) (children : list BoundExpression) (agg_distinct : bool) : result BoundExpression :=
  let function_name := Lower funcname in
  if is_agg_name function_name then
    let function_name :=
      if bool_decide (function_name = str "count") && bool_decide (children = []) then str "count_star" else function_name in
    Ok (BoundAggCall function_name agg_distinct children)
  else Throw EMessage.

Definition make_a_expr (name : list Z) (left_expr right_expr : option BoundExpression) : result BoundExpression :=
  match left_expr, right_expr with
  | Some l, Some r => Ok (BoundBinaryOp name l r)
  | None, Some r => Ok (BoundUnaryOp name r)
  | _, None => Throw EMessage
  end.

Definition IsStar (e : BoundExpression) : bool := match e with BoundStar => true | _ => false end.

(** The expressions of a list, without stars. *)
Definition bind_all (BindExpression : PGExpr -> result BoundExpression) : list PGExpr -> result (list BoundExpression) :=
  fix go l :=
    match l with
    | [] => Ok []
    | e :: l =>
        let! expr := BindExpression e in
        if IsStar expr then Throw EMessage else let! exprs := go l in Ok (expr :: exprs)
    end.
(** The arguments of a call, which may be stars. *)
Definition bind_args (BindExpression : PGExpr -> result BoundExpression) : list PGExpr -> result (list BoundExpression) :=
  fix go l := match l with [] => Ok [] | e :: l => let! expr := BindExpression e in let! exprs := go l in Ok (expr :: exprs) end.

Definition make_bool_expr (boolop : PGBoolExprType) (exprs : list BoundExpression) : result BoundExpression :=
  match boolop with
  | PG_AND_EXPR | PG_OR_EXPR =>
      match exprs with
      | e0 :: e1 :: exprs => Ok (foldl (fun expr e => BoundBinaryOp (str "and") expr e) (BoundBinaryOp (str "and") e0 e1) exprs)
      | _ => Throw EMessage
      end
  | PG_NOT_EXPR => match exprs with [e] => Ok (BoundUnaryOp (str "not") e) | _ => Throw EMessage end
  end.

Fixpoint BindExpression (node : PGExpr) : result BoundExpression :=
  match node with
  | PGColumnRef fields => BindColumnRef fields
  | PGAConst val => BindConstant val
  | PGResTarget name val =>
      let! expr := BindExpression val in
      Ok (match name with Some name => BoundAlias name expr | None => expr end)
  | PGAStar => Ok BoundStar
  | PGFuncCall funcname args agg_distinct =>
      let! children := bind_args BindExpression args in make_func_call funcname children agg_distinct
  | PGAExpr kind_is_op name lexpr rexpr =>
      if negb kind_is_op then Throw EMessage
      else
        let! left_expr := (match lexpr with Some e => let! e := BindExpression e in Ok (Some e) | None => Ok None end) in
        let! right_expr := (match rexpr with Some e => let! e := BindExpression e in Ok (Some e) | None => Ok None end) in
        make_a_expr name left_expr right_expr
  | PGBoolExpr boolop args => let! exprs := bind_all BindExpression args in make_bool_expr boolop exprs
  | PGOtherExpr => Throw EMessage
  end.
Definition BindExpressionList : list PGExpr -> result (list BoundExpression) := bind_all BindExpression.

(** The loop of [BindSelectList] with the list so far and whether it comes from a star. *)
Fixpoint select_list_loop (l : list PGExpr) (select_list : list BoundExpression) (is_select_star : bool)
    : result (list BoundExpression) :=
  match l with
  | [] => Ok select_list
  | target :: l =>
      let! expr := BindExpression target in
      if IsStar expr then
        if negb (bool_decide (select_list = [])) then Throw EMessage
        else
          match scope_ with
          | None => Throw Undefined
          | Some scope => let! columns := GetAllColumns cte_scope_ scope in select_list_loop l (BoundColumnRef <$> columns) true
          end
      else if is_select_star then Throw EMessage else select_list_loop l (select_list ++ [expr]) false
  end.
Definition BindSelectList (l : list PGExpr) : result (list BoundExpression) := select_list_loop l [] false.

Fixpoint BindSort (l : list PGSortBy) : result (list (OrderByType * BoundExpression)) :=
  match l with
  | [] => Ok []
  | None :: _ => Throw NotImplemented
  | Some (dir, target) :: l =>
      let! type := (match dir with
                    | PG_SORTBY_DEFAULT => Ok DEFAULT | PG_SORTBY_ASC => Ok ASC | PG_SORTBY_DESC => Ok DESC
                    | PG_SORTBY_OTHER => Throw NotImplemented end) in
      let! expr := BindExpression target in
      let! order_by := BindSort l in Ok ((type, expr) :: order_by)
  end.

(** A clause that may be absent. *)
Definition bind_clause (clause : option PGExpr) : result BoundExpression :=
  match clause with Some e => BindExpression e | None => Ok BoundInvalid end.

Fixpoint bind_values (lists : list (list PGExpr)) (all_values : list (list BoundExpression)) : result (list (list BoundExpression)) :=
  match lists with
  | [] => Ok all_values
  | target :: lists =>
      let! values := BindExpressionList target in
      match all_values with
      | first :: _ => if negb (length first =? length values)%nat then Throw EMessage else bind_values lists (all_values ++ [values])
      | [] => bind_values lists [values]
      end
  end.
Definition BindValuesList (lists : list (list PGExpr)) : result (list (list BoundExpression)) :=
  let! all_values := bind_values lists [] in
  match all_values with [] => Throw EMessage | _ => Ok all_values end.
End expressions.

(** ** Statements *)

Definition BindBaseTableRef (table_name : list Z) (alias : option (list Z)) : result BaseTableRef :=
  let! table_info := GetTable_name catalog_ table_name in
  match table_info with
  | None => Throw EMessage
  | Some info => Ok (mkBase table_name (ti_oid_ info) alias (ti_schema_ info))
  end.

Definition BindRangeVar (cte_scope_ : CTEScope) (relname : list Z) (alias : option (list Z)) : result BoundTableRef :=
  match cte_scope_ ≫= find_cte_ref relname with
  | Some cte => Ok (BoundCTERef cte.2 (default relname alias))
  | None => let! t := BindBaseTableRef relname alias in Ok (BoundBaseTableRef t)
  end.

Definition BindJoinType (t : PGJoinType) : result JoinType :=
  match t with
  | PG_JOIN_INNER => Ok INNER | PG_JOIN_LEFT => Ok LEFT | PG_JOIN_FULL => Ok OUTER | PG_JOIN_RIGHT => Ok RIGHT
  | PG_JOIN_OTHER => Throw EMessage
  end.

(** The names [BindSubquery] gives to the columns of a select list. *)
Fixpoint subquery_names (select_list : list BoundExpression) : binding (list (list (list Z))) :=
  match select_list with
  | [] => bret []
  | col :: select_list =>
      let$ name := (match col with
                    | BoundColumnRef name => bret name
                    | BoundAlias alias _ => bret [alias]
                    | _ => let$ n := fresh "__item#" in bret [n]
                    end) in
      let$ names := subquery_names select_list in
      bret (name :: names)
  end.

Definition bind_each {A B} (f : A -> binding B) : list A -> binding (list B) :=
  fix go l := match l with [] => bret [] | a :: l => let$ b := f a in let$ bs := go l in bret (b :: bs) end.

(** [select ... from] a VALUES list. *)
Definition bind_values_select (lists : list (list PGExpr)) (cte_scope_ : CTEScope) : binding SelectStatement :=
  let$ values_list_name := fresh "__values#" in
  let$ values := blift (BindValuesList None cte_scope_ lists) in
  let exprs := (fun i => BoundColumnRef [values_list_name; to_string (Z.of_nat i)]) <$> seq 0 (length (default [] (head values))) in
  bret (mkSelect (BoundExpressionListRef values values_list_name) exprs BoundInvalid [] BoundInvalid BoundInvalid BoundInvalid [] [] false).

(** The clauses of a SELECT in the scope of its FROM clause. *)
Definition bind_clauses (distinct : option bool) (targets : option (list PGExpr)) (where_ : option PGExpr)
    (group : option (list PGExpr)) (having : option PGExpr) (sort : option (list PGSortBy)) (offset count : option PGExpr)
    (ctes : list CTE) (cte_scope_ : CTEScope) (table : BoundTableRef) : result SelectStatement :=
  let scope_ := Some table in
  let! is_distinct := (match distinct with Some true => Throw NotImplemented | Some false => Ok true | None => Ok false end) in
  match targets with
  | None => Throw EMessage
  | Some targets =>
      let! select_list := BindSelectList scope_ cte_scope_ targets in
      let! where_ := bind_clause scope_ cte_scope_ where_ in
      let! group_by := (match group with Some l => BindExpressionList scope_ cte_scope_ l | None => Ok [] end) in
      let! having := bind_clause scope_ cte_scope_ having in
      let! limit_count := bind_clause scope_ cte_scope_ count in
      let! limit_offset := bind_clause scope_ cte_scope_ offset in
      let! sort := (match sort with Some l => BindSort scope_ cte_scope_ l | None => Ok [] end) in
      Ok (mkSelect table select_list where_ group_by having limit_count limit_offset sort ctes is_distinct)
  end.

(** [BindSubquery] with the binding of its SELECT. *)
Definition BindSubquery (select : binding SelectStatement) (alias : list Z) : binding CTE :=
  let$ subquery := select in
  let$ names := subquery_names (select_list_of subquery) in
  bret (subquery, names, alias).

(** [BindCTE], where [bind] is [BindSelect]. *)
Definition BindCTE (bind : PGSelectStmt -> binding SelectStatement) (recursive : bool) : list PGCommonTableExpr -> binding (list CTE) :=
  bind_each (fun cte =>
    let '(ctename, cterecursive, ctequery) := cte in
    match ctequery with
    | None => blift (Throw EMessage)
    | Some query => if cterecursive || recursive then blift (Throw NotImplemented) else BindSubquery (bind query) ctename
    end).

(** [BindJoin] with the bindings of its two sides. *)
Definition BindJoin (cte_scope_ : CTEScope) (jointype : PGJoinType) (larg rarg : binding BoundTableRef) (quals : option PGExpr)
    : binding BoundTableRef :=
  let$ join_type := blift (BindJoinType jointype) in
  let$ left_table := larg in
  let$ right_table := rarg in
  let scope := BoundJoinRef join_type left_table right_table BoundInvalid in
  let$ condition := blift (match quals with Some e => BindExpression (Some scope) cte_scope_ e | None => Throw AssertFailed end) in
  bret (BoundJoinRef join_type left_table right_table condition).

(** [BindFrom] with its tables bound. *)
Definition BindFrom (tables : list BoundTableRef) : result BoundTableRef :=
  match tables with
  | [] => Throw Undefined
  | t :: tables => Ok (foldl BoundCrossProductRef t tables)
  end.

Fixpoint BindTableRef (cte_scope_ : CTEScope) (node : PGTableRef) : binding BoundTableRef :=
  match node with
  | PGRangeVar relname alias => blift (BindRangeVar cte_scope_ relname alias)
  | PGJoinExpr jointype larg rarg quals =>
      BindJoin cte_scope_ jointype (BindTableRef cte_scope_ larg) (BindTableRef cte_scope_ rarg) quals
  | PGRangeSubselect lateral subquery alias =>
      if lateral : bool then blift (Throw NotImplemented)
      else
        let$ alias := (match alias with Some alias => bret alias | None => fresh "__subquery#" end) in
        let$ (subquery, names, alias) := BindSubquery (BindSelect cte_scope_ subquery) alias in
        bret (BoundSubqueryRef subquery names alias)
  | PGOtherTable => blift (Throw EMessage)
  end
with BindSelect (cte_scope_ : CTEScope) (pg_stmt : PGSelectStmt) : binding SelectStatement :=
  let '(mkPGSelect distinct targets from where_ group having values sort offset count with_) := pg_stmt in
  match values with
  | Some lists => bind_values_select lists cte_scope_
  | None =>
      let$ ctes := (match with_ with None => bret [] | Some (recursive, l) => BindCTE (BindSelect cte_scope_) recursive l end) in
      let cte_scope_ := match with_ with None => cte_scope_ | Some _ => Some ctes end in
      let$ table := (match from with
                     | None => bret EmptyTableRef
                     | Some l => let$ tables := bind_each (BindTableRef cte_scope_) l in blift (BindFrom tables)
                     end) in
      blift (bind_clauses distinct targets where_ group having sort offset count ctes cte_scope_ table)
  end.

Definition BindInsert (has_cols : bool) (relname : list Z) (selectStmt : PGSelectStmt) : binding BoundStatement :=
  if has_cols then blift (Throw NotImplemented)
  else
    let$ table := blift (BindBaseTableRef relname None) in
    let$ internal := blift (StartsWith (bt_table_ table) (str "__")) in
    if internal : bool then blift (Throw EMessage)
    else let$ select := BindSelect None selectStmt in bret (InsertStmt table select).

(** The condition of a DELETE or an UPDATE, [true] when there is none. *)
Definition bind_condition (table : BaseTableRef) (whereClause : option PGExpr) : result BoundExpression :=
  match whereClause with
  | Some e => BindExpression (Some (BoundBaseTableRef table)) None e
  | None => let! v := GetBooleanValue_bool true in Ok (BoundConstant v)
  end.

Definition BindDelete (relname : list Z) (whereClause : option PGExpr) : result BoundStatement :=
  let! table := BindBaseTableRef relname None in
  let! expr := bind_condition table whereClause in
  Ok (DeleteStmt table expr).

Fixpoint bind_targets (table : BaseTableRef) (targetList : list (list Z * PGExpr))
    : result (list (option (list (list Z)) * BoundExpression)) :=
  match targetList with
  | [] => Ok []
  | (name, val) :: targetList =>
      let! column := ResolveColumnRefFromBaseTableRef table [name] in
      let! expr := BindExpression (Some (BoundBaseTableRef table)) None val in
      let! rest := bind_targets table targetList in
      Ok ((column, expr) :: rest)
  end.
Definition BindUpdate (has_with has_from : bool) (relname : list Z) (whereClause : option PGExpr) (targetList : list (list Z * PGExpr))
    : result BoundStatement :=
  if has_with then Throw NotImplemented
  else if has_from then Throw NotImplemented
  else
    let! table := BindBaseTableRef relname None in
    let! filter_expr := bind_condition table whereClause in
    let! target_expr := bind_targets table targetList in
    Ok (UpdateStmt table filter_expr target_expr).

(** A cast of a reference to the wrong class throws [std::bad_cast]. *)
Definition BindColumnDefinition (colname : option (list Z)) (has_coll : bool) (name : list Z) (typmods : option (list PGExpr))
    : result Column :=
  let colname := default [] colname in
  if has_coll then Throw NotImplemented
  else if bool_decide (name = str "int4") then Column_fixed colname INTEGER
  else if bool_decide (name = str "varchar") then
    match typmods with
    | None => Throw Undefined
    | Some l =>
        let! exprs := BindExpressionList None None l in
        match exprs with
        | [BoundConstant val] =>
            let! s := Value_ToString val in
            let! n := stoi s in
            Column_var colname VARCHAR (uwrap 32 n)
        | [_] => Throw LogicError
        | _ => Throw EMessage
        end
    end
  else Throw NotImplemented.

Fixpoint bind_elements (l : list PGTableElt) : result (list Column) :=
  match l with
  | [] => Ok []
  | PGColumnDef colname has_coll name typmods has_constraints :: l =>
      let! c := BindColumnDefinition colname has_coll name typmods in
      if has_constraints : bool then Throw NotImplemented else let! cs := bind_elements l in Ok (c :: cs)
  | _ => Throw NotImplemented
  end.
Definition BindCreate (relname : list Z) (tableElts : list PGTableElt) : result BoundStatement :=
  let! columns := bind_elements tableElts in
  match columns with [] => Throw EMessage | _ => Ok (CreateStmt relname columns) end.

Fixpoint bind_index_params (table : BaseTableRef) (params : list (option (list Z))) : result (list (list (list Z))) :=
  match params with
  | [] => Ok []
  | None :: _ => Throw NotImplemented
  | Some name :: params =>
      let! c := ResolveColumn None (BoundBaseTableRef table) [name] in
      let! cs := bind_index_params table params in Ok (c :: cs)
  end.
Definition BindIndex (idxname relname : list Z) (indexParams : list (option (list Z))) : result BoundStatement :=
  let! table := BindBaseTableRef relname None in
  let! cols := bind_index_params table indexParams in
  Ok (IndexStmt idxname table cols).

Definition BindVariableSet (name : list Z) (args : option (list PGExpr)) : result BoundStatement :=
  match args with
  | None => Throw Undefined
  | Some l =>
      let! exprs := BindExpressionList None None l in
      match exprs with
      | [BoundConstant val] => let! s := Value_ToString val in Ok (VariableSetStmt name s)
      | _ => Throw NotImplemented
      end
  end.

(** [ExplainOptions]: BINDER, PLANNER, OPTIMIZER and SCHEMA. *)
Definition explain_option (defname : list Z) : Z :=
  let named n := bool_decide (defname = str n) in
  Z.lor (if named "planner"%string || named "p"%string then 2 else 0)
    (Z.lor (if named "binder"%string || named "b"%string then 1 else 0)
      (Z.lor (if named "optimizer"%string || named "o"%string then 4 else 0)
        (if named "schema"%string || named "s"%string then 8 else 0))).
Definition explain_options (options : option (list (list Z))) : Z :=
  match options with
  | None => 15
  | Some l => foldl (fun acc defname => Z.lor acc (explain_option defname)) 0 l
  end.

Fixpoint BindStatement (stmt : PGStmt) : binding BoundStatement :=
  match stmt with
  | PGRawStmt stmt => BindStatement stmt
  | PGCreateStmt relname elts => blift (BindCreate relname elts)
  | PGInsertStmt has_cols relname select => BindInsert has_cols relname select
  | PGSelect s => let$ s := BindSelect None s in bret (SelectStmt s)
  | PGExplainStmt query options => let$ s := BindStatement query in bret (ExplainStmt s (explain_options options))
  | PGDeleteStmt relname where_ => blift (BindDelete relname where_)
  | PGUpdateStmt has_with has_from relname where_ targets => blift (BindUpdate has_with has_from relname where_ targets)
  | PGIndexStmt idxname relname params => blift (BindIndex idxname relname params)
  | PGVariableSetStmt name args => blift (BindVariableSet name args)
  | PGVariableShowStmt name => bret (VariableShowStmt name)
  | PGOtherStmt => blift (Throw NotImplemented)
  end.
End binder.
