(* ===== verification/Planner.v ===== *)
(** * The planner

    [Planner] (src/planner/): from bound statements to plans. Its state is the
    [PlannerContext] and the counter of unnamed columns. Planning an aggregation
    replaces the aggregate calls in the bound statement by pseudo calls
    ([AddAggCallToContext]), so the functions that plan statements return the
    statement as it is left behind; this is seen when a common table
    expression is planned twice. The context points to the list of common table
    expressions of a statement; the list is part of the state here.

    Planning recurses through subqueries and common table expressions with fuel,
    one unit per level ([None] when it runs out).

    The theorems are in PlannerTheory.v, PlannerAgg.v and PlannerTerm.v. *)

From Stdlib Require Import String.
From S2P Require Import Prelude.
From S2P Require Import CStd.
From S2P Require Import StringUtil.
From S2P Require Import Value.
From S2P Require Import Types.
From S2P Require Import ValueFactory.
From S2P Require Import Tuple.
From S2P Require Import Catalog.
From S2P Require Import Expressions.
From S2P Require Import Plans.
From S2P Require Import Bound.
Local Open Scope Z_scope.
Local Open Scope bustub_scope.

Record PlannerContext := mkContext {
  allow_aggregation_ : bool;
  next_aggregation_ : nat;
  aggregations_ : list BoundExpression;
  expr_in_agg_ : list AbstractExpression;
}.
Definition default_context : PlannerContext := mkContext false 0 [] [].

Record Planner := mkPlanner {
  ctx_ : PlannerContext;
  cte_list_ : option (list CTE);
  universal_id_ : Z;
}.
Definition Planner_ctor : Planner := mkPlanner default_context None 0.

(** ** State, exceptions and fuel *)

Definition planning (A : Type) : Type := Planner -> option (result (A * Planner)).

Definition pret {A} (a : A) : planning A := fun s => Some (Ok (a, s)).
Definition pthrow {A} (x : exn) : planning A := fun _ => Some (Throw x).
Definition pbind {A B} (f : A -> planning B) (m : planning A) : planning B := fun s =>
  match m s with
  | None => None
  | Some (Throw x) => Some (Throw x)
  | Some (Ok (a, s)) => f a s
  end.
Definition plift {A} (r : result A) : planning A := fun s => Some (match r with Ok a => Ok (a, s) | Throw x => Throw x end).
Definition pget : planning Planner := fun s => Some (Ok (s, s)).
Definition pset_ctx (c : PlannerContext) : planning unit := fun s => Some (Ok (tt, mkPlanner c (cte_list_ s) (universal_id_ s))).
Definition pset_ctes (l : option (list CTE)) : planning unit := fun s => Some (Ok (tt, mkPlanner (ctx_ s) l (universal_id_ s))).

Declare Scope planner_scope.
Delimit Scope planner_scope with planner.
Notation "'let&' x := c 'in' k" := (pbind (fun x => k) c)
  (at level 10, x pattern, c at level 100, k at level 200) : planner_scope.
Local Open Scope planner_scope.

Fixpoint pmap {A B} (f : A -> planning B) (l : list A) : planning (list B) :=
  match l with
  | [] => pret []
  | a :: l => let& b := f a in let& bs := pmap f l in pret (b :: bs)
  end.

(** [NewContext()]: a fresh context until the guard is destroyed. *)
Definition with_new_context {A} (m : planning A) : planning A :=
  let& s := pget in
  let& _ := pset_ctx default_context in
  let& a := m in
  let& _ := pset_ctx (ctx_ s) in
  pret a.

(** ** Expressions *)

Definition GetBinaryExpressionFromFactory (op_name : list Z) (l r : AbstractExpression) : result AbstractExpression :=
  let op (s : string) := bool_decide (op_name = str s) in
  if op "="%string || op "=="%string then Ok (ComparisonExpression Equal l r)
  else if op "!="%string || op "<>"%string then Ok (ComparisonExpression NotEqual l r)
  else if op "<"%string then Ok (ComparisonExpression LessThan l r)
  else if op "<="%string then Ok (ComparisonExpression LessThanOrEqual l r)
  else if op ">"%string then Ok (ComparisonExpression GreaterThan l r)
  else if op ">="%string then Ok (ComparisonExpression GreaterThanOrEqual l r)
  else if op "+"%string then ArithmeticExpression_ctor l r Plus
  else if op "-"%string then ArithmeticExpression_ctor l r Minus
  else if op "and"%string then LogicExpression_ctor l r And
  else if op "or"%string then LogicExpression_ctor l r Or
  else Throw EMessage.

Definition GetAggCallFromFactory (func_name : list Z) (args : list AbstractExpression)
    : result (AggregationType * list AbstractExpression) :=
  let op (s : string) := bool_decide (func_name = str s) in
  match args with
  | [] => if op "count_star"%string then Ok (CountStarAggregate, []) else Throw EMessage
  | [expr] =>
      if op "min"%string then Ok (MinAggregate, [expr])
      else if op "max"%string then Ok (MaxAggregate, [expr])
      else if op "sum"%string then Ok (SumAggregate, [expr])
      else if op "count"%string then Ok (CountAggregate, [expr])
      else Throw EMessage
  | _ => Throw EMessage
  end.

(** A column of the schema: its index and type. *)
Definition resolve (schema : Schema) (tuple_idx col_idx : Z) : result AbstractExpression :=
  let! c := GetColumn schema col_idx in Ok (ColumnValueExpression tuple_idx col_idx (column_type_ c)).

Definition PlanColumnRef (col_name : list (list Z)) (children : list AbstractPlanNode)
    : result (list Z * AbstractExpression) :=
  let name := ColumnRef_ToString col_name in
  match children with
  | [] => Throw EMessage
  | [child] =>
      let schema := OutputSchema child in
      if (1 <? length (filter (fun c => column_name_ c = name) (columns_ schema)))%nat then Throw EMessage
      else let! col_idx := GetColIdx schema name in let! e := resolve schema 0 col_idx in Ok (name, e)
  | [l; r] =>
      match TryGetColIdx (OutputSchema l) name, TryGetColIdx (OutputSchema r) name with
      | Some _, Some _ => Throw EMessage
      | Some i, None => let! e := resolve (OutputSchema l) 0 i in Ok (name, e)
      | None, Some i => let! e := resolve (OutputSchema r) 1 i in Ok (name, e)
      | None, None => Throw EMessage
      end
  | _ => Throw LogicError
  end.

(** The next of the expressions planned for aggregate calls. *)
Definition next_agg_expr : planning AbstractExpression :=
  let& s := pget in
  let c := ctx_ s in
  match expr_in_agg_ c !! next_aggregation_ c with
  | None => pthrow EMessage
  | Some e =>
      let& _ := pset_ctx (mkContext (allow_aggregation_ c) (S (next_aggregation_ c)) (aggregations_ c) (expr_in_agg_ c)) in
      pret e
  end.

Fixpoint PlanExpression (expr : BoundExpression) (children : list AbstractPlanNode)
    : planning (list Z * AbstractExpression) :=
  match expr with
  | BoundAggCall _ _ _ => let& e := next_agg_expr in pret (UNNAMED_COLUMN, e)
  | BoundColumnRef col_name => plift (PlanColumnRef col_name children)
  | BoundBinaryOp op_name larg rarg =>
      let& (_, l) := PlanExpression larg children in
      let& (_, r) := PlanExpression rarg children in
      let& e := plift (GetBinaryExpressionFromFactory op_name l r) in
      pret (UNNAMED_COLUMN, e)
  | BoundConstant val => pret (UNNAMED_COLUMN, ConstantValueExpression val)
  | BoundAlias alias child => let& (_, e) := PlanExpression child children in pret (alias, e)
  | _ => pthrow EMessage
  end.

(** ** Aggregation *)

(** [ctx_.AddAggregation] *)
Definition AddAggregation (expr : BoundExpression) : planning unit :=
  let& s := pget in
  let c := ctx_ s in
  if negb (allow_aggregation_ c) then pthrow EMessage
  else pset_ctx (mkContext (allow_aggregation_ c) (next_aggregation_ c) (aggregations_ c ++ [expr]) (expr_in_agg_ c)).

(** The expression with its aggregate calls replaced by pseudo calls. *)
Fixpoint AddAggCallToContext (expr : BoundExpression) : planning BoundExpression :=
  match expr with
  | BoundAggCall func_name is_distinct args =>
      let& s := pget in
      let agg_name := str "__pseudo_agg#" ++ to_string (zlen (aggregations_ (ctx_ s))) in
      let& _ := AddAggregation (BoundAggCall func_name is_distinct args) in
      pret (BoundAggCall agg_name is_distinct [])
  | BoundColumnRef _ | BoundConstant _ => pret expr
  | BoundBinaryOp op_name larg rarg =>
      let& l := AddAggCallToContext larg in
      let& r := AddAggCallToContext rarg in
      pret (BoundBinaryOp op_name l r)
  | BoundAlias alias child => let& child := AddAggCallToContext child in pret (BoundAlias alias child)
  | _ => pthrow EMessage
  end.

Definition PlanAggCall (agg_call : BoundExpression) (children : list AbstractPlanNode)
    : planning (AggregationType * list AbstractExpression) :=
  match agg_call with
  | BoundAggCall func_name is_distinct args =>
      if is_distinct : bool then pthrow NotImplemented
      else
        let& exprs := with_new_context (pmap (fun arg => let& (_, ret) := PlanExpression arg children in pret ret) args) in
        plift (GetAggCallFromFactory func_name exprs)
  | _ => pthrow NotImplemented
  end.

(** Phase 1 for one aggregate call: its type and input expression. *)
Definition plan_aggregate (child : AbstractPlanNode) (item : BoundExpression) : planning (AggregationType * AbstractExpression) :=
  let& (agg_type, exprs) := PlanAggCall item [child] in
  match exprs with
  | [] => let& one := plift (GetIntegerValue 1) in pret (agg_type, ConstantValueExpression one)
  | [e] => pret (agg_type, e)
  | _ => pthrow NotImplemented
  end.

(** The columns of the aggregation node that hold the [n] aggregates. *)
Definition agg_columns (agg_begin_idx n : nat) : list AbstractExpression :=
  (fun i => ColumnValueExpression 0 (Z.of_nat (agg_begin_idx + i)) INTEGER) <$> seq 0 n.

(** A projection with the given names of its columns. *)
Definition make_projection (exprs : list AbstractExpression) (names : list (list Z)) (child : AbstractPlanNode)
    : planning AbstractPlanNode :=
  let& schema := plift (InferProjectionSchema exprs) in
  let& out := plift (RenameSchema schema names) in
  pret (PlanNode out [child] (ProjectionPlanNode exprs)).

(** A WHERE or HAVING clause, absent if it is invalid. *)
Definition plan_filter (where_ : BoundExpression) (plan : AbstractPlanNode) : planning AbstractPlanNode :=
  if IsInvalid where_ then pret plan
  else let& (_, expr) := PlanExpression where_ [plan] in pret (PlanNode (OutputSchema plan) [plan] (FilterPlanNode expr)).

(** [PlanSelectAgg]: the plan, and [having_] and [select_list_] as they are left behind. *)
Definition PlanSelectAgg (select_list group_by : list BoundExpression) (having : BoundExpression) (child : AbstractPlanNode)
    : planning (AbstractPlanNode * BoundExpression * list BoundExpression) :=
  with_new_context (
    let& _ := pset_ctx (mkContext true 0 [] []) in
    let& groups := pmap (fun expr => PlanExpression expr [child]) group_by in
    let& having := (if IsInvalid having then pret having else AddAggCallToContext having) in
    let& select_list := pmap AddAggCallToContext select_list in
    let& s := pget in
    let& aggs := pmap (plan_aggregate child) (aggregations_ (ctx_ s)) in
    let& s := pget in
    let c := ctx_ s in
    let& _ := pset_ctx (mkContext (allow_aggregation_ c) (next_aggregation_ c) (aggregations_ c)
                          (expr_in_agg_ c ++ agg_columns (length groups) (length aggs))) in
    let output_col_names := groups.*1 ++ ((fun i => str "agg#" ++ to_string (Z.of_nat i)) <$> seq 0 (length aggs)) in
    let& agg_schema := plift (InferAggSchema groups.*2 aggs.*2 aggs.*1) in
    let& out := plift (RenameSchema agg_schema output_col_names) in
    let plan := PlanNode out [child] (AggregationPlanNode groups.*2 aggs.*2 aggs.*1) in
    let& plan := plan_filter having plan in
    let& items := pmap (fun item => PlanExpression item [plan]) select_list in
    let& plan := make_projection items.*2 items.*1 plan in
    pret (plan, having, select_list)).

(** ** Statements *)

(** The integer constant of a LIMIT or OFFSET clause, as [size_t]. *)
Definition limit_constant (e : BoundExpression) : planning Z :=
  match e with
  | BoundConstant val =>
      let& _ := plift (Value_CastAs val INTEGER) in
      if TypeId_eqb (type_id_ val) INTEGER then pret (uwrap 64 (GetAs int32_t val)) else pthrow NotImplemented
  | _ => pthrow NotImplemented
  end.

Fixpoint any_aggregation (items : list BoundExpression) : result bool :=
  match items with
  | [] => Ok false
  | item :: items => let! b := HasAggregation item in if b : bool then Ok true else any_aggregation items
  end.

(** The name of a column of the select list. *)
Definition name_column (name : list Z) : planning (list Z) := fun s =>
  if bool_decide (name = UNNAMED_COLUMN) then
    Some (Ok (str "__unnamed#" ++ to_string (universal_id_ s), mkPlanner (ctx_ s) (cte_list_ s) (uwrap 64 (universal_id_ s + 1))))
  else Some (Ok (name, s)).

(** The columns of a node. *)
Definition all_columns (plan : AbstractPlanNode) : list AbstractExpression :=
  imap (fun i c => ColumnValueExpression 0 (Z.of_nat i) (column_type_ c)) (columns_ (OutputSchema plan)).

Definition PlanBaseTableRef (catalog_ : Catalog) (t : BaseTableRef) : planning AbstractPlanNode :=
  let& table := plift (GetTable_name catalog_ (bt_table_ t)) in
  match table with
  | None => pthrow AssertFailed
  | Some table =>
      let out := InferScanSchema (GetBoundTableName t) (bt_schema_ t) in
      let& internal := plift (StartsWith (ti_name_ table) (str "__")) in
      if internal : bool then
        let& mock := plift (StartsWith (ti_name_ table) (str "__mock")) in
        if mock : bool then pret (PlanNode out [] (MockScanPlanNode (ti_name_ table))) else pthrow EMessage
      else pret (PlanNode out [] (SeqScanPlanNode (ti_oid_ table) (ti_name_ table) None))
  end.

Definition PlanExpressionListRef (values : list (list BoundExpression)) (identifier : list Z) : planning AbstractPlanNode :=
  let& all_exprs := pmap (pmap (fun col => let& (_, e) := PlanExpression col [] in pret e)) values in
  match all_exprs with
  | [] => pthrow Undefined
  | first_row :: _ =>
      let& cols := plift (make_columns (imap (fun idx e =>
        (identifier ++ str "." ++ to_string (Z.of_nat idx), GetReturnType e)) first_row)) in
      pret (PlanNode (Schema_ctor cols) [] (ValuesPlanNode all_exprs))
  end.

(** [PlanSubquery] once its select statement is planned. *)
Definition plan_renaming (select_node : AbstractPlanNode) (select_list_name : list (list (list Z))) (alias : list Z)
    : planning AbstractPlanNode :=
  if (length select_list_name <? length (columns_ (OutputSchema select_node)))%nat then pthrow Undefined
  else
    make_projection (all_columns select_node)
      ((fun name => alias ++ str "." ++ Join name (str ".")) <$> take (length (columns_ (OutputSchema select_node))) select_list_name)
      select_node.

(** The select list without aggregation. *)
Definition plan_normal_select (select_list : list BoundExpression) (plan : AbstractPlanNode) : planning AbstractPlanNode :=
  let& items := pmap (fun item =>
    let& (name, expr) := PlanExpression item [plan] in let& name := name_column name in pret (name, expr)) select_list in
  make_projection items.*2 items.*1 plan.

(** DISTINCT as an aggregation by all columns, ORDER BY, LIMIT. *)
Definition plan_distinct (is_distinct : bool) (plan : AbstractPlanNode) : AbstractPlanNode :=
  if is_distinct then PlanNode (OutputSchema plan) [plan] (AggregationPlanNode (all_columns plan) [] []) else plan.
Definition plan_order_by (sort : list (OrderByType * BoundExpression)) (plan : AbstractPlanNode) : planning AbstractPlanNode :=
  match sort with
  | [] => pret plan
  | _ =>
      let& order_bys := pmap (fun ob => let& (_, e) := PlanExpression ob.2 [plan] in pret (ob.1, e)) sort in
      pret (PlanNode (OutputSchema plan) [plan] (SortPlanNode order_bys))
  end.
Definition plan_limit (limit_count limit_offset : BoundExpression) (plan : AbstractPlanNode) : planning AbstractPlanNode :=
  if IsInvalid limit_count && IsInvalid limit_offset then pret plan
  else
    let& limit := (if IsInvalid limit_count then pret None else let& n := limit_constant limit_count in pret (Some n)) in
    let& offset := (if IsInvalid limit_offset then pret None else let& n := limit_constant limit_offset in pret (Some n)) in
    match offset, limit with
    | Some _, _ => pthrow NotImplemented
    | None, None => pthrow Undefined
    | None, Some n => pret (PlanNode (OutputSchema plan) [plan] (LimitPlanNode n))
    end.

(** [PlanSelect] over the planned FROM clause: the plan, and [having_] and [select_list_] as they are left behind. *)
Definition plan_select_clauses (select_list : list BoundExpression) (where_ : BoundExpression) (group_by : list BoundExpression)
    (having limit_count limit_offset : BoundExpression) (sort : list (OrderByType * BoundExpression)) (is_distinct : bool)
    (plan : AbstractPlanNode) : planning (AbstractPlanNode * BoundExpression * list BoundExpression) :=
  let& plan := plan_filter where_ plan in
  let& has_agg := plift (any_aggregation select_list) in
  let& (plan, having, select_list) :=
    (if negb (IsInvalid having) || negb (bool_decide (group_by = [])) || has_agg
     then PlanSelectAgg select_list group_by having plan
     else let& plan := plan_normal_select select_list plan in pret (plan, having, select_list)) in
  let& plan := plan_order_by sort (plan_distinct is_distinct plan) in
  let& plan := plan_limit limit_count limit_offset plan in
  pret (plan, having, select_list).

(** [ctx_.cte_list_ = &statement.ctes_] while a statement that has some is planned; its
    list is read back when its context is left. *)
Definition with_ctes {A} (ctes : list CTE) (m : planning A) : planning (A * list CTE) :=
  match ctes with
  | [] => let& a := m in pret (a, [])
  | _ =>
      let& s := pget in
      let& _ := pset_ctes (Some ctes) in
      let& a := m in
      let& s' := pget in
      let& _ := pset_ctes (cte_list_ s) in
      pret (a, default [] (cte_list_ s'))
  end.

Section planner.
Context (catalog_ : Catalog).

(** The entry of the CTE list with the given alias. *)
Definition find_cte (cte_name : list Z) (l : list CTE) : option (nat * CTE) := list_find (fun c => c.2 = cte_name) l.

(** A table reference with the statements in it as planning leaves them behind. *)
Fixpoint PlanTableRef (fuel : nat) (table_ref : BoundTableRef) : planning (AbstractPlanNode * BoundTableRef) :=
  match fuel with
  | O => fun _ => None
  | S fuel =>
      match table_ref with
      | BoundBaseTableRef t => let& plan := PlanBaseTableRef catalog_ t in pret (plan, table_ref)
      | BoundCrossProductRef l r =>
          let& (lplan, l) := PlanTableRef fuel l in
          let& (rplan, r) := PlanTableRef fuel r in
          let& yes := plift (GetBooleanValue_bool true) in
          pret (PlanNode (InferJoinSchema lplan rplan) [lplan; rplan]
                  (NestedLoopJoinPlanNode (ConstantValueExpression yes) INNER), BoundCrossProductRef l r)
      | BoundJoinRef join_type l r condition =>
          let& (lplan, l) := PlanTableRef fuel l in
          let& (rplan, r) := PlanTableRef fuel r in
          let& (_, e) := PlanExpression condition [lplan; rplan] in
          pret (PlanNode (InferJoinSchema lplan rplan) [lplan; rplan] (NestedLoopJoinPlanNode e join_type),
                BoundJoinRef join_type l r condition)
      | BoundExpressionListRef values identifier =>
          let& plan := PlanExpressionListRef values identifier in pret (plan, table_ref)
      | BoundSubqueryRef subquery names alias =>
          let& (node, subquery) := PlanSelect fuel subquery in
          let& plan := plan_renaming node names alias in
          pret (plan, BoundSubqueryRef subquery names alias)
      | BoundCTERef cte_name alias =>
          let& s := pget in
          match cte_list_ s with
          | None => pthrow Undefined
          | Some l =>
              match find_cte cte_name l with
              | None => pthrow LogicError
              | Some (i, (subquery, names, cte_alias)) =>
                  let& (node, subquery) := PlanSelect fuel subquery in
                  let& s := pget in
                  let& _ := pset_ctes ((fun l => <[i := (subquery, names, cte_alias)]> l) <$> cte_list_ s) in
                  let& plan := plan_renaming node names alias in
                  pret (plan, table_ref)
              end
          end
      | InvalidTableRef | EmptyTableRef => pthrow EMessage
      end
  end
with PlanSelect (fuel : nat) (statement : SelectStatement) : planning (AbstractPlanNode * SelectStatement) :=
  match fuel with
  | O => fun _ => None
  | S fuel =>
      let '(mkSelect table select_list where_ group_by having limit_count limit_offset sort ctes is_distinct) := statement in
      let& ((plan, table, having, select_list), ctes) := with_new_context (with_ctes ctes (
        let& (plan, table) :=
          match table with
          | EmptyTableRef => pret (PlanNode (Schema_ctor []) [] (ValuesPlanNode [[]]), table)
          | _ => PlanTableRef fuel table
          end in
        let& (plan, having, select_list) :=
          plan_select_clauses select_list where_ group_by having limit_count limit_offset sort is_distinct plan in
        pret (plan, table, having, select_list))) in
      pret (plan, mkSelect table select_list where_ group_by having limit_count limit_offset sort ctes is_distinct)
  end.

(** The schema of the node that counts the rows it changed. *)
Definition count_schema (name : list Z) : planning Schema :=
  let& c := plift (Column_fixed name INTEGER) in pret (Schema_ctor [c]).

Definition PlanInsert (fuel : nat) (table_ : BaseTableRef) (select_ : SelectStatement) : planning AbstractPlanNode :=
  let& (select, _) := PlanSelect fuel select_ in
  if bool_decide (schema_types (bt_schema_ table_) = schema_types (OutputSchema select)) then
    let& insert_schema := count_schema (str "__bustub_internal.insert_rows") in
    pret (PlanNode insert_schema [select] (InsertPlanNode (bt_oid_ table_)))
  else pthrow EMessage.

(** The rows of a table that a DELETE or an UPDATE changes. *)
Definition plan_matching (table_ : BaseTableRef) (condition : BoundExpression) : planning AbstractPlanNode :=
  let& table := PlanBaseTableRef catalog_ table_ in
  let& (_, condition) := PlanExpression condition [table] in
  pret (PlanNode (OutputSchema table) [table] (FilterPlanNode condition)).

Definition PlanDelete (table_ : BaseTableRef) (expr_ : BoundExpression) : planning AbstractPlanNode :=
  let& plan := plan_matching table_ expr_ in
  let& delete_schema := count_schema (str "__bustub_internal.delete_rows") in
  pret (PlanNode delete_schema [plan] (DeletePlanNode (bt_oid_ table_))).

(** The loop over the assignments: [target_exprs], with [None] for a null pointer. *)
Fixpoint plan_targets (plan : AbstractPlanNode) (targets : list (option (list (list Z)) * BoundExpression))
    (target_exprs : list (option AbstractExpression)) : planning (list (option AbstractExpression)) :=
  match targets with
  | [] => pret target_exprs
  | (col, target_expr) :: targets =>
      let& (_, e) := PlanExpression target_expr [plan] in
      let& (_, c) := plift (match col with Some col => PlanColumnRef col [plan] | None => Throw Undefined end) in
      match c with
      | ColumnValueExpression _ col_idx _ => plan_targets plan targets (<[Z.to_nat col_idx := Some e]> target_exprs)
      | _ => pthrow Undefined
      end
  end.

Definition PlanUpdate (table_ : BaseTableRef) (filter_expr_ : BoundExpression)
    (target_expr_ : list (option (list (list Z)) * BoundExpression)) : planning AbstractPlanNode :=
  let& plan := plan_matching table_ filter_expr_ in
  let& target_exprs := plan_targets plan target_expr_ ((fun _ => None) <$> columns_ (OutputSchema plan)) in
  let& update_schema := count_schema (str "__bustub_internal.update_rows") in
  pret (PlanNode update_schema [plan] (UpdatePlanNode (bt_oid_ table_)
    (zip_with (fun t c => default c t) target_exprs (all_columns plan)))).

(** [PlanQuery]: [plan_]. *)
Definition PlanQuery (fuel : nat) (statement : BoundStatement) : planning AbstractPlanNode :=
  match statement with
  | SelectStmt s => let& (plan, _) := PlanSelect fuel s in pret plan
  | InsertStmt t s => PlanInsert fuel t s
  | DeleteStmt t e => PlanDelete t e
  | UpdateStmt t e ts => PlanUpdate t e ts
  | _ => pthrow EMessage
  end.
End planner.
