(* ===== verification/MockScan.v ===== *)
(** * Mock tables

    The tables of src/execution/mock_scan_executor.cpp: their schemas, sizes, whether
    they are shuffled, and the function from a row number to its tuple. *)

From Stdlib Require Import String.
From S2P Require Import Prelude.
From S2P Require Import CStd.
From S2P Require Import StringUtil.
From S2P Require Import Value.
From S2P Require Import Types.
From S2P Require Import ValueFactory.
From S2P Require Import Tuple.
From S2P Require Import Expressions.
From S2P Require Import Plans.
Local Open Scope Z_scope.
Local Open Scope bustub_scope.

Definition ta_list_2022 : list (list Z) :=
  str <$> ["amstqq"; "durovo"; "joyceliaoo"; "karthik-ramanathan-3006"; "kush789"; "lmwnshn"; "mkpjnx"; "skyzh";
           "thepinetree"; "timlee0119"; "yliang412"]%string.
Definition ta_oh_2022 : list (list Z) :=
  str <$> ["Tuesday"; "Wednesday"; "Monday"; "Wednesday"; "Thursday"; "Friday"; "Wednesday"; "Randomly"; "Tuesday";
           "Monday"; "Tuesday"]%string.
Definition course_on_date : list (list Z) :=
  str <$> ["Monday"; "Tuesday"; "Wednesday"; "Thursday"; "Friday"; "Saturday"; "Sunday"]%string.
Definition course_on_bool : list Z := [0; 1; 0; 1; 0; 1; 1].

Definition mock_table_list : list (list Z) :=
  str <$> ["__mock_table_1"; "__mock_table_2"; "__mock_table_3"; "__mock_table_tas_2022"; "__mock_agg_input_small";
           "__mock_agg_input_big"; "__mock_table_schedule_2022"; "__mock_table_123"; "__mock_graph"; "__mock_t1_50k";
           "__mock_t2_100k"; "__mock_t3_1k"; "__mock_t4_1m"; "__mock_t5_1m"; "__mock_t6_1m"; "__mock_t7";
           "__mock_t8"]%string.

Definition GRAPH_NODE_CNT : Z := 10.

(** [table == name] *)
Definition named (table : list Z) (name : string) : bool := bool_decide (table = str name).

(** The columns of a braced list: names with a type, and a length for VARCHAR. *)
Definition int_column (name : string) : result Column := Column_fixed (str name) INTEGER.
Definition varchar_column (name : string) (n : Z) : result Column := Column_var (str name) VARCHAR n.
Definition mock_schema (cols : list (result Column)) : result Schema := let! cols := rseq cols in Ok (Schema_ctor cols).

Definition GetMockTableSchemaOf (table : list Z) : result Schema :=
  if named table "__mock_table_1" then mock_schema [int_column "colA"; int_column "colB"]
  else if named table "__mock_table_2" then mock_schema [varchar_column "colC" 128; varchar_column "colD" 128]
  else if named table "__mock_table_3" then mock_schema [int_column "colE"; varchar_column "colF" 128]
  else if named table "__mock_table_tas_2022" then
    mock_schema [varchar_column "github_id" 128; varchar_column "office_hour" 128]
  else if named table "__mock_table_schedule_2022" then
    mock_schema [varchar_column "day_of_week" 128; int_column "has_lecture"]
  else if named table "__mock_agg_input_small" || named table "__mock_agg_input_big" then
    mock_schema [int_column "v1"; int_column "v2"; int_column "v3"; int_column "v4"; int_column "v5"; varchar_column "v6" 128]
  else if named table "__mock_graph" then
    mock_schema [int_column "src"; int_column "dst"; varchar_column "src_label" 8; varchar_column "dst_label" 8;
                 int_column "distance"]
  else if named table "__mock_table_123" then mock_schema [int_column "number"]
  else if named table "__mock_t1_50k" || named table "__mock_t2_100k" || named table "__mock_t3_1k"
          || named table "__mock_t4_1m" || named table "__mock_t5_1m" || named table "__mock_t6_1m" then
    mock_schema [int_column "x"; int_column "y"]
  else if named table "__mock_t7" then mock_schema [int_column "v"; int_column "v1"; int_column "v2"]
  else if named table "__mock_t8" then mock_schema [int_column "v4"]
  else Throw EMessage.

Definition GetSizeOf (table : list Z) : Z :=
  if named table "__mock_table_1" then 100
  else if named table "__mock_table_2" then 100
  else if named table "__mock_table_3" then 100
  else if named table "__mock_table_tas_2022" then zlen ta_list_2022
  else if named table "__mock_table_schedule_2022" then zlen course_on_date
  else if named table "__mock_agg_input_small" then 1000
  else if named table "__mock_agg_input_big" then 10000
  else if named table "__mock_graph" then GRAPH_NODE_CNT * GRAPH_NODE_CNT
  else if named table "__mock_table_123" then 3
  else if named table "__mock_t1_50k" then 50000
  else if named table "__mock_t2_100k" then 100000
  else if named table "__mock_t3_1k" then 1000
  else if named table "__mock_t4_1m" || named table "__mock_t5_1m" || named table "__mock_t6_1m" then 1000000
  else if named table "__mock_t7" then 1000000
  else if named table "__mock_t8" then 10
  else 0.

Definition GetShuffled (table : list Z) : bool :=
  if named table "__mock_t1_50k" then true
  else if named table "__mock_t2_100k" then true
  else if named table "__mock_t3_1k" then true
  else false.

(** U+1F4A9 and U+1F607 in UTF-8. *)
Definition poop : list Z := [240; 159; 146; 169].
Definition innocent : list Z := [240; 159; 152; 135].

(** An element of an array, undefined out of range. *)
Definition array_at {A} (l : list A) (i : Z) : result A :=
  match l !! Z.to_nat i with Some a => Ok a | None => Throw Undefined end.

(** [fmt::format("{:03}", z)] for a number that is not negative. *)
Definition format_03 (z : Z) : list Z := replicate (3 - length (to_string z)) 48 ++ to_string z.

(** The values of row [cursor] of the tables for the leaderboard queries, and of
    any other table: all zero. [size_t] arithmetic, narrowed to [int32_t] by
    [GetIntegerValue]. *)
Definition leaderboard_values (out : Schema) (table : list Z) (cursor : Z) : list (result Value) :=
  let int z := GetIntegerValue (swrap 32 z) in
  if named table "__mock_t1_50k" then [int (cursor * 10); int (cursor * 1000)]
  else if named table "__mock_t2_100k" then [int cursor; int (cursor * 100)]
  else if named table "__mock_t3_1k" then [int (cursor * 100); int (cursor * 10000)]
  else if named table "__mock_t4_1m" then let cursor := cursor mod 500000 in [int cursor; int (cursor * 10)]
  else if named table "__mock_t5_1m" then let cursor := (cursor + 30000) mod 500000 in [int cursor; int (cursor * 10)]
  else if named table "__mock_t6_1m" then let cursor := (cursor + 60000) mod 500000 in [int cursor; int (cursor * 10)]
  else if named table "__mock_t7" then [int (cursor mod 20); int cursor; int cursor]
  else if named table "__mock_t8" then [int cursor]
  else (fun c => GetZeroValueByType (column_type_ c)) <$> columns_ out.

(** The values of row [cursor] of a table. *)
Definition mock_values (out : Schema) (table : list Z) (cursor : Z) : list (result Value) :=
  let int z := GetIntegerValue (swrap 32 z) in
  let varchar (s : result (list Z)) := let! s := s in GetVarcharValue s in
  if named table "__mock_table_1" then [int cursor; int (cursor * 100)]
  else if named table "__mock_table_2" then
    [varchar (Ok (to_string cursor ++ str "-" ++ poop)); varchar (Ok (Repeat innocent (Z.to_nat (cursor mod 8))))]
  else if named table "__mock_table_3" then
    [if cursor mod 2 =? 0 then int cursor else GetNullValueByType INTEGER;
     varchar (Ok (to_string cursor ++ str "-" ++ poop))]
  else if named table "__mock_table_tas_2022" then
    [varchar (array_at ta_list_2022 cursor); varchar (array_at ta_oh_2022 cursor)]
  else if named table "__mock_table_schedule_2022" then
    [varchar (array_at course_on_date cursor); let! b := array_at course_on_bool cursor in int b]
  else if named table "__mock_agg_input_small" then
    [int ((cursor + 2) mod 10); int cursor; int ((cursor + 50) mod 100); int (cursor / 100); int 233;
     varchar (Ok (Repeat poop (Z.to_nat (cursor mod 8 + 1))))]
  else if named table "__mock_agg_input_big" then
    [int ((cursor + 2) mod 10); int cursor; int ((cursor + 50) mod 100); int (cursor / 1000); int 233;
     varchar (Ok (Repeat poop (Z.to_nat (cursor mod 16 + 1))))]
  else if named table "__mock_table_123" then [int (cursor + 1)]
  else if named table "__mock_graph" then
    let src := cursor mod GRAPH_NODE_CNT in
    let dst := cursor / GRAPH_NODE_CNT in
    [int src; int dst; varchar (Ok (format_03 src)); varchar (Ok (format_03 dst));
     if src =? dst then GetNullValueByType INTEGER else int 1]
  else leaderboard_values out table cursor.

Definition GetFunctionOf (out : Schema) (table : list Z) (cursor : Z) : result Tuple :=
  let! values := rseq (mock_values out table cursor) in Tuple_ctor values out.
