(* ===== verification/Executors.v ===== *)
(** * Executors and the execution engine

    The Volcano executors of src/execution/ and [ExecutionEngine::Execute]
    (src/include/execution/execution_engine.h). [ValuesExecutor], [FilterExecutor],
    [ProjectionExecutor] and [MockScanExecutor] are implemented in the sources;
    [Init] of the others throws [NotImplementedException], except that of
    [AggregationExecutor], which does nothing. An executor is its state; the members
    of a stub are never set, so that it has no output schema. The RID that [Next]
    also yields is left out: [Execute] drops it.

    [std::shuffle] with a random generator is a parameter of the model.

    Proved: running a plan is what its list semantics says ([plan_rows]): the rows
    up to the first exception, for every fuel from a bound on. *)

From Stdlib Require Import String.
From S2P Require Import Prelude.
From S2P Require Import CStd.
From S2P Require Import Value.
From S2P Require Import Types.
From S2P Require Import ValueFactory.
From S2P Require Import Tuple.
From S2P Require Import Expressions.
From S2P Require Import Plans.
From S2P Require Import MockScan.
Local Open Scope Z_scope.
Local Open Scope bustub_scope.

Inductive Executor : Type :=
| ValuesExecutor (out : Schema) (rows : list (list AbstractExpression)) (cursor_ : Z)
| FilterExecutor (out : Schema) (predicate : AbstractExpression) (child_executor_ : Executor)
| ProjectionExecutor (out : Schema) (expressions : list AbstractExpression) (child_executor_ : Executor)
| MockScanExecutor (out : Schema) (table : list Z) (cursor_ size_ : Z) (shuffled_idx_ : list Z)
| AggregationExecutor
| SeqScanExecutor | IndexScanExecutor | InsertExecutor | UpdateExecutor | DeleteExecutor | LimitExecutor
| NestedLoopJoinExecutor | NestIndexJoinExecutor | HashJoinExecutor | SortExecutor | TopNExecutor.

(** The members of the unimplemented executors are not initialised. *)
Definition GetOutputSchema (e : Executor) : result Schema :=
  match e with
  | ValuesExecutor out _ _ | FilterExecutor out _ _ | ProjectionExecutor out _ _ | MockScanExecutor out _ _ _ _ => Ok out
  | _ => Throw Undefined
  end.

(** ** Creating executors *)

Section engine.
Context (shuffle : list Z -> list Z).

Definition MockScanExecutor_ctor (out : Schema) (table : list Z) : Executor :=
  let size := GetSizeOf table in
  MockScanExecutor out table 0 size (if GetShuffled table then shuffle (seqZ 0 size) else []).

(** The constructors of the join executors. *)
Definition check_join_type (t : JoinType) (e : Executor) : result Executor :=
  if negb (bool_decide (t = LEFT) || bool_decide (t = INNER)) then Throw NotImplemented else Ok e.

(** [ExecutorFactory::CreateExecutor]; [children] are the executors of the children,
    each created when it is asked for. *)
Fixpoint CreateExecutor (plan : AbstractPlanNode) : result Executor :=
  let '(PlanNode out cs kind) := plan in
  let children := List.map CreateExecutor cs in
  let at_ i := match children !! i with Some e => e | None => Throw Undefined end in
  let child := (assert! zlen children =? 1; at_ 0%nat) in
  match kind with
  | SeqScanPlanNode _ _ _ => Ok SeqScanExecutor
  | IndexScanPlanNode _ => Ok IndexScanExecutor
  | InsertPlanNode _ => let! _ := child in Ok InsertExecutor
  | UpdatePlanNode _ _ => let! _ := child in Ok UpdateExecutor
  | DeletePlanNode _ => let! _ := child in Ok DeleteExecutor
  | LimitPlanNode _ => let! _ := child in Ok LimitExecutor
  | AggregationPlanNode _ _ _ => let! _ := child in Ok AggregationExecutor
  | NestedLoopJoinPlanNode _ join_type =>
      let! _ := at_ 0%nat in let! _ := at_ 1%nat in check_join_type join_type NestedLoopJoinExecutor
  | NestedIndexJoinPlanNode _ _ _ _ _ _ join_type => let! _ := at_ 0%nat in check_join_type join_type NestIndexJoinExecutor
  | HashJoinPlanNode _ _ join_type =>
      let! _ := (assert! zlen children =? 2; at_ 0%nat) in
      let! _ := (assert! zlen children =? 2; at_ 1%nat) in check_join_type join_type HashJoinExecutor
  | MockScanPlanNode table => Ok (MockScanExecutor_ctor out table)
  | ProjectionPlanNode expressions => let! e := child in Ok (ProjectionExecutor out expressions e)
  | FilterPlanNode predicate => let! e := child in Ok (FilterExecutor out predicate e)
  | ValuesPlanNode values => Ok (ValuesExecutor out values 0)
  | SortPlanNode _ => let! _ := child in Ok SortExecutor
  | TopNPlanNode _ _ => let! _ := child in Ok TopNExecutor
  end.

(** ** Running executors *)

Fixpoint Init (e : Executor) : result Executor :=
  match e with
  | ValuesExecutor out rows _ => Ok (ValuesExecutor out rows 0)
  | FilterExecutor out predicate child => let! child := Init child in Ok (FilterExecutor out predicate child)
  | ProjectionExecutor out exprs child => let! child := Init child in Ok (ProjectionExecutor out exprs child)
  | MockScanExecutor out table _ size idx => Ok (MockScanExecutor out table 0 size idx)
  | AggregationExecutor => Ok AggregationExecutor
  | _ => Throw NotImplemented
  end.

(** The tuple of a row of expressions. *)
Definition make_row (out : Schema) (exprs : list AbstractExpression) (tuple : option Tuple) (schema : Schema) : result Tuple :=
  let! values := rseq ((fun e => Evaluate e tuple schema) <$> exprs) in Tuple_ctor values out.

(** The test of a filter: true, and neither false nor NULL. *)
Definition passes (predicate : AbstractExpression) (tuple : Tuple) (schema : Schema) : result bool :=
  let! value := Evaluate predicate (Some tuple) schema in
  if IsNull value then Ok false else GetAs_bool value.

(** [func_(cursor_)], through the shuffled indices when there are any. *)
Definition mock_tuple (out : Schema) (table : list Z) (idx : list Z) (cursor : Z) : result Tuple :=
  if bool_decide (idx = []) then GetFunctionOf out table cursor
  else let! i := array_at idx cursor in GetFunctionOf out table i.

(** [Next]: the tuple, or none when the executor is exhausted. A round of the loop of
    a filter is a call of its own; [None] when the fuel runs out. *)
Fixpoint Next (fuel : nat) (e : Executor) : option (result (option Tuple * Executor)) :=
  match fuel with
  | O => None
  | S fuel =>
      match e with
      | ValuesExecutor out rows cursor =>
          Some (match rows !! Z.to_nat cursor with
                | None => Ok (None, e)
                | Some row_expr =>
                    let! t := make_row out row_expr None (Schema_ctor []) in
                    Ok (Some t, ValuesExecutor out rows (cursor + 1))
                end)
      | FilterExecutor out predicate child =>
          match Next fuel child with
          | None => None
          | Some (Throw x) => Some (Throw x)
          | Some (Ok (None, child)) => Some (Ok (None, FilterExecutor out predicate child))
          | Some (Ok (Some t, child)) =>
              match (let! schema := GetOutputSchema child in passes predicate t schema) with
              | Throw x => Some (Throw x)
              | Ok true => Some (Ok (Some t, FilterExecutor out predicate child))
              | Ok false => Next fuel (FilterExecutor out predicate child)
              end
          end
      | ProjectionExecutor out exprs child =>
          match Next fuel child with
          | None => None
          | Some (Throw x) => Some (Throw x)
          | Some (Ok (None, child)) => Some (Ok (None, ProjectionExecutor out exprs child))
          | Some (Ok (Some t, child)) =>
              Some (let! schema := GetOutputSchema child in
                    let! t := make_row out exprs (Some t) schema in
                    Ok (Some t, ProjectionExecutor out exprs child))
          end
      | MockScanExecutor out table cursor size idx =>
          Some (if cursor =? size then Ok (None, e)
                else let! t := mock_tuple out table idx cursor in
                     Ok (Some t, MockScanExecutor out table (cursor + 1) size idx))
      | _ => Some (Ok (None, e))
      end
  end.

(** Is the exception a [bustub::Exception]? *)
Definition is_Exception (x : exn) : bool :=
  match x with
  | EMessage | OutOfRange | DivideByZero | IncompatibleType | UnknownType | MismatchType | DecimalError
  | NotImplemented => true
  | AssertFailed | InvalidArgument | StdOutOfRange | LogicError | Undefined => false
  end.

(** The loop of [Execute] in its [try] block. *)
Fixpoint execute_loop (fuel : nat) (e : Executor) (result_set : list Tuple) : option (result (list Tuple)) :=
  match fuel with
  | O => None
  | S fuel =>
      match Next fuel e with
      | None => None
      | Some (Throw x) => Some (if is_Exception x then Ok result_set else Throw x)
      | Some (Ok (None, _)) => Some (Ok result_set)
      | Some (Ok (Some t, e)) => execute_loop fuel e (result_set ++ [t])
      end
  end.

(** [Execute]: what it returns and the result set. *)
Definition Execute (fuel : nat) (plan : AbstractPlanNode) (result_set : list Tuple)
    : option (result (bool * list Tuple)) :=
  match (let! e := CreateExecutor plan in Init e) with
  | Throw x => Some (Throw x)
  | Ok e =>
      match execute_loop fuel e result_set with
      | None => None
      | Some r => Some (let! rows := r in Ok (true, rows))
      end
  end.

(** ** The list semantics *)

(** A filter on the rows of its child; an exception stays where it is. *)
Definition filter_row (predicate : AbstractExpression) (schema : Schema) (r : result Tuple) : list (result Tuple) :=
  match (let! t := r in let! b := passes predicate t schema in Ok (t, b)) with
  | Ok (t, true) => [Ok t]
  | Ok (t, false) => []
  | Throw x => [Throw x]
  end.
Definition project_row (out : Schema) (exprs : list AbstractExpression) (schema : Schema) (r : result Tuple) : result Tuple :=
  let! t := r in make_row out exprs (Some t) schema.

(** The rows of a mock table. *)
Definition mock_rows (out : Schema) (table : list Z) : list (result Tuple) :=
  GetFunctionOf out table <$>
    (if GetShuffled table then shuffle (seqZ 0 (GetSizeOf table)) else seqZ 0 (GetSizeOf table)).

Fixpoint plan_rows (plan : AbstractPlanNode) : list (result Tuple) :=
  let '(PlanNode out cs kind) := plan in
  match kind, cs with
  | ValuesPlanNode rows, _ => (fun row => make_row out row None (Schema_ctor [])) <$> rows
  | FilterPlanNode predicate, [c] => concat (filter_row predicate (OutputSchema c) <$> plan_rows c)
  | ProjectionPlanNode exprs, [c] => project_row out exprs (OutputSchema c) <$> plan_rows c
  | MockScanPlanNode table, _ => mock_rows out table
  | _, _ => []
  end.

(** The rows up to the first exception, which the engine swallows when it is a
    [bustub::Exception]. *)
Fixpoint collect (rows : list (result Tuple)) (result_set : list Tuple) : result (bool * list Tuple) :=
  match rows with
  | [] => Ok (true, result_set)
  | Ok t :: rows => collect rows (result_set ++ [t])
  | Throw x :: _ => if is_Exception x then Ok (true, result_set) else Throw x
  end.

(** The number of children the classes of plan nodes are built with. *)
Definition arity (kind : PlanKind) : nat :=
  match kind with
  | SeqScanPlanNode _ _ _ | IndexScanPlanNode _ | ValuesPlanNode _ | MockScanPlanNode _ => 0
  | NestedLoopJoinPlanNode _ _ | HashJoinPlanNode _ _ _ => 2
  | _ => 1
  end.
Fixpoint shaped (plan : AbstractPlanNode) : bool :=
  let '(PlanNode _ cs kind) := plan in (length cs =? arity kind)%nat && forallb shaped cs.

(** The plans with join types the executors accept. *)
Definition join_ok (t : JoinType) : bool := bool_decide (t = LEFT) || bool_decide (t = INNER).
Definition node_creatable (kind : PlanKind) : bool :=
  match kind with
  | NestedLoopJoinPlanNode _ t | NestedIndexJoinPlanNode _ _ _ _ _ _ t | HashJoinPlanNode _ _ t => join_ok t
  | _ => true
  end.
Fixpoint creatable (plan : AbstractPlanNode) : bool :=
  let '(PlanNode _ cs kind) := plan in node_creatable kind && forallb creatable cs.

(** The plans whose executors are implemented; an aggregation does not run its child. *)
Fixpoint executable (plan : AbstractPlanNode) : bool :=
  let '(PlanNode _ cs kind) := plan in
  match kind with
  | ValuesPlanNode _ | MockScanPlanNode _ => true
  | FilterPlanNode _ | ProjectionPlanNode _ => forallb executable cs
  | AggregationPlanNode _ _ _ => forallb creatable cs
  | _ => false
  end.

(** Calls that are enough to run a plan. *)
Fixpoint plan_calls (plan : AbstractPlanNode) : nat :=
  let '(PlanNode _ cs kind) := plan in
  match kind, cs with
  | ValuesPlanNode rows, _ => S (length rows)
  | FilterPlanNode _, [c] | ProjectionPlanNode _, [c] => S (plan_calls c)
  | MockScanPlanNode table, _ => S (Z.to_nat (GetSizeOf table))
  | _, _ => 1%nat
  end.

(** ** The executors' states *)

(** The rows an executor still has to yield, and the calls it takes. *)
Definition exec_schema (e : Executor) : Schema := match GetOutputSchema e with Ok s => s | Throw _ => Schema_ctor [] end.
Fixpoint exec_rows (e : Executor) : list (result Tuple) :=
  match e with
  | ValuesExecutor out rows cursor => (fun row => make_row out row None (Schema_ctor [])) <$> drop (Z.to_nat cursor) rows
  | FilterExecutor _ predicate child => concat (filter_row predicate (exec_schema child) <$> exec_rows child)
  | ProjectionExecutor out exprs child => project_row out exprs (exec_schema child) <$> exec_rows child
  | MockScanExecutor out table cursor size idx => mock_tuple out table idx <$> seqZ cursor (size - cursor)
  | _ => []
  end.
Fixpoint calls (e : Executor) : nat :=
  match e with
  | ValuesExecutor _ rows cursor => S (length rows - Z.to_nat cursor)
  | FilterExecutor _ _ child | ProjectionExecutor _ _ child => S (calls child)
  | MockScanExecutor _ _ cursor size _ => S (Z.to_nat (size - cursor))
  | _ => 1%nat
  end.
Fixpoint exec_wf (e : Executor) : Prop :=
  match e with
  | ValuesExecutor _ _ cursor => 0 <= cursor
  | FilterExecutor _ _ child | ProjectionExecutor _ _ child => exec_wf child
  | MockScanExecutor _ _ cursor size _ => 0 <= cursor <= size
  | _ => True
  end.

(** What a call of [Next] does to the rows that are left. *)
Definition next_spec (fuel : nat) (e : Executor) : Prop :=
  match exec_rows e with
  | [] => exists e', Next fuel e = Some (Ok (None, e'))
  | Throw x :: _ => Next fuel e = Some (Throw x)
  | Ok t :: rows => exists e', Next fuel e = Some (Ok (Some t, e')) /\ exec_rows e' = rows /\ exec_wf e' /\
      (calls e' < calls e)%nat /\ GetOutputSchema e' = GetOutputSchema e
  end.

Lemma rows_schema e : exec_rows e <> [] -> GetOutputSchema e = Ok (exec_schema e).
Proof. by destruct e. Qed.

Lemma next_values fuel out rows cursor : 0 <= cursor -> next_spec (S fuel) (ValuesExecutor out rows cursor).
Proof.
  intros Hc. unfold next_spec. cbn [exec_rows Next]. destruct (rows !! Z.to_nat cursor) as [row|] eqn:E.
  - rewrite (drop_S _ _ _ E). cbn [fmap list_fmap]. destruct (make_row out row None (Schema_ctor [])) as [t|x]; cbn [rbind]; [|done].
    eexists. split; [done|]. cbn [exec_rows exec_wf calls GetOutputSchema].
    replace (Z.to_nat (cursor + 1)) with (S (Z.to_nat cursor)) by lia. apply lookup_lt_Some in E. split_and!; (done || lia).
  - rewrite drop_ge by (by apply lookup_ge_None). by eexists.
Qed.

Lemma next_mock fuel out table cursor size idx :
  0 <= cursor <= size -> next_spec (S fuel) (MockScanExecutor out table cursor size idx).
Proof.
  intros Hc. unfold next_spec. cbn [exec_rows Next]. destruct (Z.eqb_spec cursor size) as [->|Hn].
  - rewrite Z.sub_diag. by eexists.
  - rewrite seqZ_cons by lia. cbn [fmap list_fmap]. destruct (mock_tuple out table idx cursor) as [t|x]; cbn [rbind]; [|done].
    eexists. split; [done|]. cbn [exec_rows exec_wf calls GetOutputSchema].
    replace (size - (cursor + 1)) with (Z.pred (size - cursor)) by lia. split_and!; (done || lia).
Qed.

Lemma next_filter out predicate child :
  (forall c fuel, exec_wf c -> (calls c <= fuel)%nat -> (calls c <= calls child)%nat -> next_spec fuel c) ->
  forall fuel, exec_wf child -> (S (calls child) <= fuel)%nat -> next_spec fuel (FilterExecutor out predicate child).
Proof.
  intros Hnext fuel. revert child Hnext. induction fuel as [|fuel IH]; intros child Hnext Hw Hf; [lia|].
  pose proof (Hnext child fuel Hw) as Hn. pose proof (rows_schema child) as Hrs.
  unfold next_spec in Hn |- *. cbn [exec_rows Next].
  destruct (exec_rows child) as [|[t|x] rows]; cbn [fmap list_fmap concat].
  - destruct Hn as (c' & ->); [lia|lia|]. by eexists.
  - destruct Hn as (c' & -> & Hr & Hw' & Hc & Hs); [lia|lia|]. rewrite Hs, (Hrs ltac:(done)). cbn [rbind].
    unfold filter_row at 1. cbn [rbind]. destruct (passes predicate t (exec_schema child)) as [[]|x]; cbn [rbind app].
    + eexists. split; [done|]. cbn [exec_rows exec_wf calls GetOutputSchema]. unfold exec_schema. rewrite Hr, Hs.
      split_and!; (done || lia).
    + assert (Hrec : next_spec fuel (FilterExecutor out predicate c')).
      { apply IH; [|done|lia]. intros c f ???. apply Hnext; (done || lia). }
      unfold next_spec in Hrec. cbn [exec_rows] in Hrec. unfold exec_schema in *. rewrite Hr, Hs in Hrec.
      destruct (concat _) as [|[t'|x] rows']; [done| |done]. destruct Hrec as (e' & He & ? & ? & Hlt & ?).
      exists e'. cbn [calls] in *. split_and!; (done || lia).
    + done.
  - rewrite Hn by lia. unfold filter_row at 1. cbn. done.
Qed.

Lemma next_projection out exprs child fuel :
  next_spec fuel child -> next_spec (S fuel) (ProjectionExecutor out exprs child).
Proof.
  pose proof (rows_schema child) as Hrs. unfold next_spec. cbn [exec_rows Next].
  destruct (exec_rows child) as [|[t|x] rows]; cbn [fmap list_fmap].
  - intros (c' & ->). by eexists.
  - intros (c' & -> & Hr & Hw & Hc & Hs). rewrite Hs, (Hrs ltac:(done)). cbn [rbind project_row].
    destruct (make_row out exprs (Some t) (exec_schema child)) as [t'|x]; cbn [rbind]; [|done].
    eexists. split; [done|]. cbn [exec_rows exec_wf calls GetOutputSchema]. unfold exec_schema. rewrite Hr, Hs.
    split_and!; (done || lia).
  - intros ->. done.
Qed.

Lemma Next_spec n e fuel : (calls e <= n)%nat -> exec_wf e -> (calls e <= fuel)%nat -> next_spec fuel e.
Proof.
  revert e fuel. induction n as [|n IH]; intros e fuel Hn Hw Hf; [by destruct e; cbn in Hn; lia|].
  destruct e; cbn [calls exec_wf] in *; (destruct fuel as [|fuel]; [lia|]); try (by eexists).
  - by apply next_values.
  - apply next_filter; [|done|cbn; lia]. intros c f ???. apply IH; (done || lia).
  - apply next_projection, IH; (done || lia).
  - by apply next_mock.
Qed.

Lemma execute_loop_spec fuel e rs :
  exec_wf e -> (calls e < fuel)%nat ->
  match execute_loop fuel e rs with
  | None => None
  | Some r => Some (let! rows := r in Ok (true, rows))
  end = Some (collect (exec_rows e) rs).
Proof.
  revert e rs. induction fuel as [|fuel IH]; intros e rs Hw Hf; [lia|]. cbn [execute_loop].
  pose proof (Next_spec (calls e) e fuel (le_n _) Hw ltac:(lia)) as Hn. unfold next_spec in Hn.
  destruct (exec_rows e) as [|[t|x] rows]; cbn [collect].
  - destruct Hn as (e' & ->). done.
  - destruct Hn as (e' & -> & <- & Hw' & Hc & _). apply IH; [done|lia].
  - rewrite Hn. by destruct (is_Exception x).
Qed.

(** ** From plans to executors *)

(** [std::shuffle] permutes. *)
Context (shuffle_perm : forall l, shuffle l ≡ₚ l).

Lemma mock_tuples out table idx :
  idx <> [] -> mock_tuple out table idx <$> seqZ 0 (zlen idx) = GetFunctionOf out table <$> idx.
Proof.
  intros Hne. apply list_eq. intros i. rewrite !list_lookup_fmap. destruct (idx !! i) as [j|] eqn:E.
  - pose proof (lookup_lt_Some _ _ _ E). assert (Hs : seqZ 0 (zlen idx) !! i = Some (Z.of_nat i)).
    { apply lookup_seqZ. unfold zlen. lia. }
    rewrite Hs. cbn. unfold mock_tuple, array_at. rewrite bool_decide_eq_false_2 by done. by rewrite Nat2Z.id, E.
  - apply lookup_ge_None in E. rewrite lookup_seqZ_ge; [done|]. unfold zlen. lia.
Qed.

Lemma size_nonneg table : 0 <= GetSizeOf table.
Proof. unfold GetSizeOf. repeat case_match; done. Qed.
Lemma shuffled_size table : GetShuffled table = true -> 0 < GetSizeOf table.
Proof.
  unfold GetShuffled, GetSizeOf, named. repeat (case_bool_decide; [subst table; vm_compute; done|]). done.
Qed.

Lemma mock_ctor_rows out table : exec_rows (MockScanExecutor_ctor out table) = mock_rows out table.
Proof.
  unfold MockScanExecutor_ctor, mock_rows. cbn [exec_rows]. rewrite Z.sub_0_r.
  pose proof (shuffled_size table) as Hs. pose proof (size_nonneg table) as Hn.
  revert Hs Hn. generalize (GetSizeOf table) as n. intros n Hs Hn. destruct (GetShuffled table).
  - specialize (Hs eq_refl). pose proof (Permutation_length (shuffle_perm (seqZ 0 n))) as Hl. rewrite length_seqZ in Hl.
    replace n with (zlen (shuffle (seqZ 0 n))) at 2 by (unfold zlen; lia). apply mock_tuples.
    intros He. rewrite He in Hl. cbn in Hl. lia.
  - done.
Qed.

(** An executor that runs a plan from its start. *)
Definition starts (e : Executor) (p : AbstractPlanNode) : Prop :=
  exec_wf e /\ exec_rows e = plan_rows p /\ (calls e <= plan_calls p)%nat /\
  (plan_rows p <> [] -> exec_schema e = OutputSchema p).

Definition created (p : AbstractPlanNode) (r : result Executor) : Prop :=
  if creatable p then
    exists e, r = Ok e /\
      if executable p then exists e', Init e = Ok e' /\ starts e' p else Init e = Throw NotImplemented
  else r = Throw NotImplemented.

Lemma starts_filter out predicate e c :
  starts e c -> starts (FilterExecutor out predicate e) (PlanNode out [c] (FilterPlanNode predicate)).
Proof.
  intros (Hw & Hr & Hc & Hs). split_and!; [done| |cbn; lia|].
  - cbn. rewrite Hr. destruct (plan_rows c); [done|]. by rewrite Hs.
  - done.
Qed.
Lemma starts_projection out exprs e c :
  starts e c -> starts (ProjectionExecutor out exprs e) (PlanNode out [c] (ProjectionPlanNode exprs)).
Proof.
  intros (Hw & Hr & Hc & Hs). split_and!; [done| |cbn; lia|].
  - cbn. rewrite Hr. destruct (plan_rows c); [done|]. by rewrite Hs.
  - done.
Qed.
Lemma starts_mock out table : starts (MockScanExecutor_ctor out table) (PlanNode out [] (MockScanPlanNode table)).
Proof.
  split_and!; [|apply mock_ctor_rows| |done].
  - cbn. pose proof (size_nonneg table). lia.
  - cbn -[GetSizeOf]. by rewrite Z.sub_0_r.
Qed.

Lemma executable_creatable p : shaped p = true -> executable p = true -> creatable p = true.
Proof.
  induction p as [out cs kind IH] using plan_ind. cbn [shaped executable creatable]. rewrite andb_true_iff. intros [Hl Hs] He.
  assert (Hf : forallb executable cs = true -> forallb creatable cs = true).
  { rewrite !forallb_forall in *. intros Hx c Hc. rewrite Forall_forall in IH. apply IH; [by apply list_elem_of_In|auto|auto]. }
  apply Nat.eqb_eq in Hl. destruct kind; try done; cbn [node_creatable andb]; auto;
    by destruct cs.
Qed.

Lemma create_one out c kind e0 :
  created c (CreateExecutor c) -> node_creatable kind = true -> executable (PlanNode out [c] kind) = false ->
  Init e0 = Throw NotImplemented -> created (PlanNode out [c] kind) (let! _ := CreateExecutor c in Ok e0).
Proof.
  unfold created. cbn [creatable forallb]. rewrite andb_true_r. intros Hc -> -> Hi. cbn [andb].
  destruct (creatable c); [|by rewrite Hc]. destruct Hc as (e & -> & _). cbn. by eexists.
Qed.

Lemma create_through out c kind (mk : Executor -> Executor) :
  created c (CreateExecutor c) -> node_creatable kind = true -> executable (PlanNode out [c] kind) = executable c ->
  (forall e, Init (mk e) = let! e := Init e in Ok (mk e)) ->
  (forall e, starts e c -> starts (mk e) (PlanNode out [c] kind)) ->
  created (PlanNode out [c] kind) (let! e := CreateExecutor c in Ok (mk e)).
Proof.
  unfold created. cbn [creatable forallb]. rewrite andb_true_r. intros Hc -> -> Hi Hs. cbn [andb].
  destruct (creatable c); [|by rewrite Hc]. destruct Hc as (e & -> & He). cbn [rbind]. eexists. split; [done|].
  rewrite Hi. destruct (executable c); [|by rewrite He]. destruct He as (e' & -> & Hst). eexists. split; [done|]. by apply Hs.
Qed.

Lemma check_join_created out cs kind t e0 :
  node_creatable kind = join_ok t -> executable (PlanNode out cs kind) = false -> Init e0 = Throw NotImplemented ->
  forallb creatable cs = true -> created (PlanNode out cs kind) (check_join_type t e0).
Proof.
  intros Hn He Hi Hc. unfold created. cbn [creatable]. rewrite Hn, Hc, He, andb_true_r. unfold check_join_type, join_ok.
  destruct (_ || _); cbn [negb]; [|done]. by eexists.
Qed.

Lemma create_aggregation out c g a t :
  created c (CreateExecutor c) ->
  created (PlanNode out [c] (AggregationPlanNode g a t)) (let! _ := CreateExecutor c in Ok AggregationExecutor).
Proof.
  unfold created. cbn [creatable executable forallb node_creatable]. rewrite andb_true_r. cbn [andb].
  destruct (creatable c); [|by intros ->]. intros (e & -> & _). cbn. eexists. split; [done|]. eexists. split; [done|].
  by split_and!.
Qed.

(** Creating a child of a join: it goes on, or the exception leaves. *)
Lemma create_first out c cs kind k :
  created c (CreateExecutor c) -> (creatable c = true -> created (PlanNode out (c :: cs) kind) k) ->
  created (PlanNode out (c :: cs) kind) (let! _ := CreateExecutor c in k).
Proof.
  intros Hc Hk. destruct (creatable c) eqn:E; unfold created in Hc; rewrite E in Hc.
  - destruct Hc as (e & -> & _). by apply Hk.
  - rewrite Hc. unfold created. cbn [creatable forallb]. by rewrite E, andb_false_r.
Qed.
Lemma create_second out l r kind k :
  created r (CreateExecutor r) -> (creatable r = true -> created (PlanNode out [l; r] kind) k) ->
  created (PlanNode out [l; r] kind) (let! _ := CreateExecutor r in k).
Proof.
  intros Hc Hk. destruct (creatable r) eqn:E; unfold created in Hc; rewrite E in Hc.
  - destruct Hc as (e & -> & _). by apply Hk.
  - rewrite Hc. unfold created. cbn [creatable forallb]. by rewrite E, !andb_false_r.
Qed.

Lemma CreateExecutor_created p : shaped p = true -> created p (CreateExecutor p).
Proof.
  induction p as [out cs kind IH] using plan_ind. cbn [shaped]. rewrite andb_true_iff. intros [Hl%Nat.eqb_eq Hs].
  assert (Hc : forall c, c ∈ cs -> created c (CreateExecutor c)).
  { rewrite forallb_forall in Hs. rewrite Forall_forall in IH. intros c Hc. apply IH; [done|]. by apply Hs, list_elem_of_In. }
  clear IH Hs. destruct (arity kind) as [|[|[|]]] eqn:Ha; [| | |by destruct kind].
  - destruct cs; [|done]. destruct kind; try done; unfold created; cbn; eexists; (split; [done|]); try done.
    + eexists. split; [done|]. split_and!; [done|done|cbn; lia|done].
    + eexists. split; [done|]. apply starts_mock.
  - destruct cs as [|c [|]]; try done. specialize (Hc c ltac:(set_solver)).
    destruct kind; try done; cbn -[created]; try (by apply (create_one out c)).
    + by apply create_aggregation.
    + apply create_first; [done|]. intros Hcr. by apply check_join_created; [..|cbn; rewrite Hcr].
    + apply (create_through out c _ (FilterExecutor out predicate_)); try done; [cbn; by rewrite andb_true_r|intros e; apply starts_filter].
    + apply (create_through out c _ (ProjectionExecutor out expressions_)); try done; [cbn; by rewrite andb_true_r|intros e; apply starts_projection].
  - destruct cs as [|l [|r [|]]]; try done.
    pose proof (Hc l ltac:(set_solver)) as Hcl. pose proof (Hc r ltac:(set_solver)) as Hcr.
    destruct kind; try done; cbn -[created]; (apply create_first; [done|]; intros Hl'; apply create_second; [done|];
      intros Hr'; by apply check_join_created; [..|cbn; rewrite Hl', Hr']).
Qed.

Lemma execute_rows (plan : AbstractPlanNode) (fuel : nat) (result_set : list Tuple) :
  shaped plan = true -> (plan_calls plan < fuel)%nat ->
  Execute fuel plan result_set =
    Some (if executable plan then collect (plan_rows plan) result_set else Throw NotImplemented).
Proof.
  intros Hs Hf. pose proof (CreateExecutor_created plan Hs) as Hc. pose proof (executable_creatable plan Hs) as Hec.
  unfold created in Hc. unfold Execute. destruct (creatable plan).
  - destruct Hc as (e & -> & He). cbn [rbind]. destruct (executable plan); [|by rewrite He].
    destruct He as (e' & -> & Hw & <- & Hn & _). apply execute_loop_spec; [done|lia].
  - rewrite Hc. cbn. destruct (executable plan); [by specialize (Hec eq_refl)|done].
Qed.

(** ** Property *)

(** C21: running a plan. For every plan whose nodes have the number of children their
    classes are built with, and every fuel beyond a bound computed from the plan,
    [Execute] returns. When the executors of the plan are implemented it returns true
    with the rows of the list semantics appended to the result set, up to the first
    [bustub::Exception], which it swallows, while any other failure leaves it; for
    all other plans it throws [NotImplementedException]. *)
Theorem Execute_correct (plan : AbstractPlanNode) (fuel : nat) (result_set : list Tuple) :
  shaped plan = true -> (plan_calls plan < fuel)%nat ->
  Execute fuel plan result_set =
    Some (if executable plan then collect (plan_rows plan) result_set else Throw NotImplemented).
Proof. apply execute_rows. Qed.

End engine.
