(* ===== verification/Aggregation.v ===== *)
(** * The aggregation hash table

    [SimpleAggregationHashTable] (src/include/execution/executors/aggregation_executor.h) with its
    keys, their equality and their hash (src/include/execution/plans/aggregation_plan.h) and the hash
    functions of src/include/common/util/hash_util.h.

    [std::unordered_map] is the list of its entries in the order of iteration: a search compares the
    stored hash and then calls [operator==], and [place] says where a new entry goes. [CombineAggregateValues]
    is an unfinished part of the sources: its loop has no effect.

    Proved: values that compare equal have equal hashes, also across the integer types, as
    [std::unordered_map] requires of its hash; and a table that is filled with rows has exactly one entry
    per group. Rows with a NULL in the key are the exception, see [NULL_key_two_entries]. *)

From Stdlib Require Import String.
From S2P Require Import Prelude.
From S2P Require Import CStd.
From S2P Require Import Value.
From S2P Require Import Types.
From S2P Require Import TypeOps.
From S2P Require Import ValueFactory.
From S2P Require Import Tuple.
From S2P Require Import Expressions.
From S2P Require Import Plans.
Local Open Scope Z_scope.
Local Open Scope bustub_scope.

(** ** [HashUtil] *)

(** [hash = ((hash << 5) ^ (hash >> 27)) ^ bytes[i]] on [size_t]; a [char] is signed. *)
Definition hash_step (hash byte : Z) : Z :=
  Z.lxor (Z.lxor (uwrap 64 (Z.shiftl hash 5)) (Z.shiftr hash 27)) (uwrap 64 (swrap 8 byte)).
Definition HashBytes (bytes : list Z) : Z := foldl hash_step (zlen bytes) bytes.
Definition CombineHashes (l r : Z) : Z := HashBytes (le_encode 8 l ++ le_encode 8 r).
Definition PRIME_FACTOR : Z := 10000019.
Definition SumHashes (l r : Z) : Z := uwrap 64 (l mod PRIME_FACTOR + r mod PRIME_FACTOR) mod PRIME_FACTOR.
(** [Hash<T>] of an object of [n] bytes. *)
Definition Hash (n : nat) (x : Z) : Z := HashBytes (le_encode n x).

Definition HashValue (val : Value) : result Z :=
  match type_id_ val with
  | TINYINT => Ok (Hash 8 (GetAs int8_t val))
  | SMALLINT => Ok (Hash 8 (GetAs int16_t val))
  | INTEGER => Ok (Hash 8 (GetAs int32_t val))
  | BIGINT => Ok (Hash 8 (GetAs int64_t val))
  | BOOLEAN =>
      (* a [bool] object holds 0 or 1 *)
      let raw := GetAs int8_t val in if (raw =? 0) || (raw =? 1) then Ok (Hash 1 raw) else Throw Undefined
  | DECIMAL => Ok (Hash 8 (double_bits (GetAs_double val)))
  | VARCHAR =>
      match VarlenType_GetData val with
      | Some raw =>
          let len := VarlenType_GetLength val in
          if zlen raw <? len then Throw Undefined else Ok (HashBytes (slice 0 len raw))
      | None => if VarlenType_GetLength val =? 0 then Ok (HashBytes []) else Throw Undefined
      end
  | TIMESTAMP => Ok (Hash 8 (GetAs_uint64 val))
  | INVALID => Throw LogicError
  end.

(** ** Keys *)

Record AggregateKey := mkKey { group_bys_ : list Value }.
Record AggregateValue := mkAggregate { aggregates_ : list Value }.

(** [operator==]: the loop runs over the values of the other key. *)
Fixpoint compare_group_bys (this other : list Value) : result bool :=
  match other with
  | [] => Ok true
  | w :: other =>
      match this with
      | [] => Throw Undefined
      | v :: this =>
          let! c := Value_CompareEquals v w in
          match c with CmpTrue => compare_group_bys this other | _ => Ok false end
      end
  end.
Definition AggregateKey_eqb (this other : AggregateKey) : result bool := compare_group_bys (group_bys_ this) (group_bys_ other).

(** [std::hash<AggregateKey>] *)
Fixpoint hash_group_bys (curr_hash : Z) (group_bys : list Value) : result Z :=
  match group_bys with
  | [] => Ok curr_hash
  | key :: group_bys =>
      match (if negb (IsNull key) then let! h := HashValue key in Ok (CombineHashes curr_hash h) else Ok curr_hash) with
      | Ok curr_hash => hash_group_bys curr_hash group_bys
      | Throw x => Throw x
      end
  end.
Definition AggregateKey_hash (k : AggregateKey) : result Z := hash_group_bys 0 (group_bys_ k).

(** ** [SimpleAggregationHashTable] *)

Abbreviation entries := (list (AggregateKey * AggregateValue)).

Record SimpleAggregationHashTable := mkTable {
  ht_ : entries;
  agg_exprs_ : list AbstractExpression;
  agg_types_ : list AggregationType;
}.

Definition SimpleAggregationHashTable_ctor (agg_exprs : list AbstractExpression) (agg_types : list AggregationType)
    : SimpleAggregationHashTable := mkTable [] agg_exprs agg_types.

Definition initial_value (agg_type : AggregationType) : result Value :=
  match agg_type with
  | CountStarAggregate => GetIntegerValue 0
  | CountAggregate | SumAggregate | MinAggregate | MaxAggregate => GetNullValueByType INTEGER
  end.
Definition GenerateInitialAggregateValue (t : SimpleAggregationHashTable) : result AggregateValue :=
  let! values := rseq (initial_value <$> agg_types_ t) in Ok (mkAggregate values).

(** Every case of the switch breaks; [agg_types_[i]] is read for each expression. *)
Definition CombineAggregateValues (t : SimpleAggregationHashTable) (result input : AggregateValue) : Prelude.result AggregateValue :=
  if (length (agg_types_ t) <? length (agg_exprs_ t))%nat then Throw Undefined else Ok result.

Definition Clear (t : SimpleAggregationHashTable) : SimpleAggregationHashTable := mkTable [] (agg_exprs_ t) (agg_types_ t).

(** The position of the entry a search for a key finds. *)
Fixpoint ht_find (h : Z) (key : AggregateKey) (l : entries) : result (option nat) :=
  match l with
  | [] => Ok None
  | e :: l =>
      let! h' := AggregateKey_hash e.1 in
      let! same := (if h =? h' then AggregateKey_eqb key e.1 else Ok false) in
      if same : bool then Ok (Some 0%nat) else let! r := ht_find h key l in Ok (S <$> r)
  end.
Definition ht_search (key : AggregateKey) (l : entries) : result (option nat) :=
  let! h := AggregateKey_hash key in ht_find h key l.

Section table.
Context (place : AggregateKey * AggregateValue -> entries -> entries).

(** [insert] does nothing when the key is found; [operator[]] gives the entry of the key, a new empty one when
    there is none. *)
Definition ht_insert (key : AggregateKey) (v : AggregateValue) (l : entries) : result entries :=
  let! found := ht_search key l in Ok (match found with Some _ => l | None => place (key, v) l end).
Definition ht_update (key : AggregateKey) (f : AggregateValue -> result AggregateValue) (l : entries) : result entries :=
  let! found := ht_search key l in
  match found with
  | Some i =>
      match l !! i with
      | Some (k, v) => let! v := f v in Ok (<[i := (k, v)]> l)
      | None => Throw Undefined
      end
  | None => let! v := f (mkAggregate []) in Ok (place (key, v) l)
  end.

Definition InsertCombine (agg_key : AggregateKey) (agg_val : AggregateValue) (t : SimpleAggregationHashTable)
    : result SimpleAggregationHashTable :=
  let! found := ht_search agg_key (ht_ t) in
  let! l := match found with
            | None => let! v := GenerateInitialAggregateValue t in ht_insert agg_key v (ht_ t)
            | Some _ => Ok (ht_ t)
            end in
  let! l := ht_update agg_key (fun v => CombineAggregateValues t v agg_val) l in
  Ok (mkTable l (agg_exprs_ t) (agg_types_ t)).

(** Rows one after the other. *)
Fixpoint insert_rows (rows : list (AggregateKey * AggregateValue)) (t : SimpleAggregationHashTable)
    : result SimpleAggregationHashTable :=
  match rows with [] => Ok t | (k, v) :: rows => let! t := InsertCombine k v t in insert_rows rows t end.
End table.

(** [AggregationExecutor::MakeAggregateKey] and [MakeAggregateValue] *)
Definition MakeAggregateKey (group_bys : list AbstractExpression) (schema : Schema) (tuple : Tuple) : result AggregateKey :=
  let! keys := rseq ((fun expr => Evaluate expr (Some tuple) schema) <$> group_bys) in Ok (mkKey keys).
Definition MakeAggregateValue (aggregates : list AbstractExpression) (schema : Schema) (tuple : Tuple) : result AggregateValue :=
  let! vals := rseq ((fun expr => Evaluate expr (Some tuple) schema) <$> aggregates) in Ok (mkAggregate vals).

(** ** Equal keys have equal hashes *)

(** A value of a group key: not NULL and not a DECIMAL. *)
Definition group_value (t : TypeId) (v : Value) : Prop :=
  match int_type t, t with
  | Some T, _ => exists z, v = VInt t z /\ in_range T z
  | None, BOOLEAN => v = VInt BOOLEAN 0 \/ v = VInt BOOLEAN 1
  | None, VARCHAR => exists s, v = VString s /\ int_length s
  | None, _ => False
  end.
Definition group_key (ts : list TypeId) (k : AggregateKey) : Prop := Forall2 group_value ts (group_bys_ k).

(** Types whose values the table may meet at one position of its keys. *)
Definition same_kind (t u : TypeId) : Prop := t = u \/ is_Some (int_type t) /\ is_Some (int_type u).

(** What the value stands for: a number, or a string. *)
Definition meaning (v : Value) : Z + list Z :=
  match value_ v with VarlenVal (Some data) => inr data | _ => inl (raw v) end.

Lemma lex_Eq a b : lex a b = Eq <-> a = b.
Proof.
  revert b. induction a as [|x a IH]; intros [|y b]; cbn; [done..|].
  destruct (Z.compare_spec x y) as [->|?|?]; [rewrite IH|split; [done|intros [= -> _]]; lia..]. naive_solver.
Qed.

Lemma GetCmpBool_true b : GetCmpBool b = CmpTrue <-> b = true.
Proof. by destruct b. Qed.

(** Equality of values of one kind is equality of what they stand for. *)
Lemma compare_meaning t u v w :
  group_value t v -> group_value u w -> same_kind t u ->
  exists c, Value_CompareEquals v w = Ok c /\ (c = CmpTrue <-> meaning v = meaning w).
Proof.
  unfold group_value, same_kind. destruct (int_type t) as [T|] eqn:Ht.
  - intros (x & -> & Hx) Hw [<-|[_ [U Hu]]].
    + rewrite Ht in Hw. destruct Hw as (y & -> & Hy). eexists. split; [exact (Value_Compare_int OpEq t t T T x y Ht Ht Hx Hy)|].
      rewrite GetCmpBool_true. cbn. rewrite Z.eqb_eq. split; congruence.
    + rewrite Hu in Hw. destruct Hw as (y & -> & Hy). eexists. split; [exact (Value_Compare_int OpEq t u T U x y Ht Hu Hx Hy)|].
      rewrite GetCmpBool_true. cbn. rewrite Z.eqb_eq. split; congruence.
  - intros Hv Hw [<-|[[T HT] _]]; [|done]. rewrite Ht in Hw. destruct t; try done.
    + destruct Hv as [-> | ->], Hw as [-> | ->]; eexists; (split; [reflexivity|by vm_compute]).
    + destruct Hv as (a & -> & Ha), Hw as (b & -> & Hb). eexists.
      split; [exact (Value_Compare_varchar OpEq a b Ha Hb)|].
      rewrite GetCmpBool_true. transitivity (a = b).
      * rewrite <- lex_Eq. cbn. by destruct (lex a b).
      * cbn. split; [by intros ->|]. intros [= [E _]%app_inj_tail]. done.
Qed.

Lemma group_value_not_null t v : group_value t v -> IsNull v = false.
Proof.
  unfold group_value, IsNull. destruct (int_type t).
  - by intros (z & -> & _).
  - destruct t; try done; [by intros [-> | ->]|]. intros (s & -> & Hs). cbn.
    unfold int_length, BUSTUB_VALUE_NULL, zlen in *. lia.
Qed.

(** The hash of a value. *)
Definition value_hash (t : TypeId) (v : Value) : Z :=
  match meaning v with inr data => HashBytes data | inl z => Hash (if int_type t then 8 else 1)%nat z end.

Lemma HashValue_spec t v : group_value t v -> HashValue v = Ok (value_hash t v).
Proof.
  unfold group_value. destruct (int_type t) as [T|] eqn:Ht.
  - intros (z & -> & Hz%in_range_sfits). unfold value_hash. rewrite Ht. cbn [meaning VInt value_ raw].
    destruct t; inversion Ht; subst T; unfold HashValue; cbn [VInt type_id_]; unfold raw; cbn [value_];
      by rewrite (GetAs_VInt _ _ z Hz).
  - destruct t; try done; [by intros [-> | ->]|]. intros (s & -> & _).
    unfold HashValue, value_hash, VarlenType_GetData, VarlenType_GetLength. cbn [VString type_id_ value_ len_ meaning].
    assert (E : zlen (s ++ [0]) = zlen s + 1) by (unfold zlen; rewrite length_app; cbn; lia).
    rewrite E, Z.ltb_irrefl, <- E. unfold slice, zlen. by rewrite Nat2Z.id, drop_0, take_ge.
Qed.

Lemma value_hash_kind t u v : same_kind t u -> value_hash t v = value_hash u v.
Proof. unfold value_hash. intros [<-|[[? ->] [? ->]]]; done. Qed.

Lemma value_hash_meaning t v w : meaning v = meaning w -> value_hash t v = value_hash t w.
Proof. unfold value_hash. by intros ->. Qed.
#[local] Opaque value_hash CombineHashes.

Lemma hash_group_bys_ok ts vs h : Forall2 group_value ts vs -> exists r, hash_group_bys h vs = Ok r.
Proof.
  intros F. revert h. induction F as [|t v ts vs Hv F IH]; intros h; cbn [hash_group_bys]; [eauto|].
  rewrite (group_value_not_null t v Hv). cbn [negb]. rewrite (HashValue_spec t v Hv). cbn [rbind]. apply IH.
Qed.

Lemma compare_group_bys_spec ts us vs ws :
  Forall2 group_value ts vs -> Forall2 group_value us ws -> Forall2 same_kind ts us ->
  exists b, compare_group_bys vs ws = Ok b /\ (b = true <-> meaning <$> vs = meaning <$> ws).
Proof.
  intros Fv Fw F. revert vs ws Fv Fw.
  induction F as [|t u ts us Hk F IH]; intros [|v vs] [|w ws] Fv Fw; try (inversion Fv; inversion Fw; done).
  { by exists true. }
  inversion Fv; inversion Fw; subst. cbn [compare_group_bys].
  destruct (compare_meaning t u v w) as (c & -> & Hc); [done..|]. cbn [rbind].
  destruct (IH vs ws) as (b & Hb & Hi); [done..|]. destruct c.
  - exists false. split; [done|]. cbn. split; [done|]. intros [= E _]. by apply Hc in E.
  - exists b. split; [done|]. assert (E : meaning v = meaning w) by by apply Hc. rewrite Hi. cbn. rewrite E.
    split; [by intros -> |]. by intros [= E2].
  - exists false. split; [done|]. cbn. split; [done|]. intros [= E _]. by apply Hc in E.
Qed.

Lemma hash_group_bys_meaning ts us vs ws h :
  Forall2 group_value ts vs -> Forall2 group_value us ws -> Forall2 same_kind ts us -> meaning <$> vs = meaning <$> ws ->
  hash_group_bys h vs = hash_group_bys h ws.
Proof.
  intros Fv Fw F. revert vs ws h Fv Fw.
  induction F as [|t u ts us Hk F IH]; intros [|v vs] [|w ws] h Fv Fw; try (inversion Fv; inversion Fw; done).
  inversion Fv; inversion Fw; subst. cbn. intros [= E El]. cbn [hash_group_bys].
  rewrite (group_value_not_null t v), (group_value_not_null u w) by done. cbn [negb].
  rewrite (HashValue_spec t v), (HashValue_spec u w) by done. cbn [rbind].
  rewrite (value_hash_kind t u v Hk), (value_hash_meaning u v w E). by apply IH.
Qed.

(** C32: [std::hash<AggregateKey>] meets the requirement of [std::unordered_map]: for keys of the same length whose
    values are not NULL and not DECIMAL and are, position by position, of one type or both of integer types, [operator==] returns (it does
    not throw), it holds exactly when the keys stand for the same numbers and strings, and keys for which it holds have the same hash,
    also when a number is stored as a TINYINT in one key and as a BIGINT in the other. *)
Theorem equal_keys_equal_hashes (ts us : list TypeId) (k l : AggregateKey) :
  group_key ts k -> group_key us l -> Forall2 same_kind ts us ->
  exists b, AggregateKey_eqb k l = Ok b /\ (b = true <-> meaning <$> group_bys_ k = meaning <$> group_bys_ l) /\
    (b = true -> exists h, AggregateKey_hash k = Ok h /\ AggregateKey_hash l = Ok h).
Proof.
  intros Hk Hl F. destruct (compare_group_bys_spec ts us (group_bys_ k) (group_bys_ l)) as (b & Hb & Hi); [done..|].
  exists b. split_and!; [done..|]. intros E%Hi. destruct (hash_group_bys_ok ts (group_bys_ k) 0 Hk) as [h Hh].
  exists h. split; [done|]. unfold AggregateKey_hash. by rewrite <- (hash_group_bys_meaning ts us (group_bys_ k)).
Qed.

Lemma equal_keys_equal_hashes_witness :
  exists h, AggregateKey_hash (mkKey [VInt TINYINT (-7); VString (str "x")]) = Ok h /\
            AggregateKey_hash (mkKey [VInt BIGINT (-7); VString (str "x")]) = Ok h.
Proof.
  destruct (equal_keys_equal_hashes [TINYINT; VARCHAR] [BIGINT; VARCHAR]
    (mkKey [VInt TINYINT (-7); VString (str "x")]) (mkKey [VInt BIGINT (-7); VString (str "x")])) as (b & Hb & Hi & Hh).
  - repeat constructor; cbn; [exists (-7)|exists (str "x")]; (split; [reflexivity|]); vm_compute; intuition congruence.
  - repeat constructor; cbn; [exists (-7)|exists (str "x")]; (split; [reflexivity|]); vm_compute; intuition congruence.
  - constructor; [right; vm_compute; eauto|]. constructor; [by left|constructor].
  - apply Hh, Hi. reflexivity.
Defined.

(** ** One entry per group *)

Lemma group_value_inj t v w : group_value t v -> group_value t w -> meaning v = meaning w -> v = w.
Proof.
  unfold group_value. destruct (int_type t).
  - intros (x & -> & _) (y & -> & _). cbn. by intros [= ->].
  - destruct t; try done.
    + by intros [-> | ->] [-> | ->].
    + intros (a & -> & _) (b & -> & _). cbn. by intros [= [-> _]%app_inj_tail].
Qed.

Lemma group_key_inj ts k l :
  group_key ts k -> group_key ts l -> meaning <$> group_bys_ k = meaning <$> group_bys_ l -> k = l.
Proof.
  destruct k as [vs], l as [ws]. unfold group_key. cbn. intros Fv Fw E. f_equal. revert ws Fw E.
  induction Fv as [|t v ts vs Hv Fv IH]; intros [|w ws] Fw E; try (inversion Fw; done).
  inversion Fw; subst. cbn in E. injection E as E El. f_equal; [by apply (group_value_inj t)|by apply IH].
Qed.

Lemma same_kind_refl ts : Forall2 same_kind ts ts.
Proof. induction ts; constructor; [by left|done]. Qed.

Lemma AggregateKey_eqb_eq ts k l :
  group_key ts k -> group_key ts l -> exists b, AggregateKey_eqb k l = Ok b /\ (b = true <-> k = l).
Proof.
  intros Hk Hl. destruct (compare_group_bys_spec ts ts (group_bys_ k) (group_bys_ l)) as (b & Hb & Hi); [done..|apply same_kind_refl|].
  exists b. split; [done|]. rewrite Hi. split; [by apply (group_key_inj ts)|by intros ->].
Qed.

(** The searches of a table of keys of one type. *)
Lemma ht_search_spec ts k l :
  group_key ts k -> Forall (group_key ts) l.*1 ->
  exists r, ht_search k l = Ok r /\ match r with Some i => exists v, l !! i = Some (k, v) | None => k ∉ l.*1 end.
Proof.
  intros Hk Fl. unfold ht_search. destruct (hash_group_bys_ok ts (group_bys_ k) 0 Hk) as [h Hh].
  unfold AggregateKey_hash at 1. rewrite Hh. cbn [rbind].
  induction l as [|[k' v'] l IH]; cbn [ht_find fmap list_fmap] in *; [exists None; split; [done|set_solver]|].
  apply Forall_cons in Fl as [Hk' Fl]. destruct (IH Fl) as (r & Hr & HR). cbn [fst] in *.
  destruct (hash_group_bys_ok ts (group_bys_ k') 0 Hk') as [h' Hh']. unfold AggregateKey_hash at 1. rewrite Hh'. cbn [rbind].
  destruct (AggregateKey_eqb_eq ts k k' Hk Hk') as (b & Hb & Hi).
  destruct (Z.eqb_spec h h') as [->|Hne].
  - rewrite Hb. cbn [rbind]. destruct b.
    + exists (Some 0%nat). split; [done|]. assert (k = k') as -> by by apply Hi. by exists v'.
    + rewrite Hr. cbn [rbind]. exists (S <$> r). split; [done|]. destruct r; cbn; [done|].
      apply not_elem_of_cons. split; [|done]. intros E. by apply Hi in E.
  - cbn [rbind]. rewrite Hr. cbn [rbind]. exists (S <$> r). split; [done|]. destruct r; cbn; [done|].
    apply not_elem_of_cons. split; [|done]. intros ->. congruence.
Qed.

Lemma initial_ok t : exists v, GenerateInitialAggregateValue t = Ok v.
Proof.
  unfold GenerateInitialAggregateValue. destruct (rseq (initial_value <$> agg_types_ t)) as [vs|x] eqn:E; cbn; [eauto|].
  exfalso. revert E. induction (agg_types_ t) as [|a l IH]; cbn [fmap list_fmap rseq]; [done|].
  assert (exists v, initial_value a = Ok v) as [v ->] by (destruct a; eexists; vm_compute; reflexivity).
  destruct (rseq (initial_value <$> l)); cbn; [done|]. intros [= ->]. by apply IH.
Qed.

(** A table whose rows had keys of the types [ts]: one entry for each key of [seen], with the initial value. *)
Record table_of (ts : list TypeId) (init : AggregateValue) (seen : AggregateKey -> Prop) (t : SimpleAggregationHashTable) : Prop := {
  to_init : GenerateInitialAggregateValue t = Ok init;
  to_types : (length (agg_exprs_ t) <= length (agg_types_ t))%nat;
  to_keys : Forall (group_key ts) (ht_ t).*1;
  to_nodup : NoDup (ht_ t).*1;
  to_seen k : k ∈ (ht_ t).*1 <-> seen k;
  to_values : Forall (fun e => e.2 = init) (ht_ t);
}.

Section groups.
Context (place : AggregateKey * AggregateValue -> entries -> entries) (place_ok : forall e l, place e l ≡ₚ e :: l).

Lemma table_of_place ts init seen t k :
  table_of ts init seen t -> group_key ts k -> k ∉ (ht_ t).*1 ->
  table_of ts init (fun k' => k' = k \/ seen k') (mkTable (place (k, init) (ht_ t)) (agg_exprs_ t) (agg_types_ t)).
Proof.
  intros [Hi Ht Hk Hn Hs Hv] Hg Hnew. split; cbn [ht_ agg_exprs_ agg_types_]; rewrite ?place_ok; cbn [fmap list_fmap fst]; try done.
  - by constructor.
  - by constructor.
  - intros k'. rewrite place_ok. cbn. rewrite elem_of_cons. by rewrite Hs.
  - by constructor.
Qed.

(** The second search of [InsertCombine] finds the entry, and combining leaves it as it is. *)
Lemma ht_update_found ts init seen t k v :
  table_of ts init seen t -> group_key ts k -> k ∈ (ht_ t).*1 ->
  ht_update place k (fun u => CombineAggregateValues t u v) (ht_ t) = Ok (ht_ t).
Proof.
  intros [Hi Ht Hk Hn Hs Hv] Hg Hin. unfold ht_update. destruct (ht_search_spec ts k (ht_ t) Hg Hk) as ([i|] & -> & Hr); cbn [rbind]; [|done].
  destruct Hr as [u Hu]. rewrite Hu. unfold CombineAggregateValues.
  replace (length (agg_types_ t) <? length (agg_exprs_ t))%nat with false by (symmetry; apply Nat.ltb_ge; lia).
  cbn [rbind]. by rewrite list_insert_id.
Qed.

Lemma InsertCombine_step ts init seen t k v :
  table_of ts init seen t -> group_key ts k ->
  exists t', InsertCombine place k v t = Ok t' /\ table_of ts init (fun k' => k' = k \/ seen k') t'.
Proof.
  intros HT Hg. pose proof HT as [Hi Ht Hk Hn Hs Hv]. unfold InsertCombine.
  destruct (ht_search_spec ts k (ht_ t) Hg Hk) as ([i|] & E & Hr); rewrite E; cbn [rbind].
  - destruct Hr as [u Hu]. assert (Hin : k ∈ (ht_ t).*1) by (apply list_elem_of_fmap; exists (k, u); split; [done|by eapply list_elem_of_lookup_2]).
    rewrite (ht_update_found ts init seen t k v) by done. cbn [rbind]. eexists. split; [done|].
    destruct t. split; cbn in *; try done. intros k'. rewrite Hs. split; [tauto|]. intros [->|?]; [by apply Hs|done].
  - rewrite Hi. cbn [rbind]. unfold ht_insert. rewrite E. cbn [rbind].
    pose proof (table_of_place ts init seen t k HT Hg Hr) as HT'.
    assert (HU : ht_update place k (fun u => CombineAggregateValues t u v) (place (k, init) (ht_ t)) = Ok (place (k, init) (ht_ t))).
    { apply (ht_update_found ts init _ (mkTable (place (k, init) (ht_ t)) (agg_exprs_ t) (agg_types_ t)) k v HT' Hg).
      by apply (to_seen _ _ _ _ HT'); left. }
    rewrite HU.
    cbn [rbind]. eexists. by split.
Qed.

Lemma insert_rows_spec ts init rows : forall seen t,
  table_of ts init seen t -> Forall (group_key ts) rows.*1 ->
  exists t', insert_rows place rows t = Ok t' /\ table_of ts init (fun k => k ∈ rows.*1 \/ seen k) t'.
Proof.
  induction rows as [|[k v] rows IH]; intros seen t HT F; cbn [insert_rows].
  - exists t. split; [done|]. destruct HT. split; try done. intros k. rewrite to_seen0. set_solver.
  - apply Forall_cons in F as [Hk F]. destruct (InsertCombine_step ts init seen t k v HT Hk) as (t1 & -> & HT1). cbn [rbind].
    destruct (IH _ t1 HT1 F) as (t' & -> & HT'). exists t'. split; [done|].
    destruct HT'. split; try done. intros k'. rewrite to_seen0. cbn. rewrite elem_of_cons. tauto.
Qed.

(** C31: The aggregation table has one entry per group: after any rows, whose keys have values of the types [ts] (integers of any
    width, BOOLEAN or VARCHAR, none NULL), have been inserted into an empty table, every step has returned, no key occurs in two entries, the keys
    of the entries are exactly the keys of the rows, and every entry has the initial aggregates: 0 for each COUNT star and NULL for
    the others, since the part that combines them is not written. It holds wherever [std::unordered_map] places new entries. *)
Theorem InsertCombine_groups (ts : list TypeId) (agg_exprs : list AbstractExpression) (agg_types : list AggregationType)
    (rows : list (AggregateKey * AggregateValue)) :
  (length agg_exprs <= length agg_types)%nat -> Forall (group_key ts) rows.*1 ->
  exists t init, insert_rows place rows (SimpleAggregationHashTable_ctor agg_exprs agg_types) = Ok t /\
    NoDup (ht_ t).*1 /\ (forall k, k ∈ (ht_ t).*1 <-> k ∈ rows.*1) /\
    Forall (fun e => e.2 = init) (ht_ t) /\
    initial_value <$> agg_types = Ok <$> aggregates_ init.
Proof.
  intros Ht F. destruct (initial_ok (SimpleAggregationHashTable_ctor agg_exprs agg_types)) as [init Hi].
  destruct (insert_rows_spec ts init rows (fun _ => False) (SimpleAggregationHashTable_ctor agg_exprs agg_types)) as (t & Ht' & HT); [|done|].
  { split; try done; try constructor; set_solver. }
  exists t, init. destruct HT. split_and!; try done.
  - intros k. rewrite to_seen0. tauto.
  - unfold GenerateInitialAggregateValue in Hi. cbn [agg_types_ SimpleAggregationHashTable_ctor] in Hi.
    destruct (rseq (initial_value <$> agg_types)) as [vs|] eqn:E; [|done]. injection Hi as <-. by apply rseq_Ok in E.
Qed.
End groups.

Definition demo_rows : list (AggregateKey * AggregateValue) :=
  (fun x => (mkKey [VInt INTEGER x], mkAggregate [])) <$> [4; 2; 4; 4; 2].

Lemma InsertCombine_groups_witness :
  exists t init, insert_rows cons demo_rows (SimpleAggregationHashTable_ctor [] [CountStarAggregate; SumAggregate]) = Ok t /\
    NoDup (ht_ t).*1 /\ (forall k, k ∈ (ht_ t).*1 <-> k ∈ demo_rows.*1) /\
    Forall (fun e => e.2 = init) (ht_ t) /\
    initial_value <$> [CountStarAggregate; SumAggregate] = Ok <$> aggregates_ init.
Proof.
  apply (InsertCombine_groups cons (fun e l => Permutation_refl (e :: l)) [INTEGER] [] [CountStarAggregate; SumAggregate] demo_rows).
  - cbn. lia.
  - repeat constructor; cbn; eexists; (split; [reflexivity|]); vm_compute; split; reflexivity.
Defined.

(** ** Keys outside of the theorem *)

(** A NULL compares equal to nothing: the key of a row with a NULL is not found, its entry is inserted, and
    [ht_[agg_key]], which does not find it either, adds an empty one. Two rows of one group leave four entries. *)
Definition null_key : AggregateKey := mkKey [NullInt INTEGER int32_t].
Theorem NULL_key_two_entries :
  let rows := [(null_key, mkAggregate []); (null_key, mkAggregate [])] in
  let initial := mkAggregate [VInt INTEGER 0] in
  exists t, insert_rows cons rows (SimpleAggregationHashTable_ctor [] [CountStarAggregate]) = Ok t /\
    ht_ t = [(null_key, mkAggregate []); (null_key, initial); (null_key, mkAggregate []); (null_key, initial)].
Proof. vm_compute. eexists. split; reflexivity. Qed.

(** DECIMAL: 0.0 and -0.0 are equal with different hashes; so are the INTEGER 1 and the DECIMAL 1.0. *)
Definition decimal_zero (negative : bool) : Value := mkValue DECIMAL (DoubleVal (SpecFloat.S754_zero negative)) 0.
Theorem decimal_zeros_differ :
  AggregateKey_eqb (mkKey [decimal_zero false]) (mkKey [decimal_zero true]) = Ok true /\
  AggregateKey_hash (mkKey [decimal_zero false]) <> AggregateKey_hash (mkKey [decimal_zero true]).
Proof. vm_compute. split; [reflexivity|discriminate]. Qed.
