(* ===== verification/PlannerTheory.v ===== *)
(** * What the planner makes

    [PlanQuery_scoped]: every plan of a statement is well scoped. Each column
    an expression reads is a column of the child it names, with its type, and the column types of
    the inner nodes follow from their expressions and children. The planner does not check
    everything an executor relies on: the rows of a VALUES list after the first, and that
    conditions are BOOLEAN ([unchecked_types_undefined]). *)

From Stdlib Require Import String.
From S2P Require Import Prelude.
From S2P Require Import CStd.
From S2P Require Import StringUtil.
From S2P Require Import Value.
From S2P Require Import Types.
From S2P Require Import ValueFactory.
From S2P Require Import Tuple.
From S2P Require Import Catalog.
From S2P Require Import Expressions.
From S2P Require Import Plans.
From S2P Require Import Bound.
From S2P Require Import Planner.
From S2P Require Import Executors.
Local Open Scope Z_scope.
Local Open Scope bustub_scope.
Local Open Scope planner_scope.

(** ** Well-formed plans *)

(** The columns an expression reads are there, with its types, in the children it
    names; operands have the types the constructors of expressions ask for. *)
Fixpoint scoped (schemas : list (list TypeId)) (e : AbstractExpression) : Prop :=
  match e with
  | ColumnValueExpression tuple_idx col_idx ret_type =>
      0 <= tuple_idx /\ 0 <= col_idx /\
      exists types, schemas !! Z.to_nat tuple_idx = Some types /\ types !! Z.to_nat col_idx = Some ret_type
  | ConstantValueExpression _ => True
  | ArithmeticExpression _ e1 e2 =>
      scoped schemas e1 /\ scoped schemas e2 /\ GetReturnType e1 = INTEGER /\ GetReturnType e2 = INTEGER
  | ComparisonExpression _ e1 e2 => scoped schemas e1 /\ scoped schemas e2
  | LogicExpression _ e1 e2 =>
      scoped schemas e1 /\ scoped schemas e2 /\ GetReturnType e1 = BOOLEAN /\ GetReturnType e2 = BOOLEAN
  end.

Definition plan_types (plan : AbstractPlanNode) : list TypeId := schema_types (OutputSchema plan).

(** A node the planner may make. *)
Definition node_scoped (out : list TypeId) (cs : list AbstractPlanNode) (kind : PlanKind) : Prop :=
  let here := scoped (plan_types <$> cs) in
  match kind, cs with
  | SeqScanPlanNode _ _ None, [] | MockScanPlanNode _, [] => True
  | ValuesPlanNode rows, [] => Forall (Forall here) rows /\ exists row rest, rows = row :: rest /\ out = GetReturnType <$> row
  | FilterPlanNode p, [c] => here p /\ out = plan_types c
  | ProjectionPlanNode exprs, [_] => Forall here exprs /\ out = GetReturnType <$> exprs
  | AggregationPlanNode keys aggs kinds, [_] =>
      Forall here keys /\ Forall here aggs /\ length kinds = length aggs /\
      out = (GetReturnType <$> keys) ++ replicate (length aggs) INTEGER
  | NestedLoopJoinPlanNode p _, [l; r] => here p /\ out = plan_types l ++ plan_types r
  | LimitPlanNode _, [c] => out = plan_types c
  | SortPlanNode order_bys, [c] => Forall here order_bys.*2 /\ out = plan_types c
  | InsertPlanNode _, [_] | DeletePlanNode _, [_] => out = [INTEGER]
  | UpdatePlanNode _ targets, [c] => Forall here targets /\ length targets = length (plan_types c) /\ out = [INTEGER]
  | _, _ => False
  end.

Fixpoint plan_scoped (plan : AbstractPlanNode) : Prop :=
  let '(PlanNode out cs kind) := plan in
  node_scoped (schema_types out) cs kind /\ foldr (fun c P => plan_scoped c /\ P) True cs.

Lemma plan_scoped_shaped plan : plan_scoped plan -> shaped plan = true.
Proof.
  induction plan as [out cs kind IH] using plan_ind. cbn [plan_scoped shaped]. intros [Hn Hcs].
  assert (forallb shaped cs = true) as ->.
  { clear Hn. induction IH as [|c cs Hc _ IH]; [done|]. destruct Hcs as [H Hcs]. cbn. by rewrite Hc, IH. }
  destruct kind; try done; destruct cs as [|? [|? [|]]]; try done; by destruct filter_predicate_.
Qed.

(** ** Types of schemas *)

Lemma add_columns_types st i cols :
  column_type_ <$> columns_ (add_columns st i cols) = (column_type_ <$> columns_ st) ++ (column_type_ <$> cols).
Proof.
  revert st i. induction cols as [|c cs IH]; intros st i; cbn [add_columns]; [by rewrite app_nil_r|].
  rewrite IH. cbn. by rewrite fmap_app, <- app_assoc.
Qed.
Lemma Schema_ctor_types cols : schema_types (Schema_ctor cols) = column_type_ <$> cols.
Proof. apply (add_columns_types (mkSchema 0 [] true [])). Qed.

Lemma make_column_type name t c : make_column name t = Ok c -> column_type_ c = t.
Proof. by destruct t; intros [= <-]. Qed.
Lemma make_columns_types cols cs : make_columns cols = Ok cs -> column_type_ <$> cs = cols.*2.
Proof.
  revert cs. induction cols as [|[name t] cols IH]; intros cs; cbn [make_columns]; [by intros [= <-]|].
  destruct (make_column name t) as [c|] eqn:Ec; cbn [rbind]; [|done]. destruct (make_columns cols) as [ds|]; cbn [rbind]; [|done].
  intros [= <-]. cbn. by rewrite (make_column_type _ _ _ Ec), (IH ds).
Qed.
Lemma RenameSchema_types s names s' : RenameSchema s names = Ok s' -> schema_types s' = schema_types s.
Proof.
  unfold RenameSchema, zlen. destruct (_ =? _) eqn:E; [|done]. intros [= <-]. rewrite Schema_ctor_types. apply rename_columns_types. lia.
Qed.
Lemma InferProjectionSchema_types exprs s : InferProjectionSchema exprs = Ok s -> schema_types s = GetReturnType <$> exprs.
Proof.
  unfold InferProjectionSchema. destruct (make_columns _) as [cs|] eqn:E; cbn [rbind]; [|done]. intros [= <-].
  rewrite Schema_ctor_types, (make_columns_types _ _ E), <- list_fmap_compose. done.
Qed.
Lemma InferAggSchema_types keys aggs kinds s :
  InferAggSchema keys aggs kinds = Ok s -> schema_types s = (GetReturnType <$> keys) ++ replicate (length aggs) INTEGER.
Proof.
  unfold InferAggSchema. destruct (make_columns (_ <$> keys)) as [cs|] eqn:E; cbn [rbind]; [|done].
  destruct (make_columns (_ <$> aggs)) as [ds|] eqn:F; cbn [rbind]; [|done]. intros [= <-].
  rewrite Schema_ctor_types, fmap_app, (make_columns_types _ _ E), (make_columns_types _ _ F), <- !list_fmap_compose.
  f_equal. clear. induction aggs; cbn; [done|]. by f_equal.
Qed.

(** ** Reasoning about the planner's monad *)

(** [m] keeps the expressions that stand for aggregates and its results satisfy [Q]. *)
Definition in_agg (s : Planner) : list AbstractExpression := expr_in_agg_ (ctx_ s).
Definition keeps {A} (I : list AbstractExpression) (m : planning A) (Q : A -> Prop) : Prop :=
  forall s a s', in_agg s = I -> m s = Some (Ok (a, s')) -> in_agg s' = I /\ Q a.
(** The results alone. *)
Definition ends {A} (I : list AbstractExpression) (m : planning A) (Q : A -> Prop) : Prop :=
  forall s a s', in_agg s = I -> m s = Some (Ok (a, s')) -> Q a.

Section rules.
Context {A B : Type} (I : list AbstractExpression).
Implicit Types (m : planning A) (f : A -> planning B).

Lemma keeps_ends m Q : keeps I m Q -> ends I m Q.
Proof. intros H s a s' Hs Hm. by destruct (H s a s' Hs Hm). Qed.
Lemma keeps_weaken m (P Q : A -> Prop) : keeps I m P -> (forall a, P a -> Q a) -> keeps I m Q.
Proof. intros H HQ s a s' Hs Hm. destruct (H s a s' Hs Hm). eauto. Qed.
Lemma keeps_pret (a : A) (Q : A -> Prop) : Q a -> keeps I (pret a) Q.
Proof. by intros HQ s b s' Hs [= <- <-]. Qed.
Lemma keeps_pthrow x (Q : A -> Prop) : keeps I (pthrow x) Q.
Proof. by intros s b s' Hs [=]. Qed.
Lemma keeps_plift r (Q : A -> Prop) : (forall a, r = Ok a -> Q a) -> keeps I (plift r) Q.
Proof. intros HQ s b s' Hs. unfold plift. destruct r as [a|]; [|done]. intros [= <- <-]. eauto. Qed.
Lemma keeps_bind m f (P : A -> Prop) (Q : B -> Prop) :
  keeps I m P -> (forall a, P a -> keeps I (f a) Q) -> keeps I (pbind f m) Q.
Proof.
  intros Hm Hf s b s' Hs. unfold pbind. destruct (m s) as [[[a s1]|]|] eqn:E; try done. destruct (Hm s a s1 Hs E). by apply Hf.
Qed.
Lemma ends_bind m f (P : A -> Prop) (Q : B -> Prop) :
  keeps I m P -> (forall a, P a -> ends I (f a) Q) -> ends I (pbind f m) Q.
Proof.
  intros Hm Hf s b s' Hs. unfold pbind. destruct (m s) as [[[a s1]|]|] eqn:E; try done. destruct (Hm s a s1 Hs E). by eapply Hf.
Qed.
Lemma keeps_get (f : Planner -> planning B) (Q : B -> Prop) :
  (forall s, in_agg s = I -> keeps I (f s) Q) -> keeps I (pbind f pget) Q.
Proof. intros Hf s b s' Hs H. by eapply (Hf s). Qed.
Lemma ends_get (f : Planner -> planning B) (Q : B -> Prop) :
  (forall s, in_agg s = I -> ends I (f s) Q) -> ends I (pbind f pget) Q.
Proof. intros Hf s b s' Hs H. by eapply (Hf s). Qed.
Lemma keeps_set c (f : unit -> planning B) (Q : B -> Prop) :
  expr_in_agg_ c = I -> keeps I (f tt) Q -> keeps I (pbind f (pset_ctx c)) Q.
Proof. intros Hc Hf s b s' Hs H. by eapply (Hf (mkPlanner c (cte_list_ s) (universal_id_ s))). Qed.
Lemma ends_set c (f : unit -> planning B) (Q : B -> Prop) :
  ends (expr_in_agg_ c) (f tt) Q -> ends I (pbind f (pset_ctx c)) Q.
Proof. intros Hf s b s' Hs H. by eapply (Hf (mkPlanner c (cte_list_ s) (universal_id_ s))). Qed.
Lemma keeps_set_ctes l (f : unit -> planning B) (Q : B -> Prop) :
  keeps I (f tt) Q -> keeps I (pbind f (pset_ctes l)) Q.
Proof. intros Hf s b s' Hs H. by eapply (Hf (mkPlanner (ctx_ s) l (universal_id_ s))). Qed.
Lemma keeps_new_context m (Q : A -> Prop) : ends [] m Q -> keeps I (with_new_context m) Q.
Proof.
  intros Hm s b s' Hs. unfold with_new_context, pbind. cbn. destruct (m _) as [[[a s1]|]|] eqn:E; try done. intros [= <- <-]. split; [done|]. by eapply Hm in E.
Qed.
Lemma keeps_pmap (f : A -> planning B) (Q : B -> Prop) l :
  Forall (fun a => keeps I (f a) Q) l -> keeps I (pmap f l) (fun bs => Forall Q bs /\ length bs = length l).
Proof.
  induction 1 as [|a l Ha _ IH]; cbn [pmap]; [by intros s b s' Hs [= <- <-]|].
  intros s b s' Hs. unfold pbind. destruct (f a s) as [[[x s1]|]|] eqn:E; try done. destruct (Ha s x s1 Hs E) as [Hs1 Hx].
  destruct (pmap f l s1) as [[[xs s2]|]|] eqn:F; try done. destruct (IH s1 xs s2 Hs1 F) as [Hs2 [Hxs Hl]].
  intros [= <- <-]. split; [done|]. split; [by constructor|]. cbn. by rewrite Hl.
Qed.
Lemma keeps_with_ctes ctes m Q : keeps I m Q -> keeps I (with_ctes ctes m) (fun r => Q r.1).
Proof.
  intros Hm s [a l] s' Hs. unfold with_ctes. destruct ctes as [|c cs].
  - unfold pbind. destruct (m s) as [[[b s1]|]|] eqn:E; try done. intros [= <- <- <-]. by eapply Hm in E.
  - unfold pbind. cbn. destruct (m _) as [[[b s1]|]|] eqn:E; try done. intros [= <- <- <-]. by eapply Hm in E.
Qed.
End rules.

(** ** Expressions *)

Lemma resolve_scoped schema k i e schemas :
  0 <= k -> schemas !! Z.to_nat k = Some (schema_types schema) -> resolve schema k i = Ok e -> scoped schemas e.
Proof.
  intros Hk Hs. unfold resolve, GetColumn. destruct (i <? 0) eqn:Ei; [done|].
  destruct (columns_ schema !! Z.to_nat i) as [c|] eqn:Ec; [|done]. intros [= <-]. cbn.
  split_and!; [done|lia|]. eexists. split; [done|]. unfold schema_types. by rewrite list_lookup_fmap, Ec.
Qed.

Lemma PlanColumnRef_scoped name children r :
  PlanColumnRef name children = Ok r -> scoped (plan_types <$> children) r.2.
Proof.
  unfold PlanColumnRef. destruct children as [|l [|r0 [|]]]; try done.
  - destruct (1 <? _)%nat; [done|]. destruct (GetColIdx _ _) as [i|]; cbn [rbind]; [|done].
    destruct (resolve _ 0 i) as [e|] eqn:E; cbn [rbind]; [|done]. intros [= <-]. by eapply (resolve_scoped _ 0 i).
  - destruct (TryGetColIdx (OutputSchema l) _) as [i|], (TryGetColIdx (OutputSchema r0) _) as [j|]; try done.
    + destruct (resolve _ 0 i) as [e|] eqn:E; cbn [rbind]; [|done]. intros [= <-]. by eapply (resolve_scoped _ 0 i).
    + destruct (resolve _ 1 j) as [e|] eqn:E; cbn [rbind]; [|done]. intros [= <-]. by eapply (resolve_scoped _ 1 j).
Qed.

Lemma typed_pair_eqb t e1 e2 :
  negb (TypeId_eqb (GetReturnType e1) t) || negb (TypeId_eqb (GetReturnType e2) t) = false ->
  GetReturnType e1 = t /\ GetReturnType e2 = t.
Proof. by destruct (GetReturnType e1), (GetReturnType e2), t. Qed.

Lemma ctor_scoped schemas l r e : scoped schemas l -> scoped schemas r ->
  (forall op, ArithmeticExpression_ctor l r op = Ok e -> scoped schemas e) /\
  (forall op, LogicExpression_ctor l r op = Ok e -> scoped schemas e).
Proof.
  intros Hl Hr. split; intros op; unfold ArithmeticExpression_ctor, LogicExpression_ctor;
    (destruct (_ || _) eqn:E; [done|]); intros [= <-]; apply typed_pair_eqb in E; by cbn.
Qed.

Lemma binary_scoped schemas op l r e :
  scoped schemas l -> scoped schemas r -> GetBinaryExpressionFromFactory op l r = Ok e -> scoped schemas e.
Proof.
  intros Hl Hr. destruct (ctor_scoped schemas l r e Hl Hr) as [HA HL]. unfold GetBinaryExpressionFromFactory.
  repeat (case_match; [try (by intros [= <-]); try apply HA; try apply HL|]). done.
Qed.

(** Expressions planned over [children], with aggregates that are columns of them. *)
Lemma PlanExpression_scoped I children expr :
  Forall (scoped (plan_types <$> children)) I ->
  keeps I (PlanExpression expr children) (fun r => scoped (plan_types <$> children) r.2).
Proof.
  intros HI. induction expr as [|val|name|func dist args| |op e IH|op l IHl r IHr|alias e IH]; cbn [PlanExpression];
    try apply keeps_pthrow.
  - by apply keeps_pret.
  - apply keeps_plift. apply PlanColumnRef_scoped.
  - apply (keeps_bind _ _ _ (scoped (plan_types <$> children))); [|intros e He; by apply keeps_pret].
    apply keeps_get. intros s Hs. cbv zeta. destruct (expr_in_agg_ (ctx_ s) !! next_aggregation_ (ctx_ s)) as [e|] eqn:E; [|apply keeps_pthrow].
    apply keeps_set; [done|]. apply keeps_pret. unfold in_agg in Hs. rewrite Hs in E. by apply (Forall_lookup_1 _ _ _ _ HI E).
  - eapply keeps_bind; [done|]. intros [n1 e1] H1. eapply keeps_bind; [done|]. intros [n2 e2] H2.
    apply (keeps_bind _ _ _ (scoped (plan_types <$> children))); [|intros e He; by apply keeps_pret].
    apply keeps_plift. intros e. by apply binary_scoped.
  - eapply keeps_bind; [done|]. intros [n e1] H1. by apply keeps_pret.
Qed.

Lemma PlanExpressions_scoped {A} I children (g : A -> BoundExpression) (l : list A) :
  Forall (scoped (plan_types <$> children)) I ->
  Forall (fun a => keeps I (PlanExpression (g a) children) (fun r => scoped (plan_types <$> children) r.2)) l.
Proof. intros HI. apply Forall_true. intros a. by apply PlanExpression_scoped. Qed.

Lemma Forall_snd {A B} (P : B -> Prop) (l : list (A * B)) : Forall (fun r => P r.2) l -> Forall P l.*2.
Proof. intros H. by apply Forall_fmap. Qed.

(** ** Aggregation *)

Lemma AddAggCallToContext_keeps I expr : keeps I (AddAggCallToContext expr) (fun _ => True).
Proof.
  induction expr as [|val|name|func dist args| |op e IH|op l IHl r IHr|alias e IH]; cbn [AddAggCallToContext];
    try apply keeps_pthrow; try by apply keeps_pret.
  - apply keeps_get. intros s Hs. eapply (keeps_bind _ _ _ (fun _ => True)); [|intros; by apply keeps_pret].
    apply keeps_get. intros s' Hs'. cbv zeta. destruct (negb _); [apply keeps_pthrow|]. intros s1 a s2 H1 [= <- <-]. by split.
  - eapply keeps_bind; [done|]. intros l' _. eapply keeps_bind; [done|]. intros r' _. by apply keeps_pret.
  - eapply keeps_bind; [done|]. intros e' _. by apply keeps_pret.
Qed.

Lemma GetAggCallFromFactory_args name args r : GetAggCallFromFactory name args = Ok r -> r.2 = args.
Proof. unfold GetAggCallFromFactory. destruct args as [|e [|]]; try done; repeat (case_match; [by intros [= <-]|]); done. Qed.

Lemma plan_aggregate_scoped I child item :
  keeps I (plan_aggregate child item) (fun r => scoped [plan_types child] r.2).
Proof.
  unfold plan_aggregate. apply (keeps_bind _ _ _ (fun r => Forall (scoped [plan_types child]) r.2)).
  - destruct item as [|val|name|func dist args| |op e|op l r|alias e]; cbn [PlanAggCall]; try apply keeps_pthrow.
    destruct dist; [apply keeps_pthrow|]. apply (keeps_bind _ _ _ (Forall (scoped [plan_types child]))).
    + apply keeps_new_context, keeps_ends.
      eapply keeps_weaken; [apply (keeps_pmap _ _ (scoped [plan_types child])), Forall_true; intros a|by intros ? []].
      eapply keeps_bind; [by apply (PlanExpression_scoped [] [child])|]. intros [n e] He. by apply keeps_pret.
    + intros es Hes. apply keeps_plift. intros r Hr. by rewrite (GetAggCallFromFactory_args _ _ _ Hr).
  - intros [k es] Hes. destruct es as [|e [|]]; try apply keeps_pthrow.
    + apply (keeps_bind _ _ _ (fun _ => True)); [by apply keeps_plift|]. intros one _. by apply keeps_pret.
    + apply keeps_pret. by apply Forall_cons in Hes as [? _].
Qed.

Lemma make_projection_scoped I exprs names child :
  plan_scoped child -> Forall (scoped [plan_types child]) exprs -> keeps I (make_projection exprs names child) plan_scoped.
Proof.
  intros Hc He. unfold make_projection. apply (keeps_bind _ _ _ (fun s => schema_types s = GetReturnType <$> exprs)).
  { apply keeps_plift. apply InferProjectionSchema_types. }
  intros s Hs. apply (keeps_bind _ _ _ (fun s => schema_types s = GetReturnType <$> exprs)).
  { apply keeps_plift. intros s' Hs'. by rewrite (RenameSchema_types _ _ _ Hs'). }
  intros out Ho. apply keeps_pret. by cbn.
Qed.

(** The columns of an aggregation that hold the aggregates. *)
Lemma agg_columns_scoped keys n :
  Forall (scoped [(GetReturnType <$> keys) ++ replicate n INTEGER]) (agg_columns (length keys) n).
Proof.
  apply Forall_fmap, Forall_forall. intros i [_ Hi]%elem_of_seq. cbn. split_and!; [lia|lia|]. eexists. split; [done|].
  rewrite Nat2Z.id, lookup_app_r by (rewrite length_fmap; lia). rewrite length_fmap. apply lookup_replicate_2. lia.
Qed.

Lemma plan_filter_scoped I where_ plan :
  Forall (scoped [plan_types plan]) I -> plan_scoped plan ->
  keeps I (plan_filter where_ plan) (fun p => plan_scoped p /\ plan_types p = plan_types plan).
Proof.
  intros HI Hp. unfold plan_filter. destruct (IsInvalid where_); [by apply keeps_pret|].
  eapply keeps_bind; [by apply (PlanExpression_scoped I [plan])|]. intros [n e] He. by apply keeps_pret.
Qed.

Lemma PlanSelectAgg_scoped I select_list group_by having child :
  plan_scoped child -> keeps I (PlanSelectAgg select_list group_by having child) (fun r => plan_scoped r.1.1).
Proof.
  intros Hc. unfold PlanSelectAgg. apply keeps_new_context, ends_set.
  eapply ends_bind; [by apply keeps_pmap, (PlanExpressions_scoped _ [child] id)|]. intros groups [Hg _].
  eapply (ends_bind _ _ _ (fun _ => True)); [destruct (IsInvalid having); [by apply keeps_pret|apply AddAggCallToContext_keeps]|].
  intros having' _. eapply ends_bind; [apply keeps_pmap, Forall_true, AddAggCallToContext_keeps|]. intros select_list' _.
  apply ends_get. intros s Hs. eapply ends_bind; [by apply keeps_pmap, Forall_true, plan_aggregate_scoped|]. intros aggs [Ha _].
  apply ends_get. intros s' Hs'. apply ends_set. cbn [expr_in_agg_]. unfold in_agg in Hs'. rewrite Hs'.
  eapply (ends_bind _ _ _ (fun s => schema_types s = (GetReturnType <$> groups.*2) ++ replicate (length aggs) INTEGER)).
  { apply keeps_plift. intros as_ Has. by rewrite (InferAggSchema_types _ _ _ _ Has), length_fmap. }
  intros as_ Has. eapply (ends_bind _ _ _ (fun s => schema_types s = (GetReturnType <$> groups.*2) ++ replicate (length aggs) INTEGER)).
  { apply keeps_plift. intros out Ho. by rewrite (RenameSchema_types _ _ _ Ho). }
  intros out Ho. set (plan := PlanNode out [child] _).
  assert (Hplan : plan_scoped plan).
  { cbn. split; [|done]. rewrite !length_fmap. split_and!; [by apply Forall_snd|by apply Forall_snd|done|done]. }
  assert (HI : Forall (scoped [plan_types plan]) (agg_columns (length groups) (length aggs))).
  { unfold plan_types. cbn [OutputSchema plan]. rewrite Ho, <- (length_fmap snd groups). apply agg_columns_scoped. }
  apply keeps_ends. eapply (keeps_bind _ _ _ (fun p => plan_scoped p /\ plan_types p = plan_types plan)).
  { by apply (plan_filter_scoped _ having' plan). }
  intros p [Hp Ht]. rewrite <- Ht in HI.
  eapply keeps_bind; [by apply keeps_pmap, (PlanExpressions_scoped _ [p] id)|]. intros items [Hi _].
  eapply keeps_bind; [by apply (make_projection_scoped _ items.*2 items.*1 p Hp), Forall_snd|].
  intros q Hq. by apply keeps_pret.
Qed.

(** ** Statements *)

Lemma all_columns_scoped plan :
  Forall (scoped [plan_types plan]) (all_columns plan) /\ GetReturnType <$> all_columns plan = plan_types plan.
Proof.
  unfold all_columns, plan_types, schema_types. split.
  - apply Forall_lookup_2. intros i e. rewrite list_lookup_imap. destruct (columns_ _ !! i) as [c|] eqn:E; intros [= <-].
    cbn. split_and!; [lia|lia|]. eexists. split; [done|]. by rewrite Nat2Z.id, list_lookup_fmap, E.
  - apply list_eq. intros i. rewrite !list_lookup_fmap, list_lookup_imap. by destruct (_ !! i).
Qed.

Lemma plan_normal_select_scoped select_list plan :
  plan_scoped plan -> keeps [] (plan_normal_select select_list plan) plan_scoped.
Proof.
  intros Hp. unfold plan_normal_select.
  eapply keeps_bind; [apply (keeps_pmap _ _ (fun r => scoped [plan_types plan] r.2)), Forall_true; intros item|].
  - eapply keeps_bind; [by apply (PlanExpression_scoped [] [plan])|]. intros [name e] He.
    apply (keeps_bind _ _ _ (fun _ => True)); [|intros; by apply keeps_pret].
    intros s n s' Hs. unfold name_column. by case_bool_decide; intros [= <- <-].
  - intros items [Hi _]. apply make_projection_scoped; [done|]. by apply Forall_snd.
Qed.

Lemma plan_distinct_scoped b plan :
  plan_scoped plan -> plan_scoped (plan_distinct b plan) /\ plan_types (plan_distinct b plan) = plan_types plan.
Proof.
  intros Hp. destruct b; [|done]. destruct (all_columns_scoped plan) as [Hs Ht]. cbn. split_and!; try done.
  by rewrite Ht, app_nil_r.
Qed.

Lemma plan_order_by_scoped sort plan : plan_scoped plan -> keeps [] (plan_order_by sort plan) plan_scoped.
Proof.
  intros Hp. unfold plan_order_by. destruct sort as [|ob sort]; [by apply keeps_pret|].
  eapply keeps_bind; [apply (keeps_pmap _ _ (fun r => scoped [plan_types plan] r.2)), Forall_true; intros [t e]|].
  - eapply keeps_bind; [by apply (PlanExpression_scoped [] [plan])|]. intros [name e'] He. by apply keeps_pret.
  - intros obs [Ho _]. apply keeps_pret. cbn. split_and!; try done. by apply Forall_snd.
Qed.

Lemma limit_constant_keeps I e : keeps I (limit_constant e) (fun _ => True).
Proof.
  unfold limit_constant. destruct e; try apply keeps_pthrow.
  apply (keeps_bind _ _ _ (fun _ => True)); [by apply keeps_plift|]. intros _ _. destruct (TypeId_eqb _ _);
    [by apply keeps_pret|apply keeps_pthrow].
Qed.
Lemma plan_limit_scoped I count offset plan : plan_scoped plan -> keeps I (plan_limit count offset plan) plan_scoped.
Proof.
  intros Hp. unfold plan_limit. destruct (_ && _); [by apply keeps_pret|].
  assert (Hc : forall e, keeps I (if IsInvalid e then pret None else let& n := limit_constant e in pret (Some n)) (fun _ => True)).
  { intros e. destruct (IsInvalid e); [by apply keeps_pret|].
    eapply keeps_bind; [apply limit_constant_keeps|]. intros n _. by apply keeps_pret. }
  eapply keeps_bind; [apply Hc|]. intros limit _. eapply keeps_bind; [apply Hc|]. intros off _.
  destruct off, limit; try apply keeps_pthrow. by apply keeps_pret.
Qed.

Lemma PlanBaseTableRef_scoped I catalog t : keeps I (PlanBaseTableRef catalog t) plan_scoped.
Proof.
  unfold PlanBaseTableRef. apply (keeps_bind _ _ _ (fun _ => True)); [by apply keeps_plift|].
  intros [table|] _; [|apply keeps_pthrow]. apply (keeps_bind _ _ _ (fun _ => True)); [by apply keeps_plift|].
  intros [] _; [|by apply keeps_pret]. apply (keeps_bind _ _ _ (fun _ => True)); [by apply keeps_plift|].
  intros [] _; [by apply keeps_pret|apply keeps_pthrow].
Qed.

Lemma PlanExpressionListRef_scoped values identifier : keeps [] (PlanExpressionListRef values identifier) plan_scoped.
Proof.
  unfold PlanExpressionListRef. eapply keeps_bind.
  { apply (keeps_pmap _ _ (Forall (scoped []))), Forall_true. intros row.
    eapply keeps_weaken; [apply (keeps_pmap _ _ (scoped [])), Forall_true; intros col|by intros ? []].
    eapply keeps_bind; [by apply (PlanExpression_scoped [] [])|]. intros [n e] He. by apply keeps_pret. }
  intros rows [Hr _]. destruct rows as [|row rows]; [apply keeps_pthrow|].
  apply (keeps_bind _ _ _ (fun cs => column_type_ <$> cs = GetReturnType <$> row)).
  - apply keeps_plift. intros cs Hcs. rewrite (make_columns_types _ _ Hcs). clear.
    apply list_eq. intros i. rewrite !list_lookup_fmap, list_lookup_imap. by destruct (row !! i).
  - intros cs Hcs. apply keeps_pret. cbn. split_and!; try done. exists row, rows. by rewrite Schema_ctor_types.
Qed.

Lemma plan_renaming_scoped I node names alias : plan_scoped node -> keeps I (plan_renaming node names alias) plan_scoped.
Proof.
  intros Hn. unfold plan_renaming. destruct (_ <? _)%nat; [apply keeps_pthrow|].
  apply make_projection_scoped; [done|]. apply all_columns_scoped.
Qed.

Lemma plan_select_clauses_scoped select_list wh group_by having lc lo sort dist plan :
  plan_scoped plan ->
  keeps [] (plan_select_clauses select_list wh group_by having lc lo sort dist plan) (fun r => plan_scoped r.1.1).
Proof.
  intros Hp. unfold plan_select_clauses. eapply keeps_bind; [by apply (plan_filter_scoped [])|]. intros p1 [Hp1 _].
  apply (keeps_bind _ _ _ (fun _ => True)); [by apply keeps_plift|]. intros agg _.
  apply (keeps_bind _ _ _ (fun r => plan_scoped r.1.1)).
  { destruct (_ || _); [by apply PlanSelectAgg_scoped|]. eapply keeps_bind; [by apply plan_normal_select_scoped|].
    intros p2 Hp2. by apply keeps_pret. }
  intros [[p2 h] sl] Hp2. eapply keeps_bind; [by apply plan_order_by_scoped, plan_distinct_scoped|].
  intros p3 Hp3. eapply keeps_bind; [by apply plan_limit_scoped|]. intros p4 Hp4. by apply keeps_pret.
Qed.

Section scoped_plans.
Context (catalog_ : Catalog).

Lemma plan_tables_scoped fuel :
  (forall t, keeps [] (PlanTableRef catalog_ fuel t) (fun r => plan_scoped r.1)) /\
  (forall I st, keeps I (PlanSelect catalog_ fuel st) (fun r => plan_scoped r.1)).
Proof.
  induction fuel as [|fuel [IHt IHs]]; [by split; intros; intros ???|]. split.
  - intros t. destruct t as [| |t|jt l r c|l r|values id|sub names alias|cte alias]; cbn [PlanTableRef]; try apply keeps_pthrow.
    + eapply keeps_bind; [apply PlanBaseTableRef_scoped|]. intros plan Hp. by apply keeps_pret.
    + eapply keeps_bind; [apply IHt|]. intros [lp l'] Hl. eapply keeps_bind; [apply IHt|]. intros [rp r'] Hr.
      eapply keeps_bind; [by apply (PlanExpression_scoped [] [lp; rp])|]. intros [n e] He. apply keeps_pret. cbn.
      split_and!; try done. unfold InferJoinSchema. by rewrite Schema_ctor_types, fmap_app.
    + eapply keeps_bind; [apply IHt|]. intros [lp l'] Hl. eapply keeps_bind; [apply IHt|]. intros [rp r'] Hr.
      apply (keeps_bind _ _ _ (fun _ => True)); [by apply keeps_plift|]. intros yes _. apply keeps_pret. cbn.
      split_and!; try done. unfold InferJoinSchema. by rewrite Schema_ctor_types, fmap_app.
    + eapply keeps_bind; [apply PlanExpressionListRef_scoped|]. intros plan Hp. by apply keeps_pret.
    + eapply keeps_bind; [apply IHs|]. intros [node sub'] Hn.
      eapply keeps_bind; [by apply plan_renaming_scoped|]. intros plan Hp. by apply keeps_pret.
    + apply keeps_get. intros s Hs. destruct (cte_list_ s) as [l|]; [|apply keeps_pthrow].
      destruct (find_cte _ _) as [[i [[sub names] cte_alias]]|]; [|apply keeps_pthrow].
      eapply keeps_bind; [apply IHs|]. intros [node sub'] Hn. apply keeps_get. intros s' Hs'. apply keeps_set_ctes.
      eapply keeps_bind; [by apply plan_renaming_scoped|]. intros plan Hp. by apply keeps_pret.
  - intros I [table select_list wh group_by having lc lo sort ctes dist]. cbn [PlanSelect].
    apply (keeps_bind _ _ _ (fun r => plan_scoped r.1.1.1.1)); [|intros [[[[p t] h] sl] cs] Hp; by apply keeps_pret].
    apply keeps_new_context, keeps_ends. apply (keeps_with_ctes _ _ _ (fun r => plan_scoped r.1.1.1)).
    apply (keeps_bind _ _ _ (fun r => plan_scoped r.1)).
    { destruct table; try apply IHt. apply keeps_pret. cbn. split_and!; [|by exists [], []|done]. by repeat constructor. }
    intros [plan t] Hp. eapply keeps_bind; [by apply plan_select_clauses_scoped|]. intros [[p1 h] sl] Hp1. by apply keeps_pret.
Qed.
Lemma plan_matching_scoped t e : keeps [] (plan_matching catalog_ t e) plan_scoped.
Proof.
  unfold plan_matching. eapply keeps_bind; [apply PlanBaseTableRef_scoped|]. intros table Ht.
  eapply keeps_bind; [by apply (PlanExpression_scoped [] [table])|]. intros [n p] Hp. by apply keeps_pret.
Qed.

Lemma count_schema_types I name : keeps I (count_schema name) (fun s => schema_types s = [INTEGER]).
Proof.
  unfold count_schema. apply (keeps_bind _ _ _ (fun c => column_type_ c = INTEGER)).
  - apply keeps_plift. by intros c [= <-].
  - intros c Hc. apply keeps_pret. rewrite Schema_ctor_types. cbn. by rewrite Hc.
Qed.

Lemma plan_targets_scoped plan targets target_exprs :
  Forall (from_option (scoped [plan_types plan]) True) target_exprs ->
  keeps [] (plan_targets plan targets target_exprs)
    (fun r => Forall (from_option (scoped [plan_types plan]) True) r /\ length r = length target_exprs).
Proof.
  revert target_exprs. induction targets as [|[col e] targets IH]; intros ts Hts; cbn [plan_targets]; [by apply keeps_pret|].
  eapply keeps_bind; [by apply (PlanExpression_scoped [] [plan])|]. intros [n e'] He.
  apply (keeps_bind _ _ _ (fun _ => True)); [by apply keeps_plift|]. intros [m c] _. destruct c as [k i t| | | |]; try apply keeps_pthrow.
  eapply keeps_weaken; [apply IH; by apply Forall_insert|]. intros r. by rewrite length_insert.
Qed.

Lemma Forall_defaults {A} (P : A -> Prop) (ts : list (option A)) (l : list A) :
  Forall (from_option P True) ts -> Forall P l -> length ts = length l ->
  Forall P (zip_with (fun t c => default c t) ts l) /\ length (zip_with (fun t c => default c t) ts l) = length l.
Proof.
  intros Hts Hl Hn. split; [|rewrite length_zip_with; lia]. revert l Hl Hn.
  induction Hts as [|t ts Ht _ IH]; intros l [|c cs Hc Hcs] [=]; cbn; constructor; [by destruct t|by apply IH].
Qed.

(** The plan of a statement; rows to insert have the types of the table. *)
Definition plan_for (statement : BoundStatement) (plan : AbstractPlanNode) : Prop :=
  plan_scoped plan /\
  match statement with
  | InsertStmt t _ => plan_types <$> Plan_GetChildren plan = [schema_types (bt_schema_ t)]
  | _ => True
  end.

Lemma PlanQuery_plan_for fuel statement : keeps [] (PlanQuery catalog_ fuel statement) (plan_for statement).
Proof.
  destruct (plan_tables_scoped fuel) as [_ Hsel].
  destruct statement as [st|t st|t e|t e ts| | | | |]; cbn [PlanQuery]; try apply keeps_pthrow.
  - eapply keeps_bind; [apply Hsel|]. intros [plan st'] Hp. by apply keeps_pret.
  - eapply keeps_bind; [apply Hsel|]. intros [plan st'] Hp. case_bool_decide as Ht; [|apply keeps_pthrow].
    eapply keeps_bind; [apply count_schema_types|]. intros s Hs. apply keeps_pret. repeat split; try done. cbn. by rewrite Ht.
  - eapply keeps_bind; [apply plan_matching_scoped|]. intros plan Hp.
    eapply keeps_bind; [apply count_schema_types|]. intros s Hs. by apply keeps_pret.
  - eapply keeps_bind; [apply plan_matching_scoped|]. intros plan Hp.
    destruct (all_columns_scoped plan) as [Hs Ht]. apply (f_equal length) in Ht. rewrite length_fmap in Ht.
    eapply keeps_bind; [apply plan_targets_scoped; by apply Forall_fmap, Forall_true|]. intros targets [Hts Hl].
    rewrite length_fmap in Hl. destruct (Forall_defaults _ _ _ Hts Hs) as [Hd Hdl].
    { rewrite Ht. unfold plan_types, schema_types. by rewrite length_fmap. }
    eapply keeps_bind; [apply count_schema_types|]. intros out Ho. apply keeps_pret. repeat split; try done. by rewrite <- Ht.
Qed.
End scoped_plans.

(** C25: whatever statement the planner accepts, its plan is well scoped. Every column
    reference in every node points to a column of the child it names and has that column's
    type; arithmetic has INTEGER operands and logic BOOLEAN operands. The column types of each inner node follow from
    its expressions and children: those of the child for a filter, a sort and a limit, of the expressions for a projection,
    of the keys and then an INTEGER per aggregate for an aggregation, of both sides for a join, one INTEGER for INSERT,
    DELETE and UPDATE. Each node has the children its executor asks for, and the query of an INSERT has the column
    types of the table. A VALUES node has the column types of its first row; the types of its other rows, the schemas of scans and the
    types of conditions and comparisons are not constrained (see [unchecked_types_undefined]). *)
Theorem PlanQuery_scoped (catalog_ : Catalog) (fuel : nat) (statement : BoundStatement) (plan : AbstractPlanNode) (s' : Planner) :
  PlanQuery catalog_ fuel statement Planner_ctor = Some (Ok (plan, s')) -> plan_for statement plan /\ shaped plan = true.
Proof.
  intros Hq. destruct (PlanQuery_plan_for catalog_ fuel statement Planner_ctor plan s' eq_refl Hq) as [_ Hp].
  split; [done|]. by apply plan_scoped_shaped, Hp.
Qed.

(** ** An example *)

Definition column (table col : string) : BoundExpression := BoundColumnRef [str table; str col].
Definition int_constant (z : Z) : BoundExpression := BoundConstant (VInt INTEGER z).
Definition demo_rows : BoundTableRef :=
  BoundExpressionListRef [[int_constant 1; int_constant 10]; [int_constant 1; int_constant 20]; [int_constant 2; int_constant 30]] (str "v").

(** [select v.0, max(v.1) + 1 from (values (1, 10), (1, 20), (2, 30)) v where v.1 > 5
     group by v.0 having count_star() > 1 order by v.0 limit 3] *)
Definition demo_statement : SelectStatement :=
  mkSelect demo_rows
    [column "v" "0"; BoundBinaryOp (str "+") (BoundAggCall (str "max") false [column "v" "1"]) (int_constant 1)]
    (BoundBinaryOp (str ">") (column "v" "1") (int_constant 5))
    [column "v" "0"]
    (BoundBinaryOp (str ">") (BoundAggCall (str "count_star") false []) (int_constant 1))
    (int_constant 3) BoundInvalid [(ASC, column "v" "0")] [] false.

Lemma PlanQuery_scoped_witness :
  exists plan s', PlanQuery Catalog_ctor 2 (SelectStmt demo_statement) Planner_ctor = Some (Ok (plan, s')) /\
    plan_for (SelectStmt demo_statement) plan /\ shaped plan = true.
Proof.
  destruct (PlanQuery Catalog_ctor 2 (SelectStmt demo_statement) Planner_ctor) as [[[plan s']|x]|] eqn:E;
    [|vm_compute in E; discriminate..].
  exists plan, s'. split; [reflexivity|]. exact (PlanQuery_scoped Catalog_ctor 2 (SelectStmt demo_statement) plan s' E).
Defined.

(** What is not checked: the rows of a VALUES list have the types of the first one, and a condition is a
    BOOLEAN. [values (1), ('bustub')] writes a string into the four bytes of an
    integer column; [where 2] reads the byte of an integer as a [bool]. *)
Definition plain_select (table : BoundTableRef) (select_list : list BoundExpression) (ctes : list CTE) : SelectStatement :=
  mkSelect table select_list BoundInvalid [] BoundInvalid BoundInvalid BoundInvalid [] ctes false.
Definition mixed_values : SelectStatement :=
  plain_select (BoundExpressionListRef [[int_constant 1]; [BoundConstant (VString (str "bustub"))]] (str "v")) [column "v" "0"] [].
Definition integer_condition : SelectStatement :=
  mkSelect demo_rows [column "v" "0"] (int_constant 2) [] BoundInvalid BoundInvalid BoundInvalid [] [] false.

Example unchecked_types_undefined :
  Forall (fun statement => exists plan s',
    PlanQuery Catalog_ctor 2 (SelectStmt statement) Planner_ctor = Some (Ok (plan, s')) /\
    Execute id 100 plan [] = Some (Throw Undefined)) [mixed_values; integer_condition].
Proof. repeat constructor; eexists _, _; (split; [vm_compute; reflexivity|vm_compute; reflexivity]). Qed.
