(* ===== verification/PlannerAgg.v ===== *)
(** * Planning aggregates

    [PlanSelectAgg] plans aggregate calls in two phases. It first moves them from the
    statement to the context, leaving pseudo calls behind; it plans them over the input
    into an aggregation node; then it plans the clauses with the pseudo calls over that
    node, each pseudo call taking the next column. [PlanSelectAgg_correct]: this is
    the plan, or the exception, of a direct translation ([plan_agg]), in which a call is replaced by the
    column with its number. *)

From Stdlib Require Import String.
From S2P Require Import Prelude.
From S2P Require Import CStd.
From S2P Require Import StringUtil.
From S2P Require Import Value.
From S2P Require Import Types.
From S2P Require Import ValueFactory.
From S2P Require Import Tuple.
From S2P Require Import Catalog.
From S2P Require Import Expressions.
From S2P Require Import Plans.
From S2P Require Import Bound.
From S2P Require Import Planner.
Local Open Scope Z_scope.
Local Open Scope bustub_scope.
Local Open Scope planner_scope.

(** ** The direct translation *)

(** The aggregate calls of an expression, from left to right. *)
Fixpoint calls (e : BoundExpression) : list BoundExpression :=
  match e with
  | BoundAggCall _ _ _ => [e]
  | BoundBinaryOp _ l r => calls l ++ calls r
  | BoundAlias _ child => calls child
  | _ => []
  end.

(** The expressions the planner handles. *)
Fixpoint plannable (e : BoundExpression) : bool :=
  match e with
  | BoundAggCall _ _ _ | BoundColumnRef _ | BoundConstant _ => true
  | BoundBinaryOp _ l r => plannable l && plannable r
  | BoundAlias _ child => plannable child
  | BoundInvalid | BoundStar | BoundUnaryOp _ _ => false
  end.

Section translation.
Context (agg : nat -> result AbstractExpression) (children : list AbstractPlanNode).

(** The name and translation of an expression whose calls are numbered from [n], and
    the number that comes next. *)
Fixpoint translate (n : nat) (e : BoundExpression) : result (list Z * AbstractExpression * nat) :=
  match e with
  | BoundAggCall _ _ _ => let! c := agg n in Ok (UNNAMED_COLUMN, c, S n)
  | BoundColumnRef name => let! r := PlanColumnRef name children in Ok (r, n)
  | BoundConstant val => Ok (UNNAMED_COLUMN, ConstantValueExpression val, n)
  | BoundBinaryOp op l r =>
      let! (_, l, n) := translate n l in
      let! (_, r, n) := translate n r in
      let! e := GetBinaryExpressionFromFactory op l r in
      Ok (UNNAMED_COLUMN, e, n)
  | BoundAlias alias child => let! (_, e, n) := translate n child in Ok (alias, e, n)
  | BoundInvalid | BoundStar | BoundUnaryOp _ _ => Throw EMessage
  end.

Fixpoint translate_list (n : nat) (l : list BoundExpression) : result (list (list Z * AbstractExpression) * nat) :=
  match l with
  | [] => Ok ([], n)
  | e :: l => let! (r, n) := translate n e in let! (rs, n) := translate_list n l in Ok (r :: rs, n)
  end.
End translation.

(** Where no aggregates are allowed. *)
Definition no_agg (_ : nat) : result AbstractExpression := Throw EMessage.
(** The column of the [i]-th aggregate after [keys] columns. *)
Definition agg_column (keys i : nat) : AbstractExpression := ColumnValueExpression 0 (Z.of_nat (keys + i)) INTEGER.

(** The kind and argument of an aggregate over [child]. *)
Definition translate_call (child : AbstractPlanNode) (call : BoundExpression) : result (AggregationType * AbstractExpression) :=
  match call with
  | BoundAggCall _ true _ => Throw NotImplemented
  | BoundAggCall func_name false args =>
      let! (exprs, _) := translate_list no_agg [child] 0 args in
      let! (agg_type, exprs) := GetAggCallFromFactory func_name exprs.*2 in
      match exprs with
      | [] => let! one := GetIntegerValue 1 in Ok (agg_type, ConstantValueExpression one)
      | [e] => Ok (agg_type, e)
      | _ => Throw NotImplemented
      end
  | _ => Throw NotImplemented
  end.

Definition having_calls (having : BoundExpression) : list BoundExpression := if IsInvalid having then [] else calls having.

(** The HAVING clause as a filter of the aggregation node, and the select list over it. *)
Definition plan_clauses (keys : nat) (select_list : list BoundExpression) (having : BoundExpression) (agg_node : AbstractPlanNode)
    : result AbstractPlanNode :=
  let column i := Ok (agg_column keys i) in
  let! (node, n) :=
    (if IsInvalid having then Ok (agg_node, 0%nat)
     else let! (_, p, n) := translate column [agg_node] 0 having in
          Ok (PlanNode (OutputSchema agg_node) [agg_node] (FilterPlanNode p), n)) in
  let! (items, _) := translate_list column [node] n select_list in
  let! schema := InferProjectionSchema items.*2 in
  let! out := RenameSchema schema items.*1 in
  Ok (PlanNode out [node] (ProjectionPlanNode items.*2)).

Definition plan_agg (select_list group_by : list BoundExpression) (having : BoundExpression) (child : AbstractPlanNode)
    : result AbstractPlanNode :=
  let! (groups, _) := translate_list no_agg [child] 0 group_by in
  if negb (IsInvalid having || plannable having) || negb (forallb plannable select_list) then Throw EMessage
  else
    let! aggs := rseq (translate_call child <$> (having_calls having ++ (select_list ≫= calls))) in
    let names := groups.*1 ++ ((fun i => str "agg#" ++ to_string (Z.of_nat i)) <$> seq 0 (length aggs)) in
    let! agg_schema := InferAggSchema groups.*2 aggs.*2 aggs.*1 in
    let! out := RenameSchema agg_schema names in
    plan_clauses (length groups) select_list having (PlanNode out [child] (AggregationPlanNode groups.*2 aggs.*2 aggs.*1)).

(** The expressions as they are left in the statement, with pseudo calls numbered from [n]. *)
Fixpoint pseudo (n : nat) (e : BoundExpression) : BoundExpression :=
  match e with
  | BoundAggCall _ is_distinct _ => BoundAggCall (str "__pseudo_agg#" ++ to_string (Z.of_nat n)) is_distinct []
  | BoundBinaryOp op l r => BoundBinaryOp op (pseudo n l) (pseudo (n + length (calls l)) r)
  | BoundAlias alias child => BoundAlias alias (pseudo n child)
  | _ => e
  end.
Fixpoint pseudo_list (n : nat) (l : list BoundExpression) : list BoundExpression :=
  match l with [] => [] | e :: l => pseudo n e :: pseudo_list (n + length (calls e)) l end.
Definition pseudo_having (having : BoundExpression) : BoundExpression := if IsInvalid having then having else pseudo 0 having.

(** ** Facts about the translation *)

Section translation_facts.
Context (agg : nat -> result AbstractExpression) (children : list AbstractPlanNode).

Lemma translate_next n e r n' : translate agg children n e = Ok (r, n') -> n' = (n + length (calls e))%nat.
Proof.
  revert n r n'. induction e as [|val|name|func dist args| |op e IH|op l IHl r0 IHr|alias e IH]; intros n r n';
    cbn [translate calls length]; try done.
  - intros [= _ <-]. lia.
  - destruct (PlanColumnRef _ _); [|done]. intros [= _ <-]. lia.
  - destruct (agg n); [|done]. intros [= _ <-]. lia.
  - destruct (translate agg children n l) as [[[? l'] n1]|] eqn:E1; cbn [rbind]; [|done].
    destruct (translate agg children n1 r0) as [[[? r'] n2]|] eqn:E2; cbn [rbind]; [|done].
    destruct (GetBinaryExpressionFromFactory _ _ _); [|done]. intros [= _ <-].
    apply IHl in E1 as ->. apply IHr in E2 as ->. rewrite length_app. lia.
  - destruct (translate agg children n e) as [[[? e'] n1]|] eqn:E1; cbn [rbind]; [|done]. intros [= _ <-]. by eapply IH.
Qed.

(** Pseudo calls are translated like the calls they replace. *)
Lemma translate_pseudo n m e : translate agg children n (pseudo m e) = translate agg children n e.
Proof.
  revert n m. induction e as [|val|name|func dist args| |op e IH|op l IHl r0 IHr|alias e IH]; intros n m; cbn [pseudo translate]; try done.
  - rewrite IHl. destruct (translate agg children n l) as [[[? l'] n1]|]; cbn [rbind]; [|done]. by rewrite IHr.
  - by rewrite IH.
Qed.
Lemma translate_list_pseudo n m l : translate_list agg children n (pseudo_list m l) = translate_list agg children n l.
Proof.
  revert n m. induction l as [|e l IH]; intros n m; cbn [pseudo_list translate_list]; [done|].
  rewrite translate_pseudo. destruct (translate agg children n e) as [[r n1]|]; cbn [rbind]; [|done]. by rewrite IH.
Qed.
End translation_facts.

(** The translation looks at the columns of its own calls only. *)
Lemma translate_agree agg agg' children n e :
  (forall i, n <= i < n + length (calls e) -> agg i = agg' i)%nat -> translate agg children n e = translate agg' children n e.
Proof.
  revert n. induction e as [|val|name|func dist args| |op e IH|op l IHl r IHr|alias e IH]; intros n H; cbn [translate calls length] in *; try done.
  - by rewrite H by lia.
  - rewrite length_app in H. rewrite IHl by (intros; apply H; lia).
    destruct (translate agg' children n l) as [[[? l'] n1]|] eqn:E1; cbn [rbind]; [|done].
    apply translate_next in E1 as ->. by rewrite IHr by (intros; apply H; lia).
  - by rewrite IH.
Qed.
Lemma translate_list_agree agg agg' children n l :
  (forall i, n <= i < n + length (l ≫= calls) -> agg i = agg' i)%nat ->
  translate_list agg children n l = translate_list agg' children n l.
Proof.
  revert n. induction l as [|e l IH]; intros n H; cbn [translate_list]; [done|]. cbn in H. rewrite length_app in H.
  rewrite (translate_agree agg agg') by (intros; apply H; lia).
  destruct (translate agg' children n e) as [[r n1]|] eqn:E; cbn [rbind]; [|done]. apply translate_next in E as ->.
  by rewrite IH by (intros; apply H; lia).
Qed.

(** ** Planning an expression is its translation *)

Definition with_next (s : Planner) (n : nat) : Planner :=
  mkPlanner (mkContext (allow_aggregation_ (ctx_ s)) n (aggregations_ (ctx_ s)) (expr_in_agg_ (ctx_ s))) (cte_list_ s) (universal_id_ s).
Definition next (s : Planner) : nat := next_aggregation_ (ctx_ s).
Definition agg_at (I : list AbstractExpression) (n : nat) : result AbstractExpression :=
  match I !! n with Some e => Ok e | None => Throw EMessage end.

Lemma with_next_id s : with_next s (next s) = s.
Proof. by destruct s as [[] ? ?]. Qed.

(** Computations that move the counter only. *)
Definition counted {A} (s : Planner) (r : result (A * nat)) : option (result (A * Planner)) :=
  Some (let! (a, n) := r in Ok (a, with_next s n)).

Lemma PlanExpression_translate e children s :
  PlanExpression e children s = counted s (translate (agg_at (expr_in_agg_ (ctx_ s))) children (next s) e).
Proof.
  revert s. induction e as [|val|name|func dist args| |op e IH|op l IHl r IHr|alias e IH]; intros s; cbn [PlanExpression translate]; try done.
  - unfold counted. cbn. by rewrite with_next_id.
  - unfold counted, plift. destruct (PlanColumnRef name children); cbn [rbind]; [|done]. by rewrite with_next_id.
  - unfold next_agg_expr, pbind, pget, agg_at, next, counted. cbv zeta.
    by destruct (expr_in_agg_ (ctx_ s) !! next_aggregation_ (ctx_ s)).
  - unfold pbind. rewrite IHl. unfold counted. destruct (translate _ _ _ l) as [[[? l'] n1]|]; cbn [rbind]; [|done].
    rewrite IHr. unfold counted. cbn [with_next ctx_ expr_in_agg_ next next_aggregation_].
    destruct (translate _ _ _ r) as [[[? r'] n2]|]; cbn [rbind]; [|done].
    unfold plift. by destruct (GetBinaryExpressionFromFactory _ _ _).
  - unfold pbind. rewrite IH. unfold counted. by destruct (translate _ _ _ e) as [[[? e'] n1]|].
Qed.

Lemma PlanExpressions_translate {A} (f : BoundExpression -> planning A) (g : list Z * AbstractExpression -> A) l children s :
  (forall e s, f e s = pbind (fun r => pret (g r)) (PlanExpression e children) s) ->
  pmap f l s = counted s (let! (rs, n) := translate_list (agg_at (expr_in_agg_ (ctx_ s))) children (next s) l in Ok (g <$> rs, n)).
Proof.
  intros Hf. revert s. induction l as [|e l IH]; intros s; cbn [pmap translate_list].
  - unfold counted. cbn. by rewrite with_next_id.
  - unfold pbind at 1. rewrite Hf. unfold pbind at 1. rewrite PlanExpression_translate. unfold counted.
    destruct (translate _ _ _ e) as [[r n1]|]; cbn [rbind]; [|done]. unfold pbind. cbn [pret]. rewrite IH. unfold counted.
    cbn [with_next ctx_ expr_in_agg_ next next_aggregation_].
    by destruct (translate_list _ _ _ l) as [[rs n2]|].
Qed.

(** Without aggregates the counter stays. *)
Lemma translate_no_agg children n e r n' : translate no_agg children n e = Ok (r, n') -> n' = n.
Proof.
  revert n r n'. induction e as [|val|name|func dist args| |op e IH|op l IHl r0 IHr|alias e IH]; intros n r n'; cbn [translate]; try done.
  - by intros [= _ <-].
  - destruct (PlanColumnRef _ _); [|done]. by intros [= _ <-].
  - destruct (translate no_agg children n l) as [[[? l'] n1]|] eqn:E1; cbn [rbind]; [|done].
    destruct (translate no_agg children n1 r0) as [[[? r'] n2]|] eqn:E2; cbn [rbind]; [|done].
    destruct (GetBinaryExpressionFromFactory _ _ _); [|done]. intros [= _ <-]. apply IHl in E1 as ->. by eapply IHr.
  - destruct (translate no_agg children n e) as [[[? e'] n1]|] eqn:E1; cbn [rbind]; [|done]. intros [= _ <-]. by eapply IH.
Qed.
Lemma translate_list_no_agg children n l r n' : translate_list no_agg children n l = Ok (r, n') -> n' = n.
Proof.
  revert n r n'. induction l as [|e l IH]; intros n r n'; cbn [translate_list]; [by intros [= _ <-]|].
  destruct (translate _ _ _ e) as [[a n1]|] eqn:E1; cbn [rbind]; [|done].
  destruct (translate_list _ _ _ l) as [[as_ n2]|] eqn:E2; cbn [rbind]; [|done]. intros [= _ <-].
  apply translate_no_agg in E1 as ->. by eapply IH.
Qed.

(** ** The two phases *)

Definition add_aggs (s : Planner) (l : list BoundExpression) : Planner :=
  mkPlanner (mkContext (allow_aggregation_ (ctx_ s)) (next s) (aggregations_ (ctx_ s) ++ l) (expr_in_agg_ (ctx_ s)))
    (cte_list_ s) (universal_id_ s).
Definition num_aggs (s : Planner) : nat := length (aggregations_ (ctx_ s)).

Lemma add_aggs_nil s : add_aggs s [] = s.
Proof. destruct s as [[] ? ?]. unfold add_aggs. cbn. by rewrite app_nil_r. Qed.
Lemma add_aggs_app s l l' : add_aggs (add_aggs s l) l' = add_aggs s (l ++ l').
Proof. unfold add_aggs. cbn. by rewrite app_assoc. Qed.
Lemma num_add_aggs s l : num_aggs (add_aggs s l) = (num_aggs s + length l)%nat.
Proof. unfold num_aggs. cbn. by rewrite length_app. Qed.

Lemma AddAggCallToContext_pseudo e s :
  allow_aggregation_ (ctx_ s) = true ->
  AddAggCallToContext e s = Some (if plannable e then Ok (pseudo (num_aggs s) e, add_aggs s (calls e)) else Throw EMessage).
Proof.
  revert s. induction e as [|val|name|func dist args| |op e IH|op l IHl r IHr|alias e IH]; intros s Ha;
    cbn [AddAggCallToContext plannable pseudo calls]; try done; try by rewrite add_aggs_nil.
  - unfold AddAggregation, add_aggs, pbind, pget. cbv zeta. by rewrite Ha.
  - unfold pbind. rewrite IHl by done. destruct (plannable l); [|done]. rewrite IHr by done. rewrite num_add_aggs, add_aggs_app.
    by destruct (plannable r).
  - unfold pbind. rewrite IH by done. by destruct (plannable e).
Qed.

Lemma AddAggCalls_pseudo l s :
  allow_aggregation_ (ctx_ s) = true ->
  pmap AddAggCallToContext l s =
    Some (if forallb plannable l then Ok (pseudo_list (num_aggs s) l, add_aggs s (l ≫= calls)) else Throw EMessage).
Proof.
  revert s. induction l as [|e l IH]; intros s Ha; cbn [pmap forallb pseudo_list]; [cbn; by rewrite add_aggs_nil|].
  unfold pbind. rewrite AddAggCallToContext_pseudo by done. destruct (plannable e); [|done]. cbn [andb].
  rewrite IH by done. rewrite num_add_aggs, add_aggs_app. by destruct (forallb plannable l).
Qed.

Lemma plan_aggregate_translate child call s : plan_aggregate child call s = plift (translate_call child call) s.
Proof.
  unfold plan_aggregate. destruct call as [|val|name|func dist args| |op e|op l r|alias e]; try done.
  destruct dist; [done|]. cbn [PlanAggCall translate_call]. unfold with_new_context, pbind. cbn [pget pset_ctx].
  rewrite (PlanExpressions_translate _ snd _ [child]) by (intros ? ?; unfold pbind; by destruct (PlanExpression _ _ _) as [[[[] ?]|]|]).
  cbn [ctx_ expr_in_agg_ default_context]. rewrite (translate_list_agree _ no_agg) by done. unfold counted.
  change (next _) with 0%nat. destruct (translate_list no_agg [child] 0 args) as [[rs n]|] eqn:E; cbn [rbind pret]; [|done].
  cbn [with_next cte_list_ universal_id_]. replace (mkPlanner (ctx_ s) (cte_list_ s) (universal_id_ s)) with s by (by destruct s).
  unfold plift. destruct (GetAggCallFromFactory func (snd <$> rs)) as [[k es]|]; [|done]. cbn [rbind].
  by destruct es as [|e0 [|]].
Qed.

Lemma pmap_pure {A B} (f : A -> planning B) (g : A -> result B) l s :
  (forall a s, f a s = plift (g a) s) -> pmap f l s = plift (rseq (g <$> l)) s.
Proof.
  intros Hf. induction l as [|a l IH]; cbn [pmap]; [done|]. unfold pbind. rewrite Hf. unfold plift at 1. cbn.
  destruct (g a) as [b|]; [|done]. rewrite IH. unfold plift. by destruct (rseq _).
Qed.

Lemma IsInvalid_pseudo n e : IsInvalid (pseudo n e) = IsInvalid e.
Proof. by destruct e. Qed.

Lemma agg_columns_at keys n i : (i < n)%nat -> agg_at (agg_columns keys n) i = Ok (agg_column keys i).
Proof.
  intros Hi. unfold agg_at, agg_columns. rewrite list_lookup_fmap, lookup_seq_lt by done. done.
Qed.

(** The clauses over the aggregation node, with pseudo calls. *)
Lemma filter_having keys having node s :
  expr_in_agg_ (ctx_ s) = agg_columns keys (length (expr_in_agg_ (ctx_ s))) -> next s = 0%nat ->
  (length (having_calls having) <= length (expr_in_agg_ (ctx_ s)))%nat ->
  plan_filter (pseudo_having having) node s =
    counted s (if IsInvalid having then Ok (node, 0%nat)
      else let! (_, p, n) := translate (fun i => Ok (agg_column keys i)) [node] 0 having in
           Ok (PlanNode (OutputSchema node) [node] (FilterPlanNode p), n)).
Proof.
  intros HI Hn Hl. unfold plan_filter, pseudo_having, having_calls in *. destruct (IsInvalid having) eqn:E.
  - rewrite E. unfold counted. cbn. by rewrite <- Hn, with_next_id.
  - rewrite IsInvalid_pseudo, E. unfold pbind. rewrite PlanExpression_translate, translate_pseudo, Hn.
    rewrite (translate_agree _ (fun i => Ok (agg_column keys i))).
    + unfold counted. by destruct (translate _ [node] 0 having) as [[[? p] n]|].
    + intros i Hi. rewrite HI. apply agg_columns_at. lia.
Qed.

Lemma phase_two {A} keys having m select_list node s (g : AbstractPlanNode -> A) :
  expr_in_agg_ (ctx_ s) = agg_columns keys (length (expr_in_agg_ (ctx_ s))) -> next s = 0%nat ->
  (length (having_calls having) + length (select_list ≫= calls) <= length (expr_in_agg_ (ctx_ s)))%nat ->
  exists k,
    (let& plan := plan_filter (pseudo_having having) node in
     let& items := pmap (fun item => PlanExpression item [plan]) (pseudo_list m select_list) in
     let& plan := make_projection items.*2 items.*1 plan in
     pret (g plan)) s =
    plift (let! plan := plan_clauses keys select_list having node in Ok (g plan)) (with_next s k).
Proof.
  intros HI Hn Hl. unfold plan_clauses, pbind at 1. rewrite (filter_having keys) by (done || lia). unfold counted at 1.
  destruct (if IsInvalid having then _ else _) as [[plan k]|x] eqn:E; cbn [rbind]; [|by exists 0%nat].
  assert (k = length (having_calls having)) as ->.
  { unfold having_calls. destruct (IsInvalid having); [by injection E|].
    destruct (translate _ _ _ having) as [[[? p] n]|] eqn:T; cbn [rbind] in E; [|done]. injection E as _ <-. by apply translate_next in T. }
  unfold pbind. rewrite (PlanExpressions_translate _ id _ [plan]) by (intros ? ?; unfold pbind; by destruct (PlanExpression _ _ _) as [[[? ?]|]|]).
  rewrite translate_list_pseudo. cbn [with_next ctx_ expr_in_agg_ next next_aggregation_].
  rewrite (translate_list_agree _ (fun i => Ok (agg_column keys i))).
  2:{ intros i Hi. rewrite HI. apply agg_columns_at. lia. }
  unfold counted. destruct (translate_list _ [plan] _ select_list) as [[items n]|]; cbn [rbind]; [|by exists 0%nat].
  rewrite list_fmap_id. exists n. unfold make_projection, pbind, plift.
  destruct (InferProjectionSchema _) as [sch|]; cbn [rbind]; [|done]. by destruct (RenameSchema _ _).
Qed.

Lemma pbind_eq {A B} (f : A -> planning B) m s r :
  m s = Some r -> pbind f m s = match r with Ok (a, s') => f a s' | Throw x => Some (Throw x) end.
Proof. unfold pbind. by intros ->. Qed.

Lemma rewrite_having having s :
  allow_aggregation_ (ctx_ s) = true -> num_aggs s = 0%nat ->
  (if IsInvalid having then pret having else AddAggCallToContext having) s =
    Some (if IsInvalid having || plannable having then Ok (pseudo_having having, add_aggs s (having_calls having)) else Throw EMessage).
Proof.
  intros Ha Hn. unfold pseudo_having, having_calls. destruct (IsInvalid having); [by rewrite add_aggs_nil|].
  rewrite AddAggCallToContext_pseudo by done. by rewrite Hn.
Qed.

(** C26: planning a SELECT with aggregates in two phases gives the plan, or the
    exception, of the direct translation: an aggregation node with one aggregate for each call
    of the HAVING clause and the select list, from left to right; over it the HAVING filter and
    the projection, in which the [i]-th call is the column after the keys with that number. No
    call is left without its column. The statement is left with pseudo calls in the place of the calls, and the
    planner's state is what it was. *)
Theorem PlanSelectAgg_correct (select_list group_by : list BoundExpression) (having : BoundExpression)
    (child : AbstractPlanNode) (s : Planner) :
  PlanSelectAgg select_list group_by having child s =
    plift (let! plan := plan_agg select_list group_by having child in
           Ok (plan, pseudo_having having, pseudo_list (length (having_calls having)) select_list)) s.
Proof.
  unfold PlanSelectAgg, plan_agg, with_new_context. unfold pbind at 1. cbn [pget]. rewrite (pbind_eq _ (pset_ctx _) _ _ eq_refl). cbn beta iota.
  unfold pbind at 1. rewrite (pbind_eq _ (pset_ctx _) _ _ eq_refl). set (s0 := mkPlanner _ _ _).
  assert (Hg : pmap (fun expr => PlanExpression expr [child]) group_by s0 = counted s0 (translate_list no_agg [child] 0 group_by)).
  { rewrite (PlanExpressions_translate _ id _ [child]) by (intros ? ?; unfold pbind; by destruct (PlanExpression _ _ _) as [[[? ?]|]|]).
    f_equal. rewrite (translate_list_agree _ no_agg) by done. change (next s0) with 0%nat.
    destruct (translate_list _ _ _ _) as [[gs n]|]; cbn [rbind]; [|done]. by rewrite list_fmap_id. }
  rewrite (pbind_eq _ _ _ _ Hg). destruct (translate_list no_agg [child] 0 group_by) as [[groups k]|] eqn:Eg; cbn [rbind]; [|done].
  apply translate_list_no_agg in Eg as ->. change (with_next s0 0) with s0.
  rewrite (pbind_eq _ _ _ _ (rewrite_having having s0 eq_refl eq_refl)). destruct (_ || plannable having); cbn [negb orb]; [|done].
  rewrite (pbind_eq _ _ _ _ (AddAggCalls_pseudo select_list (add_aggs s0 (having_calls having)) eq_refl)). destruct (forallb _ _); cbn [negb]; [|done].
  rewrite add_aggs_app. set (s1 := add_aggs s0 (_ ++ _)). rewrite (pbind_eq _ pget s1 _ eq_refl).
  rewrite (pbind_eq _ _ _ _ (pmap_pure _ (translate_call child) _ _ (plan_aggregate_translate child))).
  change (aggregations_ (ctx_ s1)) with (having_calls having ++ (select_list ≫= calls)).
  destruct (rseq _) as [aggs|x] eqn:Ea; cbn [rbind]; [|done]. cbn beta iota. rewrite (pbind_eq _ pget s1 _ eq_refl).
  rewrite (pbind_eq _ (pset_ctx _) s1 _ eq_refl). set (s2 := mkPlanner _ _ _).
  unfold pbind at 1, plift at 1. destruct (InferAggSchema _ _ _) as [agg_schema|]; cbn [rbind]; [|done].
  unfold pbind at 1, plift at 1. destruct (RenameSchema agg_schema _) as [out|]; cbn [rbind]; [|done].
  assert (Hn : length aggs = length (having_calls having ++ (select_list ≫= calls))).
  { apply rseq_Ok, (f_equal length) in Ea. by rewrite !length_fmap in Ea. }
  change (num_aggs (add_aggs s0 _)) with (length (having_calls having)). rewrite length_app in Hn.
  assert (HI : length (expr_in_agg_ (ctx_ s2)) = length aggs).
  { change (expr_in_agg_ (ctx_ s2)) with (agg_columns (length groups) (length aggs)). unfold agg_columns. by rewrite length_fmap, length_seq. }
  destruct (phase_two (length groups) having (length (having_calls having)) select_list
    (PlanNode out [child] (AggregationPlanNode groups.*2 aggs.*2 aggs.*1)) s2
    (fun plan => (plan, pseudo_having having, pseudo_list (length (having_calls having)) select_list)))
    as (k & ->); [by rewrite HI|done|lia|].
  unfold plift. destruct (plan_clauses _ _ _ _); [|done]. cbn. by destruct s.
Qed.
