(* ===== verification/PlannerTerm.v ===== *)
(** * Termination of the planner

    The planner recurses through the table references, the subqueries and
    the common table expressions of a statement. It plans an expression of a WITH clause
    each time it is referenced, and looks names up in the innermost WITH clause only.
    [PlanQuery_terminates]: planning ends when the common table expressions do not refer to common table
    expressions; the fuel needed is the nesting depth of the statement.
    [shadowed_cte_diverges]: a nested WITH clause that uses an outer name it shadows makes the
    planner recurse for ever. [cte_with_aggregate]: an expression with an
    aggregate can be referenced once, and not twice. *)

From Stdlib Require Import String.
From S2P Require Import Prelude.
From S2P Require Import CStd.
From S2P Require Import StringUtil.
From S2P Require Import Value.
From S2P Require Import Types.
From S2P Require Import ValueFactory.
From S2P Require Import Tuple.
From S2P Require Import Catalog.
From S2P Require Import Expressions.
From S2P Require Import Plans.
From S2P Require Import Bound.
From S2P Require Import Planner.
From S2P Require Import PlannerTheory.
Local Open Scope Z_scope.
Local Open Scope bustub_scope.
Local Open Scope planner_scope.

(** ** Nesting *)

(** The depth of the planner's recursion, when the common table expressions in scope have depth [d]. *)
Fixpoint ref_depth (d : nat) (t : BoundTableRef) : nat :=
  match t with
  | BoundJoinRef _ l r _ | BoundCrossProductRef l r => S (ref_depth d l `max` ref_depth d r)
  | BoundSubqueryRef s _ _ => S (stmt_depth d s)
  | BoundCTERef _ _ => S d
  | _ => 1
  end
with stmt_depth (d : nat) (s : SelectStatement) : nat :=
  let '(mkSelect t _ _ _ _ _ _ _ ctes _) := s in
  S (ref_depth (match ctes with [] => d | _ => foldr (fun '(c, _, _) n => stmt_depth 0 c `max` n) 0 ctes end)%nat t).

(** References to common table expressions stay in the statement of the WITH clause; [scope] tells whether
    one is around. *)
Fixpoint ref_closed (scope : bool) (t : BoundTableRef) : bool :=
  match t with
  | BoundJoinRef _ l r _ | BoundCrossProductRef l r => ref_closed scope l && ref_closed scope r
  | BoundSubqueryRef s _ _ => stmt_closed scope s
  | BoundCTERef _ _ => scope
  | _ => true
  end
with stmt_closed (scope : bool) (s : SelectStatement) : bool :=
  let '(mkSelect t _ _ _ _ _ _ _ ctes _) := s in
  ref_closed (match ctes with [] => scope | _ => true end) t && forallb (fun '(c, _, _) => stmt_closed false c) ctes.

Definition ctes_depth (l : list CTE) : nat := foldr (fun '(c, _, _) n => stmt_depth 0 c `max` n)%nat 0%nat l.
Definition ctes_closed (l : list CTE) : bool := forallb (fun '(c, _, _) => stmt_closed false c) l.

(** Same nesting, and the same names of columns. *)
Definition same_ref (t t' : BoundTableRef) : Prop :=
  (forall d, ref_depth d t' = ref_depth d t) /\ forall b, ref_closed b t' = ref_closed b t.
Definition same_stmt (s s' : SelectStatement) : Prop :=
  (forall d, stmt_depth d s' = stmt_depth d s) /\ (forall b, stmt_closed b s' = stmt_closed b s) /\
  length (select_list_of s') = length (select_list_of s).
Definition same_cte (c c' : CTE) : Prop := same_stmt c.1.1 c'.1.1 /\ c.1.2 = c'.1.2 /\ c.2 = c'.2.
Definition same_ctes (l l' : option (list CTE)) : Prop := option_Forall2 (Forall2 same_cte) l l'.

#[export] Instance same_stmt_equiv : Equivalence same_stmt.
Proof.
  split; [by split|intros ?? (H1 & H2 & H3); by split|].
  intros ??? (H1 & H2 & H3) (G1 & G2 & G3). split_and!; intros; congruence.
Qed.
#[export] Instance same_cte_equiv : Equivalence same_cte.
Proof.
  split; unfold same_cte; [by intros ?|intros ?? (H & ? & ?); by symmetry in H|].
  intros ??? (H & ? & ?) (G & ? & ?). split_and!; [by etransitivity|congruence..].
Qed.
#[export] Instance same_ctes_preorder : PreOrder same_ctes.
Proof.
  split.
  - intros [l|]; constructor. reflexivity.
  - intros l l' l'' H H'. destruct H as [l l' H|]; inversion H'; subst; constructor. by etransitivity.
Qed.

Lemma same_stmt_select t t' ctes ctes' sl sl' w g h h' lc lo sort dist :
  same_ref t t' -> Forall2 same_cte ctes ctes' -> length sl' = length sl ->
  same_stmt (mkSelect t sl w g h lc lo sort ctes dist) (mkSelect t' sl' w g h' lc lo sort ctes' dist).
Proof.
  intros [Hd Hc] Hl Hsl.
  assert (Hm : ctes_depth ctes' = ctes_depth ctes).
  { clear -Hl. induction Hl as [|[[c ?] ?] [[c' ?] ?] l l' [[H _] _] _ IH]; [done|]. cbn in H |- *. rewrite H. by f_equal. }
  assert (Hf : ctes_closed ctes' = ctes_closed ctes).
  { clear -Hl. induction Hl as [|[[c ?] ?] [[c' ?] ?] l l' [(_ & H & _) _] _ IH]; [done|]. cbn in H |- *. rewrite H. by f_equal. }
  split_and!; try intros x; cbn [stmt_depth stmt_closed]; [| |done].
  - rewrite Hd. f_equal. f_equal. by destruct Hl.
  - rewrite Hc. fold (ctes_closed ctes) (ctes_closed ctes'). rewrite Hf. f_equal. f_equal. by destruct Hl.
Qed.

(** ** The parts that do not recurse *)

(** Computations that return and leave the WITH clause in scope. *)
Definition steady {A} (m : planning A) : Prop :=
  forall s, m s <> None /\ forall a s', m s = Some (Ok (a, s')) -> cte_list_ s' = cte_list_ s.

Lemma steady_pret {A} (a : A) : steady (pret a).
Proof. intros s. split; [done|]. by intros b s' [= _ <-]. Qed.
Lemma steady_pthrow {A} x : steady (pthrow (A := A) x).
Proof. intros s. by split. Qed.
Lemma steady_plift {A} (r : result A) : steady (plift r).
Proof. intros s. split; [done|]. intros b s'. unfold plift. destruct r; [|done]. by intros [= _ <-]. Qed.
Lemma steady_get : steady pget.
Proof. intros s. split; [done|]. by intros b s' [= _ <-]. Qed.
Lemma steady_set c : steady (pset_ctx c).
Proof. intros s. split; [done|]. by intros b s' [= _ <-]. Qed.
Lemma steady_name n : steady (name_column n).
Proof. intros s. unfold name_column. case_bool_decide; (split; [done|]); by intros b s' [= _ <-]. Qed.
Lemma steady_bind {A B} (f : A -> planning B) m : steady m -> (forall a, steady (f a)) -> steady (pbind f m).
Proof.
  intros Hm Hf s. destruct (Hm s) as [H1 H2]. unfold pbind. destruct (m s) as [[[a s1]|x]|]; [|done|done].
  rewrite <- (H2 a s1) by done. apply (Hf a s1).
Qed.
Lemma steady_pmap {A B} (f : A -> planning B) l : (forall a, steady (f a)) -> steady (pmap f l).
Proof.
  intros Hf. induction l as [|a l IH]; cbn [pmap]; [apply steady_pret|]. apply steady_bind; [done|]. intros b.
  apply steady_bind; [done|]. intros bs. apply steady_pret.
Qed.

Create HintDb planner.
#[export] Hint Resolve steady_pret steady_pthrow steady_plift steady_get steady_set steady_name steady_pmap : planner.
Ltac steady := repeat (
  intros; first [ solve [eauto with planner] | apply steady_bind | apply steady_pmap | case_match ]).

Lemma steady_new_context {A} (m : planning A) : steady m -> steady (with_new_context m).
Proof. unfold with_new_context. steady. Qed.
Lemma steady_PlanExpression e children : steady (PlanExpression e children).
Proof. induction e; cbn [PlanExpression]; unfold next_agg_expr; steady. Qed.
#[export] Hint Resolve steady_new_context steady_PlanExpression : planner.
Lemma steady_AddAgg e : steady (AddAggCallToContext e).
Proof. induction e; cbn [AddAggCallToContext]; unfold AddAggregation; steady. Qed.
Lemma steady_plan_aggregate child e : steady (plan_aggregate child e).
Proof. unfold plan_aggregate, PlanAggCall. steady. Qed.
Lemma steady_make_projection es ns child : steady (make_projection es ns child).
Proof. unfold make_projection. steady. Qed.
Lemma steady_plan_filter e plan : steady (plan_filter e plan).
Proof. unfold plan_filter. steady. Qed.
#[export] Hint Resolve steady_AddAgg steady_plan_aggregate steady_make_projection steady_plan_filter : planner.
Lemma steady_PlanSelectAgg sl g h child : steady (PlanSelectAgg sl g h child).
Proof. unfold PlanSelectAgg. apply steady_new_context. steady. Qed.
Lemma steady_plan_normal_select sl plan : steady (plan_normal_select sl plan).
Proof. unfold plan_normal_select. steady. Qed.
Lemma steady_plan_order_by sort plan : steady (plan_order_by sort plan).
Proof. unfold plan_order_by. steady. Qed.
Lemma steady_plan_limit c o plan : steady (plan_limit c o plan).
Proof. unfold plan_limit, limit_constant. steady. Qed.
Lemma steady_PlanBaseTableRef c t : steady (PlanBaseTableRef c t).
Proof. unfold PlanBaseTableRef. steady. Qed.
Lemma steady_PlanExpressionListRef vs id : steady (PlanExpressionListRef vs id).
Proof. unfold PlanExpressionListRef. steady. Qed.
Lemma steady_plan_renaming node ns a : steady (plan_renaming node ns a).
Proof. unfold plan_renaming. steady. Qed.
#[export] Hint Resolve steady_PlanSelectAgg steady_plan_normal_select steady_plan_order_by steady_plan_limit
  steady_PlanBaseTableRef steady_PlanExpressionListRef steady_plan_renaming : planner.
Lemma steady_plan_select_clauses sl w g h lc lo sort dist plan : steady (plan_select_clauses sl w g h lc lo sort dist plan).
Proof. unfold plan_select_clauses. steady. Qed.
#[export] Hint Resolve steady_plan_select_clauses : planner.

(** ** What the recursion leaves behind *)

Lemma pbind_inv {A B} (f : A -> planning B) m s r :
  pbind f m s = Some (Ok r) -> exists a s1, m s = Some (Ok (a, s1)) /\ f a s1 = Some (Ok r).
Proof. unfold pbind. destruct (m s) as [[[a s1]|]|]; try done. intros H. by exists a, s1. Qed.
Lemma pbind_total {A B} (f : A -> planning B) m s :
  m s <> None -> (forall a s1, m s = Some (Ok (a, s1)) -> f a s1 <> None) -> pbind f m s <> None.
Proof. unfold pbind. destruct (m s) as [[[a s1]|]|]; try done. intros _ H. by apply H. Qed.
Lemma steady_cte {A} (m : planning A) s a s' : steady m -> m s = Some (Ok (a, s')) -> cte_list_ s' = cte_list_ s.
Proof. intros Hm. apply (Hm s). Qed.
Ltac pinv H a s1 E := apply pbind_inv in H; destruct H as (a & s1 & E & H).

Lemma with_ctes_inv {A} ctes (m : planning A) s a l s' :
  with_ctes ctes m s = Some (Ok ((a, l), s')) ->
  exists s1 s2, cte_list_ s1 = (match ctes with [] => cte_list_ s | _ => Some ctes end) /\ m s1 = Some (Ok (a, s2)) /\
    (same_ctes (cte_list_ s1) (cte_list_ s2) -> Forall2 same_cte ctes l /\ same_ctes (cte_list_ s) (cte_list_ s')).
Proof.
  unfold with_ctes. destruct ctes as [|c cs]; intros H.
  - pinv H b s1 E. injection H as <- <- <-. by exists s, s1.
  - pinv H s0 s1 E0. injection E0 as <- <-. pinv H u s2 E1. injection E1 as <- <-. pinv H b s3 E2. pinv H s4 s5 E3.
    injection E3 as <- <-. injection H as <- <- <-. eexists _, _. split_and!; [|done|]; [done|].
    intros Hs. cbn [cte_list_] in Hs |- *. split; [|done]. by inversion Hs.
Qed.

Lemma pmap_length {A B} (f : A -> planning B) l s bs s' : pmap f l s = Some (Ok (bs, s')) -> length bs = length l.
Proof.
  revert s bs. induction l as [|a l IH]; intros s bs; cbn [pmap]; [by intros [= <- _]|]. intros H.
  pinv H b s1 E1. pinv H xs s2 E2. injection H as <- <-. cbn. f_equal. by eapply IH.
Qed.

(** The select list keeps its length. *)
Lemma PlanSelectAgg_length sl g h child s p h' sl' s' :
  PlanSelectAgg sl g h child s = Some (Ok (p, h', sl', s')) -> length sl' = length sl.
Proof.
  unfold PlanSelectAgg, with_new_context. intros H. pinv H x s1 E1. pinv H x1 s2 E2. pinv H r s3 E. pinv H u s4 E3.
  injection H as -> _. pinv E u1 t1 F1. pinv E gs t2 F2. pinv E h1 t3 F3. pinv E l t4 F4. pinv E x2 t5 F5. pinv E aggs t6 F6.
  pinv E x3 t7 F7. pinv E x4 t8 F8. pinv E x5 t9 F9. pinv E x6 t10 F10. pinv E x7 t11 F11. pinv E x8 t12 F12. pinv E x9 t13 F13.
  injection E as _ _ -> _. by eapply pmap_length.
Qed.

Lemma plan_select_clauses_length sl w g h lc lo sort dist plan s p h' sl' s' :
  plan_select_clauses sl w g h lc lo sort dist plan s = Some (Ok (p, h', sl', s')) -> length sl' = length sl.
Proof.
  unfold plan_select_clauses. intros H. pinv H p1 s1 E1. pinv H b s2 E2. pinv H r s3 E3. destruct r as [[p2 h2] sl2].
  pinv H p3 s4 E4. pinv H p4 s5 E5. injection H as _ _ <- _. destruct (_ || _); [by eapply PlanSelectAgg_length|].
  pinv E3 p5 s6 E6. by injection E3 as _ _ <- _.
Qed.

Section recursion.
Context (catalog_ : Catalog).

Definition same_ref_after (s : Planner) (t : BoundTableRef) (r : option (result (AbstractPlanNode * BoundTableRef * Planner))) : Prop :=
  forall p t' s', r = Some (Ok (p, t', s')) -> same_ref t t' /\ same_ctes (cte_list_ s) (cte_list_ s').
Definition same_stmt_after (s : Planner) (st : SelectStatement) (r : option (result (AbstractPlanNode * SelectStatement * Planner))) : Prop :=
  forall p st' s', r = Some (Ok (p, st', s')) -> same_stmt st st' /\ same_ctes (cte_list_ s) (cte_list_ s').

Lemma same_ref_refl t : same_ref t t.
Proof. done. Qed.

Lemma PlanTableRef_same fuel :
  (forall t s, same_ref_after s t (PlanTableRef catalog_ fuel t s)) ->
  (forall st s, same_stmt_after s st (PlanSelect catalog_ fuel st s)) ->
  forall t s, same_ref_after s t (PlanTableRef catalog_ (S fuel) t s).
Proof.
  intros IHt IHs t s p t' s' H. destruct t as [| |t|jt l r c|l r|values id|sub names alias|cte alias]; cbn [PlanTableRef] in H; try done.
  - pinv H plan s1 E. injection H as <- <- <-. apply steady_cte in E as ->; [done|]. apply steady_PlanBaseTableRef.
  - pinv H x s1 E1. destruct x as [lp l']. pinv H x s2 E2. destruct x as [rp r']. pinv H x s3 E3. destruct x as [n e].
    injection H as <- <- <-. apply IHt in E1 as [[H1 H2] H3]. apply IHt in E2 as [[H4 H5] H6].
    apply steady_cte in E3 as ->; [|apply steady_PlanExpression]. split; [|by etransitivity].
    split; intros x; cbn; congruence.
  - pinv H x s1 E1. destruct x as [lp l']. pinv H x s2 E2. destruct x as [rp r']. pinv H x s3 E3.
    injection H as <- <- <-. apply IHt in E1 as [[H1 H2] H3]. apply IHt in E2 as [[H4 H5] H6].
    apply steady_cte in E3 as ->; [|apply steady_plift]. split; [|by etransitivity].
    split; intros y; cbn; congruence.
  - pinv H plan s1 E. injection H as <- <- <-. apply steady_cte in E as ->; [done|]. apply steady_PlanExpressionListRef.
  - pinv H x s1 E1. destruct x as [node sub']. pinv H x s2 E2. injection H as <- <- <-. apply IHs in E1 as [(H1 & H2 & _) H3].
    apply steady_cte in E2 as ->; [|apply steady_plan_renaming]. split; [|done]. split; intros y; cbn; congruence.
  - pinv H x s1 E1. injection E1 as <- <-. destruct (cte_list_ s) as [l|] eqn:El; [|done].
    destruct (find_cte _ _) as [[i [[sub names] cte_alias]]|] eqn:Ef; [|done].
    pinv H x s1 E1. destruct x as [node sub']. pinv H x s2 E2. injection E2 as <- <-. pinv H u s3 E3. injection E3 as <- <-.
    pinv H x s4 E4. injection H as <- <- <-. apply IHs in E1 as [H1 H2]. apply steady_cte in E4 as ->; [|apply steady_plan_renaming].
    cbn [cte_list_]. split; [done|]. rewrite El in H2. inversion H2 as [? l' Hl|]; subst. cbn. constructor.
    apply list_find_Some in Ef as [Hi _]. rewrite <- (list_insert_id _ _ _ Hi). by apply Forall2_insert.
Qed.

Lemma PlanSelect_same fuel :
  (forall t s, same_ref_after s t (PlanTableRef catalog_ fuel t s)) ->
  forall st s, same_stmt_after s st (PlanSelect catalog_ (S fuel) st s).
Proof.
  intros IHt st s p st' s' H. destruct st as [table sl w g h lc lo sort ctes dist]. cbn [PlanSelect] in H.
  pinv H x s1 E. destruct x as [[[[plan table'] h'] sl'] ctes']. injection H as <- <- <-.
  unfold with_new_context in E. pinv E s0 s2 E0. injection E0 as <- <-. pinv E u s3 E1. injection E1 as <- <-.
  pinv E x s4 E2. pinv E u' s5 E3. injection E3 as <- <-. injection E as -> <-.
  apply with_ctes_inv in E2 as (t1 & t2 & Ht1 & E & Hc). cbn [cte_list_] in Ht1, Hc |- *.
  pinv E x t3 E3. destruct x as [plan1 table1]. pinv E x t4 E4. destruct x as [[plan2 h2] sl2]. injection E as -> -> -> -> <-.
  pose proof (plan_select_clauses_length _ _ _ _ _ _ _ _ _ _ _ _ _ _ E4) as Hsl.
  apply steady_cte in E4; [|apply steady_plan_select_clauses]. rewrite E4 in Hc.
  assert (Ht : same_ref table table' /\ same_ctes (cte_list_ t1) (cte_list_ t3)).
  { destruct table; try (by apply IHt in E3). by injection E3 as _ <- <-. }
  destruct Ht as [Ht Hs]. destruct (Hc Hs). split; [|done]. by apply same_stmt_select.
Qed.

Lemma plan_same fuel :
  (forall t s, same_ref_after s t (PlanTableRef catalog_ fuel t s)) /\
  (forall st s, same_stmt_after s st (PlanSelect catalog_ fuel st s)).
Proof.
  induction fuel as [|fuel [IHt IHs]]; [by split; intros ?? ???|]. split; [by apply PlanTableRef_same|by apply PlanSelect_same].
Qed.

(** ** Termination *)

(** The common table expressions in scope, when references to them are allowed. *)
Definition scope_ok (scope : bool) (d : nat) (l : option (list CTE)) : Prop :=
  scope = true -> from_option (Forall (fun c : CTE => stmt_closed false c.1.1 = true /\ (stmt_depth 0 c.1.1 <= d)%nat)) True l.

Lemma scope_ok_same scope d l l' : same_ctes l l' -> scope_ok scope d l -> scope_ok scope d l'.
Proof.
  intros Hs Hl Hb. specialize (Hl Hb). destruct Hs as [l l' Hs|]; [|done]. cbn in *.
  induction Hs as [|c c' cs cs' [(H1 & H2 & _) _] _ IH]; [done|]. apply Forall_cons in Hl as [Hc Hcs]. rewrite <- H1, <- H2 in Hc.
  constructor; [done|]. by apply IH.
Qed.

Lemma ctes_scope_ok scope d ctes : ctes_closed ctes = true -> (ctes_depth ctes <= d)%nat -> scope_ok scope d (Some ctes).
Proof.
  intros Hc Hd _. cbn. induction ctes as [|[[c ns] a] cs IH]; [done|]. cbn in Hc, Hd. apply andb_true_iff in Hc as [H1 H2].
  constructor; [split; [done|cbn; lia]|]. apply IH; [done|]. unfold ctes_depth. lia.
Qed.

Definition ref_returns (fuel : nat) : Prop := forall scope d t s,
  ref_closed scope t = true -> scope_ok scope d (cte_list_ s) -> (ref_depth d t <= fuel)%nat -> PlanTableRef catalog_ fuel t s <> None.
Definition stmt_returns (fuel : nat) : Prop := forall scope d st s,
  stmt_closed scope st = true -> scope_ok scope d (cte_list_ s) -> (stmt_depth d st <= fuel)%nat -> PlanSelect catalog_ fuel st s <> None.

Lemma two_refs_return fuel scope d l r s :
  ref_returns fuel -> ref_closed scope l && ref_closed scope r = true -> scope_ok scope d (cte_list_ s) ->
  (S (ref_depth d l `max` ref_depth d r) <= S fuel)%nat ->
  PlanTableRef catalog_ fuel l s <> None /\
  forall a s1, PlanTableRef catalog_ fuel l s = Some (Ok (a, s1)) -> PlanTableRef catalog_ fuel r s1 <> None.
Proof.
  intros IH [Hl Hr]%andb_true_iff Hs Hd. split; [eapply IH; [done..|lia]|]. intros [lp l'] s1 E. apply plan_same in E as [_ E].
  eapply IH; [done|by eapply scope_ok_same|lia].
Qed.

Lemma PlanTableRef_returns fuel : ref_returns fuel -> stmt_returns fuel -> ref_returns (S fuel).
Proof.
  intros IHt IHs scope d t s Hc Hs Hd.
  destruct t as [| |t|jt l r c|l r|values id|sub names alias|cte alias]; cbn [PlanTableRef]; cbn [ref_depth ref_closed] in Hd, Hc; try done.
  - apply steady_bind; steady.
  - destruct (two_refs_return fuel scope d l r s IHt Hc Hs Hd) as [H1 H2]. apply pbind_total; [done|]. intros [lp l'] s1 E1.
    apply pbind_total; [by eapply H2|]. intros [rp r'] s2 _. apply steady_bind; steady.
  - destruct (two_refs_return fuel scope d l r s IHt Hc Hs Hd) as [H1 H2]. apply pbind_total; [done|]. intros [lp l'] s1 E1.
    apply pbind_total; [by eapply H2|]. intros [rp r'] s2 _. apply steady_bind; steady.
  - apply steady_bind; steady.
  - apply pbind_total; [eapply IHs; [done..|lia]|]. intros [node sub'] s1 _. apply steady_bind; steady.
  - subst scope. apply pbind_total; [done|]. intros ? ? [= <- <-]. specialize (Hs eq_refl). destruct (cte_list_ s) as [l|]; [|done].
    destruct (find_cte _ _) as [[i [[sub names] cte_alias]]|] eqn:Ef; [|done]. apply list_find_Some in Ef as [Hi _].
    destruct (Forall_lookup_1 _ _ _ _ Hs Hi) as [Hsc Hsd]. cbn in Hsc, Hsd.
    apply pbind_total; [apply (IHs false 0%nat); [done|done|lia]|]. intros [node sub'] s1 _.
    apply pbind_total; [done|]. intros ? ? [= <- <-]. apply pbind_total; [done|]. intros ? ? [= <- <-]. apply steady_bind; steady.
Qed.

Lemma with_ctes_total {A} ctes (m : planning A) s :
  m (match ctes with [] => s | _ => mkPlanner (ctx_ s) (Some ctes) (universal_id_ s) end) <> None -> with_ctes ctes m s <> None.
Proof.
  intros H. unfold with_ctes. destruct ctes as [|c cs]; [by apply pbind_total|].
  apply pbind_total; [done|]. intros ? ? [= <- <-]. apply pbind_total; [done|]. intros ? ? [= <- <-]. by apply pbind_total.
Qed.

Lemma PlanSelect_returns fuel : ref_returns fuel -> stmt_returns (S fuel).
Proof.
  intros IHt scope d [table sl w g h lc lo sort ctes dist] s Hc Hs Hd. cbn [PlanSelect]. cbn [stmt_depth stmt_closed] in Hd, Hc.
  apply andb_true_iff in Hc as [Ht Hc]. apply pbind_total; [|by intros [[[[? ?] ?] ?] ?] ? _].
  unfold with_new_context. apply pbind_total; [done|]. intros ? ? [= <- <-]. apply pbind_total; [done|]. intros ? ? [= _ <-].
  apply pbind_total; [|done]. apply with_ctes_total. apply pbind_total.
  - destruct table; [| by unfold pret|..];
      (eapply IHt; [exact Ht| |apply le_S_n, Hd]; destruct ctes as [|c cs]; [exact Hs|]; by apply ctes_scope_ok).
  - intros [plan table'] s1 _. apply steady_bind; steady.
Qed.

Lemma plan_returns fuel : ref_returns fuel /\ stmt_returns fuel.
Proof.
  induction fuel as [|fuel [IHt IHs]]; [|split; [by apply PlanTableRef_returns|by apply PlanSelect_returns]].
  split; [intros ? ? t ? _ _ Hd; exfalso; destruct t; cbn in Hd; lia|].
  intros ? ? [] ? _ _ Hd. exfalso. cbn in Hd. lia.
Qed.
End recursion.

(** The fuel a statement needs. *)
Definition query_closed (statement : BoundStatement) : bool :=
  match statement with SelectStmt s | InsertStmt _ s => stmt_closed false s | _ => true end.
Definition query_depth (statement : BoundStatement) : nat :=
  match statement with SelectStmt s | InsertStmt _ s => stmt_depth 0 s | _ => 0 end.

Lemma steady_plan_matching c t e : steady (plan_matching c t e).
Proof. unfold plan_matching. steady. Qed.
Lemma steady_plan_targets plan ts es : steady (plan_targets plan ts es).
Proof. revert es. induction ts as [|[col e] ts IH]; intros es; cbn [plan_targets]; steady. Qed.
Lemma steady_count_schema n : steady (count_schema n).
Proof. unfold count_schema. steady. Qed.
#[export] Hint Resolve steady_plan_matching steady_plan_targets steady_count_schema : planner.

(** C27: the planner ends, with a plan or an exception, on every statement whose common table expressions
    do not refer to common table expressions, from any state and with any catalog. The recursion is as deep as
    the statement is nested. *)
Theorem PlanQuery_terminates (catalog_ : Catalog) (fuel : nat) (statement : BoundStatement) (s : Planner) :
  query_closed statement = true -> (query_depth statement <= fuel)%nat ->
  (exists plan s', PlanQuery catalog_ fuel statement s = Some (Ok (plan, s'))) \/
  exists x, PlanQuery catalog_ fuel statement s = Some (Throw x).
Proof.
  intros Hc Hd. assert (Hn : PlanQuery catalog_ fuel statement s <> None).
  { destruct (plan_returns catalog_ fuel) as [_ Hs].
    destruct statement as [st|t st|t e|t e ts| | | | |]; cbn [PlanQuery]; cbn [query_closed query_depth] in Hc, Hd; try done.
    - apply pbind_total; [by apply (Hs false 0%nat)|]. by intros [] ? _.
    - apply pbind_total; [by apply (Hs false 0%nat)|]. intros [plan st'] s1 _. case_bool_decide; [|done].
      apply steady_bind; steady.
    - apply steady_bind; steady.
    - apply steady_bind; steady. }
  destruct (PlanQuery catalog_ fuel statement s) as [[[plan s']|x]|]; [left; by exists plan, s'|right; by exists x|done].
Qed.

Lemma PlanQuery_terminates_witness :
  (exists plan s', PlanQuery Catalog_ctor 2 (SelectStmt demo_statement) Planner_ctor = Some (Ok (plan, s'))) \/
  exists x, PlanQuery Catalog_ctor 2 (SelectStmt demo_statement) Planner_ctor = Some (Throw x).
Proof. apply (PlanQuery_terminates Catalog_ctor 2 (SelectStmt demo_statement) Planner_ctor); [reflexivity|cbn; lia]. Defined.

(** ** Common table expressions *)

(** [with c as (select max(v.1) from ... v) select ... from table]; the binder names the column [__item#0]. *)
Definition with_max (table : BoundTableRef) (column_of : string) : SelectStatement :=
  plain_select table [column column_of "__item#0"]
    [(plain_select demo_rows [BoundAggCall (str "max") false [column "v" "1"]] [], [[str "__item#0"]], str "c")].
Definition cte_once : SelectStatement := with_max (BoundCTERef (str "c") (str "a")) "a".
Definition cte_twice : SelectStatement :=
  with_max (BoundCrossProductRef (BoundCTERef (str "c") (str "a")) (BoundCTERef (str "c") (str "b"))) "a".

(** An expression with an aggregate can be referenced once; at the second reference its call has become a
    pseudo call, which no factory knows. *)
Example cte_with_aggregate :
  (exists plan s', PlanSelect Catalog_ctor 9 cte_once Planner_ctor = Some (Ok (plan, s'))) /\
  PlanSelect Catalog_ctor 9 cte_twice Planner_ctor = Some (Throw EMessage).
Proof. split; [eexists _, _|]; vm_compute; reflexivity. Qed.

(** [with a as (select a.x from a) select a.x from a], in a query in which an outer WITH clause has an [a]
    with a column [x]: the inner [from a] is bound to the outer expression. *)
Definition uses_a : SelectStatement := plain_select (BoundCTERef (str "a") (str "a")) [column "a" "x"] [].
Definition shadowed : SelectStatement :=
  plain_select (BoundCTERef (str "a") (str "a")) [column "a" "x"] [(uses_a, [[str "x"]], str "a")].

Lemma pbind_None {A B} (f : A -> planning B) m s : m s = None -> pbind f m s = None.
Proof. unfold pbind. by intros ->. Qed.
Lemma with_new_context_None {A} (m : planning A) s :
  m (mkPlanner default_context (cte_list_ s) (universal_id_ s)) = None -> with_new_context m s = None.
Proof. intros H. unfold with_new_context, pbind, pget, pset_ctx. by rewrite H. Qed.
Lemma with_ctes_None {A} ctes (m : planning A) s :
  m (match ctes with [] => s | _ => mkPlanner (ctx_ s) (Some ctes) (universal_id_ s) end) = None -> with_ctes ctes m s = None.
Proof. intros H. unfold with_ctes, pbind, pget, pset_ctes. destruct ctes; by rewrite H. Qed.

Lemma self_reference_diverges catalog_ fuel s :
  cte_list_ s = Some [(uses_a, [[str "x"]], str "a")] ->
  PlanTableRef catalog_ fuel (BoundCTERef (str "a") (str "a")) s = None /\ PlanSelect catalog_ fuel uses_a s = None.
Proof.
  revert s. induction fuel as [|fuel IH]; intros s Hs; [done|]. split.
  - cbn [PlanTableRef]. unfold pbind at 1, pget. rewrite Hs.
    change (find_cte _ _) with (Some (0%nat, (uses_a, [[str "x"]], str "a"))). cbn iota. by apply pbind_None, IH.
  - apply pbind_None, with_new_context_None, with_ctes_None, pbind_None. by apply IH.
Qed.

(** The planner looks [a] up in the inner clause, and recurses for ever. *)
Theorem shadowed_cte_diverges catalog_ fuel s : PlanSelect catalog_ fuel shadowed s = None.
Proof.
  destruct fuel as [|fuel]; [done|]. apply pbind_None, with_new_context_None, with_ctes_None, pbind_None.
  by apply self_reference_diverges.
Qed.
