(* ===== verification/BinderTheory.v ===== *)
(** * Binding and planning agree on columns

    The binder and the planner both work with names: the binder expands a star and
    resolves a column to the names of columns, and the planner looks those names up in the
    schema of the planned FROM clause.

    - [star_columns_planned]: a star stands for exactly the columns of the plan, in their order.
    - [resolved_column_planned]: a column the binder has resolved is found by the planner, if only once
      in the schema. References to common table expressions under another name are
      excluded, since the binder gives their columns a name the planner does not know
      ([aliased_cte_unresolved]).
      Both have the condition that the binder and the planner have the same common table expressions in
      scope, which fails in the queries of WITH expressions ([shadowed_cte_star]).
    - [or_bound_as_and]: a disjunction is bound as a conjunction. *)

From Stdlib Require Import String.
From S2P Require Import Prelude.
From S2P Require Import CStd.
From S2P Require Import StringUtil.
From S2P Require Import Value.
From S2P Require Import Types.
From S2P Require Import ValueFactory.
From S2P Require Import Tuple.
From S2P Require Import Catalog.
From S2P Require Import Expressions.
From S2P Require Import Plans.
From S2P Require Import Bound.
From S2P Require Import Binder.
From S2P Require Import Planner.
From S2P Require Import Executors.
From S2P Require Import PlannerTheory.
From S2P Require Import PlannerTerm.
Local Open Scope Z_scope.
Local Open Scope bustub_scope.
Local Open Scope planner_scope.
Local Open Scope binder_scope.

(** ** Names of columns *)

Definition schema_names (s : Schema) : list (list Z) := column_name_ <$> columns_ s.
Definition plan_names (plan : AbstractPlanNode) : list (list Z) := schema_names (OutputSchema plan).

Lemma add_columns_names st i cols :
  column_name_ <$> columns_ (add_columns st i cols) = (column_name_ <$> columns_ st) ++ (column_name_ <$> cols).
Proof.
  revert st i. induction cols as [|c cs IH]; intros st i; cbn [add_columns]; [by rewrite app_nil_r|].
  rewrite IH. cbn. by rewrite fmap_app, <- app_assoc.
Qed.
Lemma Schema_ctor_names cols : schema_names (Schema_ctor cols) = column_name_ <$> cols.
Proof. apply (add_columns_names (mkSchema 0 [] true [])). Qed.
Lemma RenameSchema_names s names s' : RenameSchema s names = Ok s' -> schema_names s' = names.
Proof.
  unfold RenameSchema, zlen. destruct (_ =? _) eqn:E; [|done]. intros [= <-]. rewrite Schema_ctor_names.
  assert (Hl : length names = length (columns_ s)) by lia. clear E. revert Hl. generalize (columns_ s) as cols.
  induction names as [|n names IH]; intros [|c cols] [=]; cbn; [done|]. f_equal. by apply IH.
Qed.

Lemma make_projection_names exprs names child s plan s' :
  make_projection exprs names child s = Some (Ok (plan, s')) -> plan_names plan = names.
Proof.
  unfold make_projection. intros H. pinv H sch s1 E1. pinv H out s2 E2. injection H as <- <-.
  unfold plift in E2. destruct (RenameSchema sch names) as [o|] eqn:E; [|done]. injection E2 as <- _.
  by apply RenameSchema_names in E.
Qed.

(** The number of columns a SELECT yields. *)
Definition width (plan : AbstractPlanNode) : nat := length (columns_ (OutputSchema plan)).

Lemma make_projection_width exprs names child s plan s' :
  make_projection exprs names child s = Some (Ok (plan, s')) -> width plan = length exprs.
Proof.
  unfold make_projection. intros H. pinv H sch s1 E1. pinv H out s2 E2. injection H as <- <-.
  unfold plift in E1, E2. destruct (InferProjectionSchema exprs) as [o|] eqn:F1; [|done]. injection E1 as <- _.
  destruct (RenameSchema o names) as [o'|] eqn:F2; [|done]. injection E2 as <- _.
  apply InferProjectionSchema_types in F1. apply RenameSchema_types in F2. rewrite F1 in F2.
  apply (f_equal length) in F2. unfold schema_types in F2. by rewrite !length_fmap in F2.
Qed.

Lemma PlanSelectAgg_width sl g h child s p h' sl' s' :
  PlanSelectAgg sl g h child s = Some (Ok (p, h', sl', s')) -> width p = length sl.
Proof.
  unfold PlanSelectAgg, with_new_context. intros H. pinv H x s1 E1. pinv H x1 s2 E2. pinv H r s3 E. pinv H u s4 E3.
  injection H as -> _. pinv E u1 t1 F1. pinv E gs t2 F2. pinv E h1 t3 F3. pinv E l t4 F4. pinv E x2 t5 F5. pinv E aggs t6 F6.
  pinv E x3 t7 F7. pinv E x4 t8 F8. pinv E x5 t9 F9. pinv E x6 t10 F10. pinv E x7 t11 F11. pinv E x8 t12 F12. pinv E x9 t13 F13.
  injection E as -> _ -> _. apply make_projection_width in F13. rewrite F13, length_fmap.
  apply pmap_length in F12. apply pmap_length in F4. congruence.
Qed.

Lemma plan_select_clauses_width sl w g h lc lo sort dist plan s p h' sl' s' :
  plan_select_clauses sl w g h lc lo sort dist plan s = Some (Ok (p, h', sl', s')) -> width p = length sl.
Proof.
  unfold plan_select_clauses. intros H. pinv H p1 s1 E1. pinv H b s2 E2. pinv H r s3 E3. destruct r as [[p2 h2] sl2].
  pinv H p3 s4 E4. pinv H p4 s5 E5. injection H as <- _ _ _.
  assert (H2 : width p2 = length sl).
  { destruct (_ || _); [by eapply PlanSelectAgg_width|]. pinv E3 p5 s6 E6. injection E3 as <- _ _ _.
    unfold plan_normal_select in E6. pinv E6 items s7 E7. apply make_projection_width in E6. rewrite E6, length_fmap. by eapply pmap_length. }
  assert (H3 : width p3 = length sl).
  { rewrite <- H2. transitivity (width (plan_distinct dist p2)); [|by destruct dist]. unfold plan_order_by in E4.
    destruct sort as [|ob sort]; [by injection E4 as <- _|]. pinv E4 obs s6 E6. by injection E4 as <- _. }
  rewrite <- H3. unfold plan_limit in E5. destruct (_ && _); [by injection E5 as <- _|]. pinv E5 lim s6 E6. pinv E5 off s7 E7.
  destruct off, lim; try done. by injection E5 as <- _.
Qed.

Lemma PlanSelect_width catalog_ fuel st s p st' s' :
  PlanSelect catalog_ fuel st s = Some (Ok (p, st', s')) -> width p = length (select_list_of st).
Proof.
  destruct fuel as [|fuel]; [done|]. destruct st as [table sl w g h lc lo sort ctes dist]. cbn [PlanSelect]. intros H.
  pinv H x s1 E. destruct x as [[[[plan table'] h'] sl'] ctes']. injection H as <- _ _. unfold with_new_context in E.
  pinv E s0 s2 E0. pinv E u s3 E1. pinv E x s4 E2. pinv E u' s5 E3. injection E as -> _.
  apply with_ctes_inv in E2 as (t1 & t2 & _ & E & _). pinv E x t3 E4. destruct x as [plan1 table1].
  pinv E x t4 E5. destruct x as [[plan2 h2] sl2]. injection E as -> _ _ _ _. by eapply plan_select_clauses_width.
Qed.

(** ** Names in bound table references *)

(** A name for each column of a subquery. *)
Definition names_ok (sub : SelectStatement) (names : list (list (list Z))) : Prop :=
  length names = length (select_list_of sub) /\ Forall (fun n => n <> []) names.
Fixpoint well_named (t : BoundTableRef) : Prop :=
  match t with
  | BoundCrossProductRef l r | BoundJoinRef _ l r _ => well_named l /\ well_named r
  | BoundSubqueryRef sub names _ => names_ok sub names
  | _ => True
  end.
Definition ctes_named (l : CTEScope) : Prop := from_option (Forall (fun c : CTE => names_ok c.1.1 c.1.2)) True l.

Lemma ctes_named_same l l' : same_ctes l l' -> ctes_named l -> ctes_named l'.
Proof.
  intros Hs Hl. destruct Hs as [l l' Hs|]; [|done]. cbn in *.
  induction Hs as [|c c' cs cs' [(_ & _ & H1) [H2 _]] _ IH]; [done|]. apply Forall_cons in Hl as [Hc Hcs].
  constructor; [|by apply IH]. unfold names_ok in *. by rewrite <- H2, H1.
Qed.

(** Planning leaves the names a star stands for. *)
Lemma find_cte_ref_same name l l' :
  Forall2 same_cte l l' -> option_Forall2 same_cte (find_cte_ref name l) (find_cte_ref name l').
Proof.
  induction 1 as [|c c' l l' Hc _ IH]; cbn; [constructor|]. destruct Hc as (H1 & H2 & H3). rewrite H3.
  case_bool_decide; [|done]. by constructor.
Qed.
Lemma GetAllColumns_same l l' t : same_ctes l l' -> GetAllColumns l' t = GetAllColumns l t.
Proof.
  intros Hs. induction t as [| |t|jt t1 IH1 t2 IH2 c|t1 IH1 t2 IH2|vs id|sub names alias|cte alias]; cbn [GetAllColumns]; try done;
    try (by rewrite IH1, IH2). unfold the_cte. destruct Hs as [l l' Hs|]; [|done].
  destruct (find_cte_ref_same cte l l' Hs) as [c c' (H1 & H2 & H3)|]; [|done].
  destruct c as [[c ns] a], c' as [[c' ns'] a']. cbn in *. congruence.
Qed.

(** ** Stars *)

Lemma find_cte_agree name l i c : find_cte name l = Some (i, c) -> find_cte_ref name l = Some c.
Proof.
  unfold find_cte. revert i. induction l as [|d l IH]; intros i; cbn; [done|]. destruct (decide (d.2 = name)) as [E|E].
  - intros [= _ <-]. by rewrite bool_decide_true.
  - rewrite bool_decide_false by congruence. destruct (list_find _ l) as [[j e]|]; [|done]. cbn. intros [= _ <-]. by apply (IH j).
Qed.

Lemma Join_cons a n : n <> [] -> a ++ str "." ++ Join n (str ".") = ColumnRef_ToString (a :: n).
Proof. intros Hn. destruct n as [|b n]; [done|]. unfold ColumnRef_ToString. cbn. done. Qed.

Lemma plan_renaming_names node names alias s plan s' sub :
  names_ok sub names -> width node = length (select_list_of sub) ->
  plan_renaming node names alias s = Some (Ok (plan, s')) -> plan_names plan = ColumnRef_ToString <$> ((cons alias) <$> names).
Proof.
  intros [Hl Hn] Hw. unfold plan_renaming. fold (width node). destruct (_ <? _)%nat; [done|]. intros H.
  apply make_projection_names in H as ->. rewrite take_ge by lia. rewrite <- list_fmap_compose.
  apply list_fmap_ext. intros i n Hi. apply Join_cons. by apply (Forall_lookup_1 _ _ _ _ Hn Hi).
Qed.

Section star.
Context (catalog_ : Catalog).

Lemma base_names t s plan s' :
  PlanBaseTableRef catalog_ t s = Some (Ok (plan, s')) ->
  plan_names plan = (fun c => ColumnRef_ToString [GetBoundTableName t; column_name_ c]) <$> columns_ (bt_schema_ t).
Proof.
  intros H. assert (OutputSchema plan = InferScanSchema (GetBoundTableName t) (bt_schema_ t)) as Ho.
  { unfold PlanBaseTableRef in H. pinv H x s1 E1. destruct x as [table|]; [|done]. pinv H internal s2 E2.
    destruct internal; [|by injection H as <- _]. pinv H mock s3 E3. destruct mock; [|done]. by injection H as <- _. }
  unfold plan_names. rewrite Ho. unfold InferScanSchema. rewrite Schema_ctor_names, <- list_fmap_compose.
  apply list_fmap_ext. intros i c _. cbn. by rewrite app_nil_r.
Qed.

Lemma join_names l r cond : plan_names (PlanNode (InferJoinSchema l r) [l; r] cond) = plan_names l ++ plan_names r.
Proof. unfold plan_names. cbn [OutputSchema]. unfold InferJoinSchema. by rewrite Schema_ctor_names, fmap_app. Qed.

Lemma PlanTableRef_names fuel t s plan t' s' cols :
  well_named t -> ctes_named (cte_list_ s) ->
  PlanTableRef catalog_ fuel t s = Some (Ok (plan, t', s')) -> GetAllColumns (cte_list_ s) t = Ok cols ->
  plan_names plan = ColumnRef_ToString <$> cols.
Proof.
  revert t s plan t' s' cols. induction fuel as [|fuel IH]; [done|]. intros t s plan t' s' cols Ht Hs H Hc.
  assert (Hpair : forall l r lp l' s1 rp r' s2, well_named l /\ well_named r ->
    PlanTableRef catalog_ fuel l s = Some (Ok (lp, l', s1)) -> PlanTableRef catalog_ fuel r s1 = Some (Ok (rp, r', s2)) ->
    (let! columns := GetAllColumns (cte_list_ s) l in let! append_columns := GetAllColumns (cte_list_ s) r in Ok (columns ++ append_columns)) = Ok cols ->
    plan_names lp ++ plan_names rp = ColumnRef_ToString <$> cols).
  { intros l r lp l' s1 rp r' s2 [Hl Hr] E1 E2. destruct (GetAllColumns (cte_list_ s) l) as [c1|] eqn:F1; cbn [rbind]; [|done].
    destruct (GetAllColumns (cte_list_ s) r) as [c2|] eqn:F2; cbn [rbind]; [|done]. intros [= <-].
    destruct (plan_same catalog_ fuel) as [Same _]. pose proof (Same _ _ _ _ _ E1) as [_ Hsame].
    rewrite fmap_app, (IH _ _ _ _ _ _ Hl Hs E1 F1). f_equal. apply (IH _ _ _ _ _ _ Hr (ctes_named_same _ _ Hsame Hs) E2).
    by rewrite (GetAllColumns_same _ _ _ Hsame). }
  destruct t as [| |t|jt l r c|l r|vs id|sub names alias|cte alias]; cbn [PlanTableRef] in H; cbn [GetAllColumns] in Hc; try done.
  - pinv H p s1 E1. injection H as <- _ _. injection Hc as <-. rewrite <- list_fmap_compose. by apply base_names in E1.
  - pinv H x s1 E1. destruct x as [lp l']. pinv H x s2 E2. destruct x as [rp r']. pinv H x s3 E3. destruct x as [n e].
    injection H as <- _ _. rewrite join_names. by eapply Hpair.
  - pinv H x s1 E1. destruct x as [lp l']. pinv H x s2 E2. destruct x as [rp r']. pinv H x s3 E3.
    injection H as <- _ _. rewrite join_names. by eapply Hpair.
  - pinv H x s1 E1. destruct x as [node sub']. pinv H p s2 E2. injection H as <- _ _. injection Hc as <-.
    apply PlanSelect_width in E1. by eapply plan_renaming_names.
  - pinv H x s1 E1. injection E1 as <- <-. destruct (cte_list_ s) as [l|]; [|done].
    destruct (find_cte cte l) as [[i [[sub names] cte_alias]]|] eqn:Ef; [|done].
    pinv H x s1 E1. destruct x as [node sub']. pinv H x s2 E2. pinv H u s3 E3. pinv H p s4 E4. injection H as <- _ _.
    unfold the_cte in Hc. rewrite (find_cte_agree _ _ _ _ Ef) in Hc. cbn [rbind] in Hc. injection Hc as <-.
    apply list_find_Some in Ef as [Hi _]. pose proof (Forall_lookup_1 _ _ _ _ Hs Hi) as Hn. cbn in Hn.
    apply PlanSelect_width in E1. rewrite (plan_renaming_names _ _ _ _ _ _ _ Hn E1 E4), <- !list_fmap_compose. done.
Qed.
End star.

(** ** Resolution *)

Lemma resolve_loop_in {A B} (matches : A -> bool) (make : A -> B) l acc b :
  resolve_loop matches make l acc = Ok (Some b) -> acc = Some b \/ exists a, a ∈ l /\ b = make a.
Proof.
  revert acc. induction l as [|a l IH]; intros acc; cbn [resolve_loop]; [intros [= ->]; by left|].
  destruct (matches a); [destruct acc; [done|]|]; intros H; apply IH in H as [H|(x & Hx & ->)]; try (by left);
    try (right; exists x; split; [by right|done]). injection H as <-. right. exists a. split; [by left|done].
Qed.

Lemma strip_and_resolve_some prefix f name c : strip_and_resolve prefix f name = Ok (Some c) -> f (tail name) = Ok (Some c).
Proof. unfold strip_and_resolve. destruct name as [|p [|q rest]]; try done. by case_bool_decide. Qed.

(** A name resolved in a table is the name of the table and one of its columns. *)
Lemma resolve_prefixed prefix strip (f : list (list Z) -> result (option (list (list Z)))) name c :
  (let! direct := f name in let! stripped := strip_and_resolve strip f name in
   direct_or_stripped (Prepend direct prefix) (Prepend stripped prefix)) = Ok (Some c) ->
  exists n x, f n = Ok (Some x) /\ c = prefix :: x.
Proof.
  destruct (f name) as [d|] eqn:E1; cbn [rbind]; [|done]. destruct (strip_and_resolve strip f name) as [st|] eqn:E2; cbn [rbind]; [|done].
  destruct d as [d|], st as [st|]; cbn; try done; intros [= <-]; [by exists name, d|].
  apply strip_and_resolve_some in E2. by exists (tail name), st.
Qed.

Lemma base_resolved t name c :
  ResolveColumnRefFromBaseTableRef t name = Ok (Some c) -> exists col, col ∈ columns_ (bt_schema_ t) /\ c = [GetBoundTableName t; column_name_ col].
Proof.
  intros H. apply resolve_prefixed in H as (n & x & H & ->). unfold ResolveColumnRefFromSchema in H. destruct n as [|n1 [|]]; try done.
  apply resolve_loop_in in H as [H|(col & Hc & ->)]; [done|]. by exists col.
Qed.
Lemma subquery_resolved names own alias name c :
  ResolveColumnRefFromSubqueryRef names own alias name = Ok (Some c) -> exists n, n ∈ names /\ c = own :: n.
Proof.
  intros H. apply resolve_prefixed in H as (n & x & H & ->). apply resolve_loop_in in H as [H|(y & Hy & ->)]; [done|]. by exists y.
Qed.

Lemma find_cte_ref_name name l c : find_cte_ref name l = Some c -> c.2 = name.
Proof. induction l as [|d l IH]; cbn; [done|]. case_bool_decide as E; [by intros [= <-]|done]. Qed.

(** References to common table expressions by their own name. *)
Fixpoint own_names (t : BoundTableRef) : bool :=
  match t with
  | BoundCrossProductRef l r | BoundJoinRef _ l r _ => own_names l && own_names r
  | BoundCTERef cte_name alias => bool_decide (alias = cte_name)
  | _ => true
  end.

Lemma resolved_in_pair (r1 r2 : result (option (list (list Z)))) (g1 g2 : result (list (list (list Z)))) r :
  (forall x, r1 = Ok x -> exists cols, g1 = Ok cols /\ forall c, x = Some c -> c ∈ cols) ->
  (forall x, r2 = Ok x -> exists cols, g2 = Ok cols /\ forall c, x = Some c -> c ∈ cols) ->
  (let! left_column := r1 in let! right_column := r2 in
   match left_column, right_column with Some _, Some _ => Throw EMessage | Some c, None => Ok (Some c) | None, c => Ok c end) = Ok r ->
  exists cols, (let! columns := g1 in let! append_columns := g2 in Ok (columns ++ append_columns)) = Ok cols /\
    forall c, r = Some c -> c ∈ cols.
Proof.
  intros H1 H2. destruct r1 as [x1|]; cbn [rbind]; [|done]. destruct r2 as [x2|]; cbn [rbind]; [|done].
  destruct (H1 _ eq_refl) as (c1 & -> & G1). destruct (H2 _ eq_refl) as (c2 & -> & G2). cbn [rbind]. intros H.
  eexists. split; [done|]. intros c ->. apply elem_of_app. destruct x1, x2; try done; injection H as <-; auto.
Qed.

(** What is resolved is one of the columns a star stands for. *)
Lemma resolved_in_star ctes t name r :
  own_names t = true -> ResolveColumnInternal ctes t name = Ok r ->
  exists cols, GetAllColumns ctes t = Ok cols /\ forall c, r = Some c -> c ∈ cols.
Proof.
  revert r. induction t as [| |t|jt t1 IH1 t2 IH2 cond|t1 IH1 t2 IH2|vs id|sub names alias|cte alias]; intros r Ho;
    cbn [ResolveColumnInternal GetAllColumns]; cbn in Ho; try done.
  - intros H. eexists. split; [done|]. intros c ->. apply base_resolved in H as (col & Hc & ->). by apply (list_elem_of_fmap_2 (fun c => [_; column_name_ c])).
  - apply andb_true_iff in Ho as [H1 H2]. apply resolved_in_pair; eauto.
  - apply andb_true_iff in Ho as [H1 H2]. apply resolved_in_pair; eauto.
  - intros H. eexists. split; [done|]. intros c ->. apply subquery_resolved in H as (n & Hn & ->). by apply list_elem_of_fmap_2.
  - apply bool_decide_eq_true in Ho as ->. unfold the_cte. destruct ctes as [l|]; [|done].
    destruct (find_cte_ref cte l) as [[[sub names] own]|] eqn:Ef; cbn [rbind]; [|done]. intros H. eexists. split; [done|].
    intros c ->. apply subquery_resolved in H as (n & Hn & ->). apply find_cte_ref_name in Ef. cbn in Ef. subst own.
    rewrite <- list_fmap_compose. apply list_elem_of_fmap. by exists n.
Qed.

(** ** The tables the binder makes *)

Lemma ResolveColumn_cons ctes t name c : ResolveColumn ctes t name = Ok c -> c <> [].
Proof.
  unfold ResolveColumn. destruct (match t with InvalidTableRef => false | _ => true end); cbn [massert]; [|done].
  destruct (ResolveColumnInternal ctes t name) as [r|] eqn:E; cbn [rbind]; [|done]. destruct r as [c'|]; [|done]. intros [= <-].
  revert c' E. induction t as [| |t|jt t1 IH1 t2 IH2 cond|t1 IH1 t2 IH2|vs id|sub names alias|cte alias]; intros c; cbn [ResolveColumnInternal]; try done.
  - intros H. by apply base_resolved in H as (col & _ & ->).
  - destruct (ResolveColumnInternal ctes t1 name) as [r1|]; cbn [rbind]; [|done].
    destruct (ResolveColumnInternal ctes t2 name) as [r2|]; cbn [rbind]; [|done]. destruct r1, r2; try done; intros [= <-]; auto.
  - destruct (ResolveColumnInternal ctes t1 name) as [r1|]; cbn [rbind]; [|done].
    destruct (ResolveColumnInternal ctes t2 name) as [r2|]; cbn [rbind]; [|done]. destruct r1, r2; try done; intros [= <-]; auto.
  - intros H. by apply subquery_resolved in H as (n & _ & ->).
  - destruct (the_cte ctes cte) as [[[sub names] own]|]; cbn [rbind]; [|done]. intros H. by apply subquery_resolved in H as (n & _ & ->).
Qed.
Lemma GetAllColumns_cons ctes t cols : GetAllColumns ctes t = Ok cols -> Forall (fun c => c <> []) cols.
Proof.
  revert cols. induction t as [| |t|jt t1 IH1 t2 IH2 cond|t1 IH1 t2 IH2|vs id|sub names alias|cte alias]; intros cols; cbn [GetAllColumns]; try done.
  - intros [= <-]. apply Forall_fmap, Forall_true. done.
  - destruct (GetAllColumns ctes t1) as [c1|]; cbn [rbind]; [|done]. destruct (GetAllColumns ctes t2) as [c2|]; cbn [rbind]; [|done].
    intros [= <-]. apply Forall_app. auto.
  - destruct (GetAllColumns ctes t1) as [c1|]; cbn [rbind]; [|done]. destruct (GetAllColumns ctes t2) as [c2|]; cbn [rbind]; [|done].
    intros [= <-]. apply Forall_app. auto.
  - intros [= <-]. apply Forall_fmap, Forall_true. done.
  - destruct (the_cte ctes cte) as [[[sub names] own]|]; cbn [rbind]; [|done]. intros [= <-]. by do 2 apply Forall_fmap; apply Forall_true.
Qed.

Definition ref_ok (e : BoundExpression) : Prop := match e with BoundColumnRef [] => False | _ => True end.

Lemma BindExpression_ref scope ctes e x : BindExpression scope ctes e = Ok x -> ref_ok x.
Proof.
  revert x. induction e as [fields|v|name e IH| |f args d|k n l r|op args|]; intros x; cbn [BindExpression]; try done.
  - unfold BindColumnRef. destruct fields as [|[s|rel|] fields]; try done; [|by intros [= <-]].
    destruct (field_strings _) as [names|]; cbn [rbind]; [|done]. destruct scope as [t|]; [|done].
    destruct (ResolveColumn ctes t names) as [c|] eqn:E; cbn [rbind]; [|done]. intros [= <-]. apply ResolveColumn_cons in E. by destruct c.
  - unfold BindConstant. destruct v; try done.
    + destruct (_ <=? _); [|done]. destruct (GetIntegerValue _); cbn; [|done]. by intros [= <-].
    + destruct (GetVarcharValue _); cbn; [|done]. by intros [= <-].
    + destruct (GetNullValueByType _); cbn; [|done]. by intros [= <-].
  - destruct (BindExpression scope ctes e) as [y|]; cbn [rbind]; [|done]. intros [= <-]. destruct name; [done|]. by apply IH.
  - by intros [= <-].
  - destruct (bind_args _ args) as [es|]; cbn [rbind]; [|done]. unfold make_func_call. destruct (is_agg_name _); [|done]. by intros [= <-].
  - destruct (negb k); [done|]. unfold make_a_expr. destruct l as [l|]; [destruct (BindExpression scope ctes l) as [?|]; cbn [rbind]; [|done]|];
      (destruct r as [r|]; [destruct (BindExpression scope ctes r) as [?|]; cbn [rbind]; [|done]|]); try done; by intros [= <-].
  - destruct (bind_all _ args) as [es|]; cbn [rbind]; [|done]. unfold make_bool_expr.
    destruct op, es as [|e0 [|e1 es]]; try done; try (by intros [= <-]); intros [= <-];
      induction es as [|e es _] using rev_ind; [done| |done|]; by rewrite foldl_snoc.
Qed.

Lemma select_list_refs scope ctes l acc b sl :
  Forall ref_ok acc -> select_list_loop scope ctes l acc b = Ok sl -> Forall ref_ok sl.
Proof.
  revert acc b. induction l as [|e l IH]; intros acc b Ha; cbn [select_list_loop]; [by intros [= <-]|].
  destruct (BindExpression scope ctes e) as [x|] eqn:E; cbn [rbind]; [|done]. apply BindExpression_ref in E. destruct (IsStar x).
  - case_bool_decide; cbn [negb]; [|done]. destruct scope as [t|]; [|done].
    destruct (GetAllColumns ctes t) as [cols|] eqn:Ec; cbn [rbind]; [|done]. apply IH. apply GetAllColumns_cons in Ec.
    apply Forall_fmap. eapply Forall_impl; [done|]. by intros [].
  - destruct b; [done|]. apply IH. apply Forall_app. by split; [|constructor].
Qed.

Lemma rbind_inv {A B} (f : A -> result B) r b : rbind f r = Ok b -> exists a, r = Ok a /\ f a = Ok b.
Proof. destruct r as [a|]; [|done]. intros H. by exists a. Qed.
Lemma bbind_inv {A B} (f : A -> binding B) m id r : bbind f m id = Ok r -> exists a id1, m id = Ok (a, id1) /\ f a id1 = Ok r.
Proof. unfold bbind. intros ([a id1] & E & H)%rbind_inv. by exists a, id1. Qed.
Lemma blift_inv {A} (r : result A) id a id' : blift r id = Ok (a, id') -> r = Ok a /\ id' = id.
Proof. unfold blift. intros (x & -> & H)%rbind_inv. by injection H as -> ->. Qed.
Ltac rinv H a E := apply rbind_inv in H; destruct H as (a & E & H).
Ltac binv H a i E := apply bbind_inv in H; destruct H as (a & i & E & H).

Lemma bind_clauses_refs distinct targets wh group having sort offset count cs ctes t s :
  bind_clauses distinct targets wh group having sort offset count cs ctes t = Ok s -> Forall ref_ok (select_list_of s).
Proof.
  unfold bind_clauses. intros H. rinv H d E1. destruct targets as [targets|]; [|done]. rinv H sl E2. rinv H w E3. rinv H g E4.
  rinv H h E5. rinv H c E6. rinv H o E7. rinv H so E8. injection H as <-. by apply select_list_refs in E2.
Qed.

Lemma BindSelect_refs catalog_ ctes st id s id' : BindSelect catalog_ ctes st id = Ok (s, id') -> Forall ref_ok (select_list_of s).
Proof.
  destruct st as [distinct targets from wh group having values sort offset count with_]. cbn [BindSelect]. intros H. destruct values as [lists|].
  - unfold bind_values_select in H. binv H n i E1. binv H vs j E2. injection H as <- _. cbn. apply Forall_fmap, Forall_true. done.
  - binv H cs i E1. binv H t j E2. apply blift_inv in H as [H _]. by eapply bind_clauses_refs.
Qed.

Lemma subquery_names_ok sl id names id' :
  Forall ref_ok sl -> subquery_names sl id = Ok (names, id') -> length names = length sl /\ Forall (fun n => n <> []) names.
Proof.
  intros Hs. revert id names id'. induction Hs as [|col sl Hc _ IH]; intros id names id'; cbn [subquery_names]; [by intros [= <- _]|].
  intros H. binv H name i E1. binv H rest j E2. injection H as <- _. apply IH in E2 as [Hl Hn]. cbn. split; [by f_equal|].
  constructor; [|done]. destruct col as [| |c| | | | |]; try (by injection E1 as <- _);
    try (by binv E1 n k E3; injection E1 as <- _). injection E1 as <- _. by destruct c.
Qed.

Lemma BindSubquery_named catalog_ ctes st alias id s names alias' id' :
  BindSubquery (BindSelect catalog_ ctes st) alias id = Ok (s, names, alias', id') -> names_ok s names.
Proof.
  unfold BindSubquery. intros H. binv H s1 i1 E1. binv H n1 i2 E2. injection H as <- <- _ _.
  apply BindSelect_refs in E1. by eapply subquery_names_ok.
Qed.

(** Every subquery has the names of its columns. *)
Lemma BindTableRef_named catalog_ ctes node id t id' : BindTableRef catalog_ ctes node id = Ok (t, id') -> well_named t.
Proof.
  revert id t id'. induction node as [name alias|jt l IHl r IHr quals|lateral sub alias|]; intros id t id'; cbn [BindTableRef]; intros H; try done.
  - apply blift_inv in H as [H _]. unfold BindRangeVar in H. destruct (_ ≫= _); [by injection H as <-|]. rinv H b E. by injection H as <-.
  - unfold BindJoin in H. binv H j i1 E1. binv H ltab i2 E2. binv H rtab i3 E3. binv H c i4 E4. injection H as <- _. split; eauto.
  - destruct lateral; [done|]. binv H a i1 E1. binv H c i2 E2. destruct c as [[s names] a']. injection H as <- _.
    by eapply BindSubquery_named.
Qed.

Lemma bind_each_Forall {A B} (f : A -> binding B) (P : B -> Prop) l id bs id' :
  (forall a i b j, f a i = Ok (b, j) -> P b) -> bind_each f l id = Ok (bs, id') -> Forall P bs.
Proof.
  intros Hf. revert id bs id'. induction l as [|a l IH]; intros id bs id' H; [by injection H as <- _|].
  change (bind_each f (a :: l)) with (let$ b := f a in let$ bs := bind_each f l in bret (b :: bs)) in H.
  binv H b i E1. binv H rest j E2. injection H as <- _. constructor; [by eapply Hf|by eapply IH].
Qed.

(** So has every common table expression. *)
Definition ctes_of (s : SelectStatement) : list CTE := let '(mkSelect _ _ _ _ _ _ _ _ ctes _) := s in ctes.
Lemma bind_clauses_ctes distinct targets wh group having sort offset count cs ctes t s :
  bind_clauses distinct targets wh group having sort offset count cs ctes t = Ok s -> ctes_of s = cs.
Proof.
  unfold bind_clauses. intros H. rinv H d E1. destruct targets as [targets|]; [|done]. rinv H sl E2. rinv H w E3. rinv H g E4.
  rinv H h E5. rinv H c E6. rinv H o E7. rinv H so E8. by injection H as <-.
Qed.
Lemma BindSelect_ctes_named catalog_ ctes st id s id' : BindSelect catalog_ ctes st id = Ok (s, id') -> ctes_named (Some (ctes_of s)).
Proof.
  destruct st as [distinct targets from wh group having values sort offset count with_]. cbn [BindSelect]. intros H. destruct values as [lists|].
  - unfold bind_values_select in H. binv H n i E1. binv H vs j E2. injection H as <- _. constructor.
  - binv H cs i E1. binv H t j E2. apply blift_inv in H as [H _]. rewrite (bind_clauses_ctes _ _ _ _ _ _ _ _ _ _ _ _ H). unfold ctes_named. cbn [from_option].
    destruct with_ as [[rec l]|]; [|injection E1 as <- _; constructor]. eapply bind_each_Forall; [|exact E1]. clear. intros [[name crec] query] i b j H.
    destruct query as [query|]; [|done]. destruct (crec || rec); [done|]. destruct b as [[sub names] a]. by eapply BindSubquery_named.
Qed.

(** ** The planner finds what the binder resolved *)

Lemma find_column_some i cols name :
  name ∈ column_name_ <$> cols ->
  exists k c, find_column i cols name = Some (i + Z.of_nat k) /\ cols !! k = Some c /\ column_name_ c = name.
Proof.
  revert i. induction cols as [|c cs IH]; intros i H; [by apply elem_of_nil in H|]. cbn [find_column]. case_bool_decide as E.
  - exists 0%nat, c. split; [f_equal; lia|done].
  - apply elem_of_cons in H as [H|H]; [done|]. destruct (IH (i + 1) H) as (k & d & -> & Hk & Hd). exists (S k), d. split; [f_equal; lia|done].
Qed.

Lemma PlanColumnRef_found plan c :
  ColumnRef_ToString c ∈ plan_names plan ->
  (exists i col, columns_ (OutputSchema plan) !! i = Some col /\ column_name_ col = ColumnRef_ToString c /\
     PlanColumnRef c [plan] = Ok (ColumnRef_ToString c, ColumnValueExpression 0 (Z.of_nat i) (column_type_ col))) \/
  ((1 < length (filter (fun col => column_name_ col = ColumnRef_ToString c) (columns_ (OutputSchema plan))))%nat /\
     PlanColumnRef c [plan] = Throw EMessage).
Proof.
  intros H. destruct (find_column_some 0 _ _ H) as (k & col & Hf & Hk & Hn). unfold PlanColumnRef.
  destruct (1 <? _)%nat eqn:E; [right; split; [by apply Nat.ltb_lt in E|done]|]. left. exists k, col. split_and!; try done.
  unfold GetColIdx, TryGetColIdx. rewrite Hf. cbn [rbind]. unfold resolve, GetColumn. replace (0 + Z.of_nat k) with (Z.of_nat k) by lia.
  rewrite (proj2 (Z.ltb_ge _ _)) by lia. by rewrite Nat2Z.id, Hk.
Qed.

(** C24: when the planner has the same common table expressions in scope as the binder had ([cte_list_ s = ctes], each with as many
    names as columns), the columns a star stands for are the columns of the planned FROM item, by name and in
    order. The condition holds for the FROM clauses of a statement and of its subqueries. It does not hold inside the query of a WITH
    expression, which is bound in the scope around the WITH clause and planned in the scope of the
    reference to the expression: there the theorem says nothing, and [shadowed_cte_star] shows that the names can differ. *)
Theorem star_columns_planned (catalog_ : Catalog) (ctes : CTEScope) (node : PGTableRef) (id : Z) (t : BoundTableRef) (id' : Z)
    (cols : list (list (list Z))) (fuel : nat) (s : Planner) (plan : AbstractPlanNode) (t' : BoundTableRef) (s' : Planner) :
  ctes_named ctes -> cte_list_ s = ctes -> BindTableRef catalog_ ctes node id = Ok (t, id') ->
  GetAllColumns ctes t = Ok cols -> PlanTableRef catalog_ fuel t s = Some (Ok (plan, t', s')) ->
  plan_names plan = ColumnRef_ToString <$> cols.
Proof.
  intros Hn <- Hb Hc Hp. apply BindTableRef_named in Hb. by eapply PlanTableRef_names.
Qed.

(** C23: when the planner has the same common table expressions in scope as the binder had ([cte_list_ s = ctes], each with as many
    names as columns), a column that the binder resolved in a FROM item is found by the planner: it becomes a
    reference to a column of the plan with the resolved name, or, when several columns have that name,
    the planner reports the duplicate; it does not miss the column. FROM items that
    rename a common table expression are excluded, and so are, by the condition on the scopes, the queries of WITH
    expressions, which are bound and planned in different scopes: there the planner can miss a resolved column, see
    [shadowed_cte_star]. *)
Theorem resolved_column_planned (catalog_ : Catalog) (ctes : CTEScope) (node : PGTableRef) (id : Z) (t : BoundTableRef) (id' : Z)
    (name c : list (list Z)) (fuel : nat) (s : Planner) (plan : AbstractPlanNode) (t' : BoundTableRef) (s' : Planner) :
  ctes_named ctes -> cte_list_ s = ctes -> BindTableRef catalog_ ctes node id = Ok (t, id') -> own_names t = true ->
  ResolveColumn ctes t name = Ok c -> PlanTableRef catalog_ fuel t s = Some (Ok (plan, t', s')) ->
  (exists i col, columns_ (OutputSchema plan) !! i = Some col /\ column_name_ col = ColumnRef_ToString c /\
     PlanColumnRef c [plan] = Ok (ColumnRef_ToString c, ColumnValueExpression 0 (Z.of_nat i) (column_type_ col))) \/
  ((1 < length (filter (fun col => column_name_ col = ColumnRef_ToString c) (columns_ (OutputSchema plan))))%nat /\
     PlanColumnRef c [plan] = Throw EMessage).
Proof.
  intros Hn <- Hb Ho Hr Hp. apply BindTableRef_named in Hb. unfold ResolveColumn in Hr.
  destruct (match t with InvalidTableRef => false | _ => true end); cbn [massert] in Hr; [|done]. rinv Hr r E. destruct r as [c'|]; [|done].
  injection Hr as ->. destruct (resolved_in_star _ _ _ _ Ho E) as (cols & Hcols & Hin). specialize (Hin c eq_refl).
  apply PlanColumnRef_found. rewrite (PlanTableRef_names _ _ _ _ _ _ _ _ Hb Hn Hp Hcols). by apply list_elem_of_fmap_2.
Qed.

(** ** Examples *)

Definition pg_int (z : Z) : PGExpr := PGAConst (PGInteger z).
Definition pg_column (table col : string) : PGExpr := PGColumnRef [FieldString (str table); FieldString (str col)].
Definition pg_select (targets : list PGExpr) (from : option (list PGTableRef)) (with_ : option (bool * list PGCommonTableExpr)) : PGSelectStmt :=
  mkPGSelect None (Some targets) from None None None None None None None with_.

(** [(select 1 as x) a join (select 2 as y) b on a.x < b.y] *)
Definition pg_less (a b : PGExpr) : PGExpr := PGAExpr true (str "<") (Some a) (Some b).
Definition demo_subselect (z : Z) (col alias : string) : PGTableRef :=
  PGRangeSubselect false (pg_select [PGResTarget (Some (str col)) (pg_int z)] None None) (Some (str alias)).
Definition demo_from : PGTableRef :=
  PGJoinExpr PG_JOIN_INNER (demo_subselect 1 "x" "a") (demo_subselect 2 "y" "b") (Some (pg_less (pg_column "a" "x") (pg_column "b" "y"))).

Lemma star_columns_planned_witness :
  exists t id' cols plan t' s', BindTableRef Catalog_ctor None demo_from 0 = Ok (t, id') /\
    PlanTableRef Catalog_ctor 9 t Planner_ctor = Some (Ok (plan, t', s')) /\ GetAllColumns None t = Ok cols /\
    plan_names plan = ColumnRef_ToString <$> cols /\ plan_names plan = [str "a.x"; str "b.y"].
Proof.
  destruct (BindTableRef Catalog_ctor None demo_from 0) as [[t id']|] eqn:E1; [|vm_compute in E1; discriminate].
  destruct (GetAllColumns None t) as [cols|] eqn:E2; [|vm_compute in E1; injection E1 as <- _; vm_compute in E2; discriminate].
  destruct (PlanTableRef Catalog_ctor 9 t Planner_ctor) as [[[[plan t'] s']|x]|] eqn:E3;
    [|vm_compute in E1; injection E1 as <- _; vm_compute in E3; discriminate..].
  exists t, id', cols, plan, t', s'. do 3 (split; [done|]).
  pose proof (star_columns_planned Catalog_ctor None demo_from 0 t id' cols 9 Planner_ctor plan t' s' I eq_refl E1 E2 E3) as H.
  split; [exact H|]. rewrite H. vm_compute in E1. injection E1 as <- _. vm_compute in E2. injection E2 as <-. reflexivity.
Defined.

Lemma resolved_column_planned_witness :
  exists t id' plan t' s', BindTableRef Catalog_ctor None demo_from 0 = Ok (t, id') /\
    PlanTableRef Catalog_ctor 9 t Planner_ctor = Some (Ok (plan, t', s')) /\ ResolveColumn None t [str "y"] = Ok [str "b"; str "y"] /\
    ((exists i col, columns_ (OutputSchema plan) !! i = Some col /\ column_name_ col = str "b.y" /\
       PlanColumnRef [str "b"; str "y"] [plan] = Ok (str "b.y", ColumnValueExpression 0 (Z.of_nat i) (column_type_ col))) \/
     ((1 < length (filter (fun col => column_name_ col = str "b.y") (columns_ (OutputSchema plan))))%nat /\
       PlanColumnRef [str "b"; str "y"] [plan] = Throw EMessage)).
Proof.
  destruct (BindTableRef Catalog_ctor None demo_from 0) as [[t id']|] eqn:E1; [|vm_compute in E1; discriminate].
  destruct (PlanTableRef Catalog_ctor 9 t Planner_ctor) as [[[[plan t'] s']|x]|] eqn:E3;
    [|vm_compute in E1; injection E1 as <- _; vm_compute in E3; discriminate..].
  assert (E2 : ResolveColumn None t [str "y"] = Ok [str "b"; str "y"]) by (vm_compute in E1; injection E1 as <- _; reflexivity).
  assert (Eo : own_names t = true) by (vm_compute in E1; injection E1 as <- _; reflexivity).
  exists t, id', plan, t', s'. do 3 (split; [done|]).
  exact (resolved_column_planned Catalog_ctor None demo_from 0 t id' [str "y"] [str "b"; str "y"] 9 Planner_ctor plan t' s' I eq_refl E1 Eo E2 E3).
Defined.

(** A SELECT from its parse tree to its rows. *)
Definition run_select (st : PGSelectStmt) : option (result (list Tuple)) :=
  match BindSelect Catalog_ctor None st 0 with
  | Throw x => Some (Throw x)
  | Ok (s, _) =>
      match PlanSelect Catalog_ctor 9 s Planner_ctor with
      | Some (Ok (plan, _, _)) =>
          match Execute id 100 plan [] with Some r => Some (let! (_, rows) := r in Ok rows) | None => None end
      | Some (Throw x) => Some (Throw x)
      | None => None
      end
  end.

(** A common table expression under another name: the binder resolves [t.x] to [c.x], the name of the
    expression, which the plan of [c t] does not have. *)
Definition with_c (table : string) (alias : option string) : PGSelectStmt :=
  pg_select [PGResTarget None (pg_column table "x")] (Some [PGRangeVar (str "c") (str <$> alias)])
    (Some (false, [(str "c", false, Some (pg_select [PGResTarget (Some (str "x")) (pg_int 1)] None None))])).
Example aliased_cte_unresolved :
  run_select (with_c "c" None) = Some (Ok [[1; 0; 0; 0]]) /\ run_select (with_c "t" (Some "t"%string)) = Some (Throw LogicError).
Proof. split; vm_compute; reflexivity. Qed.

(** [with c as (select 1 as x) select * from (with c as (select 2 as y), e as (select * from c) select * from e) s]:
    the binder expands the star of [e] with the outer [c], to [c.x]; the planner takes the inner [c], whose column
    is [c.y], and does not find it. *)
Definition cte_of (name col : string) (z : Z) : PGCommonTableExpr := (str name, false, Some (pg_select [PGResTarget (Some (str col)) (pg_int z)] None None)).
Definition star_from (table : string) (with_ : option (bool * list PGCommonTableExpr)) : PGSelectStmt :=
  pg_select [PGResTarget None (PGColumnRef [FieldStar None])] (Some [PGRangeVar (str table) None]) with_.
Definition nested_with (inner : list PGCommonTableExpr) : PGSelectStmt :=
  pg_select [PGResTarget None (PGColumnRef [FieldStar None])]
    (Some [PGRangeSubselect false (star_from "e" (Some (false, inner ++ [(str "e", false, Some (star_from "c" None))]))) (Some (str "s"))])
    (Some (false, [cte_of "c" "x" 1])).
Example shadowed_cte_star :
  run_select (nested_with [cte_of "c" "y" 2]) = Some (Throw LogicError).
Proof. vm_compute. reflexivity. Qed.

(** A disjunction is bound as a conjunction: [null < 2 or 2 < 3] is NULL. *)
Theorem or_bound_as_and scope ctes args :
  BindExpression scope ctes (PGBoolExpr PG_OR_EXPR args) = BindExpression scope ctes (PGBoolExpr PG_AND_EXPR args).
Proof. done. Qed.
Example or_is_null :
  run_select (pg_select [PGBoolExpr PG_OR_EXPR [pg_less (PGAConst PGNull) (pg_int 2); pg_less (pg_int 2) (pg_int 3)]] None None)
  = Some (Ok [[128]]).
Proof. vm_compute. reflexivity. Qed.

(** [a.*] stands for the columns of all tables. *)
Example qualified_star_all :
  (let! (s, _) := BindSelect Catalog_ctor None
     (pg_select [PGResTarget None (PGColumnRef [FieldStar (Some (str "a"))])] (Some [demo_subselect 1 "x" "a"; demo_subselect 2 "y" "b"]) None) 0 in
   Ok (select_list_of s))
  = Ok [BoundColumnRef [str "a"; str "x"]; BoundColumnRef [str "b"; str "y"]].
Proof. vm_compute. reflexivity. Qed.

(** Null pointers: a column in a VALUES list has no scope, and [varchar] without a length no arguments. *)
Example null_dereferences :
  BindSelect Catalog_ctor None (mkPGSelect None None None None None None (Some [[PGColumnRef [FieldString (str "x")]]]) None None None None) 0
    = Throw Undefined /\
  BindCreate (str "t") [PGColumnDef (Some (str "v")) false (str "varchar") None false] = Throw Undefined.
Proof. split; vm_compute; reflexivity. Qed.

(** The target of an assignment to a column that does not exist is a null pointer, which the planner follows. *)
Definition one_column : BaseTableRef := mkBase (str "t") 0 None (Schema_ctor [mkColumn (str "v") INTEGER 4 0 0]).
Definition one_column_catalog : Catalog :=
  mkCatalog {[ 0 := mkTableInfo (bt_schema_ one_column) (str "t") None 0 ]} {[ str "t" := 0 ]} 1 ∅ ∅ 0.
Definition pg_update (col : string) : PGStmt := PGUpdateStmt false false (str "t") None [(str col, pg_int 1)].
Definition run_update (col : string) : option (result AbstractPlanNode) :=
  match BindStatement one_column_catalog (pg_update col) 0 with
  | Throw x => Some (Throw x)
  | Ok (s, _) => match PlanQuery one_column_catalog 9 s Planner_ctor with Some r => Some (let! (p, _) := r in Ok p) | None => None end
  end.
Example update_unknown_column :
  (exists plan, run_update "v" = Some (Ok plan)) /\ run_update "w" = Some (Throw Undefined).
Proof. split; [eexists|]; vm_compute; reflexivity. Qed.
