(* ===== verification/PlanTyping.v ===== *)
(** * Typing of plans

    The typing discipline the planner follows, and what it gives at run time: the
    rows of a well-typed plan are tuples of its output schema, and a plan whose
    expressions cannot fail runs to its end. Sizes are part of the discipline, since
    offsets in a tuple are 32-bit numbers: [plan_bound] bounds the variable-length
    part of the rows. *)

From Stdlib Require Import String.
From S2P Require Import Prelude.
From S2P Require Import CStd.
From S2P Require Import StringUtil.
From S2P Require Import Value.
From S2P Require Import Types.
From S2P Require Import ValueFactory.
From S2P Require Import Tuple.
From S2P Require Import Expressions.
From S2P Require Import Plans.
From S2P Require Import MockScan.
From S2P Require Import Executors.
Local Open Scope Z_scope.
Local Open Scope bustub_scope.

(** ** Schemas with the same types *)

(** Columns at the same place in the tuple. *)
Definition same_place (c d : Column) : Prop := column_type_ c = column_type_ d /\ column_offset_ c = column_offset_ d.
Definition same_schema (s s' : Schema) : Prop :=
  length_ s = length_ s' /\ Forall2 same_place (columns_ s) (columns_ s') /\ uninlined_columns_ s = uninlined_columns_ s'.

Lemma column_ok_types cols cols' :
  Forall column_ok cols -> Forall column_ok cols' -> column_type_ <$> cols = column_type_ <$> cols' ->
  fixed_length_ <$> cols = fixed_length_ <$> cols'.
Proof.
  intros Hc. revert cols'. induction Hc as [|c cs Hc _ IH]; intros [|d ds] Hd Ht; try done.
  apply Forall_cons in Hd as [Hd Hds]. cbn in Ht. injection Ht as Ht Hts. cbn. f_equal; [|by apply IH].
  unfold column_ok in Hc, Hd. rewrite Ht in Hc. congruence.
Qed.

Lemma with_offsets_same o cols cols' :
  column_type_ <$> cols = column_type_ <$> cols' -> fixed_length_ <$> cols = fixed_length_ <$> cols' ->
  Forall2 same_place (with_offsets o cols) (with_offsets o cols').
Proof.
  revert o cols'. induction cols as [|c cs IH]; intros o [|d ds] Ht Hl; try done.
  cbn in Ht, Hl. injection Ht as Ht Hts. injection Hl as Hl Hls. cbn. constructor; [by split|]. rewrite Hl. by apply IH.
Qed.

Lemma fixed_total_lengths cols cols' : fixed_length_ <$> cols = fixed_length_ <$> cols' -> fixed_total cols = fixed_total cols'.
Proof. revert cols'. induction cols as [|c cs IH]; intros [|d ds] H; try done. cbn in H. injection H as ? H. cbn. f_equal; auto. Qed.

Lemma uninlined_types i cols cols' :
  column_type_ <$> cols = column_type_ <$> cols' -> uninlined_from i cols = uninlined_from i cols'.
Proof.
  revert i cols'. induction cols as [|c cs IH]; intros i [|d ds] H; try done. cbn in H. injection H as Ht H. cbn.
  unfold Column_IsInlined. rewrite Ht. f_equal. by apply IH.
Qed.

(** A schema built from proper columns, whose tuples have room for [b] more bytes. *)
Definition schema_ok (s : Schema) (b : Z) : Prop :=
  exists cols, s = Schema_ctor cols /\ Forall column_ok cols /\ 0 <= b /\ fixed_total cols + b < 2 ^ 31.

Lemma schema_ok_same s s' b b' :
  schema_ok s b -> schema_ok s' b' -> schema_types s = schema_types s' -> same_schema s s'.
Proof.
  intros (cols & -> & Hok & Hb & Hn) (cols' & -> & Hok' & Hb' & Hn'). rewrite !wf_schema_types by (done || lia). intros Ht.
  pose proof (column_ok_types _ _ Hok Hok' Ht) as Hl. rewrite !Schema_ctor_spec by (done || lia).
  split_and!; cbn; [by apply fixed_total_lengths|by apply with_offsets_same|by apply uninlined_types].
Qed.

Lemma serialize_same cols cols' vs data off :
  Forall2 same_place cols cols' -> serialize_columns cols vs data off = serialize_columns cols' vs data off.
Proof.
  intros Hs. revert vs data off. induction Hs as [|c d cs ds [Ht Ho] _ IH]; intros [|v vs] data off; try done.
  cbn [serialize_columns]. unfold Column_IsInlined. rewrite Ht, Ho. destruct (negb _); cbn [rbind].
  - destruct (store 4 off data (column_offset_ d)) as [x|]; cbn [rbind]; [|done].
    destruct (Value_SerializeTo v x off) as [y|]; cbn [rbind]; [|done]. destruct (Value_GetLength v); cbn [rbind]; [|done]. apply IH.
  - destruct (Value_SerializeTo v data _) as [y|]; cbn [rbind]; [|done]. apply IH.
Qed.

Lemma Tuple_ctor_same s s' vs : same_schema s s' -> Tuple_ctor vs s = Tuple_ctor vs s'.
Proof.
  intros (Hl & Hc & Hu). unfold Tuple_ctor. rewrite Hl, Hu. unfold zlen. rewrite (Forall2_length _ _ _ Hc).
  destruct (_ =? _); cbn [massert]; [|done]. destruct (add_payloads _ _ _) as [n|]; cbn [rbind]; [|done]. by apply serialize_same.
Qed.

Lemma make_row_same s s' exprs t schema : same_schema s s' -> make_row s exprs t schema = make_row s' exprs t schema.
Proof. intros Hs. unfold make_row. destruct (rseq _); cbn [rbind]; [|done]. by apply Tuple_ctor_same. Qed.

Lemma same_schema_types s s' : same_schema s s' -> schema_types s = schema_types s'.
Proof. intros (_ & Hc & _). unfold schema_types. induction Hc as [|c d cs ds [Ht _] _ IH]; cbn; [done|]. by f_equal. Qed.

(** ** Bounds on the variable part of a row *)

Definition expr_bound (b : Z) (e : AbstractExpression) : Z :=
  match e with
  | ColumnValueExpression _ _ VARCHAR => b
  | ConstantValueExpression v => var_size v
  | _ => 0
  end.
Definition row_bound (b : Z) (exprs : list AbstractExpression) : Z := foldr (fun e n => expr_bound b e + n) 0 exprs.

Definition has_varchar (s : Schema) : bool := existsb (TypeId_eqb VARCHAR) (schema_types s).

(** The longest of the mock tables' rows is shorter. *)
Definition mock_bound (out : Schema) : Z := if has_varchar out then 300 else 0.

Fixpoint plan_bound (plan : AbstractPlanNode) : Z :=
  let '(PlanNode out cs kind) := plan in
  match kind, cs with
  | ValuesPlanNode rows, _ => foldr (fun row n => row_bound 0 row `max` n) 0 rows
  | FilterPlanNode _, [c] => plan_bound c
  | ProjectionPlanNode exprs, [c] => row_bound (plan_bound c) exprs
  | MockScanPlanNode _, _ => mock_bound out
  | _, _ => 0
  end.

(** ** Typing *)

Definition node_typed (out : Schema) (cs : list AbstractPlanNode) (kind : PlanKind) : Prop :=
  match kind, cs with
  | ValuesPlanNode rows, [] =>
      Forall (fun row => Forall (well_typed []) row /\ GetReturnType <$> row = schema_types out) rows
  | FilterPlanNode p, [c] =>
      well_typed (schema_types (OutputSchema c)) p /\ GetReturnType p = BOOLEAN /\
      schema_types out = schema_types (OutputSchema c)
  | ProjectionPlanNode exprs, [c] =>
      Forall (well_typed (schema_types (OutputSchema c))) exprs /\ GetReturnType <$> exprs = schema_types out
  | MockScanPlanNode table, [] => exists ms, GetMockTableSchemaOf table = Ok ms /\ schema_types out = schema_types ms
  | _, _ => length cs = arity kind
  end.

Fixpoint plan_typed (plan : AbstractPlanNode) : Prop :=
  let '(PlanNode out cs kind) := plan in
  schema_ok out (plan_bound plan) /\ node_typed out cs kind /\ foldr (fun c P => plan_typed c /\ P) True cs.

(** Plans with an expression that may fail. *)
Fixpoint plan_may_fail (plan : AbstractPlanNode) : bool :=
  let '(PlanNode _ cs kind) := plan in
  match kind with
  | ValuesPlanNode rows => existsb (existsb may_fail) rows
  | FilterPlanNode p => may_fail p || existsb plan_may_fail cs
  | ProjectionPlanNode exprs => existsb may_fail exprs || existsb plan_may_fail cs
  | _ => false
  end.

(** The tuples of a schema with a variable part of at most [b] bytes. *)
Definition tuple_of (s : Schema) (b : Z) (t : Tuple) : Prop :=
  exists cols vs, s = Schema_ctor cols /\ tuple_values cols vs /\ Forall good_value vs /\ var_total vs <= b /\
    Tuple_ctor vs s = Ok t.
Definition row_ok (s : Schema) (b : Z) (fails : bool) (r : result Tuple) : Prop :=
  match r with Ok t => tuple_of s b t | Throw _ => fails = true end.

(** ** Rows of expressions *)

Lemma var_size_inlined v : type_id_ v <> VARCHAR -> var_size v = 0.
Proof. unfold var_size. by destruct (type_id_ v). Qed.

Lemma var_total_app_nonneg vs : Forall good_value vs -> 0 <= var_total vs.
Proof. induction 1 as [|v vs [Hw _] _ IH]; cbn; [lia|]. pose proof (var_size_nonneg v Hw). unfold var_total in IH. lia. Qed.

Lemma var_total_lookup vs i v : Forall good_value vs -> vs !! i = Some v -> var_size v <= var_total vs.
Proof.
  intros Hg. revert i. induction Hg as [|w vs [Hw _] Hg IH]; intros [|i] Hi; try done; cbn in Hi |- *.
  - injection Hi as ->. pose proof (var_total_app_nonneg vs Hg). unfold var_total in *. lia.
  - pose proof (var_size_nonneg w Hw). specialize (IH i Hi). unfold var_total in *. lia.
Qed.

Lemma expr_bound_mono b b' e : b <= b' -> expr_bound b e <= expr_bound b' e.
Proof. intros Hb. destruct e as [? ? []| | | |]; cbn; lia. Qed.
Lemma row_bound_mono b b' exprs : b <= b' -> row_bound b exprs <= row_bound b' exprs.
Proof. intros Hb. induction exprs as [|e es IH]; cbn; [lia|]. pose proof (expr_bound_mono b b' e Hb). unfold row_bound in IH. lia. Qed.
Lemma tuple_of_mono s b b' t : b <= b' -> tuple_of s b t -> tuple_of s b' t.
Proof. intros Hb (cols & vs & ? & ? & ? & ? & ?). exists cols, vs. split_and!; (done || lia). Qed.

Lemma Evaluate_bound tuple s vs e v :
  reads tuple s vs -> Forall good_value vs -> well_typed (type_id_ <$> vs) e -> Evaluate e tuple s = Ok v ->
  var_size v <= expr_bound (var_total vs) e.
Proof.
  intros Hr Hg Hw He. pose proof (Evaluate_sound tuple s vs e Hr Hg Hw) as Hs. unfold sound in Hs. rewrite He in Hs.
  destruct Hs as [_ Ht]. destruct e as [k i ty|val|op e1 e2|op e1 e2|op e1 e2]; cbn [GetReturnType expr_bound] in *;
    try (rewrite var_size_inlined; [lia|congruence]).
  - destruct (decide (ty = VARCHAR)) as [->|Hn].
    + destruct Hw as [Hi Hty]. rewrite list_lookup_fmap in Hty. destruct (vs !! Z.to_nat i) as [w|] eqn:Ew; [|done].
      cbn in He. rewrite (Hr i w Hi Ew) in He. injection He as <-. by eapply var_total_lookup.
    + rewrite var_size_inlined by congruence. by destruct ty.
  - cbn in He. injection He as <-. lia.
Qed.

(** The values of a row of well-typed expressions. *)
Lemma row_values tuple s vs exprs :
  reads tuple s vs -> Forall good_value vs -> Forall (well_typed (type_id_ <$> vs)) exprs ->
  match rseq ((fun e => Evaluate e tuple s) <$> exprs) with
  | Ok ws => Forall good_value ws /\ type_id_ <$> ws = GetReturnType <$> exprs /\ var_total ws <= row_bound (var_total vs) exprs
  | Throw _ => existsb may_fail exprs = true
  end.
Proof.
  intros Hr Hg. induction 1 as [|e es He _ IH]; cbn; [done|].
  pose proof (Evaluate_sound tuple s vs e Hr Hg He) as Hs. pose proof (Evaluate_bound tuple s vs e) as Hb. unfold sound in Hs.
  destruct (Evaluate e tuple s) as [v|x]; [|by rewrite Hs]. specialize (Hb v Hr Hg He eq_refl). destruct Hs as [Hgv Ht].
  destruct (rseq _) as [ws|x]; cbn [rbind]; [|by rewrite IH, orb_true_r]. destruct IH as (Hgs & Hts & Hbs).
  split_and!; [by constructor|cbn; by f_equal|]. unfold var_total, row_bound in *. cbn. lia.
Qed.

Lemma values_fit cols vs :
  Forall good_value vs -> type_id_ <$> vs = column_type_ <$> cols -> Forall2 value_fits cols vs.
Proof.
  intros Hg. revert cols. induction Hg as [|v vs [Hw _] _ IH]; intros [|c cols] Ht; try done.
  cbn in Ht. injection Ht as Ht Hts. constructor; [by split|]. by apply IH.
Qed.

Lemma tuple_made out b vs :
  schema_ok out b -> Forall good_value vs -> type_id_ <$> vs = schema_types out -> var_total vs <= b ->
  exists t, Tuple_ctor vs out = Ok t /\ tuple_of out b t.
Proof.
  intros (cols & -> & Hok & Hb & Hn) Hg Ht Hv. rewrite wf_schema_types in Ht by (done || lia).
  assert (Htv : tuple_values cols vs) by (split_and!; [done|by apply values_fit|lia]).
  destruct (tuple_ctor_ok cols vs Htv) as (t & Ht' & _). exists t. split; [done|]. exists cols, vs. by split_and!.
Qed.

Lemma make_row_ok out b exprs tuple s vs :
  reads tuple s vs -> Forall good_value vs -> Forall (well_typed (type_id_ <$> vs)) exprs ->
  GetReturnType <$> exprs = schema_types out -> schema_ok out b -> row_bound (var_total vs) exprs <= b ->
  row_ok out b (existsb may_fail exprs) (make_row out exprs tuple s).
Proof.
  intros Hr Hg Hw Ht Ho Hb. pose proof (row_values tuple s vs exprs Hr Hg Hw) as Hv. unfold make_row.
  destruct (rseq _) as [ws|x]; cbn [rbind]; [|done]. destruct Hv as (Hgw & Htw & Hbw).
  destruct (tuple_made out b ws) as (t & -> & Htt); [done|done|congruence|lia|done].
Qed.

(** What a tuple of a schema holds. *)
Lemma tuple_of_reads s b t :
  tuple_of s b t -> exists vs, reads (Some t) s vs /\ Forall good_value vs /\ type_id_ <$> vs = schema_types s /\
    var_total vs <= b /\ Tuple_ctor vs s = Ok t.
Proof.
  intros (cols & vs & -> & Htv & Hg & Hb & Hc). exists vs. destruct (ctor_reads cols vs Htv) as (t' & Ht' & Hr).
  pose proof (values_types cols vs Htv) as Hty. destruct Htv as (Hok & Hf & Hn). pose proof (var_total_app_nonneg vs Hg).
  rewrite wf_schema_types by (done || lia). rewrite Hc in Ht'. injection Ht' as ->. by split_and!.
Qed.

Lemma tuple_of_same s s' b t : schema_ok s' b -> same_schema s s' -> tuple_of s b t -> tuple_of s' b t.
Proof.
  intros Hok Hs Ht. destruct (tuple_of_reads s b t Ht) as (vs & _ & Hg & Hty & Hb & Hc).
  rewrite (same_schema_types _ _ Hs) in Hty. destruct (tuple_made s' b vs Hok Hg Hty Hb) as (t' & Hc' & Ht').
  rewrite (Tuple_ctor_same s s' vs Hs) in Hc. congruence.
Qed.

Lemma passes_ok predicate t s b :
  tuple_of s b t -> well_typed (schema_types s) predicate -> GetReturnType predicate = BOOLEAN ->
  match passes predicate t s with Ok _ => True | Throw _ => may_fail predicate = true end.
Proof.
  intros Ht Hw Hb. destruct (tuple_of_reads s b t Ht) as (vs & Hr & Hg & Hty & _). rewrite <- Hty in Hw.
  pose proof (Evaluate_sound (Some t) s vs predicate Hr Hg Hw) as Hs. unfold sound in Hs. unfold passes.
  destruct (Evaluate predicate (Some t) s) as [v|x]; cbn [rbind]; [|done]. destruct Hs as [Hgv Hvt].
  destruct (good_bool v Hgv ltac:(congruence)) as (c & Hc). unfold GetBoolAsCmpBool in Hc.
  destruct (IsNull v); [done|]. by destruct (GetAs_bool v).
Qed.

(** ** The mock tables are well typed *)

Definition good_result (spec : TypeId * Z) (r : result Value) : Prop :=
  exists v, r = Ok v /\ good_value v /\ type_id_ v = spec.1 /\ var_size v <= spec.2.
Definition good_results (types : list TypeId) (b : Z) (rs : list (result Value)) : Prop :=
  exists vs, rs = Ok <$> vs /\ Forall good_value vs /\ type_id_ <$> vs = types /\ var_total vs <= b.

Lemma good_results_specs specs rs b :
  Forall2 good_result specs rs -> foldr (fun spec n => spec.2 + n) 0 specs <= b -> good_results specs.*1 b rs.
Proof.
  intros Hf. revert b. induction Hf as [|[t n] r specs rs (v & -> & Hg & Ht & Hn) _ IH]; intros b Hb; cbn in Hb.
  - exists []. by split_and!.
  - destruct (IH (b - n)) as (vs & -> & Hgs & Hts & Hbs); [cbn; lia|]. exists (v :: vs). cbn in *. unfold var_total in *.
    split_and!; [done|by constructor|by f_equal|cbn; lia].
Qed.

(** A VARCHAR takes at most 100 bytes in every mock table. *)
Definition spec_of (t : TypeId) : TypeId * Z := (t, if TypeId_eqb t VARCHAR then 100 else 0).

Lemma good_int z : good_result (INTEGER, 0) (GetIntegerValue z).
Proof. destruct (integer_good z) as (v & -> & Hg & Ht). exists v. split_and!; [done|done|done|]. by rewrite var_size_inlined by congruence. Qed.
Lemma good_null : good_result (INTEGER, 0) (GetNullValueByType INTEGER).
Proof. destruct null_integer_good as (v & -> & Hg & Ht). exists v. split_and!; [done|done|done|]. by rewrite var_size_inlined by congruence. Qed.
Lemma good_varchar s : zlen s <= 95 -> good_result (VARCHAR, 100) (GetVarcharValue s).
Proof.
  intros Hs. exists (VString s). unfold GetVarcharValue. assert (0 <= zlen s) by (unfold zlen; lia).
  assert (Hl : zlen (s ++ [0]) = zlen s + 1) by (unfold zlen; rewrite length_app; cbn; lia).
  rewrite Value_string_ok by (unfold short, BUSTUB_VALUE_NULL; lia). split_and!; [done| |done|].
  - split; [|done]. unfold wf_value. cbn. unfold BUSTUB_VALUE_NULL. lia.
  - cbn. destruct (IsNull _); lia.
Qed.

Lemma to_string_len z k : 0 <= z < 2 ^ k -> 0 <= k -> zlen (to_string z) <= k + 1.
Proof.
  intros Hz Hk. unfold to_string. destruct (Z.ltb_spec z 0); [lia|]. unfold dec_string, zlen.
  pose proof (length_dec_digits (S (Z.to_nat (Z.log2 z))) z []) as Hl. cbn [length] in Hl.
  assert (Z.log2 z <= k); [|lia]. destruct (decide (z = 0)) as [->|]; [cbn; lia|].
  apply Z.lt_le_incl, Z.log2_lt_pow2; lia.
Qed.
Lemma zlen_app {A} (l k : list A) : zlen (l ++ k) = zlen l + zlen k.
Proof. unfold zlen. rewrite length_app. lia. Qed.
Lemma Repeat_len s n : zlen (Repeat s n) = zlen s * Z.of_nat n.
Proof. unfold Repeat. induction n as [|n IH]; cbn [replicate concat]; [rewrite Z.mul_0_r; done|]. rewrite zlen_app, IH. lia. Qed.
Lemma array_at_ok {A} (P : A -> Prop) l i : Forall P l -> 0 <= i < zlen l -> exists a, array_at l i = Ok a /\ P a.
Proof.
  intros Hf Hi. unfold array_at. destruct (lookup_lt_is_Some_2 l (Z.to_nat i)) as [a Ha]; [unfold zlen in Hi; lia|].
  rewrite Ha. exists a. split; [done|]. by eapply Forall_lookup_1.
Qed.

(** The test on the table's name that is known to succeed or fail. *)
Ltac decide_names := repeat match goal with
  | |- context [named ?a ?b] => let r := eval vm_compute in (named a b) in change (named a b) with r
  end.
Lemma good_at l i : Forall (fun s => zlen s <= 95) l -> 0 <= i < zlen l ->
  good_result (VARCHAR, 100) (let! s := array_at l i in GetVarcharValue s).
Proof. intros Hl Hi. destruct (array_at_ok _ l i Hl Hi) as (s & -> & Hs). by apply good_varchar. Qed.
Lemma format_03_len z : 0 <= z < 100 -> zlen (format_03 z) <= 95.
Proof. intros Hz. unfold format_03. rewrite zlen_app. pose proof (to_string_len z 7 ltac:(lia) ltac:(lia)). unfold zlen at 1. rewrite length_replicate. lia. Qed.

(** One column of a mock table's row. *)
Ltac mock_column := first
  [ apply good_int
  | apply good_null
  | case_match; [mock_column|mock_column]
  | apply good_at; [apply (bool_decide_unpack _); vm_compute; done|done]
  | let b := fresh in match goal with |- good_result _ (let! b := array_at ?l ?i in _) =>
      destruct (array_at_ok (fun _ => True) l i) as (b & -> & _); [by apply Forall_true|done|apply good_int] end
  | cbn [rbind]; apply good_varchar; first
      [ apply format_03_len; unfold GRAPH_NODE_CNT; Z.to_euclidean_division_equations; lia
      | rewrite Repeat_len; change (zlen poop) with 4 || change (zlen innocent) with 4; Z.to_euclidean_division_equations; lia
      | match goal with |- context [to_string ?c] => pose proof (to_string_len c 7) end; rewrite !zlen_app;
        change (zlen poop) with 4; change (zlen (str "-")) with 1; lia ] ].

Lemma mock_values_ok out table ms cursor :
  GetMockTableSchemaOf table = Ok ms -> schema_types out = schema_types ms -> 0 <= cursor < GetSizeOf table ->
  good_results (schema_types out) 300 (mock_values out table cursor).
Proof.
  intros Hms -> Hc. unfold GetMockTableSchemaOf in Hms.
  assert (Hn : forall name, named table name = true -> table = str name) by (intros name H; by apply bool_decide_eq_true in H).
  repeat (match type of Hms with (if ?b then _ else _) = _ => destruct b eqn:E end;
    [ rewrite ?orb_true_iff in E; repeat (destruct E as [E|E]); apply Hn in E; subst table; injection Hms as <-;
      match type of Hc with context [GetSizeOf ?t] => let n := eval vm_compute in (GetSizeOf t) in change (GetSizeOf t) with n in Hc end;
      unfold mock_values, leaderboard_values; decide_names; cbv beta zeta iota
    | clear E ]); [..|done].
  all: match goal with |- good_results ?ty _ _ => let t := eval vm_compute in ty in change ty with t;
      let specs := eval vm_compute in (spec_of <$> t) in
      change t with (specs.*1); apply good_results_specs; [|vm_compute; congruence] end.
  all: repeat (apply Forall2_cons; split); [..|by apply Forall2_nil]. all: mock_column.
Qed.

Section typing.
Context (shuffle : list Z -> list Z) (shuffle_perm : forall l, shuffle l ≡ₚ l).

Lemma no_varchar_total vs types :
  type_id_ <$> vs = types -> existsb (TypeId_eqb VARCHAR) types = false -> var_total vs = 0.
Proof.
  intros <-. induction vs as [|v vs IH]; cbn; [done|]. intros [Hv Hvs]%orb_false_iff. rewrite var_size_inlined.
  - unfold var_total in IH. by rewrite IH.
  - intros Ht. by rewrite Ht in Hv.
Qed.

Lemma mock_row_ok out table ms cursor :
  schema_ok out (mock_bound out) -> GetMockTableSchemaOf table = Ok ms -> schema_types out = schema_types ms ->
  0 <= cursor < GetSizeOf table -> row_ok out (mock_bound out) false (GetFunctionOf out table cursor).
Proof.
  intros Ho Hms Ht Hc. destruct (mock_values_ok out table ms cursor Hms Ht Hc) as (vs & Hvs & Hg & Hty & Hb).
  unfold GetFunctionOf. rewrite Hvs, (proj2 (rseq_Ok _ _) eq_refl). cbn [rbind].
  assert (Hmb : var_total vs <= mock_bound out).
  { unfold mock_bound, has_varchar. destruct (existsb _ _) eqn:E; [done|]. by rewrite (no_varchar_total vs _ Hty E). }
  destruct (tuple_made out (mock_bound out) vs) as (t & -> & Hto); done.
Qed.

Lemma mock_rows_ok out table ms :
  schema_ok out (mock_bound out) -> GetMockTableSchemaOf table = Ok ms -> schema_types out = schema_types ms ->
  Forall (row_ok out (mock_bound out) false) (mock_rows shuffle out table).
Proof.
  intros Ho Hms Ht. unfold mock_rows. apply Forall_fmap, Forall_forall. intros i Hi. eapply mock_row_ok; [done..|].
  destruct (GetShuffled table).
  - rewrite shuffle_perm in Hi. apply elem_of_seqZ in Hi. lia.
  - apply elem_of_seqZ in Hi. lia.
Qed.

Lemma values_bound rows row : row ∈ rows -> row_bound 0 row <= foldr (fun row n => row_bound 0 row `max` n) 0 rows.
Proof. induction 1 as [|row row' rows _ IH]; cbn; lia. Qed.

Lemma row_ok_weaken s b f f' r : (f = true -> f' = true) -> row_ok s b f r -> row_ok s b f' r.
Proof. destruct r; cbn; auto. Qed.

Lemma reads_none : reads None (Schema_ctor []) [].
Proof. intros i v _ H. done. Qed.

Lemma values_rows_ok out rows :
  schema_ok out (plan_bound (PlanNode out [] (ValuesPlanNode rows))) -> node_typed out [] (ValuesPlanNode rows) ->
  Forall (row_ok out (plan_bound (PlanNode out [] (ValuesPlanNode rows))) (existsb (existsb may_fail) rows))
    ((fun row => make_row out row None (Schema_ctor [])) <$> rows).
Proof.
  intros Ho Hn. apply Forall_fmap, Forall_forall. intros row Hrow. cbn [node_typed plan_bound] in *.
  rewrite Forall_forall in Hn. destruct (Hn row Hrow) as [Hw Ht].
  apply (row_ok_weaken _ _ (existsb may_fail row)).
  - intros Hf. apply existsb_exists. exists row. split; [by apply list_elem_of_In|done].
  - apply (make_row_ok _ _ _ _ _ []); [apply reads_none|done|done|done|done|]. by apply values_bound.
Qed.

Lemma filter_row_ok out s b f predicate r :
  schema_ok out b -> same_schema s out -> well_typed (schema_types s) predicate -> GetReturnType predicate = BOOLEAN ->
  row_ok s b f r -> Forall (row_ok out b (may_fail predicate || f)) (filter_row predicate s r).
Proof.
  intros Ho Hs Hw Hb Hr. unfold filter_row. destruct r as [t|x]; cbn [rbind] in *.
  - pose proof (passes_ok predicate t s b Hr Hw Hb) as Hp. destruct (passes predicate t s) as [[]|x]; cbn [rbind];
      repeat constructor; cbn; [by eapply tuple_of_same|by rewrite Hp].
  - repeat constructor. cbn in *. by rewrite Hr, orb_true_r.
Qed.

Lemma project_row_ok out s b f exprs r :
  schema_ok out (row_bound b exprs) -> Forall (well_typed (schema_types s)) exprs ->
  GetReturnType <$> exprs = schema_types out -> row_ok s b f r ->
  row_ok out (row_bound b exprs) (existsb may_fail exprs || f) (project_row out exprs s r).
Proof.
  intros Ho Hw Ht Hr. unfold project_row. destruct r as [t|x]; cbn [rbind].
  - destruct (tuple_of_reads s b t Hr) as (vs & Hrd & Hg & Hty & Hb & _). rewrite <- Hty in Hw.
    apply (row_ok_weaken _ _ (existsb may_fail exprs)); [by intros ->|].
    apply (make_row_ok _ _ _ _ _ vs); try done. by apply row_bound_mono.
  - cbn in *. by rewrite Hr, orb_true_r.
Qed.

Lemma typed_children cs : foldr (fun c P => plan_typed c /\ P) True cs <-> Forall plan_typed cs.
Proof. induction cs as [|c cs IH]; cbn; [naive_solver|]. rewrite IH, Forall_cons. done. Qed.

Lemma plan_typed_ok p : plan_typed p -> schema_ok (OutputSchema p) (plan_bound p).
Proof. destruct p as [out cs kind]. by intros [H _]. Qed.

Lemma plan_rows_ok p :
  plan_typed p -> Forall (row_ok (OutputSchema p) (plan_bound p) (plan_may_fail p)) (plan_rows shuffle p).
Proof.
  induction p as [out cs kind IH] using plan_ind. cbn [plan_typed]. intros (Ho & Hn & Hcs%typed_children).
  destruct kind; try (by constructor).
  - destruct cs as [|c [|]]; try (by constructor). apply Forall_cons in Hcs as [Hc _]. apply Forall_cons in IH as [IH _].
    specialize (IH Hc). destruct Hn as (Hw & Hb & Ht). cbn [plan_rows OutputSchema plan_bound plan_may_fail existsb] in *.
    rewrite orb_false_r. apply Forall_concat, Forall_fmap. eapply Forall_impl; [exact IH|]. intros r Hr.
    apply filter_row_ok; try done. apply plan_typed_ok in Hc. by eapply schema_ok_same.
  - destruct cs; [by apply values_rows_ok|done].
  - destruct cs as [|c [|]]; try (by constructor). apply Forall_cons in Hcs as [Hc _]. apply Forall_cons in IH as [IH _].
    specialize (IH Hc). destruct Hn as [Hw Ht]. cbn [plan_rows OutputSchema plan_bound plan_may_fail existsb] in *.
    rewrite orb_false_r. apply Forall_fmap. eapply Forall_impl; [exact IH|]. intros r Hr. by apply project_row_ok.
  - destruct cs; [|done]. destruct Hn as (ms & Hms & Ht). by eapply mock_rows_ok.
Qed.

Lemma node_typed_arity out cs kind : node_typed out cs kind -> length cs = arity kind.
Proof. destruct kind, cs as [|c [|]]; cbn; try done; try congruence. Qed.

Lemma typed_shaped p : plan_typed p -> shaped p = true.
Proof.
  induction p as [out cs kind IH] using plan_ind. cbn [plan_typed shaped]. intros (_ & Hn & Hcs%typed_children).
  rewrite (node_typed_arity _ _ _ Hn), Nat.eqb_refl. apply forallb_forall. intros c Hc%list_elem_of_In.
  rewrite Forall_forall in IH, Hcs. auto.
Qed.

Lemma collect_ok P rows rs :
  Forall P rs -> Forall (fun r => match r with Ok t => P t | Throw _ => True end) rows ->
  forall b ts, collect rows rs = Ok (b, ts) -> Forall P ts.
Proof.
  intros Hrs Hf. revert rs Hrs. induction Hf as [|[t|x] rows Hr _ IH]; intros rs Hrs b ts; cbn.
  - by intros [= _ <-].
  - apply IH. apply Forall_app. by split; [|constructor].
  - destruct (is_Exception x); [by intros [= _ <-]|done].
Qed.

Lemma collect_all ts rs : collect (Ok <$> ts) rs = Ok (true, rs ++ ts).
Proof. revert rs. induction ts as [|t ts IH]; intros rs; cbn; [by rewrite app_nil_r|]. by rewrite IH, <- app_assoc. Qed.

Lemma rows_all_ok s b rows : Forall (row_ok s b false) rows -> exists ts, rows = Ok <$> ts.
Proof.
  induction 1 as [|[t|x] rows Hr _ (ts & ->)]; [by exists []|by exists (t :: ts)|done].
Qed.

(** ** Properties *)

(** C22: type safety of query execution. Every row the engine puts into the result set
    of a well-typed plan is a tuple of the plan's output schema that holds well-formed
    values of the columns' types. If no expression of the plan can fail (no
    arithmetic, no comparison of VARCHARs), execution raises no exception, runs
    into no undefined behaviour, and delivers every row of the list semantics. *)
Theorem Execute_type_sound (plan : AbstractPlanNode) (fuel : nat) :
  plan_typed plan -> executable plan = true -> (plan_calls plan < fuel)%nat ->
  (forall b rows, Execute shuffle fuel plan [] = Some (Ok (b, rows)) ->
    Forall (tuple_of (OutputSchema plan) (plan_bound plan)) rows) /\
  (plan_may_fail plan = false -> exists rows,
    plan_rows shuffle plan = Ok <$> rows /\ Execute shuffle fuel plan [] = Some (Ok (true, rows))).
Proof.
  intros Ht He Hf. pose proof (plan_rows_ok plan Ht) as Hr.
  rewrite (execute_rows shuffle shuffle_perm), He by (done || by apply typed_shaped). split.
  - intros b rows [= Hc]. revert Hc. apply collect_ok; [done|]. eapply Forall_impl; [exact Hr|]. by intros [].
  - intros Hm. rewrite Hm in Hr. destruct (rows_all_ok _ _ _ Hr) as (ts & Hts). exists ts. by rewrite Hts, collect_all.
Qed.

End typing.

(** ** Example *)

(** [SELECT number FROM __mock_table_123 WHERE number > 1] *)
Definition number_column : Column := mkColumn (str "number") INTEGER 4 0 0.
Definition demo_plan : AbstractPlanNode :=
  let s := Schema_ctor [number_column] in
  let col := ColumnValueExpression 0 0 INTEGER in
  PlanNode s
    [PlanNode s [PlanNode s [] (MockScanPlanNode (str "__mock_table_123"))]
      (FilterPlanNode (ComparisonExpression GreaterThan col (ConstantValueExpression (VInt INTEGER 1))))]
    (ProjectionPlanNode [col]).

Lemma demo_schema_ok b : 0 <= b < 2 ^ 31 - 4 -> schema_ok (Schema_ctor [number_column]) b.
Proof. intros Hb. exists [number_column]. split_and!; [done|by repeat constructor|lia|cbn; lia]. Qed.

Lemma demo_plan_typed : plan_typed demo_plan.
Proof.
  cbn [plan_typed demo_plan foldr]. split_and!; try done; try (apply demo_schema_ok; vm_compute; split; congruence).
  - split; [|done]. by repeat constructor.
  - eexists. split; [vm_compute; reflexivity|done].
Qed.

Lemma Execute_type_sound_witness : exists rows, Execute id 100 demo_plan [] = Some (Ok (true, rows)) /\ length rows = 2%nat.
Proof.
  destruct (Execute_type_sound id (fun l => Permutation_refl l) demo_plan 100 demo_plan_typed eq_refl) as [_ Hs].
  - vm_compute. lia.
  - destruct (Hs eq_refl) as (rows & Hr & He). exists rows. split; [exact He|].
    apply (f_equal length) in Hr. rewrite length_fmap in Hr. rewrite <- Hr. vm_compute. reflexivity.
Defined.

Lemma Execute_correct_witness :
  Execute id 100 demo_plan [] = Some (collect (plan_rows id demo_plan) []) /\ collect (plan_rows id demo_plan) [] <> Ok (true, []).
Proof.
  split; [|vm_compute; congruence].
  rewrite (Execute_correct id (fun l => Permutation_refl l) demo_plan 100 []); [reflexivity|reflexivity|vm_compute; lia].
Defined.

(** A query that fails in its second row: [VALUES (1 = '1'), (1 = '99999999999'), (1 = '1')].
    [Execute] reports success with the first row. *)
Definition compare_with (s : list Z) : AbstractExpression :=
  ComparisonExpression Equal (ConstantValueExpression (VInt INTEGER 1)) (ConstantValueExpression (VString s)).
Lemma Execute_swallows_exception :
  Execute id 100 (PlanNode (Schema_ctor [mkColumn (str "b") BOOLEAN 1 0 0]) []
    (ValuesPlanNode [[compare_with (str "1")]; [compare_with (str "99999999999")]; [compare_with (str "1")]])) [] =
  Some (Ok (true, [[1]])).
Proof. vm_compute. reflexivity. Qed.
