(* ===== verification/Optimizer.v ===== *)
(** * The optimizer

    The rewrite rules of src/optimizer/. Each rule rewrites the children of a node
    first, clones the node with the new children and then looks at the result
    ([bottom_up]). [BUSTUB_ENSURE] throws [std::logic_error]. The catalog is only
    read; the order in which it lists the indexes of a table is a parameter.

    Proved: rewriting a filter predicate for a join keeps its value on every pair of
    rows, and optimizing a plan keeps its output schema and what its execution
    returns, where executors of joins, sorts and table scans only throw. OptimizerSem.v gives those
    nodes their meaning. *)

From Stdlib Require Import String.
From S2P Require Import Prelude.
From S2P Require Import CStd.
From S2P Require Import StringUtil.
From S2P Require Import Value.
From S2P Require Import Types.
From S2P Require Import ValueFactory.
From S2P Require Import Tuple.
From S2P Require Import Index.
From S2P Require Import Catalog.
From S2P Require Import Expressions.
From S2P Require Import Plans.
From S2P Require Import MockScan.
From S2P Require Import Executors.
From S2P Require Import PlanTyping.
Local Open Scope Z_scope.
Local Open Scope bustub_scope.

(** [BUSTUB_ENSURE] *)
Definition ensure {A} (b : bool) (k : result A) : result A := if b then k else Throw LogicError.
Notation "'ensure!' b ; k" := (ensure b k) (at level 10, b at level 100, k at level 200) : bustub_scope.

(** ** Expressions *)

Fixpoint RewriteExpressionForJoin (expr : AbstractExpression) (left_column_cnt right_column_cnt : Z)
    : result AbstractExpression :=
  let rewrite e := RewriteExpressionForJoin e left_column_cnt right_column_cnt in
  match expr with
  | ColumnValueExpression tuple_idx col_idx ret_type =>
      ensure! tuple_idx =? 0;
      if col_idx <? left_column_cnt then Ok (ColumnValueExpression 0 col_idx ret_type)
      else if (left_column_cnt <=? col_idx) && (col_idx <? left_column_cnt + right_column_cnt) then
        Ok (ColumnValueExpression 1 (col_idx - left_column_cnt) ret_type)
      else Throw EMessage
  | ConstantValueExpression _ => Ok expr
  | ArithmeticExpression op e1 e2 => let! e1 := rewrite e1 in let! e2 := rewrite e2 in Ok (ArithmeticExpression op e1 e2)
  | ComparisonExpression op e1 e2 => let! e1 := rewrite e1 in let! e2 := rewrite e2 in Ok (ComparisonExpression op e1 e2)
  | LogicExpression op e1 e2 => let! e1 := rewrite e1 in let! e2 := rewrite e2 in Ok (LogicExpression op e1 e2)
  end.

Definition IsPredicateTrue (expr : AbstractExpression) : result bool :=
  match expr with
  | ConstantValueExpression val => let! b := Value_CastAs val BOOLEAN in GetAs_bool b
  | _ => Ok false
  end.

(** ** Rules *)

(** The children of a plan first, then the node itself. *)
Fixpoint bottom_up (step : AbstractPlanNode -> result AbstractPlanNode) (plan : AbstractPlanNode) : result AbstractPlanNode :=
  let '(PlanNode _ cs _) := plan in
  let! children := rseq (List.map (bottom_up step) cs) in step (Plan_CloneWithChildren plan children).

(** Are the expressions the columns [i], [i + 1], ... of the child? *)
Fixpoint is_identical (i : Z) (exprs : list AbstractExpression) : bool :=
  match exprs with
  | [] => true
  | ColumnValueExpression tuple_idx col_idx _ :: exprs => (tuple_idx =? 0) && (col_idx =? i) && is_identical (i + 1) exprs
  | _ :: _ => false
  end.

Definition merge_projection (plan : AbstractPlanNode) : result AbstractPlanNode :=
  let '(PlanNode out cs kind) := plan in
  match kind with
  | ProjectionPlanNode exprs =>
      match cs with
      | [child] =>
          if bool_decide (schema_types (OutputSchema child) = schema_types out) && is_identical 0 exprs
          then Ok (PlanNode out (Plan_GetChildren child) (plan_kind child))
          else Ok plan
      | _ => Throw LogicError
      end
  | _ => Ok plan
  end.
Definition OptimizeMergeProjection : AbstractPlanNode -> result AbstractPlanNode := bottom_up merge_projection.

Definition column_count (plan : AbstractPlanNode) : Z := zlen (columns_ (OutputSchema plan)).

Definition merge_filter_nlj (plan : AbstractPlanNode) : result AbstractPlanNode :=
  let '(PlanNode out cs kind) := plan in
  match kind with
  | FilterPlanNode predicate =>
      match cs with
      | [PlanNode _ ncs (NestedLoopJoinPlanNode join_predicate join_type)] =>
          match ncs with
          | [l; r] =>
              let! b := IsPredicateTrue join_predicate in
              if b : bool then
                let! predicate := RewriteExpressionForJoin predicate (column_count l) (column_count r) in
                Ok (PlanNode out [l; r] (NestedLoopJoinPlanNode predicate join_type))
              else Ok plan
          | _ => Throw LogicError
          end
      | [_] => Ok plan
      | _ => Throw LogicError
      end
  | _ => Ok plan
  end.
Definition OptimizeMergeFilterNLJ : AbstractPlanNode -> result AbstractPlanNode := bottom_up merge_filter_nlj.

Definition eliminate_true_filter (plan : AbstractPlanNode) : result AbstractPlanNode :=
  let '(PlanNode out cs kind) := plan in
  match kind with
  | FilterPlanNode predicate =>
      let! b := IsPredicateTrue predicate in
      if b : bool then match cs with [c] => Ok c | _ => Throw AssertFailed end else Ok plan
  | _ => Ok plan
  end.
Definition OptimizeEliminateTrueFilter : AbstractPlanNode -> result AbstractPlanNode := bottom_up eliminate_true_filter.

Definition merge_filter_scan (plan : AbstractPlanNode) : result AbstractPlanNode :=
  let '(PlanNode out cs kind) := plan in
  match kind with
  | FilterPlanNode predicate =>
      match cs with
      | [PlanNode _ _ (SeqScanPlanNode table_oid table_name None)] =>
          Ok (PlanNode out [] (SeqScanPlanNode table_oid table_name (Some predicate)))
      | [_] => Ok plan
      | _ => Throw AssertFailed
      end
  | _ => Ok plan
  end.
Definition OptimizeMergeFilterScan : AbstractPlanNode -> result AbstractPlanNode := bottom_up merge_filter_scan.

(** An equality of two columns: their tuple indices, and the columns themselves as
    columns of tuple 0. *)
Definition column_equality (predicate : AbstractExpression) : option (Z * Z * AbstractExpression * (Z * Z * AbstractExpression)) :=
  match predicate with
  | ComparisonExpression Equal (ColumnValueExpression k1 i1 t1) (ColumnValueExpression k2 i2 t2) =>
      Some (k1, i1, ColumnValueExpression 0 i1 t1, (k2, i2, ColumnValueExpression 0 i2 t2))
  | _ => None
  end.

Definition nlj_as_hash_join (plan : AbstractPlanNode) : result AbstractPlanNode :=
  let '(PlanNode out cs kind) := plan in
  match kind with
  | NestedLoopJoinPlanNode predicate join_type =>
      match cs with
      | [l; r] =>
          match column_equality predicate with
          | Some (left_idx, _, left_expr, (right_idx, _, right_expr)) =>
              if (left_idx =? 0) && (right_idx =? 1) then Ok (PlanNode out [l; r] (HashJoinPlanNode left_expr right_expr join_type))
              else if (left_idx =? 1) && (right_idx =? 0) then
                Ok (PlanNode out [l; r] (HashJoinPlanNode right_expr left_expr join_type))
              else Ok plan
          | None => Ok plan
          end
      | _ => Throw LogicError
      end
  | _ => Ok plan
  end.
Definition OptimizeNLJAsHashJoin : AbstractPlanNode -> result AbstractPlanNode := bottom_up nlj_as_hash_join.

Definition OptimizeSortLimitAsTopN (plan : AbstractPlanNode) : result AbstractPlanNode := Ok plan.

Section catalog_rules.
Context (iteration : gmap (list Z) Z -> list (list Z * Z)) (catalog_ : Catalog).

Definition MatchIndex (table_name : list Z) (index_key_idx : Z) : result (option (Z * list Z)) :=
  let! indexes := GetTableIndexes iteration catalog_ table_name in
  Ok (match list_find (fun ii => key_attrs_ (metadata_ (ii_index_ ii)) = [index_key_idx]) indexes with
      | Some (_, ii) => Some (ii_index_oid_ ii, ii_name_ ii)
      | None => None
      end).

Definition nlj_as_index_join (plan : AbstractPlanNode) : result AbstractPlanNode :=
  let '(PlanNode out cs kind) := plan in
  match kind with
  | NestedLoopJoinPlanNode predicate join_type =>
      match cs with
      | [l; PlanNode rout _ rkind] =>
          match column_equality predicate, rkind with
          | Some (left_idx, left_col, left_expr, (right_idx, right_col, right_expr)), SeqScanPlanNode table_oid table_name _ =>
              let index_join key_col key_expr (otherwise : result AbstractPlanNode) :=
                let! index := MatchIndex table_name key_col in
                match index with
                | Some (index_oid, index_name) =>
                    Ok (PlanNode out [l]
                          (NestedIndexJoinPlanNode key_expr table_oid index_oid index_name table_name rout join_type))
                | None => otherwise
                end in
              let second := if (left_idx =? 1) && (right_idx =? 0) then index_join left_col right_expr (Ok plan) else Ok plan in
              if (left_idx =? 0) && (right_idx =? 1) then index_join right_col left_expr second else second
          | _, _ => Ok plan
          end
      | _ => Throw LogicError
      end
  | _ => Ok plan
  end.
Definition OptimizeNLJAsIndexJoin : AbstractPlanNode -> result AbstractPlanNode := bottom_up nlj_as_index_join.

(** The first index on the column alone. *)
Fixpoint find_order_index (table_info : TableInfo) (column_id : Z) (indices : list IndexInfo) : result (option Z) :=
  match indices with
  | [] => Ok None
  | ii :: indices =>
      match columns_ (ii_key_schema_ ii) with
      | [col] =>
          let! c := GetColumn (ti_schema_ table_info) column_id in
          if bool_decide (column_name_ col = column_name_ c) then Ok (Some (ii_index_oid_ ii))
          else find_order_index table_info column_id indices
      | _ => find_order_index table_info column_id indices
      end
  end.

Definition order_by_index_scan (plan : AbstractPlanNode) : result AbstractPlanNode :=
  let '(PlanNode out cs kind) := plan in
  match kind with
  | SortPlanNode [(order_type, ColumnValueExpression _ order_by_column_id _)] =>
      if bool_decide (order_type = ASC) || bool_decide (order_type = DEFAULT) then
        match cs with
        | [PlanNode _ _ (SeqScanPlanNode table_oid _ _)] =>
            match GetTable catalog_ table_oid with
            | None => Throw Undefined
            | Some table_info =>
                let! indices := GetTableIndexes iteration catalog_ (ti_name_ table_info) in
                let! found := find_order_index table_info order_by_column_id indices in
                match found with
                | Some index_oid => Ok (PlanNode out [] (IndexScanPlanNode index_oid))
                | None => Ok plan
                end
            end
        | [_] => Ok plan
        | _ => Throw LogicError
        end
      else Ok plan
  | _ => Ok plan
  end.
Definition OptimizeOrderByAsIndexScan : AbstractPlanNode -> result AbstractPlanNode := bottom_up order_by_index_scan.

Definition OptimizeCustom (plan : AbstractPlanNode) : result AbstractPlanNode :=
  let! p := OptimizeMergeProjection plan in
  let! p := OptimizeMergeFilterNLJ p in
  let! p := OptimizeNLJAsIndexJoin p in
  let! p := OptimizeOrderByAsIndexScan p in
  OptimizeSortLimitAsTopN p.

Definition Optimize (force_starter_rule_ : bool) (plan : AbstractPlanNode) : result AbstractPlanNode :=
  if force_starter_rule_ then
    let! p := OptimizeMergeProjection plan in
    let! p := OptimizeMergeFilterNLJ p in
    let! p := OptimizeNLJAsIndexJoin p in
    let! p := OptimizeOrderByAsIndexScan p in
    OptimizeSortLimitAsTopN p
  else OptimizeCustom plan.
End catalog_rules.

Definition EstimatedCardinality (table_name : list Z) : option Z :=
  if EndsWith table_name (str "_1m") then Some 1000000
  else if EndsWith table_name (str "_100k") then Some 100000
  else if EndsWith table_name (str "_50k") then Some 50000
  else if EndsWith table_name (str "_10k") then Some 10000
  else if EndsWith table_name (str "_1k") then Some 1000
  else if EndsWith table_name (str "_100") then Some 100
  else None.

(** ** Rewriting for joins *)

(** The expressions a filter has: all columns are those of tuple 0. *)
Fixpoint single_tuple (e : AbstractExpression) : bool :=
  match e with
  | ColumnValueExpression k _ _ => k =? 0
  | ConstantValueExpression _ => true
  | ArithmeticExpression _ e1 e2 | ComparisonExpression _ e1 e2 | LogicExpression _ e1 e2 => single_tuple e1 && single_tuple e2
  end.

(** The rewritten expression, and its value on a pair of rows. *)
Definition rewritten (tl tr t : option Tuple) (sl sr s : Schema) (e : AbstractExpression) (r : result AbstractExpression) : Prop :=
  exists e', r = Ok e' /\ GetReturnType e' = GetReturnType e /\ EvaluateJoin e' tl sl tr sr = Evaluate e t s.

Lemma RewriteExpressionForJoin_spec tl tr t sl sr s (lvs rvs : list Value) e :
  reads tl sl lvs -> reads tr sr rvs -> reads t s (lvs ++ rvs) ->
  well_typed (type_id_ <$> lvs ++ rvs) e -> single_tuple e = true ->
  rewritten tl tr t sl sr s e (RewriteExpressionForJoin e (zlen lvs) (zlen rvs)).
Proof.
  intros Hl Hr Ht. induction e as [k i ty|val|op e1 IH1 e2 IH2|op e1 IH1 e2 IH2|op e1 IH1 e2 IH2];
    cbn [well_typed single_tuple RewriteExpressionForJoin].
  3-5: intros (W1 & W2 & _) [S1 S2]%andb_true_iff; destruct (IH1 W1 S1) as (a & -> & _ & E1), (IH2 W2 S2) as (b & -> & _ & E2);
    cbn [rbind]; eexists; (split_and!; [done|done|]); cbn [EvaluateJoin Evaluate]; by rewrite E1, E2.
  - intros [Hi Hty] Hk. rewrite Hk. cbn [ensure]. rewrite list_lookup_fmap in Hty.
    destruct ((lvs ++ rvs) !! Z.to_nat i) as [v|] eqn:Ev; [|done]. pose proof (lookup_lt_Some _ _ _ Ev) as Hlt.
    rewrite length_app in Hlt. unfold zlen. destruct (Z.ltb_spec i (Z.of_nat (length lvs))) as [Hc|Hc].
    + rewrite lookup_app_l in Ev by lia. eexists. split_and!; [done|done|]. cbn.
      rewrite (Hl i v), (Ht i v); try done. by rewrite lookup_app_l by lia.
    + destruct (Z.leb_spec (Z.of_nat (length lvs)) i); [|lia].
      destruct (Z.ltb_spec i (Z.of_nat (length lvs) + Z.of_nat (length rvs))); [|lia]. cbn [andb].
      rewrite lookup_app_r in Ev by lia. eexists. split_and!; [done|done|]. cbn.
      rewrite (Hr (i - Z.of_nat (length lvs)) v), (Ht i v); try done; try lia.
      * by rewrite lookup_app_r by lia.
      * rewrite <- Ev. f_equal. lia.
  - intros _ _. by eexists.
Qed.

(** ** Rules on whole plans *)

(** Lifting what holds of the rewrite of a node to the rewrite of a plan. *)
Section bottom_up.
Context (step : AbstractPlanNode -> result AbstractPlanNode).
Context (Q : AbstractPlanNode -> Prop) (Q_children : forall out cs k, Q (PlanNode out cs k) -> Forall Q cs).

Lemma bottom_up_ind (R : AbstractPlanNode -> AbstractPlanNode -> Prop) :
  (forall p q r, R p q -> R q r -> R p r) ->
  (forall out cs cs' k, Q (PlanNode out cs k) -> Forall2 R cs cs' -> R (PlanNode out cs k) (PlanNode out cs' k) /\ Q (PlanNode out cs' k)) ->
  (forall p q, Q p -> step p = Ok q -> R p q) ->
  forall p q, Q p -> bottom_up step p = Ok q -> R p q.
Proof.
  intros Htrans Hnode Hstep p. induction p as [out cs kind IH] using plan_ind. intros q HQ. cbn [bottom_up].
  destruct (rseq (List.map (bottom_up step) cs)) as [cs'|x] eqn:Er; cbn [rbind]; [|done]. intros Hs.
  assert (Hf : Forall2 R cs cs').
  { apply rseq_Ok in Er. apply Q_children in HQ. clear Hs Hnode. revert cs' Er.
    induction cs as [|c cs IHcs]; intros [|c' cs'] Er; try done. cbn in Er. injection Er as Ec Er.
    apply Forall_cons in IH as [IHc IH]. apply Forall_cons in HQ as [Qc HQ]. constructor; [by apply IHc|by apply IHcs]. }
  destruct (Hnode out cs cs' kind HQ Hf) as [HR HQ']. eapply Htrans; [exact HR|]. by apply Hstep.
Qed.

Lemma bottom_up_total (R : AbstractPlanNode -> AbstractPlanNode -> Prop) :
  (forall p q r, R p q -> R q r -> R p r) ->
  (forall out cs cs' k, Q (PlanNode out cs k) -> Forall2 R cs cs' -> R (PlanNode out cs k) (PlanNode out cs' k) /\ Q (PlanNode out cs' k)) ->
  (forall p, Q p -> exists q, step p = Ok q /\ R p q) ->
  forall p, Q p -> exists q, bottom_up step p = Ok q /\ R p q.
Proof.
  intros Htrans Hnode Hstep p. induction p as [out cs kind IH] using plan_ind. intros HQ. cbn [bottom_up].
  assert (Hf : exists cs', rseq (List.map (bottom_up step) cs) = Ok cs' /\ Forall2 R cs cs').
  { apply Q_children in HQ. clear Hnode. induction cs as [|c cs IHcs]; [by exists []|].
    apply Forall_cons in IH as [IHc IH]. apply Forall_cons in HQ as [Qc HQ]. destruct (IHc Qc) as (c' & Hc & Rc).
    destruct (IHcs IH HQ) as (cs' & Hcs & Rcs). exists (c' :: cs'). cbn. rewrite Hc, Hcs. split; [done|by constructor]. }
  destruct Hf as (cs' & -> & Hf). cbn [rbind]. destruct (Hnode out cs cs' kind HQ Hf) as [HR HQ'].
  destruct (Hstep _ HQ') as (q & Hq & HRq). exists q. split; [done|]. by eapply Htrans.
Qed.

Lemma bottom_up_id : (forall p, Q p -> step p = Ok p) -> forall p, Q p -> bottom_up step p = Ok p.
Proof.
  intros Hstep p. induction p as [out cs kind IH] using plan_ind. intros HQ. cbn [bottom_up].
  assert (Hr : rseq (List.map (bottom_up step) cs) = Ok cs).
  { apply rseq_Ok. apply Q_children in HQ. clear Hstep. induction cs as [|c cs IHcs]; [done|]. cbn.
    apply Forall_cons in IH as [IHc IH]. apply Forall_cons in HQ as [Qc HQ]. f_equal; [by apply IHc|by apply IHcs]. }
  rewrite Hr. cbn [rbind]. by apply Hstep.
Qed.
End bottom_up.

Section preserve.
Context (shuffle : list Z -> list Z) (shuffle_perm : forall l, shuffle l ≡ₚ l).

(** Plans that run alike. *)
Record plan_equiv (p q : AbstractPlanNode) : Prop := {
  equiv_schema : OutputSchema q = OutputSchema p;
  equiv_rows : plan_rows shuffle q = plan_rows shuffle p;
  equiv_executable : executable q = executable p;
  equiv_creatable : creatable q = creatable p;
  equiv_shaped : shaped q = shaped p;
}.

#[export] Instance plan_equiv_preorder : PreOrder plan_equiv.
Proof.
  split; [by split|]. intros p q r [H1 H2 H3 H4 H5] [G1 G2 G3 G4 G5]. split; congruence.
Qed.

Lemma equiv_forallb (f : AbstractPlanNode -> bool) cs cs' :
  (forall p q, plan_equiv p q -> f q = f p) -> Forall2 plan_equiv cs cs' -> forallb f cs' = forallb f cs.
Proof. intros Hf. induction 1 as [|c c' cs cs' Hc _ IH]; cbn; [done|]. by rewrite IH, (Hf c c'). Qed.

(** A node keeps running alike when its children do. *)
Lemma plan_equiv_node out cs cs' k : Forall2 plan_equiv cs cs' -> plan_equiv (PlanNode out cs k) (PlanNode out cs' k).
Proof.
  intros Hf. pose proof (equiv_forallb executable cs cs' equiv_executable Hf) as He.
  pose proof (equiv_forallb creatable cs cs' equiv_creatable Hf) as Hc.
  pose proof (equiv_forallb shaped cs cs' equiv_shaped Hf) as Hs.
  pose proof (Forall2_length _ _ _ Hf) as Hl. split; cbn [OutputSchema executable creatable shaped].
  - done.
  - destruct k; try done; destruct Hf as [|c c' cs cs' Hcc Hf]; try done; (destruct Hf; [|done]); cbn;
      by rewrite (equiv_rows _ _ Hcc), (equiv_schema _ _ Hcc).
  - by rewrite He, Hc.
  - by rewrite Hc.
  - by rewrite Hs, Hl.
Qed.

Lemma shaped_children out cs k : shaped (PlanNode out cs k) = true -> Forall (fun p => shaped p = true) cs.
Proof. cbn. rewrite andb_true_iff. intros [_ Hs]. rewrite forallb_forall in Hs. apply Forall_forall. intros c Hc. by apply Hs, list_elem_of_In. Qed.

(** A rule that keeps the nodes it rewrites running alike keeps plans running alike. *)
Lemma bottom_up_equiv step p q :
  (forall p q, shaped p = true -> step p = Ok q -> plan_equiv p q) ->
  shaped p = true -> bottom_up step p = Ok q -> plan_equiv p q.
Proof.
  intros Hstep. apply (bottom_up_ind step (fun p => shaped p = true) shaped_children); [|..|done].
  - intros ???. apply transitivity.
  - intros out cs cs' k Hs Hf. pose proof (plan_equiv_node out cs cs' k Hf) as He. split; [done|].
    by rewrite (equiv_shaped _ _ He).
Qed.

Lemma scan_leaf out cs oid n f : shaped (PlanNode out cs (SeqScanPlanNode oid n f)) = true -> cs = [].
Proof. cbn. rewrite andb_true_iff, Nat.eqb_eq. intros [Hl _]. by destruct cs. Qed.

Lemma merge_filter_nlj_equiv p q : shaped p = true -> merge_filter_nlj p = Ok q -> plan_equiv p q.
Proof.
  destruct p as [out cs k]. intros Hs. cbn [merge_filter_nlj]. destruct k; try (by intros [= <-]).
  destruct cs as [|[nout ncs nk] [|]]; try done; try (by destruct nk). destruct nk; try (by intros [= <-]).
  destruct ncs as [|l [|r [|]]]; try done. destruct (IsPredicateTrue _) as [[]|]; cbn [rbind]; try done; [|by intros [= <-]].
  destruct (RewriteExpressionForJoin _ _ _) as [e|]; cbn [rbind]; [|done]. intros [= <-].
  split; try done; cbn; by rewrite !andb_true_r.
Qed.
Lemma nlj_as_index_join_equiv iteration c p q :
  shaped p = true -> nlj_as_index_join iteration c p = Ok q -> plan_equiv p q.
Proof.
  destruct p as [out cs k]. intros Hs. cbn [nlj_as_index_join]. destruct k; try (by intros [= <-]).
  destruct cs as [|l [|[rout rcs rk] [|]]]; try done.
  destruct (column_equality _) as [[[[k1 i1] e1] [[k2 i2] e2]]|]; [|by intros [= <-]].
  destruct rk as [oid name f| | | | | | | | | | | | | | |]; try (by intros [= <-]).
  assert (rcs = []) as ->.
  { apply shaped_children in Hs. rewrite !Forall_cons in Hs. destruct Hs as (_ & Hr & _). by eapply scan_leaf. }
  intros Hq. assert (Hcase : q = PlanNode out [l; PlanNode rout [] (SeqScanPlanNode oid name f)] (NestedLoopJoinPlanNode predicate_ join_type_) \/
    exists key io iname, q = PlanNode out [l] (NestedIndexJoinPlanNode key oid io iname name rout join_type_)).
  { revert Hq. repeat (case_match; cbn [rbind]; try done);
      repeat match goal with |- rbind _ ?x = _ -> _ => destruct x as [[[? ?]|]|]; cbn [rbind]; try done end; intros [= <-]; eauto. }
  destruct Hcase as [->|(key & io & iname & ->)]; [done|]. split; try done; cbn; by rewrite !andb_true_r.
Qed.

Lemma order_by_index_scan_equiv iteration c p q :
  shaped p = true -> order_by_index_scan iteration c p = Ok q -> plan_equiv p q.
Proof.
  destruct p as [out cs k]. intros Hs. cbn [order_by_index_scan]. destruct k; try (by intros [= <-]).
  destruct order_bys_ as [|[ty [| | | |]] [|]]; try (by intros [= <-]). destruct (_ || _); [|by intros [= <-]].
  destruct cs as [|[sout scs sk] [|]]; try done; try (by destruct sk). destruct sk; try (by intros [= <-]).
  assert (scs = []) as ->.
  { apply shaped_children in Hs. rewrite Forall_cons in Hs. destruct Hs as (Hr & _). by eapply scan_leaf. }
  destruct (GetTable c table_oid_); [|done]. destruct (GetTableIndexes _ _ _); cbn [rbind]; [|done].
  destruct (find_order_index _ _ _) as [[|]|]; cbn [rbind]; try done; [|by intros [= <-]]. intros [= <-]. by split.
Qed.

Lemma merge_filter_scan_equiv p q : shaped p = true -> merge_filter_scan p = Ok q -> plan_equiv p q.
Proof.
  destruct p as [out cs k]. intros Hs. cbn [merge_filter_scan]. destruct k; try (by intros [= <-]).
  destruct cs as [|[sout scs sk] [|]]; try done; try (by destruct sk). destruct sk as [? ? [|]| | | | | | | | | | | | | | |]; try (by intros [= <-]).
  assert (scs = []) as ->.
  { apply shaped_children in Hs. rewrite Forall_cons in Hs. destruct Hs as (Hr & _). by eapply scan_leaf. }
  intros [= <-]. by split.
Qed.

Lemma nlj_as_hash_join_equiv p q : shaped p = true -> nlj_as_hash_join p = Ok q -> plan_equiv p q.
Proof.
  destruct p as [out cs k]. intros Hs. cbn [nlj_as_hash_join]. destruct k; try (by intros [= <-]).
  destruct cs as [|l [|r [|]]]; try done. destruct (column_equality _) as [[[[k1 i1] e1] [[k2 i2] e2]]|]; [|by intros [= <-]].
  destruct ((k1 =? 0) && (k2 =? 1)); [intros [= <-]; by split|].
  destruct ((k1 =? 1) && (k2 =? 0)); [intros [= <-]; by split|by intros [= <-]].
Qed.

(** ** Merging projections *)

(** Only the types of its output schema matter to a node. *)
Lemma node_typed_types out out' cs k : schema_types out = schema_types out' -> node_typed out cs k -> node_typed out' cs k.
Proof. intros Ht. destruct k, cs as [|c [|]]; cbn; try done; by rewrite ?Ht. Qed.

Lemma plan_bound_types out out' cs k :
  schema_types out = schema_types out' -> plan_bound (PlanNode out cs k) = plan_bound (PlanNode out' cs k).
Proof. intros Ht. destruct k, cs as [|c [|]]; cbn; try done; unfold mock_bound, has_varchar; by rewrite Ht. Qed.

Lemma mock_values_types out out' table cursor :
  schema_types out = schema_types out' -> mock_values out table cursor = mock_values out' table cursor.
Proof.
  intros Ht. unfold mock_values, leaderboard_values. do 17 (destruct (named table _); [done|]). unfold schema_types in Ht.
  change ((GetZeroValueByType ∘ column_type_) <$> columns_ out = (GetZeroValueByType ∘ column_type_) <$> columns_ out').
  by rewrite !list_fmap_compose, Ht.
Qed.

Lemma plan_rows_same out out' cs k :
  same_schema out out' -> plan_rows shuffle (PlanNode out cs k) = plan_rows shuffle (PlanNode out' cs k).
Proof.
  intros Hs. pose proof (same_schema_types _ _ Hs) as Ht. destruct k; try done; cbn.
  - apply list_fmap_ext. intros _ row _. by apply make_row_same.
  - destruct cs as [|c [|]]; try done. apply list_fmap_ext. intros _ r _. unfold project_row. destruct r; cbn [rbind]; [|done].
    by apply make_row_same.
  - unfold mock_rows. apply list_fmap_ext. intros _ i _. unfold GetFunctionOf. rewrite (mock_values_types out out') by done.
    destruct (rseq _); cbn [rbind]; [|done]. by apply Tuple_ctor_same.
Qed.

(** Identical expressions copy the values of the tuple. *)
Lemma identical_values t sch vs exprs k :
  reads (Some t) sch vs -> is_identical (Z.of_nat k) exprs = true -> length exprs = (length vs - k)%nat ->
  (fun e => Evaluate e (Some t) sch) <$> exprs = Ok <$> drop k vs.
Proof.
  intros Hr. revert k. induction exprs as [|e es IH]; intros k Hi Hl.
  - rewrite drop_ge; [done|]. cbn in Hl. lia.
  - destruct e as [ti ci ty| | | |]; try done. cbn in Hi. apply andb_true_iff in Hi as [[_ Hc%Z.eqb_eq]%andb_true_iff Hi].
    subst ci. cbn in Hl. destruct (lookup_lt_is_Some_2 vs k) as [v Hv]; [lia|]. rewrite (drop_S _ _ _ Hv). cbn.
    f_equal.
    + apply (Hr (Z.of_nat k) v); [lia|]. by rewrite Nat2Z.id.
    + apply IH; [|lia]. by replace (Z.of_nat (S k)) with (Z.of_nat k + 1) by lia.
Qed.

Lemma merged_row out exprs sch b b' r f :
  schema_ok out b' -> schema_ok sch b -> schema_types sch = schema_types out -> is_identical 0 exprs = true ->
  GetReturnType <$> exprs = schema_types out -> row_ok sch b f r -> project_row out exprs sch r = r.
Proof.
  intros Ho Hs Ht Hi He Hr. unfold project_row. destruct r as [t|x]; cbn [rbind]; [|done].
  destruct (tuple_of_reads sch b t Hr) as (vs & Hrd & _ & Hty & _ & Hc). unfold make_row.
  rewrite (identical_values t sch vs exprs 0); [|done|done|].
  - rewrite drop_0, (proj2 (rseq_Ok _ _) eq_refl). cbn [rbind]. rewrite <- Hc. symmetry. apply Tuple_ctor_same. by eapply schema_ok_same.
  - rewrite <- Ht, <- Hty in He. apply (f_equal length) in He. rewrite !length_fmap in He. lia.
Qed.

(** The bound of the merged plan is not larger. *)
Lemma identical_bound b exprs :
  0 <= b -> existsb (TypeId_eqb VARCHAR) (GetReturnType <$> exprs) = true -> forall i, is_identical i exprs = true -> b <= row_bound b exprs.
Proof.
  intros Hb. assert (Hnn : forall i es, is_identical i es = true -> 0 <= row_bound b es).
  { intros i es. revert i. induction es as [|e es IH]; intros i Hi; cbn; [lia|]. destruct e as [ti ci ty| | | |]; try done.
    cbn in Hi. apply andb_true_iff in Hi as [_ Hi]. specialize (IH _ Hi). unfold row_bound in IH. cbn. destruct ty; lia. }
  induction exprs as [|e es IH]; [done|]. intros Hv i Hi. destruct e as [ti ci ty| | | |]; try done. cbn in Hi.
  apply andb_true_iff in Hi as [_ Hi]. cbn in Hv. specialize (Hnn _ _ Hi). unfold row_bound in *. cbn.
  destruct (decide (ty = VARCHAR)) as [->|Hne]; [lia|]. apply orb_true_iff in Hv as [Hv|Hv]; [by destruct ty|].
  specialize (IH Hv _ Hi). destruct ty; lia.
Qed.

Lemma no_varchar_row b types exprs :
  Forall (well_typed types) exprs -> existsb (TypeId_eqb VARCHAR) (GetReturnType <$> exprs) = false -> row_bound b exprs = 0.
Proof.
  induction 1 as [|e es He _ IH]; cbn; [done|]. intros [Hv Hvs]%orb_false_iff. unfold row_bound in IH. rewrite IH by done.
  destruct e as [ti ci ty|val| | |]; cbn in *; try done; [by destruct ty|]. rewrite var_size_inlined; [done|].
  intros Ht. by rewrite Ht in Hv.
Qed.

Lemma no_varchar_bound p : plan_typed p -> has_varchar (OutputSchema p) = false -> plan_bound p = 0.
Proof.
  induction p as [out cs k IH] using plan_ind. cbn [plan_typed OutputSchema]. intros (_ & Hn & Hcs%typed_children) Hv.
  destruct k; try done; cbn [plan_bound].
  - destruct cs as [|c [|]]; try done. apply Forall_cons in IH as [IH _]. apply Forall_cons in Hcs as [Hc _].
    apply IH; [done|]. destruct Hn as (_ & _ & Ht). unfold has_varchar in *. by rewrite <- Ht.
  - destruct cs; [|done]. cbn in Hn. clear IH Hcs. induction Hn as [|row rows [Hw Ht] _ IH]; [done|]. cbn. rewrite IH.
    rewrite (no_varchar_row 0 [] row); [done|done|]. by rewrite Ht.
  - destruct cs as [|c [|]]; try done. destruct Hn as [Hw Ht]. eapply no_varchar_row; [exact Hw|]. by rewrite Ht.
  - unfold mock_bound. by rewrite Hv.
Qed.

(** Well-typed plans that run alike, the second within the bounds of the first. *)
Definition typed_equiv (p q : AbstractPlanNode) : Prop := plan_equiv p q /\ plan_typed q /\ plan_bound q <= plan_bound p.

Lemma schema_ok_mono sch b b' : 0 <= b' <= b -> schema_ok sch b -> schema_ok sch b'.
Proof. intros Hb (cols & -> & Hok & _ & Hn). exists cols. split_and!; (done || lia). Qed.

Lemma plan_bound_nonneg p : plan_typed p -> 0 <= plan_bound p.
Proof. intros Ht. destruct (plan_typed_ok p Ht) as (cols & _ & _ & Hb & _). done. Qed.

Lemma bounds_below out cs cs' k :
  plan_typed (PlanNode out cs k) -> Forall2 typed_equiv cs cs' ->
  0 <= plan_bound (PlanNode out cs' k) <= plan_bound (PlanNode out cs k).
Proof.
  intros Ht Hf. pose proof (plan_bound_nonneg _ Ht) as Hp. cbn [plan_bound] in *.
  destruct k; try lia; (destruct Hf as [|c c' cs cs' Hc Hf]; [lia|]; destruct Hf; [|lia]);
    destruct Hc as (_ & Hc' & Hb); pose proof (plan_bound_nonneg _ Hc'); [lia|].
  split; [|by apply row_bound_mono]. destruct Ht as (_ & [Hw _] & _). clear -Hw H.
  induction Hw as [|e es He _ IH]; cbn; [lia|]. assert (0 <= expr_bound (plan_bound c') e); [|unfold row_bound in IH; lia].
  destruct e as [? ? []|v| | |]; cbn; try lia. apply var_size_nonneg, He.
Qed.

Lemma typed_equiv_node out cs cs' k :
  plan_typed (PlanNode out cs k) -> Forall2 typed_equiv cs cs' ->
  typed_equiv (PlanNode out cs k) (PlanNode out cs' k) /\ plan_typed (PlanNode out cs' k).
Proof.
  intros Ht Hf. pose proof (bounds_below out cs cs' k Ht Hf) as Hb.
  assert (He : plan_equiv (PlanNode out cs k) (PlanNode out cs' k)).
  { apply plan_equiv_node. eapply Forall2_impl; [exact Hf|]. by intros ?? [? _]. }
  cut (plan_typed (PlanNode out cs' k)); [intros Ht'; split; [split; [done|split; [done|lia]]|done]|].
  destruct Ht as (Ho & Hn & _). cbn [plan_typed]. split_and!.
  - by eapply schema_ok_mono.
  - clear -Hn Hf. pose proof (Forall2_length _ _ _ Hf) as Hl.
    destruct k; cbn in *; try congruence; destruct Hf as [|c c' cs cs' Hc Hf]; try done; (destruct Hf; [|cbn in *; congruence]);
      destruct Hc as (Hc & _); by rewrite (equiv_schema _ _ Hc).
  - apply typed_children. clear -Hf. induction Hf as [|c c' cs cs' (_ & Hc & _) _ IH]; by constructor.
Qed.

Lemma typed_equiv_trans p q r : typed_equiv p q -> typed_equiv q r -> typed_equiv p r.
Proof. intros (H1 & _ & H2) (G1 & G2 & G3). split; [by etransitivity|]. split; [done|lia]. Qed.

Lemma merge_projection_equiv p : plan_typed p -> exists q, merge_projection p = Ok q /\ typed_equiv p q.
Proof.
  intros Hp. assert (Hrefl : typed_equiv p p) by (split; [done|]; split; [done|lia]).
  destruct p as [out cs k]. cbn [merge_projection]. destruct k; try (by eexists).
  pose proof Hp as (Ho & Hn & Hcs%typed_children). destruct cs as [|c [|]]; try done.
  destruct (bool_decide (schema_types (OutputSchema c) = schema_types out)) eqn:Et; cbn [andb]; [|by eexists].
  destruct (is_identical 0 expressions_) eqn:Ei; [|by eexists]. apply bool_decide_eq_true in Et. clear Hrefl.
  apply Forall_cons in Hcs as [Hc _]. destruct Hn as [Hw Hty]. pose proof (plan_rows_ok shuffle shuffle_perm c Hc) as Hrows.
  pose proof (plan_typed_ok c Hc) as Hoc. destruct c as [cout ccs ck]. cbn [OutputSchema Plan_GetChildren plan_kind] in *.
  pose proof (schema_ok_same _ _ _ _ Hoc Ho Et) as Hsame.
  assert (Hb : plan_bound (PlanNode cout ccs ck) <= row_bound (plan_bound (PlanNode cout ccs ck)) expressions_).
  { destruct (has_varchar cout) eqn:Ev.
    - eapply identical_bound; [by apply plan_bound_nonneg| |exact Ei]. unfold has_varchar in Ev. by rewrite Hty, <- Et.
    - rewrite (no_varchar_bound _ Hc Ev). rewrite (no_varchar_row 0 (schema_types cout)); [done|done|].
      unfold has_varchar in Ev. by rewrite Hty, <- Et. }
  eexists. split; [done|]. split; [split|split].
  - done.
  - rewrite <- (plan_rows_same cout out) by done. cbn [plan_rows OutputSchema]. symmetry.
    rewrite <- (list_fmap_id (plan_rows shuffle (PlanNode cout ccs ck))) at 2. apply list_fmap_ext. intros i r Hr.
    apply (merged_row _ _ _ _ _ _ (plan_may_fail (PlanNode cout ccs ck)) Ho Hoc Et Ei Hty). by eapply Forall_lookup_1.
  - cbn. by rewrite andb_true_r.
  - cbn. by rewrite andb_true_r.
  - cbn. by rewrite andb_true_r.
  - destruct Hc as (_ & Hn & Hcc). split; [|split; [by eapply node_typed_types|done]].
    rewrite <- (plan_bound_types cout out) by done. eapply schema_ok_mono; [|exact Ho]. split; [|done].
    destruct Hoc as (? & _ & _ & Hnn & _). done.
  - by rewrite <- (plan_bound_types cout out).
Qed.

(** The plans of the executors that are implemented, aggregation apart. *)
Fixpoint simple (plan : AbstractPlanNode) : bool :=
  let '(PlanNode _ cs kind) := plan in
  match kind with
  | ValuesPlanNode _ | MockScanPlanNode _ | FilterPlanNode _ | ProjectionPlanNode _ => forallb simple cs
  | _ => false
  end.

Lemma simple_children out cs k :
  (shaped (PlanNode out cs k) = true /\ simple (PlanNode out cs k) = true) -> Forall (fun p => shaped p = true /\ simple p = true) cs.
Proof.
  intros [Hs%shaped_children Hm]. assert (Hf : forallb simple cs = true) by (by destruct k). rewrite forallb_forall in Hf.
  apply Forall_forall. intros c Hc. rewrite Forall_forall in Hs. split; [by apply Hs|]. by apply Hf, list_elem_of_In.
Qed.

(** The rules after the first leave simple plans as they are. *)
Lemma simple_steps iteration c p :
  shaped p = true /\ simple p = true ->
  merge_filter_nlj p = Ok p /\ nlj_as_index_join iteration c p = Ok p /\ order_by_index_scan iteration c p = Ok p.
Proof.
  destruct p as [out cs k]. cbn [shaped simple]. rewrite andb_true_iff, Nat.eqb_eq. intros [[Hl Hs] Hm].
  destruct k; try done. cbn in Hl. destruct cs as [|[cout ccs ck] [|]]; try done. cbn in Hm. by destruct ck.
Qed.

Definition simple_equiv (p q : AbstractPlanNode) : Prop := typed_equiv p q /\ (simple p = true -> simple q = true).

Lemma MergeProjection_total p : plan_typed p -> exists q, OptimizeMergeProjection p = Ok q /\ simple_equiv p q.
Proof.
  apply (bottom_up_total merge_projection plan_typed).
  - intros out cs k Ht. apply typed_children, Ht.
  - intros p' q r [H1 H2] [H3 H4]. split; [by eapply typed_equiv_trans|auto].
  - intros out cs cs' k Ht Hf. destruct (typed_equiv_node out cs cs' k Ht) as [He Ht'].
    { eapply Forall2_impl; [exact Hf|]. by intros ?? []. }
    split; [|done]. split; [done|]. cbn. assert (forallb simple cs = true -> forallb simple cs' = true); [|by destruct k].
    clear -Hf. induction Hf as [|c c' cs cs' [_ Hc] _ IH]; cbn; [done|]. rewrite !andb_true_iff. naive_solver.
  - intros p' Ht. destruct (merge_projection_equiv p' Ht) as (q & Hq & He). exists q. split; [done|]. split; [done|].
    destruct p' as [out cs k]. revert Hq. cbn [merge_projection]. destruct k; try (by intros [= <-]).
    destruct cs as [|[cout ccs ck] [|]]; try done. destruct (_ && _); intros [= <-]; [|done]. cbn. rewrite andb_true_r. done.
Qed.

Lemma rules_equiv iteration c p q :
  shaped p = true ->
  (let! p := OptimizeMergeFilterNLJ p in let! p := OptimizeNLJAsIndexJoin iteration c p in
   let! p := OptimizeOrderByAsIndexScan iteration c p in OptimizeSortLimitAsTopN p) = Ok q -> plan_equiv p q.
Proof.
  intros Hs. destruct (OptimizeMergeFilterNLJ p) as [p1|] eqn:E1; cbn [rbind]; [|done].
  pose proof (bottom_up_equiv _ _ _ merge_filter_nlj_equiv Hs E1) as H1. pose proof (equiv_shaped _ _ H1) as S1. rewrite Hs in S1.
  destruct (OptimizeNLJAsIndexJoin iteration c p1) as [p2|] eqn:E2; cbn [rbind]; [|done].
  pose proof (bottom_up_equiv _ _ _ (nlj_as_index_join_equiv iteration c) S1 E2) as H2.
  pose proof (equiv_shaped _ _ H2) as S2. rewrite S1 in S2.
  destruct (OptimizeOrderByAsIndexScan iteration c p2) as [p3|] eqn:E3; cbn [rbind]; [|done].
  pose proof (bottom_up_equiv _ _ _ (order_by_index_scan_equiv iteration c) S2 E3) as H3.
  intros [= <-]. etransitivity; [exact H1|]. by etransitivity.
Qed.

Lemma Optimize_total iteration c force p :
  plan_typed p -> simple p = true -> exists q, Optimize iteration c force p = Ok q.
Proof.
  intros Ht Hm. destruct (MergeProjection_total p Ht) as (p1 & E1 & (_ & Ht1 & _) & Hm1). exists p1.
  replace (Optimize iteration c force p) with (OptimizeCustom iteration c p) by (by destruct force).
  unfold OptimizeCustom. rewrite E1. cbn [rbind]. pose proof (conj (typed_shaped p1 Ht1) (Hm1 Hm)) as Hs.
  pose proof (fun q H => simple_steps iteration c q H) as Hst.
  unfold OptimizeMergeFilterNLJ, OptimizeNLJAsIndexJoin, OptimizeOrderByAsIndexScan.
  do 3 (rewrite (bottom_up_id _ _ simple_children); [cbn [rbind]|naive_solver|done]). done.
Qed.

Lemma Optimize_equiv iteration c force p q :
  plan_typed p -> Optimize iteration c force p = Ok q -> plan_equiv p q.
Proof.
  intros Ht. destruct (MergeProjection_total p Ht) as (p1 & E1 & (H1 & Ht1 & _) & _).
  replace (Optimize iteration c force p) with (OptimizeCustom iteration c p) by (by destruct force).
  unfold OptimizeCustom. rewrite E1. cbn [rbind]. intros Hq. apply rules_equiv in Hq; [by etransitivity|].
  by apply typed_shaped.
Qed.

Lemma equiv_Execute p q fuel rs :
  plan_equiv p q -> shaped p = true -> (plan_calls p `max` plan_calls q < fuel)%nat ->
  Execute shuffle fuel q rs = Execute shuffle fuel p rs.
Proof.
  intros He Hs Hf. rewrite !(execute_rows shuffle shuffle_perm) by (lia || rewrite ?(equiv_shaped _ _ He); done).
  by rewrite (equiv_rows _ _ He), (equiv_executable _ _ He).
Qed.

(** ** Properties *)

(** The optimizer and the executors there are. If optimizing a well-typed plan gives a plan,
    with the default rules or the starter rules, with any catalog, the new plan has
    the same output schema, and executing it returns what executing the original
    returns: the same flag and rows, or the same exception. (Joins, sorts and scans of tables only
    throw when they are executed.) For plans made of
    scans, values, filters and projections the optimizer always gives a plan. *)
Theorem Optimize_preserves (iteration : gmap (list Z) Z -> list (list Z * Z)) (c : Catalog) (force : bool) (p : AbstractPlanNode) :
  plan_typed p ->
  (simple p = true -> exists q, Optimize iteration c force p = Ok q) /\
  forall q, Optimize iteration c force p = Ok q ->
    OutputSchema q = OutputSchema p /\
    exists n, forall fuel result_set, (n < fuel)%nat -> Execute shuffle fuel q result_set = Execute shuffle fuel p result_set.
Proof.
  intros Ht. split; [by apply Optimize_total|].
  intros q Hq. pose proof (Optimize_equiv _ _ _ _ _ Ht Hq) as He. split; [apply (equiv_schema _ _ He)|].
  exists (plan_calls p `max` plan_calls q)%nat. intros fuel rs Hf. apply equiv_Execute; [done|by apply typed_shaped|done].
Qed.
End preserve.

(** Rewriting a filter predicate for a join. A predicate over the columns of the
    joined row, well typed for them, is rewritten without an error; on the two
    rows the new predicate has the value (or the failure) the old one has on their
    concatenation. *)
Theorem RewriteExpressionForJoin_correct (lcols rcols : list Column) (lvs rvs : list Value) (e : AbstractExpression) :
  tuple_values lcols lvs -> tuple_values rcols rvs -> tuple_values (lcols ++ rcols) (lvs ++ rvs) ->
  well_typed (column_type_ <$> lcols ++ rcols) e -> single_tuple e = true ->
  exists tl tr t e',
    Tuple_ctor lvs (Schema_ctor lcols) = Ok tl /\ Tuple_ctor rvs (Schema_ctor rcols) = Ok tr /\
    Tuple_ctor (lvs ++ rvs) (Schema_ctor (lcols ++ rcols)) = Ok t /\
    RewriteExpressionForJoin e (zlen lcols) (zlen rcols) = Ok e' /\ GetReturnType e' = GetReturnType e /\
    EvaluateJoin e' (Some tl) (Schema_ctor lcols) (Some tr) (Schema_ctor rcols) =
      Evaluate e (Some t) (Schema_ctor (lcols ++ rcols)).
Proof.
  intros Hl Hr Hj Hw Hs. destruct (ctor_reads _ _ Hl) as (tl & Hcl & Rl). destruct (ctor_reads _ _ Hr) as (tr & Hcr & Rr).
  destruct (ctor_reads _ _ Hj) as (t & Hcj & Rj). rewrite <- (values_types _ _ Hj) in Hw.
  destruct (RewriteExpressionForJoin_spec _ _ _ _ _ _ lvs rvs e Rl Rr Rj Hw Hs) as (e' & He & Ht & Hv).
  assert (Hlen : forall cols vs, tuple_values cols vs -> zlen vs = zlen cols).
  { intros cols vs (_ & Hf & _). unfold zlen. by rewrite (Forall2_length _ _ _ Hf). }
  rewrite (Hlen _ _ Hl), (Hlen _ _ Hr) in He. exists tl, tr, t, e'. by split_and!.
Qed.

(** ** Examples *)

Definition pair_predicate : AbstractExpression :=
  ComparisonExpression Equal (ColumnValueExpression 0 0 INTEGER) (ColumnValueExpression 0 1 INTEGER).

Lemma number_values vs : vs = [VInt INTEGER 1] \/ vs = [VInt INTEGER 1; VInt INTEGER 1] ->
  tuple_values (const number_column <$> vs) vs.
Proof. intros [-> | ->]; (split_and!; [by repeat constructor| |vm_compute; congruence]); repeat constructor; vm_compute; congruence. Qed.

Lemma RewriteExpressionForJoin_correct_witness :
  exists e', RewriteExpressionForJoin pair_predicate 1 1 = Ok e' /\ GetReturnType e' = BOOLEAN.
Proof.
  destruct (RewriteExpressionForJoin_correct [number_column] [number_column] [VInt INTEGER 1] [VInt INTEGER 1] pair_predicate)
    as (tl & tr & t & e' & _ & _ & _ & He & Ht & _).
  - apply (number_values [VInt INTEGER 1]). by left.
  - apply (number_values [VInt INTEGER 1]). by left.
  - apply (number_values [VInt INTEGER 1; VInt INTEGER 1]). by right.
  - by repeat constructor.
  - reflexivity.
  - exists e'. split; [exact He|exact Ht].
Defined.

(** The identical projection of the demo plan is merged. *)
Lemma Optimize_preserves_witness :
  exists q n, Optimize map_to_list Catalog_ctor true demo_plan = Ok q /\ q <> demo_plan /\
    forall fuel rs, (n < fuel)%nat -> Execute id fuel q rs = Execute id fuel demo_plan rs.
Proof.
  destruct (Optimize_preserves id (fun l => Permutation_refl l) map_to_list Catalog_ctor true demo_plan demo_plan_typed)
    as [Hs Hp].
  destruct (Hs eq_refl) as (q & Hq). destruct (Hp q Hq) as (_ & n & Hn). exists q, n. split; [exact Hq|]. split; [|exact Hn].
  vm_compute in Hq. injection Hq as <-. vm_compute. congruence.
Defined.

(** [SELECT * FROM a LEFT JOIN b ON true WHERE a.number = b.number]: the condition becomes
    the condition of the left join, which keeps the rows of the left table that
    the filter would drop. *)
Definition number_scan (table : string) : AbstractPlanNode :=
  PlanNode (Schema_ctor [number_column]) [] (MockScanPlanNode (str table)).
Definition left_join (predicate : AbstractExpression) : AbstractPlanNode :=
  PlanNode (Schema_ctor [number_column; number_column]) [number_scan "a"; number_scan "b"] (NestedLoopJoinPlanNode predicate LEFT).
Lemma MergeFilterNLJ_left_join :
  OptimizeMergeFilterNLJ (PlanNode (Schema_ctor [number_column; number_column])
    [left_join (ConstantValueExpression (VInt BOOLEAN 1))] (FilterPlanNode pair_predicate)) =
  Ok (left_join (ComparisonExpression Equal (ColumnValueExpression 0 0 INTEGER) (ColumnValueExpression 1 0 INTEGER))).
Proof. vm_compute. reflexivity. Qed.
