(* ===== verification/OptimizerSem.v ===== *)
(** * What optimizing means

    Most executors of the sources are stubs, so that running a plan says nothing about joins, sorts and
    scans of tables. This file gives the plan nodes the meaning their classes document
    (src/include/execution/plans/): [yields plan rows] says that [rows] is a possible result of the plan on
    a database, given by the rows of its tables. Scans return the rows of a table in any order, an index scan in the order of
    its key, a nested loop join scans its right side again for each row of the left one. Aggregations and the nodes that
    change tables have any meaning that depends on the rows of their children. A row is
    the list of its values; [eval1_Evaluate] and [eval2_EvaluateJoin] relate expressions on rows to
    [Evaluate] and [EvaluateJoin] on tuples.

    Proved: optimizing a well-typed plan gives a plan with the same possible results ([Optimize_keeps_rows]),
    if the plan has no LEFT JOIN whose condition is the constant true; [merge_left_join_wrong] shows
    that it does not for those. *)

From Stdlib Require Import String Sorted.
From S2P Require Import Prelude.
From S2P Require Import CStd.
From S2P Require Import Value.
From S2P Require Import Types.
From S2P Require Import TypeOps.
From S2P Require Import ValueFactory.
From S2P Require Import Tuple.
From S2P Require Import Index.
From S2P Require Import Catalog.
From S2P Require Import Expressions.
From S2P Require Import Plans.
From S2P Require Import Executors.
From S2P Require Import PlanTyping.
From S2P Require Import Optimizer.
Local Open Scope Z_scope.
Local Open Scope bustub_scope.

Abbreviation Row := (list Value).

(** ** Expressions on rows *)

Fixpoint eval_with (column : Z -> Z -> result Value) (e : AbstractExpression) : result Value :=
  match e with
  | ColumnValueExpression tuple_idx col_idx _ => column tuple_idx col_idx
  | ConstantValueExpression val => Ok val
  | ArithmeticExpression op e1 e2 =>
      let! lhs := eval_with column e1 in let! rhs := eval_with column e2 in arithmetic_value op lhs rhs
  | ComparisonExpression op e1 e2 =>
      let! lhs := eval_with column e1 in let! rhs := eval_with column e2 in comparison_value op lhs rhs
  | LogicExpression op e1 e2 =>
      let! lhs := eval_with column e1 in let! rhs := eval_with column e2 in logic_value op lhs rhs
  end.

Definition row_column (row : Row) (i : Z) : result Value :=
  if i <? 0 then Throw Undefined else match row !! Z.to_nat i with Some v => Ok v | None => Throw Undefined end.
Definition eval1 (row : Row) : AbstractExpression -> result Value := eval_with (fun _ i => row_column row i).
Definition eval2 (l r : Row) : AbstractExpression -> result Value :=
  eval_with (fun k i => if k =? 0 then row_column l i else row_column r i).

(** A condition holds when its value is true, and neither false nor NULL. *)
Definition truth (v : result Value) : result bool := let! value := v in if IsNull value then Ok false else GetAs_bool value.
Definition holds1 (p : AbstractExpression) (row : Row) : result bool := truth (eval1 row p).
Definition holds2 (p : AbstractExpression) (l r : Row) : result bool := truth (eval2 l r p).

(** ** Operators on lists of rows *)

Fixpoint rfilter {A} (f : A -> result bool) (l : list A) : result (list A) :=
  match l with
  | [] => Ok []
  | a :: l => let! b := f a in let! l := rfilter f l in Ok (if b : bool then a :: l else l)
  end.

Definition project (exprs : list AbstractExpression) (row : Row) : result Row := rseq (List.map (eval1 row) exprs).

(** The rows a join makes of one row of the left side: the pairs that match; in a left join the row
    with NULLs when there is none. Right and full outer joins have no executor that accepts them. *)
Definition null_row (s : Schema) : result Row := rseq (List.map GetNullValueByType (schema_types s)).
Definition join_group (join_type : JoinType) (inner : Schema) (matches : Row -> result bool) (l : Row) (rs : list Row) : result (list Row) :=
  match join_type with
  | INNER => let! ms := rfilter matches rs in Ok (List.map (app l) ms)
  | LEFT =>
      let! ms := rfilter matches rs in
      match ms with [] => let! n := null_row inner in Ok [l ++ n] | _ => Ok (List.map (app l) ms) end
  | _ => Throw NotImplemented
  end.
(** A row of the left side and a row of the right side with the same key. *)
Definition same_key (key : AbstractExpression) (column : Z) (l r : Row) : result bool :=
  truth (let! k := eval1 l key in let! v := row_column r column in comparison_value Equal k v).

(** [r1] may come before [r2]. *)
Fixpoint row_le (order_bys : list (OrderByType * AbstractExpression)) (r1 r2 : Row) : Prop :=
  match order_bys with
  | [] => True
  | (order_type, e) :: order_bys =>
      exists v1 v2, eval1 r1 e = Ok v1 /\ eval1 r2 e = Ok v2 /\
        let less a b := Value_CompareLessThan a b = Ok CmpTrue in
        let before a b := less a b \/ (~ less b a /\ row_le order_bys r1 r2) in
        if bool_decide (order_type = DESC) then before v2 v1 else before v1 v2
  end.
Definition ordered (order_bys : list (OrderByType * AbstractExpression)) (rows : list Row) : Prop := StronglySorted (row_le order_bys) rows.

(** ** Plans *)

Section semantics.
Context (catalog_ : Catalog) (table_rows : Z -> list Row) (mock_rows : list Z -> list Row).
Context (other : PlanKind -> list (list Row) -> list Row -> Prop).

(** The index with the oid is on the single column [a] of the table with the oid. *)
Definition index_on (index_oid table_oid a : Z) : Prop :=
  exists ii, GetIndex catalog_ index_oid = Some ii /\ key_attrs_ (metadata_ (ii_index_ ii)) = [a] /\
    table_names_ catalog_ !! ii_table_name_ ii = Some table_oid.

Definition join_rows (join_type : JoinType) (inner : Schema) (matches : Row -> Row -> result bool) (right : list Row -> Prop)
    (ls : list Row) (rows : list Row) : Prop :=
  exists gs, Forall2 (fun l g => exists rs, right rs /\ join_group join_type inner (matches l) l rs = Ok g) ls gs /\ rows = concat gs.

Fixpoint yields (plan : AbstractPlanNode) (rows : list Row) : Prop :=
  let '(PlanNode _ cs kind) := plan in
  match kind, cs with
  | ValuesPlanNode values, [] => rseq (List.map (fun row => project row []) values) = Ok rows
  | SeqScanPlanNode table_oid _ filter_predicate, [] =>
      exists l, l ≡ₚ table_rows table_oid /\
        match filter_predicate with Some p => rfilter (holds1 p) l = Ok rows | None => rows = l end
  | MockScanPlanNode table, [] => rows ≡ₚ mock_rows table
  | IndexScanPlanNode index_oid, [] =>
      exists table_oid a, index_on index_oid table_oid a /\ rows ≡ₚ table_rows table_oid /\
        ordered [(ASC, ColumnValueExpression 0 a INTEGER)] rows
  | FilterPlanNode p, [c] => exists l, yields c l /\ rfilter (holds1 p) l = Ok rows
  | ProjectionPlanNode exprs, [c] => exists l, yields c l /\ rseq (List.map (project exprs) l) = Ok rows
  | SortPlanNode order_bys, [c] => exists l, yields c l /\ rows ≡ₚ l /\ ordered order_bys rows
  | LimitPlanNode n, [c] => exists l, yields c l /\ rows = take (Z.to_nat n) l
  | TopNPlanNode order_bys n, [c] =>
      exists l l', yields c l /\ l' ≡ₚ l /\ ordered order_bys l' /\ rows = take (Z.to_nat n) l'
  | NestedLoopJoinPlanNode p join_type, [l; r] =>
      exists ls, yields l ls /\ join_rows join_type (OutputSchema r) (holds2 p) (yields r) ls rows
  | NestedIndexJoinPlanNode key table_oid index_oid _ _ inner join_type, [l] =>
      exists a ls, index_on index_oid table_oid a /\ yields l ls /\
        join_rows join_type inner (same_key key a) (fun rs => rs ≡ₚ table_rows table_oid) ls rows
  | HashJoinPlanNode lkey rkey join_type, [l; r] =>
      exists ls, yields l ls /\
        join_rows join_type (OutputSchema r)
          (fun lrow rrow => truth (let! a := eval1 lrow lkey in let! b := eval1 rrow rkey in comparison_value Equal a b)) (yields r) ls rows
  | _, _ =>
      exists ls,
        (fix all_yield (cs : list AbstractPlanNode) (ls : list (list Row)) : Prop :=
           match cs, ls with
           | [], [] => True
           | c :: cs, l :: ls => yields c l /\ all_yield cs ls
           | _, _ => False
           end) cs ls /\ other kind ls rows
  end.

(** ** Well-typed plans and data *)

Definition row_ok (types : list TypeId) (row : Row) : Prop := type_id_ <$> row = types.
Definition plan_types (plan : AbstractPlanNode) : list TypeId := schema_types (OutputSchema plan).

Fixpoint expr_ok (schemas : list (list TypeId)) (e : AbstractExpression) : Prop :=
  match e with
  | ColumnValueExpression tuple_idx col_idx ret_type =>
      0 <= tuple_idx /\ 0 <= col_idx /\
      exists types, schemas !! Z.to_nat tuple_idx = Some types /\ types !! Z.to_nat col_idx = Some ret_type
  | ConstantValueExpression val => good_value val
  | ArithmeticExpression _ e1 e2 =>
      expr_ok schemas e1 /\ expr_ok schemas e2 /\ GetReturnType e1 = INTEGER /\ GetReturnType e2 = INTEGER
  | ComparisonExpression _ e1 e2 => expr_ok schemas e1 /\ expr_ok schemas e2 /\ GetReturnType e1 = GetReturnType e2
  | LogicExpression _ e1 e2 =>
      expr_ok schemas e1 /\ expr_ok schemas e2 /\ GetReturnType e1 = BOOLEAN /\ GetReturnType e2 = BOOLEAN
  end.
(** A condition, and not the constant NULL, on which the optimizer's test is undefined. *)
Definition condition_ok (schemas : list (list TypeId)) (p : AbstractExpression) : Prop :=
  expr_ok schemas p /\ GetReturnType p = BOOLEAN /\ exists b, IsPredicateTrue p = Ok b.

(** The types of the rows of the nodes with an arbitrary meaning. *)
Definition other_types (kind : PlanKind) : list TypeId :=
  match kind with
  | AggregationPlanNode keys aggs _ => (GetReturnType <$> keys) ++ replicate (length aggs) INTEGER
  | InsertPlanNode _ | UpdatePlanNode _ _ | DeletePlanNode _ => [INTEGER]
  | _ => []
  end.

Context (mock_types : list Z -> list TypeId).

Definition node_ok (out : list TypeId) (cs : list AbstractPlanNode) (kind : PlanKind) : Prop :=
  match kind, cs with
  | ValuesPlanNode values, [] => Forall (fun row => Forall (expr_ok []) row /\ GetReturnType <$> row = out) values
  | SeqScanPlanNode table_oid table_name None, [] =>
      exists ti, GetTable catalog_ table_oid = Some ti /\ ti_name_ ti = table_name /\ out = schema_types (ti_schema_ ti)
  | MockScanPlanNode table, [] => out = mock_types table
  | IndexScanPlanNode index_oid, [] =>
      exists table_oid a ti, index_on index_oid table_oid a /\ GetTable catalog_ table_oid = Some ti /\ out = schema_types (ti_schema_ ti)
  | FilterPlanNode p, [c] => condition_ok [plan_types c] p /\ out = plan_types c
  | ProjectionPlanNode exprs, [c] => Forall (expr_ok [plan_types c]) exprs /\ out = GetReturnType <$> exprs
  | SortPlanNode order_bys, [c] | TopNPlanNode order_bys _, [c] => Forall (expr_ok [plan_types c]) order_bys.*2 /\ out = plan_types c
  | LimitPlanNode _, [c] => out = plan_types c
  | NestedLoopJoinPlanNode p join_type, [l; r] =>
      condition_ok [plan_types l; plan_types r] p /\ (IsPredicateTrue p = Ok true -> join_type = INNER) /\
      out = plan_types l ++ plan_types r
  | NestedIndexJoinPlanNode _ table_oid _ _ _ inner _, [l] =>
      exists ti, GetTable catalog_ table_oid = Some ti /\ schema_types inner = schema_types (ti_schema_ ti) /\
        out = plan_types l ++ schema_types inner
  | HashJoinPlanNode _ _ _, [l; r] => out = plan_types l ++ plan_types r
  | AggregationPlanNode _ _ _, _ | InsertPlanNode _, _ | UpdatePlanNode _ _, _ | DeletePlanNode _, _ => out = other_types kind
  | _, _ => False
  end.
Fixpoint plan_ok (plan : AbstractPlanNode) : Prop :=
  let '(PlanNode out cs kind) := plan in
  node_ok (schema_types out) cs kind /\ foldr (fun c P => plan_ok c /\ P) True cs.

(** The rows of tables have the types of their columns. *)
Record data_ok : Prop := {
  do_tables oid ti : GetTable catalog_ oid = Some ti -> Forall (row_ok (schema_types (ti_schema_ ti))) (table_rows oid);
  do_mock table : Forall (row_ok (mock_types table)) (mock_rows table);
  do_other kind ls rows : other kind ls rows -> Forall (row_ok (other_types kind)) rows;
}.

(** Indexes as CREATE INDEX makes them, on one INTEGER column of their table, under its name; the columns of a table have
    different names. *)
Record indexes_made : Prop := {
  im_index index_oid ii : GetIndex catalog_ index_oid = Some ii ->
    exists table_oid ti a col, table_names_ catalog_ !! ii_table_name_ ii = Some table_oid /\ GetTable catalog_ table_oid = Some ti /\
      key_attrs_ (metadata_ (ii_index_ ii)) = [a] /\ 0 <= a /\ columns_ (ti_schema_ ti) !! Z.to_nat a = Some col /\
      column_type_ col = INTEGER /\ column_name_ <$> columns_ (ii_key_schema_ ii) = [column_name_ col];
  im_names table_oid ti : GetTable catalog_ table_oid = Some ti -> NoDup (column_name_ <$> columns_ (ti_schema_ ti));
}.

Lemma plan_ok_children out cs kind : plan_ok (PlanNode out cs kind) -> Forall plan_ok cs.
Proof. cbn. intros [_ H]. induction cs; cbn in *; constructor; [apply H|by apply IHcs, H]. Qed.

Lemma plan_ok_intro out cs kind : node_ok (schema_types out) cs kind -> Forall plan_ok cs -> plan_ok (PlanNode out cs kind).
Proof. intros Hn Hc. split; [done|]. clear Hn. induction Hc; cbn; auto. Qed.

(** *** Values have the types of their expressions *)

Lemma row_column_typed types row i t :
  row_ok types row -> 0 <= i -> types !! Z.to_nat i = Some t -> exists v, row_column row i = Ok v /\ type_id_ v = t.
Proof.
  unfold row_ok, row_column. intros <- Hi Ht. rewrite list_lookup_fmap in Ht. replace (i <? 0) with false by lia.
  destruct (row !! Z.to_nat i) as [v|]; [|done]. injection Ht as <-. by exists v.
Qed.

Lemma eval1_type types row e v : row_ok types row -> expr_ok [types] e -> eval1 row e = Ok v -> type_id_ v = GetReturnType e.
Proof.
  intros Hr. unfold eval1. destruct e as [k i t|val|op e1 e2|op e1 e2|op e1 e2]; cbn [eval_with expr_ok GetReturnType].
  - intros (Hk & Hi & types' & Hs & Ht) Hv. destruct (Z.to_nat k); [|by destruct n]. injection Hs as <-.
    destruct (row_column_typed types row i t Hr Hi Ht) as (w & Hw & <-). congruence.
  - by intros _ [= <-].
  - intros _. destruct (eval_with _ e1) as [a|]; cbn [rbind]; [|done]. destruct (eval_with _ e2) as [b|]; cbn [rbind]; [|done].
    pose proof (arithmetic_value_good op a b) as H. destruct (arithmetic_value op a b); [|done]. intros [= <-]. apply H.
  - intros _. destruct (eval_with _ e1) as [a|]; cbn [rbind]; [|done]. destruct (eval_with _ e2) as [b|]; cbn [rbind]; [|done].
    unfold comparison_value. destruct (PerformComparison op a b) as [c|]; cbn [rbind]; [|done].
    destruct (cmp_value_good c) as (w & -> & _ & Ht). by intros [= <-].
  - intros _. destruct (eval_with _ e1) as [a|]; cbn [rbind]; [|done]. destruct (eval_with _ e2) as [b|]; cbn [rbind]; [|done].
    unfold logic_value. destruct (PerformLogic op a b) as [c|]; cbn [rbind]; [|done].
    destruct (cmp_value_good c) as (w & -> & _ & Ht). by intros [= <-].
Qed.

Lemma expr_ok_closed types e : expr_ok [] e -> expr_ok [types] e.
Proof.
  induction e; cbn; [|done|naive_solver..]. intros (_ & _ & ts & H & _). by rewrite lookup_nil in H.
Qed.

Lemma project_type types row exprs out :
  row_ok types row -> Forall (expr_ok [types]) exprs -> project exprs row = Ok out -> row_ok (GetReturnType <$> exprs) out.
Proof.
  intros Hr He. unfold project. rewrite rseq_Ok. revert out. induction He as [|e exprs He _ IH]; intros [|v out]; cbn; try done.
  intros [= Hv Ho]. unfold row_ok in *. cbn. by rewrite (eval1_type types row e v), (IH out).
Qed.

(** *** Lists of rows *)

Lemma rfilter_Forall {A} (P : A -> Prop) f l l' : rfilter f l = Ok l' -> Forall P l -> Forall P l'.
Proof.
  intros E Hl. revert l' E. induction Hl as [|a l Ha _ IH]; intros l'; cbn; [intros [= <-]; constructor|].
  destruct (f a) as [b|]; cbn [rbind]; [|done]. destruct (rfilter f l) as [l1|]; cbn [rbind]; [|done].
  intros [= <-]. specialize (IH l1 eq_refl). destruct b; [by constructor|done].
Qed.

Lemma rseq_map_Forall {A B} (f : A -> result B) (P : A -> Prop) (Q : B -> Prop) l l' :
  (forall a b, P a -> f a = Ok b -> Q b) -> Forall P l -> rseq (List.map f l) = Ok l' -> Forall Q l'.
Proof.
  intros Hf Hl. rewrite rseq_Ok. revert l'. induction Hl as [|a l Ha _ IH]; intros [|b l']; cbn; try done.
  intros [= Hb Hl']. constructor; [by eapply Hf|by apply IH].
Qed.

Lemma null_row_type s n : null_row s = Ok n -> row_ok (schema_types s) n.
Proof.
  unfold null_row, row_ok. rewrite rseq_Ok. generalize (schema_types s). intros ts. revert n.
  induction ts as [|t ts IH]; intros [|v n]; cbn; try done. intros [= Hv Hn]. rewrite (IH n) by done. f_equal. destruct t; cbv in Hv; by simplify_eq.
Qed.

Lemma join_rows_typed tl tr jt inner m right ls rows :
  Forall (row_ok tl) ls -> (forall rs, right rs -> Forall (row_ok tr) rs) -> schema_types inner = tr ->
  join_rows jt inner m right ls rows -> Forall (row_ok (tl ++ tr)) rows.
Proof.
  intros Hl Hr Hi (gs & Hg & ->). apply Forall_concat. induction Hg as [|l g ls gs (rs & Hrs & Hj) _ IH]; [constructor|].
  apply Forall_cons in Hl as [Hl Hls]. constructor; [|by apply IH]. clear IH.
  assert (Hpair : forall ms, Forall (row_ok tr) ms -> Forall (row_ok (tl ++ tr)) (List.map (app l) ms)).
  { intros ms Hm. induction Hm as [|x ms Hx _ IHm]; cbn; constructor; [|done]. unfold row_ok in *. rewrite fmap_app. congruence. }
  unfold join_group in Hj. destruct jt; try done; destruct (rfilter (m l) rs) as [ms|] eqn:E; cbn [rbind] in Hj; try done;
    pose proof (rfilter_Forall _ _ _ _ E (Hr rs Hrs)) as Hm.
  - destruct ms as [|x ms]; [|by assert (g = List.map (app l) (x :: ms)) as -> by congruence; apply Hpair]. destruct (null_row inner) as [n|] eqn:En; cbn [rbind] in Hj; [|done].
    injection Hj as <-. constructor; [|constructor]. apply null_row_type in En. unfold row_ok in *. rewrite fmap_app. congruence.
  - injection Hj as <-. by apply Hpair.
Qed.

(** *** The rows of a plan have the types of its schema *)

Lemma index_on_fun i t a t' a' : index_on i t a -> index_on i t' a' -> t' = t /\ a' = a.
Proof. intros (ii & Hi & Ha & Ht) (ii' & Hi' & Ha' & Ht'). simplify_eq. split; congruence. Qed.

Lemma perm_Forall {A} (P : A -> Prop) (l l' : list A) : l ≡ₚ l' -> Forall P l' -> Forall P l.
Proof. by intros ->. Qed.

Lemma yields_typed : data_ok -> forall p rows, plan_ok p -> yields p rows -> Forall (row_ok (plan_types p)) rows.
Proof.
  intros Hd p. induction p as [out cs kind IH] using plan_ind. intros rows [Hn Hc] Hy.
  assert (Hcs : Forall (fun c => forall l, yields c l -> Forall (row_ok (plan_types c)) l) cs).
  { clear Hn Hy. induction IH as [|c cs Hcr _ IHcs]; constructor; [intros l; apply Hcr, Hc|apply IHcs, Hc]. }
  clear IH Hc. unfold plan_types in *; cbn [OutputSchema] in *. destruct kind; cbn [node_ok yields] in Hn, Hy.
  - destruct filter_predicate_; [by destruct cs|]. destruct cs; [|done]. destruct Hn as (ti & Ht & _ & ->), Hy as (l & Hl & ->).
    eapply perm_Forall; [exact Hl|]. by apply (do_tables Hd).
  - destruct cs; [|done]. destruct Hn as (t & a & ti & Hi & Ht & ->), Hy as (t' & a' & Hi' & Hl & _).
    destruct (index_on_fun _ _ _ _ _ Hi Hi') as [-> ->]. eapply perm_Forall; [exact Hl|]. by apply (do_tables Hd).
  - rewrite Hn. destruct Hy as (ls & _ & Hy). by eapply (do_other Hd).
  - rewrite Hn. destruct Hy as (ls & _ & Hy). by eapply (do_other Hd).
  - rewrite Hn. destruct Hy as (ls & _ & Hy). by eapply (do_other Hd).
  - rewrite Hn. destruct Hy as (ls & _ & Hy). by eapply (do_other Hd).
  - destruct cs as [|c [|]]; try done. rewrite Hn. destruct Hy as (l & Hl & ->). apply Forall_cons in Hcs as [Hc _]. by apply Forall_take, Hc.
  - destruct cs as [|l [|r [|]]]; try done. destruct Hn as (_ & _ & ->), Hy as (ls & Hl & Hj).
    apply Forall_cons in Hcs as [Hcl [Hcr _]%Forall_cons]. by eapply join_rows_typed; [apply Hcl| |..].
  - destruct cs as [|l [|]]; try done. destruct Hn as (ti & Ht & Hi & ->), Hy as (a & ls & _ & Hl & Hj).
    apply Forall_cons in Hcs as [Hcl _]. refine (join_rows_typed _ _ _ _ _ _ _ _ (Hcl ls Hl) _ eq_refl Hj).
    intros rs Hrs. rewrite Hi. eapply perm_Forall; [exact Hrs|]. by apply (do_tables Hd).
  - destruct cs as [|l [|r [|]]]; try done. rewrite Hn. destruct Hy as (ls & Hl & Hj).
    apply Forall_cons in Hcs as [Hcl [Hcr _]%Forall_cons]. by eapply join_rows_typed; [apply Hcl| |..].
  - destruct cs as [|c [|]]; try done. destruct Hn as [_ ->], Hy as (l & Hl & Hf). apply Forall_cons in Hcs as [Hc _].
    by eapply rfilter_Forall, Hc.
  - destruct cs; [|done]. eapply (rseq_map_Forall _ _ _ _ _ _ Hn Hy). Unshelve. intros es row [He Ht] Hp. rewrite <- Ht.
    eapply (project_type [] []); [done| |exact Hp]. eapply Forall_impl; [exact He|]. apply expr_ok_closed.
  - destruct cs as [|c [|]]; try done. destruct Hn as [He ->], Hy as (l & Hl & Hp). apply Forall_cons in Hcs as [Hc _].
    eapply rseq_map_Forall; [|by apply Hc|exact Hp]. intros row o Hr Ho. by eapply project_type.
  - destruct cs as [|c [|]]; try done. destruct Hn as [_ ->], Hy as (l & Hl & Hf & _). apply Forall_cons in Hcs as [Hc _].
    eapply perm_Forall; [exact Hf|by apply Hc].
  - destruct cs as [|c [|]]; try done. destruct Hn as [_ ->], Hy as (l & l' & Hl & Hf & _ & ->). apply Forall_cons in Hcs as [Hc _].
    apply Forall_take. eapply perm_Forall; [exact Hf|by apply Hc].
  - destruct cs; [|done]. rewrite Hn. eapply perm_Forall; [exact Hy|]. apply (do_mock Hd).
Qed.
Lemma yields_row p rows row : data_ok -> plan_ok p -> yields p rows -> row ∈ rows -> row_ok (plan_types p) row.
Proof. intros Hd Hp Hy. pose proof (yields_typed Hd p rows Hp Hy) as Hf. rewrite Forall_forall in Hf. apply Hf. Qed.

(** *** Equivalent plans *)

Definition same_rows (p q : AbstractPlanNode) : Prop :=
  OutputSchema q = OutputSchema p /\ forall rows, yields q rows <-> yields p rows.
(** What a rule keeps of a well-typed plan. *)
Definition kept (p q : AbstractPlanNode) : Prop := same_rows p q /\ plan_ok q.

#[local] Instance same_rows_refl : Reflexive same_rows.
Proof. by split. Qed.

Lemma kept_trans p q r : kept p q -> kept q r -> kept p r.
Proof.
  intros [[Hs Hy] _] [[Hs' Hy'] Hr]. split; [split; [congruence|]|done]. intros rows. by rewrite Hy'.
Qed.

Lemma kept_refl p : plan_ok p -> kept p p.
Proof. by intros. Qed.

Lemma join_rows_mono jt inner m m' right right' ls rows :
  (forall l rs g, l ∈ ls -> right rs -> join_group jt inner (m l) l rs = Ok g -> exists rs', right' rs' /\ join_group jt inner (m' l) l rs' = Ok g) ->
  join_rows jt inner m right ls rows -> join_rows jt inner m' right' ls rows.
Proof.
  intros H (gs & Hg & ->). exists gs. split; [|done]. apply Forall2_same_length_lookup. pose proof (Forall2_length _ _ _ Hg).
  split; [done|]. intros i l g Hl Hgi. destruct (Forall2_lookup_lr _ _ _ _ _ _ Hg Hl Hgi) as (rs & Hrs & Hj).
  apply (H l rs g); [by eapply list_elem_of_lookup_2|done|done].
Qed.

Lemma join_rows_ext jt inner m m' right right' ls rows :
  (forall l rs, l ∈ ls -> right rs -> join_group jt inner (m' l) l rs = join_group jt inner (m l) l rs) ->
  (forall rs, right' rs <-> right rs) ->
  join_rows jt inner m' right' ls rows <-> join_rows jt inner m right ls rows.
Proof.
  intros Hm Hr. split; apply join_rows_mono; intros l rs g Hl Hrs Hj; exists rs.
  - apply Hr in Hrs. split; [done|]. by rewrite <- Hm.
  - split; [by apply Hr|]. by rewrite Hm.
Qed.

Lemma same_rows_node out out' cs cs' k rows :
  Forall2 same_rows cs cs' -> yields (PlanNode out' cs' k) rows <-> yields (PlanNode out cs k) rows.
Proof.
  intros Hf.
  assert (Hother : forall ls : list (list Row),
    (fix all_yield (cs : list AbstractPlanNode) (ls : list (list Row)) : Prop :=
       match cs, ls with [], [] => True | c :: cs, l :: ls => yields c l /\ all_yield cs ls | _, _ => False end) cs' ls <->
    (fix all_yield (cs : list AbstractPlanNode) (ls : list (list Row)) : Prop :=
       match cs, ls with [], [] => True | c :: cs, l :: ls => yields c l /\ all_yield cs ls | _, _ => False end) cs ls).
  { induction Hf as [|c c' cs cs' [_ Hc] _ IH]; intros [|l ls]; try done. by rewrite Hc, IH. }
  destruct k; cbn [yields]; try (by setoid_rewrite Hother);
    (destruct Hf as [|c c' cs cs' [Hs Hc] Hf]; [try done; by setoid_rewrite Hother|]);
    (destruct Hf as [|d d' cs cs' [Hs' Hd] Hf]; [try (by setoid_rewrite Hc); try (by setoid_rewrite Hother)|]);
    try (by setoid_rewrite Hother); (destruct Hf; [|by setoid_rewrite Hother]); rewrite Hs'; setoid_rewrite Hc;
    f_equiv; intros ls; f_equiv; by apply join_rows_ext.
Qed.
Lemma node_ok_children types cs cs' k :
  Forall2 (fun c c' => plan_types c' = plan_types c) cs cs' -> node_ok types cs k -> node_ok types cs' k.
Proof.
  intros Hf. destruct k as [? ? []| | | | | | | | | | | | | | |]; cbn [node_ok]; try done;
    (destruct Hf as [|c c' cs cs' Hc Hf]; [done|]; try done); (destruct Hf as [|d d' cs cs' Hd Hf]; [by rewrite ?Hc|]; try done);
    (destruct Hf; [|done]); by rewrite Hc, Hd.
Qed.

Lemma kept_node out cs cs' k :
  plan_ok (PlanNode out cs k) -> Forall2 kept cs cs' ->
  kept (PlanNode out cs k) (PlanNode out cs' k) /\ plan_ok (PlanNode out cs' k).
Proof.
  intros [Hn _] Hf. cut (plan_ok (PlanNode out cs' k)).
  { intros Hp. split; [|done]. split; [|done]. split; [done|]. intros rows. apply same_rows_node.
    eapply Forall2_impl; [exact Hf|]. by intros ?? []. }
  apply plan_ok_intro.
  - eapply node_ok_children; [|exact Hn]. eapply Forall2_impl; [exact Hf|]. intros c c' [[Hs _] _]. unfold plan_types. by rewrite Hs.
  - clear Hn. induction Hf as [|c c' cs cs' [_ Hc] _ IH]; by constructor.
Qed.

(** A rule whose step keeps the rows of well-typed plans keeps those of whole plans. *)
Lemma bottom_up_kept step :
  (forall p, plan_ok p -> exists q, step p = Ok q /\ kept p q) -> forall p, plan_ok p -> exists q, bottom_up step p = Ok q /\ kept p q.
Proof.
  apply (bottom_up_total step plan_ok plan_ok_children kept); [apply kept_trans|apply kept_node].
Qed.

(** *** Merging an identical projection *)

Lemma identical_project row exprs : is_identical 0 exprs = true -> length exprs = length row -> project exprs row = Ok row.
Proof.
  intros Hi Hl. unfold project. apply rseq_Ok.
  cut (forall done_ rest i, row = done_ ++ rest -> i = zlen done_ -> is_identical i exprs = true -> length exprs = length rest ->
    List.map (eval1 row) exprs = List.map Ok rest).
  { intros H. by apply (H [] row 0). }
  clear Hi Hl. induction exprs as [|e exprs IH]; intros d rest i Hr Hi He Hl; [by destruct rest|]. destruct rest as [|v rest]; [done|].
  destruct e as [k j t| | | |]; cbn in He; try done. apply andb_true_iff in He as [[_ Hj%Z.eqb_eq]%andb_true_iff He].
  cbn [List.map]. f_equal.
  - unfold eval1, row_column; cbn. unfold zlen in Hi. replace (j <? 0) with false by lia. rewrite Hr, lookup_app_r by lia.
    by replace (Z.to_nat j - length d)%nat with 0%nat by lia.
  - apply (IH (d ++ [v]) rest (i + 1)); [by rewrite <- app_assoc| |done|by injection Hl].
    unfold zlen in *. rewrite length_app; cbn. lia.
Qed.

Lemma merge_projection_kept : data_ok -> forall p, plan_ok p -> exists q, merge_projection p = Ok q /\ kept p q.
Proof.
  intros Hd [out cs k] Hp. pose proof (kept_refl _ Hp) as Hrefl. cbn [merge_projection]. destruct k; try by eexists.
  destruct Hp as [Hn Hc]. destruct cs as [|c [|]]; try done. cbn in Hn, Hc. destruct Hn as [He Ht], Hc as [Hc _].
  destruct (bool_decide (schema_types (OutputSchema c) = schema_types out)) eqn:Et; cbn [andb]; [|by eexists].
  destruct (is_identical 0 expressions_) eqn:Ei; [|by eexists]. apply bool_decide_eq_true in Et. clear Hrefl.
  pose proof (yields_typed Hd c) as Hty. eexists. split; [done|]. destruct c as [cout ccs ck]. cbn [OutputSchema Plan_GetChildren plan_kind] in *.
  split; [split; [done|]|]. 2: { destruct Hc as [Hn Hcc]. split; [by rewrite <- Et|done]. }
  intros rows. rewrite (same_rows_node cout out ccs ccs ck rows) by (apply (reflexivity (R := Forall2 _))). cbn [yields].
  assert (Hid : forall l, yields (PlanNode cout ccs ck) l -> rseq (List.map (project expressions_) l) = Ok l).
  { intros l Hl%(Hty l Hc). apply rseq_Ok. apply List.map_ext_Forall. eapply Forall_impl; [exact Hl|]. intros row Hr.
    apply identical_project; [done|]. apply (f_equal length) in Ht. rewrite length_fmap in Ht.
    unfold row_ok in Hr. apply (f_equal length) in Hr. rewrite length_fmap in Hr. unfold plan_types in Hr; cbn in Hr. congruence. }
  split.
  - intros Hl. exists rows. split; [done|]. by apply Hid.
  - intros (l & Hl & Hp). rewrite Hid in Hp by done. by injection Hp as <-.
Qed.
(** *** Moving a filter into a join *)

Lemma rewrite_row tl tr e :
  expr_ok [tl ++ tr] e -> exists e', RewriteExpressionForJoin e (zlen tl) (zlen tr) = Ok e' /\ expr_ok [tl; tr] e' /\
    GetReturnType e' = GetReturnType e /\ IsPredicateTrue e' = IsPredicateTrue e /\
    forall l r, row_ok tl l -> row_ok tr r -> eval2 l r e' = eval1 (l ++ r) e.
Proof.
  induction e as [k i t|val|op e1 IH1 e2 IH2|op e1 IH1 e2 IH2|op e1 IH1 e2 IH2]; cbn [expr_ok RewriteExpressionForJoin].
  3-5: intros (H1 & H2 & T); destruct (IH1 H1) as (a & -> & A1 & A2 & _ & A3), (IH2 H2) as (b & -> & B1 & B2 & _ & B3);
    eexists; (split_and!; [done|cbn; rewrite A2, B2; exact (conj A1 (conj B1 T))|done|done|]); intros l r Hl Hr; unfold eval1, eval2 in *; cbn [eval_with];
    by rewrite A3, B3.
  - intros (Hk & Hi & types & Hs & Ht). destruct (Z.to_nat k) as [|n] eqn:Ek; [|by destruct n]. injection Hs as <-.
    replace (k =? 0) with true by lia. cbn [ensure]. pose proof (lookup_lt_Some _ _ _ Ht) as Hlt. rewrite length_app in Hlt.
    assert (Hlen : forall (ts : list TypeId) row, row_ok ts row -> length row = length ts) by (intros ts row <-; by rewrite length_fmap).
    unfold zlen. destruct (Z.ltb_spec i (Z.of_nat (length tl))) as [Hc|Hc].
    + rewrite lookup_app_l in Ht by lia. eexists. split_and!; [done|cbn; split_and!; [lia|lia|by exists tl]|done|done|].
      intros l r Hl%Hlen _. unfold eval1, eval2, row_column; cbn. by rewrite lookup_app_l by lia.
    + destruct (Z.leb_spec (Z.of_nat (length tl)) i); [|lia].
      destruct (Z.ltb_spec i (Z.of_nat (length tl) + Z.of_nat (length tr))); [|lia]. cbn [andb].
      rewrite lookup_app_r in Ht by lia. eexists. split_and!; [done| |done|done|].
      * cbn. split_and!; [lia|lia|]. exists tr. split; [done|]. rewrite <- Ht. f_equal. lia.
      * intros l r Hl%Hlen _. unfold eval1, eval2, row_column; cbn. replace (i - Z.of_nat (length tl) <? 0) with false by lia.
        replace (i <? 0) with false by lia. rewrite lookup_app_r by lia.
        by replace (Z.to_nat (i - Z.of_nat (length tl))) with (Z.to_nat i - length l)%nat by lia.
  - intros Hv. by eexists.
Qed.

Lemma constant_true p l r schemas : condition_ok schemas p -> IsPredicateTrue p = Ok true -> holds2 p l r = Ok true.
Proof.
  intros (He & Ht & _). destruct p as [|v| | |]; try done. cbn in He, Ht. destruct He as [_ He]. destruct (He Ht) as [c Hc].
  destruct c; cbv in Hc; simplify_eq; by vm_compute.
Qed.

Lemma rfilter_ext {A} (f f' : A -> result bool) l : (forall a, a ∈ l -> f' a = f a) -> rfilter f' l = rfilter f l.
Proof. induction l as [|a l IH]; intros H; cbn; [done|]. rewrite IH, H; [done|set_solver..]. Qed.

Lemma rfilter_all {A} (f : A -> result bool) l : (forall a, f a = Ok true) -> rfilter f l = Ok l.
Proof. intros H. induction l as [|a l IH]; cbn; [done|]. by rewrite H, IH. Qed.

Lemma rfilter_map {A B} (f : B -> result bool) (h : A -> B) l :
  rfilter f (List.map h l) = let! ms := rfilter (fun a => f (h a)) l in Ok (List.map h ms).
Proof.
  induction l as [|a l IH]; cbn; [done|]. destruct (f (h a)) as [b|]; cbn; [|done]. rewrite IH.
  destruct (rfilter _ l) as [ms|]; cbn; [|done]. by destruct b.
Qed.

Lemma rfilter_app {A} (f : A -> result bool) l l' :
  rfilter f (l ++ l') = let! m := rfilter f l in let! m' := rfilter f l' in Ok (m ++ m').
Proof.
  induction l as [|a l IH]; cbn; [by destruct (rfilter f l')|]. destruct (f a) as [b|]; cbn; [|done]. rewrite IH.
  destruct (rfilter f l) as [m|]; cbn; [|done]. destruct (rfilter f l'); cbn; [|done]. by destruct b.
Qed.

Lemma rfilter_concat {A} (f : A -> result bool) gs rows :
  rfilter f (concat gs) = Ok rows <-> exists gs', Forall2 (fun g g' => rfilter f g = Ok g') gs gs' /\ rows = concat gs'.
Proof.
  split.
  - revert rows. induction gs as [|g gs IH]; cbn; intros rows; [intros [= <-]; exists []; by split|]. rewrite rfilter_app.
    destruct (rfilter f g) as [m|] eqn:E; cbn [rbind]; [|done]. destruct (rfilter f (concat gs)) as [m'|]; cbn [rbind]; [|done].
    intros [= <-]. destruct (IH m' eq_refl) as (gs' & Hg & ->). exists (m :: gs'). split; [by constructor|done].
  - intros (gs' & Hg & ->). induction Hg as [|g g' gs gs' Hg _ IH]; cbn; [done|]. by rewrite rfilter_app, Hg, IH.
Qed.
(** Filtering the pairs of rows of a cross product is joining with the condition. *)
Lemma filter_join inner p p' t right ls rows :
  (forall l r, holds2 t l r = Ok true) ->
  (forall l rs, l ∈ ls -> right rs -> forall r, r ∈ rs -> holds2 p' l r = holds1 p (l ++ r)) ->
  (exists rows0, join_rows INNER inner (holds2 t) right ls rows0 /\ rfilter (holds1 p) rows0 = Ok rows) <->
  join_rows INNER inner (holds2 p') right ls rows.
Proof.
  intros Ht Hp.
  assert (Hall : forall l rs, join_group INNER inner (holds2 t l) l rs = Ok (List.map (app l) rs)).
  { intros l rs. unfold join_group. by rewrite rfilter_all. }
  assert (Hgroup : forall l rs, l ∈ ls -> right rs ->
    join_group INNER inner (holds2 p' l) l rs = rfilter (holds1 p) (List.map (app l) rs)).
  { intros l rs Hl Hrs. unfold join_group. rewrite rfilter_map. by rewrite (rfilter_ext (fun r => holds1 p (l ++ r))) by eauto. }
  clear Hp. split.
  - intros (rows0 & (gs & Hg & ->) & Hf). apply rfilter_concat in Hf as (gs' & Hf & ->). exists gs'. split; [|done].
    revert gs' Hf. induction Hg as [|l g ls gs (rs & Hrs & Hj) _ IH]; intros gs' Hf; inversion Hf as [|? g' ? gs'' Hg' Hf']; subst; constructor.
    + exists rs. split; [done|]. rewrite Hgroup by (done || constructor). rewrite Hall in Hj. by injection Hj as <-.
    + apply IH; [|done]. intros. apply Hgroup; [by constructor|done].
  - intros (gs' & Hg & ->).
    cut (exists gs, Forall2 (fun l g => exists rs, right rs /\ join_group INNER inner (holds2 t l) l rs = Ok g) ls gs /\
                    Forall2 (fun g g' => rfilter (holds1 p) g = Ok g') gs gs').
    { intros (gs & H1 & H2). exists (concat gs). split; [by exists gs|]. apply rfilter_concat. by exists gs'. }
    induction Hg as [|l g ls gs' (rs & Hrs & Hj) _ IH]; [by exists []|]. destruct IH as (gs & H1 & H2).
    { intros. apply Hgroup; [by constructor|done]. }
    exists (List.map (app l) rs :: gs). split; constructor; try done.
    + exists rs. by split.
    + rewrite <- Hgroup; [done|constructor|done].
Qed.

Lemma merge_filter_nlj_kept : data_ok -> forall p, plan_ok p -> exists q, merge_filter_nlj p = Ok q /\ kept p q.
Proof.
  intros Hd [out cs k] Hp. pose proof (kept_refl _ Hp) as Hrefl. cbn [merge_filter_nlj]. destruct k; try by eexists.
  destruct Hp as [Hn Hc]. destruct cs as [|[nout ncs nk] [|]]; try done. destruct nk; try by eexists.
  cbn in Hn, Hc. destruct Hn as ((He & Hb & b0 & Hb0) & Ho), Hc as [[Hj Hcs] _].
  destruct ncs as [|l [|r [|]]]; try done. cbn in Hj, Hcs. destruct Hj as (Hcond & Hinner & Hty), Hcs as (Hl & Hr & _).
  pose proof Hcond as (_ & _ & b & Eb). rewrite Eb. cbn [rbind]. destruct b; [|by eexists]. clear Hrefl.
  rewrite (Hinner Eb). clear Hinner. unfold plan_types at 1 in He; cbn [OutputSchema] in He. rewrite Hty in He.
  assert (Hcount : forall c, column_count c = zlen (plan_types c)).
  { intros c. unfold column_count, plan_types, schema_types, zlen. by rewrite length_fmap. }
  destruct (rewrite_row _ _ _ He) as (e' & He' & Hok & Hret & Htrue & Hval). rewrite !Hcount, He'. cbn [rbind].
  eexists. split; [done|]. split; [split; [done|]|].
  - intros rows.
    assert (Hjoin : forall ls, yields l ls -> _) by (intros ls Hls; apply (filter_join (OutputSchema r) predicate_ e' predicate_0 (yields r) ls rows);
      [intros; by eapply constant_true|]; intros lrow rs Hlr Hrs rrow Hrr; unfold holds1, holds2;
      by rewrite Hval by eauto using yields_row).
    cbn [yields]. split.
    + intros (ls & Hls & Hjr). apply Hjoin in Hjr as (rows0 & H1 & H2); [|done]. exists rows0. split; [by exists ls|done].
    + intros (rows0 & (ls & Hls & Hjr) & Hf). exists ls. split; [done|]. apply Hjoin; [done|]. by exists rows0.
  - apply plan_ok_intro; [|by repeat constructor]. cbn. split_and!; [|done|].
    + split; [done|]. split; [congruence|]. exists b0. congruence.
    + rewrite Ho. by unfold plan_types.
Qed.
(** *** Using an index *)

Context (iteration : gmap (list Z) Z -> list (list Z * Z)) (iteration_perm : forall m, iteration m ≡ₚ map_to_list m).

Lemma integer_equals_sym v w : type_id_ v = INTEGER -> type_id_ w = INTEGER -> comparison_value Equal v w = comparison_value Equal w v.
Proof.
  intros Hv Hw. unfold comparison_value, PerformComparison, Value_CompareEquals. rewrite Hv, Hw. cbn.
  unfold IntegerType_CompareEquals, CheckInteger, CheckComparable. rewrite Hv, Hw. cbn [massert].
  rewrite (orb_comm (IsNull v)). destruct (IsNull w || IsNull v); [done|]. unfold INT_COMPARE_FUNC, INT_COMPARE. rewrite Hv, Hw.
  cbn [rbind cmpZ]. by rewrite Z.eqb_sym.
Qed.

Lemma listed_index oid ti ii l :
  catalog_ok catalog_ -> GetTable catalog_ oid = Some ti -> GetTableIndexes iteration catalog_ (ti_name_ ti) = Ok l -> ii ∈ l ->
  GetIndex catalog_ (ii_index_oid_ ii) = Some ii /\ table_names_ catalog_ !! ii_table_name_ ii = Some oid.
Proof.
  intros Hok Ht Hl Hin. destruct (GetTableIndexes_ok iteration iteration_perm catalog_ (ti_name_ ti) Hok) as (l' & Hl' & _ & Hel).
  rewrite Hl in Hl'. injection Hl' as <-. apply Hel in Hin as [Hi ->]. split; [done|]. by apply (ok_tables _ Hok) in Ht as (_ & _ & Ht).
Qed.

Lemma MatchIndex_ok oid ti a :
  catalog_ok catalog_ -> GetTable catalog_ oid = Some ti ->
  exists r, MatchIndex iteration catalog_ (ti_name_ ti) a = Ok r /\ forall i n, r = Some (i, n) -> index_on i oid a.
Proof.
  intros Hok Ht. destruct (GetTableIndexes_ok iteration iteration_perm catalog_ (ti_name_ ti) Hok) as (l & Hl & _).
  unfold MatchIndex. rewrite Hl. cbn [rbind]. eexists. split; [done|]. intros i n.
  destruct (list_find _ l) as [[j ii]|] eqn:Ef; [|done]. intros [= <- <-]. apply list_find_Some in Ef as (Hj & Ha & _).
  destruct (listed_index oid ti ii l Hok Ht Hl) as [Hi Hn]; [by eapply list_elem_of_lookup_2|]. by exists ii.
Qed.

Lemma index_join_kept out l rout oid name p jt key i n a :
  data_ok -> plan_ok (PlanNode out [l; PlanNode rout [] (SeqScanPlanNode oid name None)] (NestedLoopJoinPlanNode p jt)) -> index_on i oid a ->
  (forall lrow rrow, row_ok (plan_types l) lrow -> row_ok (schema_types rout) rrow -> same_key key a lrow rrow = holds2 p lrow rrow) ->
  kept (PlanNode out [l; PlanNode rout [] (SeqScanPlanNode oid name None)] (NestedLoopJoinPlanNode p jt))
    (PlanNode out [l] (NestedIndexJoinPlanNode key oid i n name rout jt)).
Proof.
  intros Hd [Hn Hc] Hi Hm. cbn in Hn, Hc. destruct Hn as (_ & _ & Ho), Hc as (Hl & ((ti & Ht & Hname & Hty) & _) & _).
  split; [split; [done|]|].
  - intros rows. cbn [yields OutputSchema].
    assert (Hjoin : forall ls, yields l ls -> join_rows jt rout (same_key key a) (fun rs => rs ≡ₚ table_rows oid) ls rows <->
      join_rows jt rout (holds2 p) (fun rs => exists l0, l0 ≡ₚ table_rows oid /\ rs = l0) ls rows).
    { intros ls Hls. apply join_rows_ext; [|naive_solver]. intros lrow rs Hlr (l0 & Hrs & ->). unfold join_group.
      rewrite (rfilter_ext (holds2 p lrow)); [done|]. intros rrow Hrr. apply Hm; [by eapply yields_row|].
      rewrite Hty. pose proof (do_tables Hd _ _ Ht) as Hf. rewrite Forall_forall in Hf. apply Hf. by rewrite <- Hrs. }
    split.
    + intros (a' & ls & Hi' & Hls & Hj). destruct (index_on_fun _ _ _ _ _ Hi Hi') as [_ ->]. exists ls. split; [done|]. by apply Hjoin.
    + intros (ls & Hls & Hj). exists a, ls. split_and!; [done|done|]. by apply Hjoin.
  - apply plan_ok_intro; [|by repeat constructor]. exists ti. by rewrite <- Hty.
Qed.
(** The column an index is on, and the only columns of an index and a table with the same name. *)
Lemma index_column i oid ti a :
  indexes_made -> index_on i oid a -> GetTable catalog_ oid = Some ti -> 0 <= a /\ schema_types (ti_schema_ ti) !! Z.to_nat a = Some INTEGER.
Proof.
  intros Hm (ii & Hi & Ha & Ht) Hti. destruct (im_index Hm i ii Hi) as (oid' & ti' & a' & col & Ht' & Hti' & Ha' & Hp & Hc & Hty & _).
  simplify_eq. assert (a' = a) as -> by congruence. split; [done|]. unfold schema_types. rewrite list_lookup_fmap, Hc. cbn. congruence.
Qed.

Lemma index_join_step out l rout oid ti p jt a key (otherwise : result AbstractPlanNode) :
  data_ok -> catalog_ok catalog_ -> GetTable catalog_ oid = Some ti ->
  let plan := PlanNode out [l; PlanNode rout [] (SeqScanPlanNode oid (ti_name_ ti) None)] (NestedLoopJoinPlanNode p jt) in
  plan_ok plan ->
  (forall i, index_on i oid a -> forall lrow rrow, row_ok (plan_types l) lrow -> row_ok (schema_types rout) rrow ->
    same_key key a lrow rrow = holds2 p lrow rrow) ->
  (exists q, otherwise = Ok q /\ kept plan q) ->
  exists q, (let! index := MatchIndex iteration catalog_ (ti_name_ ti) a in
    match index with
    | Some (i, n) => Ok (PlanNode out [l] (NestedIndexJoinPlanNode key oid i n (ti_name_ ti) rout jt))
    | None => otherwise
    end) = Ok q /\ kept plan q.
Proof.
  intros Hd Hok Ht plan Hp Hkey Ho. destruct (MatchIndex_ok oid ti a Hok Ht) as (r & -> & Hr). cbn [rbind].
  destruct r as [[i n]|]; [|done]. specialize (Hr i n eq_refl). eexists. split; [done|]. eapply index_join_kept; eauto.
Qed.

(** The equality with the column of the inner table on the left. *)
Lemma same_key_reversed i1 i2 t l r tl tr :
  row_ok tl l -> row_ok tr r -> 0 <= i1 -> 0 <= i2 -> tr !! Z.to_nat i1 = Some INTEGER -> tl !! Z.to_nat i2 = Some INTEGER ->
  same_key (ColumnValueExpression 0 i2 t) i1 l r =
  holds2 (ComparisonExpression Equal (ColumnValueExpression 1 i1 t) (ColumnValueExpression 0 i2 t)) l r.
Proof.
  intros Hl Hr H1 H2 T1 T2. unfold same_key, holds2, eval1, eval2; cbn [eval_with Z.eqb].
  destruct (row_column_typed _ _ _ _ Hl H2 T2) as (v & -> & Hv), (row_column_typed _ _ _ _ Hr H1 T1) as (w & -> & Hw).
  cbn [rbind]. by rewrite integer_equals_sym.
Qed.

Lemma nlj_as_index_join_kept :
  data_ok -> catalog_ok catalog_ -> indexes_made ->
  forall p, plan_ok p -> exists q, nlj_as_index_join iteration catalog_ p = Ok q /\ kept p q.
Proof.
  intros Hd Hok Hm [out cs k] Hp. pose proof (kept_refl _ Hp) as Hrefl. cbn [nlj_as_index_join]. destruct k; try by eexists.
  pose proof Hp as [Hn Hc]. destruct cs as [|l [|[rout rcs rk] [|]]]; try done. cbn in Hn, Hc.
  destruct Hn as ((He & _) & _ & _), Hc as (_ & Hr & _).
  destruct predicate_ as [| | |[] [k1 i1 t1| | | |] [k2 i2 t2| | | |]|]; try by eexists. cbn [column_equality].
  destruct rk; try by eexists. destruct filter_predicate_; [by destruct rcs, Hr|]. destruct rcs; [|by destruct Hr].
  destruct Hr as ((ti & Ht & <- & Hty) & _).
  destruct He as ((Hk1 & Hi1 & ts1 & Hs1 & Ht1) & (Hk2 & Hi2 & ts2 & Hs2 & Ht2) & Het). cbn in Het. subst t2.
  destruct (Z.eqb_spec k1 0) as [->|], (Z.eqb_spec k2 1) as [->|]; cbn [andb Z.eqb]; rewrite ?andb_false_r; try (by eexists).
  - apply index_join_step; try done. cbn [Z.eqb andb]. by eexists.
  - destruct (Z.eqb_spec k1 1) as [->|], (Z.eqb_spec k2 0) as [->|]; cbn [andb]; try by eexists.
    injection Hs1 as <-. injection Hs2 as <-. apply index_join_step; try done; [|by eexists]. intros i Hi lrow rrow Hl Hr.
    destruct (index_column i _ _ _ Hm Hi Ht) as [_ Hint]. unfold plan_types in Ht1; cbn in Ht1. rewrite Hty in Ht1.
    rewrite Ht1 in Hint. injection Hint as ->. eapply same_key_reversed; [done|done|done|done|by rewrite Hty|done].
Qed.
Lemma find_order_index_ok oid ti i l :
  catalog_ok catalog_ -> indexes_made -> GetTable catalog_ oid = Some ti -> 0 <= i -> is_Some (schema_types (ti_schema_ ti) !! Z.to_nat i) ->
  (forall ii, ii ∈ l -> GetIndex catalog_ (ii_index_oid_ ii) = Some ii /\ table_names_ catalog_ !! ii_table_name_ ii = Some oid) ->
  exists r, find_order_index ti i l = Ok r /\ forall index, r = Some index -> index_on index oid i.
Proof.
  intros Hok Hm Ht Hi [t Hty] Hl. unfold schema_types in Hty. rewrite list_lookup_fmap in Hty.
  destruct (columns_ (ti_schema_ ti) !! Z.to_nat i) as [c|] eqn:Ec; [|done]. clear Hty.
  induction l as [|ii l IH]; [by eexists|]. destruct IH as (r & Hr & Hr'); [set_solver|]. destruct (Hl ii) as [Hii Hn]; [constructor|].
  destruct (im_index Hm _ _ Hii) as (oid' & ti' & a & col & Hn' & Ht' & Ha & Hp & Hcol & _ & Hnames).
  rewrite Hn in Hn'. injection Hn' as <-. rewrite Ht in Ht'. injection Ht' as <-.
  cbn [find_order_index]. destruct (columns_ (ii_key_schema_ ii)) as [|kc [|]]; try done. cbn in Hnames. injection Hnames as Hnames.
  unfold GetColumn. replace (i <? 0) with false by lia. rewrite Ec. cbn [rbind].
  destruct (bool_decide_reflect (column_name_ kc = column_name_ c)) as [He|]; [|by eexists].
  eexists. split; [done|]. intros index [= <-]. exists ii. split_and!; [done| |done]. rewrite Ha. f_equal.
  enough (Z.to_nat a = Z.to_nat i) by lia. eapply (NoDup_lookup _ _ _ (column_name_ c) (im_names Hm _ _ Ht)).
  - rewrite list_lookup_fmap, Hcol. cbn. congruence.
  - by rewrite list_lookup_fmap, Ec.
Qed.

Lemma order_by_index_scan_kept :
  catalog_ok catalog_ -> indexes_made -> forall p, plan_ok p -> exists q, order_by_index_scan iteration catalog_ p = Ok q /\ kept p q.
Proof.
  intros Hok Hm [out cs k] Hp. pose proof (kept_refl _ Hp) as Hrefl. cbn [order_by_index_scan]. destruct k; try by eexists.
  destruct order_bys_ as [|[ot [k i t| | | |]] [|]]; try by eexists.
  destruct (bool_decide (ot = ASC) || bool_decide (ot = DEFAULT)) eqn:Eo; [|by eexists].
  destruct Hp as [Hn Hc]. destruct cs as [|[cout ccs ck] [|]]; try done. cbn in Hn, Hc. destruct ck; try by eexists.
  destruct filter_predicate_; [by destruct Hc as [Hc _], ccs, Hc|]. destruct ccs; [|by destruct Hc as [[] _]].
  destruct Hc as [[(ti & Ht & Hname & Hty) _] _], Hn as [He Hout]. rewrite Ht.
  apply Forall_cons in He as [(_ & Hi & ts & Hs & Hti) _]. unfold plan_types in Hs, Hout; cbn [OutputSchema] in Hs, Hout.
  destruct (Z.to_nat k) as [|[]]; [|done..]. injection Hs as <-.
  destruct (GetTableIndexes_ok iteration iteration_perm catalog_ (ti_name_ ti) Hok) as (l & Hl & _). rewrite Hl. cbn [rbind].
  destruct (find_order_index_ok table_oid_ ti i l) as (r & -> & Hr); [done|done|done|done|by rewrite <- Hty; eexists|..].
  { intros ii Hii. by eapply listed_index. }
  cbn [rbind]. destruct r as [index|]; [|by eexists]. specialize (Hr index eq_refl). clear Hrefl.
  eexists. split; [done|]. split; [split; [done|]|].
  - intros rows. assert (Hord : ordered [(ot, ColumnValueExpression k i t)] rows = ordered [(ASC, ColumnValueExpression 0 i INTEGER)] rows) by (by destruct ot).
    cbn [yields]. rewrite Hord. split.
    + intros (oid & a & Hon & Hrows & Ho). destruct (index_on_fun _ _ _ _ _ Hr Hon) as [-> ->].
      exists (table_rows table_oid_). split_and!; [by exists (table_rows table_oid_)|done|done].
    + intros (? & (l' & Hl' & ->) & Hrows & Ho). exists table_oid_, i. split_and!; [done|by rewrite Hrows|done].
  - apply plan_ok_intro; [|constructor]. exists table_oid_, i, ti. split_and!; [done|done|]. by rewrite Hout.
Qed.

(** *** The optimizer *)

Lemma Optimize_kept force p :
  data_ok -> catalog_ok catalog_ -> indexes_made -> plan_ok p -> exists q, Optimize iteration catalog_ force p = Ok q /\ kept p q.
Proof.
  intros Hd Hok Hm Hp. replace (Optimize iteration catalog_ force p) with (OptimizeCustom iteration catalog_ p) by (by destruct force).
  unfold OptimizeCustom.
  destruct (bottom_up_kept _ (merge_projection_kept Hd) p Hp) as (q1 & E1 & K1). unfold OptimizeMergeProjection. rewrite E1. cbn [rbind].
  destruct (bottom_up_kept _ (merge_filter_nlj_kept Hd) q1 (proj2 K1)) as (q2 & E2 & K2). unfold OptimizeMergeFilterNLJ. rewrite E2. cbn [rbind].
  destruct (bottom_up_kept _ (nlj_as_index_join_kept Hd Hok Hm) q2 (proj2 K2)) as (q3 & E3 & K3). unfold OptimizeNLJAsIndexJoin. rewrite E3. cbn [rbind].
  destruct (bottom_up_kept _ (order_by_index_scan_kept Hok Hm) q3 (proj2 K3)) as (q4 & E4 & K4). unfold OptimizeOrderByAsIndexScan. rewrite E4. cbn [rbind].
  exists q4. split; [done|]. eauto using kept_trans.
Qed.
(** ** Properties *)

End semantics.

(** ** Rows and tuples *)

Lemma eval1_Evaluate tuple s vs e : reads tuple s vs -> expr_ok [type_id_ <$> vs] e -> eval1 vs e = Evaluate e tuple s.
Proof.
  intros Hr. unfold eval1. induction e as [k i t|val|op e1 IH1 e2 IH2|op e1 IH1 e2 IH2|op e1 IH1 e2 IH2]; cbn [expr_ok eval_with Evaluate].
  3-5: intros (H1 & H2 & _); by rewrite IH1, IH2.
  - intros (_ & Hi & types & Hs & Ht). destruct (Z.to_nat k) as [|[]]; [|done..]. injection Hs as <-.
    rewrite list_lookup_fmap in Ht. unfold row_column. replace (i <? 0) with false by lia.
    destruct (vs !! Z.to_nat i) as [v|] eqn:Ev; [|done]. by rewrite (Hr i v).
  - done.
Qed.

Lemma eval2_EvaluateJoin tl tr sl sr l r e :
  reads tl sl l -> reads tr sr r -> expr_ok [type_id_ <$> l; type_id_ <$> r] e -> eval2 l r e = EvaluateJoin e tl sl tr sr.
Proof.
  intros Hl Hr. unfold eval2. induction e as [k i t|val|op e1 IH1 e2 IH2|op e1 IH1 e2 IH2|op e1 IH1 e2 IH2]; cbn [expr_ok eval_with EvaluateJoin].
  3-5: intros (H1 & H2 & _); by rewrite IH1, IH2.
  - intros (Hk & Hi & types & Hs & Ht). unfold row_column. replace (i <? 0) with false by lia.
    destruct (Z.eqb_spec k 0) as [->|].
    + injection Hs as <-. rewrite list_lookup_fmap in Ht. destruct (l !! Z.to_nat i) as [v|] eqn:Ev; [|done]. by rewrite (Hl i v).
    + destruct (Z.to_nat k) as [|[]] eqn:Ek; [lia| |done]. injection Hs as <-. rewrite list_lookup_fmap in Ht.
      destruct (r !! Z.to_nat i) as [v|] eqn:Ev; [|done]. by rewrite (Hr i v).
  - done.
Qed.

(** ** Examples *)

(** A table [t] of numbers with an index. *)
Definition numbers_table : TableInfo := mkTableInfo (Schema_ctor [number_column]) (str "t") None 0.
Definition numbers_index : IndexInfo :=
  mkIndexInfo (Schema_ctor [number_column]) (str "i")
    (BPlusTreeIndex_ctor 8 (mkMetadata (str "i") (str "t") [0] (Schema_ctor [number_column]))) 0 (str "t") 4.
Definition numbers_catalog : Catalog := add_index (add_table Catalog_ctor numbers_table) ∅ numbers_index.

Definition number_rows (numbers : list Z) : list Row := (fun n => [VInt INTEGER n]) <$> numbers.

(** [SELECT * FROM (SELECT * FROM t ORDER BY number) a, t b WHERE a.number = b.number], as planned. *)
Definition numbers_scan : AbstractPlanNode := PlanNode (Schema_ctor [number_column]) [] (SeqScanPlanNode 0 (str "t") None).
Definition pair_schema : Schema := Schema_ctor [number_column; number_column].
Definition cross_join (l r : AbstractPlanNode) : AbstractPlanNode :=
  PlanNode pair_schema [l; r] (NestedLoopJoinPlanNode (ConstantValueExpression (VInt BOOLEAN 1)) INNER).
Definition numbers_query : AbstractPlanNode :=
  PlanNode pair_schema
    [PlanNode pair_schema
       [cross_join (PlanNode (Schema_ctor [number_column]) [numbers_scan] (SortPlanNode [(DEFAULT, ColumnValueExpression 0 0 INTEGER)])) numbers_scan]
       (FilterPlanNode pair_predicate)]
    (ProjectionPlanNode [ColumnValueExpression 0 0 INTEGER; ColumnValueExpression 0 1 INTEGER]).
Definition numbers_optimized : AbstractPlanNode :=
  PlanNode pair_schema [PlanNode (Schema_ctor [number_column]) [] (IndexScanPlanNode 0)]
    (NestedIndexJoinPlanNode (ColumnValueExpression 0 0 INTEGER) 0 0 (str "i") (str "t") (Schema_ctor [number_column]) INNER).

Lemma numbers_catalog_ok : catalog_ok numbers_catalog.
Proof.
  apply add_index_ok; [|done|by vm_compute|done]. apply add_table_ok; [apply Catalog_ctor_ok|done|done].
Qed.

Lemma numbers_indexes : indexes_made numbers_catalog.
Proof.
  split.
  - unfold GetIndex; cbn. intros oid ii [[<- <-]|[_ H]]%lookup_insert_Some; [|by rewrite lookup_empty in H].
    exists 0, numbers_table, 0, number_column. by split_and!.
  - unfold GetTable; cbn. intros oid ti [[<- <-]|[_ H]]%lookup_insert_Some; [|by rewrite lookup_empty in H]. repeat constructor. set_solver.
Qed.

Lemma number_rows_ok numbers : Forall (row_ok [INTEGER]) (number_rows numbers).
Proof. induction numbers; constructor; done. Qed.

Lemma numbers_data numbers :
  data_ok numbers_catalog (const (number_rows numbers)) (const []) (fun _ _ _ => False) (const []).
Proof.
  split; [|constructor|done]. unfold GetTable; cbn. intros oid ti [[<- <-]|[_ H]]%lookup_insert_Some; [|by rewrite lookup_empty in H].
  apply number_rows_ok.
Qed.

Lemma numbers_scan_ok : plan_ok numbers_catalog (const []) numbers_scan.
Proof. split; [|done]. by exists numbers_table. Qed.

Lemma true_ok schemas : condition_ok schemas (ConstantValueExpression (VInt BOOLEAN 1)).
Proof. split; [|by split; [|exists true; vm_compute]]. split; [by vm_compute|]. intros _. by exists CmpTrue. Qed.

Lemma numbers_query_ok : plan_ok numbers_catalog (const []) numbers_query.
Proof.
  assert (H0 : expr_ok [[INTEGER]] (ColumnValueExpression 0 0 INTEGER)) by (split_and!; [done|done|by eexists]).
  assert (H1 : forall i, i = 0 \/ i = 1 -> expr_ok [[INTEGER; INTEGER]] (ColumnValueExpression 0 i INTEGER)).
  { intros i [-> | ->]; (split_and!; [done|done|by eexists]). }
  assert (He : condition_ok [[INTEGER; INTEGER]] pair_predicate).
  { split; [|by split; [|exists false]]. split; [|split; [|done]]; apply H1; auto. }
  assert (Hs : plan_ok numbers_catalog (const []) (PlanNode (Schema_ctor [number_column]) [numbers_scan]
    (SortPlanNode [(DEFAULT, ColumnValueExpression 0 0 INTEGER)]))).
  { apply plan_ok_intro; [|constructor; [apply numbers_scan_ok|constructor]]. split; [|done]. constructor; [exact H0|constructor]. }
  apply plan_ok_intro.
  - split; [|done]. constructor; [apply (H1 0); auto|]. constructor; [apply (H1 1); auto|constructor].
  - constructor; [|constructor]. apply plan_ok_intro; [by split|]. constructor; [|constructor]. apply plan_ok_intro.
    + split; [apply true_ok|]. by split.
    + constructor; [exact Hs|]. constructor; [apply numbers_scan_ok|constructor].
Qed.

(** The rows of the query on the table with the numbers 2 and 1: in the order of the numbers. *)
Lemma numbers_query_rows :
  yields numbers_catalog (const (number_rows [2; 1])) (const []) (fun _ _ _ => False) numbers_query
    [[VInt INTEGER 1; VInt INTEGER 1]; [VInt INTEGER 2; VInt INTEGER 2]].
Proof.
  exists [[VInt INTEGER 1; VInt INTEGER 1]; [VInt INTEGER 2; VInt INTEGER 2]]. split; [|by vm_compute].
  exists ((fun ab => [VInt INTEGER ab.1; VInt INTEGER ab.2]) <$> [(1, 2); (1, 1); (2, 2); (2, 1)]). split; [|by vm_compute].
  exists (number_rows [1; 2]). split.
  - exists (number_rows [2; 1]). split_and!; [by exists (number_rows [2; 1])|apply perm_swap|].
    repeat constructor. exists (VInt INTEGER 1), (VInt INTEGER 2). by split_and!; [| |left].
  - exists ((fun n => [[VInt INTEGER n; VInt INTEGER 2]; [VInt INTEGER n; VInt INTEGER 1]]) <$> [1; 2]). split; [|reflexivity].
    assert (Hg : forall n, join_group INNER (OutputSchema numbers_scan) (holds2 (ConstantValueExpression (VInt BOOLEAN 1)) [VInt INTEGER n])
      [VInt INTEGER n] (number_rows [2; 1]) = Ok [[VInt INTEGER n; VInt INTEGER 2]; [VInt INTEGER n; VInt INTEGER 1]]) by done.
    constructor; [|constructor; [|constructor]]; exists (number_rows [2; 1]); (split; [by exists (number_rows [2; 1])|apply Hg]).
Qed.


(** [SELECT * FROM a LEFT JOIN b ON true WHERE a.number = b.number] on the tables 1 and 2 has no rows; its
    optimized plan cannot return none, for it makes the condition that of the left join, which
    then fills the row of [a] up with NULLs. *)
Definition left_join_query : AbstractPlanNode :=
  PlanNode pair_schema [left_join (ConstantValueExpression (VInt BOOLEAN 1))] (FilterPlanNode pair_predicate).
Definition one_two (table : list Z) : list Row := if bool_decide (table = str "a") then number_rows [1] else number_rows [2].

Lemma merge_left_join_wrong :
  exists q, Optimize map_to_list Catalog_ctor true left_join_query = Ok q /\
    yields Catalog_ctor (const []) one_two (fun _ _ _ => False) left_join_query [] /\
    ~ yields Catalog_ctor (const []) one_two (fun _ _ _ => False) q [] /\
    exists null, GetNullValueByType INTEGER = Ok null /\
      yields Catalog_ctor (const []) one_two (fun _ _ _ => False) q [[VInt INTEGER 1; null]].
Proof.
  eexists. split; [by vm_compute|]. split_and!.
  - exists [[VInt INTEGER 1; VInt INTEGER 2]]. split; [|by vm_compute]. exists (number_rows [1]). split; [exact (Permutation_refl (number_rows [1]))|].
    exists [[[VInt INTEGER 1; VInt INTEGER 2]]]. split; [|done]. constructor; [|constructor]. exists (number_rows [2]). by split; [exact (Permutation_refl (number_rows [2]))|vm_compute].
  - intros (ls & Hl & gs & Hg & Hr). change (ls ≡ₚ number_rows [1]) in Hl.
    symmetry in Hl. apply Permutation_length_1_inv in Hl as ->. inversion Hg as [|? g ? ? (rs & Hrs & Hj) Hg']; subst.
    change (rs ≡ₚ number_rows [2]) in Hrs. symmetry in Hrs. apply Permutation_length_1_inv in Hrs as ->. vm_compute in Hj. injection Hj as <-. done.
  - eexists. split; [by vm_compute|]. exists (number_rows [1]). split; [exact (Permutation_refl (number_rows [1]))|]. eexists [[_]].
    split; [|done]. constructor; [|constructor]. exists (number_rows [2]). split; [exact (Permutation_refl (number_rows [2]))|]. by vm_compute.
Qed.
