(* ===== verification/Explain.v ===== *)
(** * The text of EXPLAIN

    Bound statements (src/binder/fmt_impl.cpp, src/binder/statement/ and the headers under
    src/include/binder/) and plans (src/execution/fmt_impl.cpp and the headers under
    src/include/execution/plans/) as text. A vector is formatted as its items between
    brackets, a pair between parentheses (fmt 9 writes items that are not strings as
    they are). A vector of strings is written with quotes and escapes; how fmt escapes
    a string is a parameter. The arguments of a call of [fmt::format] are evaluated from left to
    right; C++ leaves the order open, which matters only for the choice among several failures.

    Proved: the text of a plan is its outline, one line per node in preorder, indented
    by twice the depth of the node; so a node of the plan is found in the text. *)

From Stdlib Require Import String.
From S2P Require Import Prelude.
From S2P Require Import CStd.
From S2P Require Import StringUtil.
From S2P Require Import Value.
From S2P Require Import Types.
From S2P Require Import Tuple.
From S2P Require Import Expressions.
From S2P Require Import Plans.
From S2P Require Import Bound.
Local Open Scope Z_scope.
Local Open Scope bustub_scope.

(** ** Formatting *)

(** [fmt::join] of the items, and a formatted vector. *)
Definition fmt_join (items : list (list Z)) (sep : list Z) : list Z := Join items sep.
Definition fmt_vector (items : list (list Z)) : list Z := str "[" ++ fmt_join items (str ", ") ++ str "]".
Definition fmt_pair (a b : list Z) : list Z := str "(" ++ a ++ str ", " ++ b ++ str ")".
Definition fmt_bool (b : bool) : list Z := if b then str "true" else str "false".

Definition OrderByType_format (c : OrderByType) : list Z :=
  match c with
  | ORDER_INVALID => str "Invalid"
  | ASC => str "Ascending"
  | DESC => str "Descending"
  | DEFAULT => str "Default"
  end.
Definition JoinType_format (c : JoinType) : list Z :=
  match c with
  | JOIN_INVALID => str "Invalid"
  | LEFT => str "Left"
  | RIGHT => str "Right"
  | INNER => str "Inner"
  | OUTER => str "Outer"
  end.
Definition AggregationType_format (c : AggregationType) : list Z :=
  match c with
  | CountStarAggregate => str "count_star"
  | CountAggregate => str "count"
  | SumAggregate => str "sum"
  | MinAggregate => str "min"
  | MaxAggregate => str "max"
  end.

(** ** Bound statements *)

Section bound.
Context (escaped : list Z -> list Z).

Fixpoint BoundExpression_ToString (e : BoundExpression) : result (list Z) :=
  match e with
  | BoundInvalid => Ok []
  | BoundConstant val => Value_ToString val
  | BoundColumnRef col_name => Ok (ColumnRef_ToString col_name)
  | BoundAggCall func_name is_distinct args =>
      let! args := rseq (map BoundExpression_ToString args) in
      Ok (func_name ++ (if is_distinct then str "_distinct(" else str "(") ++ fmt_vector args ++ str ")")
  | BoundStar => Ok (str "*")
  | BoundUnaryOp op_name arg => let! a := BoundExpression_ToString arg in Ok (str "(" ++ op_name ++ a ++ str ")")
  | BoundBinaryOp op_name larg rarg =>
      let! l := BoundExpression_ToString larg in
      let! r := BoundExpression_ToString rarg in Ok (str "(" ++ l ++ op_name ++ r ++ str ")")
  | BoundAlias alias child => let! c := BoundExpression_ToString child in Ok (str "(" ++ c ++ str " as " ++ alias ++ str ")")
  end.

Definition fmt_expressions (l : list BoundExpression) : result (list Z) :=
  let! ss := rseq (map BoundExpression_ToString l) in Ok (fmt_vector ss).

(** [BoundOrderBy::ToString] *)
Definition BoundOrderBy_ToString (o : OrderByType * BoundExpression) : result (list Z) :=
  let! e := BoundExpression_ToString o.2 in
  Ok (str "BoundOrderBy { type=" ++ OrderByType_format o.1 ++ str ", expr=" ++ e ++ str " }").

Definition BoundBaseTableRef_ToString (t : BaseTableRef) : list Z :=
  match bt_alias_ t with
  | None => str "BoundBaseTableRef { table=" ++ bt_table_ t ++ str ", oid=" ++ to_string (bt_oid_ t) ++ str " }"
  | Some alias =>
      str "BoundBaseTableRef { table=" ++ bt_table_ t ++ str ", oid=" ++ to_string (bt_oid_ t) ++ str ", alias=" ++ alias ++ str " }"
  end.

(** [BoundSubqueryRef::ToString], given the text of the subquery. *)
Definition subquery_text (subquery : list Z) (select_list_name : list (list (list Z))) (alias : list Z) : list Z :=
  let columns := (fun name => fmt_join name (str ".")) <$> select_list_name in
  str "BoundSubqueryRef {" ++ [10] ++ str "  alias=" ++ alias ++ str "," ++ [10] ++ str "  subquery="
  ++ IndentAllLines subquery 2 true ++ str "," ++ [10] ++ str "  columns=" ++ fmt_vector (escaped <$> columns)
  ++ str "," ++ [10] ++ str "}".

Fixpoint BoundTableRef_ToString (t : BoundTableRef) : result (list Z) :=
  match t with
  | InvalidTableRef => Ok []
  | EmptyTableRef => Ok (str "<empty>")
  | BoundBaseTableRef t => Ok (BoundBaseTableRef_ToString t)
  | BoundJoinRef join_type l r condition =>
      let! a := BoundTableRef_ToString l in
      let! b := BoundTableRef_ToString r in
      let! c := BoundExpression_ToString condition in
      Ok (str "BoundJoin { type=" ++ JoinType_format join_type ++ str ", left=" ++ a ++ str ", right=" ++ b
          ++ str ", condition=" ++ c ++ str " }")
  | BoundCrossProductRef l r =>
      let! a := BoundTableRef_ToString l in
      let! b := BoundTableRef_ToString r in
      Ok (str "BoundCrossProductRef { left=" ++ a ++ str ", right=" ++ b ++ str " }")
  | BoundExpressionListRef values identifier =>
      let! rows := rseq (map fmt_expressions values) in
      Ok (str "BoundExpressionListRef { identifier=" ++ identifier ++ str ", values=" ++ fmt_vector rows ++ str " }")
  | BoundSubqueryRef subquery names alias =>
      let! q := SelectStatement_ToString subquery in Ok (subquery_text q names alias)
  | BoundCTERef cte_name alias => Ok (str "BoundCTERef { alias=" ++ alias ++ str ", cte=" ++ cte_name ++ str " }")
  end
with SelectStatement_ToString (s : SelectStatement) : result (list Z) :=
  let '(mkSelect table select_list where_ group_by having limit_count limit_offset sort ctes is_distinct) := s in
  let! t := BoundTableRef_ToString table in
  let! cs := rseq (map (fun c : CTE => let '(q, names, alias) := c in
                      let! q := SelectStatement_ToString q in Ok (subquery_text q names alias)) ctes) in
  let! columns := fmt_expressions select_list in
  let! groups := fmt_expressions group_by in
  let! h := BoundExpression_ToString having in
  let! w := BoundExpression_ToString where_ in
  let! lc := BoundExpression_ToString limit_count in
  let! lo := BoundExpression_ToString limit_offset in
  let! o := rseq (map BoundOrderBy_ToString sort) in
  Ok (str "BoundSelect {" ++ [10] ++ str "  table=" ++ IndentAllLines t 2 true ++ str "," ++ [10]
      ++ str "  columns=" ++ columns ++ str "," ++ [10] ++ str "  groupBy=" ++ groups ++ str "," ++ [10]
      ++ str "  having=" ++ h ++ str "," ++ [10] ++ str "  where=" ++ w ++ str "," ++ [10]
      ++ str "  limit=" ++ lc ++ str "," ++ [10] ++ str "  offset=" ++ lo ++ str "," ++ [10]
      ++ str "  order_by=" ++ fmt_vector o ++ str "," ++ [10] ++ str "  is_distinct=" ++ fmt_bool is_distinct ++ str "," ++ [10]
      ++ str "  ctes=" ++ IndentAllLines (fmt_join cs (str "," ++ [10])) 2 true ++ str "," ++ [10] ++ str "}").

(** An item of an UPDATE: the column may be a null pointer, whose [ToString] is called. *)
Definition fmt_target (item : option (list (list Z)) * BoundExpression) : result (list Z) :=
  match item.1 with
  | None => Throw Undefined
  | Some col => let! e := BoundExpression_ToString item.2 in Ok (fmt_pair (ColumnRef_ToString col) e)
  end.

Fixpoint BoundStatement_ToString (s : BoundStatement) : result (list Z) :=
  match s with
  | SelectStmt s => SelectStatement_ToString s
  | InsertStmt table select =>
      let! q := SelectStatement_ToString select in
      Ok (str "BoundInsert {" ++ [10] ++ str "  table=" ++ BoundBaseTableRef_ToString table ++ str "," ++ [10]
          ++ str "  select=" ++ IndentAllLines q 2 false ++ [10] ++ str "}")
  | DeleteStmt table expr =>
      let! e := BoundExpression_ToString expr in
      Ok (str "Delete { table=" ++ BoundBaseTableRef_ToString table ++ str ", expr=" ++ e ++ str " }")
  | UpdateStmt table filter_expr target_expr =>
      let! f := BoundExpression_ToString filter_expr in
      let! ts := rseq (fmt_target <$> target_expr) in
      Ok (str "BoundUpdate {" ++ [10] ++ str "  table=" ++ BoundBaseTableRef_ToString table ++ str "," ++ [10]
          ++ str "  filter_expr=" ++ f ++ str "," ++ [10] ++ str "  target_expr=" ++ fmt_vector ts ++ str "," ++ [10] ++ str "}")
  | CreateStmt table columns =>
      Ok (str "BoundCreate {" ++ [10] ++ str "  table=" ++ table ++ [10]
          ++ str "  columns=" ++ fmt_vector ((fun c => Column_ToString c true) <$> columns) ++ [10] ++ str "}")
  | IndexStmt index_name table cols =>
      Ok (str "BoundIndex { index_name=" ++ index_name ++ str ", table=" ++ BoundBaseTableRef_ToString table
          ++ str ", cols=" ++ fmt_vector (ColumnRef_ToString <$> cols) ++ str " }")
  | ExplainStmt statement options =>
      let! t := BoundStatement_ToString statement in
      Ok (str "BoundExplain {" ++ [10] ++ str "  statement=" ++ IndentAllLines t 2 true ++ str "," ++ [10]
          ++ str "  options=" ++ to_string options ++ str "," ++ [10] ++ str "}")
  | VariableSetStmt variable value =>
      Ok (str "BoundVariableSet { variable=" ++ variable ++ str ", value=" ++ value ++ str " }")
  | VariableShowStmt variable => Ok (str "BoundVariableShow { variable=" ++ variable ++ str " }")
  end.
End bound.

(** ** Plans *)

Definition fmt_plan_expressions (l : list AbstractExpression) : result (list Z) :=
  let! ss := rseq (ToString <$> l) in Ok (fmt_vector ss).
Definition fmt_order_bys (l : list (OrderByType * AbstractExpression)) : result (list Z) :=
  let! ss := rseq ((fun o => let! e := ToString o.2 in Ok (fmt_pair (OrderByType_format o.1) e)) <$> l) in Ok (fmt_vector ss).

Definition PlanNodeToString (k : PlanKind) : result (list Z) :=
  match k with
  | SeqScanPlanNode _ table_name filter_predicate =>
      match filter_predicate with
      | Some f => let! f := ToString f in Ok (str "SeqScan { table=" ++ table_name ++ str ", filter=" ++ f ++ str " }")
      | None => Ok (str "SeqScan { table=" ++ table_name ++ str " }")
      end
  | IndexScanPlanNode index_oid => Ok (str "IndexScan { index_oid=" ++ to_string index_oid ++ str " }")
  | InsertPlanNode table_oid => Ok (str "Insert { table_oid=" ++ to_string table_oid ++ str " }")
  | UpdatePlanNode table_oid targets =>
      let! es := fmt_plan_expressions targets in
      Ok (str "Update { table_oid=" ++ to_string table_oid ++ str ", target_exprs=" ++ es ++ str " }")
  | DeletePlanNode table_oid => Ok (str "Delete { table_oid=" ++ to_string table_oid ++ str " }")
  | AggregationPlanNode group_bys aggregates agg_types =>
      let! a := fmt_plan_expressions aggregates in
      let! g := fmt_plan_expressions group_bys in
      Ok (str "Agg { types=" ++ fmt_vector (AggregationType_format <$> agg_types) ++ str ", aggregates=" ++ a
          ++ str ", group_by=" ++ g ++ str " }")
  | LimitPlanNode limit => Ok (str "Limit { limit=" ++ to_string limit ++ str " }")
  | NestedLoopJoinPlanNode predicate join_type =>
      let! p := ToString predicate in
      Ok (str "NestedLoopJoin { type=" ++ JoinType_format join_type ++ str ", predicate=" ++ p ++ str " }")
  | NestedIndexJoinPlanNode key_predicate _ _ index_name index_table_name _ join_type =>
      let! p := ToString key_predicate in
      Ok (str "NestedIndexJoin { type=" ++ JoinType_format join_type ++ str ", key_predicate=" ++ p ++ str ", index=" ++ index_name
          ++ str ", index_table=" ++ index_table_name ++ str " }")
  | HashJoinPlanNode left_key right_key join_type =>
      let! l := ToString left_key in
      let! r := ToString right_key in
      Ok (str "HashJoin { type=" ++ JoinType_format join_type ++ str ", left_key=" ++ l ++ str ", right_key=" ++ r ++ str " }")
  | FilterPlanNode predicate => let! p := ToString predicate in Ok (str "Filter { predicate=" ++ p ++ str " }")
  | ValuesPlanNode values => Ok (str "Values { rows=" ++ to_string (zlen values) ++ str " }")
  | ProjectionPlanNode expressions => let! es := fmt_plan_expressions expressions in Ok (str "Projection { exprs=" ++ es ++ str " }")
  | SortPlanNode order_bys => let! os := fmt_order_bys order_bys in Ok (str "Sort { order_bys=" ++ os ++ str " }")
  | TopNPlanNode order_bys n =>
      let! os := fmt_order_bys order_bys in Ok (str "TopN { n=" ++ to_string n ++ str ", order_bys=" ++ os ++ str "}")
  | MockScanPlanNode table => Ok (str "MockScan { table=" ++ table ++ str " }")
  end.

(** [ChildrenToString(indent)], given the texts of the children. *)
Definition ChildrenToString (indent : nat) (children : list (list Z)) : list Z :=
  match children with
  | [] => []
  | _ =>
      let children_str := concat ((fun child_str => (fun line => Indent indent ++ line) <$> Split_char child_str 10) <$> children) in
      [10] ++ fmt_join children_str [10]
  end.

Fixpoint Plan_ToString (with_schema : bool) (plan : AbstractPlanNode) : result (list Z) :=
  let '(PlanNode output_schema children kind) := plan in
  let! node := PlanNodeToString kind in
  let! cs := rseq (map (Plan_ToString with_schema) children) in
  Ok (if with_schema then node ++ str " | " ++ Schema_ToString output_schema true ++ ChildrenToString 2 cs
      else node ++ ChildrenToString 2 cs).

(** ** The outline of a plan *)

(** The line of a node. *)
Definition node_line (with_schema : bool) (plan : AbstractPlanNode) : result (list Z) :=
  let! node := PlanNodeToString (plan_kind plan) in
  Ok (if with_schema then node ++ str " | " ++ Schema_ToString (OutputSchema plan) true else node).

(** The lines of a plan whose root is at a depth. *)
Fixpoint outline (with_schema : bool) (depth : nat) (plan : AbstractPlanNode) : result (list (list Z)) :=
  let '(PlanNode _ children _) := plan in
  let! line := node_line with_schema plan in
  let! lines := rseq (map (outline with_schema (S depth)) children) in
  Ok ((Indent (2 * depth) ++ line) :: concat lines).

(** No node prints a line feed, as a table name or a constant can. *)
Fixpoint one_line (with_schema : bool) (plan : AbstractPlanNode) : Prop :=
  let '(PlanNode _ children _) := plan in
  (match node_line with_schema plan with Ok line => 10 ∉ line | Throw _ => True end) /\
  foldr (fun c P => one_line with_schema c /\ P) True children.

Lemma rseq_bind {A B C} (f : A -> result B) (g : B -> C) (l : list A) :
  rseq (map (fun a => let! b := f a in Ok (g b)) l) = let! bs := rseq (map f l) in Ok (map g bs).
Proof.
  induction l as [|a l IH]; [done|]. cbn. destruct (f a) as [b|e]; cbn; [|done]. rewrite IH. by destruct (rseq (map f l)).
Qed.

Lemma rseq_ext {A B} (f g : A -> result B) (l : list A) : Forall (fun a => f a = g a) l -> rseq (map f l) = rseq (map g l).
Proof. induction 1 as [|a l Ha _ IH]; [done|]. cbn. rewrite Ha. by destruct (g a); rewrite ?IH. Qed.

Lemma node_line_cons ws p l : node_line ws p = Ok l -> l <> [].
Proof.
  unfold node_line. intros H Hl. subst l.
  destruct (PlanNodeToString (plan_kind p)) as [n|] eqn:E; cbn in H; [|done]. injection H as H.
  assert (n = []) as -> by (destruct ws; [by apply app_eq_nil in H as [H _]|done]). clear H.
  destruct (plan_kind p) as [? ? [f|]| | | | | | | | | | | | | | |]; cbn in E; try discriminate E;
    repeat match type of E with rbind _ ?x = _ => destruct x; cbn in E; [|discriminate E] end; discriminate E.
Qed.

Lemma Indent_S d : Indent (2 * S d) = Indent 2 ++ Indent (2 * d).
Proof. unfold Indent. rewrite <- replicate_add. f_equal. lia. Qed.

Lemma outline_S ws p : forall d, outline ws (S d) p = let! ls := outline ws d p in Ok (map (app (Indent 2)) ls).
Proof.
  induction p as [s cs k IH] using plan_ind. intros d. cbn [outline]. destruct (node_line ws (PlanNode s cs k)) as [l|]; [|done]. cbn [rbind].
  rewrite (rseq_ext (outline ws (S (S d))) (fun c => let! ls := outline ws (S d) c in Ok (map (app (Indent 2)) ls)))
    by (eapply Forall_impl; [exact IH|]; intros c Hc; apply Hc).
  rewrite rseq_bind. destruct (rseq (map (outline ws (S d)) cs)) as [lss|]; [|done]. cbn [rbind map].
  by rewrite Indent_S, <- app_assoc, concat_map.
Qed.

(** The lines of an outline are not empty and have no line feeds. *)
Lemma outline_lines ws p : one_line ws p -> forall d ls, outline ws d p = Ok ls -> ls <> [] /\ Forall (fun l => l <> [] /\ 10 ∉ l) ls.
Proof.
  induction p as [s cs k IH] using plan_ind. cbn [one_line outline]. intros [Hl Hc] d ls.
  pose proof (node_line_cons ws (PlanNode s cs k)) as Hn.
  destruct (node_line ws (PlanNode s cs k)) as [l|]; [|done]. specialize (Hn l eq_refl). cbn [rbind].
  destruct (rseq (map (outline ws (S d)) cs)) as [lss|] eqn:E; [|done]. cbn [rbind]. intros [= <-]. split; [done|]. constructor.
  - split; [intros [_ ?]%app_eq_nil; done|]. intros [H|H]%elem_of_app; [|done]. unfold Indent in H.
    apply elem_of_replicate in H as [? _]. lia.
  - apply Forall_concat. apply rseq_Ok in E. revert lss E. induction IH as [|c cs Hi _ IHc]; intros lss E; destruct lss as [|x lss]; try done.
    cbn in E, Hc. injection E as E1 E2. constructor; [|apply IHc; [tauto|done]]. by apply (Hi (proj1 Hc) (S d)).
Qed.

Lemma Split_outline ls : Forall (fun l => l <> [] /\ 10 ∉ l) ls -> Split_char (Join ls [10]) 10 = ls.
Proof.
  intros Hf. apply Split_Join; [eapply Forall_impl; [exact Hf|]; by intros l []|].
  intros Hl%last_Some_elem_of. rewrite Forall_forall in Hf. apply Hf in Hl. naive_solver.
Qed.

Lemma Join_line (l : list Z) ls : Join (l :: ls) [10] = l ++ match ls with [] => [] | _ => 10 :: Join ls [10] end.
Proof. destruct ls as [|l' ls]; cbn; done. Qed.

(** The texts of children that are the outlines [lss], under their parent's line. *)
Lemma ChildrenToString_outlines lss :
  Forall (fun ls => ls <> [] /\ Forall (fun l => l <> [] /\ 10 ∉ l) ls) lss ->
  ChildrenToString 2 (map (fun ls => Join ls [10]) lss) =
    match concat (map (map (app (Indent 2))) lss) with [] => [] | ls => 10 :: Join ls [10] end.
Proof.
  intros Hf.
  assert (He : concat ((fun child_str => (fun line => Indent 2 ++ line) <$> Split_char child_str 10) <$> map (fun ls => Join ls [10]) lss)
    = concat (map (map (app (Indent 2))) lss)).
  { f_equal. induction Hf as [|ls lss [_ Hl] _ IH]; [done|]. cbn. rewrite Split_outline by done. by f_equal. }
  destruct lss as [|[|l ls] lss]; [done|by apply Forall_cons in Hf as [[? _] _]|]. unfold ChildrenToString. cbn [map]. cbn [map] in He. rewrite He. done.
Qed.

Lemma Plan_outline ws p : one_line ws p -> Plan_ToString ws p = let! ls := outline ws 0 p in Ok (Join ls [10]).
Proof.
  induction p as [s cs k IH] using plan_ind. intros Hone. pose proof Hone as [_ Hc]. cbn [Plan_ToString outline].
  unfold node_line at 1. cbn [plan_kind OutputSchema]. destruct (PlanNodeToString k) as [node|]; [|done]. cbn [rbind].
  assert (Hch : Forall (one_line ws) cs). { clear -Hc. induction cs as [|c cs IHc]; constructor; [apply Hc|apply IHc, Hc]. }
  rewrite (rseq_ext (Plan_ToString ws) (fun c => let! ls := outline ws 0 c in Ok (Join ls [10])))
    by (eapply Forall_impl; [apply Forall_and; exact (conj IH Hch)|]; intros c [Hi Ho]; by apply Hi).
  rewrite (rseq_ext (outline ws 1) (fun c => let! ls := outline ws 0 c in Ok (map (app (Indent 2)) ls)))
    by (apply Forall_true; intros; apply outline_S).
  rewrite !rseq_bind. destruct (rseq (map (outline ws 0) cs)) as [lss|] eqn:E; [|done]. cbn [rbind].
  rewrite ChildrenToString_outlines.
  - rewrite Join_line. change (Indent (2 * 0)) with (@nil Z). by destruct ws, (concat (map (map (app (Indent 2))) lss)); rewrite <- ?app_assoc.
  - apply rseq_Ok in E. clear -E Hch. revert lss E. induction Hch as [|c cs Hc _ IHc]; intros [|ls lss] [=]; constructor; [|by apply IHc].
    by eapply outline_lines.
Qed.

(** C33: the text of a plan that EXPLAIN prints. When the names and constants of the plan have no
    line feeds, the text is the outline of the plan: one line per node, with its description and,
    if asked for, its schema, in preorder and indented by two blanks per level. It fails exactly
    when a constant cannot be printed; which failure is reported when several cannot is left open by C++ (the arguments of
    [fmt::format] are evaluated in any order), and in the model it is the first. *)
Theorem Plan_ToString_outline (with_schema : bool) (plan : AbstractPlanNode) :
  one_line with_schema plan ->
  Plan_ToString with_schema plan = let! lines := outline with_schema 0 plan in Ok (Join lines [10]).
Proof. apply Plan_outline. Qed.

(** ** Finding a node *)

Lemma Contains_spec hay needle : Contains hay needle = true <-> exists a b, hay = a ++ needle ++ b.
Proof.
  unfold Contains. split.
  - induction hay as [|c hay IH]; cbn.
    + destruct (is_prefix needle []) eqn:E; [|done]. intros _. apply is_prefix_spec in E as (r & ->). by exists [], r.
    + destruct (is_prefix needle (c :: hay)) eqn:E; [intros _; apply is_prefix_spec in E as (r & ->); by exists [], r|].
      destruct (find needle hay) eqn:Ef; [|done]. intros _. destruct (IH eq_refl) as (a & b & ->). by exists (c :: a), b.
  - intros (a & b & ->). induction a as [|c a IH]; cbn [app].
    + pose proof (proj2 (is_prefix_spec needle (needle ++ b)) ltac:(eauto)) as Hp. by destruct (needle ++ b); cbn [find]; rewrite Hp.
    + cbn [find]. destruct (is_prefix needle _); [done|]. by destruct (find needle (a ++ needle ++ b)).
Qed.

Lemma Contains_app a b c needle : Contains b needle = true -> Contains (a ++ b ++ c) needle = true.
Proof. rewrite !Contains_spec. intros (x & y & ->). exists (a ++ x), (y ++ c). by rewrite <- !app_assoc. Qed.

Lemma Contains_Join ls l needle : l ∈ ls -> Contains l needle = true -> Contains (Join ls [10]) needle = true.
Proof.
  intros Hl Hc. destruct ls as [|x ls]; [by apply not_elem_of_nil in Hl|]. cbn. apply elem_of_cons in Hl as [->|Hl].
  - apply (Contains_app []). done.
  - apply list_elem_of_split in Hl as (a & b & ->). apply Contains_spec in Hc as (u & v & ->). apply Contains_spec.
    rewrite fmap_app, concat_app. cbn. eexists (x ++ concat ((fun s => 10 :: s) <$> a) ++ 10 :: u), (v ++ concat ((fun s => 10 :: s) <$> b)).
    by rewrite <- !app_assoc; cbn; rewrite <- ?app_assoc.
Qed.

(** The nodes of a plan. *)
Fixpoint plan_nodes (plan : AbstractPlanNode) : list AbstractPlanNode :=
  let '(PlanNode _ children _) := plan in plan :: concat (map plan_nodes children).

Lemma outline_node ws p : forall d ls q, outline ws d p = Ok ls -> q ∈ plan_nodes p ->
  exists l i, node_line ws q = Ok l /\ (Indent i ++ l) ∈ ls.
Proof.
  induction p as [s cs k IH] using plan_ind. intros d ls q. cbn [outline plan_nodes].
  destruct (node_line ws (PlanNode s cs k)) as [l|] eqn:El; [|done]. cbn [rbind].
  destruct (rseq (map (outline ws (S d)) cs)) as [lss|] eqn:E; [|done]. cbn [rbind]. intros [= <-] [->|Hq]%elem_of_cons.
  - exists l, (2 * d)%nat. split; [done|left].
  - apply rseq_Ok in E. clear El. revert lss E. induction IH as [|c cs Hc _ IHc]; [by apply not_elem_of_nil in Hq|].
    intros [|x lss] E; [done|]. injection E as H0 H1. cbn in Hq. apply elem_of_app in Hq as [Hq|Hq].
    + destruct (Hc _ _ _ H0 Hq) as (l' & i & Hl & Hi). exists l', i. split; [done|]. right. cbn. apply elem_of_app. by left.
    + destruct (IHc Hq lss H1) as (l' & i & Hl & Hi). exists l', i. split; [done|]. cbn.
      apply elem_of_cons in Hi as [Hi|Hi]; [rewrite Hi; left|right; apply elem_of_app; by right].
Qed.

(** A node whose line contains a word is found in the text of the plan. *)
Lemma Plan_ToString_finds ws p text q needle :
  one_line ws p -> Plan_ToString ws p = Ok text -> q ∈ plan_nodes p ->
  (forall l, node_line ws q = Ok l -> Contains l needle = true) -> Contains text needle = true.
Proof.
  intros Ho Ht Hq Hn. rewrite Plan_outline in Ht by done. destruct (outline ws 0 p) as [ls|] eqn:E; [|done]. injection Ht as <-.
  destruct (outline_node ws p 0 ls q E Hq) as (l & i & Hl & Hi). eapply Contains_Join; [exact Hi|].
  specialize (Hn l Hl). rewrite <- (app_nil_r l). by apply Contains_app.
Qed.

(** ** Example *)

(** [explain select * from (values (1), (2)) v order by v.0 limit 1] after optimization. *)
Definition topn_plan : AbstractPlanNode :=
  let schema := Schema_ctor [mkColumn (str "v.0") INTEGER 4 0 0] in
  let constant z := ConstantValueExpression (VInt INTEGER z) in
  PlanNode schema [PlanNode schema [] (ValuesPlanNode [[constant 1]; [constant 2]])]
    (TopNPlanNode [(DEFAULT, ColumnValueExpression 0 0 INTEGER)] 1).

Definition topn_lines : list (list Z) :=
  [str "TopN { n=1, order_bys=[(Default, #0.0)]} | (v.0:INTEGER)"; str "  Values { rows=2 } | (v.0:INTEGER)"].

Lemma topn_one_line : one_line true topn_plan.
Proof. split_and!; cbn -[str]; try done; by apply (bool_decide_unpack _); vm_compute. Qed.

Lemma Plan_ToString_outline_witness :
  one_line true topn_plan /\ outline true 0 topn_plan = Ok topn_lines /\ Plan_ToString true topn_plan = Ok (Join topn_lines [10]).
Proof.
  split; [exact topn_one_line|]. assert (E : outline true 0 topn_plan = Ok topn_lines) by (vm_compute; reflexivity).
  split; [exact E|]. rewrite (Plan_ToString_outline true topn_plan topn_one_line), E. reflexivity.
Defined.

(** The text of a bound statement, [select v.0 from (values (1)) v limit 3]. *)
Example select_text :
  SelectStatement_ToString id (mkSelect (BoundExpressionListRef [[BoundConstant (VInt INTEGER 1)]] (str "v"))
    [BoundColumnRef [str "v"; str "0"]] BoundInvalid [] BoundInvalid (BoundConstant (VInt INTEGER 3)) BoundInvalid [] [] false) =
  Ok (Join (str <$> ["BoundSelect {"; "  table=BoundExpressionListRef { identifier=v, values=[[1]] },"; "  columns=[v.0],"; "  groupBy=[],";
    "  having=,"; "  where=,"; "  limit=3,"; "  offset=,"; "  order_by=[],"; "  is_distinct=false,"; "  ctes=,"; "}"]%string) [10]).
Proof. vm_compute. reflexivity. Qed.
