(* ===== verification/Writers.v ===== *)
(** * Result writers

    [ResultWriter] and its subclasses (src/include/common/bustub_instance.h): the calls an
    instance makes to print a table. The interface is a class; the writers are its
    instances, each with the members it keeps. An output stream is the text written to
    it. The table of [FortTableWriter] comes from libfort: the operations the writer
    calls are parameters.

    Proved: what a simple writer prints of a table is read back by splitting it into lines and
    cells, and the markup of [HtmlWriter] cannot be broken by the text of a cell. *)

From Stdlib Require Import String.
From S2P Require Import Prelude.
From S2P Require Import CStd.
From S2P Require Import StringUtil.
Local Open Scope Z_scope.

Class ResultWriter (W : Type) : Type := {
  WriteCell : list Z -> W -> W;
  WriteHeaderCell : list Z -> W -> W;
  BeginHeader : W -> W;
  EndHeader : W -> W;
  BeginRow : W -> W;
  EndRow : W -> W;
  BeginTable : bool -> W -> W;
  EndTable : W -> W;
}.

(** ** The calls made for a table *)

Section tables.
Context {W : Type} `{ResultWriter W}.

Definition write_header (names : list (list Z)) (w : W) : W :=
  EndHeader (foldl (fun w c => WriteHeaderCell c w) (BeginHeader w) names).
Definition write_row (cells : list (list Z)) (w : W) : W := EndRow (foldl (fun w c => WriteCell c w) (BeginRow w) cells).
Definition write_rows (rows : list (list (list Z))) (w : W) : W := foldl (fun w r => write_row r w) w rows.

Definition write_table (names : list (list Z)) (rows : list (list (list Z))) (w : W) : W :=
  EndTable (write_rows rows (write_header names (BeginTable false w))).

(** [BustubInstance::WriteOneCell] *)
Definition WriteOneCell (cell : list Z) (w : W) : W := EndTable (EndRow (WriteCell cell (BeginRow (BeginTable true w)))).
End tables.

(** ** [NoopWriter] *)

Inductive NoopWriter : Type := mkNoop.
#[export] Instance Noop_writer : ResultWriter NoopWriter := {|
  WriteCell _ w := w; WriteHeaderCell _ w := w; BeginHeader w := w; EndHeader w := w;
  BeginRow w := w; EndRow w := w; BeginTable _ w := w; EndTable w := w;
|}.

(** ** [SimpleStreamWriter] *)

Record SimpleStreamWriter := mkSimple {
  disable_header_ : bool;
  stream_ : list Z;
  separator_ : list Z;
}.
Definition SimpleStreamWriter_ctor (stream : list Z) (disable_header : bool) (separator : list Z) : SimpleStreamWriter :=
  mkSimple disable_header stream separator.
Definition BoldOn : list Z := 27 :: str "[1m".
Definition BoldOff : list Z := 27 :: str "[0m".

Definition stream_put (text : list Z) (w : SimpleStreamWriter) : SimpleStreamWriter :=
  mkSimple (disable_header_ w) (stream_ w ++ text) (separator_ w).

#[export] Instance Simple_writer : ResultWriter SimpleStreamWriter := {|
  WriteCell cell w := stream_put (cell ++ separator_ w) w;
  WriteHeaderCell cell w := if disable_header_ w then w else stream_put (BoldOn ++ cell ++ BoldOff ++ separator_ w) w;
  BeginHeader w := w;
  EndHeader w := if disable_header_ w then w else stream_put [10] w;
  BeginRow w := w;
  EndRow w := stream_put [10] w;
  BeginTable _ w := w;
  EndTable w := w;
|}.

(** ** [HtmlWriter] *)

Record HtmlWriter := mkHtml {
  simplified_output_ : bool;
  ss_ : list Z;
  cout_ : list Z;
}.
Definition HtmlWriter_ctor : HtmlWriter := mkHtml false [] [].

Definition escape_char (ch : Z) : list Z :=
  if ch =? 38 then str "&amp;"
  else if ch =? 34 then str "&quot;"
  else if ch =? 39 then str "&apos;"
  else if ch =? 60 then str "&lt;"
  else if ch =? 62 then str "&gt;"
  else [ch].
Definition Escape (data : list Z) : list Z := concat (escape_char <$> data).

Definition html_put (text : list Z) (w : HtmlWriter) : HtmlWriter := mkHtml (simplified_output_ w) (ss_ w ++ text) (cout_ w).
(** Text that depends on [simplified_output_]. *)
Definition html_either (full simplified : list Z) (w : HtmlWriter) : HtmlWriter :=
  html_put (if negb (simplified_output_ w) then full else simplified) w.

#[export] Instance Html_writer : ResultWriter HtmlWriter := {|
  WriteCell cell w :=
    html_either (str "<td>" ++ Escape cell ++ str "</td>") (Escape cell) (mkHtml (simplified_output_ w) (ss_ w) (cout_ w ++ cell));
  WriteHeaderCell cell w := html_either (str "<td>" ++ Escape cell ++ str "</td>") (Escape cell) w;
  BeginHeader w := html_either (str "<thead><tr>") [] w;
  EndHeader w := html_either (str "</tr></thead>") [] w;
  BeginRow w := html_either (str "<tr>") [] w;
  EndRow w := html_either (str "</tr>") [] w;
  BeginTable simplified w := html_either (str "<table>") (str "<div>") (mkHtml simplified (ss_ w) (cout_ w));
  EndTable w := html_either (str "</table>") (str "</div>") w;
|}.

(** ** [FortTableWriter] *)

(** What is used of [fort::utf8_table]. *)
Class FortTable (T : Type) : Type := {
  utf8_table : T;
  fort_cell : list Z -> T -> T;
  fort_header : T -> T;
  fort_endr : T -> T;
  set_border_style_empty : T -> T;
  fort_to_string : T -> list Z;
}.

Record FortTableWriter (T : Type) := mkFort {
  table_ : T;
  tables_ : list (list Z);
}.
Arguments mkFort {T} table_ tables_.
Arguments table_ {T} f.
Arguments tables_ {T} f.

Definition fort_on {T} (f : T -> T) (w : FortTableWriter T) : FortTableWriter T := mkFort (f (table_ w)) (tables_ w).

#[export] Instance Fort_writer {T} `{FortTable T} : ResultWriter (FortTableWriter T) := {|
  WriteCell cell := fort_on (fort_cell cell);
  WriteHeaderCell cell := fort_on (fort_cell cell);
  BeginHeader := fort_on fort_header;
  EndHeader := fort_on fort_endr;
  BeginRow w := w;
  EndRow := fort_on fort_endr;
  BeginTable simplified w := if simplified : bool then fort_on set_border_style_empty w else w;
  EndTable w := mkFort utf8_table (tables_ w ++ [fort_to_string (table_ w)]);
|}.

(** ** The simple writer *)

(** The text of a row: each cell is followed by the separator. *)
Definition row_text (separator : list Z) (cells : list (list Z)) : list Z := concat ((fun c => c ++ separator) <$> cells) ++ [10].
Definition header_text (separator : list Z) (names : list (list Z)) : list Z :=
  concat ((fun c => BoldOn ++ c ++ BoldOff ++ separator) <$> names) ++ [10].

Lemma stream_put_app a b w : stream_put b (stream_put a w) = stream_put (a ++ b) w.
Proof. unfold stream_put. cbn. by rewrite <- app_assoc. Qed.
Lemma stream_put_nil w : stream_put [] w = w.
Proof. destruct w. unfold stream_put. cbn. by rewrite app_nil_r. Qed.

Lemma write_cells_simple (cells : list (list Z)) : forall w : SimpleStreamWriter,
  foldl (fun w c => WriteCell c w) w cells = stream_put (concat ((fun c => c ++ separator_ w) <$> cells)) w.
Proof.
  induction cells as [|c cells IH]; intros w; cbn; [by rewrite stream_put_nil|]. rewrite IH. cbn. by rewrite stream_put_app.
Qed.

Lemma write_row_simple cells (w : SimpleStreamWriter) : write_row cells w = stream_put (row_text (separator_ w) cells) w.
Proof. unfold write_row. cbn [BeginRow EndRow Simple_writer]. rewrite write_cells_simple, stream_put_app. done. Qed.

Lemma write_rows_simple rows : forall w : SimpleStreamWriter,
  write_rows rows w = stream_put (concat (row_text (separator_ w) <$> rows)) w.
Proof.
  unfold write_rows. induction rows as [|r rows IH]; intros w; cbn [foldl fmap list_fmap concat]; [by rewrite stream_put_nil|].
  rewrite IH, write_row_simple. cbn [separator_ stream_put]. by rewrite stream_put_app.
Qed.

Lemma write_header_simple names (w : SimpleStreamWriter) :
  write_header names w = if disable_header_ w then w else stream_put (header_text (separator_ w) names) w.
Proof.
  unfold write_header. cbn [BeginHeader EndHeader Simple_writer].
  assert (Hf : forall names (w : SimpleStreamWriter), foldl (fun w c => WriteHeaderCell c w) w names =
    if disable_header_ w then w else stream_put (concat ((fun c => BoldOn ++ c ++ BoldOff ++ separator_ w) <$> names)) w).
  { clear. induction names as [|c names IH]; intros w; cbn [foldl fmap list_fmap concat]; [by rewrite stream_put_nil; destruct (disable_header_ w)|].
    rewrite IH. cbn [WriteHeaderCell Simple_writer]. destruct (disable_header_ w) eqn:E; [by rewrite E|]. cbn [disable_header_ stream_put].
    rewrite E. cbn [separator_ stream_put]. by rewrite stream_put_app. }
  rewrite Hf. destruct (disable_header_ w) eqn:E; [by rewrite E|]. cbn [disable_header_ stream_put]. rewrite E. by rewrite stream_put_app.
Qed.

Lemma write_table_simple names rows (w : SimpleStreamWriter) :
  write_table names rows w =
    stream_put ((if disable_header_ w then [] else header_text (separator_ w) names) ++ concat (row_text (separator_ w) <$> rows)) w.
Proof.
  unfold write_table. cbn [BeginTable EndTable Simple_writer]. rewrite write_rows_simple, write_header_simple.
  destruct (disable_header_ w); [done|]. by rewrite stream_put_app.
Qed.

(** *** Reading a table back *)

Lemma Split_terminated (items : list (list Z)) (d : Z) :
  Forall (fun l => d ∉ l) items -> Split_char (concat ((fun l => l ++ [d]) <$> items)) d = items.
Proof. induction 1 as [|l items Hl _ IH]; [done|]. cbn. rewrite <- app_assoc. cbn. rewrite Split_char_app by done. by f_equal. Qed.

(** Splits a text into lines and the lines into cells. *)
Definition read_table (d : Z) (text : list Z) : list (list (list Z)) := (fun line => Split_char line d) <$> Split_char text 10.

(** C35: printing and reading a table. What a [SimpleStreamWriter] without headers, with a separator
    of one character, writes for a table is split back into exactly the cells of its rows, as
    long as no cell contains the separator or a line feed. Empty cells and rows without cells
    are kept. *)
Theorem SimpleStreamWriter_roundtrip (d : Z) (names : list (list Z)) (rows : list (list (list Z))) :
  d <> 10 -> Forall (Forall (fun c => d ∉ c /\ 10 ∉ c)) rows ->
  read_table d (stream_ (write_table names rows (SimpleStreamWriter_ctor [] true [d]))) = rows.
Proof.
  intros Hd Hr. rewrite write_table_simple. cbn [disable_header_ stream_ stream_put separator_ SimpleStreamWriter_ctor app].
  unfold read_table.
  assert (He : concat (row_text [d] <$> rows) = concat ((fun l => l ++ [10]) <$> ((fun r => concat ((fun c => c ++ [d]) <$> r)) <$> rows)))
    by (rewrite <- list_fmap_compose; done).
  rewrite He, Split_terminated.
  - clear He. rewrite <- list_fmap_compose. induction Hr as [|r rows Hr _ IH]; [done|]. cbn. f_equal; [|exact IH].
    apply Split_terminated. eapply Forall_impl; [exact Hr|]. by intros c [].
  - apply Forall_fmap. eapply Forall_impl; [exact Hr|]. intros r Hc. cbn. induction Hc as [|c r [Hc H10] _ IH]; [by apply not_elem_of_nil|].
    cbn. rewrite !elem_of_app, list_elem_of_singleton. naive_solver.
Qed.

(** ** Escaping *)

Definition entities : list (list Z * Z) :=
  [(str "&amp;", 38); (str "&quot;", 34); (str "&apos;", 39); (str "&lt;", 60); (str "&gt;", 62)].

(** What a browser shows for the text of an element: the entities are replaced. *)
Fixpoint unescape (fuel : nat) (s : list Z) : list Z :=
  match fuel, s with
  | O, _ | _, [] => []
  | S fuel, c :: rest =>
      match List.find (fun e => is_prefix e.1 s) entities with
      | Some e => e.2 :: unescape fuel (drop (length e.1) s)
      | None => c :: unescape fuel rest
      end
  end.

Lemma no_entity ch rest : ch <> 38 -> List.find (fun e => is_prefix e.1 (ch :: rest)) entities = None.
Proof.
  intros Hc. assert (He : Forall (fun e => head e.1 = Some 38) entities) by (apply (bool_decide_unpack _); by vm_compute).
  induction He as [|[[|c e] x] es Hh _ IH]; cbn in *; [done|done|]. injection Hh as ->. destruct (Z.eqb_spec 38 ch); [lia|]. done.
Qed.

Lemma unescape_char fuel ch rest : unescape (S fuel) (escape_char ch ++ rest) = ch :: unescape fuel rest.
Proof.
  unfold escape_char.
  do 5 (match goal with |- context [ch =? ?k] => destruct (Z.eqb_spec ch k) as [->|]; [vm_compute; reflexivity|] end).
  cbn [app unescape]. by rewrite no_entity.
Qed.

Lemma Escape_unescape data : forall fuel, (length data <= fuel)%nat -> unescape fuel (Escape data) = data.
Proof.
  induction data as [|c data IH]; intros [|fuel] Hf; cbn in Hf; try done; [lia|].
  change (Escape (c :: data)) with (escape_char c ++ Escape data). rewrite unescape_char, IH by lia. done.
Qed.

Lemma escape_char_length c : (1 <= length (escape_char c))%nat.
Proof. unfold escape_char. repeat case_match; cbn; lia. Qed.

Lemma Escape_length data : (length data <= length (Escape data))%nat.
Proof.
  induction data as [|c data IH]; [done|]. change (Escape (c :: data)) with (escape_char c ++ Escape data).
  rewrite length_app. pose proof (escape_char_length c). cbn. lia.
Qed.

Lemma escape_char_safe c : Forall (fun x => x ∉ str "<>'" /\ x <> 34) (escape_char c).
Proof.
  unfold escape_char. repeat (case_match; [by apply (bool_decide_unpack _); vm_compute|]).
  constructor; [|done]. rewrite !Z.eqb_neq in *. split; [|done]. intros Hx.
  repeat (apply elem_of_cons in Hx as [Hx|Hx]; [vm_compute in Hx; lia|]). by apply not_elem_of_nil in Hx.
Qed.

(** [HtmlWriter::Escape] protects the markup and loses nothing: the escaped text has none of
    the characters that open or close a tag or a quoted attribute, and replacing its entities,
    as a browser does, gives back the text of the cell. *)
Theorem Escape_roundtrip (data : list Z) :
  Forall (fun x => x ∉ str "<>'" /\ x <> 34) (Escape data) /\ unescape (length (Escape data)) (Escape data) = data.
Proof.
  split; [|apply Escape_unescape, Escape_length].
  unfold Escape. apply Forall_concat, Forall_fmap. apply Forall_true. intros c. apply escape_char_safe.
Qed.

(** ** Examples *)

Lemma SimpleStreamWriter_roundtrip_witness :
  read_table 9 (stream_ (write_table [str "a"; str "b"] [[str "1"; []]; [str "x y"; str "2"]] (SimpleStreamWriter_ctor [] true [9]))) =
    [[str "1"; []]; [str "x y"; str "2"]].
Proof.
  apply (SimpleStreamWriter_roundtrip 9); [discriminate|]. apply (bool_decide_unpack _). vm_compute. exact I.
Defined.

Example html_cell :
  ss_ (WriteOneCell (str "a<b") HtmlWriter_ctor) = str "<div>a&lt;b</div>".
Proof. vm_compute. reflexivity. Qed.

Example html_table :
  ss_ (write_table [str "n"] [[str "1"]] HtmlWriter_ctor) =
  str "<table><thead><tr><td>n</td></tr></thead><tr><td>1</td></tr></table>".
Proof. vm_compute. reflexivity. Qed.
