(* ===== verification/Instance.v ===== *)
(** * Running SQL texts

    [ExecuteSqlTxn] of src/common/bustub_instance.cpp: the meta commands, and for every statement of a
    text binding and then creating a table or an index, setting or showing a variable,
    EXPLAIN, or planning, optimizing, executing and printing a query. The parser is a parameter, the writer any
    instance of [ResultWriter]. What has been written when an exception leaves a function stays
    written. The locks of the catalog are not modelled (one thread).

    [ExecuteQuery_correct] composes the binder, the planner, the optimizer, the executors and the
    writer: the text of a query with a well-typed plan prints exactly the rows of the list
    semantics of the plan. *)

From Stdlib Require Import String.
From S2P Require Import Prelude.
From S2P Require Import CStd.
From S2P Require Import StringUtil.
From S2P Require Import Value.
From S2P Require Import Types.
From S2P Require Import ValueFactory.
From S2P Require Import Tuple.
From S2P Require Import Interfaces.
From S2P Require Import ExtHash.
From S2P Require Import LruK.
From S2P Require Import Disk.
From S2P Require Import BufferPool.
From S2P Require Import Pool.
From S2P Require Import Pages.
From S2P Require Import TablePage.
From S2P Require Import TableHeap.
From S2P Require Import TxnManager.
From S2P Require Import Index.
From S2P Require Import Catalog.
From S2P Require Import Transactions.
From S2P Require Import Expressions.
From S2P Require Import Plans.
From S2P Require Import Bound.
From S2P Require Import Binder.
From S2P Require Import Planner.
From S2P Require Import MockScan.
From S2P Require Import Executors.
From S2P Require Import PlannerTheory.
From S2P Require Import PlanTyping.
From S2P Require Import Optimizer.
From S2P Require Import Explain.
From S2P Require Import Writers.
Local Open Scope Z_scope.
Local Open Scope bustub_scope.

(** [session_variables_] *)
Abbreviation Variables := (gmap (list Z) (list Z)).
Definition GetSessionVariable (session_variables_ : Variables) (key : list Z) : list Z := default [] (session_variables_ !! key).
Definition IsForceStarterRule (session_variables_ : Variables) : bool :=
  let variable := Lower (GetSessionVariable session_variables_ (str "force_optimizer_starter_rule")) in
  existsb (fun s => bool_decide (variable = str s)) ["1"; "true"; "yes"]%string.

(** ** Writing with exceptions

    What a function has written when an exception leaves it stays written: a step of printing gives
    the writer and the exception, if any. *)

Section writing.
Context {W : Type} `{ResultWriter W}.

Definition wthen (m : W * option exn) (k : W -> W * option exn) : W * option exn :=
  match m with (w, None) => k w | (w, Some x) => (w, Some x) end.
Definition wret (w : W) : W * option exn := (w, None).
Definition wcell (cell : result (list Z)) (w : W) : W * option exn :=
  match cell with Ok c => (WriteCell c w, None) | Throw x => (w, Some x) end.
Fixpoint write_each {A} (f : A -> W -> W * option exn) (l : list A) (w : W) : W * option exn :=
  match l with [] => (w, None) | a :: l => wthen (f a w) (write_each f l) end.

(** The cells of a row, and the loop over the result set. *)
Definition row_cells (schema : Schema) (tuple : Tuple) : list (result (list Z)) :=
  (fun i => (let! v := Tuple_GetValue tuple schema (Z.of_nat i) in Value_ToString v)%bustub) <$> seq 0 (length (columns_ schema)).
Definition write_tuple (schema : Schema) (tuple : Tuple) (w : W) : W * option exn :=
  wthen (write_each wcell (row_cells schema tuple) (BeginRow w)) (fun w => wret (EndRow w)).
Definition write_result (schema : Schema) (result_set : list Tuple) (w : W) : W * option exn :=
  wthen (write_each (write_tuple schema) result_set (write_header (column_name_ <$> columns_ schema) (BeginTable false w)))
    (fun w => wret (EndTable w)).
End writing.

(** ** Meta commands *)

Section meta.
Context {W : Type} `{ResultWriter W}.
Context (iteration : gmap (list Z) Z -> list (list Z * Z)) (catalog_ : Catalog).

Definition CmdDisplayTables (w : W) : W * option exn :=
  let w := write_header [str "oid"; str "name"; str "cols"] (BeginTable false w) in
  wthen
    (write_each (fun name w =>
       let w := BeginRow w in
       match GetTable_name catalog_ name with
       | Throw x => (w, Some x)
       | Ok None => (w, Some Undefined)
       | Ok (Some table_info) =>
           wret (EndRow (WriteCell (Schema_ToString (ti_schema_ table_info) true)
             (WriteCell (ti_name_ table_info) (WriteCell (to_string (ti_oid_ table_info)) w))))
       end) (GetTableNames iteration catalog_) w)
    (fun w => wret (EndTable w)).

Definition CmdDisplayIndices (w : W) : W * option exn :=
  let w := write_header [str "table_name"; str "index_oid"; str "index_name"; str "index_cols"] (BeginTable false w) in
  wthen
    (write_each (fun table_name w =>
       match GetTableIndexes iteration catalog_ table_name with
       | Throw x => (w, Some x)
       | Ok infos =>
           write_each (fun index_info w =>
             wret (write_row [table_name; to_string (ii_index_oid_ index_info); ii_name_ index_info;
                              Schema_ToString (ii_key_schema_ index_info) true] w)) infos w
       end) (GetTableNames iteration catalog_) w)
    (fun w => wret (EndTable w)).

Definition help : list Z :=
  Join (str <$> ["Welcome to the BusTub shell!"; ""; "\dt: show all tables"; "\di: show all indices"; "\help: show this message again"; "";
    "BusTub shell currently only supports a small set of Postgres queries. We'll set";
    "up a doc describing the current status later. It will silently ignore some parts";
    "of the query, so it's normal that you'll get a wrong result when executing";
    "unsupported SQL queries. This shell will be able to run `create table` only";
    "after you have completed the buffer pool manager. It will be able to execute SQL";
    "queries after you have implemented necessary query executors. Use `explain` to";
    "see the execution plan of your query."; ""]%string) [10].
Definition CmdDisplayHelp (w : W) : W := WriteOneCell help w.
End meta.

(** ** The instance *)

(** The state one statement works on. *)
Record Session (P W : Type) := mkSession {
  catalog_ : Catalog;
  session_variables_ : Variables;
  pages_ : P;
  txn_of : Transaction;
  writer_ : W;
}.
Arguments mkSession {P W} catalog_ session_variables_ pages_ txn_of writer_.
Arguments catalog_ {P W} s.
Arguments session_variables_ {P W} s.
Arguments pages_ {P W} s.
Arguments txn_of {P W} s.
Arguments writer_ {P W} s.

(** How a call ends: it returns, an exception leaves it, or it does not come to an end (the fuel is used up, a call
    waits for ever, or the storage failed). *)
Inductive exit : Type := Done | Thrown (x : exn) | Stopped.

Section instance.
Context {P W : Type} `{Pages P} `{ResultWriter W}.
Context (parse : list Z -> result (list PGStmt)) (escaped : list Z -> list Z) (enable_logging : bool).
Context (shuffle : list Z -> list Z) (iteration : gmap (list Z) Z -> list (list Z * Z)).
Context (plan_fuel exec_fuel : nat).
Implicit Types (s : Session P W).

Definition set_writer s (w : W) : Session P W := mkSession (catalog_ s) (session_variables_ s) (pages_ s) (txn_of s) w.
Definition set_variables s (v : Variables) : Session P W := mkSession (catalog_ s) v (pages_ s) (txn_of s) (writer_ s).
(** What a printing step leaves. *)
Definition printed s (r : W * option exn) : Session P W * exit :=
  (set_writer s r.1, match r.2 with None => Done | Some x => Thrown x end).

Definition execute_create s (table : list Z) (columns : list Column) : Session P W * exit :=
  match CreateTable enable_logging (pages_ s) (catalog_ s) (txn_of s) table (Schema_ctor columns) true with
  | Ret (info, c, p, t) =>
      let s := mkSession c (session_variables_ s) p t (writer_ s) in
      match info with
      | None => (s, Thrown EMessage)
      | Some info => (set_writer s (WriteOneCell (str "Table created with id = " ++ to_string (ti_oid_ info)) (writer_ s)), Done)
      end
  | _ => (s, Stopped)
  end.

(** The ids of the indexed columns, which are INTEGER. *)
Fixpoint index_columns (schema : Schema) (cols : list (list (list Z))) : result (list Z) :=
  match cols with
  | [] => Ok []
  | col :: cols =>
      let! name := match last col with Some name => Ok name | None => Throw Undefined end in
      let! idx := GetColIdx schema name in
      let! column := GetColumn schema idx in
      if negb (TypeId_eqb (column_type_ column) INTEGER) then Throw NotImplemented
      else let! ids := index_columns schema cols in Ok (idx :: ids)
  end.

Definition INTEGER_SIZE : Z := 4.

Definition execute_index s (index_name : list Z) (table : BaseTableRef) (cols : list (list (list Z))) : Session P W * exit :=
  match (let! col_ids := index_columns (bt_schema_ table) cols in
         if negb (zlen col_ids =? 1) then Throw NotImplemented
         else let! key_schema := CopySchema (bt_schema_ table) col_ids in Ok (col_ids, key_schema)) with
  | Throw x => (s, Thrown x)
  | Ok (col_ids, key_schema) =>
      match CreateIndex enable_logging INTEGER_SIZE exec_fuel (pages_ s) (catalog_ s) (txn_of s) index_name (bt_table_ table)
              (bt_schema_ table) key_schema col_ids INTEGER_SIZE with
      | Ret (info, c, p, t) =>
          let s := mkSession c (session_variables_ s) p t (writer_ s) in
          match info with
          | None => (s, Thrown EMessage)
          | Some info => (set_writer s (WriteOneCell (str "Index created with id = " ++ to_string (ii_index_oid_ info)) (writer_ s)), Done)
          end
      | _ => (s, Stopped)
      end
  end.

(** Planning and optimizing; [None] when the fuel of the planner runs out. *)
Definition plan_and_optimize s (statement : BoundStatement) : option (result (AbstractPlanNode * AbstractPlanNode)) :=
  match PlanQuery (catalog_ s) plan_fuel statement Planner_ctor with
  | None => None
  | Some (Throw x) => Some (Throw x)
  | Some (Ok (plan_, _)) =>
      Some (let! optimized_plan := Optimize iteration (catalog_ s) (IsForceStarterRule (session_variables_ s)) plan_ in
            Ok (plan_, optimized_plan))
  end.

(** A part of the text of EXPLAIN, printed when its option is set. *)
Definition explain_part (options bit : Z) (title : list Z) (text : result (list Z)) : result (list Z) :=
  if negb (Z.land options bit =? 0) then let! t := text in Ok (title ++ [10] ++ t ++ [10]) else Ok [].

Definition execute_explain s (statement : BoundStatement) (options : Z) : Session P W * exit :=
  let show_schema := negb (Z.land options 8 =? 0) in
  match explain_part options 1 (str "=== BINDER ===") (BoundStatement_ToString escaped statement) with
  | Throw x => (s, Thrown x)
  | Ok binder_text =>
      match PlanQuery (catalog_ s) plan_fuel statement Planner_ctor with
      | None => (s, Stopped)
      | Some (Throw x) => (s, Thrown x)
      | Some (Ok (plan_, _)) =>
          match (let! planner_text := explain_part options 2 (str "=== PLANNER ===") (Plan_ToString show_schema plan_) in
                 let! optimized_plan := Optimize iteration (catalog_ s) (IsForceStarterRule (session_variables_ s)) plan_ in
                 let! optimizer_text := explain_part options 4 (str "=== OPTIMIZER ===") (Plan_ToString show_schema optimized_plan) in
                 Ok (planner_text ++ optimizer_text)) with
          | Throw x => (s, Thrown x)
          | Ok text => (set_writer s (WriteOneCell (binder_text ++ text) (writer_ s)), Done)
          end
      end
  end.

Definition execute_query s (statement : BoundStatement) : Session P W * exit :=
  match plan_and_optimize s statement with
  | None => (s, Stopped)
  | Some (Throw x) => (s, Thrown x)
  | Some (Ok (plan_, optimized_plan)) =>
      match Execute shuffle exec_fuel optimized_plan [] with
      | None => (s, Stopped)
      | Some (Throw x) => (s, Thrown x)
      | Some (Ok (_, result_set)) => printed s (write_result (OutputSchema plan_) result_set (writer_ s))
      end
  end.

(** The body of the loop of [ExecuteSqlTxn], by the type of the statement. *)
Definition ExecuteStatement s (statement : BoundStatement) : Session P W * exit :=
  match statement with
  | CreateStmt table columns => execute_create s table columns
  | IndexStmt index_name table cols => execute_index s index_name table cols
  | VariableShowStmt variable =>
      let content := GetSessionVariable (session_variables_ s) variable in
      (set_writer s (WriteOneCell (variable ++ str "=" ++ content) (writer_ s)), Done)
  | VariableSetStmt variable value => (set_variables s (<[variable := value]> (session_variables_ s)), Done)
  | ExplainStmt statement options => execute_explain s statement options
  | _ => execute_query s statement
  end.

Fixpoint execute_statements (stmts : list PGStmt) (universal_id_ : Z) s : Session P W * exit :=
  match stmts with
  | [] => (s, Done)
  | stmt :: stmts =>
      match BindStatement (catalog_ s) stmt universal_id_ with
      | Throw x => (s, Thrown x)
      | Ok (statement, universal_id_) =>
          match ExecuteStatement s statement with
          | (s, Done) => execute_statements stmts universal_id_ s
          | r => r
          end
      end
  end.

Definition ExecuteSqlTxn (sql : list Z) s : Session P W * exit :=
  if bool_decide (head sql = Some 92) then
    if bool_decide (sql = str "\dt") then printed s (CmdDisplayTables iteration (catalog_ s) (writer_ s))
    else if bool_decide (sql = str "\di") then printed s (CmdDisplayIndices iteration (catalog_ s) (writer_ s))
    else if bool_decide (sql = str "\help") then (set_writer s (CmdDisplayHelp (writer_ s)), Done)
    else (s, Thrown EMessage)
  else
    match parse sql with
    | Throw x => (s, Thrown x)
    | Ok statement_nodes_ => execute_statements statement_nodes_ 0 s
    end.
End instance.

(** ** Printing *)

Lemma ToString_total v : wf_value v -> exists s, Value_ToString v = Ok s.
Proof.
  unfold wf_value, Value_ToString. destruct v as [t val len]. cbn [type_id_ value_ len_].
  destruct t; try done; destruct val; try done; intros Hw; cbn [GetInstance rbind].
  1: unfold BooleanType_ToString; repeat case_match; by eexists.
  1-4: unfold TinyintType_ToString, SmallintType_ToString, IntegerType_ToString, BigintType_ToString; cbn;
       destruct (IsNull _); by eexists.
  - unfold DecimalType_ToString. destruct (IsNull _); by eexists.
  - unfold VarlenType_ToString, VarlenType_GetLength, VarlenType_GetData, IsNull. cbn [len_ value_]. destruct data as [data|].
    + destruct Hw as [-> Hw]. do 3 (case_match; [by eexists|]). destruct (zlen data <? zlen data - 1) eqn:E; [lia|]. by eexists.
    + rewrite Hw, Z.eqb_refl. by eexists.
Qed.

(** The cells of a tuple are its values, printed. *)
Lemma row_cells_values s b t :
  tuple_of s b t -> exists vs line, Tuple_ctor vs s = Ok t /\ type_id_ <$> vs = schema_types s /\
    rseq (Value_ToString <$> vs) = Ok line /\ row_cells s t = Ok <$> line.
Proof.
  intros (cols & vs & -> & Hv & Hg & _ & Ht). destruct (tuple_ctor_ok cols vs Hv) as (t' & Ht' & _ & Hr).
  rewrite Ht in Ht'. injection Ht' as <-. pose proof (values_types cols vs Hv) as Hty.
  assert (Hp : exists line, rseq (Value_ToString <$> vs) = Ok line).
  { clear -Hg. induction Hg as [|v vs [Hw _] _ (line & IH)]; [by exists []|]. destruct (ToString_total v Hw) as (x & Hx).
    exists (x :: line). cbn. by rewrite Hx, IH. }
  destruct Hp as (line & Hl). exists vs, line. split_and!; [done|by rewrite Schema_ctor_types|done|].
  apply rseq_Ok in Hl. rewrite <- Hl. unfold row_cells. apply list_eq. intros i. rewrite !list_lookup_fmap.
  assert (Hn : length (columns_ (Schema_ctor cols)) = length vs).
  { pose proof (f_equal length (Schema_ctor_types cols)) as H1. unfold schema_types in H1. apply (f_equal length) in Hty.
    rewrite !length_fmap in H1. rewrite !length_fmap in Hty. lia. }
  rewrite Hn. destruct (vs !! i) as [v|] eqn:Ev.
  - rewrite lookup_seq_lt by (by eapply lookup_lt_Some). cbn. rewrite (Hr (Z.of_nat i) v) by (try lia; by rewrite Nat2Z.id). done.
  - rewrite lookup_seq_ge; [done|]. by apply lookup_ge_None.
Qed.

Section write_lemmas.
Context {W : Type} `{ResultWriter W}.

Lemma write_each_pure {A} (f : A -> W -> W) (l : list A) : forall w, write_each (fun a w => wret (f a w)) l w = (foldl (fun w a => f a w) w l, None).
Proof. induction l as [|a l IH]; intros w; [done|]. cbn. apply IH. Qed.

Lemma write_each_ext {A} (f g : A -> W -> W * option exn) (l : list A) :
  Forall (fun a => forall w, f a w = g a w) l -> forall w, write_each f l w = write_each g l w.
Proof. induction 1 as [|a l Ha _ IH]; intros w; [done|]. cbn. rewrite Ha. destruct (g a w) as [w' [x|]]; cbn; [done|apply IH]. Qed.

Lemma write_tuple_ok schema t line (w : W) : row_cells schema t = Ok <$> line -> write_tuple schema t w = (write_row line w, None).
Proof.
  intros E. unfold write_tuple, write_row. rewrite E. generalize (BeginRow w) as w'.
  assert (Hc : forall w', write_each wcell (Ok <$> line) w' = (foldl (fun w c => WriteCell c w) w' line, None)).
  { clear. induction line as [|c line IH]; intros w'; [done|]. cbn. apply IH. }
  intros w'. by rewrite Hc.
Qed.

Lemma write_result_ok schema ts lines (w : W) :
  Forall2 (fun t line => row_cells schema t = Ok <$> line) ts lines ->
  write_result schema ts w = (write_table (column_name_ <$> columns_ schema) lines w, None).
Proof.
  intros Hf. unfold write_result, write_table. generalize (write_header (column_name_ <$> columns_ schema) (BeginTable false w)) as w'.
  assert (Hr : forall w', write_each (write_tuple schema) ts w' = (write_rows lines w', None)).
  { clear w. induction Hf as [|t line ts lines E _ IH]; intros w'; [done|]. cbn. rewrite (write_tuple_ok _ _ _ _ E). cbn. apply IH. }
  intros w'. by rewrite Hr.
Qed.
End write_lemmas.

Lemma simple_executable p : simple p = true -> executable p = true.
Proof.
  induction p as [out cs kind IH] using plan_ind. cbn [simple executable].
  assert (Hf : forallb simple cs = true -> forallb executable cs = true).
  { induction IH as [|c cs Hc _ IHc]; [done|]. cbn. rewrite !andb_true_iff. naive_solver. }
  by destruct kind; auto.
Qed.

(** ** Property *)

Section queries.
Context {P W : Type} `{Pages P} `{ResultWriter W}.
Context (parse : list Z -> result (list PGStmt)) (escaped : list Z -> list Z) (enable_logging : bool).
Context (shuffle : list Z -> list Z) (shuffle_perm : forall l, shuffle l ≡ₚ l).
Context (iteration : gmap (list Z) Z -> list (list Z * Z)) (plan_fuel : nat).

Lemma ExecuteSqlTxn_single exec_fuel sql (s : Session P W) stmt statement id :
  head sql <> Some 92 -> parse sql = Ok [stmt] -> BindStatement (catalog_ s) stmt 0 = Ok (statement, id) ->
  ExecuteSqlTxn parse escaped enable_logging shuffle iteration plan_fuel exec_fuel sql s =
    ExecuteStatement escaped enable_logging shuffle iteration plan_fuel exec_fuel s statement.
Proof.
  intros Hs Hp Hb. unfold ExecuteSqlTxn. rewrite bool_decide_false by done.
  rewrite Hp. cbn [execute_statements]. rewrite Hb. by destruct (ExecuteStatement _ _ _ _ _ _ s statement) as [s1 []].
Qed.

(** A statement that is planned is a query. *)
Lemma ExecuteStatement_planned exec_fuel (s : Session P W) statement plan s' :
  PlanQuery (catalog_ s) plan_fuel statement Planner_ctor = Some (Ok (plan, s')) ->
  ExecuteStatement escaped enable_logging shuffle iteration plan_fuel exec_fuel s statement =
    execute_query shuffle iteration plan_fuel exec_fuel s statement.
Proof. by destruct statement. Qed.

(** The printed rows of a plan. *)
Definition prints (plan : AbstractPlanNode) (r : result Tuple) (vs : list Value) (line : list (list Z)) : Prop :=
  r = Tuple_ctor vs (OutputSchema plan) /\ type_id_ <$> vs = schema_types (OutputSchema plan) /\
  rseq (Value_ToString <$> vs) = Ok line.

Lemma printed_rows plan tuples b :
  Forall (tuple_of (OutputSchema plan) b) tuples ->
  exists rows lines, Forall2 (fun t p => prints plan (Ok t) p.1 p.2) tuples (zip rows lines) /\ length rows = length tuples /\
    length lines = length tuples /\ Forall2 (fun t line => row_cells (OutputSchema plan) t = Ok <$> line) tuples lines.
Proof.
  induction 1 as [|t ts Ht _ (rows & lines & Hf & H1 & H2 & H3)]; [by exists [], []|].
  destruct (row_cells_values _ _ _ Ht) as (vs & line & Hc & Hty & Hl & Hr). exists (vs :: rows), (line :: lines).
  split_and!; [constructor; [|done]; by split_and!|cbn; lia|cbn; lia|by constructor].
Qed.

(** C13: a query from its SQL text to the printed table. When the parser and the binder accept the text as one
    query whose plan is well typed, made of values, mock scans, filters and projections, and no
    expression in it can fail, the run (planning, every optimizer rule, execution, printing) ends without
    an exception, with any optimizer setting and any writer: it writes one table, whose header has the
    names of the plan's columns and which has one row for each row of the plan's list semantics, with the
    values of the row, which have the types of the columns, printed. Nothing but the writer changes. *)
Theorem ExecuteQuery_correct (s : Session P W) (sql : list Z) (stmt : PGStmt) (id : Z) (statement : BoundStatement)
    (plan : AbstractPlanNode) (s' : Planner) :
  head sql <> Some 92 -> parse sql = Ok [stmt] -> BindStatement (catalog_ s) stmt 0 = Ok (statement, id) ->
  PlanQuery (catalog_ s) plan_fuel statement Planner_ctor = Some (Ok (plan, s')) ->
  plan_typed plan -> simple plan = true -> plan_may_fail plan = false ->
  exists n rows lines,
    Forall2 (fun r p => prints plan r p.1 p.2) (plan_rows shuffle plan) (zip rows lines) /\
    length rows = length lines /\
    forall exec_fuel, (n < exec_fuel)%nat ->
      ExecuteSqlTxn parse escaped enable_logging shuffle iteration plan_fuel exec_fuel sql s =
        (set_writer s (write_table (column_name_ <$> columns_ (OutputSchema plan)) lines (writer_ s)), Done).
Proof.
  intros Hsql Hpa Hbi Hp Ht Hm Hf. pose proof (plan_rows_ok shuffle shuffle_perm plan Ht) as Hr. rewrite Hf in Hr.
  destruct (rows_all_ok _ _ _ Hr) as (ts & Hts). rewrite Hts in Hr. apply (Forall_fmap Ok) in Hr.
  destruct (printed_rows plan ts _ Hr) as (rows & lines & Hl & Hn1 & Hn2 & Hc).
  destruct (Optimize_total shuffle shuffle_perm iteration (catalog_ s) (IsForceStarterRule (session_variables_ s)) plan Ht Hm) as (q & Hq).
  pose proof (Optimize_equiv shuffle shuffle_perm iteration (catalog_ s) _ _ _ Ht Hq) as He.
  exists (plan_calls plan `max` plan_calls q)%nat, rows, lines. split_and!; [|lia|].
  - rewrite Hts. by apply Forall2_fmap_l.
  - intros exec_fuel Hx. rewrite ExecuteSqlTxn_single with (statement := statement) (id := id) (stmt := stmt) by done.
    rewrite ExecuteStatement_planned with (plan := plan) (s' := s') by done.
    unfold execute_query, plan_and_optimize. rewrite Hp, Hq. cbn [rbind].
    rewrite (equiv_Execute shuffle shuffle_perm plan q) by (done || by apply typed_shaped).
    rewrite (execute_rows shuffle shuffle_perm) by (by apply typed_shaped || lia). rewrite simple_executable, Hts, collect_all by done.
    cbn [app]. by rewrite (write_result_ok _ _ lines).
Qed.
End queries.

(** ** Example *)

(** [values (1, 10), (2, 20)], as the parser gives it. *)
Definition demo_parse (_ : list Z) : result (list PGStmt) :=
  let constant z := PGAConst (PGInteger z) in
  Ok [PGRawStmt (PGSelect (mkPGSelect None None None None None None (Some [[constant 1; constant 10]; [constant 2; constant 20]])
        None None None None))].
Definition demo_sql : list Z := str "values (1, 10), (2, 20);".
Definition demo_statement : BoundStatement :=
  let constant z := BoundConstant (VInt INTEGER z) in
  SelectStmt (mkSelect (BoundExpressionListRef [[constant 1; constant 10]; [constant 2; constant 20]] (str "__values#0"))
    [column "__values#0" "0"; column "__values#0" "1"] BoundInvalid [] BoundInvalid BoundInvalid BoundInvalid [] [] false).
Definition demo_plan : AbstractPlanNode :=
  let constant z := ConstantValueExpression (VInt INTEGER z) in
  let schema := Schema_ctor [mkColumn (str "__values#0.0") INTEGER 4 0 0; mkColumn (str "__values#0.1") INTEGER 4 0 0] in
  PlanNode schema [PlanNode schema [] (ValuesPlanNode [[constant 1; constant 10]; [constant 2; constant 20]])]
    (ProjectionPlanNode [ColumnValueExpression 0 0 INTEGER; ColumnValueExpression 0 1 INTEGER]).

Lemma query_plan_typed : plan_typed demo_plan.
Proof.
  assert (Hs : schema_ok (OutputSchema demo_plan) 0) by (eexists; split_and!; [reflexivity|by repeat constructor|lia|cbn; lia]).
  cbn [plan_typed demo_plan foldr]. split_and!; try done; try (by repeat constructor).
Qed.

Definition demo_session : Session pool SimpleStreamWriter :=
  mkSession Catalog_ctor ∅ (new_pool 3 2 new_disk) Transaction_ctor (SimpleStreamWriter_ctor [] true (str " ")).

Lemma ExecuteQuery_correct_witness :
  exists (n : nat) (lines : list (list (list Z))), length lines = 2%nat /\
    forall exec_fuel, (n < exec_fuel)%nat ->
      ExecuteSqlTxn demo_parse id false id map_to_list 2 exec_fuel demo_sql demo_session =
        (set_writer demo_session (write_table [str "__values#0.0"; str "__values#0.1"] lines (writer_ demo_session)), Done).
Proof.
  assert (Eb : BindStatement Catalog_ctor (PGRawStmt (PGSelect (mkPGSelect None None None None None None
    (Some [[PGAConst (PGInteger 1); PGAConst (PGInteger 10)]; [PGAConst (PGInteger 2); PGAConst (PGInteger 20)]]) None None None None))) 0
    = Ok (demo_statement, 1)) by (vm_compute; reflexivity).
  assert (E : PlanQuery Catalog_ctor 2 demo_statement Planner_ctor = Some (Ok (demo_plan, Planner_ctor))) by (vm_compute; reflexivity).
  assert (Hsql : head demo_sql <> Some 92) by (vm_compute; discriminate).
  destruct (ExecuteQuery_correct demo_parse id false id (fun l => Permutation_refl l) map_to_list 2 demo_session demo_sql _ _ _ _ _
    Hsql eq_refl Eb E query_plan_typed eq_refl eq_refl) as (n & rows & lines & Hf & Hl & Hx).
  exists n, lines. split; [|exact Hx].
  apply Forall2_length in Hf. rewrite length_zip_with in Hf.
  assert (H2 : length (plan_rows id demo_plan) = 2%nat) by (vm_compute; reflexivity). rewrite H2 in Hf. lia.
Defined.

Example demo_runs :
  stream_ (writer_ (ExecuteSqlTxn demo_parse id false id map_to_list 2 100 demo_sql demo_session).1) = str "1 10 " ++ [10] ++ str "2 20 " ++ [10].
Proof. vm_compute. reflexivity. Qed.
