(* ===== verification/Session.v ===== *)
(** * Scripts on an instance

    [BustubInstance] as the shell and the test tool use it (src/common/bustub_instance.cpp):
    [ExecuteSql] runs a text in a transaction of its own, [GenerateMockTable] registers the mock
    tables. An exception leaves [ExecuteSql] before the transaction is committed.

    Proved: whatever a sequence of texts does, failing ones included, the catalog stays consistent
    and the meta commands list exactly its tables and indexes; and each text that fails leaves
    its transaction open. *)

From Stdlib Require Import String.
From S2P Require Import Prelude.
From S2P Require Import CStd.
From S2P Require Import StringUtil.
From S2P Require Import Interfaces.
From S2P Require Import ExtHash.
From S2P Require Import LruK.
From S2P Require Import Disk.
From S2P Require Import BufferPool.
From S2P Require Import Pool.
From S2P Require Import Pages.
From S2P Require Import TablePage.
From S2P Require Import TableHeap.
From S2P Require Import TxnManager.
From S2P Require Import Value.
From S2P Require Import Tuple.
From S2P Require Import HeaderPage.
From S2P Require Import BPlusTree.
From S2P Require Import Index.
From S2P Require Import Catalog.
From S2P Require Import Transactions.
From S2P Require Import Plans.
From S2P Require Import Bound.
From S2P Require Import Binder.
From S2P Require Import MockScan.
From S2P Require Import Explain.
From S2P Require Import Writers.
From S2P Require Import Instance.
Local Open Scope Z_scope.

(** ** The instance *)

Record BustubInstance (P : Type) := mkInstance {
  bi_catalog_ : Catalog;
  bi_session_variables_ : Variables;
  bi_pages_ : P;
  txn_manager_ : TransactionManager;
}.
Arguments mkInstance {P} bi_catalog_ bi_session_variables_ bi_pages_ txn_manager_.
Arguments bi_catalog_ {P} b.
Arguments bi_session_variables_ {P} b.
Arguments bi_pages_ {P} b.
Arguments txn_manager_ {P} b.

Definition BustubInstance_ctor {P} (pages : P) : BustubInstance P := mkInstance Catalog_ctor ∅ pages TransactionManager_ctor.

Section execute.
Context {P W : Type} `{Pages P} `{ResultWriter W}.
Context (parse : list Z -> result (list PGStmt)) (escaped : list Z -> list Z) (enable_logging : bool).
Context (shuffle : list Z -> list Z) (iteration : gmap (list Z) Z -> list (list Z * Z)).
Context (oid_order : gset Z -> list Z) (rid_order : gset RID -> list RID) (row_order : gmap Z (gset RID) -> list (Z * gset RID)).
Context (plan_fuel exec_fuel : nat).
Implicit Types (b : BustubInstance P).

Definition ExecuteSql (sql : list Z) (writer : W) b : BustubInstance P * W * exit :=
  match Begin (txn_manager_ b) REPEATABLE_READ with
  | Ret (id, m) =>
      let s0 := mkSession (bi_catalog_ b) (bi_session_variables_ b) (bi_pages_ b) Transaction_ctor writer in
      let '(s, e) := ExecuteSqlTxn parse escaped enable_logging shuffle iteration plan_fuel exec_fuel sql s0 in
      let txn := mkObject REPEATABLE_READ id (txn_of s) [] LockSets_ctor in
      match e with
      | Done =>
          match Commit oid_order rid_order row_order exec_fuel (pages_ s) m txn with
          | Ret (p, m, _) => (mkInstance (catalog_ s) (session_variables_ s) p (delete_transaction m id), writer_ s, Done)
          | _ => (mkInstance (catalog_ s) (session_variables_ s) (pages_ s) (put_object m txn), writer_ s, Stopped)
          end
      | _ => (mkInstance (catalog_ s) (session_variables_ s) (pages_ s) (put_object m txn), writer_ s, e)
      end
  | _ => (b, writer, Stopped)
  end.

(** The loop over [mock_table_list]. *)
Fixpoint create_mock_tables (names : list (list Z)) (p : P) (c : Catalog) (t : Transaction) : outcome (Catalog * P * Transaction) :=
  match names with
  | [] => Ret (c, p, t)
  | name :: names =>
      (let* schema := of_result (GetMockTableSchemaOf name) in
       let* (_, c, p, t) := CreateTable enable_logging p c t name schema false in
       create_mock_tables names p c t)%outcome
  end.
Definition GenerateMockTable b : outcome (BustubInstance P) :=
  (let* (id, m) := Begin (txn_manager_ b) REPEATABLE_READ in
   let* (c, p, t) := create_mock_tables mock_table_list (bi_pages_ b) (bi_catalog_ b) Transaction_ctor in
   let* (p, m, _) := Commit oid_order rid_order row_order exec_fuel p m (mkObject REPEATABLE_READ id t [] LockSets_ctor) in
   Ret (mkInstance c (bi_session_variables_ b) p (delete_transaction m id)))%outcome.

(** A script: the shell and the test tool catch the exceptions of a text and go on. The third component is
    the number of texts that threw; [None] when one did not come to an end. *)
Fixpoint run_script (sqls : list (list Z)) (w : W) b : option (BustubInstance P * W * nat) :=
  match sqls with
  | [] => Some (b, w, O)
  | sql :: sqls =>
      match ExecuteSql sql w b with
      | (b, w, Done) => run_script sqls w b
      | (b, w, Thrown _) => '(b, w, n) ← run_script sqls w b; Some (b, w, S n)
      | (_, _, Stopped) => None
      end
  end.

(** The number of statements of a script. *)
Definition statements_of (sql : list Z) : Z := match parse sql with Ok stmts => zlen stmts | Throw _ => 0 end.
Definition script_size (sqls : list (list Z)) : Z := foldr (fun sql n => statements_of sql + n) 0 sqls.
End execute.

(** ** The catalog *)

Section catalog_of_scripts.
Context {P W : Type} `{Pages P} `{ResultWriter W}.
Context (parse : list Z -> result (list PGStmt)) (escaped : list Z -> list Z) (enable_logging : bool).
Context (shuffle : list Z -> list Z) (iteration : gmap (list Z) Z -> list (list Z * Z)).
Context (oid_order : gset Z -> list Z) (rid_order : gset RID -> list RID) (row_order : gmap Z (gset RID) -> list (Z * gset RID)).
Context (plan_fuel exec_fuel : nat).

(** A consistent catalog of which at most [n] oids of each kind are used. *)
Definition catalog_upto (c : Catalog) (n : Z) : Prop := catalog_ok c /\ next_table_oid_ c <= n /\ next_index_oid_ c <= n.

Lemma catalog_upto_mono c n k : catalog_upto c n -> n <= k -> catalog_upto c k.
Proof. intros (? & ? & ?) ?. split_and!; [done|lia|lia]. Qed.

Lemma ExecuteStatement_catalog (s : Session P W) statement n :
  catalog_upto (catalog_ s) n -> n < 2 ^ 32 - 1 ->
  catalog_upto (catalog_ (ExecuteStatement escaped enable_logging shuffle iteration plan_fuel exec_fuel s statement).1) (n + 1).
Proof.
  intros Hc Hn. pose proof (catalog_upto_mono _ _ (n + 1) Hc ltac:(lia)) as Hsame. destruct Hc as (Hok & Ht & Hi).
  destruct statement; cbn [ExecuteStatement]; try exact Hsame;
    try (unfold execute_query, execute_explain; repeat case_match; cbn; exact Hsame).
  - unfold execute_create. destruct (CreateTable _ _ _ _ _ _ _) as [[[[r c'] p'] t']| | |] eqn:E; try exact Hsame.
    destruct (CreateTable_spec _ _ _ _ _ _ _ _ _ _ _ Hok ltac:(lia) E) as [(_ & -> & ->)|(Hnew & ti & -> & -> & Ho & Hna & _)]; [exact Hsame|].
    cbn. split_and!; [apply add_table_ok; congruence|cbn; lia|cbn; lia].
  - unfold execute_index. destruct (rbind _ _) as [[ids ks]|]; [|exact Hsame].
    destruct (CreateIndex _ _ _ _ _ _ _ _ _ _ _ _) as [[[[r c'] p'] t']| | |] eqn:E; try exact Hsame.
    destruct (CreateIndex_spec _ _ _ _ _ _ _ _ _ _ _ _ _ _ _ _ Hok ltac:(lia) E)
      as [(-> & -> & _)|(m & ii & -> & -> & Hm & Hnew & Ho & Hna & Htn & _)]; [exact Hsame|].
    cbn. split_and!; [apply add_index_ok; congruence|cbn; lia|cbn; lia].
Qed.

Lemma execute_statements_catalog stmts : forall id (s : Session P W) n,
  catalog_upto (catalog_ s) n -> n + zlen stmts <= 2 ^ 32 - 1 ->
  catalog_upto (catalog_ (execute_statements escaped enable_logging shuffle iteration plan_fuel exec_fuel stmts id s).1) (n + zlen stmts).
Proof.
  induction stmts as [|stmt stmts IH]; intros id s n Hc Hn; cbn [execute_statements].
  - eapply catalog_upto_mono; [exact Hc|]. unfold zlen. cbn. lia.
  - assert (Hz : zlen (stmt :: stmts) = 1 + zlen stmts) by (unfold zlen; cbn [length]; lia). rewrite Hz in *.
    assert (0 <= zlen stmts) by (unfold zlen; lia).
    destruct (BindStatement (catalog_ s) stmt id) as [[statement id']|]; [|eapply catalog_upto_mono; [exact Hc|lia]].
    pose proof (ExecuteStatement_catalog s statement n Hc ltac:(lia)) as Hs.
    destruct (ExecuteStatement _ _ _ _ _ _ s statement) as [s' []]; cbn in Hs |- *.
    + rewrite Z.add_assoc. apply IH; [exact Hs|lia].
    + eapply catalog_upto_mono; [exact Hs|lia].
    + eapply catalog_upto_mono; [exact Hs|lia].
Qed.

Lemma ExecuteSqlTxn_catalog sql (s : Session P W) n :
  catalog_upto (catalog_ s) n -> n + statements_of parse sql <= 2 ^ 32 - 1 ->
  catalog_upto (catalog_ (ExecuteSqlTxn parse escaped enable_logging shuffle iteration plan_fuel exec_fuel sql s).1) (n + statements_of parse sql).
Proof.
  intros Hc Hn. unfold statements_of in *.
  assert (Hz : 0 <= match parse sql with Ok stmts => zlen stmts | Throw _ => 0 end) by (destruct (parse sql); unfold zlen; lia).
  assert (Hm : catalog_upto (catalog_ s) (n + match parse sql with Ok stmts => zlen stmts | Throw _ => 0 end))
    by (eapply catalog_upto_mono; [exact Hc|lia]).
  unfold ExecuteSqlTxn. case_bool_decide; [repeat case_bool_decide; exact Hm|].
  destruct (parse sql) as [nodes|]; [by apply execute_statements_catalog|exact Hm].
Qed.

Lemma ExecuteSql_catalog sql w (b : BustubInstance P) n :
  catalog_upto (bi_catalog_ b) n -> n + statements_of parse sql <= 2 ^ 32 - 1 ->
  catalog_upto (bi_catalog_ (ExecuteSql parse escaped enable_logging shuffle iteration oid_order rid_order row_order plan_fuel exec_fuel sql w b).1.1)
    (n + statements_of parse sql).
Proof.
  intros Hc Hn. assert (0 <= statements_of parse sql) by (unfold statements_of, zlen; destruct (parse sql); lia).
  unfold ExecuteSql. destruct (Begin _ _) as [[id m]| | |]; try (cbn; eapply catalog_upto_mono; [exact Hc|lia]).
  pose proof (ExecuteSqlTxn_catalog sql (mkSession (bi_catalog_ b) (bi_session_variables_ b) (bi_pages_ b) Transaction_ctor w) n Hc Hn) as Hs.
  destruct (ExecuteSqlTxn _ _ _ _ _ _ _ _ _) as [s []]; cbn in Hs; [|done|done].
  by destruct (Commit _ _ _ _ _ _ _) as [[[p m'] calls]| | |].
Qed.

Lemma run_script_catalog sqls : forall w (b b' : BustubInstance P) w' k n,
  catalog_upto (bi_catalog_ b) n -> n + script_size parse sqls <= 2 ^ 32 - 1 ->
  run_script parse escaped enable_logging shuffle iteration oid_order rid_order row_order plan_fuel exec_fuel sqls w b = Some (b', w', k) ->
  catalog_ok (bi_catalog_ b').
Proof.
  induction sqls as [|sql sqls IH]; intros w b b' w' k n Hc Hn; cbn [run_script]; [intros [= <- <- <-]; apply Hc|].
  cbn [script_size foldr] in Hn. fold (script_size parse sqls) in Hn.
  assert (Hpos : 0 <= script_size parse sqls).
  { clear. induction sqls as [|q sqls IH]; cbn; [lia|]. unfold script_size, statements_of, zlen in *. destruct (parse q); lia. }
  pose proof (ExecuteSql_catalog sql w b n Hc ltac:(lia)) as Hs.
  destruct (ExecuteSql _ _ _ _ _ _ _ _ _ _ sql w b) as [[b1 w1] []]; cbn in Hs; [| |done].
  - intros Hr. eapply IH; [exact Hs|lia|exact Hr].
  - intros Hr. apply bind_Some in Hr as ([[b2 w2] j] & Hr & [= <- <- <-]). eapply IH; [exact Hs|lia|exact Hr].
Qed.

(** *** The meta commands *)

Context (iteration_perm : forall m, iteration m ≡ₚ map_to_list m).

Definition table_row (ti : TableInfo) : list (list Z) := [to_string (ti_oid_ ti); ti_name_ ti; Schema_ToString (ti_schema_ ti) true].
Definition index_row (ii : IndexInfo) : list (list Z) :=
  [ii_table_name_ ii; to_string (ii_index_oid_ ii); ii_name_ ii; Schema_ToString (ii_key_schema_ ii) true].

Lemma table_names_elem c n : n ∈ GetTableNames iteration c <-> is_Some (table_names_ c !! n).
Proof.
  unfold GetTableNames. rewrite iteration_perm, list_elem_of_fmap. split.
  - intros ([m oid] & -> & Hm%elem_of_map_to_list). by exists oid.
  - intros [oid Hn]. exists (n, oid). split; [done|]. by apply elem_of_map_to_list.
Qed.

Lemma table_names_NoDup c : NoDup (GetTableNames iteration c).
Proof. unfold GetTableNames. rewrite iteration_perm. apply NoDup_fst_map_to_list. Qed.

(** The table of each name. *)
Lemma tables_of_names c names :
  catalog_ok c -> Forall (fun n => is_Some (table_names_ c !! n)) names ->
  exists infos, Forall2 (fun n ti => GetTable_name c n = Ok (Some ti) /\ ti_name_ ti = n /\ GetTable c (ti_oid_ ti) = Some ti) names infos.
Proof.
  intros Hok. induction 1 as [|n names [oid Hn] _ (infos & IH)]; [by exists []|].
  destruct (ok_names c Hok n oid Hn) as (ti & Ht & Hna). destruct (ok_tables c Hok oid ti Ht) as (Ho & _).
  exists (ti :: infos). constructor; [|done]. split_and!; [|done|unfold GetTable; congruence].
  unfold GetTable_name. rewrite Hn. unfold the_entry. by rewrite Ht.
Qed.

Lemma CmdDisplayTables_ok c (w : W) :
  catalog_ok c -> exists infos, NoDup infos /\ (forall ti, ti ∈ infos <-> GetTable c (ti_oid_ ti) = Some ti) /\
    CmdDisplayTables iteration c w = (write_table [str "oid"; str "name"; str "cols"] (table_row <$> infos) w, None).
Proof.
  intros Hok. pose proof (table_names_NoDup c) as Hnd.
  destruct (tables_of_names c (GetTableNames iteration c) Hok) as (infos & Hf).
  { apply Forall_forall. intros n. apply table_names_elem. }
  exists infos. split_and!.
  - assert (Hn : ti_name_ <$> infos = GetTableNames iteration c).
    { clear -Hf. induction Hf as [|n ti ns infos (_ & Hn & _) _ IH]; [done|]. cbn. by rewrite Hn, IH. }
    rewrite <- Hn in Hnd. by apply NoDup_fmap_1 in Hnd.
  - intros ti. split.
    + intros Hi. apply list_elem_of_lookup in Hi as (i & Hi). by destruct (Forall2_lookup_r _ _ _ _ _ Hf Hi) as (n & _ & _ & _ & ?).
    + intros Ht. destruct (ok_tables c Hok _ _ Ht) as (_ & _ & Hn).
      assert (Hx : ti_name_ ti ∈ GetTableNames iteration c) by (apply table_names_elem; eauto).
      apply list_elem_of_lookup in Hx as (i & Hx). destruct (Forall2_lookup_l _ _ _ _ _ Hf Hx) as (ti' & Hi & Hg & _ & _).
      destruct (GetTable_name_ok c (ti_name_ ti) Hok) as (o & Ho & Hti). rewrite Hg in Ho. injection Ho as <-.
      rewrite (proj2 (Hti ti) (conj Ht eq_refl)) in Hi. by eapply list_elem_of_lookup_2.
  - unfold CmdDisplayTables, write_table. generalize (write_header [str "oid"; str "name"; str "cols"] (BeginTable false w)) as w'. intros w'.
    assert (Hw : forall w' : W, write_each (fun name (w : W) => let w := BeginRow w in
        match GetTable_name c name with
        | Throw x => (w, Some x)
        | Ok None => (w, Some Undefined)
        | Ok (Some table_info) => wret (EndRow (WriteCell (Schema_ToString (ti_schema_ table_info) true)
            (WriteCell (ti_name_ table_info) (WriteCell (to_string (ti_oid_ table_info)) w))))
        end) (GetTableNames iteration c) w' = (write_rows (table_row <$> infos) w', None)).
    { clear -Hf. induction Hf as [|n ti ns infos (Hg & _) _ IH]; intros w'; [done|]. cbn. rewrite Hg. cbn. apply IH. }
    by rewrite Hw.
Qed.

Lemma indexes_of_names c names :
  catalog_ok c -> exists ls, Forall2 (fun n l => GetTableIndexes iteration c n = Ok l /\ NoDup (ii_index_oid_ <$> l) /\
    forall ii, ii ∈ l <-> GetIndex c (ii_index_oid_ ii) = Some ii /\ ii_table_name_ ii = n) names ls.
Proof.
  intros Hok. induction names as [|n names (ls & IH)]; [by exists []|].
  destruct (GetTableIndexes_ok iteration iteration_perm c n Hok) as (l & Hl). exists (l :: ls). by constructor.
Qed.

Lemma CmdDisplayIndices_ok c (w : W) :
  catalog_ok c -> exists infos, NoDup infos /\ (forall ii, ii ∈ infos <-> GetIndex c (ii_index_oid_ ii) = Some ii) /\
    CmdDisplayIndices iteration c w =
      (write_table [str "table_name"; str "index_oid"; str "index_name"; str "index_cols"] (index_row <$> infos) w, None).
Proof.
  intros Hok. destruct (indexes_of_names c (GetTableNames iteration c) Hok) as (ls & Hf).
  exists (concat ls). split_and!.
  - pose proof (table_names_NoDup c) as Hnd. clear w. induction Hf as [|n l ns ls (Hg & Hn & Hl) Hf IH]; [constructor|].
    apply NoDup_cons in Hnd as [Hni Hnd]. cbn. apply NoDup_app. split_and!; [by apply NoDup_fmap_1 in Hn| |by apply IH].
    intros ii Hi Hc. apply Hl in Hi as [_ Hi]. apply list_elem_of_In, in_concat in Hc as (l' & Hl' & Hi').
    apply list_elem_of_In in Hl', Hi'. apply list_elem_of_lookup in Hl' as (i & Hl').
    destruct (Forall2_lookup_r _ _ _ _ _ Hf Hl') as (n' & Hn' & _ & _ & Hx). destruct (proj1 (Hx ii) Hi') as [_ He].
    apply Hni. rewrite <- Hi, He. by eapply list_elem_of_lookup_2.
  - intros ii. rewrite list_elem_of_In, in_concat. setoid_rewrite <- list_elem_of_In. split.
    + intros (l & Hl & Hi). apply list_elem_of_lookup in Hl as (i & Hl).
      destruct (Forall2_lookup_r _ _ _ _ _ Hf Hl) as (n' & _ & _ & _ & Hx). apply (proj1 (Hx ii) Hi).
    + intros Hi. destruct (ok_indexes c Hok _ _ Hi) as (_ & _ & m & Hm & _).
      assert (Hn : ii_table_name_ ii ∈ GetTableNames iteration c) by (apply table_names_elem, (ok_dom c Hok); eauto).
      apply list_elem_of_lookup in Hn as (i & Hn). destruct (Forall2_lookup_l _ _ _ _ _ Hf Hn) as (l & Hl & _ & _ & Hx).
      exists l. split; [by eapply list_elem_of_lookup_2|]. by apply Hx.
  - unfold CmdDisplayIndices, write_table.
    generalize (write_header [str "table_name"; str "index_oid"; str "index_name"; str "index_cols"] (BeginTable false w)) as w'. intros w'.
    assert (Hw : forall w' : W, write_each (fun table_name (w : W) =>
        match GetTableIndexes iteration c table_name with
        | Throw x => (w, Some x)
        | Ok infos => write_each (fun index_info w => wret (write_row [table_name; to_string (ii_index_oid_ index_info); ii_name_ index_info;
             Schema_ToString (ii_key_schema_ index_info) true] w)) infos w
        end) (GetTableNames iteration c) w' = (write_rows (index_row <$> concat ls) w', None)).
    { clear w w'. induction Hf as [|n l ns ls (Hg & _ & Hl) _ IH]; intros w; [done|]. cbn [write_each concat]. rewrite Hg.
      rewrite (write_each_ext _ (fun ii w => wret (write_row (index_row ii) w))).
      - rewrite write_each_pure. cbn [wthen]. rewrite IH. unfold write_rows. rewrite fmap_app, foldl_app. by rewrite !foldl_fmap.
      - apply Forall_forall. intros ii Hi w1. apply Hl in Hi as [_ Hi]. unfold index_row. by rewrite Hi. }
    by rewrite Hw.
Qed.

(** C14: the catalog after any script. Run any sequence of SQL texts on a new instance, whatever they are and
    however many of them throw an exception half way, with fewer than [2 ^ 32] statements in all:
    then [\dt] prints every table of the catalog and [\di] every index, each exactly once, with its oid,
    its name and its columns, and nothing else. No lookup fails, whatever the order in which the hash
    maps are traversed, and nothing but the writer changes. *)
Theorem meta_commands_list_catalog (sqls : list (list Z)) (p : P) (w w' : W) (b : BustubInstance P) (k : nat) (s : Session P W) :
  script_size parse sqls <= 2 ^ 32 - 1 ->
  run_script parse escaped enable_logging shuffle iteration oid_order rid_order row_order plan_fuel exec_fuel sqls w (BustubInstance_ctor p)
    = Some (b, w', k) ->
  catalog_ s = bi_catalog_ b ->
  exists tables indexes,
    NoDup tables /\ (forall ti, ti ∈ tables <-> GetTable (bi_catalog_ b) (ti_oid_ ti) = Some ti) /\
    NoDup indexes /\ (forall ii, ii ∈ indexes <-> GetIndex (bi_catalog_ b) (ii_index_oid_ ii) = Some ii) /\
    ExecuteSqlTxn parse escaped enable_logging shuffle iteration plan_fuel exec_fuel (str "\dt") s =
      (set_writer s (write_table [str "oid"; str "name"; str "cols"] (table_row <$> tables) (writer_ s)), Done) /\
    ExecuteSqlTxn parse escaped enable_logging shuffle iteration plan_fuel exec_fuel (str "\di") s =
      (set_writer s (write_table [str "table_name"; str "index_oid"; str "index_name"; str "index_cols"] (index_row <$> indexes) (writer_ s)), Done).
Proof.
  intros Hn Hr Hs.
  assert (Hok : catalog_ok (bi_catalog_ b)).
  { eapply (run_script_catalog sqls w (BustubInstance_ctor p) b w' k 0); [|lia|exact Hr]. split_and!; [apply Catalog_ctor_ok|done|done]. }
  destruct (CmdDisplayTables_ok (bi_catalog_ b) (writer_ s) Hok) as (tables & Ht1 & Ht2 & Ht3).
  destruct (CmdDisplayIndices_ok (bi_catalog_ b) (writer_ s) Hok) as (indexes & Hi1 & Hi2 & Hi3).
  exists tables, indexes. split_and!; [done..| |].
  - change (printed s (CmdDisplayTables iteration (catalog_ s) (writer_ s)) =
      (set_writer s (write_table [str "oid"; str "name"; str "cols"] (table_row <$> tables) (writer_ s)), Done)).
    by rewrite Hs, Ht3.
  - change (printed s (CmdDisplayIndices iteration (catalog_ s) (writer_ s)) =
      (set_writer s (write_table [str "table_name"; str "index_oid"; str "index_name"; str "index_cols"] (index_row <$> indexes) (writer_ s)), Done)).
    by rewrite Hs, Hi3.
Qed.
End catalog_of_scripts.

(** ** Open transactions *)

Section latch_of_scripts.
Context {P W : Type} `{Pages P} `{ResultWriter W}.
Context (parse : list Z -> result (list PGStmt)) (escaped : list Z -> list Z) (enable_logging : bool).
Context (shuffle : list Z -> list Z) (iteration : gmap (list Z) Z -> list (list Z * Z)).
Context (oid_order : gset Z -> list Z) (rid_order : gset RID -> list RID) (row_order : gmap Z (gset RID) -> list (Z * gset RID)).
Context (plan_fuel exec_fuel : nat).

(** The latch after a text: given up when it succeeds, still held when it throws. *)
Lemma ExecuteSql_latch sql w (b b' : BustubInstance P) (w' : W) e n :
  global_txn_latch_ (txn_manager_ b) = Shared n ->
  ExecuteSql parse escaped enable_logging shuffle iteration oid_order rid_order row_order plan_fuel exec_fuel sql w b = (b', w', e) ->
  match e with
  | Done => global_txn_latch_ (txn_manager_ b') = Shared n
  | Thrown _ => global_txn_latch_ (txn_manager_ b') = Shared (S n)
  | Stopped => True
  end.
Proof.
  intros Hl. unfold ExecuteSql, Begin. rewrite Hl. cbn [RLock obind].
  destruct (ExecuteSqlTxn _ _ _ _ _ _ _ _ _) as [s e']. destruct e' as [|x|]; [|by intros [= <- <- <-]..].
  unfold Commit. destruct (TransactionManager_Commit _ _ _) as [[p t]| | |]; cbn [obind]; [|by intros [= <- <- <-]..].
  cbn [RUnlock global_txn_latch_ obind]. by intros [= <- <- <-].
Qed.

Lemma run_script_latch sqls : forall w (b b' : BustubInstance P) (w' : W) k n,
  global_txn_latch_ (txn_manager_ b) = Shared n ->
  run_script parse escaped enable_logging shuffle iteration oid_order rid_order row_order plan_fuel exec_fuel sqls w b = Some (b', w', k) ->
  global_txn_latch_ (txn_manager_ b') = Shared (n + k).
Proof.
  induction sqls as [|sql sqls IH]; intros w b b' w' k n Hl; cbn [run_script]; [intros [= <- <- <-]; by rewrite Nat.add_0_r|].
  destruct (ExecuteSql _ _ _ _ _ _ _ _ _ _ sql w b) as [[b1 w1] e] eqn:E. pose proof (ExecuteSql_latch sql w b b1 w1 e n Hl E) as Hs.
  destruct e as [|x|]; [|intros Hr; apply bind_Some in Hr as ([[b2 w2] j] & Hr & [= <- <- <-])|done].
  - intros Hr. by eapply IH.
  - rewrite (IH _ _ _ _ _ _ Hs Hr). f_equal. lia.
Qed.

(** C15: [ExecuteSql] commits only when no exception is thrown, and nothing aborts the transaction of a text that
    fails. After a script on a new instance in which [k] texts threw, [k] transactions are open:
    the global latch is held [k] times, and blocking all transactions, as a checkpoint does, succeeds
    exactly when none failed; otherwise it waits for ever. *)
Theorem failed_texts_stay_open (sqls : list (list Z)) (p : P) (w w' : W) (b : BustubInstance P) (k : nat) :
  run_script parse escaped enable_logging shuffle iteration oid_order rid_order row_order plan_fuel exec_fuel sqls w (BustubInstance_ctor p)
    = Some (b, w', k) ->
  global_txn_latch_ (txn_manager_ b) = Shared k /\
  (k = O -> exists m, BlockAllTransactions (txn_manager_ b) = Ret m) /\
  (k <> O -> BlockAllTransactions (txn_manager_ b) = Blocked).
Proof.
  intros Hr. pose proof (run_script_latch sqls w (BustubInstance_ctor p) b w' k 0 eq_refl Hr) as Hl. cbn in Hl.
  unfold BlockAllTransactions. rewrite Hl. split_and!; [done|intros ->; by eexists|]. by destruct k.
Qed.
End latch_of_scripts.

(** ** Examples *)

(** [create table t(a int);], the second text is not accepted. *)
Definition create_parse (sql : list Z) : result (list PGStmt) :=
  if bool_decide (sql = str "create table t(a int);") then
    Ok [PGRawStmt (PGCreateStmt (str "t") [PGColumnDef (Some (str "a")) false (str "int4") None false])]
  else Throw EMessage.

Definition demo_script : list (list Z) := [str "create table t(a int);"; str "selec 1;"; str "create table t(a int);"].

Definition run_demo : option (BustubInstance pool * SimpleStreamWriter * nat) :=
  run_script create_parse id false id map_to_list elements elements map_to_list 3 10 demo_script
    (SimpleStreamWriter_ctor [] true (str " ")) (BustubInstance_ctor (new_pool 3 2 new_disk)).

Example demo_output : (fun r => (stream_ r.1.2, r.2)) <$> run_demo = Some (str "Table created with id = 0 " ++ [10], 2%nat).
Proof. vm_compute. reflexivity. Qed.

Lemma failed_texts_stay_open_witness : exists b w, run_demo = Some (b, w, 2%nat) /\ BlockAllTransactions (txn_manager_ b) = Blocked.
Proof.
  assert (E : snd <$> run_demo = Some 2%nat) by (vm_compute; reflexivity).
  destruct run_demo as [[[b w] k]|] eqn:Er; [|discriminate E]. cbn in E. injection E as ->. exists b, w. split; [reflexivity|].
  apply (failed_texts_stay_open create_parse id false id map_to_list elements elements map_to_list 3 10 demo_script
    (new_pool 3 2 new_disk) (SimpleStreamWriter_ctor [] true (str " ")) w b 2 Er). discriminate.
Defined.

Lemma meta_commands_list_catalog_witness : exists b w tables, run_demo = Some (b, w, 2%nat) /\
  NoDup tables /\ (forall ti, ti ∈ tables <-> GetTable (bi_catalog_ b) (ti_oid_ ti) = Some ti).
Proof.
  assert (E : snd <$> run_demo = Some 2%nat) by (vm_compute; reflexivity).
  destruct run_demo as [[[b w] k]|] eqn:Er; [|discriminate E]. cbn in E. injection E as ->. exists b, w.
  destruct (meta_commands_list_catalog create_parse id false id map_to_list elements elements map_to_list 3 10
    (fun m => Permutation_refl _) demo_script (new_pool 3 2 new_disk) (SimpleStreamWriter_ctor [] true (str " ")) w b 2
    (mkSession (bi_catalog_ b) ∅ (new_pool 3 2 new_disk) Transaction_ctor (SimpleStreamWriter_ctor [] true (str " "))))
    as (tables & indexes & Hn & Ht & _); [vm_compute; discriminate|exact Er|reflexivity|].
  exists tables. split; [reflexivity|]. split; [exact Hn|exact Ht].
Defined.

(** The mock tables are registered with their schemas. *)
Example mock_tables_registered :
  match GenerateMockTable false elements elements map_to_list 1 (BustubInstance_ctor (new_pool 3 2 new_disk)) with
  | Ret b => forallb (fun name => match GetTable_name (bi_catalog_ b) name, GetMockTableSchemaOf name with
                                  | Ok (Some ti), Ok schema => bool_decide (Schema_ToString (ti_schema_ ti) true = Schema_ToString schema true)
                                  | _, _ => false
                                  end) mock_table_list
  | _ => false
  end = true.
Proof. vm_compute. reflexivity. Qed.
