(* ===== verification/SqlLogicTest.v ===== *)
(** * The test scripts

    The parser of the sqllogictest tool (tools/sqllogictest/parser.cpp, parser.h): a script is split
    into lines and the lines are read as records. A loop that runs on a position of a string or of
    the lines has fuel, one unit per iteration, as much as the text is long; [None] when it runs
    out.

    Proved: the words of a line are the maximal runs of other characters than the
    delimiter, the parser ends on every script, and the text of a list of records is read
    back as these records, with the line each starts on. *)

From Stdlib Require Import String.
From S2P Require Import Prelude.
From S2P Require Import CStd.
From S2P Require Import StringUtil.
From S2P Require Import Writers.
Local Open Scope Z_scope.
Local Open Scope bustub_scope.

(** ** Records *)

Inductive Location : Type := mkLocation (file_ : list Z) (line_ : Z) (parent_ : option Location).

Inductive SortMode : Type := SORT_INVALID | NOSORT | ROWSORT.
#[export] Instance SortMode_eq_dec : EqDecision SortMode.
Proof. solve_decision. Defined.

Inductive TestRecord : Type :=
| IncludeRecord (loc_ : Location) (filename_ : list Z)
| StatementRecord (loc_ : Location) (is_error_ : bool) (sql_ : list Z) (extra_options_ : list (list Z))
| QueryRecord (loc_ : Location) (sort_mode_ : SortMode) (sql_ expected_result_ : list Z) (extra_options_ : list (list Z))
| SleepRecord (loc_ : Location) (seconds_ : Z)
| HaltRecord (loc_ : Location).

(** *** Printing *)

Fixpoint Location_format (c : Location) : list Z :=
  let '(mkLocation file line parent) := c in
  match parent with
  | Some parent => file ++ str ":" ++ to_string line ++ str " in " ++ Location_format parent
  | None => file ++ str ":" ++ to_string line
  end.

Definition SortMode_format (c : SortMode) : list Z :=
  match c with SORT_INVALID => str "Invalid" | NOSORT => str "NoSort" | ROWSORT => str "RowSort" end.

Definition Record_ToString (r : TestRecord) : list Z :=
  match r with
  | IncludeRecord _ filename => str "Include { filename=" ++ filename ++ str " }"
  | StatementRecord _ is_error sql _ =>
      str "Statement {" ++ [10] ++ str "is_error=" ++ (if is_error then str "true" else str "false") ++ str "," ++ [10]
      ++ str "sql=" ++ sql ++ [10] ++ str "}"
  | QueryRecord _ sort_mode sql expected _ =>
      str "Query {" ++ [10] ++ str "  sort_mode=" ++ SortMode_format sort_mode ++ str "," ++ [10] ++ str "  sql=" ++ sql ++ str "," ++ [10]
      ++ str "  expected_result=" ++ [10] ++ expected ++ str "}"
  | SleepRecord _ seconds => str "Sleep { seconds=" ++ to_string seconds ++ str " }"
  | HaltRecord _ => str "Halt {}"
  end.

(** ** Words *)

(** [find_first_of(delimiter, pos)] and [find_first_not_of(delimiter, pos)]; [None] is [npos]. *)
Definition find_first (test : Z -> bool) (s : list Z) (pos : nat) : option nat := (Nat.add pos) ∘ fst <$> list_find (fun c => test c = true) (drop pos s).
Definition find_first_of (d : Z) : list Z -> nat -> option nat := find_first (fun c => c =? d).
Definition find_first_not_of (d : Z) : list Z -> nat -> option nat := find_first (fun c => negb (c =? d)).

(** The loop of [Tokenize]; leaves the loop with [npos] as the next position. *)
Fixpoint tokenize_loop (fuel : nat) (s : list Z) (d : Z) (last_pos : nat) : option (list (list Z)) :=
  match fuel with
  | O => None
  | S fuel =>
      if (last_pos <? length s + 1)%nat then
        let pos := default (length s) (find_first_of d s last_pos) in
        tokens ← match find_first_not_of d s (pos + 1) with
                 | None => Some []
                 | Some next => tokenize_loop fuel s d next
                 end;
        Some (if (pos =? last_pos)%nat then tokens else take (pos - last_pos) (drop last_pos s) :: tokens)
      else Some []
  end.
Definition Tokenize (s : list Z) (delimiter : Z) : option (list (list Z)) := tokenize_loop (S (length s)) s delimiter 0.

(** ** The parser *)

(** The lines up to an empty one, each with a line feed, and the lines from there on. *)
Fixpoint statement_lines (lines : list (list Z)) : list Z * list (list Z) :=
  match lines with
  | [] => ([], [])
  | line :: rest =>
      if bool_decide (line = []) then ([], lines)
      else let '(sql, rest) := statement_lines rest in (line ++ [10] ++ sql, rest)
  end.
(** The same up to a line [----], whether there was one. *)
Fixpoint query_lines (lines : list (list Z)) : list Z * bool * list (list Z) :=
  match lines with
  | [] => ([], false, [])
  | line :: rest =>
      if bool_decide (line = []) then ([], false, lines)
      else if bool_decide (line = str "----") then ([], true, lines)
      else let '(sql, found, rest) := query_lines rest in (line ++ [10] ++ sql, found, rest)
  end.
Fixpoint result_lines (lines : list (list Z)) : list Z * list (list Z) :=
  match lines with
  | [] => ([], [])
  | line :: rest =>
      if bool_decide (line = []) then ([], lines)
      else let '(expected, rest) := result_lines rest in (RTrim line ++ [10] ++ expected, rest)
  end.

(** The tokens that start with a plus, without it. *)
Definition extra_options (tokens : list (list Z)) : list (list Z) :=
  concat ((fun t => match t with c :: rest => if c =? 43 then [rest] else [] | [] => [] end) <$> tokens).

(** The record that starts on a line with the given tokens, and the lines the loop goes on with;
    [None] when it breaks at the end of the lines. *)
Definition parse_record (loc : Location) (tokens : list (list Z)) (rest : list (list Z))
    : result (option TestRecord * option (list (list Z))) :=
  match tokens with
  | [] => Ok (None, Some rest)
  | t0 :: args =>
      if bool_decide (t0 = str "include") then
        match args with [filename] => Ok (Some (IncludeRecord loc filename), Some rest) | _ => Throw EMessage end
      else if bool_decide (t0 = str "halt") then
        match args with [_] => Ok (Some (HaltRecord loc), Some rest) | _ => Throw EMessage end
      else if bool_decide (t0 = str "sleep") then
        match args with
        | [seconds] => let! n := stoi seconds in Ok (Some (SleepRecord loc (uwrap 64 n)), Some rest)
        | _ => Throw EMessage
        end
      else if bool_decide (t0 = str "statement") then
        let! error :=
          match args with
          | t1 :: _ => if bool_decide (t1 = str "ok") then Ok false else if bool_decide (t1 = str "error") then Ok true else Throw Undefined
          | [] => Throw Undefined
          end in
        let '(sql, rest) := statement_lines rest in
        Ok (Some (StatementRecord loc error (RTrim sql) (extra_options (tail args))), match rest with [] => None | _ :: rest => Some rest end)
      else if bool_decide (t0 = str "query") then
        let sort_mode := match args with t1 :: _ => if bool_decide (t1 = str "rowsort") then ROWSORT else NOSORT | [] => NOSORT end in
        match rest with
        | [] => Throw EMessage
        | _ =>
            let '(sql, has_result, rest) := query_lines rest in
            if negb has_result then Throw EMessage
            else
              let '(expected, rest) := result_lines (tail rest) in
              Ok (Some (QueryRecord loc sort_mode (RTrim sql) expected (extra_options args)), match rest with [] => None | _ :: rest => Some rest end)
        end
      else Ok (None, Some rest)
  end.

(** The loop over [total] lines, of which [lines] are left. *)
Fixpoint parse_lines (fuel : nat) (filename : list Z) (total : nat) (lines : list (list Z)) : option (result (list TestRecord)) :=
  match fuel with
  | O => None
  | S fuel =>
      match lines with
      | [] => Some (Ok [])
      | line :: rest =>
          let skip := if bool_decide (line = []) then Ok true else StartsWith line (str "#") in
          match skip with
          | Throw x => Some (Throw x)
          | Ok true => parse_lines fuel filename total rest
          | Ok false =>
              let loc := mkLocation filename (Z.of_nat (total - length lines) + 1) None in
              tokens ← Tokenize line 32;
              match parse_record loc tokens rest with
              | Throw x => Some (Throw x)
              | Ok (record, next) =>
                  records ← match next with None => Some (Ok []) | Some rest => parse_lines fuel filename total rest end;
                  Some (let! rs := records in Ok (match record with Some r => r :: rs | None => rs end))
              end
          end
      end
  end.

Definition ParseInner (filename script : list Z) : option (result (list TestRecord)) :=
  text ← Replace (S (length script)) script [13; 10] [10];
  let lines := Split_char text 10 in
  parse_lines (S (length lines)) filename (length lines) lines.

Definition Parse (script : list Z) : option (result (list TestRecord)) := ParseInner (str "<main>") script.

(** ** The words of a line *)

(** The non-empty pieces between delimiters. *)
Definition words (s : list Z) (d : Z) : list (list Z) := filter (fun w => w <> []) (Split_char s d).

Lemma words_delimiters a b d : Forall (fun c => c = d) a -> words (a ++ b) d = words b d.
Proof.
  induction 1 as [|c a -> _ IH]; [done|]. unfold words in *. cbn. rewrite Z.eqb_refl. by rewrite filter_cons_False by tauto.
Qed.

Lemma words_app a b d : d ∉ a -> words (a ++ d :: b) d = (if bool_decide (a = []) then [] else [a]) ++ words b d.
Proof.
  intros Ha. unfold words. rewrite Split_char_app by done. rewrite filter_cons. case_bool_decide; [by rewrite decide_False by tauto|by rewrite decide_True].
Qed.

Lemma words_one a d : d ∉ a -> words a d = if bool_decide (a = []) then [] else [a].
Proof.
  intros Ha. unfold words. case_bool_decide as H; [by subst|]. rewrite Split_char_no by done. by rewrite filter_cons, decide_True.
Qed.

(** The first character of [s] from [pos] on that passes the test. *)
Lemma find_first_spec test s pos : (pos <= length s)%nat ->
  match find_first test s pos with
  | None => Forall (fun c => test c = false) (drop pos s)
  | Some i => exists a c b, drop pos s = a ++ c :: b /\ Forall (fun c => test c = false) a /\ test c = true /\ i = (pos + length a)%nat /\
      drop (S i) s = b
  end.
Proof.
  intros Hp. unfold find_first. destruct (list_find _ (drop pos s)) as [[i c]|] eqn:E; cbn.
  - apply list_find_Some in E as (Hc & Ht & Hb). exists (take i (drop pos s)), c, (drop (S i) (drop pos s)).
    pose proof (lookup_lt_Some _ _ _ Hc) as Hlt. rewrite length_take, Nat.min_l by lia.
    split_and!; [by rewrite take_drop_middle| |done|done|by rewrite drop_drop, Nat.add_succ_r].
    apply Forall_lookup. intros j x Hj. apply lookup_take_Some in Hj as [Hj Hi]. apply not_true_is_false. by eapply Hb.
  - apply list_find_None in E. eapply Forall_impl; [exact E|]. intros c Hc. by apply not_true_is_false.
Qed.

(** The token between [last] and the end of [a]. *)
Lemma token_cons last (a : list Z) ts :
  (if (last + length a =? last)%nat then ts else a :: ts) = (if bool_decide (a = []) then [] else [a]) ++ ts.
Proof.
  destruct a as [|c a]; cbn [length]; [by rewrite Nat.add_0_r, Nat.eqb_refl|]. by destruct (Nat.eqb_spec (last + S (length a)) last); [lia|].
Qed.

Lemma tokenize_loop_words fuel : forall s d last, (last <= length s)%nat -> (length s - last < fuel)%nat ->
  tokenize_loop fuel s d last = Some (words (drop last s) d).
Proof.
  induction fuel as [|fuel IH]; intros s d last Hl Hf; [lia|]. cbn [tokenize_loop].
  destruct (Nat.ltb_spec last (length s + 1)); [|lia].
  pose proof (find_first_spec (fun c => c =? d) s last Hl) as H1. unfold find_first_of.
  destruct (find_first (fun c => c =? d) s last) as [i|]; cbn [default id from_option].
  - destruct H1 as (a & c & b & Hd & Ha & Hc & -> & Hb). apply Z.eqb_eq in Hc as ->.
    assert (Hlen : (last + length a < length s)%nat) by (apply (f_equal length) in Hd; rewrite length_drop, length_app in Hd; cbn in Hd; lia).
    assert (Hna : d ∉ a) by (intros Hx; rewrite Forall_forall in Ha; apply Ha in Hx; lia).
    rewrite Hd, words_app by done.
    assert (Ht : take (last + length a - last) (a ++ d :: b) = a)
      by (replace (last + length a - last)%nat with (length a) by lia; by rewrite take_app_length).
    rewrite Ht. pose proof (find_first_spec (fun c => negb (c =? d)) s (last + length a + 1) ltac:(lia)) as H2. unfold find_first_not_of.
    rewrite Nat.add_1_r in H2 |- *. rewrite Hb in H2.
    destruct (find_first (fun c => negb (c =? d)) s (S (last + length a))) as [j|].
    + destruct H2 as (a2 & c2 & b2 & Hd2 & Ha2 & Hc2 & -> & Hb2).
      assert (Hl2 : (S (last + length a) + length a2 < length s)%nat).
      { rewrite <- Hb in Hd2. apply (f_equal length) in Hd2. rewrite length_drop, length_app in Hd2. cbn in Hd2. lia. }
      rewrite IH by lia. cbn [mbind option_bind]. rewrite <- drop_drop, Hb, Hd2, drop_app_length. rewrite words_delimiters.
      * by rewrite token_cons.
      * eapply Forall_impl; [exact Ha2|]. cbn. intros x Hx. apply negb_false_iff, Z.eqb_eq in Hx. done.
    + cbn [mbind option_bind]. rewrite <- (app_nil_r b), words_delimiters by (eapply Forall_impl; [exact H2|]; cbn; intros x Hx;
        by apply negb_false_iff, Z.eqb_eq in Hx).
      by rewrite token_cons.
  - assert (Hn : find_first_not_of d s (length s + 1) = None) by (unfold find_first_not_of, find_first; by rewrite drop_ge by lia).
    rewrite Hn. cbn [mbind option_bind]. rewrite take_ge by (rewrite length_drop; lia).
    assert (Hna : d ∉ drop last s) by (intros Hx; rewrite Forall_forall in H1; apply H1 in Hx; lia).
    rewrite words_one by done. case_bool_decide as Hx; destruct (Nat.eqb_spec (length s) last) as [He|He]; try done.
    + apply (f_equal length) in Hx. rewrite length_drop in Hx. cbn in Hx. lia.
    + destruct Hx. apply drop_ge. lia.
Qed.

Lemma Tokenize_eq s d : Tokenize s d = Some (words s d).
Proof. unfold Tokenize. by rewrite tokenize_loop_words by lia. Qed.

(** The words of a line. [Tokenize] ends on every string, and gives exactly its words: the maximal runs of
    characters other than the delimiter, in order, without the delimiters at the ends of the string and
    those that follow each other. *)
Theorem Tokenize_words (s : list Z) (delimiter : Z) : Tokenize s delimiter = Some (filter (fun w => w <> []) (Split_char s delimiter)).
Proof. apply Tokenize_eq. Qed.

(** ** The parser ends *)

Lemma statement_lines_length lines : (length (statement_lines lines).2 <= length lines)%nat.
Proof.
  induction lines as [|l lines IH]; cbn; [lia|]. case_bool_decide; cbn; [lia|]. destruct (statement_lines lines) as [sql rest]. cbn in *. lia.
Qed.
Lemma query_lines_length lines : (length (query_lines lines).2 <= length lines)%nat.
Proof.
  induction lines as [|l lines IH]; cbn [query_lines]; [done|]. case_bool_decide; [done|]. case_bool_decide; [done|].
  destruct (query_lines lines) as [[sql found] rest]. cbn in *. lia.
Qed.
Lemma result_lines_length lines : (length (result_lines lines).2 <= length lines)%nat.
Proof.
  induction lines as [|l lines IH]; cbn; [lia|]. case_bool_decide; cbn; [lia|]. destruct (result_lines lines) as [e rest]. cbn in *. lia.
Qed.

(** A record never gives lines back. *)
Lemma parse_record_length loc tokens rest r next :
  parse_record loc tokens rest = Ok (r, Some next) -> (length next <= length rest)%nat.
Proof.
  unfold parse_record. destruct tokens as [|t0 args]; [by intros [= <- <-]|].
  case_bool_decide; [by destruct args as [|? [|]]; [|intros [= <- <-]|]|].
  case_bool_decide; [by destruct args as [|? [|]]; [|intros [= <- <-]|]|].
  case_bool_decide; [destruct args as [|x [|]]; try done; destruct (stoi x); cbn; [by intros [= <- <-]|done]|].
  case_bool_decide.
  { destruct (match args with [] => _ | _ => _ end) as [error|]; cbn [rbind]; [|done].
    pose proof (statement_lines_length rest) as Hl. destruct (statement_lines rest) as [sql [|x rest']]; cbn in *; intros [= <- <-]. lia. }
  case_bool_decide; [|by intros [= <- <-]]. destruct rest as [|l rest]; [done|].
  pose proof (query_lines_length (l :: rest)) as Hq. destruct (query_lines (l :: rest)) as [[sql found] rest1]. cbn [snd] in Hq.
  destruct found; cbn [negb]; [|done]. pose proof (result_lines_length (tail rest1)) as Hr.
  destruct (result_lines (tail rest1)) as [e [|x rest2]]; cbn [snd] in Hr; intros [= <- <-]. destruct rest1; cbn in *; lia.
Qed.

Lemma parse_lines_ends fuel : forall filename total lines, (length lines < fuel)%nat -> is_Some (parse_lines fuel filename total lines).
Proof.
  induction fuel as [|fuel IH]; intros filename total lines Hf; [lia|]. cbn [parse_lines]. destruct lines as [|line rest]; [by eexists|].
  cbn [length] in Hf. destruct (if bool_decide (line = []) then _ else _) as [[]|x]; [apply IH; lia| |by eexists].
  rewrite Tokenize_eq. cbn [mbind option_bind]. destruct (parse_record _ _ _) as [[r next]|x] eqn:E; [|by eexists].
  destruct next as [rest'|]; [|by eexists]. apply parse_record_length in E. destruct (IH filename total rest' ltac:(lia)) as [rs ->]. by eexists.
Qed.

(** The parser of test scripts ends on every text: its loops over the lines and over the words of a line never
    need more iterations than the text is long, and it returns the records or throws. *)
Theorem Parse_terminates (script : list Z) : exists r, Parse script = Some r.
Proof.
  unfold Parse, ParseInner. destruct (replace_loop_ends (S (length script)) script [13; 10] [10] 0) as [text Ht]; [done|lia|lia|].
  unfold Replace. rewrite Ht. cbn [mbind option_bind]. destruct (parse_lines_ends (S (length (Split_char text 10))) (str "<main>")
    (length (Split_char text 10)) (Split_char text 10) ltac:(lia)) as [r Hr]. by exists r.
Qed.

(** ** Reading back the text of records *)

(** What a test script says, without the places. *)
Inductive item : Type :=
| IncludeItem (filename : list Z)
| HaltItem (word : list Z)
| SleepItem (seconds : Z)
| StatementItem (is_error : bool) (options sql : list (list Z))
| QueryItem (sorted : bool) (options sql expected : list (list Z)).

Definition plus_options (options : list (list Z)) : list (list Z) := cons 43 <$> options.

Definition item_tokens (i : item) : list (list Z) :=
  match i with
  | IncludeItem filename => [str "include"; filename]
  | HaltItem word => [str "halt"; word]
  | SleepItem seconds => [str "sleep"; to_string seconds]
  | StatementItem is_error options _ => str "statement" :: (if is_error then str "error" else str "ok") :: plus_options options
  | QueryItem sorted options _ _ => str "query" :: (if sorted then [str "rowsort"] else []) ++ plus_options options
  end.
Definition item_body (i : item) : list (list Z) :=
  match i with
  | StatementItem _ _ sql => sql ++ [[]]
  | QueryItem _ _ sql expected => sql ++ [str "----"] ++ expected ++ [[]]
  | _ => []
  end.
Definition item_lines (i : item) : list (list Z) := Join (item_tokens i) [32] :: item_body i.
Definition script_text (items : list item) : list Z := concat ((fun l => l ++ [10]) <$> concat (item_lines <$> items)).

(** The records of a script whose first line has the number [n]. *)
Definition item_record (loc : Location) (i : item) : TestRecord :=
  match i with
  | IncludeItem filename => IncludeRecord loc filename
  | HaltItem _ => HaltRecord loc
  | SleepItem seconds => SleepRecord loc seconds
  | StatementItem is_error options sql => StatementRecord loc is_error (RTrim (Join sql [10])) options
  | QueryItem sorted options sql expected =>
      QueryRecord loc (if sorted then ROWSORT else NOSORT) (RTrim (Join sql [10])) (concat ((fun l => RTrim l ++ [10]) <$> expected)) options
  end.
Fixpoint records_at (filename : list Z) (n : Z) (items : list item) : list TestRecord :=
  match items with
  | [] => []
  | i :: items => item_record (mkLocation filename n None) i :: records_at filename (n + zlen (item_lines i)) items
  end.

Definition plain (l : list Z) : Prop := 10 ∉ l /\ 13 ∉ l.
Definition word_ok (w : list Z) : Prop := plain w /\ 32 ∉ w.
Definition line_ok (l : list Z) : Prop := plain l /\ l <> [].
Definition item_ok (i : item) : Prop :=
  match i with
  | IncludeItem w | HaltItem w => word_ok w /\ w <> []
  | SleepItem seconds => 0 <= seconds < 2 ^ 31
  | StatementItem _ options sql => Forall word_ok options /\ Forall line_ok sql
  | QueryItem _ options sql expected =>
      Forall word_ok options /\ Forall (fun l => line_ok l /\ l <> str "----") sql /\ Forall line_ok expected
  end.

Lemma statement_lines_text sql rest :
  Forall line_ok sql -> statement_lines (sql ++ [] :: rest) = (concat ((fun l => l ++ [10]) <$> sql), [] :: rest).
Proof.
  induction 1 as [|l sql [_ Hl] _ IH]; [done|]. cbn [app statement_lines]. rewrite bool_decide_false, IH by done. cbn. by rewrite <- app_assoc.
Qed.
Lemma query_lines_text sql rest :
  Forall (fun l => line_ok l /\ l <> str "----") sql ->
  query_lines (sql ++ str "----" :: rest) = (concat ((fun l => l ++ [10]) <$> sql), true, str "----" :: rest).
Proof.
  induction 1 as [|l sql [[_ Hl] Hq] _ IH]; [by cbn [app query_lines]; rewrite bool_decide_false, bool_decide_true by done|].
  cbn [app query_lines]. rewrite !bool_decide_false, IH by done. cbn. by rewrite <- app_assoc.
Qed.
Lemma result_lines_text expected rest :
  Forall line_ok expected -> result_lines (expected ++ [] :: rest) = (concat ((fun l => RTrim l ++ [10]) <$> expected), [] :: rest).
Proof.
  induction 1 as [|l expected [_ Hl] _ IH]; [done|]. cbn [app result_lines]. rewrite bool_decide_false, IH by done. cbn. by rewrite <- app_assoc.
Qed.

Lemma RTrim_lines sql : RTrim (concat ((fun l => l ++ [10]) <$> sql)) = RTrim (Join sql [10]).
Proof.
  destruct sql as [|l sql]; [done|].
  assert (He : concat ((fun l => l ++ [10]) <$> (l :: sql)) = Join (l :: sql) [10] ++ [10]).
  { revert l. induction sql as [|l' sql IH]; intros l; [cbn; by rewrite !app_nil_r|]. specialize (IH l'). cbn in *. rewrite IH.
    rewrite <- !app_assoc. cbn. by rewrite <- ?app_assoc. }
  rewrite He. unfold RTrim. by rewrite rev_app_distr.
Qed.

Lemma options_back options : extra_options (plus_options options) = options.
Proof. unfold extra_options, plus_options. induction options as [|o options IH]; [done|]. cbn. by rewrite <- IH at 2. Qed.

(** The record of an item is read from its lines. *)
Lemma parse_record_item loc i rest :
  item_ok i -> parse_record loc (item_tokens i) (item_body i ++ rest) = Ok (Some (item_record loc i), Some rest).
Proof.
  destruct i as [f|w|n|is_error options sql|sorted options sql expected]; cbn [item_ok item_tokens item_body item_record]; intros Hi.
  - reflexivity.
  - reflexivity.
  - assert (Hn : stoi (to_string n) = Ok n) by (apply sto_to_string; unfold sfits; lia).
    unfold parse_record. rewrite !(bool_decide_false (str "sleep" = _)) by done. rewrite bool_decide_true by done. rewrite Hn. cbn [rbind app].
    by rewrite uwrap_id by (unfold ufits; lia).
  - destruct Hi as [Ho Hs]. unfold parse_record. rewrite !(bool_decide_false (str "statement" = _)) by done. rewrite (bool_decide_true (str "statement" = _)) by done.
    assert (He : (if bool_decide ((if is_error then str "error" else str "ok") = str "ok") then Ok false
      else if bool_decide ((if is_error then str "error" else str "ok") = str "error") then Ok true else Throw Undefined) = Ok is_error)
      by (by destruct is_error; vm_compute).
    rewrite He. cbn [rbind tail]. rewrite <- app_assoc. cbn [app]. rewrite statement_lines_text by done. by rewrite RTrim_lines, options_back.
  - destruct Hi as (Ho & Hs & Hx). unfold parse_record. rewrite !(bool_decide_false (str "query" = _)) by done.
    rewrite (bool_decide_true (str "query" = _)) by done.
    assert (Hm : match (if sorted then [str "rowsort"] else []) ++ plus_options options with
      | [] => NOSORT | t1 :: _ => if bool_decide (t1 = str "rowsort") then ROWSORT else NOSORT end = (if sorted then ROWSORT else NOSORT)).
    { destruct sorted; [reflexivity|]. destruct options as [|o options]; [done|]. cbn [app plus_options fmap list_fmap].
      by rewrite bool_decide_false by (intros [=]). }
    assert (Hopt : extra_options ((if sorted then [str "rowsort"] else []) ++ plus_options options) = options)
      by (destruct sorted; [apply options_back|apply options_back]).
    rewrite Hm, Hopt. assert (Hne : forall A (a b : A), match (sql ++ [str "----"] ++ expected ++ [[]]) ++ rest with [] => a | _ => b end = b)
      by (intros A a b; by destruct sql).
    rewrite Hne. rewrite <- !app_assoc. cbn [app]. rewrite query_lines_text by done. cbn [negb tail].
    rewrite result_lines_text by done. by rewrite RTrim_lines.
Qed.

Lemma Join_elem (c d : Z) ls : c <> d -> c ∈ Join ls [d] -> exists l, l ∈ ls /\ c ∈ l.
Proof.
  intros Hc. destruct ls as [|l ls]; [by intros ?%not_elem_of_nil|]. cbn. rewrite elem_of_app. intros [Hl|Hl]; [exists l; split; [left|done]|].
  induction ls as [|x ls IH]; cbn in Hl; [by apply not_elem_of_nil in Hl|]. apply elem_of_cons in Hl as [->|Hl]; [done|].
  apply elem_of_app in Hl as [Hl|Hl]; [exists x; split; [right; left|done]|]. destruct (IH Hl) as (y & Hy & Hcy). exists y. split; [|done].
  apply elem_of_cons in Hy as [->|Hy]; [left|right; by right].
Qed.

Definition token_ok (w : list Z) : Prop := word_ok w /\ w <> [].

Lemma digits_token n : 0 <= n -> token_ok (to_string n).
Proof.
  intros Hn. unfold to_string. destruct (Z.ltb_spec n 0); [lia|]. destruct (dec_string_ok n Hn) as (c & t & -> & Hd & _). rewrite Forall_forall in Hd.
  assert (Hc : forall x, x ∈ c :: t -> 48 <= x <= 57) by (intros x Hx; by apply Hd).
  split; [|done]. split; [split|]; intros Hx%Hc; lia.
Qed.

Lemma const_token (s : string) : bool_decide (word_ok (str s) /\ str s <> []) = true -> token_ok (str s).
Proof. by intros ?%bool_decide_eq_true. Qed.

Lemma plus_tokens options : Forall word_ok options -> Forall token_ok (plus_options options).
Proof.
  intros Ho. unfold plus_options. apply Forall_fmap. eapply Forall_impl; [exact Ho|]. intros o [[H1 H2] H3]. split; [|done].
  split; [split|]; apply not_elem_of_cons; split; done || lia.
Qed.

Lemma item_tokens_ok i : item_ok i -> Forall token_ok (item_tokens i).
Proof.
  destruct i as [f|w|n|is_error options sql|sorted options sql expected]; cbn [item_ok item_tokens]; intros Hi.
  1-2: constructor; [by apply const_token|]; by constructor.
  - constructor; [by apply const_token|]. constructor; [|done]. apply digits_token. lia.
  - constructor; [by apply const_token|]. constructor; [destruct is_error; by apply const_token|]. apply plus_tokens, Hi.
  - constructor; [by apply const_token|]. apply Forall_app. split; [destruct sorted; repeat constructor; by apply const_token|]. apply plus_tokens, Hi.
Qed.

Lemma words_tokens tokens : Forall token_ok tokens -> words (Join tokens [32]) 32 = tokens.
Proof.
  intros Ht. unfold words. rewrite Split_Join.
  - induction Ht as [|t tokens [_ Hn] _ IH]; [done|]. by rewrite filter_cons_True, IH.
  - eapply Forall_impl; [exact Ht|]. by intros t [[_ ?] _].
  - intros Hl%last_Some_elem_of. rewrite Forall_forall in Ht. by apply Ht in Hl as [_ ?].
Qed.

(** The first line of an item is no comment. *)
Lemma item_line_start i : exists c t, Join (item_tokens i) [32] = c :: t /\ c <> 35.
Proof. destruct i; cbn; eexists _, _; (split; [reflexivity|vm_compute; discriminate]). Qed.

Lemma item_lines_plain i : item_ok i -> Forall plain (item_lines i).
Proof.
  intros Hi. pose proof (item_tokens_ok i Hi) as Ht. constructor.
  - rewrite Forall_forall in Ht. split; intros Hx%Join_elem; try done; destruct Hx as (w & Hw & Hc); apply Ht in Hw as [[[H1 H2] _] _]; done.
  - assert (He : plain []) by (split; apply not_elem_of_nil).
    destruct i as [f|w|n|is_error options sql|sorted options sql expected]; cbn [item_ok item_body] in *; try constructor.
    + destruct Hi as [_ Hs]. apply Forall_app. split; [eapply Forall_impl; [exact Hs|]; by intros l []|by constructor].
    + destruct Hi as (_ & Hs & Hx). rewrite !Forall_app. split_and!; [eapply Forall_impl; [exact Hs|]; by intros l [[] ?]| | |by constructor].
      * constructor; [|done]. split; by apply (bool_decide_unpack _); vm_compute.
      * eapply Forall_impl; [exact Hx|]. by intros l [].
Qed.

Lemma parse_lines_items filename items : Forall item_ok items -> forall fuel total,
  (length (concat (item_lines <$> items)) < fuel)%nat -> (length (concat (item_lines <$> items)) <= total)%nat ->
  parse_lines fuel filename total (concat (item_lines <$> items)) =
    Some (Ok (records_at filename (Z.of_nat (total - length (concat (item_lines <$> items))) + 1) items)).
Proof.
  induction 1 as [|i items Hi _ IH]; intros [|fuel] total Hf Ht; try (cbn in Hf; lia); [done|].
  cbn [fmap list_fmap concat] in *. rewrite length_app in *.
  change (item_lines i ++ concat (item_lines <$> items)) with (Join (item_tokens i) [32] :: item_body i ++ concat (item_lines <$> items)).
  assert (Hlen : length (item_lines i) = S (length (item_body i))) by done. cbn [parse_lines length].
  destruct (item_line_start i) as (c & t & Hc & H35). rewrite (bool_decide_false (Join (item_tokens i) [32] = [])) by (by rewrite Hc).
  assert (Hs : StartsWith (Join (item_tokens i) [32]) (str "#") = Ok false).
  { rewrite Hc. change (str "#") with [35]. cbn [StartsWith]. by rewrite (proj2 (Z.eqb_neq 35 c)). }
  rewrite Hs, Tokenize_eq, words_tokens by by apply item_tokens_ok. cbn [mbind option_bind].
  rewrite parse_record_item by done. rewrite IH by lia. cbn [mbind option_bind rbind records_at]. rewrite length_app.
  unfold zlen. rewrite Hlen, Nat.add_succ_l in *. do 4 f_equal. lia.
Qed.

Lemma find_absent c needle hay : c ∉ hay -> find (c :: needle) hay = None.
Proof.
  induction hay as [|x hay IH]; intros Hx; [done|]. apply not_elem_of_cons in Hx as [Hc Hx]. cbn. destruct (Z.eqb_spec c x); [done|].
  cbn. by rewrite IH.
Qed.

Lemma Replace_absent fuel source c from to : c ∉ source -> Replace (S fuel) source (c :: from) to = Some source.
Proof. intros Hc. unfold Replace. cbn [replace_loop]. unfold find_from. by rewrite find_absent. Qed.

(** C17: reading back a test script. The text of any list of records (statements and queries of any number of lines
    with their options and expected results, includes, sleeps and halts), written with one header line
    each and an empty line after a statement or a query, is parsed as exactly these records, in order, each with
    the number of the line it starts on. The conditions are those of the format: no line feed or carriage
    return inside a line, no empty lines in SQL texts and results, no SQL line [----] in a query, no blanks in the words
    of options and files, and seconds that fit an [int]. SQL texts come back without trailing white space, and so does each
    line of an expected result. *)
Theorem Parse_roundtrip (items : list item) :
  Forall item_ok items -> Parse (script_text items) = Some (Ok (records_at (str "<main>") 1 items)).
Proof.
  intros Hi. assert (Hp : Forall plain (concat (item_lines <$> items))).
  { apply Forall_concat, Forall_fmap. eapply Forall_impl; [exact Hi|]. intros i. apply item_lines_plain. }
  unfold Parse, ParseInner. rewrite Replace_absent.
  - cbn [mbind option_bind]. unfold script_text. rewrite Split_terminated by (eapply Forall_impl; [exact Hp|]; by intros l []).
    rewrite parse_lines_items by (done || lia). by rewrite Nat.sub_diag.
  - unfold script_text. intros Hx. apply list_elem_of_In, in_concat in Hx as (l & Hl & Hx). apply list_elem_of_In in Hl, Hx.
    apply list_elem_of_fmap in Hl as (l' & -> & Hl). rewrite Forall_forall in Hp. apply Hp in Hl as [_ H13].
    apply elem_of_app in Hx as [Hx|Hx]; [done|]. apply list_elem_of_singleton in Hx. lia.
Qed.

(** ** Examples *)

Definition demo_items : list item :=
  [StatementItem false [] [str "create table t(a int);"]; SleepItem 1;
   QueryItem true [str "ensure:index_scan"] [str "select a"; str "from t;"] [str "1 "; str "2"]; HaltItem (str "now")].

Lemma Parse_roundtrip_witness :
  Parse (script_text demo_items) = Some (Ok (records_at (str "<main>") 1 demo_items)).
Proof.
  apply Parse_roundtrip. unfold demo_items. constructor; [|constructor; [|constructor; [|constructor; [|constructor]]]]; cbn [item_ok].
  - split; [constructor|]. apply (bool_decide_unpack _). vm_compute. exact I.
  - lia.
  - split; [|split]; apply (bool_decide_unpack _); vm_compute; exact I.
  - apply (bool_decide_unpack _). vm_compute. exact I.
Defined.

(** A bare [halt] is refused: the parser wants a second word. *)
Example halt_refused : Parse (str "halt" ++ [10]) = Some (Throw EMessage).
Proof. vm_compute. reflexivity. Qed.
(** Any word but [ok] and [error] after [statement] leaves the flag uninitialized. *)
Example statement_maybe_undefined : Parse (str "statement maybe" ++ [10]) = Some (Throw Undefined).
Proof. vm_compute. reflexivity. Qed.
(** A line that is no record is skipped without a word. *)
Example unknown_line_skipped : Parse (str "statment ok" ++ [10] ++ str "select 1;" ++ [10]) = Some (Ok []).
Proof. vm_compute. reflexivity. Qed.
