(* ===== verification/SqlRunner.v ===== *)
(** * Running test scripts

    The sqllogictest tool (tools/sqllogictest/sqllogictest.cpp): comparing results, the extra options of
    a record and the loop of [main] over the records. The engine under test is an interface,
    [SqlEngine], which the instance of Session.v implements. What the tool prints on the console and
    the clock of [timing] are left out; the files of a difference are given by their contents.

    Proved: comparing with rowsort is equality of the lines as multisets; and the check of a plan's
    text finds every node it looks for. *)

From Stdlib Require Import String Sorted.
From stdpp Require Import sorting.
From S2P Require Import Prelude.
From S2P Require Import CStd.
From S2P Require Import StringUtil.
From S2P Require Import Interfaces.
From S2P Require Import ExtHash.
From S2P Require Import LruK.
From S2P Require Import Disk.
From S2P Require Import BufferPool.
From S2P Require Import Pool.
From S2P Require Import Pages.
From S2P Require Import TablePage.
From S2P Require Import TableHeap.
From S2P Require Import Value.
From S2P Require Import Tuple.
From S2P Require Import Catalog.
From S2P Require Import Transactions.
From S2P Require Import Expressions.
From S2P Require Import Plans.
From S2P Require Import Bound.
From S2P Require Import Binder.
From S2P Require Import Planner.
From S2P Require Import Executors.
From S2P Require Import Optimizer.
From S2P Require Import Explain.
From S2P Require Import Writers.
From S2P Require Import Instance.
From S2P Require Import Session.
From S2P Require Import SqlLogicTest.
Local Open Scope Z_scope.

(** ** Comparing results *)

(** The lines of a text without trailing white space; lines that are empty then are dropped. *)
Definition SplitLines (lines : list Z) : list (list Z) := filter (fun l => l <> []) (RTrim <$> Split_char lines 10).

(** The order of [std::string]: by bytes, a prefix first. *)
Fixpoint string_leb (a b : list Z) : bool :=
  match a, b with
  | [], _ => true
  | _ :: _, [] => false
  | x :: a, y :: b => if x <? y then true else if y <? x then false else string_leb a b
  end.
Definition string_le (a b : list Z) : Prop := string_leb a b = true.
#[export] Instance string_le_dec a b : Decision (string_le a b) := decide (string_leb a b = true).

(** The contents of result.log and expected.log when they are written. *)
Abbreviation DiffFiles := (option (list Z) * option (list Z))%type.
Definition file_of (lines : list (list Z)) : list Z := concat ((fun l => l ++ [10]) <$> lines).

(** [opens] says whether each of the two files can be opened. *)
Definition ResultCompare (opens : bool * bool) (produced_result expected_result : list Z) (sort_mode : SortMode) (dump_diff : bool)
    : DiffFiles * result bool :=
  let a_lines := SplitLines produced_result in
  let b_lines := SplitLines expected_result in
  let sorted := bool_decide (sort_mode = ROWSORT) in
  let a_lines := if sorted then merge_sort string_le a_lines else a_lines in
  let b_lines := if sorted then merge_sort string_le b_lines else b_lines in
  let cmp_result := bool_decide (a_lines = b_lines) in
  if negb cmp_result && dump_diff then
    if negb opens.1 then ((None, None), Throw EMessage)
    else if negb opens.2 then ((Some (file_of a_lines), None), Throw EMessage)
    else ((Some (file_of a_lines), Some (file_of b_lines)), Ok cmp_result)
  else ((None, None), Ok cmp_result).

(** ** The engine *)

(** What the tool asks of the instance: run a text and collect what a [SimpleStreamWriter] with these arguments
    writes, or run it with a [NoopWriter]. *)
Class SqlEngine (S : Type) : Type := {
  execute_text : list Z -> bool -> list Z -> S -> S * list Z * exit;
  execute_noop : list Z -> S -> S * exit;
}.

Section instance_engine.
Context {P : Type} `{Pages P}.
Context (parse : list Z -> result (list PGStmt)) (escaped : list Z -> list Z) (enable_logging : bool).
Context (shuffle : list Z -> list Z) (iteration : gmap (list Z) Z -> list (list Z * Z)).
Context (oid_order : gset Z -> list Z) (rid_order : gset RID -> list RID) (row_order : gmap Z (gset RID) -> list (Z * gset RID)).
Context (plan_fuel exec_fuel : nat).

(** The engine of the program. *)
Definition bustub_engine : SqlEngine (BustubInstance P) := {|
  execute_text sql disable_header separator b :=
    let '(b, w, e) := ExecuteSql parse escaped enable_logging shuffle iteration oid_order rid_order row_order plan_fuel exec_fuel sql
      (SimpleStreamWriter_ctor [] disable_header separator) b in (b, stream_ w, e);
  execute_noop sql b :=
    let '(b, _, e) := ExecuteSql parse escaped enable_logging shuffle iteration oid_order rid_order row_order plan_fuel exec_fuel sql mkNoop b in (b, e);
|}.
End instance_engine.

(** ** Extra options *)

Inductive checked : Type := Passed | Failed | CheckThrown (x : exn) | CheckStopped.

Section options.
Context {S : Type} `{SqlEngine S}.
Implicit Types (s : S).

Definition split_at (s sep : list Z) : option (list (list Z)) := Split_str (2 + length s) s sep.

(** The arguments of [timing]: the number of repetitions. *)
Fixpoint timing_args (args : list (list Z)) (repeat : Z) : result Z :=
  match args with
  | [] => Ok repeat
  | arg :: args =>
      (let! is_x := StartsWith arg (str "x") in
       if is_x : bool then let! n := stoi (tail arg) in timing_args args n
       else
         let! is_label := StartsWith arg (str ".") in
         if is_label : bool then timing_args args repeat else Throw NotImplemented)%bustub
  end.

Fixpoint repeat_noop (n : nat) (sql : list Z) s : S * checked :=
  match n with
  | O => (s, Passed)
  | Datatypes.S n =>
      match execute_noop sql s with
      | (s, Done) => repeat_noop n sql s
      | (s, Thrown x) => (s, CheckThrown x)
      | (s, Stopped) => (s, CheckStopped)
      end
  end.

(** The check of an [ensure] option on the text of EXPLAIN. *)
Definition ensure_check (opt text : list Z) : checked :=
  let found word := if Contains text (str word) then Passed else Failed in
  if bool_decide (opt = str "ensure:index_scan") then found "IndexScan"%string
  else if bool_decide (opt = str "ensure:topn") then found "TopN"%string
  else if bool_decide (opt = str "ensure:topn*2") then
    match split_at text (str "TopN") with
    | None => CheckStopped
    | Some pieces => if zlen pieces =? 3 then Passed else Failed
    end
  else if bool_decide (opt = str "ensure:index_join") then found "NestedIndexJoin"%string
  else CheckThrown NotImplemented.

Definition check_option (sql : list Z) s (opt : list Z) : S * checked :=
  match StartsWith opt (str "ensure:") with
  | Throw x => (s, CheckThrown x)
  | Ok true =>
      match execute_text (str "explain " ++ sql) false [9] s with
      | (s, text, Done) => (s, ensure_check opt text)
      | (s, _, Thrown x) => (s, CheckThrown x)
      | (s, _, Stopped) => (s, CheckStopped)
      end
  | Ok false =>
      match StartsWith opt (str "timing") with
      | Throw x => (s, CheckThrown x)
      | Ok true =>
          match split_at opt (str ":") with
          | None => (s, CheckStopped)
          | Some args =>
              match timing_args (tail args) 1 with
              | Throw x => (s, CheckThrown x)
              | Ok repeat => repeat_noop (Z.to_nat repeat) sql s
              end
          end
      | Ok false =>
          match StartsWith opt (str "explain") with
          | Throw x => (s, CheckThrown x)
          | Ok true =>
              match split_at opt (str "explain:") with
              | None => (s, CheckStopped)
              | Some x =>
                  let text := match x with
                              | (_ :: _) as x0 :: _ => str "explain (" ++ x0 ++ str ") " ++ sql
                              | _ => str "explain " ++ sql
                              end in
                  match execute_text text false [9] s with
                  | (s, _, Done) => (s, Passed)
                  | (s, _, Thrown x) => (s, CheckThrown x)
                  | (s, _, Stopped) => (s, CheckStopped)
                  end
              end
          | Ok false => (s, CheckThrown NotImplemented)
          end
      end
  end.

Fixpoint ProcessExtraOptions (sql : list Z) (extra_options : list (list Z)) s : S * checked :=
  match extra_options with
  | [] => (s, Passed)
  | opt :: opts =>
      match check_option sql s opt with
      | (s, Passed) => ProcessExtraOptions sql opts s
      | r => r
      end
  end.

(** ** The loop of [main] *)

(** How the tool ends. *)
Inductive verdict : Type := Code (n : Z) | Uncaught (x : exn) | NoEnd.

Context (opens : bool * bool) (diff : bool).

(** A record: the state it leaves and, when it ends the run, the verdict. *)
Definition run_record s (record : TestRecord) : S * option verdict :=
  match record with
  | HaltRecord _ => (s, Some (Code 0))
  | SleepRecord _ _ => (s, None)
  | StatementRecord _ is_error sql extra_options =>
      let caught s x := if is_Exception x then (s, if negb is_error then Some (Code 1) else None) else (s, Some (Uncaught x)) in
      match ProcessExtraOptions sql extra_options s with
      | (s, Failed) => (s, Some (Code 1))
      | (s, CheckThrown x) => caught s x
      | (s, CheckStopped) => (s, Some NoEnd)
      | (s, Passed) =>
          match execute_text sql true [9] s with
          | (s, _, Done) => (s, if is_error : bool then Some (Code 1) else None)
          | (s, _, Thrown x) => caught s x
          | (s, _, Stopped) => (s, Some NoEnd)
          end
      end
  | QueryRecord _ sort_mode sql expected extra_options =>
      let caught s x := (s, Some (if is_Exception x then Code 1 else Uncaught x)) in
      match ProcessExtraOptions sql extra_options s with
      | (s, Failed) => (s, Some (Code 1))
      | (s, CheckThrown x) => caught s x
      | (s, CheckStopped) => (s, Some NoEnd)
      | (s, Passed) =>
          match execute_text sql true [32] s with
          | (s, text, Done) =>
              match (ResultCompare opens text expected sort_mode diff).2 with
              | Ok true => (s, None)
              | Ok false => (s, Some (Code 1))
              | Throw x => caught s x
              end
          | (s, _, Thrown x) => caught s x
          | (s, _, Stopped) => (s, Some NoEnd)
          end
      end
  | IncludeRecord _ _ => (s, Some (Uncaught EMessage))
  end.

Fixpoint run_records s (records : list TestRecord) : verdict :=
  match records with
  | [] => Code 0
  | record :: records =>
      match run_record s record with
      | (_, Some v) => v
      | (s, None) => run_records s records
      end
  end.

(** [main] from the text of the script on, on an instance with its tables. *)
Definition test_main (script : list Z) s : verdict :=
  match Parse script with
  | None => NoEnd
  | Some (Throw x) => Uncaught x
  | Some (Ok records) => run_records s records
  end.
End options.

(** ** Comparing with rowsort *)

#[export] Instance string_le_trans : Transitive string_le.
Proof.
  intros a. unfold string_le. induction a as [|x a IH]; intros [|y b] [|z c]; cbn; try done.
  destruct (Z.ltb_spec x y), (Z.ltb_spec y x), (Z.ltb_spec y z), (Z.ltb_spec z y), (Z.ltb_spec x z), (Z.ltb_spec z x); try done; try lia. apply IH.
Qed.
#[export] Instance string_le_total : Total string_le.
Proof.
  intros a. unfold string_le. induction a as [|x a IH]; intros [|y b]; cbn; try (by left); try (by right).
  destruct (Z.ltb_spec x y), (Z.ltb_spec y x); try lia; auto.
Qed.
#[export] Instance string_le_antisymm : AntiSymm (=) string_le.
Proof.
  intros a. unfold string_le. induction a as [|x a IH]; intros [|y b]; cbn; try done.
  destruct (Z.ltb_spec x y), (Z.ltb_spec y x); try done; try lia. intros H1 H2. f_equal; [lia|by apply IH].
Qed.

Lemma sort_eq a b : merge_sort string_le a = merge_sort string_le b <-> a ≡ₚ b.
Proof.
  split.
  - intros E. by rewrite <- (merge_sort_Permutation string_le a), <- (merge_sort_Permutation string_le b), E.
  - intros E. apply (StronglySorted_unique string_le); [apply StronglySorted_merge_sort; apply _..|].
    by rewrite !merge_sort_Permutation.
Qed.

(** The lines that count agree: in order, or in any order. *)
Definition lines_agree (sort_mode : SortMode) (a b : list Z) : Prop :=
  if decide (sort_mode = ROWSORT) then SplitLines a ≡ₚ SplitLines b else SplitLines a = SplitLines b.

(** Comparing a result with the expected one. Whether the files of a difference are asked for and can be written or
    not, the comparison returns true exactly when the texts have the same lines, not counting trailing
    white space and empty lines: in the same order, or, with rowsort, in any order but equally often.
    Otherwise it returns false or, when a file cannot be opened, throws. *)
Theorem ResultCompare_correct (opens : bool * bool) (produced expected : list Z) (sort_mode : SortMode) (dump_diff : bool) :
  (ResultCompare opens produced expected sort_mode dump_diff).2 = Ok true <-> lines_agree sort_mode produced expected.
Proof.
  unfold ResultCompare, lines_agree. destruct (decide (sort_mode = ROWSORT)) as [->|Hm].
  - rewrite <- sort_eq. cbn. case_bool_decide as E; cbn; [done|]. destruct dump_diff, opens as [[] []]; cbn; by split.
  - rewrite (bool_decide_false (sort_mode = ROWSORT)) by done. case_bool_decide as E; cbn; [done|].
    destruct dump_diff, opens as [[] []]; cbn; by split.
Qed.

(** ** The plan checks *)

(** The option that looks for a node of a kind. *)
Definition ensure_option (k : PlanKind) : option (list Z) :=
  match k with
  | IndexScanPlanNode _ => Some (str "ensure:index_scan")
  | TopNPlanNode _ _ => Some (str "ensure:topn")
  | NestedIndexJoinPlanNode _ _ _ _ _ _ _ => Some (str "ensure:index_join")
  | _ => None
  end.
Definition ensure_word (k : PlanKind) : list Z :=
  match k with
  | IndexScanPlanNode _ => str "IndexScan"
  | TopNPlanNode _ _ => str "TopN"
  | _ => str "NestedIndexJoin"
  end.

Lemma ensure_check_word k opt text : ensure_option k = Some opt -> Contains text (ensure_word k) = true -> ensure_check opt text = Passed.
Proof.
  destruct k; intros [= <-] Hc; unfold ensure_check; cbn [ensure_word] in Hc.
  - rewrite bool_decide_true by done. by rewrite Hc.
  - rewrite !(bool_decide_false (str "ensure:index_join" = _)) by done. rewrite bool_decide_true by done. by rewrite Hc.
  - rewrite (bool_decide_false (str "ensure:topn" = str "ensure:index_scan")) by done. rewrite bool_decide_true by done. by rewrite Hc.
Qed.

Lemma Contains_start word rest : Contains (word ++ rest) word = true.
Proof. apply Contains_spec. by exists [], rest. Qed.

Lemma node_line_word ws p l : is_Some (ensure_option (plan_kind p)) -> node_line ws p = Ok l -> Contains l (ensure_word (plan_kind p)) = true.
Proof.
  unfold node_line. destruct (PlanNodeToString (plan_kind p)) as [n|] eqn:E; cbn [rbind]; [|done]. intros Hs [= <-].
  assert (Hn : Contains n (ensure_word (plan_kind p)) = true).
  { destruct (plan_kind p); try (by destruct Hs); cbn [PlanNodeToString ensure_word] in *.
    - injection E as <-. apply (Contains_start (str "IndexScan")).
    - destruct (ToString _); cbn [rbind] in E; [|done]. injection E as <-. apply (Contains_start (str "NestedIndexJoin")).
    - destruct (fmt_order_bys _); cbn [rbind] in E; [|done]. injection E as <-. apply (Contains_start (str "TopN")). }
  destruct ws; [|done]. by apply (Contains_app []).
Qed.

Section ensure.
Context {P : Type} `{Pages P}.
Context (escaped : list Z -> list Z) (iteration : gmap (list Z) Z -> list (list Z * Z)) (plan_fuel : nat).

(** C34: the plan checks never reject a plan that has the node. If EXPLAIN of a statement, with the optimizer's plan among its
    options, succeeds, and the optimized plan has an index scan, a top-N or an index join node (and no line feeds
    in names and constants), then the option that looks for this node accepts what EXPLAIN wrote. *)
Theorem ensure_finds_node (s s' : Session P SimpleStreamWriter) (statement : BoundStatement) (options : Z)
    (plan optimized_plan node : AbstractPlanNode) (opt : list Z) :
  execute_explain escaped iteration plan_fuel s statement options = (s', Done) ->
  Z.land options 4 <> 0 ->
  plan_and_optimize iteration plan_fuel s statement = Some (Ok (plan, optimized_plan)) ->
  one_line (negb (Z.land options 8 =? 0)) optimized_plan ->
  node ∈ plan_nodes optimized_plan -> ensure_option (plan_kind node) = Some opt ->
  ensure_check opt (stream_ (writer_ s')) = Passed.
Proof.
  unfold execute_explain, plan_and_optimize. generalize (str "=== OPTIMIZER ===") as title. intros title He H4 Hp Ho Hn Hopt. eapply ensure_check_word; [exact Hopt|].
  set (ws := negb (Z.land options 8 =? 0)) in *.
  destruct (explain_part options 1 _ _) as [binder_text|]; [|done].
  destruct (PlanQuery _ _ _ _) as [[[plan_ st]|x]|]; try done.
  destruct (explain_part options 2 _ _) as [planner_text|]; cbn [rbind] in He; [|done].
  injection Hp as Hp. destruct (Optimize _ _ _ plan_) as [q|]; cbn [rbind] in Hp, He; [|done]. injection Hp as _ ->.
  unfold explain_part in He. rewrite (proj2 (Z.eqb_neq (Z.land options 4) 0)) in He by done. cbn [negb] in He.
  destruct (Plan_ToString ws optimized_plan) as [text|] eqn:Et; cbn [rbind] in He; [|done]. injection He as <-.
  pose proof (Plan_ToString_finds ws optimized_plan text node _ Ho Et Hn (fun l => node_line_word ws node l ltac:(by eexists))) as Hc.
  apply Contains_spec in Hc as (a & b & ->). apply Contains_spec.
  unfold WriteOneCell. cbn [BeginTable BeginRow WriteCell EndRow EndTable Simple_writer writer_ set_writer stream_ stream_put].
  exists (stream_ (writer_ s) ++ binder_text ++ planner_text ++ title ++ [10] ++ a), (b ++ [10] ++ separator_ (writer_ s) ++ [10]).
  generalize (ensure_word (plan_kind node)) as word. intros word. rewrite <- !app_assoc. cbn. by rewrite <- ?app_assoc.
Qed.
End ensure.

(** ** Examples *)

(** A table with an index, and [select * from t order by a]. *)
Definition order_select : PGStmt :=
  PGSelect (mkPGSelect None (Some [PGResTarget None (PGColumnRef [FieldStar None])]) (Some [PGRangeVar (str "t") None]) None None None None
    (Some [Some (PG_SORTBY_DEFAULT, PGColumnRef [FieldString (str "a")])]) None None None).
Definition script_parse (sql : list Z) : result (list PGStmt) :=
  if bool_decide (sql = str "create table t(a int);") then
    Ok [PGRawStmt (PGCreateStmt (str "t") [PGColumnDef (Some (str "a")) false (str "int4") None false])]
  else if bool_decide (sql = str "create index i on t(a);") then Ok [PGRawStmt (PGIndexStmt (str "i") (str "t") [Some (str "a")])]
  else if bool_decide (sql = str "values (1, 10), (2, 20);") then demo_parse sql
  else if bool_decide (sql = str "explain select * from t order by a;") then Ok [PGRawStmt (PGExplainStmt order_select None)]
  else Throw EMessage.

Definition fresh_instance : BustubInstance pool := BustubInstance_ctor (new_pool 5 2 new_disk).
Definition demo_engine : SqlEngine (BustubInstance pool) :=
  bustub_engine script_parse id false id map_to_list elements elements map_to_list 3 20.

Definition demo_test (expected : list (list Z)) : list item :=
  [StatementItem false [] [str "create table t(a int);"]; StatementItem true [] [str "create table t(a int);"];
   StatementItem false [] [str "create index i on t(a);"]; QueryItem true [] [str "values (1, 10), (2, 20);"] expected].

(** The parser, the runner and the engine together: a script that passes and one that does not. *)
Example test_passes : test_main (H := demo_engine) (true, true) false (script_text (demo_test [str "2 20"; str "1 10"])) fresh_instance = Code 0.
Proof. vm_compute. reflexivity. Qed.
Example test_fails : test_main (H := demo_engine) (true, true) false (script_text (demo_test [str "2 20"])) fresh_instance = Code 1.
Proof. vm_compute. reflexivity. Qed.

Definition indexed_script : list (list Z) := [str "create table t(a int);"; str "create index i on t(a);"].
Definition indexed_session : option (Session pool SimpleStreamWriter) :=
  '(b, w, _) ← run_script script_parse id false id map_to_list elements elements map_to_list 3 20 indexed_script
    (SimpleStreamWriter_ctor [] false [9]) fresh_instance;
  Some (mkSession (bi_catalog_ b) ∅ (bi_pages_ b) Transaction_ctor (SimpleStreamWriter_ctor [] false [9])).
Definition order_statement (c : Catalog) : option BoundStatement :=
  match BindStatement c order_select 0 with Ok (s, _) => Some s | _ => None end.

Definition index_scan_plan : AbstractPlanNode :=
  PlanNode (Schema_ctor [mkColumn (str "t.a") INTEGER 4 0 0]) [] (IndexScanPlanNode 0).

Lemma index_scan_one_line : one_line true index_scan_plan.
Proof. split; [|done]. cbn -[str]. by apply (bool_decide_unpack _); vm_compute. Qed.

Lemma ensure_finds_node_witness :
  exists s statement s', indexed_session = Some s /\ order_statement (catalog_ s) = Some statement /\
    execute_explain id map_to_list 3 s statement 15 = (s', Done) /\ ensure_check (str "ensure:index_scan") (stream_ (writer_ s')) = Passed.
Proof.
  assert (Hs : match indexed_session with Some s => match order_statement (catalog_ s) with Some _ => true | None => false end | None => false end = true)
    by (vm_compute; reflexivity).
  assert (He : (s ← indexed_session; st ← order_statement (catalog_ s);
    Some ((execute_explain id map_to_list 3 s st 15).2, snd <$> match plan_and_optimize map_to_list 3 s st with Some (Ok p) => Some p | _ => None end))
    = Some (Done, Some index_scan_plan)) by (vm_compute; reflexivity).
  destruct indexed_session as [s|]; [|discriminate Hs]. cbn [mbind option_bind] in He.
  destruct (order_statement (catalog_ s)) as [statement|] eqn:Eo; [|discriminate Hs]. cbn [mbind option_bind] in He.
  destruct (execute_explain id map_to_list 3 s statement 15) as [s' e] eqn:Ee.
  destruct (plan_and_optimize map_to_list 3 s statement) as [[[plan q]|]|] eqn:Ep; cbn in He; try discriminate He. injection He as -> ->.
  exists s, statement, s'. split; [reflexivity|]. split; [exact Eo|]. split; [exact Ee|].
  apply (ensure_finds_node id map_to_list 3 s s' statement 15 plan index_scan_plan index_scan_plan); [exact Ee|discriminate|exact Ep|
    exact index_scan_one_line|left|reflexivity].
Defined.
