(* ===== verification/Trie.v ===== *)
(** * The trie

    [TrieNode], [TrieNodeWithValue] and [Trie] of
    src/include/primer/p0_trie.h. A node owns its children through the map from
    their key characters, so a trie is a tree of nodes; the walk along the key
    with a pointer is the recursion on the key. The values are of any type [V]
    whose members know the C++ type [Tag] they have, which is what
    [dynamic_cast] tests. A call is one step: [Insert] and [Remove] run under the write latch. [GetValue] reads the
    value after it has given back the read latch (p0_trie.h:480-485), which makes no difference when no other call runs at
    the same time, the case the theorems are about.

    Proved: [Insert] and [GetValue] implement a map from non-empty keys. For
    [Remove] the theorem says exactly which keys disappear, which is not always
    the one asked for: a key that has an extension stays, and stored prefixes
    of the key whose other extensions are gone disappear with it. *)

From S2P Require Import Prelude.
Local Open Scope Z_scope.

Section trie.
Context {V : Type}.

(** ** Nodes *)

(** [value_] is present in a [TrieNodeWithValue]. *)
Inductive TrieNode : Type :=
| mkNode (key_char_ : Z) (is_end_ : bool) (value_ : option V) (children_ : gmap Z TrieNode).

Definition GetKeyChar (n : TrieNode) : Z := match n with mkNode k _ _ _ => k end.
Definition IsEndNode (n : TrieNode) : bool := match n with mkNode _ e _ _ => e end.
Definition value_ (n : TrieNode) : option V := match n with mkNode _ _ v _ => v end.
Definition children_ (n : TrieNode) : gmap Z TrieNode := match n with mkNode _ _ _ cs => cs end.
Definition set_children (n : TrieNode) (cs : gmap Z TrieNode) : TrieNode :=
  match n with mkNode k e v _ => mkNode k e v cs end.

(** [TrieNode(key_char)] and [TrieNodeWithValue(trieNode, value)] *)
Definition TrieNode_ctor (key_char : Z) : TrieNode := mkNode key_char false None ∅.
Definition TrieNodeWithValue_of (n : TrieNode) (value : V) : TrieNode :=
  mkNode (GetKeyChar n) true (Some value) (children_ n).

Definition HasChild (n : TrieNode) (c : Z) : bool := bool_decide (is_Some (children_ n !! c)).
Definition HasChildren (n : TrieNode) : bool := bool_decide (children_ n <> ∅).
Definition GetChildNode (n : TrieNode) (c : Z) : option TrieNode := children_ n !! c.

(** The node with its new child, or [None] when the call returns [nullptr]. *)
Definition InsertChildNode (n : TrieNode) (c : Z) (child : TrieNode) : option TrieNode :=
  if negb (HasChild n c) && (c =? GetKeyChar child)
  then Some (set_children n (<[c := child]> (children_ n))) else None.
Definition RemoveChildNode (n : TrieNode) (c : Z) : TrieNode :=
  if HasChild n c then set_children n (delete c (children_ n)) else n.

(** Writing through the pointer [GetChildNode] returned. *)
Definition set_child (n : TrieNode) (c : Z) (child : TrieNode) : TrieNode :=
  set_children n (<[c := child]> (children_ n)).

(** ** The trie *)

Definition Trie_ctor : TrieNode := TrieNode_ctor 0.

(** The walk of [Insert] from a node, and the replacement of the last one. *)
Fixpoint insert_path (n : TrieNode) (key : list Z) (value : V) : bool * TrieNode :=
  match key with
  | [] => if IsEndNode n then (false, n) else (true, TrieNodeWithValue_of n value)
  | c :: key =>
      let n := match GetChildNode n c with
               | None => default n (InsertChildNode n c (TrieNode_ctor c))
               | Some _ => n
               end in
      match GetChildNode n c with
      | Some p => let '(b, p) := insert_path p key value in (b, set_child n c p)
      | None => (false, n)
      end
  end.

Definition Insert (root : TrieNode) (key : list Z) (value : V) : bool * TrieNode :=
  match key with [] => (false, root) | _ => insert_path root key value end.

(** [Remove]: the nodes on the path are collected going down ([None] when the
    path ends early), then, from the last to the first, a node without children
    is removed from its father until one has children. The boolean says that
    the loop is still running. *)
Fixpoint remove_path (n : TrieNode) (key : list Z) : option (TrieNode * bool) :=
  match key with
  | [] => Some (n, true)
  | c :: key =>
      son ← GetChildNode n c;
      '(son, running) ← remove_path son key;
      Some (if (running : bool) && negb (HasChildren son) then (RemoveChildNode (set_child n c son) c, true)
            else (set_child n c son, false))
  end.

Definition Remove (root : TrieNode) (key : list Z) : bool * TrieNode :=
  match key with
  | [] => (false, root)
  | _ => match remove_path root key with
         | Some (root, _) => (true, root)
         | None => (false, root)
         end
  end.

(** [RemoveAux], the recursive version nothing calls; [None] when it
    dereferences a null pointer. *)
Fixpoint RemoveAux (n : TrieNode) (key : list Z) : option TrieNode :=
  match key with
  | [] => Some n
  | c :: key =>
      son ← GetChildNode n c;
      son ← RemoveAux son key;
      let n := set_child n c son in
      Some (match GetChildNode n c with
            | None => n
            | Some node => if negb (HasChildren node) then RemoveChildNode n c else n
            end)
  end.

Fixpoint find_node (n : TrieNode) (key : list Z) : option TrieNode :=
  match key with
  | [] => Some n
  | c :: key => p ← GetChildNode n c; find_node p key
  end.

(** [GetValue<T>(key, &success)], with no other call at the same time; [None] when [success] is false. *)
Definition GetValue {Tag} `{!EqDecision Tag} (tag : V -> Tag) (root : TrieNode) (t : Tag) (key : list Z) : option V :=
  n ← find_node root key;
  v ← value_ n;
  if decide (tag v = t) then Some v else None.

(** ** The map a trie stands for, and its invariant *)

Definition stored (n : TrieNode) (key : list Z) : option V := n ← find_node n key; value_ n.

(** The flag says whether there is a value, children sit under their character
    and every branch leads to a value. *)
Inductive trie_wf (n : TrieNode) : Prop :=
| trie_wf_intro :
    (IsEndNode n = bool_decide (is_Some (value_ n))) ->
    (forall c p, children_ n !! c = Some p -> trie_wf p) ->
    (forall c p, children_ n !! c = Some p -> GetKeyChar p = c) ->
    (forall c p, children_ n !! c = Some p -> children_ p <> ∅ \/ is_Some (value_ p)) ->
    trie_wf n.

Lemma stored_nil n : stored n [] = value_ n.
Proof. reflexivity. Qed.

Lemma stored_cons n c k : stored n (c :: k) = p ← children_ n !! c; stored p k.
Proof. unfold stored. cbn. unfold GetChildNode. by destruct (children_ n !! c). Qed.

Lemma children_set n cs : children_ (set_children n cs) = cs.
Proof. by destruct n. Qed.
Lemma value_set n cs : value_ (set_children n cs) = value_ n.
Proof. by destruct n. Qed.
Lemma end_set n cs : IsEndNode (set_children n cs) = IsEndNode n.
Proof. by destruct n. Qed.
Lemma char_set n cs : GetKeyChar (set_children n cs) = GetKeyChar n.
Proof. by destruct n. Qed.

(** A node with children leads to a stored key. *)
Lemma branch_stored n : trie_wf n -> children_ n <> ∅ -> exists c k v, stored n (c :: k) = Some v.
Proof.
  induction 1 as [n He Hc IH Hk Hl]. intros Hne. apply map_choose in Hne as (c & p & Hp).
  destruct (Hl c p Hp) as [Hch|[v Hv]].
  - destruct (IH c p Hp Hch) as (c' & k & v & Hs). exists c, (c' :: k), v. by rewrite stored_cons, Hp.
  - exists c, [], v. by rewrite stored_cons, Hp.
Qed.

Lemma set_child_wf n c p :
  trie_wf n -> trie_wf p -> GetKeyChar p = c -> (children_ p <> ∅ \/ is_Some (value_ p)) -> trie_wf (set_child n c p).
Proof.
  intros [He Hc Hk Hl] Hp Hpc Hpl. unfold set_child.
  constructor; rewrite ?end_set, ?value_set, ?children_set; [done|..];
    intros c' q [[<- <-]|[? Hq]]%lookup_insert_Some; eauto.
Qed.

Lemma remove_child_wf n c : trie_wf n -> trie_wf (RemoveChildNode n c).
Proof.
  intros Hn. pose proof Hn as [He Hc Hk Hl]. unfold RemoveChildNode. destruct (HasChild n c); [|done].
  constructor; rewrite ?end_set, ?value_set, ?children_set; [done|..];
    intros c' q [_ Hq]%lookup_delete_Some; eauto.
Qed.

Lemma Trie_ctor_wf : trie_wf Trie_ctor.
Proof. by constructor. Qed.

(** *** Insert *)

Lemma insert_path_spec key : forall n v,
  trie_wf n ->
  (fst (insert_path n key v) = bool_decide (stored n key = None)) /\
  (let n' := snd (insert_path n key v) in
   GetKeyChar n' = GetKeyChar n /\ trie_wf n' /\ (children_ n' <> ∅ \/ is_Some (value_ n')) /\
   forall k, stored n' k = if decide (k = key) then Some (default v (stored n key)) else stored n k).
Proof.
  induction key as [|c key IH]; intros n v Hn; pose proof Hn as [He Hc Hk Hl].
  - cbn [insert_path]. rewrite stored_nil. destruct (IsEndNode n) eqn:E; cbn [fst snd].
    + symmetry in He. apply bool_decide_eq_true_1 in He as [w Hw].
      rewrite Hw. cbn.
      split; [done|]. split_and!; [done|done|right; eauto|]. intros k.
      destruct (decide (k = [])) as [->|]; [|done]. by rewrite stored_nil, Hw.
    + symmetry in He. apply bool_decide_eq_false_1 in He.
      assert (Hnone : value_ n = None) by (destruct (value_ n); [by destruct He|done]). rewrite Hnone.
      split; [done|]. destruct n as [kc e w cs]. cbn in *. subst. split_and!; [done| |right; done|].
      * constructor; cbn; [done|done..].
      * intros k. destruct k as [|c k]; [done|]. by rewrite !stored_cons.
  - cbn [insert_path]. unfold GetChildNode.
    (* the child the walk goes to *)
    set (n1 := match children_ n !! c with None => _ | Some _ => n end).
    assert (exists p, children_ n1 !! c = Some p /\ trie_wf p /\ GetKeyChar p = c /\
      (forall k, stored p k = stored n (c :: k)) /\ trie_wf (set_child n1 c p) = trie_wf (set_child n c p) /\
      (forall q, set_child n1 c q = set_child n c q)) as (p & Hp1 & Hp & Hpc & Hps & _ & Hset).
    { subst n1. destruct (children_ n !! c) as [p|] eqn:Ep.
      - exists p. split_and!; [done|by eapply Hc|by eapply Hk| |done|done]. intros k. by rewrite stored_cons, Ep.
      - exists (TrieNode_ctor c). unfold InsertChildNode, HasChild.
        rewrite bool_decide_false by (rewrite Ep; by intros []). cbn [negb andb GetKeyChar TrieNode_ctor].
        rewrite Z.eqb_refl. cbn [default from_option id]. unfold id. rewrite children_set, lookup_insert_eq.
        split_and!; [done|by constructor|done| | |].
        + intros k. rewrite stored_cons, Ep. cbn. destruct k as [|c' k]; [done|]. by rewrite stored_cons.
        + f_equal. unfold set_child. destruct n. cbn. by rewrite insert_insert_eq.
        + intros q. unfold set_child. destruct n. cbn. by rewrite insert_insert_eq. }
    rewrite Hp1. destruct (IH p v Hp) as [Hb (Hpc' & Hp' & Hpl' & Hs')].
    destruct (insert_path p key v) as [b p']. cbn [fst snd] in *.
    rewrite Hps in Hb. rewrite Hset. split; [done|]. split_and!.
    + unfold set_child. by rewrite char_set.
    + apply set_child_wf; [done|done|congruence|done].
    + left. unfold set_child. rewrite children_set. apply insert_non_empty.
    + intros [|c' k].
      { rewrite decide_False by done. rewrite !stored_nil. unfold set_child. by rewrite value_set. }
      rewrite (stored_cons (set_child n c p')). unfold set_child. rewrite children_set.
      destruct (decide (c' = c)) as [->|Hcc].
      * rewrite lookup_insert_eq. cbn [mbind option_bind]. rewrite Hs', !Hps.
        destruct (decide (k = key)) as [->|]; [by rewrite decide_True|by rewrite decide_False by congruence].
      * rewrite lookup_insert_ne by done. rewrite decide_False by congruence. by rewrite stored_cons.
Qed.

(** *** Remove *)

(** The keys a removal of [key] takes away: the non-empty prefixes of [key]
    whose stored extensions are all prefixes of [key]. *)
Definition dropped (n : TrieNode) (key k : list Z) : Prop :=
  k <> [] /\ k `prefix_of` key /\ forall k', is_Some (stored n k') -> k `prefix_of` k' -> k' `prefix_of` key.

Lemma remove_path_None key : forall n, remove_path n key = None <-> find_node n key = None.
Proof.
  induction key as [|c key IH]; intros n; cbn; [done|]. unfold GetChildNode.
  destruct (children_ n !! c) as [p|]; cbn; [|done]. rewrite <- IH.
  by destruct (remove_path p key) as [[? ?]|].
Qed.

Lemma stored_set_nil n cs : stored (set_children n cs) [] = stored n [].
Proof. by rewrite !stored_nil, value_set. Qed.

Lemma lookup_child_remove n c p :
  children_ (RemoveChildNode (set_child n c p) c) = delete c (children_ n).
Proof.
  unfold RemoveChildNode, HasChild, set_child. rewrite children_set, lookup_insert_eq, bool_decide_true by eauto.
  by rewrite children_set, delete_insert_eq.
Qed.

Lemma remove_set_child n c p (n' := RemoveChildNode (set_child n c p) c) :
  GetKeyChar n' = GetKeyChar n /\ value_ n' = value_ n /\ IsEndNode n' = IsEndNode n.
Proof.
  subst n'. unfold RemoveChildNode, set_child. destruct (HasChild _ _); by rewrite ?char_set, ?value_set, ?end_set.
Qed.

(** What a walk of [Remove] leaves of a node. *)
Definition removed_from (n n' : TrieNode) (key : list Z) : Prop :=
  forall k, k <> [] ->
    (dropped n key k -> stored n' k = None) /\ (~ dropped n key k -> stored n' k = stored n k).

(** Nothing hangs below the node left exactly when all keys stored below it
    are prefixes of the key. *)
Lemma removed_childless n n' key :
  trie_wf n' -> removed_from n n' key ->
  (children_ n' = ∅ <-> forall k, k <> [] -> is_Some (stored n k) -> k `prefix_of` key).
Proof.
  intros Hwf Hrem. split.
  - intros He k Hk Hs. destruct (decide (k `prefix_of` key)) as [|Hnp]; [done|exfalso].
    destruct (Hrem k Hk) as [_ Hkept]. destruct k as [|c k]; [done|].
    rewrite stored_cons, He, lookup_empty in Hkept. rewrite <- Hkept in Hs; [by destruct Hs|].
    by intros (_ & Hp & _).
  - intros Hall. destruct (decide (children_ n' = ∅)) as [|Hne]; [done|exfalso].
    destruct (branch_stored n' Hwf Hne) as (c & k & v & Hs).
    destruct (Hrem (c :: k) ltac:(done)) as [Hdrop Hkept].
    destruct (stored n (c :: k)) as [w|] eqn:E.
    + rewrite Hdrop in Hs; [done|]. split_and!; [done|by apply Hall; eauto|].
      intros k' Hk' [r ->]. apply Hall; done.
    + rewrite Hkept in Hs; [done|]. intros Hd. by rewrite (Hdrop Hd) in Hs.
Qed.

Lemma dropped_cons n c p key k :
  children_ n !! c = Some p -> k <> [] -> dropped n (c :: key) (c :: k) <-> dropped p key k.
Proof.
  intros Hp Hk. unfold dropped. split; intros (_ & Hpre & Hall); split_and!; try done.
  - by apply prefix_cons_inv_2 in Hpre.
  - intros k' Hk' Hpk. eapply prefix_cons_inv_2, (Hall (c :: k')); [by rewrite stored_cons, Hp|by apply prefix_cons].
  - by apply prefix_cons.
  - intros k' Hk' [r ->]. apply prefix_cons, Hall; [|by apply prefix_app_r].
    by rewrite <- app_comm_cons, stored_cons, Hp in Hk'.
Qed.

Lemma dropped_head n key c k c' : dropped n (c :: key) (c' :: k) -> c' = c.
Proof. intros (_ & Hp & _). by apply prefix_cons_inv_1 in Hp. Qed.

(** One level up: the child goes with its node, or stays in it. *)
Lemma removed_child_gone n n' c p key :
  children_ n !! c = Some p -> children_ n' = delete c (children_ n) ->
  (forall k, k <> [] -> is_Some (stored p k) -> k `prefix_of` key) ->
  removed_from n n' (c :: key).
Proof.
  intros Hp Hn' Hall [|c' k] Hk; [done|]. rewrite !stored_cons, Hn'.
  destruct (decide (c' = c)) as [->|Hc].
  - rewrite lookup_delete_eq, Hp. cbn. split; [done|]. intros Hnd.
    destruct (stored p k) as [v|] eqn:E; [exfalso|done]. apply Hnd. split_and!; [done| |].
    + apply prefix_cons. destruct k; [apply prefix_nil|]. apply Hall; eauto.
    + intros k' Hs [r ->]. rewrite <- app_comm_cons, stored_cons, Hp in Hs. cbn in Hs. apply prefix_cons.
      change (k ++ r `prefix_of` key). destruct (decide (k ++ r = [])) as [->|]; [apply prefix_nil|by apply Hall].
  - rewrite lookup_delete_ne by done. split; [|done]. intros Hd. by apply dropped_head in Hd.
Qed.

Lemma removed_child_kept n n' c p p' key :
  children_ n !! c = Some p -> children_ n' = <[c := p']> (children_ n) ->
  value_ p' = value_ p -> removed_from p p' key ->
  ~ (forall k, k <> [] -> is_Some (stored p k) -> k `prefix_of` key) ->
  removed_from n n' (c :: key).
Proof.
  intros Hp Hn' Hv Hrem Hsome [|c' k] Hk; [done|]. rewrite !stored_cons, Hn'.
  destruct (decide (c' = c)) as [->|Hc].
  - rewrite lookup_insert_eq, Hp. cbn. destruct k as [|d k].
    + split; [|by rewrite !stored_nil]. intros (_ & _ & Hall). destruct Hsome. intros k' _ Hk'.
      eapply prefix_cons_inv_2, (Hall (c :: k')); [by rewrite stored_cons, Hp|]. apply prefix_cons, prefix_nil.
    + rewrite (dropped_cons n c p) by done. by apply Hrem.
  - rewrite lookup_insert_ne by done. split; [|done]. intros Hd. by apply dropped_head in Hd.
Qed.

Lemma running_childless n' (running : bool) :
  (running = false -> children_ n' <> ∅) ->
  running && negb (HasChildren n') = bool_decide (children_ n' = ∅).
Proof.
  intros Hrun. unfold HasChildren. destruct (decide (children_ n' = ∅)) as [Hz|Hz].
  - rewrite (bool_decide_true _ Hz), bool_decide_false by tauto.
    destruct running; [done|by destruct (Hrun eq_refl)].
  - rewrite (bool_decide_false _ Hz), bool_decide_true by done. by rewrite andb_false_r.
Qed.

Lemma remove_path_spec key : forall n n' running,
  trie_wf n -> remove_path n key = Some (n', running) ->
  GetKeyChar n' = GetKeyChar n /\ value_ n' = value_ n /\ trie_wf n' /\
  (running = false -> children_ n' <> ∅) /\ removed_from n n' key.
Proof.
  induction key as [|c key IH]; intros n n' running Hn; cbn.
  { intros [= <- <-]. split_and!; try done. intros k Hk. split; [|done].
    by intros (_ & ->%prefix_nil_inv & _). }
  unfold GetChildNode. destruct (children_ n !! c) as [p|] eqn:Ep; cbn; [|done].
  destruct (remove_path p key) as [[p' run]|] eqn:Er; cbn; [|done]. intros [= Hres].
  pose proof Hn as [He Hc Hk Hl].
  destruct (IH p p' run (Hc _ _ Ep) Er) as (Hpc & Hpv & Hp' & Hrun & Hrem).
  pose proof (removed_childless p p' key Hp' Hrem) as Hcl.
  rewrite (running_childless p' run Hrun) in Hres. destruct (decide (children_ p' = ∅)) as [Hz|Hz].
  - rewrite (bool_decide_true _ Hz) in Hres. injection Hres as <- <-.
    pose proof (lookup_child_remove n c p') as Hch.
    destruct (remove_set_child n c p') as (Hkc & Hval & Hend).
    split_and!; [done|done| |done|eapply removed_child_gone; [done|done|by apply Hcl]].
    constructor; rewrite ?Hend, ?Hval, ?Hch; [done|..]; intros c' q [_ Hq]%lookup_delete_Some; eauto.
  - rewrite (bool_decide_false _ Hz) in Hres. injection Hres as <- <-. unfold set_child at 1 2.
    rewrite char_set, value_set. split_and!; [done|done| | |].
    + apply set_child_wf; [done|done|rewrite Hpc; by eapply Hk|by left].
    + intros _. unfold set_child. rewrite children_set. apply insert_non_empty.
    + eapply removed_child_kept; [done|apply children_set|done|done|tauto].
Qed.

(** The loop that stops at the first node with children and the recursion that
    goes all the way up do the same. *)
Lemma RemoveAux_remove_path key : forall n,
  RemoveAux n key = fst <$> remove_path n key /\
  forall n', remove_path n key = Some (n', false) -> children_ n' <> ∅.
Proof.
  induction key as [|c key IH]; intros n; cbn; [by split|]. unfold GetChildNode.
  destruct (children_ n !! c) as [p|]; cbn; [|done]. destruct (IH p) as [-> Hrun].
  destruct (remove_path p key) as [[p' run]|]; cbn; [|done].
  rewrite (running_childless p' run) by (intros ->; by apply Hrun).
  unfold set_child at 1. rewrite children_set, lookup_insert_eq. unfold HasChildren.
  destruct (decide (children_ p' = ∅)) as [Hz|Hz].
  - by rewrite (bool_decide_true _ Hz), bool_decide_false by tauto.
  - rewrite (bool_decide_false _ Hz), bool_decide_true by done. split; [done|].
    intros n' [= <-]. unfold set_child. rewrite children_set. apply insert_non_empty.
Qed.

Lemma find_node_stored key : forall n,
  trie_wf n -> (children_ n <> ∅ \/ is_Some (value_ n)) ->
  is_Some (find_node n key) <-> exists k, key `prefix_of` k /\ is_Some (stored n k).
Proof.
  induction key as [|c key IH]; intros n Hn Hl; cbn.
  - split; [intros _|by eauto]. destruct Hl as [Hne|Hv].
    + destruct (branch_stored n Hn Hne) as (c & k & v & Hs). exists (c :: k). split; [apply prefix_nil|eauto].
    + exists []. split; [apply prefix_nil|done].
  - unfold GetChildNode. pose proof Hn as [_ Hc _ Hlv].
    destruct (children_ n !! c) as [p|] eqn:Ep; cbn.
    + rewrite (IH p (Hc _ _ Ep) (Hlv _ _ Ep)). split.
      * intros (k & Hk & Hs). exists (c :: k). rewrite stored_cons, Ep. split; [by apply prefix_cons|done].
      * intros (k & [r ->] & Hs). rewrite <- app_comm_cons, stored_cons, Ep in Hs.
        eexists. split; [|exact Hs]. by apply prefix_app_r.
    + split; [by intros []|]. intros (k & [r ->] & Hs).
      rewrite <- app_comm_cons, stored_cons, Ep in Hs. by destruct Hs.
Qed.

Lemma GetValue_stored {Tag} `{!EqDecision Tag} (tag : V -> Tag) r t k :
  GetValue tag r t k = w ← stored r k; if decide (tag w = t) then Some w else None.
Proof. unfold GetValue, stored. by destruct (find_node r k). Qed.

Lemma Insert_spec root key v :
  trie_wf root ->
  let '(b, root') := Insert root key v in
  trie_wf root' /\ b = bool_decide (key <> [] /\ stored root key = None) /\
  (forall k, stored root' k = if b && bool_decide (k = key) then Some v else stored root k).
Proof.
  intros Hwf. destruct key as [|c key]; cbn [Insert].
  { split_and!; [done|rewrite bool_decide_false; naive_solver|done]. }
  destruct (insert_path_spec (c :: key) root v Hwf) as [Hb (_ & Hwf' & _ & Hs)].
  destruct (insert_path root (c :: key) v) as [b root']. cbn [fst snd] in *.
  split_and!; [done| |].
  - rewrite Hb. apply bool_decide_ext. naive_solver.
  - intros k. rewrite Hs. destruct (decide (k = c :: key)) as [->|Hk].
    + rewrite (bool_decide_true (c :: key = _)), andb_true_r, Hb by done. by destruct (stored root (c :: key)).
    + by rewrite (bool_decide_false (k = _)), andb_false_r by done.
Qed.

Lemma Insert_wf root key v : trie_wf root -> trie_wf (snd (Insert root key v)).
Proof. intros Hwf. pose proof (Insert_spec root key v Hwf). destruct (Insert root key v). tauto. Qed.

(** *** The theorems *)

(** C40: [Trie::Insert] and [GetValue<T>] implement a map from non-empty keys in
    which keys are never overwritten: an insertion succeeds exactly when the
    key is non-empty and not stored, then the key is bound to the value and
    every other key keeps its own; a refused insertion changes no binding; the
    trie stays well formed; and [GetValue<T>] returns exactly the bound value,
    when it has type [T]. *)
Theorem Trie_Insert_GetValue {Tag} `{!EqDecision Tag} (tag : V -> Tag) root key v :
  trie_wf root ->
  let '(b, root') := Insert root key v in
  trie_wf root' /\
  b = bool_decide (key <> [] /\ stored root key = None) /\
  (forall k, stored root' k = if b && bool_decide (k = key) then Some v else stored root k) /\
  (forall t k, GetValue tag root' t k =
     w ← (if b && bool_decide (k = key) then Some v else stored root k);
     if decide (tag w = t) then Some w else None).
Proof.
  intros Hwf.
  pose proof (Insert_spec root key v Hwf) as H. destruct (Insert root key v) as [b root'].
  destruct H as (H1 & H2 & H3). split_and!; [done..|]. intros t k. by rewrite GetValue_stored, H3.
Qed.

(** [Trie::Remove] keeps the trie well formed and returns true exactly when
    the key is non-empty and a stored key extends it (the key itself need not
    be stored). When it returns true, the keys that disappear are exactly the
    non-empty prefixes of the key (the key itself among them) all of whose
    stored extensions are prefixes of the key; every other key keeps its value,
    the removed key included when it has a longer extension. When it returns
    false nothing changes. *)
Theorem Trie_Remove_exact root key :
  trie_wf root ->
  let '(b, root') := Remove root key in
  trie_wf root' /\
  (b = true <-> key <> [] /\ exists k, key `prefix_of` k /\ is_Some (stored root k)) /\
  (b = false -> root' = root) /\
  (b = true -> stored root' [] = stored root [] /\
     forall k, k <> [] ->
       (dropped root key k -> stored root' k = None) /\ (~ dropped root key k -> stored root' k = stored root k)).
Proof.
  intros Hwf. destruct key as [|c key]; cbn [Remove]; [by split_and!; [|naive_solver|..]|].
  assert (is_Some (find_node root (c :: key)) <-> exists k, c :: key `prefix_of` k /\ is_Some (stored root k)) as Hf.
  { destruct (decide (children_ root = ∅)) as [He|]; [|apply find_node_stored; auto].
    cbn. unfold GetChildNode. rewrite He, lookup_empty. split; [by intros []|].
    intros (k & [r ->] & Hs). rewrite <- app_comm_cons, stored_cons, He in Hs. by destruct Hs. }
  pose proof (remove_path_None (c :: key) root) as Hnone.
  destruct (remove_path root (c :: key)) as [[root' run]|] eqn:E.
  - destruct (remove_path_spec (c :: key) root root' run Hwf E) as (_ & Hv & Hwf' & _ & Hrem).
    split_and!; [done| |done|by rewrite !stored_nil]. split; [|done]. intros _. split; [done|]. apply Hf.
    destruct (find_node root (c :: key)); [by eauto|]. discriminate (proj2 Hnone eq_refl).
  - split_and!; [done| |done|done]. split; [done|]. intros [_ H%Hf]. rewrite (proj1 Hnone eq_refl) in H. by destruct H.
Qed.

(** The recursive [RemoveAux] and the loop of [Remove] leave the same trie,
    for every key whose path exists; on the others [RemoveAux] would
    dereference a null pointer while [Remove] refuses. *)
Theorem RemoveAux_equivalent root key :
  key <> [] ->
  RemoveAux root key = (if fst (Remove root key) then Some (snd (Remove root key)) else None).
Proof.
  intros Hk. rewrite (proj1 (RemoveAux_remove_path key root)). destruct key as [|c key]; [done|]. unfold Remove.
  by destruct (remove_path root (c :: key)) as [[root' run]|].
Qed.
End trie.

(** ** Examples *)

Definition ab_trie : TrieNode := snd (Insert (snd (Insert Trie_ctor [97] 1)) [97; 98] 2).

Lemma ab_trie_wf : trie_wf ab_trie.
Proof.
  apply Insert_wf, Insert_wf, Trie_ctor_wf.
Qed.

Lemma Trie_Insert_GetValue_witness :
  trie_wf ab_trie /\ snd (Insert ab_trie [98] 3) = snd (Insert ab_trie [98] 3) /\
  GetValue (fun _ : Z => 0) (snd (Insert ab_trie [98] 3)) 0 [97; 98] = Some 2.
Proof.
  split; [exact ab_trie_wf|split; [reflexivity|]].
  exact (proj2 (proj2 (proj2 (Trie_Insert_GetValue (fun _ : Z => 0) ab_trie [98] 3 ab_trie_wf))) 0 [97; 98]).
Defined.

Lemma Trie_Remove_exact_witness : trie_wf ab_trie /\ trie_wf (snd (Remove ab_trie [97])).
Proof. split; [exact ab_trie_wf|exact (proj1 (Trie_Remove_exact ab_trie [97] ab_trie_wf))]. Defined.

Lemma RemoveAux_equivalent_witness :
  [97; 98] <> [] /\ RemoveAux ab_trie [97; 98] = Some (snd (Remove ab_trie [97; 98])).
Proof. split; [discriminate|]. exact (RemoveAux_equivalent ab_trie [97; 98] ltac:(discriminate)). Defined.

(** [Remove] against its comment: a removed key with an extension is still
    found; removing "ab" takes "a" away as well; and removing the absent "a"
    from a trie with "ab" reports success. *)
Lemma Remove_keeps_extended_key :
  fst (Remove ab_trie [97]) = true /\ GetValue (fun _ => 0) (snd (Remove ab_trie [97])) 0 [97] = Some 1.
Proof. by split; vm_compute. Qed.

Lemma Remove_takes_prefix :
  GetValue (fun _ => 0) ab_trie 0 [97] = Some 1 /\
  GetValue (fun _ => 0) (snd (Remove ab_trie [97; 98])) 0 [97] = None.
Proof. by split; vm_compute. Qed.

Lemma Remove_absent_succeeds (root := snd (Insert Trie_ctor [97; 98] 2)) :
  GetValue (fun _ => 0) root 0 [97] = None /\ Remove root [97] = (true, root).
Proof. by split; vm_compute. Qed.
